(* ===== verification/_CoqProject ===== *)
-Q . S2P
Prelude.v
RustStr.v
Json.v
ToolError.v
Protocol.v
Runtime.v
RouterConfig.v
Registry.v
RegistryInv.v
RouterSteps.v
RouterTheorems.v
Router.v
RouterLogic.v
RouterOps.v
RouterOpen.v
WarmPool.v
IsoTime.v
Tasks.v
Queue.v
TaskQueues.v
QueueTheorems.v
Parse.v
ParseTheorems.v
Search.v
ControlFlow.v
ToolTable.v
ToolRegistry.v
Fs.v
IdbStore.v
IdbEviction.v
ResponseCache.v
F64.v
Federation.v
FederatedTasks.v
Serde.v
ToolRequests.v
IdaRequest.v
IdaWorker.v
RpcDispatch.v
RpcTheorems.v
RoutedTools.v
AsyncTools.v
McpLock.v
OpenDatabase.v
LoopArms.v
WorkerLoop.v
WorkerTheorems.v
WorkerMain.v
Paging.v
IdaDatabase.v
ListHandlers.v
MemoryHandlers.v
CodeHandlers.v
StructHandlers.v
MiscHandlers.v
IdatCompat.v
PyText.v
IdatTheorems.v
HttpSessions.v
OpenPath.v
Status.v
LocalTools.v
LocalTheorems.v
DebugScripts.v
Dsc.v
ScriptTools.v
DebugTools.v
TaskTools.v
McpServer.v
DscTasks.v
DscTheorems.v
RoutedSessions.v
SocketListener.v
Cli.v
CliTheorems.v
Gateway.v
ServerMain.v
WorkerHandlers.v
CompatScripts.v
CompatTheorems.v
