(* ===== verification/Prelude.v ===== *)
(** * ida-cli: a verification development

    ida-cli serves IDA Pro databases to command-line and MCP clients.  A router process
    (src/router/mod.rs) keeps one worker process per open database and forwards requests to
    them; around it are a task registry, two task queues, warm leases that keep databases open,
    a store of analysed databases, a cache of large responses and federation with other routers.
    Clients reach it through MCP tools (src/server), through a Unix socket that the command line
    uses (src/server/socket_listener.rs, src/cli) and through an HTTP gateway (src/main.rs).  A
    worker reads requests line by line, dispatches them (src/rpc_dispatch.rs) to a loop that owns
    the database (src/ida), and its handlers read or edit the database.  A second worker drives
    idat through scripts (src/idat_compat.rs).  All of these are modelled.

    ** Files

    Shared:
    - [Prelude]: [Result], 64-bit integers, [min_by_key], the stable sort, hash maps with an
      unspecified iteration order ([HashOrder]), sums over maps, tactics and the hint database
      [ida].
    - [RustStr]: the part of [str] and number formatting the sources use.  [Json]:
      [serde_json::Value].  [Serde]: derived readers and writers of structs, as codecs.
    - [Fs]: one directory, its files, the I/O oracle, and eviction by age.  [F64]: binary64
      arithmetic on the Standard Library's IEEE specification.  [PyText]: Python literals.

    The router (src/router/mod.rs):
    - [ToolError] (src/error.rs), [Protocol] (src/router/protocol.rs), [Runtime]
      (src/ida/runtime.rs, capabilities.rs), [RouterConfig] ([RouterConfig::from_env]).
    - [Registry]: [RouterInner] and every critical section on it, as functions on the state: what
      a task does between locking and unlocking.  [RegistryInv], [RouterSteps]: its invariant and
      the step relation in which any task may run any critical section next; [RouterTheorems] has
      what holds in every reachable state.
    - [Router]: the whole async operations, as programs of a state monad that tracks the mutexes
      held; taking a mutex that the task holds is [Deadlock].  [RouterLogic] is a program logic
      for it; [RouterOps], [RouterOpen] and [WarmPool] prove the operations correct when no other
      task interferes.  [OpenPath] resolves the path to open, [Status] is the status snapshot and
      the watchdog's automatic exit.
    - [Tasks], [IsoTime] (src/server/task.rs); [Queue], [TaskQueues],
      [QueueTheorems]: the scheduler both queues share, over any task type ([QueueItem]), and the
      two queues.  [Federation], [FederatedTasks] (src/federation.rs and the router's operations).
    - [IdbStore], [IdbEviction] (src/idb_store.rs), [ResponseCache]
      (src/server/response_cache.rs and [RouterState::prune_caches]).

    The server (src/server/mod.rs) and its clients:
    - [ToolTable], [ToolRegistry] (src/tool_registry.rs); [ToolRequests] (src/server/requests.rs).
    - [RoutedTools], [AsyncTools]: the tools in router mode, with the request that each sends.
      [LocalTools], [LocalTheorems]: the tools without a router.  [ScriptTools], [DebugScripts],
      [DebugTools], [Dsc], [DscTasks], [DscTheorems]: the tools that run scripts, the debugger
      and the shared cache.  [McpServer]: listing and calling tools; [TaskTools]: tools as tasks.
    - [HttpSessions], [RoutedSessions]: opening and closing with reference tokens.
    - [SocketListener]: the listener of the command line.  [Cli], [CliTheorems]: the command
      line.  [Gateway]: the HTTP gateway.  [ServerMain]: server processes on one machine.

    The worker:
    - [Parse], [ParseTheorems]: addresses, bytes and patterns.  [RpcDispatch], [RpcTheorems]: the
      dispatcher, over any worker.  [IdaRequest], [IdaWorker]: the request enum and the calls of
      the handle (src/ida/request.rs, worker.rs).
    - [LoopArms], [WorkerLoop], [WorkerTheorems] (src/ida/loop_impl.rs): the arms over an
      interface of handlers, and the queue between callers and loop.  [WorkerMain]: the line loop
      of the process.
    - [McpLock], [OpenDatabase]: lock files on a model of the system calls, and opening.
    - [IdaDatabase]: a database by its observations.  [Paging], [ListHandlers], [MemoryHandlers],
      [CodeHandlers], [StructHandlers], [MiscHandlers], [Search], [ControlFlow]: the handlers.
      [WorkerHandlers] discharges the loop's interface with them and writes their results as
      JSON (src/ida/types.rs), and puts the dispatcher on top.
    - [IdatCompat], [IdatTheorems]: the compatibility worker.  [CompatScripts]: the Python
      scripts that it runs inside idat, one definition per script over what IDAPython shows of
      the database ([Api]).  [CompatTheorems]: the two backends compared.

    A file whose second half opens with its own doc comment holds a component and then its
    theorems.

    ** What the theorems show

    - Registry: in every reachable state, under any interleaving of critical sections, the maps
      agree, the configured limits hold and request ids are unique; the three ways a worker is
      removed leave the same registry and answer every waiting caller; a response reaches the
      caller that asked, once.  Opening leaves a worker with a reference or no trace of a failed
      one; eviction, shutdown and idle collection end exactly the workers they should.
    - Queues and tasks: limits on what really runs, priority order, unique ids, one running task
      per key, a bounded number of finished tasks; loads of a shared cache are tracked and end.
    - Caches: eviction is by age, spares pinned databases, reports the truth and stops at the
      limit; no response is lost.
    - Federation: exactly the nodes that may and can take a request are tried, best rank first;
      a remote task is mirrored; a node that is posted is stored as written.
    - Server: a call reaches its tool under every alias; routed requests lose nothing; the two
      modes agree; a request that does not fit its struct never reaches the worker; request
      structs survive serialisation.
    - Command line: a command makes the worker call that it says; with the listener at the other
      end it prints what the listener answers; pipe mode answers every line; the printed status
      and function list are the router's and the database's; no request leaves a reference.
    - Gateway and processes: permits are conserved; a foreign origin changes nothing; a server
      that is up stays the only one.
    - Worker: requests are handled in order and every caller is answered; the process never
      leaves the loop running; locks exclude each other; following the pages of a listing shows
      everything once, at the handler and for a client of the dispatcher; reading requests
      change nothing; searches, listings and path enumeration are exact; what is read can be
      patched back.
    - The two backends: on a database that idalib and IDAPython see alike ([SameDatabase]), the
      native worker and the compatibility worker write the same response to a listing of
      functions, find the same bytes, callees and strings, print the same instructions and
      compare functions alike; where they differ (callers, case, rounding, patterns without
      blanks) the difference is stated.
    - Defects: some theorems state behaviour the code does not intend, such as the deadlock in
      [release_warm_lease], the readiness check that hangs, the task that runs twice, or the
      server that removes another one's files.

    ** Choices

    Integers are [Z] with the wrap-around or saturation of the source written out.  Instants and
    clocks are [Z] values passed in.  The critical sections of a mutex are atomic; what happens
    between them is interleaved in [RouterSteps], [WorkerLoop], [DscTasks], [HttpSessions],
    [McpLock], [Gateway] and [ServerMain], and run alone in [Router].  In [Gateway] the body of a
    request is one step.  Loops that are not structural have fuel, and the lemmas about them show
    that what they are given is enough: the driving loop of a queue gets the length of the queue,
    the eviction loop the number of workers, the scan of a segment its number of chunks plus one,
    path search the number of blocks plus one, the call graph the node limit, the walk of a
    function its size in bytes, making room in the warm pool the size of the pool plus one; the
    loops of a script over a function get its size in bytes, splitting a text into lines the
    length of the text.  Text is a sequence of bytes, and what depends on other characters than
    ASCII ones is a parameter.

    Parameters, for code that is not in the repository: idalib's databases (functions,
    references, blocks, memory) and its edits, IDAPython's modules and the running of a script by
    idat, the network, [hyper::Uri], [serde_json]'s printer and parser, BLAKE3, Unicode
    lower-casing, the process environment and the operating system's answers.

    ** Not modelled

    Vendored code (3rd-github: idalib and the MCP SDK), but for the dispatch of a tool call that
    [McpServer] follows; the parsing of arguments, which is clap's; logging and signal masks; the
    generator of the tools' documentation; the execution of the scripts of the debugger, of the
    shared cache and of structured decompilation inside IDA, of which the texts that the program
    composes are modelled. *)

From stdpp Require Import base gmap strings list sorting numbers fin_maps fin_map_dom.

(** ** The development's scope, hint database and tactics *)

Declare Scope ida_scope.
Delimit Scope ida_scope with ida.

Create HintDb ida discriminated.

(** Case analysis on the scrutinee of the first [match] or [if] found, in a
    hypothesis or in the goal, keeping the equation. *)
Ltac case_goal :=
  match goal with
  | |- context [match ?x with _ => _ end] =>
      lazymatch x with context [match _ with _ => _ end] => fail | _ => destruct x eqn:? end
  end.

Ltac case_in H :=
  match type of H with
  | context [match ?x with _ => _ end] =>
      lazymatch x with context [match _ with _ => _ end] => fail | _ => destruct x eqn:? end
  end.

(** Split every conjunction of the context and substitute the equations. *)
Ltac crush := repeat (destruct_and? || destruct_or? || simplify_eq/=); auto with ida.

(** ** Rust's [Result], with the [?] operator as a bind *)

Inductive result (A E : Type) : Type :=
| Ok (a : A)
| Err (e : E).
Arguments Ok {A E} _.
Arguments Err {A E} _.

Definition result_bind {A B E} (r : result A E) (f : A → result B E) : result B E :=
  match r with Ok a => f a | Err e => Err e end.

Notation "'let?' x := e 'in' k" := (result_bind e (λ x, k))
  (at level 10, x pattern, e at level 200, k at level 200) : ida_scope.

Definition ok {A E} (r : result A E) : option A :=
  match r with Ok a => Some a | Err _ => None end.

Definition ok_or {A E} (o : option A) (e : E) : result A E :=
  match o with Some a => Ok a | None => Err e end.

Definition is_ok {A E} (r : result A E) : bool :=
  match r with Ok _ => true | Err _ => false end.

(** [Iterator::collect::<Result<Vec<_>, _>>]: the first error wins. *)
Fixpoint collect {A E} (l : list (result A E)) : result (list A) E :=
  match l with
  | [] => Ok []
  | Ok a :: rest => match collect rest with Ok r => Ok (a :: r) | Err e => Err e end
  | Err e :: _ => Err e
  end.

Lemma collect_ok_iff {A E} (l : list (result A E)) r :
  collect l = Ok r ↔ l = Ok <$> r.
Proof.
  revert r; induction l as [|[a|e] l IH]; intros r; simpl.
  - destruct r; naive_solver.
  - destruct (collect l) as [r'|e] eqn:Hc; split.
    + intros [= <-]. simpl. f_equal. by apply IH.
    + destruct r as [|b r]; simpl; [done|]. intros [= -> Hl].
      apply IH in Hl. by simplify_eq.
    + done.
    + destruct r as [|b r]; simpl; [done|]. intros [= -> Hl]. apply IH in Hl. done.
  - destruct r; simpl; split; intros; simplify_eq.
Qed.

(** ** Machine integers: [u64] and [usize] values are [Z] in range *)

Definition u64_max : Z := 2 ^ 64 - 1.
Definition wrap64 (z : Z) : Z := z mod 2 ^ 64.
Definition saturating_add (a b : Z) : Z := Z.min (a + b) u64_max.
Definition saturating_sub (a b : Z) : Z := Z.max 0 (a - b).
Definition in_u64 (z : Z) : Prop := (0 ≤ z ≤ u64_max)%Z.

Lemma wrap64_small z : in_u64 z → wrap64 z = z.
Proof. intros [??]. apply Z.mod_small. unfold u64_max in *. lia. Qed.

Lemma wrap64_in z : in_u64 (wrap64 z).
Proof. pose proof (Z.mod_pos_bound z (2 ^ 64)). unfold in_u64, wrap64, u64_max. lia. Qed.

Lemma saturating_add_in a b : in_u64 a → in_u64 b → in_u64 (saturating_add a b).
Proof. unfold in_u64, saturating_add, u64_max. lia. Qed.

Lemma saturating_sub_in a b : in_u64 a → in_u64 b → in_u64 (saturating_sub a b).
Proof. unfold in_u64, saturating_sub, u64_max. lia. Qed.

#[export] Hint Resolve wrap64_in saturating_add_in saturating_sub_in : ida.

(** ** [Iterator::min_by_key]: the first element of least key *)

Section min_by_key.
Context {A : Type} (key : A → Z).

Fixpoint min_by_key (l : list A) : option A :=
  match l with
  | [] => None
  | x :: rest =>
      match min_by_key rest with
      | Some y => if bool_decide (key x ≤ key y)%Z then Some x else Some y
      | None => Some x
      end
  end.

Lemma min_by_key_None l : min_by_key l = None ↔ l = [].
Proof. destruct l as [|x l]; simpl; [done|]. repeat case_match; naive_solver. Qed.

Lemma min_by_key_elem l x : min_by_key l = Some x → x ∈ l.
Proof.
  revert x; induction l as [|y l IH]; intros x; simpl; [done|].
  destruct (min_by_key l) as [z|] eqn:E; [case_bool_decide|]; intros [= ->]; set_solver.
Qed.

Lemma min_by_key_min l x y : min_by_key l = Some x → y ∈ l → (key x ≤ key y)%Z.
Proof.
  revert x y; induction l as [|z l IH]; intros x y; simpl; [done|].
  destruct (min_by_key l) as [w|] eqn:E.
  - intros Hx [->|Hy]%elem_of_cons.
    + case_bool_decide; simplify_eq; lia.
    + specialize (IH w y eq_refl Hy). case_bool_decide; simplify_eq; lia.
  - apply min_by_key_None in E as ->. intros [= ->] ->%list_elem_of_singleton. lia.
Qed.
End min_by_key.

(** ** [slice::sort_by]: the stable sort of the standard library *)

Section sort_by.
Context {A : Type} (leb : A → A → bool).

Fixpoint sort_insert (x : A) (l : list A) : list A :=
  match l with
  | [] => [x]
  | y :: rest => if leb x y then x :: y :: rest else y :: sort_insert x rest
  end.

Definition sort_by (l : list A) : list A := foldr sort_insert [] l.

Lemma sort_insert_perm x l : sort_insert x l ≡ₚ x :: l.
Proof.
  induction l as [|y l IH]; simpl; [done|]. destruct (leb x y); [done|].
  rewrite IH. constructor.
Qed.

Lemma sort_by_perm l : sort_by l ≡ₚ l.
Proof. induction l as [|x l IH]; simpl; [done|]. by rewrite sort_insert_perm, IH. Qed.

Lemma sort_by_length l : length (sort_by l) = length l.
Proof. by rewrite sort_by_perm. Qed.

Lemma sort_by_elem x l : x ∈ sort_by l ↔ x ∈ l.
Proof. by rewrite sort_by_perm. Qed.

Context (Htotal : ∀ x y, leb x y = false → leb y x = true).

Lemma sort_insert_sorted x l : Sorted leb l → Sorted leb (sort_insert x l).
Proof.
  induction l as [|y l IH]; simpl; intros Hs; [by repeat constructor|].
  destruct (leb x y) eqn:E.
  - constructor; [done|]. constructor. by rewrite E.
  - inversion Hs as [|?? Hs' Hd]; subst. constructor; [by apply IH|].
    apply Htotal in E. destruct l as [|z l]; simpl; [constructor; by rewrite E|].
    destruct (leb x z); constructor; [by rewrite E|]. by inversion Hd.
Qed.

Lemma sort_by_sorted l : Sorted leb (sort_by l).
Proof. induction l; simpl; [constructor|]. by apply sort_insert_sorted. Qed.

Context (Htrans : ∀ x y z, leb x y = true → leb y z = true → leb x z = true).

Lemma sort_by_strongly_sorted l : StronglySorted leb (sort_by l).
Proof.
  apply Sorted_StronglySorted; [|apply sort_by_sorted].
  intros x y z Hxy%Is_true_true Hyz%Is_true_true. apply Is_true_true. eauto.
Qed.

(** A sorted list is a fixed point: re-sorting after a push moves only the new
    element. *)
Lemma sort_by_id l : StronglySorted leb l → sort_by l = l.
Proof.
  induction 1 as [|x l Hs IH Hx]; simpl; [done|]. rewrite IH.
  destruct l as [|y l]; simpl; [done|]. inversion Hx as [|?? Hxy]; subst.
  apply Is_true_true in Hxy. by rewrite Hxy.
Qed.
End sort_by.

(** ** [HashMap]: [gmap] with an unspecified iteration order

    [std::collections::HashMap] promises no iteration order.  Every definition
    that iterates over a map takes the order from this interface, so what is
    proved holds for any order; [canonical_order] is the instance that the
    executable examples use. *)

Class HashOrder : Type := {
  hash_iter : ∀ {V : Type}, gmap string V → list (string * V);
  hash_iter_perm : ∀ {V : Type} (m : gmap string V), hash_iter m ≡ₚ map_to_list m
}.

Definition canonical_order : HashOrder :=
  {| hash_iter := λ V m, map_to_list m; hash_iter_perm := λ V m, reflexivity _ |}.

Section hash_order.
Context `{HashOrder} {V : Type}.
Implicit Types m : gmap string V.

(** [map.keys().next().cloned()] *)
Definition first_key m : option string := fst <$> head (hash_iter m).

Lemma elem_of_hash_iter m k v : (k, v) ∈ hash_iter m ↔ m !! k = Some v.
Proof. by rewrite hash_iter_perm, elem_of_map_to_list. Qed.

Lemma hash_iter_length m : length (hash_iter m) = size m.
Proof. rewrite hash_iter_perm. apply length_map_to_list. Qed.

Lemma hash_iter_NoDup m : NoDup (hash_iter m).*1.
Proof. rewrite hash_iter_perm. apply NoDup_fst_map_to_list. Qed.

Lemma first_key_Some m k : first_key m = Some k → is_Some (m !! k).
Proof.
  unfold first_key. destruct (hash_iter m) as [|[k' v] l] eqn:E; simpl; [done|].
  intros [= <-]. exists v. apply elem_of_hash_iter. rewrite E. by left.
Qed.

Lemma first_key_None m : first_key m = None ↔ m = ∅.
Proof.
  unfold first_key. rewrite fmap_None, <-map_size_empty_iff, <-hash_iter_length.
  destruct (hash_iter m); simpl; naive_solver.
Qed.
End hash_order.

#[export] Hint Resolve first_key_Some : ida.

(** ** Sums over the values of a map *)

Section map_sum.
Context {V : Type} (f : V → nat).
Implicit Types m : gmap string V.

Definition map_sum m : nat := sum_list_with (λ kv, f kv.2) (map_to_list m).

Lemma map_sum_empty : map_sum ∅ = 0.
Proof. unfold map_sum. by rewrite map_to_list_empty. Qed.

Lemma map_sum_insert_new m k v :
  m !! k = None → map_sum (<[k:=v]> m) = f v + map_sum m.
Proof.
  intros Hk. unfold map_sum.
  by rewrite (map_to_list_insert m k v Hk).
Qed.

Lemma map_sum_delete m k v :
  m !! k = Some v → map_sum m = f v + map_sum (delete k m).
Proof.
  intros Hk. rewrite <-(map_sum_insert_new (delete k m) k v) by apply lookup_delete_eq.
  by rewrite insert_delete_id.
Qed.

Lemma map_sum_insert m k v w :
  m !! k = Some w → map_sum (<[k:=v]> m) + f w = f v + map_sum m.
Proof.
  intros Hk. rewrite <-(insert_delete_eq m k v), map_sum_insert_new by apply lookup_delete_eq.
  rewrite (map_sum_delete m k w Hk). lia.
Qed.

Lemma map_sum_lookup_le m k v : m !! k = Some v → f v ≤ map_sum m.
Proof. intros Hk. rewrite (map_sum_delete m k v Hk). lia. Qed.
End map_sum.

(** A map that only lost keys, and whose values only got lighter, weighs less. *)
Lemma map_sum_mono {V} (f : V → nat) (m' m : gmap string V) :
  (∀ k v', m' !! k = Some v' → ∃ v, m !! k = Some v ∧ f v' ≤ f v) →
  map_sum f m' ≤ map_sum f m.
Proof.
  revert m; induction m' as [|k x m' Hk IH] using map_ind; intros m Hm.
  - rewrite map_sum_empty. lia.
  - destruct (Hm k x) as (v & Hv & Hle); [by rewrite lookup_insert_eq|].
    rewrite map_sum_insert_new, (map_sum_delete f m k v) by done.
    enough (map_sum f m' ≤ map_sum f (delete k m)) by lia.
    apply IH. intros k' v' Hk'. assert (k ≠ k') by (intros ->; congruence).
    destruct (Hm k' v') as (v0 & ? & ?); [by rewrite lookup_insert_ne|].
    exists v0. by rewrite lookup_delete_ne.
Qed.

Lemma map_size_mono {K V W} `{Countable K} (m' : gmap K V) (m : gmap K W) :
  (∀ k, is_Some (m' !! k) → is_Some (m !! k)) → size m' ≤ size m.
Proof.
  intros Hm. rewrite <-!size_dom. apply subseteq_size. intros k.
  rewrite !elem_of_dom. apply Hm.
Qed.

(** ** Deleting a list of keys *)

Section delete_keys.
Context {V B : Type}.
Implicit Types (m : gmap string V) (l : list (string * B)).

Definition delete_keys l m : gmap string V := foldl (λ m kb, delete kb.1 m) m l.

Lemma lookup_delete_keys l m i :
  delete_keys l m !! i = if bool_decide (i ∈ l.*1) then None else m !! i.
Proof.
  unfold delete_keys. revert m; induction l as [|[k b] l IH]; intros m; simpl; [done|]. rewrite IH.
  destruct (decide (k = i)) as [->|Hne].
  - rewrite lookup_delete_eq, (bool_decide_true (i ∈ i :: _)) by set_solver. by case_bool_decide.
  - rewrite lookup_delete_ne by done. by rewrite (bool_decide_ext (i ∈ l.*1) (i ∈ k :: l.*1)) by set_solver.
Qed.

Lemma size_delete_keys l m :
  NoDup l.*1 → (∀ kb, kb ∈ l → is_Some (m !! kb.1)) → size (delete_keys l m) = size m - length l.
Proof.
  unfold delete_keys. revert m; induction l as [|[k b] l IH]; intros m Hnd Hin; simpl; [lia|].
  apply NoDup_cons in Hnd as [Hk Hnd]. rewrite IH; [|done|].
  - rewrite map_size_delete_Some by (apply (Hin (k, b)); set_solver). lia.
  - intros [k' b'] Hin'. simpl. rewrite lookup_delete_ne; [apply (Hin (k', b')); set_solver|].
    intros ->. apply Hk. apply list_elem_of_fmap. by exists (k', b').
Qed.
End delete_keys.
