(* ===== verification/RustStr.v ===== *)
(** * Rust strings and number formatting

    The part of [str], [char] and [fmt] that the sources use, on byte strings:
    trimming, prefixes, splitting, substring search, [from_str_radix] and the
    [{}], [{:x}], [{:b}], [{:02x}] and [{:016x}] formats.  Text is ASCII: the
    multi-byte white space that [str::trim] also removes is out of the model. *)

From Stdlib Require Import Ascii.
From stdpp Require Import base strings list numbers.
From S2P Require Import Prelude.

(** ** Characters *)

(** [char::is_whitespace] on ASCII. *)
Definition is_whitespace (c : ascii) : bool := Ascii.is_space c.

(** [char::is_ascii_whitespace]: the vertical tab is not one. *)
Definition is_ascii_whitespace (c : ascii) : bool :=
  match c with
  | "009" | "010" | "012" | "013" | " " => true
  | _ => false
  end%char.

Definition code (c : ascii) : Z := Z.of_N (Ascii.N_of_ascii c).
Definition chr (z : Z) : ascii := Ascii.ascii_of_N (Z.to_N z).

Definition to_ascii_lowercase_char (c : ascii) : ascii :=
  if (65 <=? code c)%Z && (code c <=? 90)%Z then chr (code c + 32) else c.

(** [char::to_digit(radix)], [2 <= radix <= 36]. *)
Definition to_digit (radix : Z) (c : ascii) : option Z :=
  let k := code c in
  let d :=
    (if (48 <=? k) && (k <=? 57) then k - 48
     else if (97 <=? k) && (k <=? 122) then k - 87
     else if (65 <=? k) && (k <=? 90) then k - 55
     else radix)%Z in
  if (d <? radix)%Z then Some d else None.

(** [char::is_ascii_hexdigit] *)
Definition is_ascii_hexdigit (c : ascii) : bool := bool_decide (is_Some (to_digit 16 c)).

(** The lower-case digit that [fmt] prints. *)
Definition from_digit (d : Z) : ascii :=
  if (d <? 10)%Z then chr (d + 48) else chr (d + 87).

Definition nul_char : ascii := "000"%char.
Definition newline : string := String "010" "".
Definition quote : string := String "034" "".

(** ** Strings *)

Fixpoint str_all (p : ascii → bool) (s : string) : bool :=
  match s with "" => true | String c s => p c && str_all p s end.

Fixpoint trim_start_with (p : ascii → bool) (s : string) : string :=
  match s with
  | "" => ""
  | String c rest => if p c then trim_start_with p rest else s
  end.

(** Drop the longest suffix of characters satisfying [p]. *)
Fixpoint trim_end_with (p : ascii → bool) (s : string) : string :=
  match s with
  | "" => ""
  | String c rest => if str_all p s then "" else String c (trim_end_with p rest)
  end.

(** [str::trim] *)
Definition trim (s : string) : string :=
  trim_end_with is_whitespace (trim_start_with is_whitespace s).

(** [str::strip_prefix] *)
Fixpoint strip_prefix (p s : string) : option string :=
  match p, s with
  | "", _ => Some s
  | String a p, String b s => if bool_decide (a = b) then strip_prefix p s else None
  | _, "" => None
  end.

Definition starts_with (p s : string) : bool := bool_decide (is_Some (strip_prefix p s)).

(** [str::contains] on a pattern string. *)
Fixpoint contains (p s : string) : bool :=
  starts_with p s || match s with "" => false | String _ s => contains p s end.

Fixpoint contains_char (p : ascii → bool) (s : string) : bool :=
  match s with "" => false | String c s => p c || contains_char p s end.

(** [str::ends_with] *)
Fixpoint ends_with (p s : string) : bool :=
  bool_decide (s = p) || match s with "" => false | String _ s => ends_with p s end.

(** [str::trim_start_matches(p)] for a non-empty pattern: strips it repeatedly. *)
Fixpoint trim_start_matches_fuel (n : nat) (p s : string) : string :=
  match n, strip_prefix p s with
  | S n, Some rest => trim_start_matches_fuel n p rest
  | _, _ => s
  end.
Definition trim_start_matches (p s : string) : string :=
  trim_start_matches_fuel (String.length s) p s.

(** [str::split] on a character predicate: never empty. *)
Fixpoint split_on (p : ascii → bool) (s : string) : list string :=
  match s with
  | "" => [""]
  | String c rest =>
      if p c then "" :: split_on p rest
      else match split_on p rest with
           | [] => [String c ""]
           | w :: ws => String c w :: ws
           end
  end.

(** [str::split_whitespace] *)
Definition split_whitespace (s : string) : list string :=
  filter (λ w, w ≠ "") (split_on is_whitespace s).

(** [strip_suffix('\r')], when there is one *)
Fixpoint strip_cr (s : string) : string :=
  match s with
  | "" => ""
  | String c "" => if bool_decide (c = "013"%char) then "" else s
  | String c rest => String c (strip_cr rest)
  end.

(** [str::lines]: the text after the last newline is a line unless it is empty. *)
Fixpoint lines_of (pieces : list string) : list string :=
  match pieces with
  | [] => []
  | [last] => if bool_decide (last = "") then [] else [last]
  | w :: ws => strip_cr w :: lines_of ws
  end.

Definition lines (s : string) : list string :=
  lines_of (split_on (λ c, bool_decide (c = "010"%char)) s).

Definition str_join (sep : string) (l : list string) : string := String.concat sep l.

Fixpoint str_map (f : ascii → ascii) (s : string) : string :=
  match s with "" => "" | String c s => String (f c) (str_map f s) end.

Definition to_ascii_lowercase (s : string) : string := str_map to_ascii_lowercase_char s.

(** [String::retain] *)
Fixpoint str_retain (p : ascii → bool) (s : string) : string :=
  match s with
  | "" => ""
  | String c s => if p c then String c (str_retain p s) else str_retain p s
  end.

(** ** Number formatting and parsing *)

(** The digits of [n], most significant first, in front of [acc]. *)
Fixpoint fmt_radix_go (fuel : nat) (radix n : Z) (acc : string) : string :=
  match fuel with
  | O => acc
  | S fuel =>
      let acc := String (from_digit (n mod radix)) acc in
      if (n <? radix)%Z then acc else fmt_radix_go fuel radix (n / radix) acc
  end.

(** [format!] of an unsigned integer in base [radix]: no padding, no prefix.  The
    fuel is one more than the number of bits, enough for any base. *)
Definition fmt_radix (radix n : Z) : string :=
  fmt_radix_go (S (Z.to_nat (Z.log2 n + 1))) radix n "".

Definition fmt_dec (n : Z) : string := fmt_radix 10 n.
Definition fmt_hex (n : Z) : string := fmt_radix 16 n.
Definition fmt_bin (n : Z) : string := fmt_radix 2 n.

(** [{:#x}] *)
Definition fmt_hex_alt (n : Z) : string := "0x" +:+ fmt_hex n.

Fixpoint zeros (n : nat) : string := match n with O => "" | S n => String "0" (zeros n) end.

(** [{:0width$}] padding of an already formatted number. *)
Definition pad_zero (width : nat) (s : string) : string :=
  zeros (width - String.length s) +:+ s.

(** [i64]'s [{}]. *)
Definition fmt_signed (n : Z) : string :=
  if (n <? 0)%Z then "-" +:+ fmt_dec (- n) else fmt_dec n.

(** The digit loop of [from_str_radix]: checked multiplication and addition. *)
Fixpoint parse_digits (max radix acc : Z) (s : string) : option Z :=
  match s with
  | "" => Some acc
  | String c s =>
      match to_digit radix c with
      | Some d =>
          if (acc * radix + d <=? max)%Z then parse_digits max radix (acc * radix + d) s
          else None
      | None => None
      end
  end.

(** [uN::from_str_radix], with [max] the type's greatest value: an optional
    leading plus sign, at least one digit, no overflow. *)
Definition from_str_radix (max radix : Z) (s : string) : option Z :=
  match s with
  | "" => None
  | String c rest =>
      if bool_decide (c = "+"%char) then
        match rest with "" => None | _ => parse_digits max radix 0 rest end
      else parse_digits max radix 0 s
  end.

(** [s.parse::<u64>()] *)
Definition parse_u64 (s : string) : option Z := from_str_radix u64_max 10 s.

(** ** Formatting and parsing are inverse *)

Lemma code_chr z : (0 ≤ z < 256)%Z → code (chr z) = z.
Proof. intros ?. unfold code, chr. rewrite Ascii.N_ascii_embedding; lia. Qed.

Lemma to_digit_from_digit radix d :
  (2 ≤ radix ≤ 36)%Z → (0 ≤ d < radix)%Z → to_digit radix (from_digit d) = Some d.
Proof.
  intros Hr Hd. unfold to_digit, from_digit.
  destruct (Z.ltb_spec d 10); rewrite code_chr by lia;
    repeat match goal with
    | |- context [(?a <=? ?b)%Z] => destruct (Z.leb_spec a b); [|try lia]; try lia
    end; simpl; rewrite (proj2 (Z.ltb_lt _ _)) by lia; f_equal; lia.
Qed.

Lemma to_digit_range radix c d : to_digit radix c = Some d → (0 ≤ d < radix)%Z.
Proof.
  unfold to_digit. intros H.
  destruct ((48 <=? code c) && (code c <=? 57))%Z eqn:E1;
    [|destruct ((97 <=? code c) && (code c <=? 122))%Z eqn:E2;
      [|destruct ((65 <=? code c) && (code c <=? 90))%Z eqn:E3]];
    (destruct (_ <? radix)%Z eqn:E4; [|done]); simplify_eq; lia.
Qed.

Lemma from_digit_not_plus d : (0 ≤ d < 36)%Z → from_digit d ≠ "+"%char.
Proof.
  intros Hd Heq%(f_equal code). unfold from_digit in Heq.
  destruct (d <? 10)%Z eqn:E; rewrite code_chr in Heq by lia;
    change (code "+"%char) with 43%Z in Heq; lia.
Qed.

Lemma fmt_radix_go_head fuel radix n acc :
  (2 ≤ radix)%Z → ∃ d rest, (0 ≤ d < radix)%Z ∧
    fmt_radix_go (S fuel) radix n acc = String (from_digit d) rest.
Proof.
  intros Hr. revert n acc; induction fuel as [|fuel IH]; intros n acc.
  - exists (n mod radix)%Z. simpl. case_match; eexists; (split; [|reflexivity]); apply Z.mod_pos_bound; lia.
  - change (fmt_radix_go (S (S fuel)) radix n acc) with
      (if (n <? radix)%Z then String (from_digit (n mod radix)) acc
       else fmt_radix_go (S fuel) radix (n / radix) (String (from_digit (n mod radix)) acc)).
    case_match; [|apply IH].
    eexists _, _; split; [|reflexivity]. apply Z.mod_pos_bound; lia.
Qed.

Lemma parse_digits_fmt fuel max radix n acc :
  (2 ≤ radix ≤ 36)%Z → (0 ≤ n < 2 ^ Z.of_nat fuel)%Z → (n ≤ max)%Z →
  parse_digits max radix 0 (fmt_radix_go (S fuel) radix n acc) = parse_digits max radix n acc.
Proof.
  intros Hr. revert n acc; induction fuel as [|fuel IH]; intros n acc Hn Hmax.
  - assert (n = 0)%Z as -> by (simpl in Hn; lia). simpl.
    rewrite (proj2 (Z.ltb_lt 0 radix)) by lia. simpl.
    rewrite Z.mod_0_l, to_digit_from_digit by lia.
    by rewrite (proj2 (Z.leb_le (0 * radix + 0) max)) by lia.
  - change (fmt_radix_go (S (S fuel)) radix n acc) with
      (if (n <? radix)%Z then String (from_digit (n mod radix)) acc
       else fmt_radix_go (S fuel) radix (n / radix) (String (from_digit (n mod radix)) acc)).
    destruct (Z.ltb_spec n radix).
    + simpl. rewrite Z.mod_small, to_digit_from_digit by lia.
      by rewrite (proj2 (Z.leb_le (0 * radix + n) max)) by lia.
    + pose proof (Z.div_mod n radix). pose proof (Z.mod_pos_bound n radix).
      assert (n / radix ≤ n / 2)%Z by (apply Z.div_le_compat_l; lia).
      assert (n / 2 < 2 ^ Z.of_nat fuel)%Z.
      { apply Z.div_lt_upper_bound; [lia|]. rewrite Nat2Z.inj_succ, Z.pow_succ_r in Hn; lia. }
      assert (0 ≤ n / radix)%Z by (apply Z.div_pos; lia).
      assert (n / radix ≤ n)%Z by (pose proof (Z.div_le_upper_bound n 2 n); lia).
      rewrite IH by lia. simpl.
      rewrite to_digit_from_digit by lia.
      replace (n / radix * radix + n mod radix)%Z with n by lia.
      by rewrite (proj2 (Z.leb_le n max)) by lia.
Qed.

(** Parsing what [format!] printed gives the number back, in any base and for
    any integer type wide enough. *)
Lemma from_str_radix_fmt max radix n :
  (2 ≤ radix ≤ 36)%Z → (0 ≤ n ≤ max)%Z → from_str_radix max radix (fmt_radix radix n) = Some n.
Proof.
  intros Hr Hn. unfold fmt_radix.
  assert (n < 2 ^ (Z.log2 n + 1))%Z.
  { destruct (decide (n = 0)%Z) as [->|]; [simpl; lia|].
    rewrite Z.add_1_r. apply Z.log2_spec. lia. }
  pose proof (Z.log2_nonneg n).
  destruct (fmt_radix_go_head (Z.to_nat (Z.log2 n + 1)) radix n "") as (d & rest & Hd & Heq); [lia|].
  pose proof (parse_digits_fmt (Z.to_nat (Z.log2 n + 1)) max radix n "") as Hp.
  rewrite Heq in *. unfold from_str_radix.
  rewrite bool_decide_false by (apply from_digit_not_plus; lia).
  apply Hp; [lia| |lia]. rewrite Z2Nat.id by lia. lia.
Qed.

Lemma fmt_radix_inj radix m n :
  (2 ≤ radix ≤ 36)%Z → (0 ≤ m)%Z → (0 ≤ n)%Z → fmt_radix radix m = fmt_radix radix n → m = n.
Proof.
  intros Hr Hm Hn Heq.
  pose proof (from_str_radix_fmt (Z.max m n) radix m) as H1.
  pose proof (from_str_radix_fmt (Z.max m n) radix n) as H2.
  rewrite Heq in H1. rewrite H1 in H2 by lia. specialize (H2 Hr ltac:(lia)). by simplify_eq.
Qed.

Lemma parse_digits_bounds max radix acc s v :
  (0 ≤ acc)%Z → (0 ≤ radix)%Z → parse_digits max radix acc s = Some v → (acc ≤ max → 0 ≤ v ≤ max)%Z.
Proof.
  revert acc; induction s as [|c s IH]; intros acc Ha Hr; simpl; [naive_solver|].
  destruct (to_digit radix c) as [d|] eqn:Ed; [|done]. apply to_digit_range in Ed.
  destruct (Z.leb_spec (acc * radix + d) max); [|done].
  intros Hp _. eapply IH; [| |exact Hp|]; try lia; nia.
Qed.

(** What [from_str_radix] accepts is in the range of the type. *)
Lemma from_str_radix_bounds max radix s v :
  (0 ≤ max)%Z → (0 ≤ radix)%Z → from_str_radix max radix s = Some v → (0 ≤ v ≤ max)%Z.
Proof.
  intros Hm Hr. unfold from_str_radix. destruct s as [|c s]; [done|].
  case_bool_decide; [destruct s; [done|]|]; intros Hp;
    (eapply parse_digits_bounds in Hp; [exact Hp| | |]); lia.
Qed.

(** ** Formatted numbers inside larger strings *)

Lemma fmt_radix_go_all p fuel radix n acc :
  (2 ≤ radix)%Z → (∀ d, (0 ≤ d < radix)%Z → p (from_digit d) = true) →
  str_all p acc = true → str_all p (fmt_radix_go fuel radix n acc) = true.
Proof.
  intros Hr Hp. revert n acc; induction fuel as [|fuel IH]; intros n acc Hacc; simpl; [done|].
  assert (str_all p (String (from_digit (n mod radix)) acc) = true).
  { simpl. rewrite Hp by (apply Z.mod_pos_bound; lia). done. }
  case_match; [done|]. by apply IH.
Qed.

Lemma fmt_radix_all p radix n :
  (2 ≤ radix)%Z → (∀ d, (0 ≤ d < radix)%Z → p (from_digit d) = true) →
  str_all p (fmt_radix radix n) = true.
Proof. intros. by apply fmt_radix_go_all. Qed.

Lemma str_all_app p s t : str_all p (s +:+ t) = str_all p s && str_all p t.
Proof. induction s as [|c s IH]; [done|]. simpl. by rewrite IH, andb_assoc. Qed.

(** The first separator ends the first piece. *)
Lemma split_on_app p s c t :
  str_all (λ x, negb (p x)) s = true → p c = true →
  split_on p (s +:+ String c t) = s :: split_on p t.
Proof.
  intros Hs Hc. induction s as [|a s IH]; simpl.
  - by rewrite Hc.
  - simpl in Hs. apply andb_true_iff in Hs as [Ha Hs]. apply negb_true_iff in Ha.
    rewrite Ha. change (String.append s (String c t)) with (s +:+ String c t).
    by rewrite (IH Hs).
Qed.

Lemma split_on_none p s : str_all (λ x, negb (p x)) s = true → split_on p s = [s].
Proof.
  induction s as [|a s IH]; simpl; [done|]. intros [Ha Hs]%andb_true_iff.
  apply negb_true_iff in Ha. by rewrite Ha, IH.
Qed.

Definition is_dash (c : ascii) : bool := bool_decide (c = "-"%char).

Lemma from_digit_not_dash d : (0 ≤ d < 36)%Z → is_dash (from_digit d) = false.
Proof.
  intros Hd. apply bool_decide_false. intros Heq%(f_equal code). unfold from_digit in Heq.
  destruct (d <? 10)%Z eqn:E; rewrite code_chr in Heq by lia;
    change (code "-"%char) with 45%Z in Heq; lia.
Qed.

Lemma fmt_hex_no_dash n : str_all (λ x, negb (is_dash x)) (fmt_hex n) = true.
Proof. apply fmt_radix_all; [lia|]. intros d Hd. by rewrite from_digit_not_dash by lia. Qed.

Lemma append_inj s t1 t2 : s +:+ t1 = s +:+ t2 → t1 = t2.
Proof. apply (inj (String.append s)). Qed.

(** ** Trimming *)

Lemma trim_end_with_idemp p s : trim_end_with p (trim_end_with p s) = trim_end_with p s.
Proof.
  induction s as [|c s IH]; [done|]. cbn [trim_end_with]. destruct (str_all p (String c s)) eqn:E; [done|].
  cbn [trim_end_with]. rewrite IH. destruct (str_all p (String c (trim_end_with p s))) eqn:E'; [|done].
  simpl in E, E'. apply andb_true_iff in E' as [Hc Ht]. rewrite Hc in E. simpl in E.
  assert (∀ s, str_all p (trim_end_with p s) = true → str_all p s = true) as Hback.
  { clear. induction s as [|c s IH]; [done|]. cbn [trim_end_with].
    destruct (str_all p (String c s)) eqn:E; [done|]. simpl. rewrite andb_true_iff. intros [Hc Hs%IH]. simpl in E. by rewrite Hc, Hs in E. }
  apply Hback in Ht. congruence.
Qed.

Lemma trim_start_with_head p s :
  match trim_start_with p s with "" => True | String c _ => p c = false end.
Proof. induction s as [|c s IH]; simpl; [done|]. by destruct (p c) eqn:E. Qed.

Lemma trim_idemp s : trim (trim s) = trim s.
Proof.
  unfold trim. pose proof (trim_start_with_head is_whitespace s) as Hh.
  destruct (trim_start_with is_whitespace s) as [|c t]; [done|].
  assert (trim_start_with is_whitespace (trim_end_with is_whitespace (String c t)) =
          trim_end_with is_whitespace (String c t)) as ->.
  { cbn [trim_end_with str_all]. rewrite Hh. simpl. by rewrite Hh. }
  apply trim_end_with_idemp.
Qed.

(** ** The part after the last separator *)

Lemma split_on_cons p s : ∃ w ws, split_on p s = w :: ws.
Proof.
  destruct s as [|c s]; simpl; [eauto|]. destruct (p c); [eauto|]. destruct (split_on p s); eauto.
Qed.

Lemma last_split_on p s c t :
  p c = true → List.last (split_on p (s +:+ String c t)) "" = List.last (split_on p t) "".
Proof.
  intros Hc. assert (∀ x t, List.last (x :: split_on p t) "" = List.last (split_on p t) "") as Hl.
  { intros x u. by destruct (split_on_cons p u) as (w & ws & ->). }
  assert (∀ s, ∃ x ws, split_on p (s +:+ String c t) = ws ++ x :: split_on p t) as Happ.
  { clear s. induction s as [|a s (x & ws & IH)]; simpl; [rewrite Hc; by exists "", []|].
    change (String.append s (String c t)) with (s +:+ String c t). rewrite IH.
    destruct (p a); [by exists x, ("" :: ws)|]. destruct ws as [|w ws]; simpl.
    - by exists (String a x), [].
    - by exists x, (String a w :: ws). }
  destruct (Happ s) as (x & ws & ->). rewrite <-(Hl x). clear.
  induction ws as [|w ws IH]; [done|]. simpl app. rewrite <-IH. by destruct ws.
Qed.

Lemma fmt_dec_no_dash n : str_all (λ x, negb (is_dash x)) (fmt_dec n) = true.
Proof. apply fmt_radix_all; [lia|]. intros d Hd. by rewrite from_digit_not_dash by lia. Qed.

(** A counter after the last dash identifies the name. *)
Lemma dash_suffix_inj p1 p2 m n :
  (0 ≤ m)%Z → (0 ≤ n)%Z → p1 +:+ "-" +:+ fmt_dec m = p2 +:+ "-" +:+ fmt_dec n → m = n.
Proof.
  intros Hm Hn Heq. apply (f_equal (λ s, List.last (split_on is_dash s) "")) in Heq.
  change ("-" +:+ ?x) with (String "-" x) in Heq.
  rewrite !last_split_on, !split_on_none in Heq by (done || apply fmt_dec_no_dash).
  eapply fmt_radix_inj; [| | |exact Heq]; lia.
Qed.

(** ** Concatenation *)

Lemma string_app_assoc (s t u : string) : (s +:+ t) +:+ u = s +:+ (t +:+ u).
Proof. induction s as [|c s IH]; [done|]. change (String c ((s +:+ t) +:+ u) = String c (s +:+ (t +:+ u))). by rewrite IH. Qed.

Lemma strip_prefix_app p t : strip_prefix p (p +:+ t) = Some t.
Proof.
  induction p as [|c p IH]; [done|]. change (String c p +:+ t) with (String c (p +:+ t)).
  cbn [strip_prefix]. by rewrite bool_decide_true.
Qed.

Lemma contains_app a p b : contains p (a +:+ p +:+ b) = true.
Proof.
  assert (∀ s, starts_with p s = true → contains p s = true) as Hs by (intros [|c s] Hp; simpl; by rewrite Hp).
  induction a as [|c a IH].
  - apply Hs. apply bool_decide_true. exists b. apply (strip_prefix_app p b).
  - change (String c a +:+ p +:+ b) with (String c (a +:+ p +:+ b)). cbn [contains].
    rewrite IH. apply orb_true_r.
Qed.

Lemma ends_with_app s p : ends_with p (s +:+ p) = true.
Proof.
  induction s as [|c s IH].
  - change ("" +:+ p) with p. destruct p; cbn [ends_with]; by rewrite bool_decide_true.
  - change (String c s +:+ p) with (String c (s +:+ p)). cbn [ends_with]. rewrite IH. apply orb_true_r.
Qed.

(** ** Decimal numbers in a text of lines *)

Lemma trim_start_id p s : str_all (λ c, negb (p c)) s = true → trim_start_with p s = s.
Proof. destruct s as [|c s]; [done|]. simpl. intros [Hc _]%andb_true_iff. by apply negb_true_iff in Hc as ->. Qed.

Lemma trim_end_id p s : str_all (λ c, negb (p c)) s = true → trim_end_with p s = s.
Proof.
  induction s as [|c s IH]; [done|]. simpl. intros [Hc Hs]%andb_true_iff. rewrite (IH Hs).
  apply negb_true_iff in Hc. rewrite Hc. by destruct s.
Qed.

Lemma trim_all s : str_all (λ c, negb (is_whitespace c)) s = true → trim s = s.
Proof. intros Hs. unfold trim. by rewrite trim_start_id, trim_end_id by (rewrite ?trim_start_id; done). Qed.

Lemma strip_cr_all s : str_all (λ c, negb (bool_decide (c = "013"%char))) s = true → strip_cr s = s.
Proof.
  induction s as [|c s IH]; [done|]. simpl. intros [Hc Hs]%andb_true_iff.
  apply negb_true_iff in Hc. destruct s; [by rewrite Hc|]. by rewrite IH.
Qed.

(** A property of the ten digits holds of every character of a decimal number. *)
Lemma fmt_dec_all (p : ascii → bool) n :
  forallb (λ d, p (from_digit d)) (seqZ 0 10) = true → str_all p (fmt_dec n) = true.
Proof.
  intros Hp. apply fmt_radix_all; [lia|]. intros d Hd. rewrite forallb_forall in Hp.
  apply Hp, list_elem_of_In, elem_of_seqZ. lia.
Qed.

(** The first line of a text. *)
Lemma lines_first w rest :
  str_all (λ c, negb (bool_decide (c = "010"%char))) w = true →
  ∃ ls, lines (w +:+ newline +:+ rest) = strip_cr w :: ls.
Proof.
  intros Hw. unfold lines. change (newline +:+ rest) with (String "010" rest).
  rewrite split_on_app by done. destruct (split_on_cons (λ c, bool_decide (c = "010"%char)) rest)
    as (x & xs & ->). by eexists.
Qed.
