(* ===== verification/Json.v ===== *)
(** * [serde_json::Value]

    The JSON data model the sources pass around: the value type, the accessors
    ([as_str], [as_u64], [get], the panic-free index operator) and the object
    update.  [serde_json::Map] is a [BTreeMap] here (the [preserve_order] feature
    is off), so an object is an association list kept sorted by key. *)

From Stdlib Require Import Ascii.
From stdpp Require Import base strings list numbers.
From S2P Require Import Prelude RustStr.

(** [serde_json::Number]: an unsigned, a negative or a float literal.  The sources
    only print floats, so a float is kept as its text. *)
Inductive number : Type :=
| PosInt (z : Z)
| NegInt (z : Z)
| Float (text : string).

Inductive Value : Type :=
| Null
| Bool (b : bool)
| Number (n : number)
| VString (s : string)
| Array (l : list Value)
| Object (m : list (string * Value)).

#[export] Instance number_eq_dec : EqDecision number.
Proof. solve_decision. Defined.

#[export] Instance Value_inhabited : Inhabited Value := populate Null.

(** ** Accessors *)

(** [Number::as_u64] *)
Definition num_as_u64 (n : number) : option Z :=
  match n with PosInt z => Some z | _ => None end.

(** [Number::to_string] *)
Definition num_to_string (n : number) : string :=
  match n with PosInt z => fmt_dec z | NegInt z => fmt_signed z | Float t => t end.

Definition as_u64 (v : Value) : option Z :=
  match v with Number n => num_as_u64 n | _ => None end.

Definition as_str (v : Value) : option string :=
  match v with VString s => Some s | _ => None end.

Definition as_bool (v : Value) : option bool :=
  match v with Bool b => Some b | _ => None end.

Definition as_array (v : Value) : option (list Value) :=
  match v with Array l => Some l | _ => None end.

Definition as_object (v : Value) : option (list (string * Value)) :=
  match v with Object m => Some m | _ => None end.

(** [Map::get] *)
Fixpoint obj_get (k : string) (m : list (string * Value)) : option Value :=
  match m with
  | [] => None
  | (k', v) :: rest => if bool_decide (k = k') then Some v else obj_get k rest
  end.

(** [Map::insert]: replaces the value of a present key, and keeps the keys sorted. *)
Fixpoint obj_insert (k : string) (v : Value) (m : list (string * Value)) : list (string * Value) :=
  match m with
  | [] => [(k, v)]
  | (k', v') :: rest =>
      match String.compare k k' with
      | Lt => (k, v) :: m
      | Eq => (k, v) :: rest
      | Gt => (k', v') :: obj_insert k v rest
      end
  end.

(** [Value::get] with a string index. *)
Definition get (k : string) (v : Value) : option Value :=
  match v with Object m => obj_get k m | _ => None end.

(** [v["k"]]: [Null] when the key is absent or the value is not an object. *)
Definition index (v : Value) (k : string) : Value := default Null (get k v).

(** The object literal of the [json!] macro. *)
Definition obj (l : list (string * Value)) : Value :=
  Object (foldl (λ m kv, obj_insert kv.1 kv.2 m) [] l).

(** [json!(opt)] *)
Definition opt_value (o : option Value) : Value := default Null o.
Definition vnat (n : nat) : Value := Number (PosInt (Z.of_nat n)).
Definition vz (z : Z) : Value := Number (PosInt z).

(** ** Object laws *)

Lemma string_compare_refl s : String.compare s s = Eq.
Proof.
  induction s as [|c s IH]; simpl; [done|]. unfold Ascii.compare. by rewrite N.compare_refl.
Qed.

Lemma obj_get_insert k v m : obj_get k (obj_insert k v m) = Some v.
Proof.
  induction m as [|[k' v'] m IH]; simpl; [by rewrite bool_decide_true|].
  destruct (String.compare k k') eqn:E; simpl; try by rewrite bool_decide_true.
  rewrite bool_decide_false; [done|]. intros ->. by rewrite string_compare_refl in E.
Qed.

Lemma obj_get_insert_ne k k' v m : k ≠ k' → obj_get k (obj_insert k' v m) = obj_get k m.
Proof.
  intros Hne. induction m as [|[k0 v0] m IH]; simpl; [by rewrite bool_decide_false|].
  destruct (String.compare k' k0) eqn:E; simpl.
  - apply String.compare_eq_iff in E as ->. by rewrite !bool_decide_false by done.
  - by rewrite (bool_decide_false (k = k')) by done.
  - by rewrite IH.
Qed.


(** ** Values of the right width

    What [serde_json] can hold: an unsigned integer fits [u64], a negative one
    [i64]. *)
Fixpoint value_wf (v : Value) : bool :=
  match v with
  | Number (PosInt z) => (0 <=? z)%Z && (z <=? u64_max)%Z
  | Number (NegInt z) => (- 2 ^ 63 <=? z)%Z && (z <? 0)%Z
  | Array l => forallb value_wf l
  | Object m => forallb (λ kv, value_wf kv.2) m
  | _ => true
  end.
