(* ===== verification/ToolError.v ===== *)
(** * [ToolError] (src/error.rs)

    The error type every fallible operation of the server returns, and the text
    that [to_string] and [to_tool_result] show to the client. *)

From Stdlib Require Import Ascii.
From stdpp Require Import base strings list numbers.
From S2P Require Import Prelude RustStr.

Inductive ToolError : Type :=
| NoDatabaseOpen
| DatabaseAlreadyOpen (s : string)
| OpenFailed (s : string)
| DatabaseLocked (s : string)
| InvalidAddress (s : string)
| InvalidPath (s : string)
| InvalidParams (s : string)
| InvalidToolCategory (s : string)
| InvalidToolName (s : string)
| AddressOutOfRange (addr : Z)
| FunctionNotFound (addr : Z)
| FunctionNameNotFound (s : string)
| DecompilerUnavailable
| Timeout (secs : Z)
| Busy
| IdaError (s : string)
| NotSupported (s : string)
| WorkerClosed.

#[export] Instance ToolError_eq_dec : EqDecision ToolError.
Proof. solve_decision. Defined.

(** The [#[error]] attributes. *)
Definition error_to_string (e : ToolError) : string :=
  match e with
  | NoDatabaseOpen => "No database is currently open"
  | DatabaseAlreadyOpen s => "A database is already open: " +:+ s +:+ ". Use close_idb first."
  | OpenFailed s => "Failed to open database: " +:+ s
  | DatabaseLocked s => "Database appears to be open in another instance: " +:+ s
  | InvalidAddress s => "Invalid address format: " +:+ s
  | InvalidPath s => "Invalid database path: " +:+ s
  | InvalidParams s => "Invalid parameters: " +:+ s
  | InvalidToolCategory s => "Invalid tool category: " +:+ s
  | InvalidToolName s => "Invalid tool name: " +:+ s
  | AddressOutOfRange a => "Address " +:+ fmt_hex_alt a +:+ " is outside valid range"
  | FunctionNotFound a => "Function not found at address " +:+ fmt_hex_alt a
  | FunctionNameNotFound s => "Function not found: " +:+ s
  | DecompilerUnavailable => "Decompiler not available"
  | Timeout n => "Operation timed out after " +:+ fmt_dec n +:+ " seconds"
  | Busy => "Server is busy (request queue full). Please retry."
  | IdaError s => "IDA error: " +:+ s
  | NotSupported s => "Not supported: " +:+ s
  | WorkerClosed => "Worker channel closed"
  end.

(** [rmcp::model::CallToolResult] as far as the server fills it in. *)
Record CallToolResult : Type := {
  content : list string;
  is_error : option bool
}.

(** [CallToolResult::success(vec![Content::text(t)])] *)
Definition success (text : string) : CallToolResult :=
  {| content := [text]; is_error := Some false |}.

Definition to_tool_result (e : ToolError) : CallToolResult :=
  {| content := [error_to_string e]; is_error := Some true |}.
