(* ===== verification/Protocol.v ===== *)
(** * The router-worker wire types (src/router/protocol.rs)

    One JSON object per line.  [to_value] and [from_value] follow the serde
    derives: absent optional fields are skipped on output; on input an absent or
    [null] optional field reads as [None]. *)

From Stdlib Require Import Ascii.
From stdpp Require Import base strings list numbers.
From S2P Require Import Prelude RustStr Json.

Open Scope ida_scope.

Record RpcRequest : Type := {
  req_jsonrpc : string;
  req_id : string;
  req_method : string;
  req_params : Value
}.

Record RpcError : Type := {
  err_code : Z;
  err_message : string;
  err_data : option Value
}.

Record RpcResponse : Type := {
  resp_jsonrpc : string;
  resp_id : string;
  resp_result : option Value;
  resp_error : option RpcError
}.

Definition RpcRequest_new (id method : string) (params : Value) : RpcRequest :=
  {| req_jsonrpc := "2.0"; req_id := id; req_method := method; req_params := params |}.

Definition RpcResponse_ok (id : string) (result : Value) : RpcResponse :=
  {| resp_jsonrpc := "2.0"; resp_id := id; resp_result := Some result; resp_error := None |}.

Definition RpcResponse_err (id : string) (code : Z) (message : string) : RpcResponse :=
  {| resp_jsonrpc := "2.0"; resp_id := id; resp_result := None;
     resp_error := Some {| err_code := code; err_message := message; err_data := None |} |}.

(** ** Serialize *)

Definition i64_value (z : Z) : Value := Number (if (z <? 0)%Z then NegInt z else PosInt z).

(** [skip_serializing_if = "Option::is_none"] *)
Definition opt_field (k : string) (o : option Value) (m : list (string * Value)) :
    list (string * Value) :=
  match o with Some v => obj_insert k v m | None => m end.

Definition request_to_value (r : RpcRequest) : Value :=
  obj [("jsonrpc", VString (req_jsonrpc r)); ("id", VString (req_id r));
       ("method", VString (req_method r)); ("params", req_params r)].

Definition rpc_error_to_value (e : RpcError) : Value :=
  Object (opt_field "data" (err_data e)
    (obj_insert "message" (VString (err_message e))
      (obj_insert "code" (i64_value (err_code e)) []))).

Definition response_to_value (r : RpcResponse) : Value :=
  Object (opt_field "error" (rpc_error_to_value <$> resp_error r)
    (opt_field "result" (resp_result r)
      (obj_insert "id" (VString (resp_id r))
        (obj_insert "jsonrpc" (VString (resp_jsonrpc r)) [])))).

(** ** Deserialize *)

Definition str_field (k : string) (v : Value) : option string := get k v ≫= as_str.

(** An [Option<T>] field: missing and [null] are [None]. *)
Definition option_field (k : string) (v : Value) : option Value :=
  match get k v with Some Null | None => None | Some w => Some w end.

Definition value_i64 (v : Value) : option Z :=
  match v with
  | Number (PosInt z) => if (z <? 2 ^ 63)%Z then Some z else None
  | Number (NegInt z) => Some z
  | _ => None
  end.

#[local] Arguments value_i64 : simpl never.
#[local] Arguments i64_value : simpl never.

Definition request_from_value (v : Value) : option RpcRequest :=
  jsonrpc ← str_field "jsonrpc" v; id ← str_field "id" v;
  method ← str_field "method" v; params ← get "params" v;
  Some {| req_jsonrpc := jsonrpc; req_id := id; req_method := method; req_params := params |}.

Definition rpc_error_from_value (v : Value) : option RpcError :=
  code ← get "code" v ≫= value_i64; message ← str_field "message" v;
  Some {| err_code := code; err_message := message; err_data := option_field "data" v |}.

Definition response_from_value (v : Value) : option RpcResponse :=
  jsonrpc ← str_field "jsonrpc" v; id ← str_field "id" v;
  error ← match option_field "error" v with
          | None => Some None
          | Some e => Some <$> rpc_error_from_value e
          end;
  Some {| resp_jsonrpc := jsonrpc; resp_id := id;
          resp_result := option_field "result" v; resp_error := error |}.

(** What the router's reader task makes of a response. *)
Definition response_outcome (r : RpcResponse) : result Value string :=
  match resp_result r, resp_error r with
  | Some v, _ => Ok v
  | None, Some e => Err (err_message e)
  | None, None => Ok Null
  end.

(** ** Properties *)

(** A request survives the wire unchanged. *)
Theorem request_roundtrip r : request_from_value (request_to_value r) = Some r.
Proof. by destruct r. Qed.

Lemma value_i64_roundtrip z :
  (- 2 ^ 63 ≤ z < 2 ^ 63)%Z → value_i64 (i64_value z) = Some z.
Proof.
  intros Hz. unfold i64_value, value_i64. destruct (Z.ltb_spec z 0); [done|].
  by rewrite (proj2 (Z.ltb_lt z (2 ^ 63))) by lia.
Qed.

Lemma rpc_error_roundtrip e :
  (- 2 ^ 63 ≤ err_code e < 2 ^ 63)%Z → err_data e = None →
  rpc_error_from_value (rpc_error_to_value e) = Some e.
Proof.
  destruct e as [c m d]; simpl; intros Hc ->.
  unfold rpc_error_from_value, str_field, option_field; simpl.
  by rewrite value_i64_roundtrip.
Qed.

(** The worker's answer reaches the caller as the worker meant it: an [ok]
    response delivers its value, including [null], whose [result] field is lost
    on the wire, and an [err] response delivers its message. *)
Theorem response_outcome_roundtrip id res code :
  (- 2 ^ 63 ≤ code < 2 ^ 63)%Z →
  response_outcome <$> response_from_value (response_to_value
    (match res with Ok v => RpcResponse_ok id v | Err m => RpcResponse_err id code m end))
  = Some res.
Proof.
  intros Hc. destruct res as [v|m].
  - by destruct v.
  - unfold response_from_value, str_field, option_field, response_to_value; simpl.
    unfold rpc_error_from_value, str_field, option_field; simpl.
    by rewrite value_i64_roundtrip.
Qed.


Lemma response_outcome_roundtrip_witness :
  response_outcome <$> response_from_value (response_to_value (RpcResponse_err "r1" (-32000) "boom")) =
  Some (Err "boom").
Proof. apply (response_outcome_roundtrip "r1" (Err "boom") (-32000)). lia. Defined.
