(* ===== verification/Runtime.v ===== *)
(** * Runtime probe and backend selection (src/ida/runtime.rs, src/ida/capabilities.rs)

    Which worker backend a given IDA version gets, and the probe result that the
    router caches and reads before it starts a worker. *)

From Stdlib Require Import Ascii.
From stdpp Require Import base strings list numbers.
From S2P Require Import Prelude RustStr.

Record IdaRuntimeVersion : Type := { major : Z; minor : Z; build : Z }.

Definition version_to_string (v : IdaRuntimeVersion) : string :=
  fmt_signed (major v) +:+ "." +:+ fmt_signed (minor v) +:+ "." +:+ fmt_signed (build v).

Inductive WorkerBackendKind : Type := NativeLinked | IdatCompat.

#[export] Instance WorkerBackendKind_eq_dec : EqDecision WorkerBackendKind.
Proof. solve_decision. Defined.

Definition as_cli_arg (b : WorkerBackendKind) : string :=
  match b with NativeLinked => "native-linked" | IdatCompat => "idat-compat" end.

Definition IDAT_COMPAT_METHODS : list string :=
  ["open"; "close"; "shutdown"; "get_analysis_status"; "get_database_info";
   "list_functions"; "get_function_by_name"; "get_function_at_address";
   "get_address_info"; "disassemble"; "disassemble_function";
   "disassemble_function_at"; "decompile_function"; "get_pseudocode_at";
   "batch_decompile"; "search_pseudocode"; "diff_pseudocode"; "list_segments";
   "list_strings"; "list_imports"; "list_exports"; "list_entry_points";
   "list_globals"; "read_bytes"; "read_string"; "read_int"; "search_text";
   "search_bytes"; "get_xrefs_to"; "get_xrefs_from"; "get_xrefs_to_string";
   "get_callers"; "get_callees"; "run_script"].

Definition supported_methods_for (b : WorkerBackendKind) : list string :=
  match b with IdatCompat => IDAT_COMPAT_METHODS | NativeLinked => [] end.

Record RuntimeProbeResult : Type := {
  runtime : option IdaRuntimeVersion;
  backend : option WorkerBackendKind;
  supported : bool;
  reason : option string;
  supported_methods : option (list string)
}.

Definition probe_supported (v : IdaRuntimeVersion) (b : WorkerBackendKind) : RuntimeProbeResult :=
  {| runtime := Some v; backend := Some b; supported := true; reason := None;
     supported_methods := Some (supported_methods_for b) |}.

Definition probe_unsupported (v : IdaRuntimeVersion) (why : string) : RuntimeProbeResult :=
  {| runtime := Some v; backend := None; supported := false; reason := Some why;
     supported_methods := None |}.

Definition probe_error (why : string) : RuntimeProbeResult :=
  {| runtime := None; backend := None; supported := false; reason := Some why;
     supported_methods := None |}.

Definition select_worker_backend (v : IdaRuntimeVersion) : RuntimeProbeResult :=
  if (major v =? 9)%Z && (minor v <? 3)%Z then probe_supported v IdatCompat
  else if (major v <? 9)%Z then
    probe_unsupported v ("IDA runtime " +:+ version_to_string v +:+ " is unsupported")
  else probe_supported v NativeLinked.

(** ** The documented runtime policy *)

(** The version table of the README, on [(major, minor)] in lexicographic order. *)
Definition version_lt (v : IdaRuntimeVersion) (ma mi : Z) : Prop :=
  (major v < ma ∨ (major v = ma ∧ minor v < mi))%Z.

(** The selected backend is the one the documented support matrix gives: no
    backend below 9.0, [idat-compat] from 9.0 to 9.2, [native-linked] from 9.3 on;
    a probe is marked supported exactly when it carries a backend. *)
Theorem select_worker_backend_policy v :
  (0 ≤ minor v)%Z →
  (backend (select_worker_backend v) = None ↔ version_lt v 9 0) ∧
  (backend (select_worker_backend v) = Some IdatCompat ↔
     ¬ version_lt v 9 0 ∧ version_lt v 9 3) ∧
  (backend (select_worker_backend v) = Some NativeLinked ↔ ¬ version_lt v 9 3) ∧
  supported (select_worker_backend v) = bool_decide (is_Some (backend (select_worker_backend v))) ∧
  runtime (select_worker_backend v) = Some v.
Proof.
  intros Hm. unfold select_worker_backend, version_lt.
  destruct (Z.eqb_spec (major v) 9), (Z.ltb_spec (minor v) 3), (Z.ltb_spec (major v) 9);
    simpl; repeat split; intros; simplify_eq; try done; lia.
Qed.

Lemma select_worker_backend_policy_witness :
  backend (select_worker_backend {| major := 9; minor := 1; build := 250226 |}) = Some IdatCompat ∧
  ¬ version_lt {| major := 9; minor := 1; build := 250226 |} 9 0.
Proof.
  destruct (select_worker_backend_policy {| major := 9; minor := 1; build := 250226 |})
    as (_ & Hc & _); [simpl; lia|].
  split; [reflexivity|]. by apply Hc.
Defined.
