(* ===== verification/RouterConfig.v ===== *)
(** * Router limits (src/router/mod.rs, [RouterConfig])

    The limits the router enforces, read from the environment with defaults. *)

From Stdlib Require Import Ascii.
From stdpp Require Import base strings list numbers.
From S2P Require Import Prelude RustStr.

Record RouterConfig : Type := {
  max_workers : Z;
  max_workers_per_tenant : Z;
  max_pending_per_worker : Z;
  max_pending_per_tenant : Z;
  max_concurrent_spawns : Z;
  max_warm_workers : Z;
  max_queued_prewarms : Z;
  max_active_prewarms : Z;
  max_prewarms_per_tenant : Z;
  max_idb_cache_bytes : Z;
  max_response_cache_bytes : Z;
  max_queued_tasks : Z;
  max_active_tasks : Z;
  max_tasks_per_tenant : Z;
  node_id : string
}.

(** [env::var(name).ok().and_then(|v| v.parse().ok()).filter(|v| *v > 0)] *)
Definition env_positive (env : string → option string) (name : string) : option Z :=
  v ← env name ≫= parse_u64; if (0 <? v)%Z then Some v else None.

(** [env::var(name).ok().and_then(|v| v.parse().ok())] *)
Definition env_u64 (env : string → option string) (name : string) : option Z :=
  env name ≫= parse_u64.

(** [from_env], with the process environment, [available_parallelism] and the
    process id as arguments. *)
Definition from_env (env : string → option string) (parallelism : option Z) (pid : Z) :
    RouterConfig :=
  let cpu_hint := default 4%Z parallelism in
  let default_max_workers := Z.max (Z.min (cpu_hint * 8) u64_max) 16 in
  let max_workers := default default_max_workers (env_positive env "IDA_CLI_MAX_WORKERS") in
  {| max_workers := max_workers;
     max_workers_per_tenant :=
       default (Z.max (default_max_workers / 4) 4) (env_positive env "IDA_CLI_MAX_WORKERS_PER_TENANT");
     max_pending_per_worker := default 64%Z (env_positive env "IDA_CLI_MAX_PENDING_PER_WORKER");
     max_pending_per_tenant := default 512%Z (env_positive env "IDA_CLI_MAX_PENDING_PER_TENANT");
     max_concurrent_spawns :=
       default (Z.min (Z.max max_workers 1) 4) (env_positive env "IDA_CLI_MAX_CONCURRENT_SPAWNS");
     max_warm_workers := default 16%Z (env_positive env "IDA_CLI_MAX_WARM_WORKERS");
     max_queued_prewarms := default 256%Z (env_positive env "IDA_CLI_MAX_QUEUED_PREWARMS");
     max_active_prewarms := default 4%Z (env_positive env "IDA_CLI_MAX_ACTIVE_PREWARMS");
     max_prewarms_per_tenant := default 2%Z (env_positive env "IDA_CLI_MAX_PREWARMS_PER_TENANT");
     max_idb_cache_bytes := default (50 * 1024 * 1024 * 1024)%Z (env_u64 env "IDA_CLI_MAX_IDB_CACHE_BYTES");
     max_response_cache_bytes := default (2 * 1024 * 1024 * 1024)%Z (env_u64 env "IDA_CLI_MAX_RESPONSE_CACHE_BYTES");
     max_queued_tasks := default 512%Z (env_positive env "IDA_CLI_MAX_QUEUED_TASKS");
     max_active_tasks := default 16%Z (env_positive env "IDA_CLI_MAX_ACTIVE_TASKS");
     max_tasks_per_tenant := default 8%Z (env_positive env "IDA_CLI_MAX_TASKS_PER_TENANT");
     node_id := default (default "ida-cli" (env "HOSTNAME") +:+ "-" +:+ fmt_dec pid)
                        (env "IDA_CLI_NODE_ID") |}.

(** ** Every limit is usable *)

(** A limit of at least one and in range: an empty router admits a worker, a
    request, a lease and a task. *)
Definition limit_ok (z : Z) : Prop := (1 ≤ z ≤ u64_max)%Z.

Definition config_wf (c : RouterConfig) : Prop :=
  limit_ok (max_workers c) ∧ limit_ok (max_workers_per_tenant c) ∧
  limit_ok (max_pending_per_worker c) ∧ limit_ok (max_pending_per_tenant c) ∧
  limit_ok (max_concurrent_spawns c) ∧ limit_ok (max_warm_workers c) ∧
  limit_ok (max_queued_prewarms c) ∧ limit_ok (max_active_prewarms c) ∧
  limit_ok (max_prewarms_per_tenant c) ∧ limit_ok (max_queued_tasks c) ∧
  limit_ok (max_active_tasks c) ∧ limit_ok (max_tasks_per_tenant c) ∧
  in_u64 (max_idb_cache_bytes c) ∧ in_u64 (max_response_cache_bytes c).

Lemma env_u64_in env name z : env_u64 env name = Some z → in_u64 z.
Proof.
  unfold env_u64, parse_u64. destruct (env name); simpl; [|done].
  apply from_str_radix_bounds; unfold u64_max; lia.
Qed.

Lemma env_positive_ok env name d : limit_ok d → limit_ok (default d (env_positive env name)).
Proof.
  intros Hd. unfold env_positive.
  destruct (env name ≫= parse_u64) as [v|] eqn:E; simpl; [|done].
  apply env_u64_in in E as [??].
  destruct (Z.ltb_spec 0 v); simpl; [|done]. unfold limit_ok. lia.
Qed.

Lemma env_u64_default_in env name d : in_u64 d → in_u64 (default d (env_u64 env name)).
Proof. intros Hd. destruct (env_u64 env name) eqn:E; simpl; eauto using env_u64_in. Qed.

(** Whatever the environment holds, unset, malformed, zero or overflowing, the
    limits the router starts with are all at least one and in range. *)
Theorem from_env_wf env parallelism pid : config_wf (from_env env parallelism pid).
Proof.
  unfold config_wf, from_env; cbv zeta; cbn [max_workers max_workers_per_tenant
    max_pending_per_worker max_pending_per_tenant max_concurrent_spawns max_warm_workers
    max_queued_prewarms max_active_prewarms max_prewarms_per_tenant max_idb_cache_bytes
    max_response_cache_bytes max_queued_tasks max_active_tasks max_tasks_per_tenant].
  repeat split_and; first [apply env_positive_ok | apply env_u64_default_in];
    unfold limit_ok, in_u64, u64_max; try lia.
  match goal with |- context [(?d / 4)%Z] => pose proof (Z.div_le_upper_bound d 4 d) end. lia.
Qed.
