(* ===== verification/Registry.v ===== *)
(** * The worker registry of the router (src/router/mod.rs, [RouterInner])

    The state behind the router's [inner] mutex and every critical section that
    changes it, one definition each.  A critical section is atomic (the mutex is
    held from its first read to its last write); the async functions are
    sequences of these sections, and the step relation at the end of the file
    interleaves the sections of any number of concurrent callers. *)

From Stdlib Require Import Ascii.
From stdpp Require Import base gmap strings list numbers fin_maps fin_map_dom relations.
From S2P Require Import Prelude RustStr Json ToolError Protocol Runtime RouterConfig.

Open Scope ida_scope.

(** ** State *)

Record WorkerKey : Type := { wk_tenant_id : string; wk_path : string }.

#[export] Instance WorkerKey_eq_dec : EqDecision WorkerKey.
Proof. solve_decision. Defined.

#[export] Instance WorkerKey_countable : Countable WorkerKey.
Proof.
  refine (inj_countable' (λ k, (wk_tenant_id k, wk_path k))
                         (λ p, {| wk_tenant_id := p.1; wk_path := p.2 |}) _).
  by intros [].
Defined.

(** The sending half of a [tokio::sync::oneshot] channel, by identity. *)
Definition sender : Type := N.

(** A message put on a oneshot channel. *)
Definition send : Type := sender * result Value string.

(** [child] and [writer] are process handles; [w_stdin] is what was written and
    flushed to the child's standard input. *)
Record WorkerProcess : Type := {
  w_backend : WorkerBackendKind;
  w_tenant_id : string;
  w_pending : gmap string sender;
  w_close_token : option string;
  w_open_path : option string;
  w_last_active : Z;
  w_stdin : list RpcRequest
}.

Record RouterInner : Type := {
  workers : gmap string WorkerProcess;
  active : option string;
  path_to_handle : gmap WorkerKey string;
  token_to_handle : gmap string string;
  ref_tokens : gmap string (gset string);
  req_counter : Z;
  exe_path : string
}.

Definition inner_new (exe : string) : RouterInner :=
  {| workers := ∅; active := None; path_to_handle := ∅; token_to_handle := ∅;
     ref_tokens := ∅; req_counter := 0; exe_path := exe |}.

Definition set_workers (m : gmap string WorkerProcess) (r : RouterInner) : RouterInner :=
  {| workers := m; active := active r; path_to_handle := path_to_handle r;
     token_to_handle := token_to_handle r; ref_tokens := ref_tokens r;
     req_counter := req_counter r; exe_path := exe_path r |}.

Definition set_pending (p : gmap string sender) (w : WorkerProcess) : WorkerProcess :=
  {| w_backend := w_backend w; w_tenant_id := w_tenant_id w; w_pending := p;
     w_close_token := w_close_token w; w_open_path := w_open_path w;
     w_last_active := w_last_active w; w_stdin := w_stdin w |}.

Definition touch_worker (now : Z) (w : WorkerProcess) : WorkerProcess :=
  {| w_backend := w_backend w; w_tenant_id := w_tenant_id w; w_pending := w_pending w;
     w_close_token := w_close_token w; w_open_path := w_open_path w;
     w_last_active := now; w_stdin := w_stdin w |}.

(** [inner.req_counter += 1] *)
Definition bump_counter (r : RouterInner) : RouterInner :=
  {| workers := workers r; active := active r; path_to_handle := path_to_handle r;
     token_to_handle := token_to_handle r; ref_tokens := ref_tokens r;
     req_counter := wrap64 (req_counter r + 1); exe_path := exe_path r |}.

(** ** Names *)

Definition normalize_tenant (tenant : option string) : string :=
  match trim <$> tenant with
  | Some t => if bool_decide (t = "") then "default" else t
  | None => "default"
  end.

Definition worker_key (path tenant : string) : WorkerKey :=
  {| wk_tenant_id := tenant; wk_path := path |}.

(** [format!("{now:x}-{pid:x}-{nonce:x}")] *)
Definition spawn_token (now pid nonce : Z) : string :=
  fmt_hex now +:+ "-" +:+ fmt_hex pid +:+ "-" +:+ fmt_hex nonce.

(** [format!("cli-{now:x}-{nonce:x}")] *)
Definition cli_token (now nonce : Z) : string :=
  "cli-" +:+ fmt_hex now +:+ "-" +:+ fmt_hex nonce.

(** [format!("{:016x}", t ^ (pid << 32) ^ counter)] *)
Definition handle_name (now pid counter : Z) : string :=
  pad_zero 16 (fmt_hex (Z.lxor (Z.lxor (wrap64 now) (wrap64 (Z.shiftl pid 32))) counter)).

(** [format!("r{}", req_counter)] *)
Definition req_name (n : Z) : string := "r" +:+ fmt_dec n.

(** ** Critical sections *)

Section sections.
Context `{HashOrder}.

(** Register one more reference token for a handle. *)
Definition add_ref (h tok : string) (r : RouterInner) : RouterInner :=
  {| workers := workers r; active := active r; path_to_handle := path_to_handle r;
     token_to_handle := <[tok := h]> (token_to_handle r);
     ref_tokens := <[h := {[tok]} ∪ default ∅ (ref_tokens r !! h)]> (ref_tokens r);
     req_counter := req_counter r; exe_path := exe_path r |}.

(** [spawn_worker]: the path is already open for the tenant, so a new reference
    token is issued for the existing handle. *)
Definition reuse_handle (now pid : Z) (h : string) (r : RouterInner) : RouterInner * string :=
  let nonce := req_counter r in
  let tok := spawn_token now pid nonce in
  (add_ref h tok (bump_counter r), tok).

(** [spawn_worker], first critical section. *)
Definition spawn_lookup (now pid : Z) (key : WorkerKey) (r : RouterInner) :
    RouterInner * option (string * string) :=
  match path_to_handle r !! key with
  | Some h => let '(r', tok) := reuse_handle now pid h r in (r', Some (h, tok))
  | None => (r, None)
  end.

Definition ref_count (r : RouterInner) (h : string) : nat :=
  match ref_tokens r !! h with Some s => size s | None => 0 end.

(** An idle worker: no reference, no request in flight, not the active one. *)
Definition evictable (r : RouterInner) (hw : string * WorkerProcess) : bool :=
  bool_decide (ref_count r hw.1 = 0) && bool_decide (w_pending hw.2 = ∅) &&
  bool_decide (active r ≠ Some hw.1).

(** [spawn_worker], the eviction loop's candidate. *)
Definition evict_candidate (cfg : RouterConfig) (r : RouterInner) : option string :=
  if (Z.of_nat (size (workers r)) <? max_workers cfg)%Z then None
  else fst <$> min_by_key (λ hw, w_last_active hw.2)
                          (filter (λ hw, evictable r hw = true) (hash_iter (workers r))).

(** [for token in &tokens { inner.token_to_handle.remove(token); }] *)
Definition remove_tokens (tokens : gset string) (m : gmap string string) : gmap string string :=
  foldr delete m (elements tokens).

(** What every removal of a worker does to the maps. *)
Definition unregister (h : string) (w : WorkerProcess) (r : RouterInner) : RouterInner :=
  let workers' := delete h (workers r) in
  {| workers := workers';
     active := if bool_decide (active r = Some h) then first_key workers' else active r;
     path_to_handle :=
       match w_open_path w with
       | Some p => delete (worker_key p (w_tenant_id w)) (path_to_handle r)
       | None => path_to_handle r
       end;
     token_to_handle :=
       match ref_tokens r !! h with
       | Some tokens => remove_tokens tokens (token_to_handle r)
       | None => token_to_handle r
       end;
     ref_tokens := delete h (ref_tokens r);
     req_counter := req_counter r;
     exe_path := exe_path r |}.

(** [for (id, sender) in worker.pending.drain() { sender.send(Err(..)) }] *)
Definition fail_pending (msg : string) (w : WorkerProcess) : list send :=
  (λ kv, (kv.2, Err msg)) <$> hash_iter (w_pending w).

(** [close_worker], the part under the [inner] mutex. *)
Definition close_worker_inner (h : string) (r : RouterInner) : RouterInner * list send :=
  match workers r !! h with
  | Some w => (unregister h w r, fail_pending ("Worker " +:+ h +:+ " closed") w)
  | None => (r, [])
  end.

(** The reader task, end of file on the worker's stdout. *)
Definition reader_eof (h : string) (r : RouterInner) : RouterInner * list send :=
  match workers r !! h with
  | Some w =>
      let sends := fail_pending ("Worker " +:+ h +:+ " exited unexpectedly") w in
      let w := set_pending ∅ w in
      let r := set_workers (<[h := w]> (workers r)) r in
      (unregister h w r, sends)
  | None => (r, [])
  end.

(** The reader task, read error: the token and active clean-up is not guarded by
    the presence of the worker. *)
Definition reader_io_error (h err : string) (r : RouterInner) : RouterInner * list send :=
  let sends :=
    match workers r !! h with
    | Some w => fail_pending ("Worker " +:+ h +:+ " I/O error: " +:+ err) w
    | None => []
    end in
  let workers' := delete h (workers r) in
  ({| workers := workers';
      active := if bool_decide (active r = Some h) then first_key workers' else active r;
      path_to_handle :=
        match workers r !! h ≫= (λ w, w_open_path w ≫= (λ p, Some (worker_key p (w_tenant_id w)))) with
        | Some k => delete k (path_to_handle r)
        | None => path_to_handle r
        end;
      token_to_handle :=
        match ref_tokens r !! h with
        | Some tokens => remove_tokens tokens (token_to_handle r)
        | None => token_to_handle r
        end;
      ref_tokens := delete h (ref_tokens r);
      req_counter := req_counter r;
      exe_path := exe_path r |}, sends).

(** The reader task, one parsed response line. *)
Definition reader_response (h : string) (resp : RpcResponse) (r : RouterInner) :
    RouterInner * list send :=
  match workers r !! h with
  | Some w =>
      match w_pending w !! resp_id resp with
      | Some tx =>
          (set_workers (<[h := set_pending (delete (resp_id resp) (w_pending w)) w]> (workers r)) r,
           [(tx, response_outcome resp)])
      | None => (r, [])
      end
  | None => (r, [])
  end.

Definition tenant_worker_count (tenant : string) (r : RouterInner) : nat :=
  map_sum (λ w, if bool_decide (w_tenant_id w = tenant) then 1 else 0) (workers r).

Definition tenant_pending (tenant : string) (r : RouterInner) : nat :=
  map_sum (λ w, if bool_decide (w_tenant_id w = tenant) then size (w_pending w) else 0) (workers r).

(** What the environment contributes to the last section of [spawn_worker]: the
    clock readings, the process id, and whether the child could be started. *)
Record SpawnEnv : Type := {
  se_now_handle : Z;
  se_now_token : Z;
  se_pid : Z;
  se_instant : Z;
  se_child : result unit string
}.

(** The maps after a worker was started. *)
Definition install_worker (key : WorkerKey) (h tok : string) (w : WorkerProcess)
    (r : RouterInner) : RouterInner :=
  {| workers := <[h := w]> (workers r);
     active := Some h;
     path_to_handle := <[key := h]> (path_to_handle r);
     token_to_handle := <[tok := h]> (token_to_handle r);
     ref_tokens := <[h := {[tok]}]> (ref_tokens r);
     req_counter := req_counter r;
     exe_path := exe_path r |}.

(** [spawn_worker], last critical section: the limits, the second look at the
    path, the handle, the child process and the registration.  The close token
    reads [req_counter] without advancing it. *)
Definition spawn_commit (cfg : RouterConfig) (env : SpawnEnv) (backend : WorkerBackendKind)
    (path tenant : string) (r : RouterInner) : RouterInner * result (string * string) string :=
  let key := worker_key path tenant in
  if (max_workers_per_tenant cfg <=? Z.of_nat (tenant_worker_count tenant r))%Z then
    (r, Err ("tenant worker limit reached (" +:+ fmt_dec (max_workers_per_tenant cfg) +:+
             ") for tenant " +:+ tenant))
  else if (max_workers cfg <=? Z.of_nat (size (workers r)))%Z then
    (r, Err ("worker limit reached (" +:+ fmt_dec (max_workers cfg) +:+
             ") and no idle worker was evictable"))
  else
    match path_to_handle r !! key with
    | Some h =>
        let '(r', tok) := reuse_handle (se_now_token env) (se_pid env) h r in (r', Ok (h, tok))
    | None =>
        let h := handle_name (se_now_handle env) (se_pid env) (req_counter r) in
        let r := bump_counter r in
        match se_child env with
        | Err e => (r, Err e)
        | Ok _ =>
            let tok := spawn_token (se_now_token env) (se_pid env) (req_counter r) in
            let w := {| w_backend := backend; w_tenant_id := tenant; w_pending := ∅;
                        w_close_token := Some tok; w_open_path := Some path;
                        w_last_active := se_instant env; w_stdin := [] |} in
            (install_worker key h tok w r, Ok (h, tok))
        end
    end.

(** [release_ref_token] *)
Definition release_ref_token (tok : string) (r : RouterInner) : RouterInner * option (string * nat) :=
  match token_to_handle r !! tok with
  | None => (r, None)
  | Some h =>
      let refs' := match ref_tokens r !! h with
                   | Some s => <[h := s ∖ {[tok]}]> (ref_tokens r)
                   | None => ref_tokens r
                   end in
      let remaining := match ref_tokens r !! h with
                       | Some s => size (s ∖ {[tok]})
                       | None => 0
                       end in
      ({| workers := workers r; active := active r; path_to_handle := path_to_handle r;
          token_to_handle := delete tok (token_to_handle r); ref_tokens := refs';
          req_counter := req_counter r; exe_path := exe_path r |}, Some (h, remaining))
  end.

(** [issue_ref_for_handle] *)
Definition issue_ref_for_handle (now : Z) (h : string) (r : RouterInner) : RouterInner * string :=
  let nonce := req_counter r in
  let tok := cli_token now nonce in
  (add_ref h tok (bump_counter r), tok).

(** [ensure_worker_with_ref_idb], the lookup that refreshes the idle timer. *)
Definition ensure_lookup (now : Z) (key : WorkerKey) (r : RouterInner) : RouterInner * option string :=
  match path_to_handle r !! key with
  | Some h => (set_workers (alter (touch_worker now) h (workers r)) r, Some h)
  | None => (r, None)
  end.

Definition handle_for_token (tok : string) (r : RouterInner) : option string :=
  token_to_handle r !! tok.

Definition active_handle (r : RouterInner) : option string := active r.
Definition all_handles (r : RouterInner) : list string := (hash_iter (workers r)).*1.
Definition worker_count (r : RouterInner) : nat := size (workers r).
End sections.

(** * Routing one request to a worker (src/router/mod.rs, [route_request])

    The critical sections of [route_request] and their sequential composition. *)

From Stdlib Require Import Ascii.
From stdpp Require Import base gmap strings list numbers fin_maps.
From S2P Require Import Prelude RustStr Json ToolError Protocol Runtime RouterConfig.

Open Scope ida_scope.

(** First section: which worker the request is for. *)
Definition resolve_target (handle : option string) (r : RouterInner) : result string ToolError :=
  match handle with
  | Some h =>
      if bool_decide (is_Some (workers r !! h)) then Ok h
      else Err (InvalidParams ("Unknown db_handle: " +:+ h))
  | None =>
      if bool_decide (1 < size (workers r)) then
        Err (InvalidParams ("db_handle is required when multiple databases are open. " +:+
                            "Provide the db_handle returned by open_idb."))
      else ok_or (active r) NoDatabaseOpen
  end.

(** Second section: a fresh request id. *)
Definition take_req_id (r : RouterInner) : RouterInner * string :=
  (bump_counter r, req_name (req_counter r)).

Definition request_timeout (method : string) (params : Value) : Z :=
  let max_timeout := if bool_decide (method = "open") then 3600%Z else 600%Z in
  Z.min (default 120%Z (get "timeout_secs" params ≫= as_u64)) max_timeout.

(** A request accepted by a worker: written to its stdin, its sender pending. *)
Definition accept_request (now : Z) (req : RpcRequest) (tx : sender) (w : WorkerProcess) :
    WorkerProcess :=
  {| w_backend := w_backend w; w_tenant_id := w_tenant_id w;
     w_pending := <[req_id req := tx]> (w_pending w);
     w_close_token := w_close_token w; w_open_path := w_open_path w;
     w_last_active := now; w_stdin := w_stdin w ++ [req] |}.

(** Third section: admission, the write to the worker and the registration of
    the waiting sender, all under one lock.  [write_ok] is whether [write_all]
    and [flush] succeed. *)
Definition enqueue_request (cfg : RouterConfig) (h id method : string) (params : Value)
    (now : Z) (tx : sender) (write_ok : bool) (r : RouterInner) :
    RouterInner * result unit ToolError :=
  match workers r !! h with
  | None => (r, Err (InvalidParams ("Worker " +:+ h +:+ " not found")))
  | Some w =>
      if (max_pending_per_tenant cfg <=? Z.of_nat (tenant_pending (w_tenant_id w) r))%Z then
        (r, Err Busy)
      else if (max_pending_per_worker cfg <=? Z.of_nat (size (w_pending w)))%Z then (r, Err Busy)
      else if write_ok then
        let req := RpcRequest_new id method params in
        (set_workers (<[h := accept_request now req tx w]> (workers r)) r, Ok tt)
      else (r, Err WorkerClosed)
  end.

(** What [tokio::time::timeout(timeout, rx).await] yields. *)
Inductive received : Type :=
| Answered (res : result Value string)
| SenderDropped
| Elapsed.

Definition received_result (timeout_secs : Z) (rx : received) : result Value ToolError :=
  match rx with
  | Answered (Ok v) => Ok v
  | Answered (Err e) => Err (IdaError e)
  | SenderDropped => Err WorkerClosed
  | Elapsed => Err (Timeout timeout_secs)
  end.

(** The whole request, run without interference up to the wait: the registry
    after the request was sent, and the result for what the channel delivers. *)
Definition route_request (cfg : RouterConfig) (handle : option string) (method : string)
    (params : Value) (now : Z) (tx : sender) (write_ok : bool) (rx : received)
    (r : RouterInner) : RouterInner * result Value ToolError :=
  match resolve_target handle r with
  | Err e => (r, Err e)
  | Ok h =>
      let '(r, id) := take_req_id r in
      match enqueue_request cfg h id method params now tx write_ok r with
      | (r, Err e) => (r, Err e)
      | (r, Ok _) => (r, received_result (request_timeout method params) rx)
      end
  end.
