(* ===== verification/RegistryInv.v ===== *)
(** * Invariant of the worker registry

    The five maps of [RouterInner] describe one set of workers: [registry_wf] says
    how they agree, and each critical section preserves it. *)

From Stdlib Require Import Ascii.
From stdpp Require Import base gmap strings list numbers fin_maps fin_map_dom.
From S2P Require Import Prelude RustStr Json ToolError Protocol Runtime RouterConfig Registry.

(** The agreement of the maps:
    - the active handle is a live worker, and there is one whenever a worker lives;
    - a (tenant, path) key maps to a handle exactly when that worker serves it, so
      two live workers never serve the same database for the same tenant;
    - a token maps to a handle exactly when it is in the handle's reference set;
    - every live worker has a reference set. *)
Record registry_wf (r : RouterInner) : Prop := {
  wf_active_live : ∀ h, active r = Some h → is_Some (workers r !! h);
  wf_active_none : active r = None → workers r = ∅;
  wf_paths : ∀ k h, path_to_handle r !! k = Some h ↔
    ∃ w, workers r !! h = Some w ∧ w_open_path w = Some (wk_path k) ∧ w_tenant_id w = wk_tenant_id k;
  wf_tokens : ∀ t h, token_to_handle r !! t = Some h ↔ ∃ s, ref_tokens r !! h = Some s ∧ t ∈ s;
  wf_has_refs : ∀ h, is_Some (workers r !! h) → is_Some (ref_tokens r !! h)
}.

(** No reference set outlives its worker. *)
Definition refs_live (r : RouterInner) : Prop :=
  ∀ h, is_Some (ref_tokens r !! h) → is_Some (workers r !! h).

Lemma wf_inner_new exe : registry_wf (inner_new exe).
Proof.
  split; simpl; try done.
  - intros k h. rewrite lookup_empty. split; [done|]. intros (w & Hw & _). by rewrite lookup_empty in Hw.
  - intros t h. rewrite lookup_empty. split; [done|]. intros (s & Hs & _). by rewrite lookup_empty in Hs.
  - intros h [w Hw]. by rewrite lookup_empty in Hw.
Qed.

Lemma wf_bump_counter r : registry_wf r → registry_wf (bump_counter r).
Proof. by intros []. Qed.

(** Replacing a worker by one that serves the same database. *)
Lemma wf_update_worker r h w w' :
  registry_wf r → workers r !! h = Some w →
  w_open_path w' = w_open_path w → w_tenant_id w' = w_tenant_id w →
  registry_wf (set_workers (<[h:=w']> (workers r)) r).
Proof.
  intros [Ha Hn Hp Ht Hr] Hw Hop Hten. split; simpl.
  - intros h' Hh'. apply Ha in Hh'. apply lookup_insert_is_Some'; auto.
  - intros Hnone. apply Hn in Hnone. rewrite Hnone in Hw. by rewrite lookup_empty in Hw.
  - intros k h'. rewrite Hp. destruct (decide (h = h')) as [<-|Hne].
    + rewrite lookup_insert_eq, Hw. split; intros (w0 & ? & ? & ?); simplify_eq; eexists;
        (split; [reflexivity|]); split; congruence.
    + by rewrite lookup_insert_ne.
  - done.
  - intros h' Hh'. apply Hr. destruct (decide (h = h')) as [<-|Hne]; [by rewrite Hw|].
    by rewrite lookup_insert_ne in Hh'.
Qed.

Lemma wf_add_ref r h tok :
  registry_wf r → token_to_handle r !! tok = None → registry_wf (add_ref h tok r).
Proof.
  intros [Ha Hn Hp Ht Hr] Hfresh. split; simpl; try done.
  - intros t h'. destruct (decide (tok = t)) as [<-|Hne].
    + rewrite lookup_insert_eq. split.
      * intros [= ->]. rewrite lookup_insert_eq. eexists; split; [reflexivity|]. set_solver.
      * intros (s & Hs & Hin). destruct (decide (h = h')) as [<-|Hne']; [done|].
        rewrite lookup_insert_ne in Hs by done.
        assert (token_to_handle r !! tok = Some h') by (apply Ht; eauto). congruence.
    + rewrite lookup_insert_ne by done. rewrite Ht. destruct (decide (h = h')) as [<-|Hne'].
      * rewrite lookup_insert_eq. destruct (ref_tokens r !! h) as [s|]; simpl.
        -- split; intros (s' & ? & ?); simplify_eq; eexists; (split; [reflexivity|]); set_solver.
        -- split; intros (s' & ? & ?); simplify_eq; set_solver.
      * by rewrite lookup_insert_ne.
  - intros h' Hh'. apply Hr in Hh'. apply lookup_insert_is_Some'; auto.
Qed.

(** ** Removing tokens *)

Lemma lookup_foldr_delete (l : list string) (m : gmap string string) t :
  foldr delete m l !! t = if bool_decide (t ∈ l) then None else m !! t.
Proof.
  induction l as [|t' l IH]; simpl; [done|].
  destruct (decide (t' = t)) as [<-|Hne].
  - rewrite lookup_delete_eq. by rewrite bool_decide_true by set_solver.
  - rewrite lookup_delete_ne, IH by done.
    by rewrite (bool_decide_ext (t ∈ l) (t ∈ t' :: l)) by set_solver.
Qed.

Lemma lookup_remove_tokens tokens m t :
  remove_tokens tokens m !! t = if bool_decide (t ∈ tokens) then None else m !! t.
Proof.
  unfold remove_tokens. rewrite lookup_foldr_delete.
  by rewrite (bool_decide_ext (t ∈ elements tokens) (t ∈ tokens)) by apply elem_of_elements.
Qed.

(** The tokens left after a handle was unregistered are those of other handles. *)
Lemma unregister_tokens r h t h' :
  registry_wf r →
  (match ref_tokens r !! h with
   | Some tokens => remove_tokens tokens (token_to_handle r)
   | None => token_to_handle r
   end) !! t = Some h' ↔ token_to_handle r !! t = Some h' ∧ h' ≠ h.
Proof.
  intros [_ _ _ Ht _]. destruct (ref_tokens r !! h) as [s|] eqn:Hs.
  - rewrite lookup_remove_tokens. case_bool_decide as Hin.
    + assert (token_to_handle r !! t = Some h) by (apply Ht; eauto). naive_solver congruence.
    + split; [|naive_solver]. intros Htok. split; [done|]. intros ->.
      apply Ht in Htok as (s' & ? & ?). by simplify_eq.
  - split; [|naive_solver]. intros Htok. split; [done|]. intros ->.
    apply Ht in Htok as (s' & ? & ?). congruence.
Qed.

(** ** Removing and installing workers *)

Section with_order.
Context `{HashOrder}.

Lemma wf_unregister r h w :
  registry_wf r → workers r !! h = Some w → registry_wf (unregister h w r).
Proof.
  intros Hwf Hw. pose proof Hwf as [Ha Hn Hp Ht Hr]. split; simpl.
  - intros h'. case_bool_decide as Hact; [apply first_key_Some|].
    intros Hh'. rewrite lookup_delete_ne by congruence. auto.
  - case_bool_decide as Hact; [apply first_key_None|].
    intros Hnone. rewrite Hn by done. apply delete_empty.
  - intros k h'. transitivity (path_to_handle r !! k = Some h' ∧ h' ≠ h).
    + destruct (w_open_path w) as [p|] eqn:Hop.
      * destruct (decide (worker_key p (w_tenant_id w) = k)) as [<-|Hne].
        -- rewrite lookup_delete_eq. split; [done|]. intros [Hk Hneq].
           assert (path_to_handle r !! worker_key p (w_tenant_id w) = Some h) by (apply Hp; eauto).
           congruence.
        -- rewrite lookup_delete_ne by done. split; [|naive_solver].
           intros Hk. split; [done|]. intros ->. apply Hp in Hk as (w' & Hw' & Hop' & Hten').
           rewrite Hw in Hw'. injection Hw' as <-. rewrite Hop in Hop'. injection Hop' as ->.
           destruct Hne. unfold worker_key. rewrite Hten'. by destruct k.
      * split; [|naive_solver]. intros Hk. split; [done|]. intros ->.
        apply Hp in Hk as (w' & ? & ? & ?). congruence.
    + rewrite Hp. split.
      * intros [(w' & ? & ?) ?]. exists w'. by rewrite lookup_delete_ne.
      * intros (w' & [??]%lookup_delete_Some & ?). naive_solver.
  - intros t h'. rewrite (unregister_tokens r h t h' Hwf), Ht. split.
    + intros [(s & ? & ?) ?]. exists s. by rewrite lookup_delete_ne.
    + intros (s & [??]%lookup_delete_Some & ?). naive_solver.
  - intros h' [w' [? Hw']%lookup_delete_Some]. rewrite lookup_delete_ne by done. eauto.
Qed.

Lemma wf_install_worker r key h tok w :
  registry_wf r → workers r !! h = None → ref_tokens r !! h = None →
  token_to_handle r !! tok = None → path_to_handle r !! key = None →
  w_open_path w = Some (wk_path key) → w_tenant_id w = wk_tenant_id key →
  registry_wf (install_worker key h tok w r).
Proof.
  intros [Ha Hn Hp Ht Hr] Hh Hrh Htok Hkey Hop Hten. split; simpl.
  - intros h' [= <-]. by rewrite lookup_insert_eq.
  - done.
  - intros k h'. destruct (decide (h = h')) as [<-|Hne].
    + rewrite lookup_insert_eq. split.
      * intros [[-> _]|[? Hk]]%lookup_insert_Some; [eauto|].
        apply Hp in Hk as (w' & ? & ?). congruence.
      * intros (w' & [= <-] & Hop' & Hten').
        replace k with key; [by rewrite lookup_insert_eq|].
        destruct key, k; simpl in *; congruence.
    + rewrite (lookup_insert_ne (workers r)) by done. rewrite <-Hp.
      rewrite lookup_insert_Some. split; [naive_solver|]. intros Hk. right. split; [|done].
      intros <-. congruence.
  - intros t h'. destruct (decide (h = h')) as [<-|Hne].
    + rewrite lookup_insert_eq. split.
      * intros [[-> _]|[? Hk]]%lookup_insert_Some; [eexists; split; [done|set_solver]|].
        apply Ht in Hk as (s & ? & ?). congruence.
      * intros (s & ? & ?). simplify_eq. assert (t = tok) as -> by set_solver. by rewrite lookup_insert_eq.
    + rewrite (lookup_insert_ne (ref_tokens r)) by done. rewrite <-Ht, lookup_insert_Some.
      split; [naive_solver|]. intros Hk. right. split; [|done]. intros <-. congruence.
  - intros h' [<-|[? ?]]%lookup_insert_is_Some; [by rewrite lookup_insert_eq|].
    rewrite lookup_insert_ne by done. auto.
Qed.
End with_order.

Lemma wf_release_ref_token r tok : registry_wf r → registry_wf (release_ref_token tok r).1.
Proof.
  intros Hwf. pose proof Hwf as [Ha Hn Hp Ht Hr]. unfold release_ref_token.
  destruct (token_to_handle r !! tok) as [h|] eqn:Htok; [|done].
  pose proof Htok as (s & Hs & Hin)%Ht. rewrite Hs. split; simpl; try done.
  - intros t h'. rewrite lookup_delete_Some, Ht. destruct (decide (h = h')) as [<-|Hne].
    + rewrite lookup_insert_eq. split.
      * intros [? (s' & ? & ?)]. simplify_eq. eexists; split; [reflexivity|set_solver].
      * intros (s' & ? & ?). simplify_eq. split; [set_solver|]. exists s. split; [done|set_solver].
    + rewrite lookup_insert_ne by done. split; [naive_solver|]. intros (s' & Hs' & Hin').
      split; [|eauto]. intros <-. assert (token_to_handle r !! tok = Some h') by (apply Ht; eauto). congruence.
  - intros h' Hh'. apply Hr in Hh'. destruct (decide (h = h')) as [<-|]; [by rewrite lookup_insert_eq|].
    by rewrite lookup_insert_ne.
Qed.

#[export] Hint Resolve wf_inner_new wf_bump_counter wf_add_ref wf_unregister wf_release_ref_token : ida.
