(* ===== verification/RouterSteps.v ===== *)
(** * The router under concurrency

    Any number of tasks run the sections of [Registry] and [Requests] in any
    order.  The step relation has one rule per section, and the reachable states
    satisfy [router_inv]: the registry invariant, the configured limits, and the
    uniqueness of the ids of the requests in flight. *)

From Stdlib Require Import Ascii.
From stdpp Require Import base gmap strings list numbers fin_maps fin_map_dom relations.
From S2P Require Import Prelude RustStr Json ToolError Protocol Runtime RouterConfig Registry.
From S2P Require Import RegistryInv.

(** ** Steps *)

(** The registry, and the request ids that a task took and has not used yet. *)
Record RouterSt : Type := { st_inner : RouterInner; st_reserved : gset string }.

(** The names that [spawn_commit] would make are not in use.  They are built from
    the clock, the process id and the counter. *)
Definition fresh_names (env : SpawnEnv) (r : RouterInner) : Prop :=
  let h := handle_name (se_now_handle env) (se_pid env) (req_counter r) in
  workers r !! h = None ∧ ref_tokens r !! h = None ∧
  token_to_handle r !! spawn_token (se_now_token env) (se_pid env) (req_counter r) = None ∧
  token_to_handle r !! spawn_token (se_now_token env) (se_pid env) (req_counter r + 1) = None.

(** The 64-bit counter has not wrapped. *)
Definition counter_room (r : RouterInner) : Prop := (0 ≤ req_counter r < u64_max)%Z.

Section steps.
Context `{HashOrder} (cfg : RouterConfig).

Inductive step : RouterSt → RouterSt → Prop :=
| step_spawn_lookup now pid key r S :
    counter_room r → (0 ≤ now)%Z → (0 ≤ pid)%Z →
    token_to_handle r !! spawn_token now pid (req_counter r) = None →
    step {| st_inner := r; st_reserved := S |}
         {| st_inner := (spawn_lookup now pid key r).1; st_reserved := S |}
| step_spawn_commit env b path tenant r S :
    counter_room r → (0 ≤ se_now_token env)%Z → (0 ≤ se_pid env)%Z → fresh_names env r →
    step {| st_inner := r; st_reserved := S |}
         {| st_inner := (spawn_commit cfg env b path tenant r).1; st_reserved := S |}
| step_close h r S :
    step {| st_inner := r; st_reserved := S |}
         {| st_inner := (close_worker_inner h r).1; st_reserved := S |}
| step_eof h r S :
    step {| st_inner := r; st_reserved := S |}
         {| st_inner := (reader_eof h r).1; st_reserved := S |}
| step_io_error h err r S :
    step {| st_inner := r; st_reserved := S |}
         {| st_inner := (reader_io_error h err r).1; st_reserved := S |}
| step_response h resp r S :
    step {| st_inner := r; st_reserved := S |}
         {| st_inner := (reader_response h resp r).1; st_reserved := S |}
| step_release tok r S :
    step {| st_inner := r; st_reserved := S |}
         {| st_inner := (release_ref_token tok r).1; st_reserved := S |}
| step_issue now h r S :
    counter_room r → (0 ≤ now)%Z →
    step {| st_inner := r; st_reserved := S |}
         {| st_inner := (issue_ref_for_handle now h r).1; st_reserved := S |}
| step_ensure_lookup now key r S :
    step {| st_inner := r; st_reserved := S |}
         {| st_inner := (ensure_lookup now key r).1; st_reserved := S |}
| step_take_id r S :
    counter_room r →
    step {| st_inner := r; st_reserved := S |}
         {| st_inner := (take_req_id r).1; st_reserved := {[ (take_req_id r).2 ]} ∪ S |}
| step_enqueue h id method params now tx write_ok r S :
    id ∈ S →
    step {| st_inner := r; st_reserved := S |}
         {| st_inner := (enqueue_request cfg h id method params now tx write_ok r).1;
            st_reserved := S ∖ {[id]} |}.

(** ** The invariant *)

Record limits_ok (r : RouterInner) : Prop := {
  lim_workers : (Z.of_nat (size (workers r)) ≤ max_workers cfg)%Z;
  lim_tenant_workers t : (Z.of_nat (tenant_worker_count t r) ≤ max_workers_per_tenant cfg)%Z;
  lim_pending h w : workers r !! h = Some w →
    (Z.of_nat (size (w_pending w)) ≤ max_pending_per_worker cfg)%Z;
  lim_tenant_pending t : (Z.of_nat (tenant_pending t r) ≤ max_pending_per_tenant cfg)%Z
}.

Definition issued_id (r : RouterInner) (id : string) : Prop :=
  ∃ n, (0 ≤ n < req_counter r)%Z ∧ id = req_name n.

Record ids_ok (s : RouterSt) : Prop := {
  ids_pending h w id : workers (st_inner s) !! h = Some w → is_Some (w_pending w !! id) →
    issued_id (st_inner s) id ∧ id ∉ st_reserved s;
  ids_reserved id : id ∈ st_reserved s → issued_id (st_inner s) id;
  ids_unique h1 h2 w1 w2 id : workers (st_inner s) !! h1 = Some w1 → workers (st_inner s) !! h2 = Some w2 →
    is_Some (w_pending w1 !! id) → is_Some (w_pending w2 !! id) → h1 = h2
}.

(** Where the reference tokens come from. *)
Definition tokens_generated (r : RouterInner) : Prop :=
  ∀ t h, token_to_handle r !! t = Some h →
    (∃ now pid n, (0 ≤ now)%Z ∧ t = spawn_token now pid n) ∨
    (∃ now n, (0 ≤ now)%Z ∧ (0 ≤ n < req_counter r)%Z ∧ t = cli_token now n).

Record router_inv (s : RouterSt) : Prop := {
  inv_wf : registry_wf (st_inner s);
  inv_limits : limits_ok (st_inner s);
  inv_ids : ids_ok s;
  inv_tokens : tokens_generated (st_inner s)
}.

(** ** Token names *)

Lemma cli_token_inj now1 now2 n1 n2 :
  (0 ≤ n1)%Z → (0 ≤ n2)%Z → cli_token now1 n1 = cli_token now2 n2 → n1 = n2.
Proof.
  intros ?? Heq%append_inj%(f_equal (split_on is_dash)).
  assert (∀ now n, split_on is_dash (fmt_hex now +:+ "-" +:+ fmt_hex n) = [fmt_hex now; fmt_hex n])
    as Hsplit.
  { intros. change ("-" +:+ ?x) with (String "-" x).
    rewrite split_on_app, split_on_none by (done || apply fmt_hex_no_dash). done. }
  rewrite !Hsplit in Heq. simplify_eq. eapply fmt_radix_inj; [| | |eassumption]; lia.
Qed.

Definition hex_or_dash (c : ascii) : bool := is_dash c || is_ascii_hexdigit c.

Lemma fmt_hex_hex_or_dash n : str_all hex_or_dash (fmt_hex n) = true.
Proof.
  apply fmt_radix_all; [lia|]. intros d Hd. unfold hex_or_dash, is_ascii_hexdigit.
  rewrite to_digit_from_digit by lia. rewrite (bool_decide_true (is_Some _)) by eauto.
  apply orb_true_r.
Qed.

Lemma spawn_token_chars now pid n : str_all hex_or_dash (spawn_token now pid n) = true.
Proof. unfold spawn_token. by rewrite !str_all_app, !fmt_hex_hex_or_dash. Qed.

Lemma cli_token_not_spawn now n now' pid' n' : cli_token now n ≠ spawn_token now' pid' n'.
Proof. intros Heq. pose proof (spawn_token_chars now' pid' n') as Hc. by rewrite <-Heq in Hc. Qed.

Lemma cli_token_fresh r now :
  tokens_generated r → (0 ≤ req_counter r)%Z →
  token_to_handle r !! cli_token now (req_counter r) = None.
Proof.
  intros Hgen ?. destruct (_ !! _) as [h|] eqn:E; [|done].
  apply Hgen in E as [(?&?&?&?&Heq)|(?&n&?&?&Heq)].
  - by apply cli_token_not_spawn in Heq.
  - apply cli_token_inj in Heq; lia.
Qed.

Lemma req_name_inj m n : (0 ≤ m)%Z → (0 ≤ n)%Z → req_name m = req_name n → m = n.
Proof. intros ?? Heq%append_inj. eapply fmt_radix_inj; [| | |eassumption]; lia. Qed.

(** ** Preservation *)

(** Every worker of [r'] was in [r], for the same tenant, with at least the same
    requests in flight; the counter did not go back. *)
Definition shrinks (r r' : RouterInner) : Prop :=
  (req_counter r ≤ req_counter r')%Z ∧
  ∀ h w', workers r' !! h = Some w' →
    ∃ w, workers r !! h = Some w ∧ w_tenant_id w' = w_tenant_id w ∧ w_pending w' ⊆ w_pending w.

Lemma limits_shrink r r' : shrinks r r' → limits_ok r → limits_ok r'.
Proof.
  intros [_ Hs] [H1 H2 H3 H4]. split.
  - enough (size (workers r') ≤ size (workers r)) by lia. apply map_size_mono.
    intros h [w' Hw']. apply Hs in Hw' as (w & ? & _). eauto.
  - intros t. specialize (H2 t). enough (tenant_worker_count t r' ≤ tenant_worker_count t r) by lia.
    apply map_sum_mono. intros h w' (w & ? & Ht & _)%Hs. exists w. by rewrite Ht.
  - intros h w' Hw'. apply Hs in Hw' as (w & Hw & _ & Hsub%map_subseteq_size). apply H3 in Hw. lia.
  - intros t. specialize (H4 t). enough (tenant_pending t r' ≤ tenant_pending t r) by lia.
    apply map_sum_mono. intros h w' (w & ? & Ht & Hsub%map_subseteq_size)%Hs. exists w.
    rewrite Ht. split; [done|]. case_bool_decide; lia.
Qed.

Lemma issued_id_mono r r' id :
  (req_counter r ≤ req_counter r')%Z → issued_id r id → issued_id r' id.
Proof. intros Hle (n & ? & ->). exists n. split; [lia|done]. Qed.

Lemma ids_shrink r r' S :
  shrinks r r' → ids_ok {| st_inner := r; st_reserved := S |} →
  ids_ok {| st_inner := r'; st_reserved := S |}.
Proof.
  intros [Hc Hs] [H1 H2 H3].
  assert (∀ h w' id, workers r' !! h = Some w' → is_Some (w_pending w' !! id) →
    ∃ w, workers r !! h = Some w ∧ is_Some (w_pending w !! id)) as Hback.
  { intros h w' id Hw' [tx Htx]. apply Hs in Hw' as (w & Hw & _ & Hsub). exists w. split; [done|].
    exists tx. by eapply lookup_weaken. }
  split; simpl in *.
  - intros h w' id Hw' Hid. destruct (Hback h w' id Hw' Hid) as (w & Hw & Hid').
    destruct (H1 h w id Hw Hid'). split; [by eapply issued_id_mono|done].
  - intros id Hid. eapply issued_id_mono; eauto.
  - intros h1 h2 w1 w2 id Hw1 Hw2 Hid1 Hid2.
    destruct (Hback _ _ _ Hw1 Hid1) as (v1 & ? & ?), (Hback _ _ _ Hw2 Hid2) as (v2 & ? & ?); eauto.
Qed.

Lemma tokens_generated_mono r r' :
  (req_counter r ≤ req_counter r')%Z →
  (∀ t h, token_to_handle r' !! t = Some h → is_Some (token_to_handle r !! t)) →
  tokens_generated r → tokens_generated r'.
Proof.
  intros Hc Hsub Hgen t h Ht. apply Hsub in Ht as [h' Ht]. apply Hgen in Ht.
  destruct Ht as [?|(now & n & ? & ? & ->)]; [by left|]. right. exists now, n. split_and!; try lia; done.
Qed.

Lemma inv_shrink r r' S :
  shrinks r r' → registry_wf r' →
  (∀ t h, token_to_handle r' !! t = Some h → is_Some (token_to_handle r !! t)) →
  router_inv {| st_inner := r; st_reserved := S |} →
  router_inv {| st_inner := r'; st_reserved := S |}.
Proof.
  intros Hs Hwf' Htok [Hwf Hlim Hids Hgen]. split; simpl in *; [done|..].
  - by eapply limits_shrink.
  - by eapply ids_shrink.
  - eapply tokens_generated_mono; [apply Hs|done..].
Qed.

Lemma bump_counter_succ r : counter_room r → req_counter (bump_counter r) = (req_counter r + 1)%Z.
Proof. intros ?. simpl. apply wrap64_small. unfold counter_room, in_u64 in *. lia. Qed.

Lemma shrinks_bump r : counter_room r → shrinks r (bump_counter r).
Proof.
  intros Hc. split; [rewrite bump_counter_succ by done; lia|].
  intros h w Hw. exists w. done.
Qed.

Lemma inv_bump r S :
  counter_room r → router_inv {| st_inner := r; st_reserved := S |} →
  router_inv {| st_inner := bump_counter r; st_reserved := S |}.
Proof.
  intros Hc Hinv. eapply inv_shrink; [by apply shrinks_bump| | |exact Hinv]; simpl.
  - apply wf_bump_counter, Hinv.
  - eauto.
Qed.

(** A new reference token, taken at the counter's value. *)
Lemma inv_add_ref r S h tok :
  counter_room r → token_to_handle r !! tok = None →
  (∃ now pid n, (0 ≤ now)%Z ∧ tok = spawn_token now pid n) ∨
  (∃ now, (0 ≤ now)%Z ∧ tok = cli_token now (req_counter r)) →
  router_inv {| st_inner := r; st_reserved := S |} →
  router_inv {| st_inner := add_ref h tok (bump_counter r); st_reserved := S |}.
Proof.
  intros Hc Hfresh Hgen Hinv. apply inv_bump in Hinv as [Hwf Hlim Hids Htok]; [|done].
  split; simpl in *.
  - by apply wf_add_ref.
  - by destruct Hlim.
  - by destruct Hids.
  - intros t h' Ht. simpl in Ht. apply lookup_insert_Some in Ht as [[<- _]|[_ Ht]]; [|by eapply Htok].
    destruct Hgen as [?|(now & ? & ->)]; [by left|]. right. exists now, (req_counter r).
    split_and!; try done; unfold counter_room in Hc; [lia|].
    change (req_counter (add_ref h (cli_token now (req_counter r)) (bump_counter r)))
      with (req_counter (bump_counter r)). rewrite bump_counter_succ by done. lia.
Qed.

Lemma shrinks_unregister r h w : shrinks r (unregister h w r).
Proof.
  split; simpl; [lia|]. intros h' w' [? Hw']%lookup_delete_Some. exists w'. done.
Qed.

Lemma unregister_tokens_subset r h w t h' :
  registry_wf r → token_to_handle (unregister h w r) !! t = Some h' → is_Some (token_to_handle r !! t).
Proof. intros Hwf Ht. simpl in Ht. apply unregister_tokens in Ht as [Ht _]; eauto. Qed.

Lemma inv_unregister r S h w :
  workers r !! h = Some w → router_inv {| st_inner := r; st_reserved := S |} →
  router_inv {| st_inner := unregister h w r; st_reserved := S |}.
Proof.
  intros Hw Hinv. eapply inv_shrink; [apply shrinks_unregister| | |exact Hinv].
  - apply wf_unregister; [apply Hinv|done].
  - intros. eapply unregister_tokens_subset; [apply Hinv|eassumption].
Qed.

(** End of file and orderly close remove a worker in the same way. *)
Lemma reader_eof_unregister r h w :
  workers r !! h = Some w → (reader_eof h r).1 = unregister h w r.
Proof.
  intros Hw. unfold reader_eof. rewrite Hw. simpl. unfold unregister; simpl.
  by rewrite delete_insert_eq.
Qed.

Lemma reader_io_error_unregister r h w err :
  workers r !! h = Some w → (reader_io_error h err r).1 = unregister h w r.
Proof.
  intros Hw. unfold reader_io_error, unregister. rewrite Hw. simpl.
  by destruct (w_open_path w).
Qed.

Lemma inv_io_error_absent r S h err :
  workers r !! h = None → router_inv {| st_inner := r; st_reserved := S |} →
  router_inv {| st_inner := (reader_io_error h err r).1; st_reserved := S |}.
Proof.
  intros Hw Hinv. pose proof (inv_wf _ Hinv) as Hwf. simpl in Hwf.
  pose proof Hwf as [Ha Hn Hp Ht Hr].
  assert (delete h (workers r) = workers r) as Hdel by by apply delete_id.
  assert (active r ≠ Some h) as Hact by (intros Hact; apply Ha in Hact; rewrite Hw in Hact; by destruct Hact).
  eapply inv_shrink; [| | |exact Hinv].
  - split; simpl; [lia|]. rewrite Hdel. intros h' w' ?. by exists w'.
  - unfold reader_io_error. rewrite Hw; simpl. rewrite Hdel, (bool_decide_false (_ = Some h)) by done.
    split; simpl; try done.
    + intros t h'. rewrite unregister_tokens, Ht by done. split.
      * intros [(s & ? & ?) ?]. exists s. by rewrite lookup_delete_ne.
      * intros (s & [??]%lookup_delete_Some & ?). naive_solver.
    + intros h' Hh'. rewrite lookup_delete_ne by (intros <-; rewrite Hw in Hh'; by destruct Hh'). auto.
  - simpl. intros t h' Htk. apply unregister_tokens in Htk as [? _]; eauto.
Qed.

Lemma inv_update r S h w w' :
  workers r !! h = Some w → w_open_path w' = w_open_path w → w_tenant_id w' = w_tenant_id w →
  w_pending w' ⊆ w_pending w → router_inv {| st_inner := r; st_reserved := S |} →
  router_inv {| st_inner := set_workers (<[h:=w']> (workers r)) r; st_reserved := S |}.
Proof.
  intros Hw Hop Hten Hsub Hinv. eapply inv_shrink; [| | |exact Hinv]; simpl.
  - split; simpl; [lia|]. intros h' v [[<- <-]|[? ?]]%lookup_insert_Some; [by exists w|by exists v].
  - eapply wf_update_worker; eauto. apply Hinv.
  - eauto.
Qed.

Lemma limits_install key h tok w r :
  limits_ok r → workers r !! h = None → w_pending w = ∅ →
  (Z.of_nat (tenant_worker_count (w_tenant_id w) r) < max_workers_per_tenant cfg)%Z →
  (Z.of_nat (size (workers r)) < max_workers cfg)%Z →
  (0 ≤ max_pending_per_worker cfg)%Z →
  limits_ok (install_worker key h tok w r).
Proof.
  intros [H1 H2 H3 H4] Hh Hp Htw Hw Hmax. split; simpl.
  - rewrite map_size_insert_None by done. lia.
  - intros t. specialize (H2 t). unfold tenant_worker_count in *; simpl.
    rewrite map_sum_insert_new by done. case_bool_decide; subst; lia.
  - intros h' w' [[<- <-]|[_ ?]]%lookup_insert_Some; [|eauto]. rewrite Hp, map_size_empty. lia.
  - intros t. specialize (H4 t). unfold tenant_pending in *; simpl.
    rewrite map_sum_insert_new, Hp, map_size_empty by done. case_bool_decide; lia.
Qed.

Lemma ids_install key h tok w r S :
  ids_ok {| st_inner := r; st_reserved := S |} → w_pending w = ∅ →
  ids_ok {| st_inner := install_worker key h tok w r; st_reserved := S |}.
Proof.
  intros [H1 H2 H3] Hp.
  assert (∀ h' w' id, workers (install_worker key h tok w r) !! h' = Some w' →
    is_Some (w_pending w' !! id) → workers r !! h' = Some w') as Hback.
  { simpl. intros h' w' id [[<- <-]|[_ ?]]%lookup_insert_Some Hid; [|done].
    rewrite Hp, lookup_empty in Hid. by destruct Hid. }
  split; simpl in *.
  - intros h' w' id Hw' Hid. apply (H1 h' w' id); eauto.
  - done.
  - intros h1 h2 w1 w2 id ????. eapply (H3 h1 h2 w1 w2 id); eauto.
Qed.

Lemma inv_spawn_commit env b path tenant r S :
  config_wf cfg → counter_room r → (0 ≤ se_now_token env)%Z → fresh_names env r →
  router_inv {| st_inner := r; st_reserved := S |} →
  router_inv {| st_inner := (spawn_commit cfg env b path tenant r).1; st_reserved := S |}.
Proof.
  intros Hcfg Hc Hnow (Hfh & Hfr & Hft & Hft') Hinv. unfold spawn_commit.
  destruct (Z.leb_spec (max_workers_per_tenant cfg) (Z.of_nat (tenant_worker_count tenant r))); [done|].
  destruct (Z.leb_spec (max_workers cfg) (Z.of_nat (size (workers r)))); [done|].
  destruct (path_to_handle r !! worker_key path tenant) as [h|] eqn:Hkey.
  { apply inv_add_ref; try done. left. eauto. }
  destruct (se_child env) as [_|e]; [|by apply inv_bump].
  pose proof (inv_bump _ _ Hc Hinv) as [Hwf Hlim Hids Hgen]. simpl in *.
  unfold config_wf, limit_ok in Hcfg. destruct_and?.
  assert (wrap64 (req_counter r + 1) = req_counter r + 1)%Z as Hw by exact (bump_counter_succ r Hc).
  split; simpl.
  - apply wf_install_worker; try done. simpl. by rewrite Hw.
  - apply limits_install; try done; simpl; lia.
  - by apply ids_install.
  - intros t h'. simpl. intros [[<- _]|[_ Ht]]%lookup_insert_Some; [|by eapply Hgen].
    left. eexists _, _, _. split; [exact Hnow|reflexivity].
Qed.

Lemma inv_take_id r S :
  counter_room r → router_inv {| st_inner := r; st_reserved := S |} →
  router_inv {| st_inner := bump_counter r; st_reserved := {[ req_name (req_counter r) ]} ∪ S |}.
Proof.
  intros Hc Hinv. pose proof (inv_bump _ _ Hc Hinv) as [Hwf Hlim [Hi1 Hi2 Hi3] Hgen].
  pose proof Hc as [Hc0 _]. split; simpl in *; try done. split; simpl in *; try done.
  - intros h w id Hw Hid. destruct (Hi1 h w id Hw Hid) as [Hiss Hni]. split; [done|].
    rewrite not_elem_of_union, not_elem_of_singleton. split; [|done]. intros ->.
    destruct Hinv as [_ _ [Hp _ _] _]. simpl in Hp.
    destruct (Hp h w _ Hw Hid) as [(n & Hn & Heq) _]. apply req_name_inj in Heq; lia.
  - intros id [->%elem_of_singleton|Hid]%elem_of_union; [|eauto].
    exists (req_counter r). split; [|done]. rewrite bump_counter_succ by done. lia.
Qed.

Lemma limits_enqueue r h w w' id tx :
  limits_ok r → workers r !! h = Some w → w_tenant_id w' = w_tenant_id w →
  w_pending w' = <[id:=tx]> (w_pending w) → w_pending w !! id = None →
  (Z.of_nat (tenant_pending (w_tenant_id w) r) < max_pending_per_tenant cfg)%Z →
  (Z.of_nat (size (w_pending w)) < max_pending_per_worker cfg)%Z →
  limits_ok (set_workers (<[h:=w']> (workers r)) r).
Proof.
  intros [H1 H2 H3 H4] Hw Hten Hp Hid Htp Hwp. split; simpl.
  - by rewrite map_size_insert_Some by eauto.
  - intros t. specialize (H2 t). unfold tenant_worker_count in *; simpl.
    pose proof (map_sum_insert (λ w, if bool_decide (w_tenant_id w = t) then 1 else 0) _ _ w' _ Hw) as Hs.
    simpl in Hs. rewrite Hten in Hs. lia.
  - intros h' v [[<- <-]|[_ ?]]%lookup_insert_Some; [|eauto].
    rewrite Hp, map_size_insert_None by done. lia.
  - intros t. specialize (H4 t). unfold tenant_pending in *; simpl.
    pose proof (map_sum_insert (λ w, if bool_decide (w_tenant_id w = t) then size (w_pending w) else 0)
      _ _ w' _ Hw) as Hs. simpl in Hs.
    rewrite Hten, Hp, map_size_insert_None in Hs by done. case_bool_decide; subst; lia.
Qed.

Lemma ids_enqueue r S h w w' id tx :
  ids_ok {| st_inner := r; st_reserved := S |} → id ∈ S → workers r !! h = Some w →
  w_pending w' = <[id:=tx]> (w_pending w) →
  ids_ok {| st_inner := set_workers (<[h:=w']> (workers r)) r; st_reserved := S ∖ {[id]} |}.
Proof.
  intros [H1 H2 H3] Hid Hw Hp.
  assert (∀ h' v id', <[h:=w']> (workers r) !! h' = Some v → is_Some (w_pending v !! id') →
    (h' = h ∧ id' = id) ∨ (id' ≠ id ∧ ∃ v0, workers r !! h' = Some v0 ∧ is_Some (w_pending v0 !! id')))
    as Hback.
  { intros h' v id' [[<- <-]|[Hne Hv]]%lookup_insert_Some Hid'.
    - rewrite Hp in Hid'. apply lookup_insert_is_Some in Hid' as [<-|[? ?]]; [by left|]. right.
      split; [done|]. eauto.
    - right. split; [|eauto]. intros ->. destruct (H1 _ _ _ Hv Hid'). done. }
  split; simpl in *.
  - intros h' v id' Hv Hid'. destruct (Hback _ _ _ Hv Hid') as [[-> ->]|(Hne & v0 & Hv0 & Hid0)].
    + split; [by apply H2|set_solver].
    + destruct (H1 _ _ _ Hv0 Hid0). split; [done|set_solver].
  - intros id' Hid'. apply H2. set_solver.
  - intros h1 h2 w1 w2 id' Hw1 Hw2 Hi1 Hi2.
    destruct (Hback _ _ _ Hw1 Hi1) as [[-> ->]|(? & v1 & ? & ?)],
      (Hback _ _ _ Hw2 Hi2) as [[-> Hx]|(? & v2 & ? & ?)]; eauto; done.
Qed.

Lemma inv_enqueue h id method params now tx write_ok r S :
  id ∈ S → router_inv {| st_inner := r; st_reserved := S |} →
  router_inv {| st_inner := (enqueue_request cfg h id method params now tx write_ok r).1;
                st_reserved := S ∖ {[id]} |}.
Proof.
  intros Hid Hinv.
  assert (router_inv {| st_inner := r; st_reserved := S ∖ {[id]} |}) as Hsame.
  { destruct Hinv as [? ? [Hi1 Hi2 Hi3] ?]; split; simpl in *; try done. split; simpl in *.
    - intros h' w' id' Hw' Hid'. destruct (Hi1 _ _ _ Hw' Hid'). split; [done|set_solver].
    - intros id' ?. apply Hi2. set_solver.
    - done. }
  unfold enqueue_request. destruct (workers r !! h) as [w|] eqn:Hw; [|done].
  destruct (Z.leb_spec (max_pending_per_tenant cfg) (Z.of_nat (tenant_pending (w_tenant_id w) r))); [done|].
  destruct (Z.leb_spec (max_pending_per_worker cfg) (Z.of_nat (size (w_pending w)))); [done|].
  destruct write_ok; [|done]. simpl.
  assert (w_pending w !! id = None) as Hfresh.
  { destruct (w_pending w !! id) eqn:E; [|done].
    destruct (ids_pending _ (inv_ids _ Hinv) h w id); simpl; [done|by rewrite E|]. done. }
  destruct Hinv as [Hwf Hlim Hids Hgen]. split; simpl in *.
  - by eapply wf_update_worker.
  - by eapply limits_enqueue.
  - by eapply ids_enqueue.
  - done.
Qed.

(** ** Reachable states *)

Definition st_init (exe : string) : RouterSt :=
  {| st_inner := inner_new exe; st_reserved := ∅ |}.

Lemma inv_init exe : config_wf cfg → router_inv (st_init exe).
Proof.
  unfold config_wf, limit_ok. intros Hcfg. destruct_and?. split; simpl.
  - apply wf_inner_new.
  - split; simpl.
    + rewrite map_size_empty. lia.
    + intros t. unfold tenant_worker_count. simpl. rewrite map_sum_empty. lia.
    + intros h w Hw. by rewrite lookup_empty in Hw.
    + intros t. unfold tenant_pending. simpl. rewrite map_sum_empty. lia.
  - split; simpl; intros; by rewrite ?lookup_empty in *; set_solver.
  - intros t h Ht. simpl in Ht. by rewrite lookup_empty in Ht.
Qed.

Lemma inv_step s s' : config_wf cfg → router_inv s → step s s' → router_inv s'.
Proof.
  intros Hcfg Hinv Hstep. destruct Hstep.
  - unfold spawn_lookup. case_match; [|done]. apply inv_add_ref; try done. left. eauto.
  - by apply inv_spawn_commit.
  - unfold close_worker_inner. case_match; [|done]. by apply inv_unregister.
  - destruct (workers r !! h) as [w|] eqn:Hw.
    + rewrite (reader_eof_unregister r h w) by done. by apply inv_unregister.
    + unfold reader_eof. by rewrite Hw.
  - destruct (workers r !! h) as [w|] eqn:Hw.
    + rewrite (reader_io_error_unregister r h w) by done. by apply inv_unregister.
    + by apply inv_io_error_absent.
  - unfold reader_response. destruct (workers r !! h) as [w|] eqn:Hw; [|done].
    case_match; [|done]. eapply inv_update; try done. apply delete_subseteq.
  - eapply inv_shrink; [| | |exact Hinv]; [|apply wf_release_ref_token, Hinv|].
    + unfold release_ref_token. case_match; (split; simpl; [lia|]; intros h' w' ?; by exists w').
    + intros t h. unfold release_ref_token. case_match; simpl; [|eauto].
      rewrite lookup_delete_Some. naive_solver.
  - apply inv_add_ref; try done; [|right; eauto].
    apply cli_token_fresh; [apply Hinv|]. by destruct H0.
  - unfold ensure_lookup. case_match eqn:Hk; [|done]. simpl.
    pose proof Hk as (w & Hw & _ & _)%(wf_paths _ (inv_wf _ Hinv)). simpl in Hw.
    assert (alter (touch_worker now) s (workers r) = <[s := touch_worker now w]> (workers r)) as ->.
    { apply map_eq. intros i. destruct (decide (s = i)) as [<-|].
      - by rewrite lookup_alter_eq, lookup_insert_eq, Hw.
      - by rewrite lookup_alter_ne, lookup_insert_ne. }
    by eapply inv_update.
  - by apply inv_take_id.
  - by apply inv_enqueue.
Qed.

Lemma inv_reachable exe s : config_wf cfg → rtc step (st_init exe) s → router_inv s.
Proof.
  intros Hcfg Hrtc. assert (router_inv (st_init exe)) as Hinit by by apply inv_init.
  induction Hrtc as [|s1 s2 s3 Hs _ IH]; [done|]. apply IH. by eapply inv_step.
Qed.
End steps.
