(* ===== verification/RouterTheorems.v ===== *)
(** * What the router guarantees

    The theorems about the registry, its tokens and its requests, on every state
    that concurrent callers can reach, and the behaviour of single sections. *)

From Stdlib Require Import Ascii.
From stdpp Require Import base gmap strings list numbers fin_maps fin_map_dom relations.
From S2P Require Import Prelude RustStr Json ToolError Protocol Runtime RouterConfig Registry.
From S2P Require Import RegistryInv RouterSteps.

Open Scope ida_scope.

(** ** A concrete run *)

Definition default_config : RouterConfig := from_env (λ _, None) (Some 4%Z) 7.

Definition spawn_env1 : SpawnEnv :=
  {| se_now_handle := 1000; se_now_token := 1001; se_pid := 7; se_instant := 5; se_child := Ok tt |}.

(** The states after opening [/a], taking a request id and sending the request. *)
Definition run1 : RouterInner :=
  (spawn_commit default_config spawn_env1 NativeLinked "/a" "default" (inner_new "ida-cli")).1.
Definition run2 : RouterInner := (take_req_id run1).1.
Definition handle1 : string := handle_name 1000 7 0.
Definition run3 : RouterInner :=
  (enqueue_request default_config handle1 "r1" "list_functions" Null 6 1%N true run2).1.

Definition st3 : RouterSt := {| st_inner := run3; st_reserved := ({["r1"]} ∪ ∅) ∖ {["r1"]} |}.

Lemma run_reachable : rtc (step (H := canonical_order) default_config) (st_init "ida-cli") st3.
Proof.
  eapply rtc_l.
  { apply (step_spawn_commit default_config spawn_env1 NativeLinked "/a" "default").
    - split; vm_compute; [discriminate|reflexivity].
    - vm_compute. discriminate.
    - vm_compute. discriminate.
    - split_and!; reflexivity. }
  eapply rtc_l.
  { apply step_take_id. split; vm_compute; [discriminate|reflexivity]. }
  eapply rtc_l; [|apply rtc_refl].
  apply (step_enqueue default_config handle1 "r1" "list_functions" Null 6 1%N true run2). set_solver.
Qed.

Lemma default_config_wf : config_wf default_config.
Proof. repeat split; vm_compute; congruence. Qed.

(** ** Reachable states *)

Section reachable.
Context `{HashOrder}.


(** C2: no interleaving exceeds a configured limit: the number of workers in all
    and per tenant, the requests in flight per worker and per tenant. *)
Theorem limits_never_exceeded cfg exe s (Hcfg : config_wf cfg) (Hreach : rtc (step cfg) (st_init exe) s) :
  (Z.of_nat (size (workers (st_inner s))) ≤ max_workers cfg)%Z ∧
  (∀ t, Z.of_nat (tenant_worker_count t (st_inner s)) ≤ max_workers_per_tenant cfg)%Z ∧
  (∀ h w, workers (st_inner s) !! h = Some w →
     Z.of_nat (size (w_pending w)) ≤ max_pending_per_worker cfg)%Z ∧
  (∀ t, Z.of_nat (tenant_pending t (st_inner s)) ≤ max_pending_per_tenant cfg)%Z.
Proof. destruct (inv_limits _ _ (inv_reachable cfg exe s Hcfg Hreach)). by split_and!. Qed.

(** Two live workers never serve the same database for the same tenant. *)
Theorem one_worker_per_database cfg exe s h1 h2 w1 w2 p
    (Hcfg : config_wf cfg) (Hreach : rtc (step cfg) (st_init exe) s)
    (H1 : workers (st_inner s) !! h1 = Some w1) (H2 : workers (st_inner s) !! h2 = Some w2)
    (Hp1 : w_open_path w1 = Some p) (Hp2 : w_open_path w2 = Some p)
    (Ht : w_tenant_id w1 = w_tenant_id w2) : h1 = h2.
Proof.
  pose proof (wf_paths _ (inv_wf _ _ (inv_reachable cfg exe s Hcfg Hreach)) (worker_key p (w_tenant_id w1))) as Hk.
  assert (Some h1 = Some h2); [|congruence].
  rewrite <-(proj2 (Hk h1)) by (exists w1; by split_and!). apply Hk. exists w2. by split_and!.
Qed.

(** A request id identifies one request in flight: no two workers wait for
    the same id, and an id that a caller has taken and not yet sent is pending
    nowhere, so a response is never delivered to the wrong caller. *)
Theorem request_ids_unique cfg exe s h1 h2 w1 w2 id
    (Hcfg : config_wf cfg) (Hreach : rtc (step cfg) (st_init exe) s)
    (H1 : workers (st_inner s) !! h1 = Some w1) (Hp1 : is_Some (w_pending w1 !! id)) :
  (id ∉ st_reserved s) ∧
  (workers (st_inner s) !! h2 = Some w2 → is_Some (w_pending w2 !! id) → h1 = h2).
Proof.
  pose proof (inv_ids _ _ (inv_reachable cfg exe s Hcfg Hreach)) as [Hp _ Hu]. split; [by eapply Hp|].
  intros H2 Hp2. by eapply Hu.
Qed.

(** The token that [issue_ref_for_handle] makes is never in use already, so
    two clients never share a reference. *)
Theorem issued_token_fresh cfg exe s now
    (Hcfg : config_wf cfg) (Hreach : rtc (step cfg) (st_init exe) s)
    (Hroom : counter_room (st_inner s)) :
  ∀ h, handle_for_token (issue_ref_for_handle now h (st_inner s)).2 (st_inner s) = None.
Proof.
  intros h. unfold handle_for_token, issue_ref_for_handle. simpl.
  apply cli_token_fresh; [apply (inv_tokens _ _ (inv_reachable cfg exe s Hcfg Hreach))|]. apply Hroom.
Qed.

(** ** Removing a worker *)

(** Each caller that waits gets one message, with the given text. *)
Definition all_told (msg : string) (w : WorkerProcess) (sends : list send) : Prop :=
  sends ≡ₚ ((λ kv, (kv.2, Err msg)) <$> map_to_list (w_pending w)).

(** C4: An orderly close, the end of the worker's output and a read error leave the
    same registry, and each answers every waiting caller exactly once. *)
Theorem removal_paths_agree h w err r (Hw : workers r !! h = Some w) :
  (close_worker_inner h r).1 = unregister h w r ∧
  (reader_eof h r).1 = unregister h w r ∧
  (reader_io_error h err r).1 = unregister h w r ∧
  all_told ("Worker " +:+ h +:+ " closed") w (close_worker_inner h r).2 ∧
  all_told ("Worker " +:+ h +:+ " exited unexpectedly") w (reader_eof h r).2 ∧
  all_told ("Worker " +:+ h +:+ " I/O error: " +:+ err) w (reader_io_error h err r).2.
Proof.
  split_and!.
  - unfold close_worker_inner. by rewrite Hw.
  - by apply reader_eof_unregister.
  - by apply reader_io_error_unregister.
  - unfold close_worker_inner. rewrite Hw. simpl. unfold all_told, fail_pending. by rewrite hash_iter_perm.
  - unfold reader_eof. rewrite Hw. simpl. unfold all_told, fail_pending. by rewrite hash_iter_perm.
  - unfold reader_io_error. rewrite Hw. simpl. unfold all_told, fail_pending. by rewrite hash_iter_perm.
Qed.

(** Removing a worker is final: no token, no path and no later message of its
    reader finds it again. *)
Theorem removed_worker_unreachable h w r
    (Hwf : registry_wf r) (Hw : workers r !! h = Some w) :
  let r' := unregister h w r in
  (∀ tok, handle_for_token tok r' ≠ Some h) ∧
  (∀ k, path_to_handle r' !! k ≠ Some h) ∧
  active r' ≠ Some h ∧
  (∀ resp, reader_response h resp r' = (r', [])) ∧
  (∀ err, (reader_eof h r').2 = [] ∧ (reader_io_error h err r').2 = []).
Proof.
  intros r'. pose proof (wf_unregister r h w Hwf Hw) as [Ha Hn Hp Ht Hr].
  assert (workers r' !! h = None) as Hgone by apply lookup_delete_eq.
  split_and!.
  - intros tok Htok. unfold handle_for_token in Htok. simpl in Htok.
    apply unregister_tokens in Htok as [_ ?]; done.
  - intros k (w' & Hw' & _)%Hp. fold r' in Hw'. congruence.
  - intros [w' Hw']%Ha. fold r' in Hw'. congruence.
  - intros resp. unfold reader_response. by rewrite Hgone.
  - intros err. unfold reader_eof, reader_io_error. by rewrite Hgone.
Qed.
End reachable.

(** ** Reference tokens *)

(** Releasing a registered token takes exactly one reference from its handle
    and reports how many are left; no other handle is affected, and releasing the
    token again reports that it is unknown and changes nothing. *)
Theorem release_takes_one_reference tok h r
    (Hwf : registry_wf r) (Htok : handle_for_token tok r = Some h) :
  let r' := (release_ref_token tok r).1 in
  (release_ref_token tok r).2 = Some (h, ref_count r' h) ∧
  ref_count r h = S (ref_count r' h) ∧
  (∀ h', h' ≠ h → ref_count r' h' = ref_count r h') ∧
  release_ref_token tok r' = (r', None).
Proof.
  unfold handle_for_token in Htok. pose proof Htok as (s & Hs & Hin)%(wf_tokens _ Hwf).
  unfold release_ref_token at 1 2. rewrite Htok, Hs. simpl. unfold ref_count; simpl.
  rewrite lookup_insert_eq, Hs. split_and!; [done| | |].
  - rewrite size_difference by set_solver. rewrite size_singleton.
    assert (size s ≠ 0) by (intros ?%size_empty_inv; set_solver). lia.
  - intros h' Hne. by rewrite lookup_insert_ne.
  - unfold release_ref_token. simpl. by rewrite lookup_delete_eq.
Qed.

(** The worker of a handle is only reported as unreferenced ([remaining] zero)
    when the released token was the handle's only one. *)
Theorem last_release_means_unreferenced tok h r r'
    (Hwf : registry_wf r) (Hrel : release_ref_token tok r = (r', Some (h, 0))) :
  ∀ t, handle_for_token t r = Some h ↔ t = tok.
Proof.
  unfold release_ref_token in Hrel. destruct (token_to_handle r !! tok) as [h'|] eqn:Htok; [|done].
  pose proof Htok as (s & Hs & Hin)%(wf_tokens _ Hwf). rewrite Hs in Hrel.
  injection Hrel as _ -> Hz. apply size_empty_inv in Hz. intros t. split.
  - intros (s' & Hs' & Ht)%(wf_tokens _ Hwf). rewrite Hs in Hs'. injection Hs' as <-.
    destruct (decide (t = tok)) as [|Hne]; [done|]. set_solver.
  - intros ->. done.
Qed.

(** The close token of a new worker is built from [req_counter] without
    advancing it, so a client that opens the same path at the same clock reading
    gets the very same token: two clients then share one reference, and the first
    release reports that nobody uses the worker. *)
Theorem spawn_token_can_collide :
  ∃ r h tok,
    spawn_commit default_config spawn_env1 NativeLinked "/a" "default" (inner_new "ida-cli") = (r, Ok (h, tok)) ∧
    (spawn_lookup (se_now_token spawn_env1) (se_pid spawn_env1) (worker_key "/a" "default") r).2 = Some (h, tok) ∧
    let r2 := (spawn_lookup (se_now_token spawn_env1) (se_pid spawn_env1) (worker_key "/a" "default") r).1 in
    (release_ref_token tok r2).2 = Some (h, 0).
Proof. do 3 eexists. split; [vm_compute; reflexivity|]. split; vm_compute; reflexivity. Qed.

(** [issue_ref_for_handle] does not check that the handle is still live: after
    the worker went away, the token it returns is registered for a dead handle, and
    routing a request with that handle fails. *)
Theorem issue_ref_can_dangle h now r (Hgone : workers r !! h = None) :
  let '(r', tok) := issue_ref_for_handle now h r in
  handle_for_token tok r' = Some h ∧ workers r' !! h = None ∧
  resolve_target (Some h) r' = Err (InvalidParams ("Unknown db_handle: " +:+ h)) ∧ ¬ refs_live r'.
Proof.
  simpl. unfold handle_for_token. simpl. rewrite lookup_insert_eq. split_and!; [done|done| |].
  - rewrite Hgone. by rewrite bool_decide_false by (intros [? ?]; done).
  - intros Hl. destruct (Hl h) as [w Hw]; simpl in *; [by rewrite lookup_insert_eq|congruence].
Qed.

(** ** Requests *)

(** Which worker a request goes to.  A handle is used as given, and refused
    when it is not live; without one the only live worker is used, none is an
    error, and two or more are refused as ambiguous. *)
Theorem resolve_target_spec handle r (Hwf : registry_wf r) :
  match resolve_target handle r with
  | Ok h => is_Some (workers r !! h) ∧ (handle = Some h ∨ handle = None ∧ dom (workers r) = {[h]})
  | Err e =>
      (∃ h, handle = Some h ∧ workers r !! h = None ∧ e = InvalidParams ("Unknown db_handle: " +:+ h)) ∨
      (handle = None ∧ workers r = ∅ ∧ e = NoDatabaseOpen) ∨
      (handle = None ∧ 1 < size (workers r) ∧ ∃ m, e = InvalidParams m)
  end.
Proof.
  unfold resolve_target. destruct handle as [h|].
  - case_bool_decide as Hl; [by auto|]. left. exists h. split_and!; try done. by apply eq_None_not_Some.
  - case_bool_decide as Hs; [right; right; eauto|].
    destruct (active r) as [h|] eqn:Ha; simpl; last first.
    { right; left. split_and!; try done. by apply wf_active_none. }
    pose proof (wf_active_live _ Hwf h Ha) as Hl. split; [done|]. right. split; [done|].
    symmetry. apply set_subseteq_size_eq.
    + apply singleton_subseteq_l. by apply elem_of_dom.
    + rewrite size_dom, size_singleton. lia.
Qed.

(** C5: An accepted request is written to the worker and waits under its id; the
    worker's response with that id goes to the waiting caller and frees the slot,
    and a second response with the id is dropped. *)
Theorem request_response_roundtrip cfg h id method params now tx r r' resp w
    (Hsent : enqueue_request cfg h id method params now tx true r = (r', Ok tt))
    (Hid : resp_id resp = id) (Hw : workers r !! h = Some w) (Hfresh : w_pending w !! id = None) :
  ∃ w1 r2, workers r' !! h = Some w1 ∧ w_pending w1 = <[id := tx]> (w_pending w) ∧
    w_stdin w1 = w_stdin w ++ [RpcRequest_new id method params] ∧
    reader_response h resp r' = (r2, [(tx, response_outcome resp)]) ∧
    w_pending <$> workers r2 !! h = Some (w_pending w) ∧
    reader_response h resp r2 = (r2, []).
Proof.
  unfold enqueue_request in Hsent. rewrite Hw in Hsent. do 2 (case_in Hsent; [done|]).
  injection Hsent as <-. subst id. do 2 eexists. simpl. rewrite lookup_insert_eq. split_and!; try done.
  - unfold reader_response. cbn [workers set_workers]. rewrite lookup_insert_eq. cbn [accept_request w_pending].
    by rewrite lookup_insert_eq.
  - cbn [workers set_workers]. rewrite lookup_insert_eq. cbn. by rewrite delete_insert_id.
  - unfold reader_response. cbn [workers set_workers]. rewrite lookup_insert_eq.
    cbn [set_pending w_pending]. by rewrite lookup_delete_eq.
Qed.

(** A request is refused exactly when its worker is gone, the tenant or the
    worker has no free slot, or the write fails; a refused request changes nothing. *)
Theorem request_admission cfg h id method params now tx write_ok r :
  let '(r', res) := enqueue_request cfg h id method params now tx write_ok r in
  match res with
  | Ok _ => ∃ w, workers r !! h = Some w ∧ write_ok = true ∧
      (Z.of_nat (size (w_pending w)) < max_pending_per_worker cfg)%Z ∧
      (Z.of_nat (tenant_pending (w_tenant_id w) r) < max_pending_per_tenant cfg)%Z
  | Err e => r' = r ∧
      (e = InvalidParams ("Worker " +:+ h +:+ " not found") ∧ workers r !! h = None ∨
       e = Busy ∧ (∃ w, workers r !! h = Some w ∧
         ((max_pending_per_worker cfg ≤ Z.of_nat (size (w_pending w)))%Z ∨
          (max_pending_per_tenant cfg ≤ Z.of_nat (tenant_pending (w_tenant_id w) r))%Z)) ∨
       e = WorkerClosed ∧ write_ok = false)
  end.
Proof.
  unfold enqueue_request. destruct (workers r !! h) as [w|] eqn:Hw; [|by auto].
  destruct (Z.leb_spec (max_pending_per_tenant cfg) (Z.of_nat (tenant_pending (w_tenant_id w) r))).
  { split; [done|]. right; left. split; [done|]. exists w. auto. }
  destruct (Z.leb_spec (max_pending_per_worker cfg) (Z.of_nat (size (w_pending w)))).
  { split; [done|]. right; left. split; [done|]. exists w. auto. }
  destruct write_ok; [exists w; auto|]. auto.
Qed.

(** The wait is bounded: between 0 and 600 seconds, or 3600 for an
    open, whatever the caller asks for. *)
Theorem request_timeout_bounded method params
    (Hpos : ∀ z, get "timeout_secs" params ≫= as_u64 = Some z → (0 ≤ z)%Z) :
  (0 ≤ request_timeout method params ≤ 3600)%Z ∧
  (method ≠ "open" → (request_timeout method params ≤ 600)%Z).
Proof.
  unfold request_timeout. destruct (get "timeout_secs" params ≫= as_u64) as [z|] eqn:E; simpl.
  - specialize (Hpos z eq_refl). split; [case_bool_decide; lia|]. intros Hne.
    rewrite bool_decide_false by done. lia.
  - split; [case_bool_decide; lia|]. intros Hne. rewrite bool_decide_false by done. lia.
Qed.

(** A request that times out leaves its entry behind: the worker has one slot
    less for as long as it does not answer. *)
Theorem timed_out_request_keeps_slot cfg h method params now tx r w
    (Hw : workers r !! h = Some w)
    (Hfresh : w_pending w !! req_name (req_counter r) = None)
    (Hroom : (Z.of_nat (size (w_pending w)) < max_pending_per_worker cfg)%Z)
    (Htenant : (Z.of_nat (tenant_pending (w_tenant_id w) r) < max_pending_per_tenant cfg)%Z) :
  let '(r', res) := route_request cfg (Some h) method params now tx true Elapsed r in
  res = Err (Timeout (request_timeout method params)) ∧
  ∃ w', workers r' !! h = Some w' ∧ size (w_pending w') = S (size (w_pending w)).
Proof.
  unfold route_request, resolve_target. rewrite bool_decide_true by eauto. simpl.
  unfold enqueue_request. simpl. rewrite Hw.
  rewrite (proj2 (Z.leb_gt _ _)) by done. rewrite (proj2 (Z.leb_gt _ _)) by done. simpl.
  split; [done|]. eexists. rewrite lookup_insert_eq. split; [done|]. simpl. by rewrite map_size_insert_None.
Qed.

(** ** The theorems on the concrete run *)

#[local] Instance run_order : HashOrder := canonical_order.

Definition worker1 : WorkerProcess :=
  {| w_backend := NativeLinked; w_tenant_id := "default"; w_pending := ∅;
     w_close_token := Some (spawn_token 1001 7 1); w_open_path := Some "/a";
     w_last_active := 5; w_stdin := [] |}.

Definition worker3 : WorkerProcess :=
  accept_request 6 (RpcRequest_new "r1" "list_functions" Null) 1%N worker1.

Lemma run1_wf : registry_wf run1.
Proof.
  apply (wf_install_worker (bump_counter (inner_new "ida-cli")) (worker_key "/a" "default"));
    [apply wf_bump_counter, wf_inner_new|reflexivity..].
Qed.


Lemma limits_never_exceeded_witness :
  (Z.of_nat (size (workers (st_inner st3))) ≤ max_workers default_config)%Z.
Proof. exact (proj1 (limits_never_exceeded default_config "ida-cli" st3 default_config_wf run_reachable)). Defined.

Lemma one_worker_per_database_witness : handle1 = handle1.
Proof.
  apply (one_worker_per_database default_config "ida-cli" st3 handle1 handle1 worker3 worker3 "/a"
           default_config_wf run_reachable); vm_compute; reflexivity.
Defined.

Lemma request_ids_unique_witness : "r1" ∉ st_reserved st3.
Proof.
  refine (proj1 (request_ids_unique default_config "ida-cli" st3 handle1 handle1 worker3 worker3 "r1"
           default_config_wf run_reachable _ _)); [vm_compute; reflexivity|].
  exists 1%N. vm_compute. reflexivity.
Defined.

Lemma issued_token_fresh_witness :
  handle_for_token (issue_ref_for_handle 2000 handle1 (st_inner st3)).2 (st_inner st3) = None.
Proof.
  apply (issued_token_fresh default_config "ida-cli" st3 2000 default_config_wf run_reachable).
  split; vm_compute; [discriminate|reflexivity].
Defined.

Lemma removal_paths_agree_witness :
  (close_worker_inner handle1 run3).1 = (reader_eof handle1 run3).1 ∧
  all_told ("Worker " +:+ handle1 +:+ " closed") worker3 [(1%N, Err ("Worker " +:+ handle1 +:+ " closed"))].
Proof.
  assert (workers run3 !! handle1 = Some worker3) as Hw by (vm_compute; reflexivity).
  destruct (removal_paths_agree handle1 worker3 "broken pipe" run3 Hw) as (Hc & He & _ & Hm & _).
  split; [by rewrite Hc, He|]. exact Hm.
Defined.

Lemma removed_worker_unreachable_witness :
  let r' := unregister handle1 worker1 run1 in
  handle_for_token (spawn_token 1001 7 1) run1 = Some handle1 ∧
  reader_response handle1 (RpcResponse_ok "r1" Null) r' = (r', []).
Proof.
  assert (workers run1 !! handle1 = Some worker1) as Hw by (vm_compute; reflexivity).
  split; [vm_compute; reflexivity|].
  exact (proj1 (proj2 (proj2 (proj2 (removed_worker_unreachable handle1 worker1 run1 run1_wf Hw)))) _).
Defined.

Lemma release_takes_one_reference_witness :
  (release_ref_token (spawn_token 1001 7 1) run1).2 = Some (handle1, 0).
Proof.
  assert (handle_for_token (spawn_token 1001 7 1) run1 = Some handle1) as Ht by (vm_compute; reflexivity).
  destruct (release_takes_one_reference (spawn_token 1001 7 1) handle1 run1 run1_wf Ht) as [Hr _].
  rewrite Hr. vm_compute. reflexivity.
Defined.

Lemma last_release_means_unreferenced_witness :
  ∀ t, handle_for_token t run1 = Some handle1 ↔ t = spawn_token 1001 7 1.
Proof.
  apply (last_release_means_unreferenced (spawn_token 1001 7 1) handle1 run1
           (release_ref_token (spawn_token 1001 7 1) run1).1 run1_wf).
  vm_compute. reflexivity.
Defined.

Lemma issue_ref_can_dangle_witness :
  handle_for_token (cli_token 9 0) (issue_ref_for_handle 9 "gone" (inner_new "ida-cli")).1 = Some "gone".
Proof. apply (issue_ref_can_dangle "gone" 9 (inner_new "ida-cli") eq_refl). Defined.

Lemma resolve_target_spec_witness :
  resolve_target None run1 = Ok handle1 ∧ (None = Some handle1 ∨ None = @None string ∧ dom (workers run1) = {[handle1]}).
Proof.
  assert (resolve_target None run1 = Ok handle1) as Hr by (vm_compute; reflexivity).
  split; [exact Hr|]. pose proof (resolve_target_spec None run1 run1_wf) as Hs. rewrite Hr in Hs. exact (proj2 Hs).
Defined.

Lemma request_response_roundtrip_witness :
  ∃ w1 r2, workers run3 !! handle1 = Some w1 ∧ w_pending w1 = {["r1" := 1%N]} ∧
    w_stdin w1 = [RpcRequest_new "r1" "list_functions" Null] ∧
    reader_response handle1 (RpcResponse_ok "r1" Null) run3 = (r2, [(1%N, Ok Null)]) ∧
    w_pending <$> workers r2 !! handle1 = Some ∅ ∧
    reader_response handle1 (RpcResponse_ok "r1" Null) r2 = (r2, []).
Proof.
  apply (request_response_roundtrip default_config handle1 "r1" "list_functions" Null 6 1%N run2 run3
           (RpcResponse_ok "r1" Null) worker1); vm_compute; reflexivity.
Defined.

Lemma request_timeout_bounded_witness :
  (request_timeout "list_functions" (obj [("timeout_secs", vz 100000)]) ≤ 600)%Z.
Proof.
  apply (request_timeout_bounded "list_functions" (obj [("timeout_secs", vz 100000)])); [|discriminate].
  intros z Hz. vm_compute in Hz. injection Hz as <-. discriminate.
Defined.

Lemma timed_out_request_keeps_slot_witness :
  ∃ w', workers (route_request default_config (Some handle1) "open" Null 6 1%N true Elapsed run1).1 !! handle1
        = Some w' ∧ size (w_pending w') = 1.
Proof.
  pose proof (timed_out_request_keeps_slot default_config handle1 "open" Null 6 1%N run1 worker1) as Ht.
  destruct (route_request _ _ _ _ _ _ _ _ _) as [r' res]. apply Ht; vm_compute; reflexivity.
Defined.
