(* ===== verification/Router.v ===== *)
(** * The router's operations (src/router/mod.rs, [RouterState])

    The async functions built from the critical sections: opening and closing
    workers, reference tokens, warm leases, prewarming.  A run is sequential, in
    an environment that answers requests, reads the clock and starts processes;
    the mutexes are explicit, because an operation that waits for a mutex its own
    task holds never returns. *)

From Stdlib Require Import Ascii.
From stdpp Require Import base gmap strings list numbers fin_maps.
From S2P Require Import Prelude RustStr Json ToolError Protocol Runtime RouterConfig Registry.

Open Scope ida_scope.

(** ** State and environment *)

Record WarmLease : Type := {
  wl_handle : string;
  wl_token : string;
  wl_path : string;
  wl_cache_path : option string;
  wl_tenant_id : string;
  wl_pinned_at : Z;
  wl_last_hit : Z
}.

(** [warm_pool] is keyed by the canonical path.  [rt_ticks] counts clock
    readings, [rt_outbox] what was sent on oneshot channels and [rt_recorded] the
    calls of [IdbStore::record]. *)
Record RouterState : Type := {
  rt_inner : RouterInner;
  rt_warm_pool : gmap string WarmLease;
  rt_cached_probe : option RuntimeProbeResult;
  rt_ticks : nat;
  rt_outbox : list send;
  rt_recorded : list (string * string)
}.

Definition set_inner (r : RouterInner) (s : RouterState) : RouterState :=
  {| rt_inner := r; rt_warm_pool := rt_warm_pool s; rt_cached_probe := rt_cached_probe s;
     rt_ticks := rt_ticks s; rt_outbox := rt_outbox s; rt_recorded := rt_recorded s |}.

Definition set_warm_pool (p : gmap string WarmLease) (s : RouterState) : RouterState :=
  {| rt_inner := rt_inner s; rt_warm_pool := p; rt_cached_probe := rt_cached_probe s;
     rt_ticks := rt_ticks s; rt_outbox := rt_outbox s; rt_recorded := rt_recorded s |}.

Definition set_cached_probe (p : RuntimeProbeResult) (s : RouterState) : RouterState :=
  {| rt_inner := rt_inner s; rt_warm_pool := rt_warm_pool s; rt_cached_probe := Some p;
     rt_ticks := rt_ticks s; rt_outbox := rt_outbox s; rt_recorded := rt_recorded s |}.

Definition tick (s : RouterState) : RouterState :=
  {| rt_inner := rt_inner s; rt_warm_pool := rt_warm_pool s; rt_cached_probe := rt_cached_probe s;
     rt_ticks := S (rt_ticks s); rt_outbox := rt_outbox s; rt_recorded := rt_recorded s |}.

Definition add_sends (l : list send) (s : RouterState) : RouterState :=
  {| rt_inner := rt_inner s; rt_warm_pool := rt_warm_pool s; rt_cached_probe := rt_cached_probe s;
     rt_ticks := rt_ticks s; rt_outbox := rt_outbox s ++ l; rt_recorded := rt_recorded s |}.

Definition add_record (path idb : string) (s : RouterState) : RouterState :=
  {| rt_inner := rt_inner s; rt_warm_pool := rt_warm_pool s; rt_cached_probe := rt_cached_probe s;
     rt_ticks := rt_ticks s; rt_outbox := rt_outbox s; rt_recorded := rt_recorded s ++ [(path, idb)] |}.

Definition router_new (exe : string) : RouterState :=
  {| rt_inner := inner_new exe; rt_warm_pool := ∅; rt_cached_probe := None; rt_ticks := 0;
     rt_outbox := []; rt_recorded := [] |}.

(** How a worker reacts to a request on its stdin. *)
Inductive worker_reply : Type :=
| Replies (res : result Value string)
| Exits
| Silent.

Record ResolvedPath : Type := { open_path : option string; idb_output_path : option string }.

(** The world outside the router: the clock, the processes and the file system. *)
Record Env : Type := {
  e_clock : nat → Z;
  e_pid : Z;
  e_home : option string;
  e_canonicalize : string → option string;
  e_exists : string → bool;
  e_probe : result RuntimeProbeResult string;
  e_child : result unit string;
  e_write_ok : string → bool;
  e_reply : string → string → Value → worker_reply;
  e_resolve : string → ResolvedPath;
  e_is_sbpf : string → bool;
  e_lookup_idb : string → option string
}.

(** ** Mutexes *)

Inductive lock : Type := LInner | LWarm | LProbe.

#[export] Instance lock_eq_dec : EqDecision lock.
Proof. solve_decision. Defined.

#[export] Instance lock_countable : Countable lock.
Proof.
  refine (inj_countable' (λ l, match l with LInner => Some true | LWarm => Some false | LProbe => None end)
                         (λ o, match o with Some true => LInner | Some false => LWarm | None => LProbe end) _).
  by intros [].
Defined.

Inductive outcome (A : Type) : Type :=
| Done (a : A) (s : RouterState)
| Deadlock (l : lock).
Arguments Done {A} _ _.
Arguments Deadlock {A} _.

(** A computation of one task: the mutexes it holds, then the state. *)
Definition M (A : Type) : Type := gset lock → RouterState → outcome A.

Definition ret {A} (a : A) : M A := λ _ s, Done a s.

Definition bind {A B} (m : M A) (f : A → M B) : M B := λ held s,
  match m held s with Done a s' => f a held s' | Deadlock l => Deadlock l end.

(** [x.lock().await] with the guard alive in [body]: tokio's mutex is not
    reentrant, so the await never completes when this task holds it already. *)
Definition with_lock {A} (l : lock) (body : M A) : M A := λ held s,
  if bool_decide (l ∈ held) then Deadlock l else body ({[l]} ∪ held) s.

Definition get_st : M RouterState := λ _ s, Done s s.
Definition put_st (s : RouterState) : M unit := λ _ _, Done tt s.
Definition modify (f : RouterState → RouterState) : M unit := λ _ s, Done tt (f s).

Notation "x <- m ;; k" := (bind m (λ x, k))
  (at level 100, m at next level, k at level 200, right associativity) : ida_scope.
Notation "m ;;; k" := (bind m (λ _, k))
  (at level 100, k at level 200, right associativity) : ida_scope.

(** A section of the registry that also sends messages. *)
Definition inner_section {A} (f : RouterInner → RouterInner * A) : M A := λ _ s,
  let '(r, a) := f (rt_inner s) in Done a (set_inner r s).

(** What the receiver of channel [tx] gets from these messages. *)
Definition received_on (tx : sender) (sends : list send) : received :=
  match list_find (λ m, m.1 = tx) sends with
  | Some (_, m) => Answered m.2
  | None => Elapsed
  end.

(** [PathBuf::from(h).join(p)] for a relative [p]. *)
Definition path_join (h p : string) : string := if ends_with "/" h then h +:+ p else h +:+ "/" +:+ p.

(** The body of [crate::expand_path], given the value of [HOME]. *)
Definition expand_home (home : option string) (path : string) : string :=
  match strip_prefix "~/" path with
  | Some stripped =>
      match home with
      | Some h => if starts_with "/" stripped then stripped else path_join h stripped
      | None => path
      end
  | None => path
  end.

Section operations.
Context `{HashOrder} (cfg : RouterConfig) (env : Env).

(** [SystemTime::now()] or [Instant::now()] *)
Definition read_clock : M Z := λ _ s, Done (e_clock env (rt_ticks s)) (tick s).

(** [crate::expand_path] (src/lib.rs) *)
Definition expand_path (path : string) : string := expand_home (e_home env) path.

(** [std::fs::canonicalize(&p).unwrap_or(p)] after the tilde expansion. *)
Definition canonical_path (path : string) : string :=
  let expanded := expand_path path in default expanded (e_canonicalize env expanded).

(** ** Closing *)

Definition close_worker (h : string) : M unit :=
  with_lock LInner (
    with_lock LWarm (modify (λ s,
      set_warm_pool (filter (λ kv, wl_handle kv.2 ≠ h) (rt_warm_pool s)) s)) ;;;
    sends <- inner_section (close_worker_inner h) ;;
    modify (add_sends sends)).

Definition release_token (tok : string) : M (option (string * nat)) :=
  with_lock LInner (inner_section (release_ref_token tok)).

Definition issue_ref (h : string) : M string :=
  with_lock LInner (now <- read_clock ;; inner_section (issue_ref_for_handle now h)).

(** [shutdown_all] *)
Fixpoint close_all (hs : list string) : M unit :=
  match hs with
  | [] => ret tt
  | h :: rest => close_worker h ;;; close_all rest
  end.

Definition shutdown_all : M unit :=
  hs <- with_lock LInner (s <- get_st ;; ret (all_handles (rt_inner s))) ;; close_all hs.

(** ** Spawning *)

Definition probe_worker_backend : M (result RuntimeProbeResult string) :=
  cached <- with_lock LProbe (s <- get_st ;; ret (rt_cached_probe s)) ;;
  match cached with
  | Some p => ret (Ok p)
  | None =>
      match e_probe env with
      | Ok p => with_lock LProbe (modify (set_cached_probe p)) ;;; ret (Ok p)
      | Err e => ret (Err e)
      end
  end.

(** The eviction loop of [spawn_worker].  Every turn removes a worker, so the
    number of workers is enough fuel. *)
Fixpoint evict_loop (fuel : nat) : M unit :=
  match fuel with
  | O => ret tt
  | S fuel =>
      candidate <- with_lock LInner (s <- get_st ;; ret (evict_candidate cfg (rt_inner s))) ;;
      match candidate with
      | Some h => close_worker h ;;; evict_loop fuel
      | None => ret tt
      end
  end.

Definition spawn_worker (path : string) (tenant : option string) :
    M (result (string * string) string) :=
  let canonical := canonical_path path in
  let tenant_id := normalize_tenant tenant in
  let key := worker_key canonical tenant_id in
  hit <- with_lock LInner (now <- read_clock ;; inner_section (spawn_lookup now (e_pid env) key)) ;;
  match hit with
  | Some ht => ret (Ok ht)
  | None =>
      probe <- probe_worker_backend ;;
      match probe with
      | Err e => ret (Err e)
      | Ok p =>
          match backend p with
          | None => ret (Err (default "runtime probe reported no usable worker backend" (reason p)))
          | Some b =>
              s <- get_st ;;
              evict_loop (size (workers (rt_inner s))) ;;;
              with_lock LInner (
                now1 <- read_clock ;; now2 <- read_clock ;; instant <- read_clock ;;
                let senv := {| se_now_handle := now1; se_now_token := now2; se_pid := e_pid env;
                               se_instant := instant; se_child := e_child env |} in
                inner_section (spawn_commit cfg senv b canonical tenant_id))
          end
      end
  end.

(** ** Requests *)

(** One request of the calling task, with the worker's reaction: a reply goes
    through the reader task, which removes the pending entry and sends; an exit
    drains and unregisters the worker; silence ends in the timeout, with the entry
    left.  The channel of the request is numbered by the clock readings so far. *)
Definition call_worker (handle : option string) (method : string) (params : Value) :
    M (result Value ToolError) :=
  target <- with_lock LInner (s <- get_st ;; ret (resolve_target handle (rt_inner s))) ;;
  match target with
  | Err e => ret (Err e)
  | Ok h =>
      id <- with_lock LInner (inner_section take_req_id) ;;
      s <- get_st ;;
      let tx := N.of_nat (rt_ticks s) in
      sent <- with_lock LInner (now <- read_clock ;; inner_section
                (enqueue_request cfg h id method params now tx (e_write_ok env h))) ;;
      match sent with
      | Err e => ret (Err e)
      | Ok _ =>
          rx <- match e_reply env h method params with
                | Replies res =>
                    let resp := match res with
                                | Ok v => RpcResponse_ok id v
                                | Err m => RpcResponse_err id (-32000) m
                                end in
                    sends <- with_lock LInner (inner_section (reader_response h resp)) ;;
                    modify (add_sends sends) ;;; ret (received_on tx sends)
                | Exits =>
                    sends <- with_lock LInner (inner_section (reader_eof h)) ;;
                    modify (add_sends sends) ;;; ret (received_on tx sends)
                | Silent => ret Elapsed
                end ;;
          ret (received_result (request_timeout method params) rx)
      end
  end.

(** [close_by_path] *)
Definition close_by_path (path : string) (tenant : option string) : M (result unit ToolError) :=
  let tenant_id := normalize_tenant tenant in
  s <- with_lock LInner get_st ;;
  match path_to_handle (rt_inner s) !! worker_key path tenant_id with
  | Some h =>
      call_worker (Some h) "close" (obj []) ;;;
      call_worker (Some h) "shutdown" (obj []) ;;;
      close_worker h ;;; ret (Ok tt)
  | None => ret (Err NoDatabaseOpen)
  end.

(** ** The entry point of an sBPF program *)

(** [addr_to_name.get(addr)] on the collected map: the last node wins. *)
Definition node_name (nodes : list Value) (addr : string) : option string :=
  foldl (λ acc n, match str_field "address" n, str_field "name" n with
                  | Some a, Some nm => if bool_decide (a = addr) then Some nm else acc
                  | _, _ => acc
                  end) None nodes.

Definition is_syscall (nodes : list Value) (addr : string) : bool :=
  match node_name nodes addr with
  | Some nm => starts_with "_sol_" nm || bool_decide (nm = "_abort")
  | None => false
  end.

(** The targets of the edges that leave [from], in order. *)
Definition edges_from (from : string) (edges : list Value) : list Value :=
  filter (λ e, str_field "from" e = Some from) edges.

Definition direct_callees (ep_hex : string) (nodes edges : list Value) : list string :=
  filter (λ a, is_syscall nodes a = false) (omap (str_field "to") (edges_from ep_hex edges)).

(** The callee that is renamed: of two direct callees, the one with more edges. *)
Definition pick_process_instruction (ep_hex : string) (cg : Value) : option string :=
  match get "edges" cg ≫= as_array with
  | None => None
  | Some edges =>
      let nodes := default [] (get "nodes" cg ≫= as_array) in
      match direct_callees ep_hex nodes edges with
      | [d0; d1] =>
          let c0 := length (edges_from d0 edges) in
          let c1 := length (edges_from d1 edges) in
          if bool_decide (c0 = c1) then None else Some (if bool_decide (c1 < c0) then d0 else d1)
      | _ => None
      end
  end.

Definition detect_and_rename_sbpf_entry (h : string) : M unit :=
  found <- call_worker (Some h) "get_function_by_name" (obj [("name", VString "entrypoint")]) ;;
  match (ok found ≫= str_field "address") ≫= (λ s, from_str_radix u64_max 16 (trim_start_matches "0x" s)) with
  | None => ret tt
  | Some ep =>
      let ep_hex := "0x" +:+ fmt_hex ep in
      cg <- call_worker (Some h) "build_callgraph"
              (obj [("roots", VString ep_hex); ("max_depth", vz 2); ("max_nodes", vz 256)]) ;;
      match ok cg ≫= pick_process_instruction ep_hex with
      | Some pi_hex =>
          call_worker (Some h) "rename_symbol"
            (obj [("address", VString pi_hex); ("new_name", VString "process_instruction")]) ;;; ret tt
      | None => ret tt
      end
  end.

(** ** Opening *)

Definition ensure_worker_with_ref_idb
    (path : string) (explicit_idb_output tenant : option string) :
    M (result (string * string) ToolError) :=
  let tenant_id := normalize_tenant tenant in
  let resolved := e_resolve env path in
  let open_path := default path (open_path resolved) in
  let canonical := canonical_path path in
  let canonical_open := canonical_path open_path in
  let key := worker_key canonical tenant_id in
  found <- with_lock LInner (now <- read_clock ;; inner_section (ensure_lookup now key)) ;;
  opened <- match found with
            | Some h => ret (Ok h)
            | None =>
                spawned <- spawn_worker path (Some tenant_id) ;;
                match spawned with
                | Err e => ret (Err (IdaError ("spawn_worker failed: " +:+ e)))
                | Ok (h, initial_token) =>
                    release_token initial_token ;;;
                    let idb_output :=
                      match explicit_idb_output with Some o => Some o | None => idb_output_path resolved end in
                    let params := obj [("path", VString canonical_open);
                                       ("idb_output_path", opt_value (VString <$> idb_output));
                                       ("auto_analyse", Bool true);
                                       ("timeout_secs", vz 3600)] in
                    res <- call_worker (Some h) "open" params ;;
                    match res with
                    | Ok _ =>
                        (match idb_output with
                         | Some o => modify (add_record canonical o)
                         | None => ret tt
                         end) ;;;
                        (if e_is_sbpf env canonical then detect_and_rename_sbpf_entry h else ret tt) ;;;
                        ret (Ok h)
                    | Err e => close_worker h ;;; ret (Err e)
                    end
                end
            end ;;
  match opened with
  | Ok h => tok <- issue_ref h ;; ret (Ok (h, tok))
  | Err e => ret (Err e)
  end.

(** ** Warm leases *)

(** [release_warm_lease]: the guard of the [if let] scrutinee lives to the end of
    its body, so the pool stays locked there. *)
Definition release_warm_lease (path : string) : M (result unit ToolError) :=
  with_lock LWarm (
    s <- get_st ;;
    match rt_warm_pool s !! path with
    | Some lease =>
        modify (λ s, set_warm_pool (delete path (rt_warm_pool s)) s) ;;;
        released <- release_token (wl_token lease) ;;
        match released with
        | Some (h, remaining) =>
            (if bool_decide (remaining = 0) then close_worker h else ret tt) ;;; ret (Ok tt)
        | None => ret (Ok tt)
        end
    | None => ret (Ok tt)
    end).

(** The loop of [install_warm_lease]: every turn removes a lease, so the size of
    the pool is enough fuel. *)
Fixpoint make_warm_room (fuel : nat) : M (result unit ToolError) :=
  match fuel with
  | O => ret (Ok tt)
  | S fuel =>
      s <- with_lock LWarm get_st ;;
      if (max_warm_workers cfg <=? Z.of_nat (size (rt_warm_pool s)))%Z then
        match fst <$> min_by_key (λ kv, wl_last_hit kv.2) (hash_iter (rt_warm_pool s)) with
        | Some path =>
            res <- release_warm_lease path ;;
            match res with Ok _ => make_warm_room fuel | Err e => ret (Err e) end
        | None => ret (Ok tt)
        end
      else ret (Ok tt)
  end.

Definition install_warm_lease (canonical handle token tenant_id : string)
    (cache_path : option string) : M (result unit ToolError) :=
  s <- get_st ;;
  room <- make_warm_room (S (size (rt_warm_pool s))) ;;
  match room with
  | Err e => ret (Err e)
  | Ok _ =>
      pinned <- read_clock ;; hit <- read_clock ;;
      with_lock LWarm (modify (λ s,
        set_warm_pool (<[canonical :=
          {| wl_handle := handle; wl_token := token; wl_path := canonical;
             wl_cache_path := cache_path; wl_tenant_id := tenant_id;
             wl_pinned_at := pinned; wl_last_hit := hit |}]> (rt_warm_pool s)) s)) ;;;
      ret (Ok tt)
  end.

(** [prewarm_path_with_options] *)
Definition prewarm_path_with_options
    (path : string) (keep_warm : bool) (tenant : string) : M (result Value ToolError) :=
  let expanded := expand_path path in
  if negb (e_exists env expanded) then
    ret (Err (InvalidPath ("File not found: " +:+ expanded)))
  else
    let canonical := default expanded (e_canonicalize env expanded) in
    let tenant_id := normalize_tenant (Some tenant) in
    s <- with_lock LInner get_st ;;
    let already_open := bool_decide (is_Some (path_to_handle (rt_inner s) !! worker_key canonical tenant_id)) in
    let cached_before := e_lookup_idb env canonical in
    ensured <- ensure_worker_with_ref_idb path None (Some tenant_id) ;;
    match ensured with
    | Err e => ret (Err e)
    | Ok (h, tok) =>
        s <- with_lock LInner get_st ;;
        let backend_name := match workers (rt_inner s) !! h with
                            | Some w => as_cli_arg (w_backend w)
                            | None => "unknown"
                            end in
        info <- call_worker (Some h) "get_database_info" (obj []) ;;
        let cached_after := e_lookup_idb env canonical in
        fin <- (if keep_warm then
                  res <- install_warm_lease canonical h tok tenant_id cached_after ;;
                  match res with Ok _ => ret (Ok (true, false)) | Err e => ret (Err e) end
                else if negb already_open then
                  released <- release_token tok ;;
                  match released with
                  | Some (_, O) =>
                      closed <- close_by_path canonical (Some tenant_id) ;;
                      match closed with Ok _ => ret (Ok (false, true)) | Err e => ret (Err e) end
                  | _ => ret (Ok (false, false))
                  end
                else release_token tok ;;; ret (Ok (false, false))) ;;
        match fin with
        | Err e => ret (Err e)
        | Ok (kept_warm, closed_worker) =>
            ret (Ok (obj [("path", VString canonical); ("backend", VString backend_name);
                          ("cached_before", Bool (bool_decide (is_Some cached_before)));
                          ("cached_after", Bool (bool_decide (is_Some cached_after)));
                          ("cache_path", opt_value (VString <$> cached_after));
                          ("database_info", opt_value (ok info));
                          ("already_open", Bool already_open);
                          ("kept_warm", Bool kept_warm);
                          ("worker_closed_after_prewarm", Bool closed_worker)]))
        end
    end.

(** ** The watchdog's garbage collection *)

Definition expired_workers (idle_timeout now : Z) (r : RouterInner) : list string :=
  (filter (λ hw, ref_count r hw.1 = 0 ∧ w_pending hw.2 = ∅ ∧
                 (idle_timeout < now - w_last_active hw.2)%Z)
          (hash_iter (workers r))).*1.

Definition watchdog_gc (idle_timeout : Z) : M unit :=
  expired <- with_lock LInner (now <- read_clock ;; s <- get_st ;; ret (expired_workers idle_timeout now (rt_inner s))) ;;
  close_all expired.
End operations.
