(* ===== verification/RouterLogic.v ===== *)
(** * A program logic for the router's tasks

    [wp held m Q s]: the task, holding the mutexes [held], runs [m] from [s] to the
    end (it is never stuck on a mutex of its own) and ends in a state and value
    that satisfy [Q].  One rule per construct, and the relation [serves_le] that
    the operations which start no worker keep. *)

From Stdlib Require Import Ascii.
From stdpp Require Import base gmap strings list numbers fin_maps fin_map_dom.
From S2P Require Import Prelude RustStr Json ToolError Protocol Runtime RouterConfig Registry.
From S2P Require Import RegistryInv Router.

Open Scope ida_scope.

Definition wp {A} (held : gset lock) (m : M A) (Q : A → RouterState → Prop) (s : RouterState) : Prop :=
  ∃ a s', m held s = Done a s' ∧ Q a s'.

Section rules.
Context {A : Type} (held : gset lock).
Implicit Types Q : A → RouterState → Prop.

Lemma wp_mono (m : M A) Q Q' s :
  wp held m Q s → (∀ a s', Q a s' → Q' a s') → wp held m Q' s.
Proof. intros (a & s' & ? & ?) HQ. exists a, s'. auto. Qed.

Lemma wp_ret (a : A) Q s : Q a s → wp held (ret a) Q s.
Proof. intros ?. by exists a, s. Qed.

Lemma wp_bind {B} (m : M B) (f : B → M A) Q s :
  wp held m (λ b s', wp held (f b) Q s') s → wp held (bind m f) Q s.
Proof.
  intros (b & s1 & Hm & a & s2 & Hf & HQ). exists a, s2. unfold bind. by rewrite Hm.
Qed.

Lemma wp_lock l (m : M A) Q s : l ∉ held → wp ({[l]} ∪ held) m Q s → wp held (with_lock l m) Q s.
Proof.
  intros Hl (a & s' & Hm & HQ). exists a, s'. unfold with_lock. by rewrite bool_decide_false.
Qed.

Lemma wp_inner (f : RouterInner → RouterInner * A) Q s :
  Q (f (rt_inner s)).2 (set_inner (f (rt_inner s)).1 s) → wp held (inner_section f) Q s.
Proof.
  intros HQ. exists (f (rt_inner s)).2, (set_inner (f (rt_inner s)).1 s). split; [|done].
  unfold inner_section. by destruct (f (rt_inner s)).
Qed.
End rules.

Lemma wp_get held (Q : RouterState → RouterState → Prop) s : Q s s → wp held get_st Q s.
Proof. intros ?. by exists s, s. Qed.

Lemma wp_modify held f (Q : unit → RouterState → Prop) s : Q tt (f s) → wp held (modify f) Q s.
Proof. intros ?. by exists tt, (f s). Qed.

Lemma wp_clock env held (Q : Z → RouterState → Prop) s :
  Q (e_clock env (rt_ticks s)) (tick s) → wp held (read_clock env) Q s.
Proof. intros ?. by exists (e_clock env (rt_ticks s)), (tick s). Qed.

(** Symbolic execution up to the next call or case distinction. *)
Ltac wp_step :=
  lazymatch goal with
  | |- wp _ (ret _) _ _ => apply wp_ret
  | |- wp _ (bind _ _) _ _ => apply wp_bind
  | |- wp _ (with_lock _ _) _ _ => apply wp_lock; [set_solver|]
  | |- wp _ (inner_section _) _ _ => apply wp_inner
  | |- wp _ get_st _ _ => apply wp_get
  | |- wp _ (modify _) _ _ => apply wp_modify
  | |- wp _ (read_clock _) _ _ => apply wp_clock
  end.
Ltac wp_run := repeat (wp_step; cbv beta zeta).

(** Use a lemma about the call at the head of the program. *)
Tactic Notation "wp_apply" uconstr(lem) := eapply wp_mono; [apply lem|cbv beta].

(** ** Operations that start no worker *)

Definition same_service (w w' : WorkerProcess) : Prop :=
  w_open_path w' = w_open_path w ∧ w_tenant_id w' = w_tenant_id w.

(** Keys and workers may go, a worker with its key; what stays serves the same. *)
Record serves_le (r r' : RouterInner) : Prop := {
  sl_paths k h : path_to_handle r' !! k = Some h → path_to_handle r !! k = Some h;
  sl_workers h w' : workers r' !! h = Some w' → ∃ w, workers r !! h = Some w ∧ same_service w w';
  sl_gone h w p : workers r !! h = Some w → workers r' !! h = None → w_open_path w = Some p →
    path_to_handle r' !! worker_key p (w_tenant_id w) = None
}.

#[export] Instance serves_le_refl : Reflexive serves_le.
Proof. intros r. split; [done| |congruence]. intros h w Hw. exists w. by split. Qed.

#[export] Instance serves_le_trans : Transitive serves_le.
Proof.
  intros r1 r2 r3 [P1 W1 G1] [P2 W2 G2]. split; [eauto| |].
  - intros h w3 Hw3. destruct (W2 h w3 Hw3) as (w2 & Hw2 & [??]).
    destruct (W1 h w2 Hw2) as (w1 & ? & [??]). exists w1. split; [done|]. split; congruence.
  - intros h w p Hw Hg Hp. destruct (workers r2 !! h) as [w2|] eqn:Hw2.
    + destruct (W1 h w2 Hw2) as (w1 & Hw1 & [Ho Ht]). rewrite Hw in Hw1. injection Hw1 as <-.
      rewrite <-Ht. apply (G2 h w2); [done|done|congruence].
    + apply eq_None_not_Some. intros [h' Hh']. apply P2 in Hh'.
      rewrite (G1 h w p) in Hh'; done.
Qed.

(** Only the worker table changed, to workers that serve the same. *)
Lemma serves_le_update r r' h w w' :
  path_to_handle r' = path_to_handle r → workers r' = <[h:=w']> (workers r) →
  workers r !! h = Some w → same_service w w' → serves_le r r'.
Proof.
  intros Hp Hw' Hw Hs. split; rewrite ?Hp, ?Hw'.
  - done.
  - intros h0 w0 [[<- <-]|[? ?]]%lookup_insert_Some; [eauto|]. exists w0. by split.
  - intros h0 w0 p ? [? ?]%lookup_insert_None. congruence.
Qed.

Lemma serves_le_same r r' : path_to_handle r' = path_to_handle r → workers r' = workers r → serves_le r r'.
Proof.
  intros Hp Hw. split; rewrite ?Hp, ?Hw; [done| |congruence]. intros h w ?. exists w. by split.
Qed.

Section with_order.
Context `{HashOrder}.

Lemma serves_le_unregister r h w : workers r !! h = Some w → serves_le r (unregister h w r).
Proof.
  intros Hw. split; simpl.
  - intros k h'. destruct (w_open_path w); [|done]. by intros [??]%lookup_delete_Some.
  - intros h' w' [? ?]%lookup_delete_Some. exists w'. by split.
  - intros h' w' p Hw' [<-|Hn]%lookup_delete_None Hp; [|congruence].
    rewrite Hw in Hw'. injection Hw' as ->. rewrite Hp. apply lookup_delete_eq.
Qed.

Lemma serves_le_close h r : serves_le r (close_worker_inner h r).1.
Proof.
  unfold close_worker_inner. destruct (workers r !! h) as [w|] eqn:E; simpl; [|done].
  by apply serves_le_unregister.
Qed.

Lemma serves_le_eof h r : serves_le r (reader_eof h r).1.
Proof.
  unfold reader_eof. destruct (workers r !! h) as [w|] eqn:E; simpl; [|done].
  etrans; [|apply serves_le_unregister; apply lookup_insert_eq].
  by apply (serves_le_update r _ h w (set_pending ∅ w)).
Qed.
End with_order.

Lemma serves_le_response h resp r : serves_le r (reader_response h resp r).1.
Proof.
  unfold reader_response. destruct (workers r !! h) as [w|] eqn:E; [|done].
  destruct (w_pending w !! resp_id resp); [|done].
  by apply (serves_le_update r _ h w (set_pending (delete (resp_id resp) (w_pending w)) w)).
Qed.

Lemma serves_le_enqueue cfg h id method params now tx ok r :
  serves_le r (enqueue_request cfg h id method params now tx ok r).1.
Proof.
  unfold enqueue_request. destruct (workers r !! h) as [w|] eqn:E; [|done].
  repeat case_match; try done. by eapply (serves_le_update r _ h w).
Qed.

Lemma serves_le_release tok r : serves_le r (release_ref_token tok r).1.
Proof. unfold release_ref_token. destruct (_ !! tok); [|done]. by apply serves_le_same. Qed.

Lemma serves_le_add_ref h tok r : serves_le r (add_ref h tok (bump_counter r)).
Proof. by apply serves_le_same. Qed.

Lemma serves_le_take_id r : serves_le r (take_req_id r).1.
Proof. by apply serves_le_same. Qed.

#[export] Hint Resolve serves_le_close serves_le_eof serves_le_response serves_le_enqueue
  serves_le_release serves_le_add_ref serves_le_take_id : ida.
