(* ===== verification/RouterOps.v ===== *)
(** * Correctness of the router's operations

    What the operations of [Router] do to the registry, run by one task: closing,
    shutting down, evicting, collecting idle workers, opening, and the warm leases. *)

From Stdlib Require Import Ascii.
From stdpp Require Import base gmap strings list numbers fin_maps fin_map_dom.
From S2P Require Import Prelude RustStr Json ToolError Protocol Runtime RouterConfig Registry.
From S2P Require Import RegistryInv RouterSteps RouterTheorems Router.

Open Scope ida_scope.

(** Run the monad's plumbing on a task that holds no mutex. *)
Ltac run_m :=
  repeat first
    [ rewrite bool_decide_false by set_solver
    | progress cbv beta iota delta [bind ret with_lock inner_section modify get_st put_st read_clock] ].

Section ops.
Context `{HashOrder} (cfg : RouterConfig) (env : Env).

(** ** Closing *)

(** The state after [close_worker]. *)
Definition closed (h : string) (s : RouterState) : RouterState :=
  let rs := close_worker_inner h (rt_inner s) in
  add_sends rs.2 (set_inner rs.1
    (set_warm_pool (filter (λ kv, wl_handle kv.2 ≠ h) (rt_warm_pool s)) s)).

Lemma close_worker_run h held s :
  LInner ∉ held → LWarm ∉ held → close_worker h held s = Done tt (closed h s).
Proof.
  intros Hi Hw. unfold close_worker. run_m. unfold closed. simpl.
  by destruct (close_worker_inner h (rt_inner s)).
Qed.

Lemma closed_workers h s : workers (rt_inner (closed h s)) = delete h (workers (rt_inner s)).
Proof.
  unfold closed, close_worker_inner. destruct (workers (rt_inner s) !! h) as [w|] eqn:E; simpl; [done|].
  by rewrite delete_id.
Qed.

Lemma closed_wf h s : registry_wf (rt_inner s) → registry_wf (rt_inner (closed h s)).
Proof.
  intros Hwf. unfold closed, close_worker_inner.
  destruct (workers (rt_inner s) !! h) as [w|] eqn:E; simpl; auto with ida.
Qed.

Lemma closed_refs h s h' : h' ≠ h → ref_tokens (rt_inner (closed h s)) !! h' = ref_tokens (rt_inner s) !! h'.
Proof.
  intros Hne. unfold closed, close_worker_inner.
  destruct (workers (rt_inner s) !! h) as [w|]; simpl; [by rewrite lookup_delete_ne|done].
Qed.

Lemma closed_active h s : active (rt_inner s) ≠ Some h → active (rt_inner (closed h s)) = active (rt_inner s).
Proof.
  intros Hne. unfold closed, close_worker_inner.
  destruct (workers (rt_inner s) !! h) as [w|]; simpl; [by rewrite bool_decide_false|done].
Qed.

Lemma closed_paths h s k h' :
  path_to_handle (rt_inner (closed h s)) !! k = Some h' → path_to_handle (rt_inner s) !! k = Some h'.
Proof.
  unfold closed, close_worker_inner. destruct (workers (rt_inner s) !! h) as [w|]; simpl; [|done].
  destruct (w_open_path w); [|done]. by intros [??]%lookup_delete_Some.
Qed.

(** Closing a list of handles. *)
Definition closed_all (hs : list string) (s : RouterState) : RouterState := foldl (λ s h, closed h s) s hs.

Lemma close_all_run hs s : close_all hs ∅ s = Done tt (closed_all hs s).
Proof.
  revert s; induction hs as [|h hs IH]; intros s; simpl; [done|].
  unfold bind. rewrite close_worker_run by set_solver. apply IH.
Qed.

Lemma closed_all_workers hs s h :
  workers (rt_inner (closed_all hs s)) !! h = if bool_decide (h ∈ hs) then None else workers (rt_inner s) !! h.
Proof.
  revert s; induction hs as [|h' hs IH]; intros s; simpl; [done|].
  rewrite IH, closed_workers. destruct (decide (h = h')) as [->|Hne].
  - rewrite lookup_delete_eq, (bool_decide_true (h' ∈ h' :: hs)) by set_solver. by case_bool_decide.
  - rewrite lookup_delete_ne by done. by rewrite (bool_decide_ext (h ∈ hs) (h ∈ h' :: hs)) by set_solver.
Qed.

Lemma closed_all_wf hs s : registry_wf (rt_inner s) → registry_wf (rt_inner (closed_all hs s)).
Proof. revert s; induction hs as [|h hs IH]; intros s Hwf; simpl; [done|]. by apply IH, closed_wf. Qed.

Lemma closed_warm h s p l : rt_warm_pool (closed h s) !! p = Some l ↔ rt_warm_pool s !! p = Some l ∧ wl_handle l ≠ h.
Proof.
  unfold closed. simpl. rewrite map_lookup_filter_Some. done.
Qed.

(** Messages are only appended. *)
Lemma closed_outbox h s : rt_outbox (closed h s) = rt_outbox s ++ (close_worker_inner h (rt_inner s)).2.
Proof. done. Qed.

Lemma closed_all_outbox hs s h w id tx :
  h ∈ hs → workers (rt_inner s) !! h = Some w → w_pending w !! id = Some tx →
  (tx, Err ("Worker " +:+ h +:+ " closed")) ∈ rt_outbox (closed_all hs s).
Proof.
  assert (Hkeep : ∀ hs s m, m ∈ rt_outbox s → m ∈ rt_outbox (closed_all hs s)).
  { clear. induction hs as [|h hs IH]; intros s m Hm; simpl; [done|].
    apply IH. rewrite closed_outbox. set_solver. }
  revert s; induction hs as [|h' hs IH]; intros s Hin Hw Hp; [set_solver|]. simpl.
  destruct (decide (h = h')) as [<-|Hne].
  - apply Hkeep. rewrite closed_outbox. unfold close_worker_inner. rewrite Hw. simpl.
    apply elem_of_app. right. apply list_elem_of_fmap. exists (id, tx).
    split; [done|]. by apply elem_of_hash_iter.
  - apply IH; [set_solver| |done]. by rewrite closed_workers, lookup_delete_ne.
Qed.

Lemma closed_all_refs_live hs s : refs_live (rt_inner s) → refs_live (rt_inner (closed_all hs s)).
Proof.
  revert s; induction hs as [|h' hs IH]; intros s Hl; simpl; [done|]. apply IH. intros h Href.
  destruct (decide (h = h')) as [->|Hne].
  - unfold closed, close_worker_inner in *. destruct (workers (rt_inner s) !! h') eqn:E; simpl in *; [|auto].
    rewrite lookup_delete_eq in Href. by destruct Href.
  - rewrite closed_refs in Href by done. rewrite closed_workers, lookup_delete_ne by done. auto.
Qed.

(** The leases left are those of other handles. *)
Lemma closed_all_warm hs s p l :
  rt_warm_pool (closed_all hs s) !! p = Some l ↔ rt_warm_pool s !! p = Some l ∧ wl_handle l ∉ hs.
Proof.
  revert s; induction hs as [|h hs IH]; intros s; simpl; [set_solver|].
  rewrite IH, closed_warm. set_solver.
Qed.

(** A consistent registry without workers has no active handle and no path. *)
Lemma wf_no_workers r :
  registry_wf r → workers r = ∅ →
  active r = None ∧ path_to_handle r = ∅ ∧ (refs_live r → token_to_handle r = ∅).
Proof.
  intros [Ha Hn Hp Ht Hr] Hnil. split_and!.
  - apply eq_None_not_Some. intros [h [w Hw]%Ha]. by rewrite Hnil, lookup_empty in Hw.
  - apply map_empty. intros k. apply eq_None_not_Some. intros [h (w & Hw & _)%Hp].
    by rewrite Hnil, lookup_empty in Hw.
  - intros Hlive. apply map_empty. intros t. apply eq_None_not_Some. intros [h (st & Hs & _)%Ht].
    destruct (Hlive h) as [w Hw]; [by rewrite Hs|]. by rewrite Hnil, lookup_empty in Hw.
Qed.

Lemma all_handles_elem r h : is_Some (workers r !! h) → h ∈ all_handles r.
Proof.
  intros [w Hw]. apply list_elem_of_fmap. exists (h, w). split; [done|]. by apply elem_of_hash_iter.
Qed.


(** ** Eviction *)

Lemma evict_candidate_spec r h :
  evict_candidate cfg r = Some h →
  ∃ w, workers r !! h = Some w ∧ evictable r (h, w) = true ∧
    (∀ h' w', workers r !! h' = Some w' → evictable r (h', w') = true →
       (w_last_active w ≤ w_last_active w')%Z).
Proof.
  unfold evict_candidate. destruct (_ <? _)%Z; [done|].
  intros ([h0 w] & Hmin & ->)%fmap_Some. pose proof (min_by_key_elem _ _ _ Hmin) as Hin.
  apply list_elem_of_filter in Hin as [Hev Hin]. apply elem_of_hash_iter in Hin.
  exists w. split_and!; [done|done|]. intros h' w' Hw' Hev'.
  apply (min_by_key_min (λ hw, w_last_active hw.2) _ (h0, w) (h', w')) in Hmin; [done|].
  apply list_elem_of_filter. split; [done|]. by apply elem_of_hash_iter.
Qed.

(** Evictability does not depend on the workers that were evicted. *)
Lemma evictable_closed h w h' w' s :
  evictable (rt_inner s) (h, w) = true → h' ≠ h →
  evictable (rt_inner (closed h s)) (h', w') = evictable (rt_inner s) (h', w').
Proof.
  intros Hev Hne. unfold evictable, ref_count in *. cbn [fst snd] in *.
  rewrite closed_refs by done. rewrite closed_active; [done|]. intros Heq.
  rewrite (bool_decide_false (active _ ≠ _)) in Hev by naive_solver. by rewrite andb_false_r in Hev.
Qed.

(** A worker that nobody needs: no reference, no request in flight, not active. *)
Definition idle_worker (r : RouterInner) (h : string) (w : WorkerProcess) : Prop :=
  ref_count r h = 0 ∧ w_pending w = ∅ ∧ active r ≠ Some h.

Lemma evictable_idle r h w : evictable r (h, w) = true ↔ idle_worker r h w.
Proof. unfold evictable, idle_worker. simpl. rewrite !andb_true_iff, !bool_decide_eq_true. tauto. Qed.

(** What eviction keeps of a registry: nothing is added, a worker that is in use
    stays, and the evicted ones are the least recently active of the idle ones. *)
Record evicted_from (r r' : RouterInner) : Prop := {
  ev_sub : workers r' ⊆ workers r;
  ev_in_use h w : workers r !! h = Some w → workers r' !! h = None → idle_worker r h w;
  ev_oldest h w h' w' : workers r !! h = Some w → workers r' !! h = None →
    workers r' !! h' = Some w' → idle_worker r h' w' → (w_last_active w ≤ w_last_active w')%Z;
  ev_active : active r' = active r
}.

Lemma evicted_from_refl r : evicted_from r r.
Proof. split; [done|congruence|congruence|done]. Qed.

Lemma evicted_from_step s h r' :
  evict_candidate cfg (rt_inner s) = Some h →
  evicted_from (rt_inner (closed h s)) r' → evicted_from (rt_inner s) r'.
Proof.
  intros (w & Hw & Hev & Hmin)%evict_candidate_spec [Hsub Huse Hold Hact].
  rewrite closed_workers in *. split.
  - etrans; [exact Hsub|]. apply delete_subseteq.
  - intros h' w' Hw' Hgone. apply evictable_idle. destruct (decide (h' = h)) as [->|Hne]; [by simplify_eq|].
    rewrite <-(evictable_closed h w) by done. apply evictable_idle, Huse; [by rewrite lookup_delete_ne|done].
  - intros h1 w1 h2 w2 Hw1 Hgone Hw2 Hev2%evictable_idle.
    assert (workers (rt_inner s) !! h2 = Some w2 ∧ h2 ≠ h) as [Hw2' Hne2].
    { eapply lookup_weaken in Hw2; [|exact Hsub]. by apply lookup_delete_Some in Hw2 as [??]. }
    destruct (decide (h1 = h)) as [->|Hne1].
    + rewrite Hw in Hw1. injection Hw1 as <-. eauto.
    + eapply (Hold h1 w1 h2 w2); [by rewrite lookup_delete_ne|done|done|].
      apply evictable_idle. by erewrite evictable_closed.
  - rewrite Hact. apply closed_active. by apply evictable_idle in Hev as (_ & _ & ?).
Qed.

Lemma evict_candidate_None r :
  evict_candidate cfg r = None →
  (Z.of_nat (size (workers r)) < max_workers cfg)%Z ∨ ∀ h w, workers r !! h = Some w → ¬ idle_worker r h w.
Proof.
  unfold evict_candidate. destruct (Z.ltb_spec (Z.of_nat (size (workers r))) (max_workers cfg)); [by left|].
  intros Hn%fmap_None%min_by_key_None. right. intros h w Hw Hi%evictable_idle.
  apply (not_elem_of_nil (h, w)). rewrite <-Hn. apply list_elem_of_filter. split; [done|]. by apply elem_of_hash_iter.
Qed.

(** C30: The eviction loop of [spawn_worker] always finishes, within as many turns
    as there are workers, with room for a worker or no idle worker left; it removes
    only workers with no reference, no request in flight and not active, the least
    recently active first, and never the active one. *)
Theorem evict_loop_correct s :
  ∃ s', evict_loop cfg (size (workers (rt_inner s))) ∅ s = Done tt s' ∧
    ((Z.of_nat (size (workers (rt_inner s'))) < max_workers cfg)%Z ∨
     ∀ h w, workers (rt_inner s') !! h = Some w → ¬ idle_worker (rt_inner s') h w) ∧
    evicted_from (rt_inner s) (rt_inner s').
Proof.
  remember (size (workers (rt_inner s))) as n eqn:Hn. apply eq_sym, Nat.eq_le_incl in Hn.
  revert s Hn; induction n as [|n IH]; intros s Hn.
  - exists s. split_and!; [done| |apply evicted_from_refl]. apply evict_candidate_None.
    unfold evict_candidate. case_match; [done|].
    assert (hash_iter (workers (rt_inner s)) = []) as ->; [|done].
    apply nil_length_inv. rewrite hash_iter_length. lia.
  - cbn [evict_loop]. run_m. destruct (evict_candidate cfg (rt_inner s)) as [h|] eqn:Hc.
    + rewrite close_worker_run by set_solver.
      pose proof (evict_candidate_spec _ _ Hc) as (w & Hw & _).
      destruct (IH (closed h s)) as (s' & Hrun & Hnone & Hev).
      { rewrite closed_workers, map_size_delete_Some by eauto. lia. }
      exists s'. split_and!; [done|done|]. by eapply evicted_from_step.
    + exists s. split_and!; [done|by apply evict_candidate_None|apply evicted_from_refl].
Qed.

(** ** The watchdog *)

(** A garbage collection round returns, closes exactly the workers with no
    reference token, no request in flight and an idle time over the limit, and
    keeps every other worker as it is. *)
Theorem watchdog_gc_correct idle s :
  ∃ s', watchdog_gc env idle ∅ s = Done tt s' ∧
    ∀ h w, workers (rt_inner s) !! h = Some w →
      workers (rt_inner s') !! h =
        if bool_decide (ref_count (rt_inner s) h = 0 ∧ w_pending w = ∅ ∧
                        (idle < e_clock env (rt_ticks s) - w_last_active w)%Z)
        then None else Some w.
Proof.
  set (now := e_clock env (rt_ticks s)).
  exists (closed_all (expired_workers idle now (rt_inner s)) (tick s)). split.
  - unfold watchdog_gc. run_m. apply close_all_run.
  - intros h w Hw. rewrite closed_all_workers. simpl. rewrite Hw.
    erewrite bool_decide_ext; [reflexivity|].
    unfold expired_workers. rewrite list_elem_of_fmap. split.
    + intros ([h' w'] & -> & [Hc Hin]%list_elem_of_filter). apply elem_of_hash_iter in Hin.
      simpl in *. by simplify_eq.
    + intros Hc. exists (h, w). split; [done|]. apply list_elem_of_filter. split; [done|].
      by apply elem_of_hash_iter.
Qed.
End ops.

