(* ===== verification/RouterOpen.v ===== *)
(** * Opening a database through the router

    [spawn_worker], [call_worker] and [ensure_worker_with_ref_idb] run to the end,
    and a failed open leaves nothing behind. *)

From Stdlib Require Import Ascii.
From stdpp Require Import base gmap strings list numbers fin_maps fin_map_dom.
From S2P Require Import Prelude RustStr Json ToolError Protocol Runtime RouterConfig Registry.
From S2P Require Import RegistryInv Router RouterLogic RouterSteps RouterOps.

Open Scope ida_scope.

Section opening.
Context `{HashOrder} (cfg : RouterConfig) (env : Env).

(** Every request returns, and starts no worker. *)
Lemma wp_call_worker handle method params s :
  wp ∅ (call_worker cfg env handle method params)
     (λ _ s', serves_le (rt_inner s) (rt_inner s')) s.
Proof.
  unfold call_worker. wp_run. destruct (resolve_target handle (rt_inner s)) as [h|e]; [|by wp_run].
  wp_run. cbn [rt_inner set_inner tick rt_ticks snd fst].
  set (r1 := (take_req_id (rt_inner s)).1).
  set (sent := enqueue_request cfg h _ method params _ _ _ r1).
  assert (serves_le (rt_inner s) sent.1) as Hle by (etrans; [apply serves_le_take_id|apply serves_le_enqueue]).
  destruct sent as [r2 [[]|e]]; cbn [snd fst] in *; [|by wp_run].
  wp_step. destruct (e_reply env h method params) as [res| |]; wp_run; cbn -[reader_response reader_eof]; [| |done].
  - etrans; [exact Hle|]. apply serves_le_response.
  - etrans; [exact Hle|]. apply serves_le_eof.
Qed.

Lemma wp_close_worker h s : wp ∅ (close_worker h) (λ _ s', s' = closed h s) s.
Proof. exists tt, (closed h s). split; [|done]. apply close_worker_run; set_solver. Qed.

Lemma wp_detect h s :
  wp ∅ (detect_and_rename_sbpf_entry cfg env h) (λ _ s', serves_le (rt_inner s) (rt_inner s')) s.
Proof.
  unfold detect_and_rename_sbpf_entry. wp_step. wp_apply wp_call_worker.
  intros found s1 H1. case_match; [|by wp_run].
  wp_step. wp_apply wp_call_worker. intros cg s2 H2.
  case_match; [|wp_run; etrans; eassumption].
  wp_step. wp_apply wp_call_worker. intros res s3 Hle3. wp_run. do 2 (etrans; [eassumption|]). done.
Qed.

(** ** Spawning *)

(** A worker was started for the key: its maps, on top of a smaller registry. *)
Definition spawned (path tenant : string) (r r' : RouterInner) (h : string) : Prop :=
  path_to_handle r' !! worker_key path tenant = Some h ∧
  (∀ k, k ≠ worker_key path tenant → ∀ h', path_to_handle r' !! k = Some h' → path_to_handle r !! k = Some h') ∧
  (∀ h', h' ≠ h → is_Some (workers r' !! h') → is_Some (workers r !! h')) ∧
  ∃ w, workers r' !! h = Some w ∧ w_open_path w = Some path ∧ w_tenant_id w = tenant.

Lemma spawn_commit_spec senv b path tenant r r' res :
  path_to_handle r !! worker_key path tenant = None →
  spawn_commit cfg senv b path tenant r = (r', res) →
  match res with
  | Ok (h, tok) => spawned path tenant r r' h ∧ token_to_handle r' !! tok = Some h
  | Err _ => serves_le r r'
  end.
Proof.
  unfold spawn_commit. intros Hkey. rewrite Hkey. destruct (_ <=? _)%Z; [by intros [= <- <-]|].
  destruct (_ <=? _)%Z; [by intros [= <- <-]|].
  destruct (se_child senv); intros [= <- <-]; [|by apply serves_le_same].
  split; [|simpl; apply lookup_insert_eq]. split_and!; simpl.
  - apply lookup_insert_eq.
  - intros k Hne h'. by rewrite lookup_insert_ne.
  - intros h' Hne. by rewrite lookup_insert_ne.
  - eexists. rewrite lookup_insert_eq. by split.
Qed.

Lemma wp_probe s : wp ∅ (probe_worker_backend env) (λ _ s', rt_inner s' = rt_inner s) s.
Proof.
  unfold probe_worker_backend. wp_run. destruct (rt_cached_probe s); [by wp_run|].
  destruct (e_probe env); by wp_run.
Qed.

Lemma evicted_from_paths s fuel :
  wp ∅ (evict_loop cfg fuel) (λ _ s', serves_le (rt_inner s) (rt_inner s')) s.
Proof.
  revert s; induction fuel as [|fuel IH]; intros s; [by apply wp_ret|].
  cbn [evict_loop]. wp_run. destruct (evict_candidate cfg (rt_inner s)) as [h|]; [|by wp_run].
  wp_step. wp_apply wp_close_worker. intros _ s1 ->.
  wp_apply IH. intros _ s2 Hle. etrans; [|exact Hle]. apply serves_le_close.
Qed.

Lemma wp_spawn_worker path tenant s :
  let key := worker_key (canonical_path env path) (normalize_tenant tenant) in
  path_to_handle (rt_inner s) !! key = None →
  wp ∅ (spawn_worker cfg env path tenant) (λ res s',
    match res with
    | Ok (h, tok) =>
        spawned (canonical_path env path) (normalize_tenant tenant) (rt_inner s) (rt_inner s') h ∧
        token_to_handle (rt_inner s') !! tok = Some h
    | Err _ => serves_le (rt_inner s) (rt_inner s')
    end) s.
Proof.
  intros key Hkey. unfold spawn_worker. wp_run.
  assert (spawn_lookup (e_clock env (rt_ticks s)) (e_pid env) key (rt_inner s) = (rt_inner s, None)) as Hl
    by (unfold spawn_lookup; by rewrite Hkey).
  subst key. cbn [rt_inner tick]. rewrite Hl. cbn [fst snd]. wp_step.
  wp_apply wp_probe. intros [p|e] s1 Hs1; cbv beta; cbn in Hs1; [|wp_run; by rewrite Hs1].
  destruct (backend p) as [b|]; [|wp_run; by rewrite Hs1].
  wp_run. wp_apply evicted_from_paths. intros _ s2 H2. wp_run.
  rewrite Hs1 in H2. cbn [rt_inner tick].
  destruct (spawn_commit _ _ _ _ _ _) as [r' res] eqn:Hc. cbn [fst snd rt_inner set_inner].
  apply spawn_commit_spec in Hc; last first.
  { apply eq_None_not_Some. intros [h Hh%(sl_paths _ _ H2)]. congruence. }
  destruct res as [[h tok]|e]; [|etrans; eassumption].
  destruct Hc as [(Hp & Hq & Hw & Hex) Ht]. split; [|done]. split_and!; [done| | |done].
  - intros k Hk h' Hh'. eapply sl_paths; eauto.
  - intros h' Hne Hs. destruct (Hw h' Hne Hs) as [w' Hw']. apply (sl_workers _ _ H2) in Hw' as (w & ? & _). eauto.
Qed.

Lemma normalize_tenant_idemp t : normalize_tenant (Some (normalize_tenant t)) = normalize_tenant t.
Proof.
  assert (normalize_tenant t = "default" ∨ ∃ u, normalize_tenant t = trim u ∧ trim u ≠ "")
    as [->|(u & -> & Hne)]; [|done|].
  - unfold normalize_tenant. destruct t as [t|]; simpl; [|by left]. case_bool_decide; eauto.
  - unfold normalize_tenant. simpl. rewrite trim_idemp. by rewrite bool_decide_false.
Qed.

(** Closing the worker that was spawned for a key after requests to it: the key
    and the worker are gone, and nothing was added. *)
Lemma spawned_closed path tenant r r1 s2 h :
  path_to_handle r !! worker_key path tenant = None →
  spawned path tenant r r1 h → serves_le r1 (rt_inner s2) →
  path_to_handle (rt_inner (closed h s2)) !! worker_key path tenant = None ∧
  dom (workers (rt_inner (closed h s2))) ⊆ dom (workers r).
Proof.
  intros Hkey (Hp & Hq & Hw & w & Hh & Hop & Hten) Hle.
  pose proof (transitivity Hle (serves_le_close h (rt_inner s2))) as Hle'.
  change (close_worker_inner h (rt_inner s2)).1 with (rt_inner (closed h s2)) in Hle'. split.
  - rewrite <-Hten. eapply (sl_gone _ _ Hle'); [done| |done]. rewrite closed_workers. apply lookup_delete_eq.
  - intros h'. rewrite !elem_of_dom. intros [w' Hw']. pose proof Hw' as Hw2.
    rewrite closed_workers in Hw2. apply lookup_delete_Some in Hw2 as [Hne _].
    apply (sl_workers _ _ Hle') in Hw' as (w1 & Hw1 & _). apply Hw; eauto.
Qed.

Lemma wp_issue_ref h s :
  wp ∅ (issue_ref env h) (λ tok s', handle_for_token tok (rt_inner s') = Some h ∧
    ∃ refs, ref_tokens (rt_inner s') !! h = Some refs ∧ tok ∈ refs) s.
Proof.
  unfold issue_ref. wp_run. cbn. unfold handle_for_token. simpl. rewrite !lookup_insert_eq.
  split; [done|]. eexists; split; [done|]. set_solver.
Qed.

(** C3: [ensure_worker_with_ref_idb] always returns.  On success the token it
    returns is registered for the handle.  On failure the database was not open
    before, its path is not registered afterwards (so it can be opened again), and
    no worker was added: the one started for the attempt is gone. *)
Theorem ensure_worker_clean path idb_output tenant s :
  let key := worker_key (canonical_path env path) (normalize_tenant tenant) in
  wp ∅ (ensure_worker_with_ref_idb cfg env path idb_output tenant) (λ res s',
    match res with
    | Ok (h, tok) => handle_for_token tok (rt_inner s') = Some h ∧
                     ∃ refs, ref_tokens (rt_inner s') !! h = Some refs ∧ tok ∈ refs
    | Err _ => path_to_handle (rt_inner s) !! key = None ∧
               path_to_handle (rt_inner s') !! key = None ∧
               dom (workers (rt_inner s')) ⊆ dom (workers (rt_inner s))
    end) s.
Proof.
  intros key. subst key. unfold ensure_worker_with_ref_idb. wp_run. cbn [rt_inner tick].
  unfold ensure_lookup at 1.
  destruct (path_to_handle (rt_inner s) !! worker_key (canonical_path env path) (normalize_tenant tenant))
    as [h|] eqn:Hkey; cbn [snd fst].
  { wp_run. wp_apply wp_issue_ref. intros tok s' Hs'. by wp_run. }
  assert (∀ s1, serves_le (rt_inner s) (rt_inner s1) →
    path_to_handle (rt_inner s1) !! worker_key (canonical_path env path) (normalize_tenant tenant) = None ∧
    dom (workers (rt_inner s1)) ⊆ dom (workers (rt_inner s))) as Hsmall.
  { intros s1 Hle. split.
    - apply eq_None_not_Some. intros [h Hh%(sl_paths _ _ Hle)]. congruence.
    - intros h. rewrite !elem_of_dom. intros [w Hw]. apply (sl_workers _ _ Hle) in Hw as (? & ? & _). eauto. }
  wp_run. wp_apply wp_spawn_worker; [by rewrite normalize_tenant_idemp; unfold ensure_lookup; rewrite Hkey|].
  unfold ensure_lookup. rewrite Hkey. cbn [fst snd rt_inner set_inner tick]. rewrite normalize_tenant_idemp.
  intros [[h tok]|e] s1 Hs1; [|wp_run; split; [done|by apply Hsmall]].
  destruct Hs1 as [Hsp _]. unfold release_token. wp_run. wp_apply wp_call_worker.
  cbn [rt_inner set_inner]. intros [v|e] s2 Hs2.
  - wp_step. eapply wp_mono with (Q := λ _ _, True).
    { destruct (match idb_output with Some _ => _ | None => _ end); by wp_run. }
    intros _ s3 _. wp_run. eapply wp_mono with (Q := λ _ _, True).
    { destruct (e_is_sbpf env _); [wp_apply wp_detect; done|by wp_run]. }
    intros _ s4 _. wp_run. wp_apply wp_issue_ref. intros tok' s' Hs'. by wp_run.
  - wp_step. wp_apply wp_close_worker. intros _ s3 ->. wp_run. split; [done|].
    eapply spawned_closed; [done|exact Hsp|]. etrans; [|exact Hs2]. apply serves_le_release.
Qed.
End opening.
