(* ===== verification/WarmPool.v ===== *)
(** * Warm leases

    What [install_warm_lease] and [release_warm_lease] do on every branch,
    including the one on which the task waits for a mutex it holds itself. *)

From Stdlib Require Import Ascii.
From stdpp Require Import base gmap strings list numbers fin_maps fin_map_dom.
From S2P Require Import Prelude RustStr Json ToolError Protocol Runtime RouterConfig Registry.
From S2P Require Import RegistryInv Router RouterLogic RouterSteps RouterOps.

Open Scope ida_scope.

Section leases.
Context `{HashOrder} (cfg : RouterConfig) (env : Env).

(** The lease holds the last reference to its worker. *)
Definition last_reference (r : RouterInner) (l : WarmLease) : Prop :=
  ∃ h, token_to_handle r !! wl_token l = Some h ∧ ref_tokens r !! h = Some {[wl_token l]}.

Lemma release_last_reference r l :
  last_reference r l → ∃ r' h, release_ref_token (wl_token l) r = (r', Some (h, 0)).
Proof.
  intros (h & Ht & Hr). unfold release_ref_token. rewrite Ht, Hr. do 2 eexists. repeat f_equal.
  rewrite difference_diag_L. apply size_empty.
Qed.

(** [release_warm_lease], on every branch.  An unknown path changes nothing; a
    lease whose token is gone is dropped; a lease that shares its worker is dropped
    with its token.  A lease with the last reference never finishes: the task still
    holds the pool's mutex when [close_worker] asks for it. *)
Theorem release_warm_lease_outcome path s :
  release_warm_lease path ∅ s =
  match rt_warm_pool s !! path with
  | None => Done (Ok tt) s
  | Some lease =>
      let dropped := set_warm_pool (delete path (rt_warm_pool s)) s in
      match release_ref_token (wl_token lease) (rt_inner s) with
      | (r, Some (_, 0)) => Deadlock LWarm
      | (r, _) => Done (Ok tt) (set_inner r dropped)
      end
  end.
Proof.
  unfold release_warm_lease. run_m. destruct (rt_warm_pool s !! path) as [lease|]; [|done].
  unfold release_token. run_m. cbn [rt_inner set_warm_pool].
  destruct (release_ref_token (wl_token lease) (rt_inner s)) as [r [[h [|n]]|]]; [|done|done].
  rewrite bool_decide_true by done. unfold close_worker. run_m.
  by rewrite bool_decide_true by set_solver.
Qed.

Lemma release_warm_lease_last path l s :
  rt_warm_pool s !! path = Some l → last_reference (rt_inner s) l →
  release_warm_lease path ∅ s = Deadlock LWarm.
Proof.
  intros Hl Hlast. unfold release_warm_lease. run_m. rewrite Hl. unfold release_token. run_m.
  cbn [rt_inner set_warm_pool]. destruct (release_last_reference _ _ Hlast) as (r' & h' & ->).
  rewrite bool_decide_true by done. unfold close_worker. run_m. by rewrite bool_decide_true by set_solver.
Qed.

Lemma make_warm_room_free n s :
  (Z.of_nat (size (rt_warm_pool s)) < max_warm_workers cfg)%Z → make_warm_room cfg (S n) ∅ s = Done (Ok tt) s.
Proof. intros Hroom. cbn [make_warm_room]. run_m. by rewrite (proj2 (Z.leb_gt _ _)) by lia. Qed.

(** With room in the pool, [install_warm_lease] returns, registers the lease
    under its path, keeps the leases of all other paths and does not touch the
    registry. *)
Theorem install_warm_lease_room path h tok tenant cache s
    (Hroom : (Z.of_nat (size (rt_warm_pool s)) < max_warm_workers cfg)%Z) :
  ∃ s' lease, install_warm_lease cfg env path h tok tenant cache ∅ s = Done (Ok tt) s' ∧
    rt_warm_pool s' = <[path := lease]> (rt_warm_pool s) ∧
    wl_handle lease = h ∧ wl_token lease = tok ∧ wl_cache_path lease = cache ∧
    rt_inner s' = rt_inner s.
Proof.
  unfold install_warm_lease. run_m. rewrite make_warm_room_free by done. run_m.
  do 2 eexists. split; [reflexivity|]. by split_and!.
Qed.

(** When the pool is full and every lease holds the last reference to its
    worker (what prewarming with [keep_warm] produces), [install_warm_lease] never
    returns: making room blocks on the pool's mutex. *)
Theorem install_warm_lease_full_deadlock path h tok tenant cache s
    (Hfull : (max_warm_workers cfg ≤ Z.of_nat (size (rt_warm_pool s)))%Z)
    (Hne : rt_warm_pool s ≠ ∅)
    (Hlast : ∀ p l, rt_warm_pool s !! p = Some l → last_reference (rt_inner s) l) :
  install_warm_lease cfg env path h tok tenant cache ∅ s = Deadlock LWarm.
Proof.
  unfold install_warm_lease. cbv beta iota delta [bind get_st]. cbn [make_warm_room]. run_m.
  rewrite (proj2 (Z.leb_le _ _)) by done.
  destruct (min_by_key _ _) as [[p l]|] eqn:Hmin; cbn [fmap option_fmap option_map fst].
  - apply min_by_key_elem, elem_of_hash_iter in Hmin as Hp.
    by rewrite (release_warm_lease_last p l) by eauto.
  - apply min_by_key_None, (f_equal length) in Hmin. rewrite hash_iter_length in Hmin.
    by apply map_size_empty_inv in Hmin.
Qed.

(** A second lease on a path replaces the first one and forgets its token:
    the token stays registered, so the worker's reference count stays positive, and
    no lease can release it. *)
Theorem install_warm_lease_forgets_token path h tok tenant cache s old
    (Hroom : (Z.of_nat (size (rt_warm_pool s)) < max_warm_workers cfg)%Z)
    (Hold : rt_warm_pool s !! path = Some old) (Hne : tok ≠ wl_token old)
    (Hinj : ∀ p l, rt_warm_pool s !! p = Some l → wl_token l = wl_token old → p = path) :
  ∃ s', install_warm_lease cfg env path h tok tenant cache ∅ s = Done (Ok tt) s' ∧
    handle_for_token (wl_token old) (rt_inner s') = handle_for_token (wl_token old) (rt_inner s) ∧
    (∀ p l, rt_warm_pool s' !! p = Some l → wl_token l ≠ wl_token old).
Proof.
  unfold install_warm_lease. run_m. rewrite make_warm_room_free by done. run_m.
  eexists. split_and!; [reflexivity|done|]. simpl. intros p l [[<- <-]|[? Hl]]%lookup_insert_Some; [done|].
  intros Heq. by apply Hinj in Hl.
Qed.
End leases.

(** ** A concrete router *)

(** The default limits with one warm worker. *)
Definition one_warm : RouterConfig :=
  from_env (λ n, if bool_decide (n = "IDA_CLI_MAX_WARM_WORKERS") then Some "1" else None) (Some 4%Z) 7.

(** A machine on which everything succeeds. *)
Definition sample_env : Env :=
  {| e_clock := λ n, (1000 + Z.of_nat n)%Z; e_pid := 7; e_home := Some "/home/u";
     e_canonicalize := Some; e_exists := λ _, true;
     e_probe := Ok {| runtime := None; backend := Some NativeLinked; supported := true; reason := None;
                   supported_methods := None |};
     e_child := Ok tt; e_write_ok := λ _, true; e_reply := λ _ _ _, Replies (Ok Null);
     e_resolve := λ _, {| open_path := None; idb_output_path := None |};
     e_is_sbpf := λ _, false; e_lookup_idb := λ _, None |}.

Definition sample_lease : WarmLease :=
  {| wl_handle := "h1"; wl_token := "t1"; wl_path := "/a"; wl_cache_path := None;
     wl_tenant_id := "default"; wl_pinned_at := 0; wl_last_hit := 0 |}.

Definition sample_worker : WorkerProcess :=
  {| w_backend := NativeLinked; w_tenant_id := "default"; w_pending := ∅; w_close_token := None;
     w_open_path := Some "/a"; w_last_active := 0; w_stdin := [] |}.

(** One worker, held by one warm lease. *)
Definition warm_state : RouterState :=
  {| rt_inner := {| workers := {["h1" := sample_worker]}; active := Some "h1";
                    path_to_handle := {[worker_key "/a" "default" := "h1"]};
                    token_to_handle := {["t1" := "h1"]}; ref_tokens := {["h1" := {["t1"]}]};
                    req_counter := 9; exe_path := "ida-cli" |};
     rt_warm_pool := {["/a" := sample_lease]}; rt_cached_probe := None; rt_ticks := 0;
     rt_outbox := []; rt_recorded := [] |}.

Lemma install_warm_lease_full_deadlock_witness :
  install_warm_lease (H := canonical_order) one_warm sample_env "/b" "h2" "t2" "default" None ∅ warm_state
  = Deadlock LWarm.
Proof.
  apply (install_warm_lease_full_deadlock (H := canonical_order)).
  - vm_compute. discriminate.
  - apply map_non_empty_singleton.
  - intros p l Hl. cbn in Hl. apply lookup_singleton_Some in Hl as [_ <-]. exists "h1". split; reflexivity.
Defined.

(** The same from an empty router: two prewarms with [keep_warm]. *)
Example two_prewarms_deadlock :
  let prewarm p := prewarm_path_with_options (H := canonical_order) one_warm sample_env p true "default" in
  bind (prewarm "/a") (λ _, prewarm "/b") ∅ (router_new "ida-cli") = Deadlock LWarm.
Proof. vm_compute. reflexivity. Qed.

Lemma install_warm_lease_room_witness :
  ∃ s' lease, install_warm_lease (H := canonical_order) (from_env (λ _, None) None 7) sample_env
                "/b" "h2" "t2" "default" None ∅ warm_state = Done (Ok tt) s' ∧
    rt_warm_pool s' = <["/b" := lease]> {["/a" := sample_lease]} ∧
    wl_handle lease = "h2" ∧ wl_token lease = "t2" ∧ wl_cache_path lease = None ∧
    rt_inner s' = rt_inner warm_state.
Proof.
  apply (install_warm_lease_room (H := canonical_order) (from_env (λ _, None) None 7) sample_env).
  vm_compute. reflexivity.
Defined.

Lemma install_warm_lease_forgets_token_witness :
  ∃ s', install_warm_lease (H := canonical_order) (from_env (λ _, None) None 7) sample_env
          "/a" "h1" "t2" "default" None ∅ warm_state = Done (Ok tt) s' ∧
    handle_for_token "t1" (rt_inner s') = handle_for_token "t1" (rt_inner warm_state) ∧
    (∀ p l, rt_warm_pool s' !! p = Some l → wl_token l ≠ "t1").
Proof.
  apply (install_warm_lease_forgets_token (H := canonical_order) (from_env (λ _, None) None 7) sample_env
           "/a" "h1" "t2" "default" None warm_state sample_lease).
  - vm_compute. reflexivity.
  - reflexivity.
  - discriminate.
  - intros p l Hl _. cbn in Hl. apply lookup_singleton_Some in Hl as [<- _]. reflexivity.
Defined.
