(* ===== verification/IsoTime.v ===== *)
(** * Timestamps (src/server/task.rs, [iso_now] and [epoch_days_to_ymd])

    The conversion of a day count to a calendar date, against a definition of the
    Gregorian calendar that counts the days of the years and months one by one. *)

From Stdlib Require Import Ascii ZArith.
From stdpp Require Import base strings list numbers.
From S2P Require Import Prelude RustStr.

Open Scope Z_scope.

(** ** The code *)

Definition epoch_days_to_ymd (days : Z) : Z * Z * Z :=
  let z := days + 719468 in
  let era := z / 146097 in
  let doe := z - era * 146097 in
  let yoe := (doe - doe / 1460 + doe / 36524 - doe / 146096) / 365 in
  let y := yoe + era * 400 in
  let doy := doe - (365 * yoe + yoe / 4 - yoe / 100) in
  let mp := (5 * doy + 2) / 153 in
  let d := doy - (153 * mp + 2) / 5 + 1 in
  let m := if mp <? 10 then mp + 3 else mp - 9 in
  let year := if m <=? 2 then y + 1 else y in
  (year, m, d).

(** [iso_now] for the seconds since the epoch. *)
Definition iso_format (secs : Z) : string :=
  let days := secs / 86400 in
  let time_secs := secs mod 86400 in
  let hours := time_secs / 3600 in
  let minutes := (time_secs mod 3600) / 60 in
  let seconds := time_secs mod 60 in
  let '(year, month, day) := epoch_days_to_ymd days in
  pad_zero 4 (fmt_dec year) +:+ "-" +:+ pad_zero 2 (fmt_dec month) +:+ "-" +:+ pad_zero 2 (fmt_dec day)
  +:+ "T" +:+ pad_zero 2 (fmt_dec hours) +:+ ":" +:+ pad_zero 2 (fmt_dec minutes) +:+ ":"
  +:+ pad_zero 2 (fmt_dec seconds) +:+ "Z".

(** ** The Gregorian calendar *)

Definition is_leap (y : Z) : bool :=
  (y mod 4 =? 0) && (negb (y mod 100 =? 0) || (y mod 400 =? 0)).

Definition month_length (y m : Z) : Z :=
  if m =? 2 then (if is_leap y then 29 else 28)
  else if (m =? 4) || (m =? 6) || (m =? 9) || (m =? 11) then 30 else 31.

Definition valid_date (ymd : Z * Z * Z) : Prop :=
  let '(y, m, d) := ymd in 1 ≤ m ≤ 12 ∧ 1 ≤ d ≤ month_length y m.

(** The date after a date. *)
Definition next_date (ymd : Z * Z * Z) : Z * Z * Z :=
  let '(y, m, d) := ymd in
  if d <? month_length y m then (y, m, d + 1)
  else if m <? 12 then (y, m + 1, 1) else (y + 1, 1, 1).

(** ** The parts of the conversion *)

(** The year of the 400-year era that a day of the era falls in, counted from
    1 March, and the first day of a year. *)
Definition era_year_num (doe : Z) : Z := doe - doe / 1460 + doe / 36524 - doe / 146096.
Definition year_start (y : Z) : Z := 365 * y + y / 4 - y / 100.
Definition year_end (y : Z) : Z := if y =? 399 then 146097 else year_start (y + 1).
Definition leap_of (y : Z) : bool := is_leap (y + 1).

(** Month and day of a day of the March-based year, and whether the civil year is
    the next one. *)
Definition march_date (doy : Z) : Z * Z * Z :=
  let mp := (5 * doy + 2) / 153 in
  let d := doy - (153 * mp + 2) / 5 + 1 in
  let m := if mp <? 10 then mp + 3 else mp - 9 in
  (if m <=? 2 then 1 else 0, m, d).

Definition civil (y doy : Z) : Z * Z * Z :=
  let '(dy, m, d) := march_date doy in (y + dy, m, d).

(** Every value of a small range, by evaluation. *)
Lemma range_check (p : Z → bool) n :
  forallb p (seqZ 0 n) = true → ∀ z, 0 ≤ z < n → p z = true.
Proof.
  intros Hall z Hz. rewrite forallb_forall in Hall. apply Hall.
  apply list_elem_of_In, elem_of_seqZ. lia.
Qed.

Lemma era_year_num_mono a b : 0 ≤ a ≤ b → b ≤ 146096 → era_year_num a ≤ era_year_num b.
Proof.
  intros [Ha Hab] Hb. revert Hb. pattern b. apply Zlt_lower_bound_ind with (z := a); [|done].
  clear b Hab. intros b IH Hab Hb. destruct (decide (a = b)) as [->|Hne]; [lia|].
  transitivity (era_year_num (b - 1)); [apply IH; lia|]. unfold era_year_num.
  destruct (decide (b = 146096)) as [->|]; [vm_compute; discriminate|].
  rewrite !(Z.div_small _ 146096) by lia. Z.to_euclidean_division_equations. lia.
Qed.

Lemma year_bounds_check :
  forallb (λ y, (era_year_num (year_start y) / 365 =? y) && (era_year_num (year_end y - 1) / 365 =? y) &&
                (year_end y - year_start y =? if leap_of y then 366 else 365) &&
                (year_start y <? year_end y) && (0 <=? year_start y) && (year_end y <=? 146097))
          (seqZ 0 400) = true.
Proof. vm_compute. reflexivity. Qed.

Lemma year_bounds y : 0 ≤ y < 400 →
  era_year_num (year_start y) / 365 = y ∧ era_year_num (year_end y - 1) / 365 = y ∧
  year_end y - year_start y = (if leap_of y then 366 else 365) ∧
  0 ≤ year_start y ∧ year_end y ≤ 146097.
Proof.
  intros Hy. pose proof (range_check _ _ year_bounds_check y Hy) as Hc. cbv beta in Hc.
  repeat (apply andb_true_iff in Hc as [Hc ?]). split_and!; lia.
Qed.

Lemma era_year_of y doe : 0 ≤ y < 400 → year_start y ≤ doe < year_end y → era_year_num doe / 365 = y.
Proof.
  intros Hy Hd. destruct (year_bounds y Hy) as (H1 & H2 & _ & H3 & H4).
  assert (era_year_num (year_start y) ≤ era_year_num doe) by (apply era_year_num_mono; lia).
  assert (era_year_num doe ≤ era_year_num (year_end y - 1)) by (apply era_year_num_mono; lia).
  pose proof (Z.div_le_mono (era_year_num (year_start y)) (era_year_num doe) 365).
  pose proof (Z.div_le_mono (era_year_num doe) (era_year_num (year_end y - 1)) 365). lia.
Qed.

Lemma era_day_split doe : 0 ≤ doe < 146097 → ∃ y, 0 ≤ y < 400 ∧ year_start y ≤ doe < year_end y.
Proof.
  intros Hd.
  assert (∀ n : nat, (n < 400)%nat → doe < year_end (Z.of_nat n) →
            ∃ y, 0 ≤ y < 400 ∧ year_start y ≤ doe < year_end y) as Hex.
  { induction n as [|n IH]; intros Hn Hlt.
    - exists 0. split; [lia|]. split; [exact (proj1 Hd)|done].
    - destruct (decide (year_start (Z.of_nat (S n)) ≤ doe)) as [Hge|Hge].
      + exists (Z.of_nat (S n)). lia.
      + apply IH; [lia|]. unfold year_end. rewrite (proj2 (Z.eqb_neq _ _)) by lia.
        replace (Z.of_nat n + 1) with (Z.of_nat (S n)) by lia. lia. }
  apply (Hex 399%nat); [lia|]. apply Hd.
Qed.

(** The conversion, written with the parts. *)
Lemma epoch_days_parts days era y doy :
  days + 719468 = era * 146097 + year_start y + doy → 0 ≤ y < 400 →
  0 ≤ doy < year_end y - year_start y →
  epoch_days_to_ymd days = civil (y + era * 400) doy.
Proof.
  intros Hz Hy Hdoy. destruct (year_bounds y Hy) as (_ & _ & _ & H3 & H4).
  unfold epoch_days_to_ymd. cbv zeta.
  assert ((days + 719468) / 146097 = era) as ->.
  { symmetry. apply (Z.div_unique _ _ _ (year_start y + doy)); lia. }
  replace (days + 719468 - era * 146097) with (year_start y + doy) by lia.
  pose proof (era_year_of y (year_start y + doy) Hy ltac:(lia)) as Hyoe. unfold era_year_num in Hyoe.
  rewrite Hyoe. replace (year_start y + doy - (365 * y + y / 4 - y / 100)) with doy by (unfold year_start; lia).
  unfold civil, march_date. destruct (_ <=? 2); f_equal; f_equal; lia.
Qed.

(** ** Agreement with the calendar *)

Definition date_eqb (a b : Z * Z * Z) : bool :=
  (a.1.1 =? b.1.1) && (a.1.2 =? b.1.2) && (a.2 =? b.2).

Lemma date_eqb_eq a b : date_eqb a b = true → a = b.
Proof.
  destruct a as [[? ?] ?], b as [[? ?] ?]. unfold date_eqb. simpl.
  rewrite !andb_true_iff, !Z.eqb_eq. naive_solver.
Qed.

(** Within a March-based year whose February has 28 or 29 days. *)
Definition next_march (leap : bool) (ymd : Z * Z * Z) : Z * Z * Z :=
  let '(y, m, d) := ymd in
  let len := if m =? 2 then (if leap then 29 else 28)
             else if (m =? 4) || (m =? 6) || (m =? 9) || (m =? 11) then 30 else 31 in
  if d <? len then (y, m, d + 1) else if m <? 12 then (y, m + 1, 1) else (y + 1, 1, 1).

Lemma march_dates_check (leap : bool) :
  let len := if leap then 366 else 365 in
  forallb (λ doy, date_eqb (next_march leap (march_date doy))
                    (if doy =? len - 1 then (1, 3, 1) else march_date (doy + 1))) (seqZ 0 len) = true.
Proof. destruct leap; vm_compute; reflexivity. Qed.

Lemma march_dates_valid (leap : bool) :
  let len := if leap then 366 else 365 in
  forallb (λ doy, let '(dy, m, d) := march_date doy in
             (1 <=? m) && (m <=? 12) && (1 <=? d) &&
             (d <=? if m =? 2 then (if leap then 29 else 28)
                    else if (m =? 4) || (m =? 6) || (m =? 9) || (m =? 11) then 30 else 31) &&
             (if m =? 2 then dy =? 1 else true)) (seqZ 0 len) = true.
Proof. destruct leap; vm_compute; reflexivity. Qed.

Lemma is_leap_shift y k : is_leap (y + k * 400) = is_leap y.
Proof.
  unfold is_leap. replace (y + k * 400) with (y + (k * 100) * 4) at 1 by lia. rewrite Z_mod_plus_full.
  replace (y + k * 400) with (y + (k * 4) * 100) at 1 by lia. rewrite Z_mod_plus_full.
  by rewrite Z_mod_plus_full.
Qed.

Lemma civil_next y era doy :
  0 ≤ y < 400 → 0 ≤ doy < year_end y - year_start y →
  next_date (civil (y + era * 400) doy) =
    if doy =? year_end y - year_start y - 1 then civil (y + 1 + era * 400) 0
    else civil (y + era * 400) (doy + 1).
Proof.
  intros Hy Hdoy. destruct (year_bounds y Hy) as (_ & _ & Hlen & _). rewrite Hlen in *.
  pose proof (range_check _ _ (march_dates_check (leap_of y)) doy ltac:(by destruct (leap_of y))) as Hc.
  cbv beta zeta in Hc. apply date_eqb_eq in Hc.
  pose proof (range_check _ _ (march_dates_valid (leap_of y)) doy ltac:(by destruct (leap_of y))) as Hv.
  cbv beta zeta in Hv. unfold civil at 1. destruct (march_date doy) as [[dy m] d] eqn:Hmd.
  repeat (apply andb_true_iff in Hv as [Hv ?]).
  assert (next_date (y + era * 400 + dy, m, d) =
          (λ a, (y + era * 400 + a.1.1, a.1.2, a.2)) (next_march (leap_of y) (dy, m, d))) as ->.
  { unfold next_date, next_march, month_length. destruct (Z.eqb_spec m 2) as [->|Hm].
    - assert (dy = 1) as -> by lia. unfold leap_of.
      replace (y + era * 400 + 1) with (y + 1 + era * 400) by lia. rewrite is_leap_shift.
      destruct (d <? _); simpl; (apply f_equal2; [apply f_equal2|]); lia.
    - repeat case_match; simpl; (apply f_equal2; [apply f_equal2|]); lia. }
  rewrite Hc. destruct (doy =? _).
  - unfold civil. change (march_date 0) with (0, 3, 1). cbn [fst snd]. apply f_equal2; [apply f_equal2|]; lia.
  - unfold civil. by destruct (march_date (doy + 1)) as [[? ?] ?].
Qed.

(** The date of day 0 is 1 January 1970, the date of each following day is the
    next date of the Gregorian calendar (leap years by the 4, 100 and 400 rule), and
    every date is valid. *)
Theorem epoch_days_to_ymd_calendar :
  epoch_days_to_ymd 0 = (1970, 1, 1) ∧
  ∀ days, 0 ≤ days →
    epoch_days_to_ymd (days + 1) = next_date (epoch_days_to_ymd days) ∧
    valid_date (epoch_days_to_ymd days).
Proof.
  split; [reflexivity|]. intros days Hdays.
  set (era := (days + 719468) / 146097). set (doe := (days + 719468) mod 146097).
  assert (days + 719468 = era * 146097 + doe) as Hz by (subst era doe; pose proof (Z.div_mod (days + 719468) 146097); lia).
  destruct (era_day_split doe) as (y & Hy & Hdoe); [apply Z.mod_pos_bound; lia|].
  rewrite (epoch_days_parts days era y (doe - year_start y)) by lia. split.
  - rewrite civil_next by lia. destruct (Z.eqb_spec (doe - year_start y) (year_end y - year_start y - 1)).
    + unfold year_end in *. destruct (Z.eqb_spec y 399) as [->|].
      * rewrite (epoch_days_parts (days + 1) (era + 1) 0 0);
          [f_equal; lia| |lia|vm_compute; by split]. change (year_start 0) with 0. lia.
      * destruct (year_bounds (y + 1)) as (_ & _ & Hl & _); [lia|].
        rewrite (epoch_days_parts (days + 1) era (y + 1) 0);
          [done|lia|lia|rewrite Hl; destruct (leap_of (y + 1)); lia].
    + rewrite (epoch_days_parts (days + 1) era y (doe - year_start y + 1)); [done|lia|done|lia].
  - destruct (year_bounds y Hy) as (_ & _ & Hlen & _).
    assert (0 ≤ doe - year_start y < if leap_of y then 366 else 365) as Hr by (rewrite <-Hlen; lia).
    pose proof (range_check _ _ (march_dates_valid (leap_of y)) (doe - year_start y) Hr) as Hv.
    cbv beta zeta in Hv. unfold civil. destruct (march_date (doe - year_start y)) as [[dy m] d].
    repeat (apply andb_true_iff in Hv as [Hv ?]). unfold valid_date, month_length.
    split; [lia|]. destruct (Z.eqb_spec m 2) as [->|Hm]; [|lia].
    assert (dy = 1) as -> by lia. unfold leap_of in *.
    replace (y + era * 400 + 1) with (y + 1 + era * 400) by lia. rewrite is_leap_shift. lia.
Qed.

Lemma epoch_days_to_ymd_calendar_witness :
  epoch_days_to_ymd 19782 = (2024, 2, 29) ∧ epoch_days_to_ymd (19782 + 1) = next_date (epoch_days_to_ymd 19782).
Proof.
  split; [reflexivity|]. exact (proj1 (proj2 epoch_days_to_ymd_calendar 19782 ltac:(lia))).
Defined.
