(* ===== verification/Tasks.v ===== *)
(** * The task registry (src/server/task.rs)

    Background tasks: creation with deduplication by key, progress, completion,
    cancellation, and the pruning of finished tasks.  Every operation runs under
    one mutex, so a registry is a value and an operation a function on it. *)

From Stdlib Require Import Ascii.
From stdpp Require Import base gmap strings list numbers sorting fin_maps relations.
From S2P Require Import Prelude RustStr Json.

(** ** State *)

Definition TERMINAL_TASK_CAP : nat := 256.

Inductive TaskStatus : Type := Running | Completed | Failed | Cancelled.

#[export] Instance TaskStatus_eq_dec : EqDecision TaskStatus.
Proof. solve_decision. Defined.

Record TaskState : Type := {
  t_id : string;
  t_status : TaskStatus;
  t_message : string;
  t_meta : option Value;
  t_result : option Value;
  t_created_at : Z;
  t_updated_at : Z;
  t_created_at_iso : string;
  t_updated_at_iso : string;
  t_key : option string
}.

(** [handle] is a tokio join handle, by identity. *)
Record TaskEntry : Type := { te_state : TaskState; te_handle : option N }.

(** The entries, and the process-wide id counter of [next_task_id]. *)
Record TaskRegistry : Type := { entries : gmap string TaskEntry; id_counter : Z }.

Definition registry_new : TaskRegistry := {| entries := ∅; id_counter := 1 |}.

(** The clock reading of [now_with_iso]. *)
Record stamp : Type := { st_now : Z; st_iso : string }.

Definition is_terminal (e : TaskEntry) : bool := bool_decide (t_status (te_state e) ≠ Running).

(** Set the status and the message, with the result when there is one. *)
Definition set_state (st : TaskStatus) (msg : string) (res : option Value) (now : stamp) (s : TaskState) :
    TaskState :=
  {| t_id := t_id s; t_status := st; t_message := msg; t_meta := t_meta s;
     t_result := match res with Some v => Some v | None => t_result s end;
     t_created_at := t_created_at s; t_updated_at := st_now now;
     t_created_at_iso := t_created_at_iso s; t_updated_at_iso := st_iso now; t_key := t_key s |}.

Definition set_meta (m : option Value) (now : stamp) (s : TaskState) : TaskState :=
  {| t_id := t_id s; t_status := t_status s; t_message := t_message s; t_meta := m;
     t_result := t_result s; t_created_at := t_created_at s; t_updated_at := st_now now;
     t_created_at_iso := t_created_at_iso s; t_updated_at_iso := st_iso now; t_key := t_key s |}.

Definition new_state (id : string) (st : TaskStatus) (msg : string) (meta res : option Value)
    (key : option string) (now : stamp) : TaskState :=
  {| t_id := id; t_status := st; t_message := msg; t_meta := meta; t_result := res;
     t_created_at := st_now now; t_updated_at := st_now now;
     t_created_at_iso := st_iso now; t_updated_at_iso := st_iso now; t_key := key |}.

Section operations.
Context `{HashOrder}.

(** ** Operations *)

Definition older_first (a b : string * Z) : bool := (a.2 <=? b.2)%Z.

Definition prune_terminal_tasks (m : gmap string TaskEntry) : gmap string TaskEntry :=
  let terminal_ids := (λ ie, (ie.1, t_updated_at (te_state ie.2))) <$>
                      filter (λ ie, is_terminal ie.2 = true) (hash_iter m) in
  if bool_decide (length terminal_ids ≤ TERMINAL_TASK_CAP) then m
  else
    let ordered := sort_by older_first terminal_ids in
    let remove_count := length ordered - TERMINAL_TASK_CAP in
    delete_keys (take remove_count ordered) m.

(** [next_task_id]: [fetch_add] on a 64-bit counter. *)
Definition next_task_id (prefix : string) (n : Z) : string := prefix +:+ "-" +:+ fmt_dec n.

Definition running_with_key (key : string) (e : TaskEntry) : Prop :=
  t_status (te_state e) = Running ∧ t_key (te_state e) = Some key.

#[export] Instance running_with_key_dec key e : Decision (running_with_key key e).
Proof. unfold running_with_key. apply _. Defined.

Definition create_internal (prefix : string) (key : option string) (msg : string) (meta : option Value)
    (now : stamp) (r : TaskRegistry) : TaskRegistry * result string string :=
  let existing :=
    match key with
    | Some key => (λ ie, t_id (te_state ie.2.2)) <$> list_find (λ ie, running_with_key key ie.2) (hash_iter (entries r))
    | None => None
    end in
  match existing with
  | Some id => (r, Err id)
  | None =>
      let id := next_task_id prefix (id_counter r) in
      let e := {| te_state := new_state id Running msg meta None key now; te_handle := None |} in
      ({| entries := prune_terminal_tasks (<[id := e]> (entries r)); id_counter := wrap64 (id_counter r + 1) |},
       Ok id)
  end.

Definition create_keyed (key msg : string) := create_internal "dsc" (Some key) msg None.
Definition create_with_key (prefix : string) (key : option string) (msg : string) :=
  create_internal prefix key msg None.
Definition create_with_meta (prefix : string) (key : option string) (msg : string) (meta : Value) :=
  create_internal prefix key msg (Some meta).

(** [create]: the [expect] never fires, since a task without key is always made. *)
Definition create (prefix msg : string) (now : stamp) (r : TaskRegistry) : TaskRegistry * option string :=
  let '(r', res) := create_internal prefix None msg None now r in (r', ok res).

Definition create_completed (msg : string) (res : Value) (now : stamp) (r : TaskRegistry) :
    TaskRegistry * string :=
  let id := next_task_id "task" (id_counter r) in
  let e := {| te_state := new_state id Completed msg None (Some res) None now; te_handle := None |} in
  ({| entries := prune_terminal_tasks (<[id := e]> (entries r)); id_counter := wrap64 (id_counter r + 1) |}, id).

(** [if let Some(entry) = entries.get_mut(id) { .. }] *)
Definition with_entry (f : TaskEntry → TaskEntry) (id : string) (r : TaskRegistry) : TaskRegistry :=
  {| entries := alter f id (entries r); id_counter := id_counter r |}.

Definition pruned (r : TaskRegistry) : TaskRegistry :=
  {| entries := prune_terminal_tasks (entries r); id_counter := id_counter r |}.

Definition set_handle (id : string) (h : N) : TaskRegistry → TaskRegistry :=
  with_entry (λ e, {| te_state := te_state e; te_handle := Some h |}) id.

Definition task_get (id : string) (r : TaskRegistry) : option TaskState := te_state <$> entries r !! id.

Definition list_all (r : TaskRegistry) : list TaskState := (λ ie, te_state ie.2) <$> hash_iter (entries r).

Definition update_message (id msg : string) (now : stamp) : TaskRegistry → TaskRegistry :=
  with_entry (λ e, {| te_state := set_state (t_status (te_state e)) msg None now (te_state e);
                      te_handle := te_handle e |}) id.

(** The patch wins key by key when both are objects, and replaces otherwise. *)
Definition merged_meta (meta : option Value) (patch : Value) : option Value :=
  match meta, patch with
  | Some (Object existing), Object p => Some (Object (foldl (λ m kv, obj_insert kv.1 kv.2 m) existing p))
  | _, _ => Some patch
  end.

Definition merge_meta (id : string) (patch : Value) (now : stamp) : TaskRegistry → TaskRegistry :=
  with_entry (λ e, {| te_state := set_meta (merged_meta (t_meta (te_state e)) patch) now (te_state e);
                      te_handle := te_handle e |}) id.

Definition complete (id : string) (res : Value) (now : stamp) (r : TaskRegistry) : TaskRegistry :=
  pruned (with_entry (λ e, {| te_state := set_state Completed "Completed" (Some res) now (te_state e);
                              te_handle := None |}) id r).

Definition fail_task (id err : string) (now : stamp) (r : TaskRegistry) : TaskRegistry :=
  pruned (with_entry (λ e, {| te_state := set_state Failed err None now (te_state e); te_handle := None |}) id r).

(** [cancel]: whether it did, and the join handle that was aborted. *)
Definition cancel (id : string) (now : stamp) (r : TaskRegistry) : TaskRegistry * bool * option N :=
  match entries r !! id with
  | Some e =>
      if bool_decide (t_status (te_state e) = Running) then
        (pruned (with_entry (λ e, {| te_state := set_state Cancelled "Cancelled by client" None now (te_state e);
                                     te_handle := None |}) id r), true, te_handle e)
      else (r, false, None)
  | None => (r, false, None)
  end.

(** ** Pruning *)

(** The finished tasks of a registry. *)
Definition terminal (m : gmap string TaskEntry) : gmap string TaskEntry :=
  filter (λ ie, is_terminal ie.2 = true) m.

Lemma terminal_iter m :
  filter (λ ie, is_terminal ie.2 = true) (hash_iter m) ≡ₚ map_to_list (terminal m).
Proof.
  apply NoDup_Permutation.
  - apply NoDup_filter. eapply NoDup_fmap_1, hash_iter_NoDup.
  - apply NoDup_map_to_list.
  - intros [i e]. rewrite list_elem_of_filter, elem_of_hash_iter, elem_of_map_to_list.
    unfold terminal. rewrite map_lookup_filter_Some. simpl. tauto.
Qed.

(** The finished tasks in the order of their last update, and how many go. *)
Definition oldest_first (m : gmap string TaskEntry) : list (string * Z) :=
  sort_by older_first ((λ ie, (ie.1, t_updated_at (te_state ie.2))) <$>
                       filter (λ ie, is_terminal ie.2 = true) (hash_iter m)).

Lemma oldest_first_length m : length (oldest_first m) = size (terminal m).
Proof.
  unfold oldest_first. rewrite sort_by_length, length_fmap, terminal_iter. apply length_map_to_list.
Qed.

Lemma oldest_first_elem m i u :
  (i, u) ∈ oldest_first m ↔ ∃ e, m !! i = Some e ∧ is_terminal e = true ∧ u = t_updated_at (te_state e).
Proof.
  unfold oldest_first. rewrite sort_by_elem, list_elem_of_fmap. split.
  - intros ([i' e] & [= -> ->] & [Ht Hin]%list_elem_of_filter). apply elem_of_hash_iter in Hin. eauto.
  - intros (e & Hi & Ht & ->). exists (i, e). split; [done|]. apply list_elem_of_filter.
    split; [done|]. by apply elem_of_hash_iter.
Qed.

Lemma oldest_first_NoDup m : NoDup (oldest_first m).*1.
Proof.
  unfold oldest_first. rewrite sort_by_perm, <-list_fmap_compose. simpl.
  rewrite terminal_iter. apply NoDup_fst_map_to_list.
Qed.

Lemma prune_eq m :
  prune_terminal_tasks m = delete_keys (take (size (terminal m) - TERMINAL_TASK_CAP) (oldest_first m)) m.
Proof.
  unfold prune_terminal_tasks. fold (oldest_first m). rewrite oldest_first_length.
  assert (length ((λ ie, (ie.1, t_updated_at (te_state ie.2))) <$>
            filter (λ ie : string * TaskEntry, is_terminal ie.2 = true) (hash_iter m)) = size (terminal m)) as ->.
  { rewrite length_fmap, terminal_iter. apply length_map_to_list. }
  case_bool_decide as Hc; [|done]. by replace (size (terminal m) - TERMINAL_TASK_CAP) with 0 by lia.
Qed.

Lemma prune_subseteq m : prune_terminal_tasks m ⊆ m.
Proof.
  apply map_subseteq_spec. intros i e. rewrite prune_eq, lookup_delete_keys. by case_bool_decide.
Qed.

Lemma pruned_in m i :
  is_Some (m !! i) → prune_terminal_tasks m !! i = None →
  ∃ u, (i, u) ∈ take (size (terminal m) - TERMINAL_TASK_CAP) (oldest_first m).
Proof.
  intros [e He]. rewrite prune_eq, lookup_delete_keys. case_bool_decide as Hin; [|congruence].
  intros _. apply list_elem_of_fmap in Hin as ([i' u] & -> & ?). by exists u.
Qed.

Lemma prune_running m i e :
  m !! i = Some e → t_status (te_state e) = Running → prune_terminal_tasks m !! i = Some e.
Proof.
  intros He Hr. destruct (prune_terminal_tasks m !! i) as [e'|] eqn:Hp.
  - apply (lookup_weaken _ m) in Hp; [congruence|apply prune_subseteq].
  - apply pruned_in in Hp as [u Hin]; [|by eauto]. apply elem_of_take in Hin as (k & Hk & _).
    apply list_elem_of_lookup_2, oldest_first_elem in Hk as (e' & He' & Ht & _).
    unfold is_terminal in Ht. rewrite He in He'. injection He' as <-. by rewrite Hr in Ht.
Qed.

Lemma terminal_prune_size m :
  size (terminal (prune_terminal_tasks m)) = size (terminal m) `min` TERMINAL_TASK_CAP.
Proof.
  set (k := size (terminal m) - TERMINAL_TASK_CAP).
  assert (terminal (prune_terminal_tasks m) = delete_keys (take k (oldest_first m)) (terminal m)) as ->.
  { apply map_eq. intros i. rewrite lookup_delete_keys, prune_eq. unfold terminal. rewrite map_lookup_filter.
    rewrite lookup_delete_keys. rewrite map_lookup_filter. by destruct (bool_decide _). }
  rewrite size_delete_keys.
  - rewrite length_take, oldest_first_length. subst k. lia.
  - rewrite fmap_take. eapply sublist_NoDup; [apply oldest_first_NoDup|apply sublist_take].
  - intros [i u] (n & Hn & _)%elem_of_take.
    apply list_elem_of_lookup_2, oldest_first_elem in Hn as (e & He & Ht & _).
    exists e. simpl. unfold terminal. by rewrite map_lookup_filter_Some.
Qed.

(** Pruning keeps every running task as it is, keeps at most 256 finished ones,
    never fewer when there are as many, and drops only finished tasks whose last
    update is not after that of any finished task it keeps. *)
Theorem prune_terminal_tasks_correct m :
  prune_terminal_tasks m ⊆ m ∧
  (∀ i e, m !! i = Some e → t_status (te_state e) = Running → prune_terminal_tasks m !! i = Some e) ∧
  size (terminal (prune_terminal_tasks m)) = size (terminal m) `min` TERMINAL_TASK_CAP ∧
  (∀ i j e e', m !! i = Some e → prune_terminal_tasks m !! i = None →
     prune_terminal_tasks m !! j = Some e' → is_terminal e' = true →
     (t_updated_at (te_state e) ≤ t_updated_at (te_state e'))%Z).
Proof.
  split_and!; [apply prune_subseteq|apply prune_running|apply terminal_prune_size|].
  intros i j e e' He Hgone Hj Ht'. set (k := size (terminal m) - TERMINAL_TASK_CAP).
  pose proof Hgone as [u Hin]%pruned_in; [|by eauto]. fold k in Hin.
  assert ((j, t_updated_at (te_state e')) ∈ drop k (oldest_first m)) as Hdrop.
  { assert ((j, t_updated_at (te_state e')) ∈ take k (oldest_first m) ++ drop k (oldest_first m)) as Hall.
    { rewrite take_drop. apply oldest_first_elem. exists e'. split_and!; try done.
      eapply lookup_weaken; [exact Hj|apply prune_subseteq]. }
    apply elem_of_app in Hall as [Hbad|]; [|done]. rewrite prune_eq, lookup_delete_keys in Hj.
    rewrite bool_decide_true in Hj; [done|]. apply list_elem_of_fmap. eexists; split; [|exact Hbad]. done. }
  assert (u = t_updated_at (te_state e)) as ->.
  { apply elem_of_take in Hin as (n & Hn & _).
    apply list_elem_of_lookup_2, oldest_first_elem in Hn as (e0 & He0 & _ & ->). congruence. }
  assert (StronglySorted older_first (take k (oldest_first m) ++ drop k (oldest_first m))) as Hss.
  { rewrite take_drop. apply sort_by_strongly_sorted; unfold older_first; intros *; lia. }
  pose proof (StronglySorted_app_1_elem_of _ _ _ _ _ Hss Hin Hdrop) as Hle.
  apply Is_true_true, Z.leb_le in Hle. done.
Qed.
End operations.

(** * What the task registry guarantees

    The invariant of the registry under any sequence of operations, deduplication,
    and the life cycle of a task. *)


Section theorems.
Context `{HashOrder}.

Definition id_room (r : TaskRegistry) : Prop := (0 ≤ id_counter r < u64_max)%Z.

(** One operation of a client. *)
Inductive task_step : TaskRegistry → TaskRegistry → Prop :=
| ts_create prefix key msg meta now r :
    id_room r → task_step r (create_internal prefix key msg meta now r).1
| ts_create_completed msg res now r : id_room r → task_step r (create_completed msg res now r).1
| ts_set_handle id h r : task_step r (set_handle id h r)
| ts_update_message id msg now r : task_step r (update_message id msg now r)
| ts_merge_meta id patch now r : task_step r (merge_meta id patch now r)
| ts_complete id res now r : task_step r (complete id res now r)
| ts_fail id err now r : task_step r (fail_task id err now r)
| ts_cancel id now r : task_step r (cancel id now r).1.1.

Record task_inv (r : TaskRegistry) : Prop := {
  ti_ids i e : entries r !! i = Some e →
    t_id (te_state e) = i ∧ ∃ p n, (0 ≤ n < id_counter r)%Z ∧ i = next_task_id p n;
  ti_keys i j e e' k : entries r !! i = Some e → entries r !! j = Some e' →
    running_with_key k e → running_with_key k e' → i = j;
  ti_terminal : size (terminal (entries r)) ≤ TERMINAL_TASK_CAP;
  ti_counter : (0 ≤ id_counter r)%Z
}.

(** An entry may keep or leave the running state, and keeps its id and key. *)
Definition entry_le (e e' : TaskEntry) : Prop :=
  t_id (te_state e') = t_id (te_state e) ∧ t_key (te_state e') = t_key (te_state e) ∧
  (t_status (te_state e') = Running → t_status (te_state e) = Running).

Lemma fresh_task_id r p : task_inv r → entries r !! next_task_id p (id_counter r) = None.
Proof.
  intros Hinv. apply eq_None_not_Some. intros [e He]. apply (ti_ids _ Hinv) in He as (_ & p' & n & Hn & Heq).
  apply dash_suffix_inj in Heq; lia.
Qed.

(** Pruning keeps everything but the bound, which it restores. *)
Lemma inv_pruned m n :
  (∀ i e, m !! i = Some e → t_id (te_state e) = i ∧ ∃ p k, (0 ≤ k < n)%Z ∧ i = next_task_id p k) →
  (∀ i j e e' k, m !! i = Some e → m !! j = Some e' → running_with_key k e → running_with_key k e' → i = j) →
  (0 ≤ n)%Z → task_inv {| entries := prune_terminal_tasks m; id_counter := n |}.
Proof.
  intros Hids Hkeys Hn. assert (∀ i e, prune_terminal_tasks m !! i = Some e → m !! i = Some e) as Hsub.
  { intros i e He. eapply lookup_weaken; [exact He|apply prune_subseteq]. }
  split; simpl; [eauto|eauto| |done]. rewrite terminal_prune_size. lia.
Qed.

(** Updating one entry in place. *)
Lemma with_entry_ids f id r :
  task_inv r → (∀ e, entry_le e (f e)) →
  (∀ i e, entries (with_entry f id r) !! i = Some e → t_id (te_state e) = i ∧
     ∃ p k, (0 ≤ k < id_counter r)%Z ∧ i = next_task_id p k) ∧
  (∀ i j e e' k, entries (with_entry f id r) !! i = Some e → entries (with_entry f id r) !! j = Some e' →
     running_with_key k e → running_with_key k e' → i = j).
Proof.
  intros Hinv Hf.
  assert (∀ i e, entries (with_entry f id r) !! i = Some e →
            ∃ e0, entries r !! i = Some e0 ∧ entry_le e0 e) as Hback.
  { intros i e. simpl. rewrite lookup_alter_Some. intros [(-> & e0 & He0 & ->)|[_ He]]; eauto.
    exists e. split; [done|]. by split_and!. }
  split.
  - intros i e (e0 & He0 & Hid & _)%Hback. rewrite Hid. by apply (ti_ids _ Hinv).
  - intros i j e e' k (e0 & He0 & _ & Hk0 & Hr0)%Hback (e1 & He1 & _ & Hk1 & Hr1)%Hback [Hr Hk] [Hr' Hk'].
    eapply (ti_keys _ Hinv i j e0 e1 k); try done; split; auto; congruence.
Qed.

Lemma inv_with_entry_pruned f id r :
  task_inv r → (∀ e, entry_le e (f e)) → task_inv (pruned (with_entry f id r)).
Proof.
  intros Hinv Hf. destruct (with_entry_ids f id r Hinv Hf) as [Hids Hkeys].
  apply inv_pruned; [done|done|]. apply Hinv.
Qed.

(** An update that keeps the status needs no pruning. *)
Lemma inv_with_entry f id r :
  task_inv r → (∀ e, entry_le e (f e) ∧ t_status (te_state (f e)) = t_status (te_state e)) →
  task_inv (with_entry f id r).
Proof.
  intros Hinv Hf. destruct (with_entry_ids f id r Hinv) as [Hids Hkeys]; [intros e; apply Hf|].
  split; [done|done| |apply Hinv]. etrans; [|apply (ti_terminal _ Hinv)].
  apply map_size_mono. intros i [e He]. unfold terminal in *.
  apply map_lookup_filter_Some in He as [He Ht]. simpl in He, Ht.
  apply lookup_alter_Some in He as [(<- & e0 & He0 & ->)|[_ He]].
  - exists e0. apply map_lookup_filter_Some. split; [done|]. unfold is_terminal in *. simpl.
    by rewrite (proj2 (Hf e0)) in Ht.
  - exists e. by apply map_lookup_filter_Some.
Qed.

Lemma inv_insert id e r :
  task_inv r → id_room r → t_id (te_state e) = id → (∃ p, id = next_task_id p (id_counter r)) →
  (∀ k, running_with_key k e → ∀ i e', entries r !! i = Some e' → ¬ running_with_key k e') →
  task_inv {| entries := prune_terminal_tasks (<[id := e]> (entries r)); id_counter := wrap64 (id_counter r + 1) |}.
Proof.
  intros Hinv [Hlo Hhi] Hid [p ->] Hnew. rewrite wrap64_small by (unfold in_u64; lia). apply inv_pruned; [| |lia].
  - intros i e0 [[<- <-]|[_ He0]]%lookup_insert_Some.
    + split; [done|]. exists p, (id_counter r). split; [lia|done].
    + destruct (ti_ids _ Hinv i e0 He0) as (Hi & p0 & n & Hn & ->). split; [done|]. exists p0, n. split; [lia|done].
  - intros i j e1 e2 k Hi Hj H1 H2.
    apply lookup_insert_Some in Hi as [[<- <-]|[_ Hi]]; apply lookup_insert_Some in Hj as [[<- <-]|[_ Hj]];
      [done|by destruct (Hnew k H1 j e2)|by destruct (Hnew k H2 i e1)|by eapply (ti_keys _ Hinv)].
Qed.

(** What the deduplication of [create_internal] found. *)
Lemma dedupe_found r key n i e :
  list_find (λ ie, running_with_key key ie.2) (hash_iter (entries r)) = Some (n, (i, e)) →
  entries r !! i = Some e ∧ running_with_key key e.
Proof.
  intros (Hin & Hrun & _)%list_find_Some. split; [|done].
  by apply elem_of_hash_iter, list_elem_of_lookup_2 with n.
Qed.

Lemma dedupe_none r key i e :
  list_find (λ ie, running_with_key key ie.2) (hash_iter (entries r)) = None →
  entries r !! i = Some e → ¬ running_with_key key e.
Proof.
  intros Hnone He. apply list_find_None in Hnone. rewrite Forall_forall in Hnone.
  apply (Hnone (i, e)). by apply elem_of_hash_iter.
Qed.

Lemma inv_create prefix key msg meta now r :
  task_inv r → id_room r → task_inv (create_internal prefix key msg meta now r).1.
Proof.
  intros Hinv Hroom. unfold create_internal.
  destruct (match key with Some _ => _ | None => _ end) as [id|] eqn:Hex; simpl; [done|].
  apply inv_insert; [done|done|done|by eexists|]. intros k [_ Hk] i e' He'. simpl in Hk. subst key.
  apply fmap_None in Hex. by eapply dedupe_none.
Qed.

Lemma inv_task_step r r' : task_inv r → task_step r r' → task_inv r'.
Proof.
  intros Hinv Hstep. destruct Hstep.
  - by apply inv_create.
  - apply inv_insert; [done|done|done|by eexists|]. by intros k [Hr _].
  - apply inv_with_entry; [done|]. intros e. by split_and!.
  - apply inv_with_entry; [done|]. intros e. by split_and!.
  - apply inv_with_entry; [done|]. intros e. by split_and!.
  - apply inv_with_entry_pruned; [done|]. intros e. by split_and!.
  - apply inv_with_entry_pruned; [done|]. intros e. by split_and!.
  - unfold cancel. destruct (entries r !! id); [|done]. case_bool_decide; [|done].
    apply inv_with_entry_pruned; [done|]. intros e. by split_and!.
Qed.

Lemma inv_registry_new : task_inv registry_new.
Proof.
  split; simpl; [| | |lia].
  - intros i e He. by rewrite lookup_empty in He.
  - intros i j e e' k He. by rewrite lookup_empty in He.
  - unfold terminal. rewrite map_filter_empty, map_size_empty. lia.
Qed.

Lemma task_inv_reachable r : rtc task_step registry_new r → task_inv r.
Proof.
  intros Hrtc. assert (task_inv registry_new) as Hinit by apply inv_registry_new.
  induction Hrtc as [|r1 r2 r3 Hs _ IH]; [done|]. apply IH. by eapply inv_task_step.
Qed.

(** C26: Under any sequence of operations, a task is stored under its own id, at
    most one running task has a given deduplication key, and at most 256 finished
    tasks are kept. *)
Theorem task_registry_invariant r (Hreach : rtc task_step registry_new r) :
  (∀ i e, entries r !! i = Some e → t_id (te_state e) = i) ∧
  (∀ i j e e' k, entries r !! i = Some e → entries r !! j = Some e' →
     running_with_key k e → running_with_key k e' → i = j) ∧
  size (terminal (entries r)) ≤ TERMINAL_TASK_CAP.
Proof.
  destruct (task_inv_reachable r Hreach) as [Hids Hkeys Hterm _]. split_and!; [|done|done].
  intros i e He. by apply Hids.
Qed.

(** Creating a task with a key either reports the running task that has the
    key and changes nothing, or makes a new running task under a fresh id, in which
    case no running task had the key. *)
Theorem create_with_key_dedupes prefix key msg now r
    (Hreach : rtc task_step registry_new r) (Hroom : id_room r) :
  let '(r', res) := create_with_key prefix (Some key) msg now r in
  match res with
  | Err id => r' = r ∧ ∃ e, entries r !! id = Some e ∧ running_with_key key e
  | Ok id => entries r !! id = None ∧
             (∀ i e, entries r !! i = Some e → ¬ running_with_key key e) ∧
             ∃ s, task_get id r' = Some s ∧ t_status s = Running ∧ t_key s = Some key ∧ t_message s = msg
  end.
Proof.
  pose proof (task_inv_reachable r Hreach) as Hinv. unfold create_with_key, create_internal.
  destruct (list_find _ _) as [[n [i e]]|] eqn:Hf; simpl.
  - apply dedupe_found in Hf as [He Hk]. split; [done|].
    assert (t_id (te_state e) = i) as -> by by apply (ti_ids _ Hinv). eauto.
  - split_and!.
    + by apply fresh_task_id.
    + intros i e He. by eapply dedupe_none.
    + unfold task_get. simpl. erewrite prune_running; [|apply lookup_insert_eq|done]. by eexists.
Qed.

(** A task without key is always created. *)
Theorem create_total prefix msg now r : ∃ r' id, create prefix msg now r = (r', Some id).
Proof. by do 2 eexists. Qed.

Lemma prune_small m : size (terminal m) ≤ TERMINAL_TASK_CAP → prune_terminal_tasks m = m.
Proof.
  intros Hs. rewrite prune_eq. by replace (size (terminal m) - TERMINAL_TASK_CAP) with 0 by lia.
Qed.

Lemma terminal_alter_size f id m : size (terminal (alter f id m)) ≤ S (size (terminal m)).
Proof.
  destruct (m !! id) as [e|] eqn:He; [|rewrite alter_id by congruence; lia].
  transitivity (size (<[id := e]> (terminal m))).
  - apply map_size_mono. intros i [e' [Hi Ht]%map_lookup_filter_Some].
    apply lookup_insert_is_Some'. apply lookup_alter_Some in Hi as [(<- & _)|[? Hi]]; [by left|]. right.
    exists e'. by apply map_lookup_filter_Some.
  - rewrite map_size_insert. destruct (terminal m !! id); unfold Datatypes.id; lia.
Qed.

(** With room for one more finished task, an update shows. *)
Lemma pruned_with_entry f id r e :
  entries r !! id = Some e → size (terminal (entries r)) < TERMINAL_TASK_CAP →
  entries (pruned (with_entry f id r)) = alter f id (entries r) ∧
  entries (pruned (with_entry f id r)) !! id = Some (f e).
Proof.
  intros He Hs. unfold pruned, with_entry. cbn [entries]. pose proof (terminal_alter_size f id (entries r)).
  rewrite prune_small by lia. split; [done|]. by rewrite lookup_alter_eq, He.
Qed.

(** [cancel] succeeds exactly on a running task, and hands back the handle to
    abort; a finished or unknown task is left alone. *)
Theorem cancel_only_running id now r :
  let '(r', did, aborted) := cancel id now r in
  match entries r !! id with
  | Some e =>
      if bool_decide (t_status (te_state e) = Running)
      then did = true ∧ aborted = te_handle e ∧
           (size (terminal (entries r)) < TERMINAL_TASK_CAP →
            t_status <$> task_get id r' = Some Cancelled ∧
            ∀ i, i ≠ id → entries r' !! i = entries r !! i)
      else did = false ∧ r' = r ∧ aborted = None
  | None => did = false ∧ r' = r ∧ aborted = None
  end.
Proof.
  unfold cancel. destruct (entries r !! id) as [e|] eqn:He; [|done].
  case_bool_decide as Hr; [|done]. split_and!; [done|done|]. intros Hroom. unfold task_get.
  edestruct (λ f, pruned_with_entry f id r e He Hroom) as [Hall Hid]. rewrite Hid. split; [done|].
  intros i Hne. by rewrite Hall, lookup_alter_ne.
Qed.

(** [complete] does not look at the status: when the result of a task arrives
    after its cancellation, the task is reported as completed, with the result. *)
Theorem completion_overwrites_cancellation id res now1 now2 r e
    (He : entries r !! id = Some e) (Hrun : t_status (te_state e) = Running)
    (Hroom : S (size (terminal (entries r))) < TERMINAL_TASK_CAP) :
  let '(r1, did, _) := cancel id now1 r in
  did = true ∧ t_status <$> task_get id r1 = Some Cancelled ∧
  ∃ s, task_get id (complete id res now2 r1) = Some s ∧ t_status s = Completed ∧ t_result s = Some res.
Proof.
  unfold cancel. rewrite He, bool_decide_true by done. split; [done|].
  edestruct (λ f, pruned_with_entry f id r e He ltac:(lia)) as [Hall Hid].
  unfold task_get at 1. rewrite Hid. split; [done|].
  edestruct (λ f, pruned_with_entry f id _ _ Hid) as [_ Hid2].
  { rewrite Hall. eapply Nat.le_lt_trans; [apply terminal_alter_size|exact Hroom]. }
  unfold task_get, complete. rewrite Hid2. by eexists.
Qed.
End theorems.

(** ** A concrete registry *)

Definition at_time (n : Z) : stamp := {| st_now := n; st_iso := "1970-01-01T00:00:00Z" |}.

Definition sample_tasks : TaskRegistry :=
  (create_with_key (H := canonical_order) "job" (Some "k") "Queued" (at_time 1) registry_new).1.

Lemma sample_tasks_reachable : rtc (task_step (H := canonical_order)) registry_new sample_tasks.
Proof. eapply rtc_once, ts_create. split; vm_compute; [discriminate|reflexivity]. Qed.

Lemma task_registry_invariant_witness :
  size (terminal (entries sample_tasks)) ≤ TERMINAL_TASK_CAP.
Proof.
  exact (proj2 (proj2 (task_registry_invariant (H := canonical_order) sample_tasks sample_tasks_reachable))).
Defined.

Lemma create_with_key_dedupes_witness :
  let '(r', res) := create_with_key (H := canonical_order) "job" (Some "k") "Again" (at_time 2) sample_tasks in
  res = Err "job-1" ∧ r' = sample_tasks.
Proof.
  pose proof (create_with_key_dedupes (H := canonical_order) "job" "k" "Again" (at_time 2) sample_tasks
                sample_tasks_reachable) as Hd.
  assert ((create_with_key (H := canonical_order) "job" (Some "k") "Again" (at_time 2) sample_tasks).2
          = Err "job-1") as Hres by (vm_compute; reflexivity).
  destruct (create_with_key _ _ _ _ _) as [r' res]. simpl in Hres. subst res. split; [reflexivity|].
  apply Hd. split; vm_compute; [discriminate|reflexivity].
Defined.

Lemma completion_overwrites_cancellation_witness :
  ∃ s, task_get "job-1" (complete (H := canonical_order) "job-1" Null (at_time 4)
         (cancel (H := canonical_order) "job-1" (at_time 3) sample_tasks).1.1) = Some s ∧
       t_status s = Completed ∧ t_result s = Some Null.
Proof.
  pose proof (completion_overwrites_cancellation (H := canonical_order) "job-1" Null (at_time 3) (at_time 4)
    sample_tasks {| te_state := new_state "job-1" Running "Queued" None None (Some "k") (at_time 1);
                    te_handle := None |}) as Hc.
  destruct (cancel _ _ _) as [[r1 did] h] eqn:E. simpl.
  apply Hc; [vm_compute; reflexivity|reflexivity|]. vm_compute. lia.
Defined.
