(* ===== verification/Queue.v ===== *)
(** * Bounded priority queues with per-tenant limits

    The scheduling core that the prewarm queue and the route queue of
    src/router/mod.rs share: a queue ordered by priority and age, a table of
    running tasks and a count of them per tenant.  [QueueItem] is what the two task
    types have in common. *)

From stdpp Require Import base gmap strings list numbers sorting fin_maps fin_map_dom relations.
From S2P Require Import Prelude.

Class QueueItem (T : Type) : Type := {
  qi_id : T → string;
  qi_tenant : T → string;
  qi_priority : T → Z;
  qi_enqueued : T → Z
}.

Record TaskQueue (T A : Type) : Type := {
  q_queued : list T;
  q_active : gmap string A;
  q_tenant_active : gmap string nat
}.
Arguments q_queued {T A} _.
Arguments q_active {T A} _.
Arguments q_tenant_active {T A} _.

Definition queue_empty {T A} : TaskQueue T A :=
  {| q_queued := []; q_active := ∅; q_tenant_active := ∅ |}.

Section queue.
Context {T A : Type} `{QueueItem T} (start : Z → T → A) (max_active max_tenant : Z).
Implicit Types (q : TaskQueue T A) (t : T).

(** ** Operations *)

(** [rhs.priority.cmp(&lhs.priority).then_with(|| lhs.enqueued_at.cmp(&rhs.enqueued_at))]
    is not [Greater]. *)
Definition not_after (x y : T) : bool :=
  (qi_priority y <? qi_priority x)%Z ||
  ((qi_priority x =? qi_priority y)%Z && (qi_enqueued x <=? qi_enqueued y)%Z).

(** [queue.queued.push(t); queue.queued.sort_by(..)] *)
Definition push t q : TaskQueue T A :=
  {| q_queued := sort_by not_after (q_queued q ++ [t]);
     q_active := q_active q; q_tenant_active := q_tenant_active q |}.

Definition tenant_count q (tenant : string) : nat := default 0 (q_tenant_active q !! tenant).

Definition eligible q t : Prop := (Z.of_nat (tenant_count q (qi_tenant t)) < max_tenant)%Z.

#[export] Instance eligible_dec q t : Decision (eligible q t).
Proof. unfold eligible. apply _. Defined.

(** One turn of the driving loop, under the queue's mutex: the first eligible task
    leaves the queue and becomes active. *)
Definition take_next (now : Z) q : option (T * TaskQueue T A) :=
  if (max_active <=? Z.of_nat (size (q_active q)))%Z then None
  else
    match list_find (eligible q) (q_queued q) with
    | Some (i, t) =>
        Some (t, {| q_queued := delete i (q_queued q);
                    q_active := <[qi_id t := start now t]> (q_active q);
                    q_tenant_active := <[qi_tenant t := S (tenant_count q (qi_tenant t))]> (q_tenant_active q) |})
    | None => None
    end.

(** The driving loop: every turn takes a task out of the queue, so its length is
    enough fuel.  The result is the tasks that were started, in order. *)
Fixpoint drive (fuel : nat) (clock : nat → Z) q : list T * TaskQueue T A :=
  match fuel with
  | O => ([], q)
  | S fuel =>
      match take_next (clock fuel) q with
      | Some (t, q') => let '(ts, q'') := drive fuel clock q' in (t :: ts, q'')
      | None => ([], q)
      end
  end.

(** What a task does to the queue when it ends. *)
Definition finish t q : TaskQueue T A :=
  {| q_queued := q_queued q;
     q_active := delete (qi_id t) (q_active q);
     q_tenant_active :=
       match q_tenant_active q !! qi_tenant t with
       | Some count =>
           if bool_decide (count - 1 = 0) then delete (qi_tenant t) (q_tenant_active q)
           else <[qi_tenant t := count - 1]> (q_tenant_active q)
       | None => q_tenant_active q
       end |}.

(** ** Order *)

Lemma not_after_total x y : not_after x y = false → not_after y x = true.
Proof. unfold not_after. lia. Qed.

Lemma not_after_trans x y z : not_after x y = true → not_after y z = true → not_after x z = true.
Proof. unfold not_after. lia. Qed.

Lemma push_sorted t q : StronglySorted not_after (q_queued (push t q)).
Proof. apply sort_by_strongly_sorted; [apply not_after_total|apply not_after_trans]. Qed.

Lemma take_next_Some now q t q' :
  take_next now q = Some (t, q') →
  ∃ l1 l2, q_queued q = l1 ++ t :: l2 ∧ q_queued q' = l1 ++ l2 ∧
    Forall (λ x, ¬ eligible q x) l1 ∧ eligible q t ∧ (Z.of_nat (size (q_active q)) < max_active)%Z ∧
    q_active q' = <[qi_id t := start now t]> (q_active q) ∧
    q_tenant_active q' = <[qi_tenant t := S (tenant_count q (qi_tenant t))]> (q_tenant_active q).
Proof.
  unfold take_next. destruct (Z.leb_spec max_active (Z.of_nat (size (q_active q)))); [done|].
  destruct (list_find (eligible q) (q_queued q)) as [[i t']|] eqn:Hf; [|done]. intros [= -> <-].
  apply list_find_Some in Hf as (Hi & Hel & Hmin).
  exists (take i (q_queued q)), (drop (S i) (q_queued q)). split_and!; try done.
  - by rewrite take_drop_middle.
  - apply delete_take_drop.
  - apply Forall_forall. intros x (j & Hj & Hlt)%elem_of_take. by eapply Hmin.
Qed.

Lemma take_next_None now q :
  take_next now q = None →
  (max_active ≤ Z.of_nat (size (q_active q)))%Z ∨ Forall (λ x, ¬ eligible q x) (q_queued q).
Proof.
  unfold take_next. destruct (Z.leb_spec max_active (Z.of_nat (size (q_active q)))); [by left|].
  destruct (list_find _ _) as [[i t]|] eqn:Hf; [done|]. intros _. right. by apply list_find_None in Hf.
Qed.

(** ** The tasks that really run

    The state together with the spawned tasks that have not ended. *)

Record QueueSt : Type := { qs_queue : TaskQueue T A; qs_running : list T }.

Inductive queue_step : QueueSt → QueueSt → Prop :=
| qs_push t q run :
    qi_id t ∉ qi_id <$> q_queued q ++ run →
    queue_step {| qs_queue := q; qs_running := run |} {| qs_queue := push t q; qs_running := run |}
| qs_take now t q q' run :
    take_next now q = Some (t, q') →
    queue_step {| qs_queue := q; qs_running := run |} {| qs_queue := q'; qs_running := t :: run |}
| qs_finish t q run1 run2 :
    queue_step {| qs_queue := q; qs_running := run1 ++ t :: run2 |}
               {| qs_queue := finish t q; qs_running := run1 ++ run2 |}.

Definition count_tenant (tenant : string) (run : list T) : nat :=
  length (filter (λ t, qi_tenant t = tenant) run).

Record queue_inv (s : QueueSt) : Prop := {
  qv_sorted : StronglySorted not_after (q_queued (qs_queue s));
  qv_ids : NoDup (qi_id <$> q_queued (qs_queue s) ++ qs_running s);
  qv_active i : is_Some (q_active (qs_queue s) !! i) ↔ i ∈ qi_id <$> qs_running s;
  qv_count tn : tenant_count (qs_queue s) tn = count_tenant tn (qs_running s);
  qv_positive tn n : q_tenant_active (qs_queue s) !! tn = Some n → n ≠ 0;
  qv_max_active : (Z.of_nat (length (qs_running s)) ≤ max_active)%Z;
  qv_max_tenant tn : (Z.of_nat (count_tenant tn (qs_running s)) ≤ max_tenant)%Z
}.

Lemma qv_active_size s : queue_inv s → size (q_active (qs_queue s)) = length (qs_running s).
Proof.
  intros Hinv. rewrite <-size_dom, <-(length_fmap qi_id (qs_running s)).
  rewrite <-(size_list_to_set (C := gset string) (qi_id <$> qs_running s)).
  - apply set_size_proper. intros i. rewrite elem_of_dom, elem_of_list_to_set. apply Hinv.
  - pose proof (qv_ids _ Hinv) as Hnd. rewrite fmap_app in Hnd. by apply NoDup_app in Hnd as (_ & _ & ?).
Qed.

Lemma inv_push t q run :
  queue_inv {| qs_queue := q; qs_running := run |} → qi_id t ∉ qi_id <$> q_queued q ++ run →
  queue_inv {| qs_queue := push t q; qs_running := run |}.
Proof.
  intros [Hs Hids Ha Hc Hp Hm Hmt] Hnew. split; simpl in *; try done.
  - apply push_sorted.
  - rewrite sort_by_perm. rewrite (Permutation_app_comm (q_queued q)). simpl. by apply NoDup_cons.
Qed.

Lemma tenant_count_insert q q' (tn : string) n :
  q_tenant_active q' = <[tn := n]> (q_tenant_active q) →
  ∀ t' : string, tenant_count q' t' = if decide (tn = t') then n else tenant_count q t'.
Proof.
  intros Heq t'. unfold tenant_count. rewrite Heq. case_decide as Ht; subst.
  - by rewrite lookup_insert_eq.
  - by rewrite lookup_insert_ne.
Qed.

Lemma inv_take now t q q' run :
  queue_inv {| qs_queue := q; qs_running := run |} → take_next now q = Some (t, q') →
  queue_inv {| qs_queue := q'; qs_running := t :: run |}.
Proof.
  intros Hinv (l1 & l2 & Hq & Hq' & _ & Hel & Hroom & Hact & Hten)%take_next_Some.
  pose proof (qv_active_size _ Hinv) as Hsize. destruct Hinv as [Hs Hids Ha Hc Hp Hm Hmt]. simpl in *.
  assert (∀ t' : string, count_tenant t' (t :: run) = if decide (qi_tenant t = t') then S (count_tenant t' run)
            else count_tenant t' run) as Hcount.
  { intros t'. unfold count_tenant. rewrite filter_cons. by case_decide. }
  split; simpl.
  - rewrite Hq'. rewrite Hq in Hs. apply StronglySorted_app in Hs as (H1 & H2 & [H3 H4]%StronglySorted_cons).
    apply StronglySorted_app. split_and!; try done. set_solver.
  - rewrite Hq'. rewrite Hq in Hids.
    assert ((l1 ++ l2) ++ t :: run ≡ₚ (l1 ++ t :: l2) ++ run) as Hperm.
    { rewrite <-!Permutation_middle. simpl. done. }
    by rewrite Hperm.
  - intros i. rewrite Hact, lookup_insert_is_Some', Ha, elem_of_cons. naive_solver.
  - intros t'. rewrite (tenant_count_insert q q' _ _ Hten), Hcount. case_decide; subst; by rewrite Hc.
  - intros t' n. rewrite Hten. intros [[_ <-]|[_ ?]]%lookup_insert_Some; [lia|]. by eapply Hp.
  - lia.
  - intros t'. rewrite Hcount. case_decide as Ht; [|done]. subst t'. unfold eligible in Hel. rewrite Hc in Hel. lia.
Qed.

Lemma inv_finish t q run1 run2 :
  queue_inv {| qs_queue := q; qs_running := run1 ++ t :: run2 |} →
  queue_inv {| qs_queue := finish t q; qs_running := run1 ++ run2 |}.
Proof using Type.
  clear start. intros [Hs Hids Ha Hc Hp Hm Hmt]. simpl in *.
  assert (NoDup (qi_id <$> t :: q_queued q ++ run1 ++ run2)) as Hnd.
  { assert (t :: q_queued q ++ run1 ++ run2 ≡ₚ q_queued q ++ run1 ++ t :: run2) as Hperm.
    { by rewrite <-!Permutation_middle. }
    by rewrite Hperm. }
  simpl in Hnd. apply NoDup_cons in Hnd as [Hfresh Hnd].
  assert (∀ t' : string, count_tenant t' (run1 ++ t :: run2) =
            (if decide (qi_tenant t = t') then 1 else 0) + count_tenant t' (run1 ++ run2)) as Hcount.
  { intros t'. unfold count_tenant. rewrite !filter_app, filter_cons, !length_app. case_decide; simpl; lia. }
  assert (∀ t' : string, tenant_count (finish t q) t' = count_tenant t' (run1 ++ run2)) as Htc.
  { intros t'. pose proof (Hc t') as Ht'. rewrite Hcount in Ht'.
    unfold finish, tenant_count in *. simpl. destruct (q_tenant_active q !! qi_tenant t) as [n|] eqn:En.
    - case_bool_decide as Hz; (destruct (decide (qi_tenant t = t')) as [<-|Hne];
        [rewrite ?lookup_delete_eq, ?lookup_insert_eq|rewrite ?lookup_delete_ne, ?lookup_insert_ne by done]);
        rewrite ?En in Ht'; simpl in *; lia.
    - destruct (decide (qi_tenant t = t')) as [<-|Hne]; [rewrite En in Ht'; simpl in Ht'; lia|lia]. }
  split; simpl; try done.
  - intros i. rewrite lookup_delete_is_Some, Ha. rewrite !fmap_app, !elem_of_app, fmap_cons, elem_of_cons.
    rewrite fmap_app, elem_of_app, fmap_app, elem_of_app in Hfresh. naive_solver.
  - intros t' n. destruct (q_tenant_active q !! qi_tenant t) as [c|] eqn:En; [|by eapply Hp].
    case_bool_decide.
    + intros [_ ?]%lookup_delete_Some. by eapply Hp.
    + intros [[_ <-]|[_ ?]]%lookup_insert_Some; [done|by eapply Hp].
  - rewrite length_app in *. simpl in Hm. lia.
  - intros t'. specialize (Hmt t'). rewrite Hcount in Hmt. case_decide; lia.
Qed.

Lemma queue_inv_step s s' : queue_inv s → queue_step s s' → queue_inv s'.
Proof. intros Hinv Hstep. destruct Hstep; eauto using inv_push, inv_take, inv_finish. Qed.

Lemma queue_inv_steps s s' : rtc queue_step s s' → queue_inv s → queue_inv s'.
Proof. induction 1; eauto using queue_inv_step. Qed.

Lemma queue_inv_empty : (0 ≤ max_active)%Z → (0 ≤ max_tenant)%Z →
  queue_inv {| qs_queue := queue_empty; qs_running := [] |}.
Proof.
  intros ??. split; simpl.
  - constructor.
  - constructor.
  - intros i. rewrite lookup_empty. split; [by intros [? ?]|set_solver].
  - done.
  - intros tn n. by rewrite lookup_empty.
  - lia.
  - intros tn. unfold count_tenant. simpl. lia.
Qed.

(** ** The driving loop *)

Lemma drive_steps fuel clock q run :
  rtc queue_step {| qs_queue := q; qs_running := run |}
      {| qs_queue := (drive fuel clock q).2; qs_running := reverse (drive fuel clock q).1 ++ run |}.
Proof.
  revert q run; induction fuel as [|fuel IH]; intros q run; simpl; [done|].
  destruct (take_next (clock fuel) q) as [[t q']|] eqn:Ht; [|done].
  destruct (drive fuel clock q') as [ts q''] eqn:Hd. simpl. eapply rtc_l; [by eapply qs_take|].
  specialize (IH q' (t :: run)). rewrite Hd in IH. simpl in IH.
  by rewrite reverse_cons, <-app_assoc.
Qed.

Lemma drive_done fuel clock q now :
  length (q_queued q) ≤ fuel → take_next now (drive fuel clock q).2 = None.
Proof.
  revert q; induction fuel as [|fuel IH]; intros q Hlen; simpl.
  - destruct (q_queued q) eqn:E; [|simpl in Hlen; lia]. unfold take_next. rewrite E. by case_match.
  - destruct (take_next (clock fuel) q) as [[t q']|] eqn:Ht.
    + destruct (drive fuel clock q') as [ts q''] eqn:Hd. simpl. replace q'' with (drive fuel clock q').2 by by rewrite Hd.
      apply IH. apply take_next_Some in Ht as (l1 & l2 & Hq & Hq' & _). rewrite Hq in Hlen. rewrite Hq'.
      rewrite length_app in *. simpl in Hlen. lia.
    + simpl. revert Ht. unfold take_next. repeat case_match; done.
Qed.
End queue.
