(* ===== verification/TaskQueues.v ===== *)
(** * The router's prewarm and route queues (src/router/mod.rs)

    The two task queues of the router, on the scheduling core of [Queue]: the
    records of queued and active tasks, enqueueing, driving, finishing and
    cancelling, with the task registry for the route queue. *)

From Stdlib Require Import Ascii.
From stdpp Require Import base gmap strings list numbers sorting fin_maps relations.
From S2P Require Import Prelude RustStr Json ToolError Protocol Runtime RouterConfig Registry.
From S2P Require Import Router Tasks Queue.

Open Scope ida_scope.

(** ** The prewarm queue *)

Record QueuedPrewarmTask : Type := {
  qp_task_id : string;
  qp_path : string;
  qp_tenant_id : string;
  qp_priority : Z;
  qp_keep_warm : bool;
  qp_enqueued_at : Z
}.

Record ActivePrewarmTask : Type := {
  ap_task_id : string;
  ap_path : string;
  ap_tenant_id : string;
  ap_priority : Z;
  ap_keep_warm : bool;
  ap_started_at : Z
}.

#[export] Instance prewarm_item : QueueItem QueuedPrewarmTask :=
  {| qi_id := qp_task_id; qi_tenant := qp_tenant_id; qi_priority := qp_priority; qi_enqueued := qp_enqueued_at |}.

Definition start_prewarm (now : Z) (t : QueuedPrewarmTask) : ActivePrewarmTask :=
  {| ap_task_id := qp_task_id t; ap_path := qp_path t; ap_tenant_id := qp_tenant_id t;
     ap_priority := qp_priority t; ap_keep_warm := qp_keep_warm t; ap_started_at := now |}.

Record PrewarmQueueState : Type := {
  pq_queue : TaskQueue QueuedPrewarmTask ActivePrewarmTask;
  pq_recent : list Value;
  pq_next_task_id : Z
}.

Definition prewarm_queue_default : PrewarmQueueState :=
  {| pq_queue := queue_empty; pq_recent := []; pq_next_task_id := 0 |}.

Definition prewarm_id (n : Z) : string := "prewarm-" +:+ fmt_dec n.

Section prewarm.
Context (cfg : RouterConfig).

(** [enqueue_prewarm] up to the call of [drive_prewarm_queue]. *)
Definition enqueue_prewarm (path : string) (priority : Z) (keep_warm : bool) (tenant : option string)
    (now : Z) (s : PrewarmQueueState) : PrewarmQueueState * result Value ToolError :=
  let tenant_id := default "default" tenant in
  if (max_queued_prewarms cfg <=? Z.of_nat (length (q_queued (pq_queue s))))%Z then (s, Err Busy)
  else
    let task_id := prewarm_id (pq_next_task_id s) in
    let t := {| qp_task_id := task_id; qp_path := path; qp_tenant_id := tenant_id; qp_priority := priority;
                qp_keep_warm := keep_warm; qp_enqueued_at := now |} in
    let q := push t (pq_queue s) in
    ({| pq_queue := q; pq_recent := pq_recent s; pq_next_task_id := wrap64 (pq_next_task_id s + 1) |},
     Ok (obj [("task_id", VString task_id); ("status", VString "queued"); ("path", VString path);
              ("tenant_id", VString tenant_id); ("priority", vz priority); ("keep_warm", Bool keep_warm);
              ("queued", vnat (length (q_queued q)))])).

Definition set_prewarm_queue (q : TaskQueue QueuedPrewarmTask ActivePrewarmTask) (s : PrewarmQueueState) :
    PrewarmQueueState :=
  {| pq_queue := q; pq_recent := pq_recent s; pq_next_task_id := pq_next_task_id s |}.

(** The loop of [drive_prewarm_queue]: the tasks it spawns and the queue after. *)
Definition drive_prewarm_queue (clock : nat → Z) (s : PrewarmQueueState) :
    list QueuedPrewarmTask * PrewarmQueueState :=
  let '(ts, q) := drive start_prewarm (max_active_prewarms cfg) (max_prewarms_per_tenant cfg)
                    (length (q_queued (pq_queue s))) clock (pq_queue s) in
  (ts, set_prewarm_queue q s).

(** The whole of [enqueue_prewarm]: the answer, and the tasks that start. *)
Definition submit_prewarm (path : string) (priority : Z) (keep_warm : bool) (tenant : option string)
    (now : Z) (clock : nat → Z) (s : PrewarmQueueState) :
    PrewarmQueueState * list QueuedPrewarmTask * result Value ToolError :=
  match enqueue_prewarm path priority keep_warm tenant now s with
  | (s', Ok v) => let '(ts, s'') := drive_prewarm_queue clock s' in (s'', ts, Ok v)
  | (s', Err e) => (s', [], Err e)
  end.

Definition prewarm_summary (t : QueuedPrewarmTask) (res : result Value ToolError) : Value :=
  match res with
  | Ok v => obj [("task_id", VString (qp_task_id t)); ("path", VString (qp_path t));
                 ("tenant_id", VString (qp_tenant_id t)); ("status", VString "completed"); ("result", v)]
  | Err e => obj [("task_id", VString (qp_task_id t)); ("path", VString (qp_path t));
                  ("tenant_id", VString (qp_tenant_id t)); ("status", VString "failed");
                  ("error", VString (error_to_string e))]
  end.

(** What a prewarm task does to the queue when it ends. *)
Definition finish_prewarm (t : QueuedPrewarmTask) (res : result Value ToolError) (s : PrewarmQueueState) :
    PrewarmQueueState :=
  let recent := pq_recent s ++ [prewarm_summary t res] in
  {| pq_queue := finish t (pq_queue s);
     pq_recent := if bool_decide (64 < length recent) then drop (length recent - 64) recent else recent;
     pq_next_task_id := pq_next_task_id s |}.
End prewarm.

(** ** The route queue *)

Record QueuedRouteTask : Type := {
  qr_task_id : string;
  qr_path : string;
  qr_method : string;
  qr_params : Value;
  qr_tenant_id : string;
  qr_priority : Z;
  qr_enqueued_at : Z
}.

Record ActiveRouteTask : Type := {
  ar_task_id : string;
  ar_path : string;
  ar_method : string;
  ar_tenant_id : string;
  ar_priority : Z;
  ar_started_at : Z
}.

#[export] Instance route_item : QueueItem QueuedRouteTask :=
  {| qi_id := qr_task_id; qi_tenant := qr_tenant_id; qi_priority := qr_priority; qi_enqueued := qr_enqueued_at |}.

Definition start_route (now : Z) (t : QueuedRouteTask) : ActiveRouteTask :=
  {| ar_task_id := qr_task_id t; ar_path := qr_path t; ar_method := qr_method t;
     ar_tenant_id := qr_tenant_id t; ar_priority := qr_priority t; ar_started_at := now |}.

Definition RouteQueueState : Type := TaskQueue QueuedRouteTask ActiveRouteTask.

(** The route queue with the task registry it reports to. *)
Record RouteTasks : Type := { rq_queue : RouteQueueState; rq_registry : TaskRegistry }.

Section route.
Context `{HashOrder} (cfg : RouterConfig).

(** [enqueue_route_task] up to the call of [drive_route_queue]. *)
Definition enqueue_route_task (path method : string) (params : Value) (tenant : option string)
    (priority : Z) (dedupe_key : option string) (now : stamp) (s : RouteTasks) :
    RouteTasks * result Value ToolError :=
  let tenant_id := normalize_tenant tenant in
  let q := rq_queue s in
  if (max_queued_tasks cfg <=? Z.of_nat (length (q_queued q)))%Z then (s, Err Busy)
  else if (max_tasks_per_tenant cfg <=? Z.of_nat (tenant_count q tenant_id))%Z then (s, Err Busy)
  else
    let '(reg, created) := create_with_key "job" dedupe_key ("Queued " +:+ method) now (rq_registry s) in
    let task_id := match created with Ok id => id | Err existing => existing end in
    let reg := merge_meta task_id (obj [("tenant_id", VString tenant_id); ("path", VString path);
                                        ("method", VString method); ("priority", vz priority);
                                        ("remote", Bool false)]) now reg in
    let q :=
      if bool_decide (is_Some (task_get task_id reg)) && negb (bool_decide (is_Some (q_active q !! task_id)))
      then push {| qr_task_id := task_id; qr_path := path; qr_method := method; qr_params := params;
                   qr_tenant_id := tenant_id; qr_priority := priority; qr_enqueued_at := st_now now |} q
      else q in
    ({| rq_queue := q; rq_registry := reg |},
     Ok (obj [("task_id", VString task_id); ("status", VString "queued"); ("path", VString path);
              ("method", VString method); ("tenant_id", VString tenant_id); ("priority", vz priority)])).

(** The loop of [drive_route_queue]; each task it starts is marked as running. *)
Definition drive_route_queue (clock : nat → Z) (now : stamp) (s : RouteTasks) :
    list QueuedRouteTask * RouteTasks :=
  let '(ts, q) := drive start_route (max_active_tasks cfg) (max_tasks_per_tenant cfg)
                    (length (q_queued (rq_queue s))) clock (rq_queue s) in
  (ts, {| rq_queue := q;
          rq_registry := foldl (λ reg t, update_message (qr_task_id t) ("Running " +:+ qr_method t) now reg)
                               (rq_registry s) ts |}).

(** The whole of [enqueue_route_task]: the answer, and the tasks that start. *)
Definition submit_route_task (path method : string) (params : Value) (tenant : option string) (priority : Z)
    (dedupe_key : option string) (now : stamp) (clock : nat → Z) (s : RouteTasks) :
    RouteTasks * list QueuedRouteTask * result Value ToolError :=
  match enqueue_route_task path method params tenant priority dedupe_key now s with
  | (s', Ok v) => let '(ts, s'') := drive_route_queue clock now s' in (s'', ts, Ok v)
  | (s', Err e) => (s', [], Err e)
  end.

(** The work of a route task: the [?] operators return before the release. *)
Definition run_route_task (env : Env) (t : QueuedRouteTask) : M (result Value ToolError) :=
  opened <- ensure_worker_with_ref_idb cfg env (qr_path t) None (Some (qr_tenant_id t)) ;;
  match opened with
  | Err e => ret (Err e)
  | Ok (h, tok) =>
      res <- call_worker cfg env (Some h) (qr_method t) (qr_params t) ;;
      match res with
      | Err e => ret (Err e)
      | Ok v => release_token tok ;;; ret (Ok v)
      end
  end.

(** What a route task does to the queue and the registry when it ends. *)
Definition finish_route_task (t : QueuedRouteTask) (res : result Value ToolError) (now : stamp)
    (s : RouteTasks) : RouteTasks :=
  {| rq_queue := finish t (rq_queue s);
     rq_registry :=
       match res with
       | Ok v => complete (qr_task_id t) v now (rq_registry s)
       | Err e => fail_task (qr_task_id t) (error_to_string e) now (rq_registry s)
       end |}.

Definition cancel_task (task_id : string) (now : stamp) (s : RouteTasks) : RouteTasks * bool :=
  let '(reg, did, _) := cancel task_id now (rq_registry s) in
  if did then ({| rq_queue := rq_queue s; rq_registry := reg |}, true)
  else
    match list_find (λ t, qr_task_id t = task_id) (q_queued (rq_queue s)) with
    | Some (i, _) =>
        ({| rq_queue := {| q_queued := delete i (q_queued (rq_queue s)); q_active := q_active (rq_queue s);
                           q_tenant_active := q_tenant_active (rq_queue s) |};
            rq_registry := fail_task task_id "Cancelled before execution" now reg |}, true)
    | None => ({| rq_queue := rq_queue s; rq_registry := reg |}, false)
    end.
End route.

(** ** Task states as JSON *)

Definition status_name (st : TaskStatus) : string :=
  match st with
  | Running => "running" | Completed => "completed" | Failed => "failed" | Cancelled => "cancelled"
  end.

(** Copy a field of the result to the top level, when it has the expected type. *)
Definition lift_field (k : string) (v : option Value) (o : list (string * Value)) : list (string * Value) :=
  match v with Some v => obj_insert k v o | None => o end.

Definition task_state_json (s : TaskState) : Value :=
  let base := foldl (λ m kv, obj_insert kv.1 kv.2 m) []
    [("task_id", VString (t_id s)); ("status", VString (status_name (t_status s)));
     ("message", VString (t_message s)); ("created_at", VString (t_created_at_iso s));
     ("updated_at", VString (t_updated_at_iso s)); ("meta", opt_value (t_meta s));
     ("result", opt_value (t_result s))] in
  match t_result s with
  | None => Object base
  | Some result =>
      Object (lift_field "remote_task_id" (VString <$> (get "remote_task_id" result ≫= as_str))
               (lift_field "node" (VString <$> (get "node" result ≫= as_str))
                 (lift_field "remote" (Bool <$> (get "remote" result ≫= as_bool)) base)))
  end.
