(* ===== verification/QueueTheorems.v ===== *)
(** * What the task queues guarantee

    Scheduling order, limits and progress of the prewarm and route queues, and how
    deduplication and cancellation interact with a queued task. *)

From Stdlib Require Import Ascii.
From stdpp Require Import base gmap strings list numbers sorting fin_maps relations.
From S2P Require Import Prelude RustStr Json ToolError Protocol Runtime RouterConfig Registry.
From S2P Require Import Router Tasks Queue TaskQueues WarmPool.

Open Scope ida_scope.

(** ** The prewarm queue *)

Section prewarm_theorems.
Context (cfg : RouterConfig).

(** The queue with the spawned tasks that have not ended. *)
Record PrewarmSt : Type := { ps_state : PrewarmQueueState; ps_running : list QueuedPrewarmTask }.

Definition prewarm_room (s : PrewarmQueueState) : Prop := (0 ≤ pq_next_task_id s < u64_max)%Z.

Inductive prewarm_step : PrewarmSt → PrewarmSt → Prop :=
| pw_enqueue path priority keep tenant now s run :
    prewarm_room s →
    prewarm_step {| ps_state := s; ps_running := run |}
                 {| ps_state := (enqueue_prewarm cfg path priority keep tenant now s).1; ps_running := run |}
| pw_drive clock s run :
    prewarm_step {| ps_state := s; ps_running := run |}
                 {| ps_state := (drive_prewarm_queue cfg clock s).2;
                    ps_running := reverse (drive_prewarm_queue cfg clock s).1 ++ run |}
| pw_finish t res s run1 run2 :
    prewarm_step {| ps_state := s; ps_running := run1 ++ t :: run2 |}
                 {| ps_state := finish_prewarm t res s; ps_running := run1 ++ run2 |}.

Definition prewarm_init : PrewarmSt := {| ps_state := prewarm_queue_default; ps_running := [] |}.

Record prewarm_inv (s : PrewarmSt) : Prop := {
  pi_queue : queue_inv (max_active_prewarms cfg) (max_prewarms_per_tenant cfg)
    {| qs_queue := pq_queue (ps_state s); qs_running := ps_running s |};
  pi_ids i : i ∈ qi_id <$> q_queued (pq_queue (ps_state s)) ++ ps_running s →
    ∃ n, (0 ≤ n < pq_next_task_id (ps_state s))%Z ∧ i = prewarm_id n;
  pi_queued : (Z.of_nat (length (q_queued (pq_queue (ps_state s)))) ≤ max_queued_prewarms cfg)%Z;
  pi_recent : length (pq_recent (ps_state s)) ≤ 64
}.

Lemma prewarm_id_inj m n : (0 ≤ m)%Z → (0 ≤ n)%Z → prewarm_id m = prewarm_id n → m = n.
Proof.
  intros Hm Hn Heq%append_inj. eapply fmt_radix_inj; [| | |exact Heq]; lia.
Qed.

Lemma inv_enqueue_prewarm path priority keep tenant now s run :
  prewarm_inv {| ps_state := s; ps_running := run |} → prewarm_room s →
  prewarm_inv {| ps_state := (enqueue_prewarm cfg path priority keep tenant now s).1; ps_running := run |}.
Proof.
  intros Hinv [Hlo Hhi]. unfold enqueue_prewarm.
  destruct (Z.leb_spec (max_queued_prewarms cfg) (Z.of_nat (length (q_queued (pq_queue s))))); [done|].
  destruct Hinv as [Hq Hids Hlen Hrec]. set (t := Build_QueuedPrewarmTask _ _ _ _ _ _). simpl in *.
  assert (qi_id t ∉ qi_id <$> q_queued (pq_queue s) ++ run) as Hfresh.
  { intros (n & Hn & Heq)%Hids. apply prewarm_id_inj in Heq; lia. }
  rewrite wrap64_small by (unfold in_u64; lia). split; simpl.
  - by apply inv_push.
  - intros i. rewrite sort_by_perm. rewrite (Permutation_app_comm (q_queued (pq_queue s))). simpl.
    intros [->|(n & Hn & ->)%Hids]%elem_of_cons; eexists; (split; [|reflexivity]); lia.
  - rewrite sort_by_length, length_app. simpl. lia.
  - done.
Qed.

(** The driving loop only moves tasks from the queue to the running ones. *)
Lemma drive_perm {T A} `{QueueItem T} (start : Z → T → A) ma mt fuel clock q :
  reverse (drive start ma mt fuel clock q).1 ++ q_queued (drive start ma mt fuel clock q).2 ≡ₚ q_queued q.
Proof.
  revert q; induction fuel as [|fuel IH]; intros q; simpl; [done|].
  destruct (take_next start ma mt (clock fuel) q) as [[t q']|] eqn:Ht; [|done].
  apply take_next_Some in Ht as (l1 & l2 & Hq & Hq' & _). specialize (IH q').
  destruct (drive start ma mt fuel clock q') as [ts q'']. simpl in *.
  rewrite reverse_cons, <-app_assoc, Hq. simpl. rewrite <-Permutation_middle, IH, Hq'.
  by rewrite <-Permutation_middle.
Qed.

Lemma inv_drive_prewarm clock s run :
  prewarm_inv {| ps_state := s; ps_running := run |} →
  prewarm_inv {| ps_state := (drive_prewarm_queue cfg clock s).2;
                 ps_running := reverse (drive_prewarm_queue cfg clock s).1 ++ run |}.
Proof.
  intros [Hq Hids Hlen Hrec]. unfold drive_prewarm_queue.
  pose proof (drive_steps start_prewarm (max_active_prewarms cfg) (max_prewarms_per_tenant cfg)
    (length (q_queued (pq_queue s))) clock (pq_queue s) run) as Hsteps.
  pose proof (drive_perm start_prewarm (max_active_prewarms cfg) (max_prewarms_per_tenant cfg)
    (length (q_queued (pq_queue s))) clock (pq_queue s)) as Hperm.
  destruct (drive _ _ _ _ _ _) as [ts q]. simpl in *. split; simpl.
  - by eapply queue_inv_steps.
  - intros i Hi. apply Hids. revert Hi. rewrite <-Hperm. rewrite !fmap_app, !elem_of_app. tauto.
  - apply Permutation_length in Hperm. rewrite length_app in Hperm. lia.
  - done.
Qed.

Lemma inv_finish_prewarm t res s run1 run2 :
  prewarm_inv {| ps_state := s; ps_running := run1 ++ t :: run2 |} →
  prewarm_inv {| ps_state := finish_prewarm t res s; ps_running := run1 ++ run2 |}.
Proof.
  intros [Hq Hids Hlen Hrec]. split; simpl in *.
  - by apply inv_finish.
  - intros i Hi. apply Hids. revert Hi. rewrite !fmap_app, !elem_of_app, fmap_cons, elem_of_cons. tauto.
  - done.
  - case_bool_decide; [rewrite length_drop; lia|lia].
Qed.

Lemma prewarm_inv_reachable s :
  config_wf cfg → rtc prewarm_step prewarm_init s → prewarm_inv s.
Proof.
  intros Hcfg Hrtc. unfold config_wf, limit_ok in Hcfg. destruct_and?.
  assert (prewarm_inv prewarm_init) as Hinit.
  { split; simpl; [apply queue_inv_empty; lia|set_solver|lia|lia]. }
  induction Hrtc as [|s1 s2 s3 Hs _ IH]; [done|]. apply IH. destruct Hs;
    eauto using inv_enqueue_prewarm, inv_drive_prewarm, inv_finish_prewarm.
Qed.

(** C6: Whatever is enqueued, started and finished in any order, the number of
    prewarms that really run stays within the limit, in all and per tenant, the
    queue stays within its limit and sorted by priority and age, and the history
    holds at most 64 results. *)
Theorem prewarm_queue_invariant s (Hcfg : config_wf cfg) (Hreach : rtc prewarm_step prewarm_init s) :
  (Z.of_nat (length (ps_running s)) ≤ max_active_prewarms cfg)%Z ∧
  (∀ t, Z.of_nat (count_tenant t (ps_running s)) ≤ max_prewarms_per_tenant cfg)%Z ∧
  (Z.of_nat (length (q_queued (pq_queue (ps_state s)))) ≤ max_queued_prewarms cfg)%Z ∧
  StronglySorted not_after (q_queued (pq_queue (ps_state s))) ∧
  length (pq_recent (ps_state s)) ≤ 64.
Proof. destruct (prewarm_inv_reachable s Hcfg Hreach) as [[] _ ? ?]. by split_and!. Qed.
End prewarm_theorems.

(** ** Scheduling *)

Section scheduling.
Context {T A : Type} `{QueueItem T} (start : Z → T → A) (max_active max_tenant : Z).

(** The task that is started next has the highest priority of all eligible
    tasks, and is the oldest of those. *)
Theorem take_next_best now (q : TaskQueue T A) t q'
    (Hsorted : StronglySorted not_after (q_queued q))
    (Htake : take_next start max_active max_tenant now q = Some (t, q')) :
  eligible max_tenant q t ∧
  ∀ t', t' ∈ q_queued q → eligible max_tenant q t' →
    (qi_priority t' < qi_priority t)%Z ∨
    (qi_priority t' = qi_priority t ∧ (qi_enqueued t ≤ qi_enqueued t')%Z).
Proof.
  apply take_next_Some in Htake as (l1 & l2 & Hq & _ & Hl1 & Hel & _). split; [done|].
  intros t' Hin Hel'. rewrite Hq in Hin, Hsorted. apply StronglySorted_app in Hsorted as (_ & _ & Hs).
  apply StronglySorted_cons in Hs as [Hall _]. rewrite Forall_forall in Hl1, Hall.
  apply elem_of_app in Hin as [Hin|[->|Hin]%elem_of_cons]; [by destruct (Hl1 t' Hin)|lia|].
  specialize (Hall t' Hin). apply Is_true_true in Hall. unfold not_after in Hall. lia.
Qed.

(** The driving loop ends, and leaves nothing to do: all slots are taken, or
    every queued task belongs to a tenant at its limit. *)
Theorem drive_work_conserving clock (q : TaskQueue T A) :
  let q' := (drive start max_active max_tenant (length (q_queued q)) clock q).2 in
  (max_active ≤ Z.of_nat (size (q_active q')))%Z ∨
  ∀ t, t ∈ q_queued q' → (max_tenant ≤ Z.of_nat (tenant_count q' (qi_tenant t)))%Z.
Proof.
  pose proof (drive_done start max_active max_tenant (length (q_queued q)) clock q 0 ltac:(done)) as Hd.
  apply take_next_None in Hd as [?|Hall]; [by left|]. right. intros t Hin.
  rewrite Forall_forall in Hall. specialize (Hall t Hin). unfold eligible in Hall. simpl in *. lia.
Qed.
End scheduling.

(** ** The route queue *)

Section route_theorems.
Context `{HashOrder} (cfg : RouterConfig).

(** Enqueueing with the key of a task that still waits in the queue queues the
    same task once more, instead of joining it: it will be executed twice. *)
Theorem dedupe_requeues_waiting_task path method params tenant priority key now s id e
    (He : entries (rq_registry s) !! id = Some e) (Hid : t_id (te_state e) = id)
    (Hkey : running_with_key key e)
    (Honly : ∀ i e', entries (rq_registry s) !! i = Some e' → running_with_key key e' → i = id)
    (Hwait : q_active (rq_queue s) !! id = None)
    (Hroom : (Z.of_nat (length (q_queued (rq_queue s))) < max_queued_tasks cfg)%Z)
    (Htenant : (Z.of_nat (tenant_count (rq_queue s) (normalize_tenant tenant)) < max_tasks_per_tenant cfg)%Z) :
  let '(s', _) := enqueue_route_task cfg path method params tenant priority (Some key) now s in
  length (filter (λ t, qr_task_id t = id) (q_queued (rq_queue s'))) =
  S (length (filter (λ t, qr_task_id t = id) (q_queued (rq_queue s)))).
Proof.
  unfold enqueue_route_task. rewrite (proj2 (Z.leb_gt _ _)) by done. rewrite (proj2 (Z.leb_gt _ _)) by done.
  unfold create_with_key, create_internal.
  destruct (list_find _ _) as [[n [i e']]|] eqn:Hf; cbn [fmap option_fmap option_map]; last first.
  { by destruct (dedupe_none _ _ id e Hf He). }
  pose proof Hf as [Hi Hk]%dedupe_found. pose proof (Honly i e' Hi Hk) as ->.
  assert (e' = e) as -> by congruence. cbn [snd fst]. rewrite Hid.
  rewrite (bool_decide_true (is_Some (task_get id _))); last first.
  { unfold task_get, merge_meta, with_entry. cbn [entries]. rewrite lookup_alter_eq, He. by eexists. }
  rewrite (bool_decide_false (is_Some (q_active _ !! id))) by (rewrite Hwait; by intros [? ?]).
  cbn [andb negb rq_queue push q_queued].
  assert (∀ l l' : list QueuedRouteTask, l ≡ₚ l' →
    length (filter (λ t, qr_task_id t = id) l) = length (filter (λ t, qr_task_id t = id) l')) as Hperm
    by (by intros l l' ->).
  rewrite (Hperm _ _ (sort_by_perm _ _)), filter_app, length_app, filter_cons, decide_True by done. simpl. lia.
Qed.

(** Cancelling a task that waits in the queue reports success but leaves it in
    the queue: the next free slot executes it. *)
Theorem cancel_leaves_task_queued id now s e
    (He : entries (rq_registry s) !! id = Some e) (Hrun : t_status (te_state e) = Running) :
  (cancel_task id now s).2 = true ∧ rq_queue (cancel_task id now s).1 = rq_queue s.
Proof. unfold cancel_task, cancel. rewrite He, bool_decide_true by done. done. Qed.
End route_theorems.

(** ** Concrete queues *)

Definition queue_config : RouterConfig := from_env (λ _, None) (Some 4%Z) 7.

Lemma queue_config_wf : config_wf queue_config.
Proof. repeat split; vm_compute; congruence. Qed.

#[local] Instance queue_order : HashOrder := canonical_order.

Definition prewarm_a : PrewarmQueueState :=
  (enqueue_prewarm queue_config "/a" 1 false None 10 prewarm_queue_default).1.
Definition prewarm_ab : PrewarmQueueState := (enqueue_prewarm queue_config "/b" 9 true None 11 prewarm_a).1.
Definition prewarm_run : PrewarmSt :=
  {| ps_state := (drive_prewarm_queue queue_config (λ _, 12%Z) prewarm_ab).2;
     ps_running := reverse (drive_prewarm_queue queue_config (λ _, 12%Z) prewarm_ab).1 ++ [] |}.

Lemma prewarm_queue_invariant_witness :
  (Z.of_nat (length (ps_running prewarm_run)) ≤ max_active_prewarms queue_config)%Z.
Proof.
  refine (proj1 (prewarm_queue_invariant queue_config prewarm_run queue_config_wf _)).
  eapply rtc_l; [apply (pw_enqueue queue_config "/a" 1 false None 10); by split|].
  eapply rtc_l; [apply (pw_enqueue queue_config "/b" 9 true None 11); by split|].
  apply rtc_once, (pw_drive queue_config (λ _, 12%Z) prewarm_ab []).
Defined.

Lemma take_next_best_witness :
  ∃ t q', take_next start_prewarm 4 2 12 (pq_queue prewarm_ab) = Some (t, q') ∧ qp_path t = "/b" ∧
    ∀ t', t' ∈ q_queued (pq_queue prewarm_ab) → eligible 2 (pq_queue prewarm_ab) t' →
      (qi_priority t' < qi_priority t)%Z ∨
      (qi_priority t' = qi_priority t ∧ (qi_enqueued t ≤ qi_enqueued t')%Z).
Proof.
  do 2 eexists. split; [vm_compute; reflexivity|]. split; [reflexivity|].
  eapply (take_next_best start_prewarm 4 2 12 (pq_queue prewarm_ab)).
  - apply push_sorted.
  - vm_compute. reflexivity.
Defined.

(** A task with key [k] that waits in the queue. *)
Definition waiting : RouteTasks :=
  (enqueue_route_task queue_config "/a" "decompile" Null None 5 (Some "k") (at_time 1)
     {| rq_queue := queue_empty; rq_registry := registry_new |}).1.

Definition waiting_entry : TaskEntry :=
  default {| te_state := new_state "" Failed "" None None None (at_time 0); te_handle := None |}
    (entries (rq_registry waiting) !! "job-1").

Lemma dedupe_requeues_waiting_task_witness :
  let '(s', _) := enqueue_route_task queue_config "/a" "decompile" Null None 5 (Some "k") (at_time 2) waiting in
  length (filter (λ t, qr_task_id t = "job-1") (q_queued (rq_queue s'))) = 2.
Proof.
  apply (dedupe_requeues_waiting_task queue_config "/a" "decompile" Null None 5 "k" (at_time 2) waiting "job-1"
           waiting_entry); try (vm_compute; reflexivity).
  - split; vm_compute; reflexivity.
  - intros i e' Hi _. vm_compute in Hi. by destruct (decide (i = "job-1")) as [|Hne];
      [|change (({["job-1" := waiting_entry]} : gmap string TaskEntry) !! i = Some e') in Hi;
        rewrite lookup_singleton_ne in Hi by done].
Defined.

Lemma cancel_leaves_task_queued_witness :
  (cancel_task "job-1" (at_time 3) waiting).2 = true ∧
  length (q_queued (rq_queue (cancel_task "job-1" (at_time 3) waiting).1)) = 1.
Proof.
  destruct (cancel_leaves_task_queued "job-1" (at_time 3) waiting waiting_entry) as [H1 H2];
    [vm_compute; reflexivity..|]. split; [exact H1|]. rewrite H2. vm_compute. reflexivity.
Defined.

(** Cancelled, started all the same, and reported as completed. *)
Example cancelled_task_runs :
  let s1 := (cancel_task "job-1" (at_time 3) waiting).1 in
  let '(ts, s2) := drive_route_queue queue_config (λ _, 4%Z) (at_time 4) s1 in
  qr_task_id <$> ts = ["job-1"] ∧
  match ts with
  | t :: _ => t_status <$> task_get "job-1" (rq_registry (finish_route_task t (Ok Null) (at_time 5) s2)) = Some Completed
  | [] => False
  end.
Proof. vm_compute. split; reflexivity. Qed.

(** ** Tokens of route tasks *)

(** A machine on which [decompile] fails. *)
Definition failing_env : Env :=
  {| e_clock := e_clock sample_env; e_pid := 7; e_home := None; e_canonicalize := Some; e_exists := λ _, true;
     e_probe := e_probe sample_env; e_child := Ok tt; e_write_ok := λ _, true;
     e_reply := λ _ m _, if bool_decide (m = "decompile") then Replies (Err "no decompiler") else Replies (Ok Null);
     e_resolve := e_resolve sample_env; e_is_sbpf := λ _, false; e_lookup_idb := λ _, None |}.

Definition route_task (m : string) : QueuedRouteTask :=
  {| qr_task_id := "job-1"; qr_path := "/a"; qr_method := m; qr_params := Null; qr_tenant_id := "default";
     qr_priority := 5; qr_enqueued_at := 1 |}.

(** The reference tokens left when a task has run on an empty router. *)
Definition tokens_left (m : string) : option nat :=
  match run_route_task queue_config failing_env (route_task m) ∅ (router_new "ida-cli") with
  | Done _ s => Some (size (token_to_handle (rt_inner s)))
  | Deadlock _ => None
  end.

(** A route task whose request succeeds releases its reference token; one whose
    request fails returns before the release, so the token stays registered and the
    worker is never idle again. *)
Theorem failed_route_task_keeps_token :
  tokens_left "list_functions" = Some 0 ∧ tokens_left "decompile" = Some 1.
Proof. split; vm_compute; reflexivity. Qed.
