(* ===== verification/Parse.v ===== *)
(** * Parameter parsing (src/server/mod.rs, src/rpc_dispatch.rs, src/ida/handlers/mod.rs)

    Addresses, byte strings and search patterns as the MCP server, the worker's
    dispatcher and the search handler read them from JSON, and the number
    conversion tool. *)

From Stdlib Require Import Ascii.
From stdpp Require Import base strings list numbers.
From S2P Require Import Prelude RustStr Json ToolError.

Open Scope ida_scope.

Definition u8_max : Z := 255.

(** ** Addresses *)

Definition not_underscore (c : ascii) : bool := negb (bool_decide (c = "_"%char)).

(** [&s[2..]] of a string that has a two-character prefix. *)
Definition skip2 (s : string) : string :=
  match s with String _ (String _ rest) => rest | _ => "" end.

(** [IdaMcpServer::parse_address] *)
Definition parse_address (s : string) : result Z ToolError :=
  let s := str_retain not_underscore (trim s) in
  if starts_with "0x" s || starts_with "0X" s then
    ok_or (from_str_radix u64_max 16 (skip2 s)) (InvalidAddress s)
  else if starts_with "0b" s || starts_with "0B" s then
    ok_or (from_str_radix u64_max 2 (skip2 s)) (InvalidAddress s)
  else if starts_with "0o" s || starts_with "0O" s then
    ok_or (from_str_radix u64_max 8 (skip2 s)) (InvalidAddress s)
  else ok_or (parse_u64 s) (InvalidAddress s).

(** [parse_address_value] of the worker's dispatcher. *)
Definition parse_address_value (v : Value) : option Z :=
  match as_u64 v with
  | Some n => Some n
  | None =>
      match as_str v with
      | Some s =>
          let s := trim s in
          match (match strip_prefix "0x" s with Some h => Some h | None => strip_prefix "0X" s end) with
          | Some hex => from_str_radix u64_max 16 hex
          | None => parse_u64 s
          end
      | None => None
      end
  end.

(** ** Lists of strings and addresses *)

Section json.
(** [serde_json::from_str] and [Value]'s [Display]. *)
Context (json_parse : string → option Value) (json_display : Value → string).

(** [parse_address_values] *)
Definition parse_address_values (v : Value) : result (list Z) ToolError :=
  match as_array v with
  | Some arr =>
      let? addrs := collect (imap (λ i item,
        ok_or (parse_address_value item)
              (InvalidAddress ("invalid address at index " +:+ fmt_dec (Z.of_nat i) +:+ ": " +:+ json_display item)))
        arr) in
      if bool_decide (addrs = []) then Err (InvalidAddress "empty address array") else Ok addrs
  | None =>
      let? a := ok_or (parse_address_value v) (InvalidAddress ("invalid address: " +:+ json_display v)) in Ok [a]
  end.

(** [parse_string_list] *)
Definition parse_string_list (v : Value) : list string := match as_array v with Some a => omap as_str a | None => [] end.

(** The elements of an array of strings and numbers. *)
Definition string_or_number (v : Value) : result string ToolError :=
  match v with
  | VString s => Ok s
  | Number n => Ok (num_to_string n)
  | _ => Err (IdaError "expected string or number")
  end.

(** [value_to_strings] *)
Definition value_to_strings (value : Value) : result (list string) ToolError :=
  match value with
  | VString s =>
      let trimmed := trim s in
      match (if starts_with "[" trimmed then json_parse trimmed else None) with
      | Some (Array arr) => collect (string_or_number <$> arr)
      | _ =>
          if contains "," trimmed then
            Ok (filter (λ t, t ≠ "") (trim <$> split_on (λ c, bool_decide (c = ","%char)) trimmed))
          else if bool_decide (trimmed = "") then Err (IdaError "empty string")
          else Ok [trimmed]
      end
  | Number n => Ok [num_to_string n]
  | Array arr => collect (string_or_number <$> arr)
  | _ => Err (IdaError "expected string, number, or array")
  end.

Definition value_to_addresses (value : Value) : result (list Z) ToolError :=
  let? strings := value_to_strings value in
  if bool_decide (strings = []) then Err (InvalidAddress "no addresses provided")
  else collect (parse_address <$> strings).

Definition value_to_single_address (value : Value) : result Z ToolError :=
  let? addrs := value_to_addresses value in ok_or (head addrs) (InvalidAddress "empty address list").
End json.

(** ** Byte strings *)

Definition is_byte_separator (c : ascii) : bool :=
  is_ascii_whitespace c || bool_decide (c = ","%char) || bool_decide (c = ":"%char) ||
  bool_decide (c = "-"%char) || bool_decide (c = "_"%char).

Definition clean_token (t : string) : string :=
  match strip_prefix "0x" t with
  | Some r => r
  | None => default t (strip_prefix "0X" t)
  end.

(** The first character that is not a hex digit. *)
Fixpoint first_non_hex (s : string) : option ascii :=
  match s with
  | "" => None
  | String c rest => if is_ascii_hexdigit c then first_non_hex rest else Some c
  end.

Fixpoint join_hex_tokens (ts : list string) : result string ToolError :=
  match ts with
  | [] => Ok ""
  | t :: rest =>
      let cleaned := clean_token t in
      match first_non_hex cleaned with
      | Some c => Err (InvalidParams ("invalid hex character: " +:+ String c ""))
      | None => let? s := join_hex_tokens rest in Ok (cleaned +:+ s)
      end
  end.

Fixpoint hex_pairs (s : string) : result (list Z) ToolError :=
  match s with
  | String a (String b rest) =>
      match from_str_radix u8_max 16 (String a (String b "")) with
      | Some byte => let? out := hex_pairs rest in Ok (byte :: out)
      | None => Err (InvalidParams "invalid hex byte")
      end
  | _ => Ok []
  end.

(** The string branch that [value_to_bytes] and [parse_patch_bytes] have in common. *)
Definition parse_hex_string (s : string) : result (list Z) ToolError :=
  let s := trim s in
  if bool_decide (s = "") then Err (InvalidParams "no bytes provided")
  else
    let tokens := filter (λ t, t ≠ "") (split_on is_byte_separator s) in
    let? hex_str := join_hex_tokens tokens in
    if bool_decide (hex_str = "") then Err (InvalidParams "no bytes provided")
    else if Nat.odd (String.length hex_str) then Err (InvalidParams "hex string has odd length")
    else hex_pairs hex_str.

Definition check_byte (n : Z) : result Z ToolError :=
  if (u8_max <? n)%Z then Err (InvalidParams "byte value out of range") else Ok n.

(** An element of the array branch of [value_to_bytes]. *)
Definition byte_item (v : Value) : result Z ToolError :=
  match v with
  | Number n => let? b := ok_or (num_as_u64 n) (InvalidParams "invalid byte") in check_byte b
  | VString s => let? b := parse_address s in check_byte b
  | _ => Err (InvalidParams "bytes must be numbers or strings")
  end.

Definition value_to_bytes (value : Value) : result (list Z) ToolError :=
  match value with
  | VString s => parse_hex_string s
  | Array arr =>
      let? out := collect (byte_item <$> arr) in
      if bool_decide (out = []) then Err (InvalidParams "no bytes provided") else Ok out
  | Number n =>
      let? b := ok_or (num_as_u64 n) (InvalidParams "invalid byte") in
      let? b := check_byte b in Ok [b]
  | _ => Err (InvalidParams "expected hex string or array of bytes")
  end.

(** [parse_patch_bytes] of the dispatcher: [n as u8] truncates, and elements that
    are not unsigned integers are dropped. *)
Definition parse_patch_bytes (v : Value) : result (list Z) ToolError :=
  match as_array v with
  | Some arr =>
      let out := omap (λ item, (λ n, n mod 256)%Z <$> as_u64 item) arr in
      if bool_decide (out = []) then Err (InvalidParams "no bytes provided") else Ok out
  | None =>
      match as_str v with
      | Some s => parse_hex_string s
      | None => Err (InvalidParams "bytes must be a hex string or array of integers")
      end
  end.

(** ** Search patterns *)

(** [as_bytes().chunks(2)] *)
Fixpoint chunks2 (s : string) : list string :=
  match s with
  | "" => []
  | String a "" => [String a ""]
  | String a (String b rest) => String a (String b "") :: chunks2 rest
  end.

Definition pattern_token (tok : string) : result (option Z) ToolError :=
  if bool_decide (tok = "?") || bool_decide (tok = "??") then Ok None
  else
    let? b := ok_or (from_str_radix u8_max 16 (trim_start_matches "0x" tok)) (IdaError ("invalid byte: " +:+ tok)) in
    Ok (Some b).

Definition parse_pattern (pattern : string) : result (list (option Z)) ToolError :=
  let trimmed := trim pattern in
  if bool_decide (trimmed = "") then Err (IdaError "empty pattern")
  else if contains " " trimmed then collect (pattern_token <$> split_whitespace trimmed)
  else if Nat.odd (String.length trimmed) then Err (IdaError ("invalid hex pattern length: " +:+ trimmed))
  else collect (pattern_token <$> chunks2 trimmed).

(** ** Number conversion *)

(** [{:02x}] *)
Definition fmt_byte (b : Z) : string := pad_zero 2 (fmt_hex b).

Definition hex_encode (bs : list Z) : string := str_join "" (fmt_byte <$> bs).

(** [u64::to_le_bytes] *)
Definition to_le_bytes (v : Z) : list Z := (λ i, Z.shiftr v (8 * i) mod 256)%Z <$> seqZ 0 8.
Definition to_be_bytes (v : Z) : list Z := reverse (to_le_bytes v).

(** [while out.len() > 1 && out.last() == Some(&0) { out.pop(); }], from the end. *)
Fixpoint drop_zeros (l : list Z) : list Z :=
  match l with
  | 0%Z :: ((_ :: _) as rest) => drop_zeros rest
  | _ => l
  end.
Definition trim_bytes_le (bs : list Z) : list Z := reverse (drop_zeros (reverse bs)).
Definition trim_bytes_be (bs : list Z) : list Z := drop_zeros bs.

Definition is_ascii_graphic (z : Z) : bool := (33 <=? z)%Z && (z <=? 126)%Z.
Definition bytes_to_ascii (bs : list Z) : string :=
  foldr (λ b s, String (if is_ascii_graphic b || (b =? 32)%Z then chr b else "."%char) s) "" bs.

(** One input of [convert_number]. *)
Definition convert_one (input : string) : Value :=
  match parse_address input with
  | Ok value =>
      let le_trim := trim_bytes_le (to_le_bytes value) in
      let be_trim := trim_bytes_be (to_be_bytes value) in
      obj [("input", VString input); ("value", vz value); ("dec", VString (fmt_dec value));
           ("hex", VString ("0x" +:+ fmt_hex value)); ("bin", VString ("0b" +:+ fmt_bin value));
           ("bytes_le", VString (hex_encode le_trim)); ("bytes_be", VString (hex_encode be_trim));
           ("ascii", VString (bytes_to_ascii le_trim))]
  | Err e => obj [("input", VString input); ("error", VString (error_to_string e))]
  end.

(** [convert_number], before the result is printed. *)
Definition convert_number (json_parse : string → option Value) (inputs : Value) : result Value ToolError :=
  let? l := value_to_strings json_parse inputs in
  Ok (obj [("results", Array (convert_one <$> l))]).
