(* ===== verification/ParseTheorems.v ===== *)
(** * Parsing is right

    What is printed is read back, separators do not matter, what is accepted is in
    range, and where the two parsers of the program agree and differ. *)

From Stdlib Require Import Ascii.
From stdpp Require Import base strings list numbers.
From S2P Require Import Prelude RustStr Json ToolError Parse.

Open Scope ida_scope.

(** ** Strings over an alphabet *)

Lemma str_all_impl (p q : ascii → bool) s :
  (∀ c, p c = true → q c = true) → str_all p s = true → str_all q s = true.
Proof.
  intros Hpq. induction s as [|c s IH]; simpl; [done|]. rewrite !andb_true_iff. intros [? ?]. auto.
Qed.

Lemma trim_start_all p q s : str_all q s = true → str_all q (trim_start_with p s) = true.
Proof.
  induction s as [|c s IH]; simpl; [done|]. rewrite andb_true_iff. intros [Hc Hs].
  destruct (p c); [auto|]. simpl. by rewrite Hc, Hs.
Qed.

Lemma trim_end_all p q s : str_all q s = true → str_all q (trim_end_with p s) = true.
Proof.
  induction s as [|c s IH]; [done|]. cbn [str_all trim_end_with]. rewrite andb_true_iff. intros [Hc Hs].
  destruct (p c && str_all p s); [done|]. simpl. rewrite Hc. auto.
Qed.

Lemma trim_id s : str_all (λ c, negb (is_whitespace c)) s = true → trim s = s.
Proof.
  intros Hs. unfold trim. assert (trim_start_with is_whitespace s = s) as ->.
  { destruct s as [|c s]; [done|]. simpl in *. apply andb_true_iff in Hs as [Hc _].
    apply negb_true_iff in Hc. by rewrite Hc. }
  induction s as [|c s IH]; [done|]. cbn [trim_end_with str_all] in *. apply andb_true_iff in Hs as [Hc Hs].
  apply negb_true_iff in Hc. rewrite Hc. simpl. by rewrite IH.
Qed.

Lemma str_retain_id p s : str_all p s = true → str_retain p s = s.
Proof. induction s as [|c s IH]; simpl; [done|]. intros [-> Hs]%andb_true_iff. by rewrite IH. Qed.

Lemma str_retain_app p s t : str_retain p (s +:+ t) = str_retain p s +:+ str_retain p t.
Proof.
  induction s as [|c s IH]; simpl; [done|]. change (String.append s t) with (s +:+ t). rewrite IH.
  by destruct (p c).
Qed.

Lemma starts_with_2 a b s :
  starts_with (String a (String b "")) s = true → ∃ rest, s = String a (String b rest).
Proof.
  unfold starts_with. intros [r Hr]%bool_decide_eq_true. destruct s as [|c [|d s]]; simpl in Hr;
    repeat case_bool_decide; simplify_eq; eauto.
Qed.

Lemma starts_with_2_true a b rest : starts_with (String a (String b "")) (String a (String b rest)) = true.
Proof. unfold starts_with. apply bool_decide_true. simpl. rewrite !(bool_decide_true (_ = _)) by done. eauto. Qed.

(** The second character decides. *)
Lemma starts_with_2_false a b q s :
  str_all q s = true → q b = false → starts_with (String a (String b "")) s = false.
Proof.
  intros Hs Hb. apply not_true_iff_false. intros [r ->]%starts_with_2. simpl in Hs.
  rewrite Hb, andb_false_r in Hs. done.
Qed.

Definition is_digit_of (radix : Z) (c : ascii) : bool := bool_decide (is_Some (to_digit radix c)).

Lemma fmt_radix_digits radix n : (2 ≤ radix ≤ 36)%Z → str_all (is_digit_of radix) (fmt_radix radix n) = true.
Proof.
  intros Hr. apply fmt_radix_all; [lia|]. intros d Hd. unfold is_digit_of.
  rewrite to_digit_from_digit by lia. by apply bool_decide_true.
Qed.

(** Every character, by evaluation. *)
Lemma ascii_check (p : ascii → bool) :
  forallb (λ n, p (ascii_of_nat n)) (seq 0 256) = true → ∀ c, p c = true.
Proof.
  intros Hall c. rewrite forallb_forall in Hall. rewrite <-(ascii_nat_embedding c). apply Hall.
  apply in_seq. pose proof (nat_ascii_bounded c). lia.
Qed.

Lemma digit16_plain c :
  is_digit_of 16 c = true → negb (is_whitespace c) && not_underscore c && negb (is_byte_separator c) &&
    negb (bool_decide (c = "x"%char)) && negb (bool_decide (c = "X"%char)) &&
    negb (bool_decide (c = "o"%char)) && negb (bool_decide (c = "O"%char)) = true.
Proof.
  apply (implb_true_iff (is_digit_of 16 c)). revert c. apply ascii_check. vm_compute. reflexivity.
Qed.

Lemma digit_le16 radix c : (2 ≤ radix ≤ 16)%Z → is_digit_of radix c = true → is_digit_of 16 c = true.
Proof.
  intros Hr. unfold is_digit_of, to_digit. rewrite !bool_decide_eq_true. intros [d Hd].
  repeat case_match; simplify_eq; eauto; lia.
Qed.

(** ** Addresses *)

Lemma parse_address_plain s :
  str_all (is_digit_of 10) s = true → parse_address s = ok_or (parse_u64 s) (InvalidAddress s).
Proof.
  intros Hs. assert (str_all (is_digit_of 16) s = true) as H16.
  { eapply str_all_impl; [|exact Hs]. intros c. by apply digit_le16. }
  unfold parse_address. rewrite trim_id, str_retain_id by
    (eapply str_all_impl; [|exact H16]; intros c Hc%digit16_plain; repeat apply andb_true_iff in Hc as [Hc ?]; done).
  by rewrite !(starts_with_2_false _ _ (is_digit_of 10)) by done.
Qed.

Lemma parse_address_prefixed a radix s :
  (2 ≤ radix ≤ 16)%Z → str_all (is_digit_of radix) s = true →
  (radix = 16%Z ∧ (a = "x"%char ∨ a = "X"%char) ∨ radix = 2%Z ∧ (a = "b"%char ∨ a = "B"%char) ∨
   radix = 8%Z ∧ (a = "o"%char ∨ a = "O"%char)) →
  parse_address (String "0" (String a "") +:+ s) =
    ok_or (from_str_radix u64_max radix s) (InvalidAddress (String "0" (String a s))).
Proof.
  intros Hr Hs Ha. change (String "0" (String a "") +:+ s) with (String "0" (String a s)). assert (str_all (is_digit_of 16) s = true) as H16.
  { eapply str_all_impl; [|exact Hs]. intros c. by apply digit_le16. }
  assert (∀ p, (∀ c, is_digit_of 16 c = true → p c = true) → p "0"%char = true → p a = true →
            str_all p (String "0" (String a s)) = true) as Hall.
  { intros p Hp H0 Ha'. simpl. rewrite H0, Ha'. simpl. by eapply str_all_impl. }
  unfold parse_address. rewrite trim_id, str_retain_id;
    [|apply Hall; [|done|by destruct Ha as [[_ [->| ->]]|[[_ [->| ->]]|[_ [->| ->]]]]];
      intros c Hc%digit16_plain; by repeat apply andb_true_iff in Hc as [Hc ?]..].
  destruct Ha as [[-> [->| ->]]|[[-> [->| ->]]|[-> [->| ->]]]]; rewrite ?starts_with_2_true; done.
Qed.

(** An address printed in decimal, hexadecimal, binary or octal is read back
    exactly, for every 64-bit value, with either case of the prefix. *)
Theorem parse_address_roundtrip n (Hn : in_u64 n) :
  parse_address (fmt_dec n) = Ok n ∧
  parse_address ("0x" +:+ fmt_hex n) = Ok n ∧ parse_address ("0X" +:+ fmt_hex n) = Ok n ∧
  parse_address ("0b" +:+ fmt_bin n) = Ok n ∧ parse_address ("0B" +:+ fmt_bin n) = Ok n ∧
  parse_address ("0o" +:+ fmt_radix 8 n) = Ok n ∧ parse_address ("0O" +:+ fmt_radix 8 n) = Ok n.
Proof.
  assert (∀ radix, (2 ≤ radix ≤ 16)%Z → from_str_radix u64_max radix (fmt_radix radix n) = Some n) as Hrt.
  { intros radix Hr. destruct Hn. apply from_str_radix_fmt; lia. }
  split_and!.
  - rewrite parse_address_plain by (apply fmt_radix_digits; lia). unfold parse_u64, fmt_dec. by rewrite Hrt by lia.
  - rewrite (parse_address_prefixed "x" 16) by (try apply fmt_radix_digits; (lia || tauto)).
    unfold fmt_hex. by rewrite Hrt by lia.
  - rewrite (parse_address_prefixed "X" 16) by (try apply fmt_radix_digits; (lia || tauto)).
    unfold fmt_hex. by rewrite Hrt by lia.
  - rewrite (parse_address_prefixed "b" 2) by (try apply fmt_radix_digits; (lia || tauto)).
    unfold fmt_bin. by rewrite Hrt by lia.
  - rewrite (parse_address_prefixed "B" 2) by (try apply fmt_radix_digits; (lia || tauto)).
    unfold fmt_bin. by rewrite Hrt by lia.
  - rewrite (parse_address_prefixed "o" 8) by (try apply fmt_radix_digits; (lia || tauto)). by rewrite Hrt by lia.
  - rewrite (parse_address_prefixed "O" 8) by (try apply fmt_radix_digits; (lia || tauto)). by rewrite Hrt by lia.
Qed.

Lemma parse_address_roundtrip_witness : parse_address "0xffffffffffffffff" = Ok (2 ^ 64 - 1)%Z.
Proof. apply (parse_address_roundtrip (2 ^ 64 - 1)). split; vm_compute; discriminate. Defined.

Lemma ok_or_Ok {A E} (o : option A) (e : E) a : ok_or o e = Ok a ↔ o = Some a.
Proof. destruct o; simpl; split; congruence. Qed.

Lemma parse_address_range s n : parse_address s = Ok n → in_u64 n.
Proof.
  unfold parse_address, parse_u64. repeat case_match; rewrite ok_or_Ok;
    apply from_str_radix_bounds; unfold u64_max; lia.
Qed.

Lemma strip_prefix_2 a b s :
  strip_prefix (String a (String b "")) s =
    if starts_with (String a (String b "")) s then Some (skip2 s) else None.
Proof.
  unfold starts_with. destruct s as [|c [|d s]]; simpl; repeat case_bool_decide; simplify_eq; try done;
    exfalso; naive_solver.
Qed.

(** The dispatcher of the worker and the MCP server read the same address from
    a string without underscores and without a binary or octal prefix, error cases
    included. *)
Theorem address_parsers_agree s
    (Hund : str_all not_underscore (trim s) = true)
    (Hpre : existsb (λ p, starts_with p (trim s)) ["0b"; "0B"; "0o"; "0O"] = false) :
  parse_address_value (VString s) = ok (parse_address s).
Proof.
  simpl in Hpre. apply orb_false_iff in Hpre as [Hb Hpre]. apply orb_false_iff in Hpre as [HB Hpre].
  apply orb_false_iff in Hpre as [Ho Hpre]. apply orb_false_iff in Hpre as [HO _].
  unfold parse_address_value, parse_address. cbn [as_u64 as_str]. cbv zeta. rewrite str_retain_id by done.
  rewrite !strip_prefix_2, Hb, HB, Ho, HO. cbn [orb].
  destruct (starts_with "0x" (trim s)), (starts_with "0X" (trim s)); simpl;
    destruct (from_str_radix _ _ _) eqn:E || destruct (parse_u64 _) eqn:E; try done.
Qed.

Lemma address_parsers_agree_witness : parse_address_value (VString " 0x4010a0 ") = ok (parse_address " 0x4010a0 ").
Proof. apply (address_parsers_agree " 0x4010a0 "); reflexivity. Defined.

(** ** Bytes *)

Definition is_byte (b : Z) : Prop := (0 ≤ b ≤ u8_max)%Z.

Definition hex_or_sep (c : ascii) : bool := is_digit_of 16 c || is_byte_separator c.
Definition not_sep (c : ascii) : bool := negb (is_byte_separator c).

Lemma sep_or_digit c :
  hex_or_sep c = true → is_whitespace c = true → is_byte_separator c = true.
Proof.
  assert (∀ c, implb (hex_or_sep c && is_whitespace c) (is_byte_separator c) = true) as Hc.
  { apply ascii_check. vm_compute. reflexivity. }
  intros H1 H2. specialize (Hc c). by rewrite H1, H2 in Hc.
Qed.

Lemma retain_trim s : str_all hex_or_sep s = true → str_retain not_sep (trim s) = str_retain not_sep s.
Proof.
  intros Hs. unfold trim.
  assert (∀ s, str_all hex_or_sep s = true → str_all is_whitespace s = true → str_retain not_sep s = "") as Hnil.
  { clear. induction s as [|c s IH]; simpl; [done|]. rewrite !andb_true_iff. intros [Hc Hs] [Hw Hws].
    unfold not_sep at 1. rewrite (sep_or_digit c Hc Hw). simpl. auto. }
  transitivity (str_retain not_sep (trim_start_with is_whitespace s)).
  - assert (str_all hex_or_sep (trim_start_with is_whitespace s) = true) as Hs' by by apply trim_start_all.
    revert Hs'. generalize (trim_start_with is_whitespace s). clear s Hs.
    induction s as [|c s IH]; intros Hs; [done|]. cbn [trim_end_with].
    destruct (str_all is_whitespace (String c s)) eqn:Hw; [by rewrite (Hnil (String c s))|].
    simpl in *. apply andb_true_iff in Hs as [_ Hs]. by rewrite IH.
  - induction s as [|c s IH]; simpl; [done|]. simpl in Hs. apply andb_true_iff in Hs as [Hc Hs].
    destruct (is_whitespace c) eqn:Hw; [|done]. unfold not_sep at 2. rewrite (sep_or_digit c Hc Hw). simpl. auto.
Qed.

(** The tokens of a string over hex digits and separators. *)
Lemma tokens_all s :
  str_all hex_or_sep s = true →
  Forall (λ t, str_all (is_digit_of 16) t = true) (split_on is_byte_separator s).
Proof.
  induction s as [|c s IH]; simpl; [by repeat constructor|]. rewrite andb_true_iff. intros [Hc Hs].
  specialize (IH Hs). destruct (is_byte_separator c) eqn:Hsep; [by constructor|].
  unfold hex_or_sep in Hc. rewrite Hsep, orb_false_r in Hc.
  destruct (split_on is_byte_separator s) as [|w ws]; [by repeat constructor; simpl; rewrite Hc|].
  inversion IH; subst. constructor; [|done]. simpl. by rewrite Hc.
Qed.

Lemma clean_token_hex t : str_all (is_digit_of 16) t = true → clean_token t = t ∧ first_non_hex t = None.
Proof.
  intros Ht. split.
  - unfold clean_token. rewrite !strip_prefix_2, !(starts_with_2_false _ _ (is_digit_of 16)) by done. done.
  - induction t as [|c t IH]; simpl in *; [done|]. apply andb_true_iff in Ht as [Hc Ht].
    unfold is_ascii_hexdigit. unfold is_digit_of in Hc. rewrite Hc. auto.
Qed.

Lemma join_hex_tokens_ok ts :
  Forall (λ t, str_all (is_digit_of 16) t = true) ts →
  join_hex_tokens (filter (λ t, t ≠ "") ts) = Ok (foldr String.append "" ts).
Proof.
  induction 1 as [|t ts Ht _ IH]; [done|]. rewrite filter_cons. destruct (decide (t ≠ "")) as [Hne|Hne].
  - simpl. destruct (clean_token_hex t Ht) as [-> ->]. by rewrite IH.
  - assert (t = "") as -> by (destruct (decide (t = "")); [done|tauto]). by rewrite IH.
Qed.

Lemma split_on_concat s :
  foldr String.append "" (split_on is_byte_separator s) = str_retain not_sep s.
Proof.
  induction s as [|c s IH]; [done|]. simpl. unfold not_sep at 1.
  destruct (is_byte_separator c); simpl; [done|].
  destruct (split_on_cons is_byte_separator s) as (w & ws & Hw). rewrite Hw in IH |- *. cbn [foldr] in *.
  change (String c w +:+ ?x) with (String c (w +:+ x)). by rewrite IH.
Qed.

Lemma fmt_byte_pair b : is_byte b →
  ∃ x y, fmt_byte b = String x (String y "") ∧ is_digit_of 16 x = true ∧ is_digit_of 16 y = true ∧
         from_str_radix u8_max 16 (String x (String y "")) = Some b.
Proof.
  intros Hb. assert (forallb (λ b, match fmt_byte b with
    | String x (String y "") => is_digit_of 16 x && is_digit_of 16 y &&
        bool_decide (from_str_radix u8_max 16 (String x (String y "")) = Some b)
    | _ => false end) (seqZ 0 256) = true) as Hall by (vm_compute; reflexivity).
  rewrite forallb_forall in Hall. specialize (Hall b). destruct (fmt_byte b) as [|x [|y [|? ?]]];
    try (discriminate Hall; apply list_elem_of_In, elem_of_seqZ; unfold is_byte, u8_max in Hb; lia).
  exists x, y. rewrite !andb_true_iff, bool_decide_eq_true in Hall.
  destruct Hall as [[? ?] ?]; [apply list_elem_of_In, elem_of_seqZ; unfold is_byte, u8_max in Hb; lia|done].
Qed.

Lemma append_nil_r s : s +:+ "" = s.
Proof. induction s as [|c s IH]; [done|]. change (String c s +:+ "") with (String c (s +:+ "")). by rewrite IH. Qed.

Lemma concat_nil_cons a l : String.concat "" (a :: l) = a +:+ String.concat "" l.
Proof. destruct l as [|b l]; [symmetry; apply append_nil_r|]. reflexivity. Qed.

Lemma hex_encode_cons b bs : hex_encode (b :: bs) = fmt_byte b +:+ hex_encode bs.
Proof. apply concat_nil_cons. Qed.

Lemma hex_pairs_encode bs : Forall is_byte bs → hex_pairs (hex_encode bs) = Ok bs.
Proof.
  induction 1 as [|b bs Hb _ IH]; [done|]. rewrite hex_encode_cons.
  destruct (fmt_byte_pair b Hb) as (x & y & -> & _ & _ & Hp). 
  change (String x (String y "") +:+ ?r) with (String x (String y r)). cbn [hex_pairs]. by rewrite Hp, IH.
Qed.

Lemma hex_encode_even bs : Forall is_byte bs → Nat.odd (String.length (hex_encode bs)) = false.
Proof.
  induction 1 as [|b bs Hb _ IH]; [done|]. rewrite hex_encode_cons.
  destruct (fmt_byte_pair b Hb) as (x & y & -> & _).
  change (String x (String y "") +:+ ?r) with (String x (String y r)). cbn [String.length]. by rewrite Nat.odd_succ_succ.
Qed.

(** Bytes printed in hexadecimal are read back, by the server and by the
    dispatcher alike, however the digits are separated: white space, commas, colons,
    dashes and underscores may stand anywhere between, before and after them. *)
Theorem hex_bytes_roundtrip s bs
    (Hchars : str_all hex_or_sep s = true) (Hdigits : str_retain not_sep s = hex_encode bs)
    (Hbytes : Forall is_byte bs) (Hne : bs ≠ []) :
  value_to_bytes (VString s) = Ok bs ∧ parse_patch_bytes (VString s) = Ok bs.
Proof.
  enough (parse_hex_string s = Ok bs) by by split.
  assert (hex_encode bs ≠ "") as Hhex.
  { destruct bs as [|b bs]; [done|]. rewrite hex_encode_cons. inversion Hbytes; subst.
    destruct (fmt_byte_pair b) as (x & y & -> & _); [done|]. done. }
  assert (str_all hex_or_sep (trim s) = true) as Htrim by by apply trim_end_all, trim_start_all.
  unfold parse_hex_string. rewrite bool_decide_false; last first.
  { intros Heq. apply Hhex. by rewrite <-Hdigits, <-retain_trim, Heq. }
  rewrite join_hex_tokens_ok by by apply tokens_all. rewrite split_on_concat, retain_trim, Hdigits by done.
  simpl. rewrite bool_decide_false, hex_encode_even by done. by apply hex_pairs_encode.
Qed.

Lemma hex_bytes_roundtrip_witness :
  value_to_bytes (VString " 90:cc-0f ff ") = Ok [144; 204; 15; 255]%Z.
Proof.
  apply (hex_bytes_roundtrip " 90:cc-0f ff " [144; 204; 15; 255]%Z); try reflexivity; [|discriminate].
  repeat constructor; discriminate.
Defined.

(** ** What is accepted *)

Lemma result_bind_Ok {A B E} (r : result A E) (f : A → result B E) b :
  result_bind r f = Ok b ↔ ∃ a, r = Ok a ∧ f a = Ok b.
Proof. destruct r; simpl; naive_solver. Qed.

Lemma check_byte_Ok n b : (0 ≤ n)%Z → check_byte n = Ok b → is_byte b.
Proof. unfold check_byte, is_byte, u8_max. intros ?. destruct (Z.ltb_spec 255 n); intros [= <-]. lia. Qed.

Lemma num_as_u64_wf n z : value_wf (Number n) = true → num_as_u64 n = Some z → (0 ≤ z)%Z.
Proof. destruct n; simpl; intros ? [= <-]. lia. Qed.

Lemma byte_item_Ok v b : value_wf v = true → byte_item v = Ok b → is_byte b.
Proof.
  destruct v as [| |n|s| |]; simpl; try done; intros Hwf; rewrite result_bind_Ok; intros (z & Hz & Hb).
  - apply ok_or_Ok in Hz. eapply check_byte_Ok; [|exact Hb]. by eapply num_as_u64_wf.
  - apply parse_address_range in Hz as [? _]. by eapply check_byte_Ok.
Qed.

Lemma hex_pairs_Ok s bs : hex_pairs s = Ok bs → Forall is_byte bs ∧ String.length s ≤ S (2 * length bs).
Proof.
  revert bs. induction s as [s IH] using (induction_ltof1 _ String.length). unfold ltof in IH.
  destruct s as [|a [|b s]]; cbn [hex_pairs]; [intros bs [= <-]; by split; [constructor|simpl; lia]..|].
  intros bs. destruct (from_str_radix _ _ _) as [z|] eqn:Hz; [|done].
  intros (out & Hout & [= <-])%result_bind_Ok. apply IH in Hout as [? ?]; [|simpl; lia].
  split; [|simpl; lia]. constructor; [|done]. by apply from_str_radix_bounds in Hz.
Qed.

(** The bytes the server accepts, from a hex string, a number or an array of
    numbers and address strings, are at least one and each between 0 and 255. *)
Theorem value_to_bytes_range v bs (Hwf : value_wf v = true) (Hok : value_to_bytes v = Ok bs) :
  bs ≠ [] ∧ Forall is_byte bs.
Proof.
  destruct v as [| |n|s|arr|]; simpl in Hok; try done.
  - apply result_bind_Ok in Hok as (z & Hz%ok_or_Ok & Hok). apply result_bind_Ok in Hok as (b & Hb & [= <-]).
    split; [done|]. constructor; [|done]. eapply check_byte_Ok; [|exact Hb]. by eapply num_as_u64_wf.
  - unfold parse_hex_string in Hok. case_bool_decide; [done|]. apply result_bind_Ok in Hok as (h & _ & Hok).
    case_bool_decide as Hh; [done|]. destruct (Nat.odd (String.length h)) eqn:Hodd; [done|].
    apply hex_pairs_Ok in Hok as [Hall Hlen]. split; [|done]. intros ->. simpl in Hlen.
    destruct h as [|? [|? ?]]; simpl in *; [done|done|lia].
  - apply result_bind_Ok in Hok as (out & Hout & Hok). case_bool_decide; [done|]. injection Hok as <-. split; [done|].
    apply collect_ok_iff in Hout. simpl in Hwf. rewrite forallb_forall in Hwf. apply Forall_forall. intros b Hb.
    assert (@Ok Z ToolError b ∈ byte_item <$> arr) as Hin.
    { rewrite Hout. apply list_elem_of_fmap. exists b. split; [done|]. by apply list_elem_of_In. }
    apply list_elem_of_fmap in Hin as (v & Hv & Hin). eapply byte_item_Ok; [|by symmetry].
    by apply Hwf, list_elem_of_In.
Qed.

Lemma value_to_bytes_range_witness : [1; 255]%Z ≠ [] ∧ Forall is_byte [1; 255]%Z.
Proof. apply (value_to_bytes_range (Array [vz 1; VString "0xff"])); reflexivity. Defined.

(** Where the server refuses a byte value above 255, the dispatcher keeps its
    low eight bits; what is not an unsigned integer is dropped without an error. *)
Theorem patch_bytes_truncates n v (Hn : in_u64 n) (Hbig : (u8_max < n)%Z) (Hv : as_u64 v = None) :
  value_to_bytes (Array [vz n]) = Err (InvalidParams "byte value out of range") ∧
  parse_patch_bytes (Array [vz n; v]) = Ok [n mod 256]%Z.
Proof.
  split.
  - simpl. unfold check_byte. by rewrite (proj2 (Z.ltb_lt _ _)).
  - unfold parse_patch_bytes. simpl. by rewrite Hv.
Qed.

Lemma patch_bytes_truncates_witness :
  value_to_bytes (Array [vz 256]) = Err (InvalidParams "byte value out of range") ∧
  parse_patch_bytes (Array [vz 256; VString "0x41"]) = Ok [0]%Z.
Proof. apply (patch_bytes_truncates 256 (VString "0x41")); [split; discriminate|reflexivity..]. Defined.

(** ** Patterns *)

Definition fmt_pattern_byte (o : option Z) : string := match o with Some b => fmt_byte b | None => "??" end.

Definition pattern_char (c : ascii) : bool := is_digit_of 16 c || bool_decide (c = "?"%char).

Lemma pattern_char_plain c : pattern_char c = true → is_whitespace c = false ∧ c ≠ " "%char.
Proof.
  assert (∀ c, implb (pattern_char c) (negb (is_whitespace c) && negb (bool_decide (c = " "%char))) = true) as Hc.
  { apply ascii_check. vm_compute. reflexivity. }
  intros H1. specialize (Hc c). rewrite H1 in Hc. simpl in Hc.
  apply andb_true_iff in Hc as [Hw Hs]. apply negb_true_iff in Hw, Hs.
  by apply bool_decide_eq_false in Hs.
Qed.

Lemma fmt_pattern_pair o : (∀ b, o = Some b → is_byte b) →
  ∃ x y, fmt_pattern_byte o = String x (String y "") ∧ pattern_char x = true ∧ pattern_char y = true ∧
         pattern_token (fmt_pattern_byte o) = Ok o.
Proof.
  intros Ho. destruct o as [b|]; simpl; [|by exists "?"%char, "?"%char].
  destruct (fmt_byte_pair b (Ho b eq_refl)) as (x & y & Heq & Hx & Hy & Hp). exists x, y. rewrite Heq.
  assert (pattern_char x = true ∧ pattern_char y = true) as [Hpx Hpy]
    by (unfold pattern_char; by rewrite Hx, Hy).
  split_and!; try done. unfold pattern_token.
  assert (x ≠ "?"%char) as Hne by (intros ->; by vm_compute in Hx).
  rewrite !bool_decide_false by congruence. simpl orb. cbv iota.
  assert (trim_start_matches "0x" (String x (String y "")) = String x (String y "")) as ->; [|by rewrite Hp].
  unfold trim_start_matches. cbn [String.length trim_start_matches_fuel]. rewrite strip_prefix_2.
  rewrite (starts_with_2_false _ _ (is_digit_of 16)); [done| |done]. simpl. by rewrite Hx, Hy.
Qed.

Lemma contains_space_false s : str_all pattern_char s = true → contains " " s = false.
Proof.
  induction s as [|c s IH]; [done|]. cbn [str_all]. intros [Hc Hs]%andb_true_iff. cbn [contains].
  rewrite IH by done. rewrite orb_false_r. apply bool_decide_false. simpl.
  apply pattern_char_plain in Hc as [_ Hc]. rewrite bool_decide_false by done. by intros [? ?].
Qed.

(** A search pattern printed as hex bytes and [??] wildcards, without spaces, is
    read back byte by byte. *)
Theorem parse_pattern_roundtrip pat
    (Hbytes : ∀ b, Some b ∈ pat → is_byte b) (Hne : pat ≠ []) :
  parse_pattern (str_join "" (fmt_pattern_byte <$> pat)) = Ok pat.
Proof.
  set (s := str_join "" (fmt_pattern_byte <$> pat)).
  assert (str_all pattern_char s = true ∧ Nat.odd (String.length s) = false ∧
          collect (pattern_token <$> chunks2 s) = Ok pat ∧ (pat ≠ [] → s ≠ "")) as (Hall & Hodd & Hcol & Hnil).
  { subst s. clear Hne. induction pat as [|o pat IH]; [by split_and!|].
    destruct IH as (Hall & Hodd & Hcol & _); [intros b Hb; apply Hbytes, elem_of_cons; by right|].
    destruct (fmt_pattern_pair o) as (x & y & Heq & Hx & Hy & Ht); [intros b ->; apply Hbytes, elem_of_cons; by left|].
    unfold str_join in *. cbn [fmap list_fmap]. rewrite concat_nil_cons, Heq.
    change (String x (String y "") +:+ ?r) with (String x (String y r)).
    rewrite Heq in Ht. cbn [str_all String.length chunks2 fmap list_fmap]. rewrite Hx, Hy, Nat.odd_succ_succ.
    split_and!; [done|done| |done]. simpl collect. rewrite Ht. simpl in Hcol. by rewrite Hcol. }
  unfold parse_pattern. rewrite trim_id by
    (eapply str_all_impl; [|exact Hall]; intros c [-> _]%pattern_char_plain; done).
  rewrite bool_decide_false by auto. rewrite contains_space_false by done. by rewrite Hodd.
Qed.

Lemma parse_pattern_roundtrip_witness : parse_pattern "55??89e5" = Ok [Some 85; None; Some 137; Some 229]%Z.
Proof.
  apply (parse_pattern_roundtrip [Some 85; None; Some 137; Some 229]%Z); [|discriminate].
  intros b Hb. repeat (apply elem_of_cons in Hb as [Hb|Hb]; [first [discriminate Hb|injection Hb as ->; split; discriminate]|]).
  by apply not_elem_of_nil in Hb.
Defined.

(** ** Number conversion *)

(** The number with these base-256 digits, least significant first. *)
Definition le_value (bs : list Z) : Z := foldr (λ b acc, b + 256 * acc)%Z 0%Z bs.

Lemma le_value_snoc_zero l : le_value (l ++ [0%Z]) = le_value l.
Proof. induction l as [|b l IH]; [done|]. simpl. unfold le_value in *. by rewrite IH. Qed.

Lemma drop_zeros_value l : le_value (reverse (drop_zeros l)) = le_value (reverse l).
Proof.
  induction l as [|b l IH]; [done|]. destruct l as [|c l]; [by destruct b|].
  destruct b; [|done|done]. change (drop_zeros (0%Z :: c :: l)) with (drop_zeros (c :: l)).
  rewrite IH, (reverse_cons (c :: l) 0%Z). by rewrite le_value_snoc_zero.
Qed.

Lemma le_value_to_le_bytes n : in_u64 n → le_value (to_le_bytes n) = n.
Proof.
  intros [Hlo Hhi]. unfold to_le_bytes, le_value.
  change (seqZ 0 8) with [0; 1; 2; 3; 4; 5; 6; 7]%Z. cbn [fmap list_fmap foldr].
  rewrite !Z.shiftr_div_pow2 by lia.
  assert (∀ i j, (0 ≤ i)%Z → (j = i + 1)%Z → n / 2 ^ (8 * j) = n / 2 ^ (8 * i) / 256)%Z as Hstep.
  { intros i j Hi ->. rewrite Z.div_div by (try apply Z.pow_pos_nonneg; lia). f_equal.
    rewrite Z.mul_add_distr_l, Z.pow_add_r by lia. lia. }
  assert (n / 2 ^ (8 * 8) = 0)%Z as H8 by (apply Z.div_small; unfold u64_max in Hhi; lia).
  rewrite (Hstep 7 8)%Z, (Hstep 6 7)%Z, (Hstep 5 6)%Z, (Hstep 4 5)%Z, (Hstep 3 4)%Z, (Hstep 2 3)%Z,
    (Hstep 1 2)%Z, (Hstep 0 1)%Z in H8 by lia.
  rewrite (Hstep 6 7)%Z, (Hstep 5 6)%Z, (Hstep 4 5)%Z, (Hstep 3 4)%Z, (Hstep 2 3)%Z, (Hstep 1 2)%Z,
    (Hstep 0 1)%Z by lia.
  rewrite !Z.mod_eq by lia. change (2 ^ (8 * 0))%Z with 1%Z in *. rewrite Z.div_1_r in *. lia.
Qed.

(** The little-endian and big-endian bytes that [convert_number] prints denote
    the number, in both cases after the zero bytes at the high end were dropped. *)
Theorem convert_number_bytes n (Hn : in_u64 n) :
  le_value (trim_bytes_le (to_le_bytes n)) = n ∧
  le_value (reverse (trim_bytes_be (to_be_bytes n))) = n.
Proof.
  unfold trim_bytes_le, trim_bytes_be, to_be_bytes. rewrite !drop_zeros_value, reverse_involutive.
  split; by apply le_value_to_le_bytes.
Qed.

Lemma convert_number_bytes_witness : le_value (trim_bytes_le (to_le_bytes 4919)) = 4919%Z.
Proof. apply (convert_number_bytes 4919). split; discriminate. Defined.
