(* ===== verification/Search.v ===== *)
(** * Byte search (src/ida/handlers/search.rs, [handle_find_bytes])

    The search reads each segment in overlapping chunks of one mebibyte and stops
    at the result limit; it finds exactly what a search of the whole memory finds. *)

From Stdlib Require Import Ascii.
From stdpp Require Import base strings numbers.
From stdpp Require Import list.
From S2P Require Import Prelude RustStr Json ToolError Parse.

Open Scope ida_scope.

(** ** The code *)

Definition CHUNK_SIZE : Z := 1024 * 1024.

Record Segment : Type := { seg_start : Z; seg_len : Z }.

(** The comparison loop at one position. *)
Fixpoint pat_match (pat : list (option Z)) (bytes : list Z) : bool :=
  match pat, bytes with
  | [], _ => true
  | None :: pat, _ :: bytes => pat_match pat bytes
  | Some b :: pat, x :: bytes => (x =? b)%Z && pat_match pat bytes
  | _ :: _, [] => false
  end.

Section search.
(** [IDB::get_bytes] of idalib. *)
Context (get_bytes : Z → Z → list Z).
Context (pat : list (option Z)) (max_results : Z).

Definition pat_len : Z := Z.of_nat (length pat).

Definition full (matches : list Z) : bool := (max_results <=? Z.of_nat (length matches))%Z.

(** [for i in 0..=bytes.len() - pat_len], from the position [addr] of the first
    byte. *)
Fixpoint scan_chunk (addr : Z) (bytes : list Z) (matches : list Z) : list Z :=
  if (Z.of_nat (length bytes) <? pat_len)%Z then matches
  else if full matches then matches
  else
    let matches := if pat_match pat bytes then matches ++ [addr] else matches in
    match bytes with
    | [] => matches
    | _ :: rest => scan_chunk (addr + 1) rest matches
    end.

(** The [while] loop over the chunks of a segment.  Each turn advances by a chunk,
    so [seg_len / CHUNK_SIZE + 1] turns are enough. *)
Fixpoint scan_segment (fuel : nat) (seg : Segment) (offset : Z) (matches : list Z) : list Z :=
  match fuel with
  | O => matches
  | S fuel =>
      if (offset <? seg_len seg)%Z && negb (full matches) then
        let remaining := (seg_len seg - offset)%Z in
        let read_len := Z.min remaining (CHUNK_SIZE + Z.max (pat_len - 1) 0) in
        let bytes := get_bytes (seg_start seg + offset) read_len in
        if (Z.of_nat (length bytes) <? pat_len)%Z then matches
        else
          let matches := scan_chunk (seg_start seg + offset) bytes matches in
          if (remaining <=? CHUNK_SIZE)%Z then matches
          else scan_segment fuel seg (offset + CHUNK_SIZE) matches
      else matches
  end.

Definition segment_fuel (seg : Segment) : nat := Z.to_nat (seg_len seg / CHUNK_SIZE + 1).

Fixpoint scan_segments (segs : list Segment) (matches : list Z) : list Z :=
  match segs with
  | [] => matches
  | seg :: rest =>
      let matches := scan_segment (segment_fuel seg) seg 0 matches in
      if full matches then matches else scan_segments rest matches
  end.
End search.

(** [handle_find_bytes], on the segments of the open database. *)
Definition handle_find_bytes (get_bytes : Z → Z → list Z) (idb : option (list Segment))
    (pattern : string) (max_results : Z) : result Value ToolError :=
  let? segs := ok_or idb NoDatabaseOpen in
  let? pat := parse_pattern pattern in
  if bool_decide (pat = []) then Err (IdaError "empty pattern")
  else
    let matches := scan_segments get_bytes pat max_results segs [] in
    Ok (obj [("pattern", VString pattern); ("matches", Array (VString ∘ fmt_hex_alt <$> matches));
             ("count", vnat (length matches))]).

(** ** The reference *)

Section correctness.
(** [get_bytes] reads the memory image. *)
Context (get_bytes : Z → Z → list Z) (mem : Z → Z).
Context (get_bytes_spec : ∀ a n, get_bytes a n = mem <$> seqZ a n).
Context (pat : list (option Z)) (max_results : Z) (Hpat : pat ≠ []).

(** The pattern occurs in memory at [a]. *)
Definition mem_match (a : Z) : bool := pat_match pat (mem <$> seqZ a (pat_len pat)).

(** The occurrences among the [n] addresses from [a], in order. *)
Definition hits (a n : Z) : list Z := filter (λ a, mem_match a = true) (seqZ a n).

(** All occurrences that lie inside a segment. *)
Definition segment_hits (seg : Segment) : list Z := hits (seg_start seg) (seg_len seg - pat_len pat + 1).

Definition limited (l : list Z) : list Z := take (Z.to_nat max_results) l.

Lemma pat_len_pos : (0 < pat_len pat)%Z.
Proof. unfold pat_len. destruct pat; [done|]. simpl. lia. Qed.

Lemma hits_app a m n : (0 ≤ m)%Z → (0 ≤ n)%Z → hits a (m + n) = hits a m ++ hits (a + m) n.
Proof. intros Hm Hn. unfold hits. rewrite seqZ_app by lia. apply filter_app. Qed.

Lemma hits_nil a n : (n ≤ 0)%Z → hits a n = [].
Proof. intros Hn. unfold hits. by rewrite seqZ_nil by lia. Qed.

Lemma pat_match_prefix p l1 l2 : length p ≤ length l1 → pat_match p (l1 ++ l2) = pat_match p l1.
Proof.
  revert l1; induction p as [|[b|] p IH]; intros [|x l1] Hlen; simpl in *; try done; try lia;
    rewrite IH by lia; done.
Qed.

Lemma mem_match_bytes a n :
  (pat_len pat ≤ n)%Z → pat_match pat (mem <$> seqZ a n) = mem_match a.
Proof.
  intros Hn. pose proof pat_len_pos. replace n with (pat_len pat + (n - pat_len pat))%Z by lia.
  rewrite seqZ_app, fmap_app by lia. apply pat_match_prefix.
  rewrite length_fmap, length_seqZ. unfold pat_len. lia.
Qed.

Lemma full_limited l : full max_results l = true → ∀ l', limited (l ++ l') = limited l.
Proof.
  unfold full, limited. intros Hf l'. apply Z.leb_le in Hf. rewrite take_app_le by lia. done.
Qed.

Lemma limited_id l : full max_results l = false → limited l = l.
Proof. unfold full, limited. intros Hf. apply Z.leb_gt in Hf. apply take_ge. lia. Qed.

(** Scanning a chunk adds its occurrences, up to the limit. *)
Lemma scan_chunk_correct n addr l :
  scan_chunk pat max_results addr (mem <$> seqZ addr (Z.of_nat n)) (limited l) =
  limited (l ++ hits addr (Z.of_nat n - pat_len pat + 1)).
Proof.
  pose proof pat_len_pos. revert addr l; induction n as [|n IH]; intros addr l.
  - rewrite hits_nil, app_nil_r, seqZ_nil by lia. cbn [fmap list_fmap scan_chunk length].
    by rewrite (proj2 (Z.ltb_lt _ _)) by lia.
  - rewrite seqZ_cons by lia. cbn [fmap list_fmap scan_chunk]. rewrite length_cons, length_fmap, length_seqZ.
    destruct (Z.ltb_spec (Z.of_nat (S (Z.to_nat (Z.pred (Z.of_nat (S n)))))) (pat_len pat)) as [Hlt|Hge].
    { by rewrite hits_nil, app_nil_r by lia. }
    replace (Z.pred (Z.of_nat (S n))) with (Z.of_nat n) in * by lia.
    destruct (full max_results (limited l)) eqn:Hf.
    { rewrite full_limited; [done|]. revert Hf. unfold full, limited. rewrite length_take, !Z.leb_le. lia. }
    assert (limited l = l) as Hid.
    { revert Hf. unfold full, limited. rewrite length_take, Z.leb_gt. intros ?. apply take_ge. lia. }
    replace (Z.of_nat (S n) - pat_len pat + 1)%Z with (1 + (Z.of_nat n - pat_len pat + 1))%Z by lia.
    rewrite hits_app by lia. replace (Z.succ addr) with (addr + 1)%Z by lia.
    assert (pat_match pat (mem addr :: (mem <$> seqZ (addr + 1) (Z.of_nat n))) = mem_match addr) as ->.
    { rewrite <-(mem_match_bytes addr (Z.of_nat (S n))) by lia. rewrite (seqZ_cons addr (Z.of_nat (S n))) by lia.
      cbn [fmap list_fmap]. replace (Z.succ addr) with (addr + 1)%Z by lia.
      by replace (Z.pred (Z.of_nat (S n))) with (Z.of_nat n) by lia. }
    assert ((if mem_match addr then limited l ++ [addr] else limited l) = limited (l ++ hits addr 1)) as ->.
    { unfold hits at 1. rewrite seqZ_cons, seqZ_nil by lia. rewrite Hid.
      destruct (mem_match addr) eqn:Hm; simpl.
      - rewrite filter_cons_True by done. simpl. unfold limited. symmetry. apply take_ge.
        rewrite length_app. revert Hf. rewrite Hid. unfold full. rewrite Z.leb_gt. simpl. lia.
      - rewrite filter_cons_False by (rewrite Hm; done). simpl. by rewrite app_nil_r. }
    by rewrite IH, <-app_assoc.
Qed.

(** Scanning a segment from an offset on. *)
Lemma scan_segment_correct fuel seg offset l :
  (0 ≤ offset)%Z → (seg_len seg - offset < Z.of_nat fuel * CHUNK_SIZE)%Z →
  scan_segment get_bytes pat max_results fuel seg offset (limited l) =
  limited (l ++ hits (seg_start seg + offset) (seg_len seg - offset - pat_len pat + 1)).
Proof.
  pose proof pat_len_pos. revert offset l; induction fuel as [|fuel IH]; intros offset l Hoff Hfuel.
  { rewrite hits_nil, app_nil_r by lia. done. }
  cbn [scan_segment]. destruct (Z.ltb_spec offset (seg_len seg)) as [Hlt|Hge]; cycle 1.
  { by rewrite hits_nil, app_nil_r by lia. }
  destruct (full max_results (limited l)) eqn:Hf; cbn [andb negb].
  { rewrite full_limited; [done|]. revert Hf. unfold full, limited. rewrite length_take, !Z.leb_le. lia. }
  set (read_len := Z.min (seg_len seg - offset) (CHUNK_SIZE + Z.max (pat_len pat - 1) 0)).
  assert (0 < read_len)%Z as Hread by (unfold read_len, CHUNK_SIZE; lia).
  rewrite get_bytes_spec, length_fmap, length_seqZ, Z2Nat.id by lia.
  destruct (Z.ltb_spec read_len (pat_len pat)) as [Hshort|Hlong].
  { rewrite hits_nil, app_nil_r by (unfold read_len, CHUNK_SIZE in *; lia). done. }
  pose proof (scan_chunk_correct (Z.to_nat read_len) (seg_start seg + offset) l) as Hc.
  rewrite Z2Nat.id in Hc by lia. rewrite Hc.
  destruct (Z.leb_spec (seg_len seg - offset) CHUNK_SIZE) as [Hlast|Hmore].
  - replace read_len with (seg_len seg - offset)%Z; [done|]. unfold read_len. lia.
  - rewrite IH by (unfold CHUNK_SIZE in *; lia). rewrite <-app_assoc. f_equal. f_equal.
    destruct (decide (seg_len seg - offset - pat_len pat + 1 ≤ CHUNK_SIZE)%Z) as [Hend|Hend].
    + rewrite (hits_nil (seg_start seg + (offset + CHUNK_SIZE))), app_nil_r by lia. f_equal.
      unfold read_len. lia.
    + replace (read_len - pat_len pat + 1)%Z with CHUNK_SIZE by (unfold read_len; lia).
      replace (seg_len seg - offset - pat_len pat + 1)%Z
        with (CHUNK_SIZE + (seg_len seg - (offset + CHUNK_SIZE) - pat_len pat + 1))%Z at 1 by lia.
      rewrite (hits_app _ CHUNK_SIZE) by (unfold CHUNK_SIZE in *; lia).
      by replace (seg_start seg + offset + CHUNK_SIZE)%Z with (seg_start seg + (offset + CHUNK_SIZE))%Z by lia.
Qed.

Lemma scan_segments_correct segs l :
  scan_segments get_bytes pat max_results segs (limited l) = limited (l ++ concat (segment_hits <$> segs)).
Proof.
  revert l; induction segs as [|seg segs IH]; intros l; simpl; [by rewrite app_nil_r|].
  rewrite scan_segment_correct; [|lia|]; last first.
  { unfold segment_fuel. pose proof (Z.div_mod (seg_len seg) CHUNK_SIZE). pose proof (Z.mod_pos_bound (seg_len seg) CHUNK_SIZE).
    destruct (decide (seg_len seg < 0)%Z); unfold CHUNK_SIZE in *; lia. }
  rewrite Z.add_0_r, Z.sub_0_r. change (hits _ _) with (segment_hits seg). rewrite app_assoc.
  destruct (full max_results (limited (l ++ segment_hits seg))) eqn:Hf; [|apply IH].
  symmetry. apply full_limited. revert Hf. unfold full, limited. rewrite length_take, !Z.leb_le. lia.
Qed.
End correctness.

(** C34: the chunked search reports exactly the addresses at which the pattern
    occurs inside a segment, in order and without repetition across chunk borders,
    cut off at the limit. *)
Theorem find_bytes_complete get_bytes mem segs pattern pat max_results
    (Hget : ∀ a n, get_bytes a n = mem <$> seqZ a n)
    (Hpat : parse_pattern pattern = Ok pat) (Hne : pat ≠ []) :
  let found := take (Z.to_nat max_results) (concat (segment_hits mem pat <$> segs)) in
  handle_find_bytes get_bytes (Some segs) pattern max_results =
  Ok (obj [("pattern", VString pattern); ("matches", Array (VString ∘ fmt_hex_alt <$> found));
           ("count", vnat (length found))]).
Proof.
  unfold handle_find_bytes. cbn [ok_or result_bind]. rewrite Hpat. cbn [result_bind].
  rewrite bool_decide_false by done.
  pose proof (scan_segments_correct get_bytes mem Hget pat max_results Hne segs []) as Hs.
  unfold limited in Hs. rewrite take_nil in Hs. by rewrite Hs.
Qed.

Lemma find_bytes_complete_witness :
  let mem a := (if a =? 4097 then 144 else 0)%Z in
  handle_find_bytes (λ a n, mem <$> seqZ a n) (Some [{| seg_start := 4096; seg_len := 8 |}]) "90" 10 =
  Ok (obj [("pattern", VString "90"); ("matches", Array [VString "0x1001"]); ("count", vnat 1)]).
Proof.
  intros mem.
  apply (find_bytes_complete (λ a n, mem <$> seqZ a n) mem [{| seg_start := 4096; seg_len := 8 |}] "90" [Some 144%Z] 10);
    [reflexivity|reflexivity|discriminate].
Defined.
