(* ===== verification/ControlFlow.v ===== *)
(** * Control flow queries (src/ida/handlers/controlflow.rs, src/ida/handlers/mod.rs)

    The handlers that walk functions: callees, callers, the path search between two
    basic blocks and the call graph.  The database is idalib's: its functions,
    blocks and cross references are a record of observations. *)

From Stdlib Require Import Ascii.
From stdpp Require Import base gmap strings numbers sorting fin_maps.
From stdpp Require Import list.
From S2P Require Import Prelude RustStr Json ToolError Parse ParseTheorems.

Open Scope ida_scope.

(** ** The database *)

Inductive XRefType : Type := NearCall | FarCall | OtherRef.

Record XRef : Type := { x_from : Z; x_to : Z; x_type : XRefType }.

Record BasicBlock : Type := { b_start : Z; b_end : Z; b_succs : list Z }.

Record Func : Type := {
  f_start : Z;
  f_end : Z;
  f_name : option string;
  f_len : Z;
  f_contains : Z → bool;
  f_cfg : result (list BasicBlock) string
}.

(** [first_xref_from] with [next_from], and [first_xref_to] with [next_to], as the
    lists they enumerate. *)
Record IDB : Type := {
  db_functions : list Func;
  db_names : list (string * Z);
  db_function_at : Z → option Func;
  db_xrefs_from : Z → list XRef;
  db_xrefs_to : Z → list XRef;
  db_next_head : Z → option Z
}.

Record FunctionInfo : Type := { fi_address : string; fi_name : string; fi_size : Z }.

(** ** Addresses and names *)

(** [parse_address_str] *)
Definition parse_address_str (s : string) : result Z ToolError :=
  let s := trim s in
  if starts_with "0x" s || starts_with "0X" s then
    ok_or (from_str_radix u64_max 16 (skip2 s)) (InvalidAddress s)
  else if starts_with "0b" s || starts_with "0B" s then
    ok_or (from_str_radix u64_max 2 (skip2 s)) (InvalidAddress s)
  else if starts_with "0o" s || starts_with "0O" s then
    ok_or (from_str_radix u64_max 8 (skip2 s)) (InvalidAddress s)
  else ok_or (parse_u64 s) (InvalidAddress s).

Definition name_hit (name n : string) : bool := bool_decide (n = name) || contains name n.

Definition resolve_address_by_name (idb : option IDB) (name : string) : result Z ToolError :=
  let? db := ok_or idb NoDatabaseOpen in
  match list_find (λ f, match f_name f with Some n => name_hit name n | None => false end = true)
                  (db_functions db) with
  | Some (_, f) => Ok (f_start f)
  | None =>
      match list_find (λ item, name_hit name item.1 = true) (db_names db) with
      | Some (_, item) => Ok item.2
      | None => Err (FunctionNameNotFound name)
      end
  end.

Definition resolve_address (idb : option IDB) (addr : option Z) (name : option string) (offset : Z) :
    result Z ToolError :=
  let? base :=
    match addr, name with
    | Some a, _ => Ok a
    | None, Some n => resolve_address_by_name idb n
    | None, None => Err (InvalidParams "expected address or name")
    end in
  Ok (saturating_add base offset).

(** ** Callees and callers *)

Definition is_call (x : XRef) : bool :=
  match x_type x with NearCall | FarCall => true | OtherRef => false end.

Definition function_info (f : Func) : FunctionInfo :=
  {| fi_address := fmt_hex_alt (f_start f);
     fi_name := default ("sub_" +:+ fmt_hex (f_start f)) (f_name f);
     fi_size := f_len f |}.

(** One cross reference of the loops: the function on its other side is added once,
    by start address. *)
Definition add_function (db : IDB) (target : Z) (is_call : bool) (acc : gset Z * list FunctionInfo) :
    gset Z * list FunctionInfo :=
  let '(seen, out) := acc in
  if is_call then
    match db_function_at db target with
    | Some f => if bool_decide (f_start f ∈ seen) then acc
                else ({[f_start f]} ∪ seen, out ++ [function_info f])
    | None => acc
    end
  else acc.

Definition add_callees (db : IDB) (addr : Z) (acc : gset Z * list FunctionInfo) : gset Z * list FunctionInfo :=
  foldl (λ acc x, add_function db (x_to x) (is_call x) acc) acc (db_xrefs_from db addr).

(** [while current_addr < end]: the address grows in every turn, so the length of
    the function is enough fuel. *)
Fixpoint callees_loop (fuel : nat) (db : IDB) (current end_ : Z) (acc : gset Z * list FunctionInfo) :
    gset Z * list FunctionInfo :=
  match fuel with
  | O => acc
  | S fuel =>
      if (current <? end_)%Z then
        let acc := add_callees db current acc in
        match db_next_head db current with
        | Some next => if (next <=? current)%Z then acc else callees_loop fuel db next end_ acc
        | None => acc
        end
      else acc
  end.

Definition handle_callees (idb : option IDB) (addr : Z) : result (list FunctionInfo) ToolError :=
  let? db := ok_or idb NoDatabaseOpen in
  let? func := ok_or (db_function_at db addr) (FunctionNotFound addr) in
  Ok (callees_loop (Z.to_nat (f_end func - f_start func)) db (f_start func) (f_end func) (∅, [])).2.

Definition handle_callers (idb : option IDB) (addr : Z) : result (list FunctionInfo) ToolError :=
  let? db := ok_or idb NoDatabaseOpen in
  let? func := ok_or (db_function_at db addr) (FunctionNotFound addr) in
  Ok (foldl (λ acc x, add_function db (x_from x) (is_call x) acc) (∅, []) (db_xrefs_to db (f_start func))).2.

(** ** Paths between basic blocks *)

Section paths.
Context (blocks : list BasicBlock).

(** [index_by_start]: a later block with the same start address wins. *)
Definition index_by_start : gmap Z nat :=
  foldl (λ m ib, <[b_start ib.2 := ib.1]> m) ∅ (imap pair blocks).

(** The blocks that follow block [i], as far as they are blocks of the function. *)
Definition successors (i : nat) : list nat :=
  match blocks !! i with
  | Some b => omap (λ a, index_by_start !! a) (b_succs b)
  | None => []
  end.

Context (end_ max_depth max_paths : nat).

(** The inner function [dfs]; [path] is its stack, restored on return.  The stack
    never repeats a block, so one more than the number of blocks is enough fuel. *)
Fixpoint dfs (fuel : nat) (cur : nat) (path : list nat) (results : list (list nat)) : list (list nat) :=
  match fuel with
  | O => results
  | S fuel =>
      if bool_decide (max_paths ≤ length results) then results
      else if bool_decide (max_depth < length path) then results
      else
        let path := path ++ [cur] in
        if bool_decide (cur = end_) then results ++ [path]
        else
          (fix each (succs : list nat) (results : list (list nat)) : list (list nat) :=
             match succs with
             | [] => results
             | next :: rest =>
                 if bool_decide (next ∈ path) then each rest results
                 else
                   let results := dfs fuel next path results in
                   if bool_decide (max_paths ≤ length results) then results else each rest results
             end) (successors cur) results
  end.
End paths.

Definition block_contains (a : Z) (b : BasicBlock) : Prop := (b_start b ≤ a < b_end b)%Z.

#[export] Instance block_contains_dec a b : Decision (block_contains a b).
Proof. unfold block_contains. apply _. Defined.

(** The printed start addresses of a path. *)
Definition path_addresses (blocks : list BasicBlock) (p : list nat) : Value :=
  Array ((λ i, VString (fmt_hex_alt (default 0%Z (b_start <$> blocks !! i)))) <$> p).

Definition handle_find_paths (idb : option IDB) (start end_ : Z) (max_paths max_depth : nat) :
    result Value ToolError :=
  let? db := ok_or idb NoDatabaseOpen in
  let? func := ok_or (db_function_at db start) (FunctionNotFound start) in
  if negb (f_contains func end_) then
    Err (NotSupported "find_paths only supports addresses within the same function")
  else
    let? blocks := (match f_cfg func with Ok b => Ok b | Err e => Err (IdaError e) end) in
    let? start_idx := ok_or (fst <$> list_find (block_contains start) blocks) (AddressOutOfRange start) in
    let? end_idx := ok_or (fst <$> list_find (block_contains end_) blocks) (AddressOutOfRange end_) in
    let results := dfs blocks end_idx (max_depth `max` 1) (max_paths `max` 1) (S (length blocks)) start_idx [] [] in
    Ok (obj [("paths", Array (path_addresses blocks <$> results)); ("count", vnat (length results))]).

(** ** The call graph *)

Record Graph : Type := {
  g_nodes : gmap Z FunctionInfo;
  g_edges : list (Z * Z);
  g_queue : list (Z * nat)
}.

(** One callee of the function [cur] at [depth]. *)
Definition visit_callee (max_nodes : nat) (cur : Z) (depth : nat) (g : Graph) (callee : FunctionInfo) : Graph :=
  match parse_address_str (fi_address callee) with
  | Ok target =>
      let edges := g_edges g ++ [(cur, target)] in
      if bool_decide (g_nodes g !! target = None ∧ size (g_nodes g) < max_nodes) then
        {| g_nodes := <[target := callee]> (g_nodes g); g_edges := edges;
           g_queue := g_queue g ++ [(target, S depth)] |}
      else {| g_nodes := g_nodes g; g_edges := edges; g_queue := g_queue g |}
  | Err _ => g
  end.

(** The breadth-first loop.  A function enters the queue when it becomes a node, so
    [max_nodes] turns are enough. *)
Fixpoint callgraph_loop (fuel : nat) (idb : option IDB) (max_depth max_nodes : nat) (g : Graph) : Graph :=
  match fuel with
  | O => g
  | S fuel =>
      match g_queue g with
      | [] => g
      | (cur, depth) :: rest =>
          let g := {| g_nodes := g_nodes g; g_edges := g_edges g; g_queue := rest |} in
          if bool_decide (max_depth ≤ depth) then callgraph_loop fuel idb max_depth max_nodes g
          else if bool_decide (max_nodes ≤ size (g_nodes g)) then g
          else
            let callees := match handle_callees idb cur with Ok l => l | Err _ => [] end in
            callgraph_loop fuel idb max_depth max_nodes (foldl (visit_callee max_nodes cur depth) g callees)
      end
  end.

Definition callgraph (idb : option IDB) (root : Func) (max_depth max_nodes : nat) : Graph :=
  callgraph_loop (max_nodes `max` 1) idb (max_depth `max` 1) (max_nodes `max` 1)
    {| g_nodes := {[f_start root := function_info root]}; g_edges := []; g_queue := [(f_start root, 0)] |}.

Definition handle_callgraph (idb : option IDB) (order : gmap Z FunctionInfo → list FunctionInfo)
    (addr : Z) (max_depth max_nodes : nat) : result Value ToolError :=
  let? db := ok_or idb NoDatabaseOpen in
  let? root := ok_or (db_function_at db addr) (FunctionNotFound addr) in
  let g := callgraph idb root max_depth max_nodes in
  Ok (obj [("nodes", Array ((λ f, obj [("address", VString (fi_address f)); ("name", VString (fi_name f));
                                       ("size", vz (fi_size f))]) <$> order (g_nodes g)));
           ("edges", Array ((λ e, obj [("from", VString (fmt_hex_alt e.1)); ("to", VString (fmt_hex_alt e.2))])
                            <$> g_edges g))]).

(** * The graph walks are right

    The path search finds exactly the simple paths up to its limits, the call graph
    stays within its limits and is closed below them, and callees and callers are
    listed once each. *)


Open Scope ida_scope.

(** ** Paths *)

Section paths.
Context (blocks : list BasicBlock) (end_ max_depth max_paths : nat).

Definition edge (i j : nat) : Prop := j ∈ successors blocks i.

(** Consecutive blocks of a path are connected. *)
Fixpoint chain (p : list nat) : Prop :=
  match p with
  | a :: ((b :: _) as rest) => edge a b ∧ chain rest
  | _ => True
  end.

(** A path from [cur] to [end_] that visits no block twice. *)
Definition simple_path (cur : nat) (p : list nat) : Prop :=
  head p = Some cur ∧ last p = Some end_ ∧ chain p ∧ NoDup p.

Lemma index_by_start_bound a i : index_by_start blocks !! a = Some i → i < length blocks.
Proof.
  unfold index_by_start. intros Hi.
  assert (∀ l (m : gmap Z nat), (∀ a i, m !! a = Some i → i < length blocks) →
    (∀ ib, ib ∈ l → ib.1 < length blocks) →
    ∀ a i, foldl (λ m ib, <[b_start ib.2 := ib.1]> m) m l !! a = Some i → i < length blocks) as Hgen.
  { clear. induction l as [|[j b] l IH]; intros m Hm Hl a i; simpl; [apply Hm|].
    apply IH; [|intros ib Hib; apply Hl; set_solver].
    intros a' i' [[_ <-]|[_ ?]]%lookup_insert_Some; [apply (Hl (j, b)); set_solver|by eapply Hm]. }
  eapply Hgen; [| |exact Hi]; [done|]. intros [j b] Hib.
  apply list_elem_of_lookup_1 in Hib as [k Hk]. rewrite list_lookup_imap in Hk.
  destruct (blocks !! k) eqn:E; simplify_eq/=. by apply lookup_lt_Some in E.
Qed.

Lemma edge_bound i j : edge i j → j < length blocks.
Proof.
  unfold edge, successors. destruct (blocks !! i); [|set_solver].
  intros (a & _ & Ha)%list_elem_of_omap. by apply index_by_start_bound in Ha.
Qed.

(** What a call of [dfs] adds to the results: the simple paths that extend the
    stack, all of them unless the limit was reached. *)
Record explored (ext : list nat → Prop) (path : list nat) (results results' : list (list nat)) : Prop := {
  ex_added : ∃ added, results' = results ++ added ∧ (∀ p, p ∈ added → ∃ q, p = path ++ q ∧ ext q ∧
      NoDup p ∧ length p ≤ S max_depth);
  ex_limit : length results' ≤ max_paths `max` length results;
  ex_complete : length results' < max_paths → ∀ q, ext q → NoDup (path ++ q) →
      length (path ++ q) ≤ S max_depth → path ++ q ∈ results'
}.

Lemma explored_trans ext1 ext2 path r1 r2 r3 :
  explored ext1 path r1 r2 → explored ext2 path r2 r3 → explored (λ q, ext1 q ∨ ext2 q) path r1 r3.
Proof.
  intros [(a1 & -> & H1) L1 C1] [(a2 & -> & H2) L2 C2]. split.
  - exists (a1 ++ a2). split; [by rewrite app_assoc|].
    intros p [(q & ? & ? & ?)%H1|(q & ? & ? & ?)%H2]%elem_of_app; exists q; naive_solver.
  - lia.
  - intros Hlim q [Hq|Hq] Hnd Hlen.
    + apply elem_of_app. left. apply C1; [|done..]. rewrite !length_app in *. lia.
    + by apply C2.
Qed.

Lemma explored_mono (ext1 ext2 : list nat → Prop) path r1 r2 :
  explored ext1 path r1 r2 → (∀ q, ext1 q → ext2 q) →
  (∀ q, ext2 q → NoDup (path ++ q) → length (path ++ q) ≤ S max_depth → ext1 q) → explored ext2 path r1 r2.
Proof.
  intros [(a & -> & H) L C] H12 H21. split; [|done|].
  - exists a. split; [done|]. intros p (q & ? & ? & ?)%H. exists q. naive_solver.
  - intros Hlim q Hq Hnd Hlen. apply C; auto.
Qed.

(** Nothing is added. *)
Lemma explored_none (ext : list nat → Prop) path r :
  (length r < max_paths → ∀ q, ext q → NoDup (path ++ q) → ¬ length (path ++ q) ≤ S max_depth) →
  explored ext path r r.
Proof.
  intros Hno. split; [|lia|].
  - exists []. split; [by rewrite app_nil_r|]. set_solver.
  - intros Hlim q Hq Hnd Hlen. by destruct (Hno Hlim q Hq Hnd).
Qed.

(** The loop over the successors, for a recursive call that explores. *)
Lemma each_explored (rec : nat → list (list nat) → list (list nat)) path succs :
  (∀ next results, next ∈ succs → next ∉ path → explored (simple_path next) path results (rec next results)) →
  ∀ results, explored (λ q, ∃ next, next ∈ succs ∧ simple_path next q) path results
    ((fix each (succs : list nat) (results : list (list nat)) : list (list nat) :=
        match succs with
        | [] => results
        | next :: rest =>
            if bool_decide (next ∈ path) then each rest results
            else
              let results := rec next results in
              if bool_decide (max_paths ≤ length results) then results else each rest results
        end) succs results).
Proof.
  intros Hrec. induction succs as [|next succs IH]; intros results.
  - apply explored_none. intros _ q (next & Hin & _). set_solver.
  - assert (IH' := IH ltac:(intros; apply Hrec; set_solver)). case_bool_decide as Hin.
    + eapply explored_mono; [apply IH'|set_solver|]. intros q (n & Hn & Hq) Hnd _.
      apply elem_of_cons in Hn as [->|Hn]; [|eauto]. exfalso. destruct Hq as [Hh _].
      destruct q as [|n' q]; [done|]. injection Hh as ->. apply NoDup_app in Hnd as (_ & Hdis & _).
      apply (Hdis next Hin). set_solver.
    + cbv zeta. pose proof (Hrec next results ltac:(set_solver) Hin) as Hex. case_bool_decide as Hfull.
      * destruct Hex as [(a & Heq & H) L C]. split; [|done|lia].
        exists a. split; [done|]. intros p (q & ? & ? & ?)%H. exists q. split; [done|]. split; [set_solver|done].
      * eapply explored_mono; [eapply explored_trans; [exact Hex|apply IH']|set_solver|set_solver].
Qed.

Lemma chain_cons a p : chain (a :: p) ↔ chain p ∧ ∀ b, head p = Some b → edge a b.
Proof. destruct p as [|b p]; simpl; [naive_solver|]. split; [naive_solver|]. intros [? H]. split; auto. Qed.

Lemma simple_path_cons cur q :
  cur ≠ end_ → simple_path cur q ↔ ∃ next q', q = cur :: q' ∧ edge cur next ∧ simple_path next q' ∧ cur ∉ q'.
Proof.
  intros Hne. unfold simple_path. split.
  - intros (Hh & Hl & Hc & Hnd). destruct q as [|a q]; [done|]. injection Hh as ->.
    destruct q as [|b q]; [simpl in Hl; congruence|]. exists b, (b :: q).
    apply NoDup_cons in Hnd as [? ?]. simpl in *. naive_solver.
  - intros (next & q' & -> & He & (Hh & Hl & Hc & Hnd) & Hnin). split_and!; [done| | |by apply NoDup_cons].
    + destruct q' as [|b q']; [done|]. exact Hl.
    + apply chain_cons. split; [done|]. intros b Hb. congruence.
Qed.

Lemma dfs_explored fuel cur path results :
  NoDup (path ++ [cur]) → Forall (λ i, i < length blocks) (path ++ [cur]) →
  length blocks < length path + fuel →
  explored (simple_path cur) path results (dfs blocks end_ max_depth max_paths fuel cur path results).
Proof.
  revert cur path results; induction fuel as [|fuel IH]; intros cur path results Hnd Hb Hfuel.
  { exfalso. assert (length (path ++ [cur]) ≤ length blocks) as Hle.
    { rewrite <-(length_seq (length blocks) 0). apply submseteq_length, NoDup_submseteq; [done|].
      intros i Hi. rewrite Forall_forall in Hb. apply elem_of_seq. specialize (Hb i Hi). lia. }
    rewrite length_app in Hle. simpl in Hle. lia. }
  cbn [dfs]. case_bool_decide as Hfull; [apply explored_none; lia|].
  case_bool_decide as Hdeep.
  { apply explored_none. intros _ q [Hh _] _. destruct q as [|? q]; [done|]. rewrite length_app. simpl. lia. }
  cbv zeta. case_bool_decide as Hend.
  - subst cur. split.
    + exists [path ++ [end_]]. split; [done|]. intros p ->%list_elem_of_singleton. exists [end_].
      split_and!; try done; [split_and!; try done; apply NoDup_singleton|]. rewrite length_app. simpl. lia.
    + rewrite length_app. simpl. lia.
    + intros _ q (Hh & Hl & _ & Hndq) _ _. destruct q as [|a q]; [done|]. injection Hh as ->.
      destruct q as [|b q]; [set_solver|]. exfalso. apply NoDup_cons in Hndq as [Hnin _]. apply Hnin.
      apply last_Some_elem_of. exact Hl.
  - pose proof (each_explored (λ next results, dfs blocks end_ max_depth max_paths fuel next (path ++ [cur]) results)
      (path ++ [cur]) (successors blocks cur)) as Heach.
    assert (∀ r, explored (λ q, ∃ next, next ∈ successors blocks cur ∧ simple_path next q) (path ++ [cur]) results r →
      explored (simple_path cur) path results r) as Hlift.
    { intros r [(a & -> & H) L C]. split; [|done|].
      - exists a. split; [done|]. intros p (q & -> & (next & Hn & Hq) & Hndp & Hlen)%H.
        exists (cur :: q). rewrite <-app_assoc in *. split_and!; try done. apply simple_path_cons; [done|].
        exists next, q. split_and!; try done. apply NoDup_app in Hndp as (_ & _ & Hndp). simpl in Hndp. by apply NoDup_cons in Hndp as [? _].
      - intros Hlim q (next & q' & -> & He & Hq & _)%simple_path_cons Hndq Hlen; [|done].
        change (cur :: q') with ([cur] ++ q') in *. rewrite app_assoc in *. apply C; eauto. }
    apply Hlift, Heach. intros next r Hnext Hnin. apply IH.
    + apply NoDup_app. split_and!; [done|set_solver|apply NoDup_singleton].
    + apply Forall_app. split; [done|]. constructor; [by eapply edge_bound|done].
    + rewrite length_app. simpl. lia.
Qed.
End paths.

(** C38: the path search returns, and reports simple paths of the control flow graph
    from the start block to the end block, with at most [max_depth + 1] blocks, at
    most [max_paths] of them; when it stays below that limit it has found every
    such path. *)
Theorem find_paths_exact db func blocks start end_ start_idx end_idx max_paths max_depth
    (Hfunc : db_function_at db start = Some func) (Hin : f_contains func end_ = true)
    (Hcfg : f_cfg func = Ok blocks)
    (Hstart : fst <$> list_find (block_contains start) blocks = Some start_idx)
    (Hend : fst <$> list_find (block_contains end_) blocks = Some end_idx) :
  ∃ results,
    handle_find_paths (Some db) start end_ max_paths max_depth =
      Ok (obj [("paths", Array (path_addresses blocks <$> results)); ("count", vnat (length results))]) ∧
    (∀ p, p ∈ results → simple_path blocks end_idx start_idx p ∧ length p ≤ S (max_depth `max` 1)) ∧
    length results ≤ max_paths `max` 1 ∧
    (length results < max_paths `max` 1 →
     ∀ p, simple_path blocks end_idx start_idx p → length p ≤ S (max_depth `max` 1) → p ∈ results).
Proof.
  eexists. split.
  { unfold handle_find_paths. cbn [ok_or result_bind]. rewrite Hfunc. cbn [ok_or result_bind].
    rewrite Hin, Hcfg. cbn [negb result_bind]. rewrite Hstart, Hend. reflexivity. }
  destruct (dfs_explored blocks end_idx (max_depth `max` 1) (max_paths `max` 1) (S (length blocks)) start_idx [] [])
    as [(added & Heq & Hadd) Hlim Hcomp].
  - apply NoDup_singleton.
  - constructor; [|done]. destruct (list_find _ blocks) as [[i b]|] eqn:Hf; [|done]. injection Hstart as ->.
    apply list_find_Some in Hf as [Hi _]. by apply lookup_lt_Some in Hi.
  - simpl. lia.
  - cbn [app] in Heq. split_and!.
    + intros p Hp. rewrite Heq in Hp. apply Hadd in Hp as (q & -> & ? & ? & ?). done.
    + cbn [length] in Hlim. lia.
    + intros Hlt p Hp Hlen. apply (Hcomp Hlt p Hp); [apply Hp|done].
Qed.

(** ** The call graph *)

Section callgraph.
Context (idb : option IDB) (root : Func) (max_depth max_nodes : nat).

(** [a] calls [b], as the handler of callees reports it. *)
Definition calls (a b : Z) : Prop :=
  ∃ l info, handle_callees idb a = Ok l ∧ info ∈ l ∧ parse_address_str (fi_address info) = Ok b.

(** Reachable from the root by [k] calls. *)
Inductive reached : nat → Z → Prop :=
| reached_root : reached 0 (f_start root)
| reached_call k a b : reached k a → calls a b → reached (S k) b.

Record graph_inv (g : Graph) : Prop := {
  gi_size : size (g_nodes g) ≤ max_nodes;
  gi_root : is_Some (g_nodes g !! f_start root);
  gi_edges a b : (a, b) ∈ g_edges g → calls a b ∧ is_Some (g_nodes g !! a);
  gi_closed a b : size (g_nodes g) < max_nodes → (a, b) ∈ g_edges g → is_Some (g_nodes g !! b);
  gi_nodes a : is_Some (g_nodes g !! a) → ∃ k, k ≤ max_depth ∧ reached k a;
  gi_queue a d : (a, d) ∈ g_queue g → is_Some (g_nodes g !! a) ∧ reached d a
}.

Lemma visit_callee_inv cur depth g l info :
  graph_inv g → is_Some (g_nodes g !! cur) → reached depth cur → depth < max_depth →
  handle_callees idb cur = Ok l → info ∈ l → graph_inv (visit_callee max_nodes cur depth g info).
Proof.
  intros [Hsz Hr He Hc Hn Hq] Hcur Hreach Hd Hl Hin. unfold visit_callee.
  destruct (parse_address_str (fi_address info)) as [target|] eqn:Hp; [|done].
  assert (calls cur target) as Hcall by (exists l, info; done).
  case_bool_decide as Hnew.
  - destruct Hnew as [Hnew Hroom]. assert (∀ a : Z, is_Some (g_nodes g !! a) → is_Some (<[target:=info]> (g_nodes g) !! a)) as Hmono.
    { intros a Ha. by apply lookup_insert_is_Some'; right. }
    split; simpl.
    + rewrite map_size_insert_None by done. lia.
    + auto.
    + intros a b [[? ?]%He|[= -> ->]%list_elem_of_singleton]%elem_of_app; auto.
    + intros a b Hlt [Hab|[= -> ->]%list_elem_of_singleton]%elem_of_app.
      * apply Hmono, (Hc a b); done.
      * rewrite lookup_insert_eq. eauto.
    + intros a [<-|[_ Ha]]%lookup_insert_is_Some; [|by apply Hn].
      exists (S depth). split; [lia|]. by eapply reached_call.
    + intros a d [[? ?]%Hq|[= -> ->]%list_elem_of_singleton]%elem_of_app; [auto|].
      rewrite lookup_insert_eq. split; [eauto|]. by eapply reached_call.
  - split; simpl; try done.
    + intros a b [[? ?]%He|[= -> ->]%list_elem_of_singleton]%elem_of_app; auto.
    + intros a b Hlt [Hab|[= -> ->]%list_elem_of_singleton]%elem_of_app; [eauto|].
      destruct (g_nodes g !! target) eqn:E; [eauto|]. destruct Hnew. done.
Qed.

(** Each node enters the queue once. *)
Lemma visit_callee_count cur depth g info :
  size (g_nodes (visit_callee max_nodes cur depth g info)) - length (g_queue (visit_callee max_nodes cur depth g info)) =
    size (g_nodes g) - length (g_queue g) ∧
  (length (g_queue g) ≤ size (g_nodes g) →
   length (g_queue (visit_callee max_nodes cur depth g info)) ≤ size (g_nodes (visit_callee max_nodes cur depth g info))) ∧
  (∀ a, is_Some (g_nodes g !! a) → is_Some (g_nodes (visit_callee max_nodes cur depth g info) !! a)).
Proof.
  unfold visit_callee. destruct (parse_address_str _) as [target|]; [|done].
  case_bool_decide as Hnew; [|done]. simpl. destruct Hnew as [Hnew _].
  rewrite map_size_insert_None, length_app by done. simpl. split_and!; [lia|lia|].
  intros a Ha. by apply lookup_insert_is_Some'; right.
Qed.

Lemma visit_callees_inv cur depth l0 :
  reached depth cur → depth < max_depth → handle_callees idb cur = Ok l0 →
  ∀ l g, (∀ i, i ∈ l → i ∈ l0) → graph_inv g → is_Some (g_nodes g !! cur) →
  let g' := foldl (visit_callee max_nodes cur depth) g l in
  graph_inv g' ∧ size (g_nodes g') - length (g_queue g') = size (g_nodes g) - length (g_queue g) ∧
  (length (g_queue g) ≤ size (g_nodes g) → length (g_queue g') ≤ size (g_nodes g')).
Proof.
  intros Hr Hd Hl0. induction l as [|info l IH]; intros g Hsub Hinv Hcur; [by split_and!|]. simpl.
  destruct (visit_callee_count cur depth g info) as (Hc & Hle & Hmono).
  destruct (IH (visit_callee max_nodes cur depth g info)) as (Hi & Hc' & Hle').
  - intros i Hi. apply Hsub. set_solver.
  - eapply visit_callee_inv; try done. apply Hsub. set_solver.
  - auto.
  - split_and!; [done|congruence|auto].
Qed.

Lemma graph_inv_pop g e rest :
  g_queue g = e :: rest → graph_inv g →
  graph_inv {| g_nodes := g_nodes g; g_edges := g_edges g; g_queue := rest |}.
Proof.
  intros Hq [? ? ? ? ? Hqueue]. split; simpl; try done. intros a d Had. apply Hqueue. rewrite Hq. set_solver.
Qed.

Lemma callgraph_loop_inv fuel g :
  graph_inv g → length (g_queue g) ≤ size (g_nodes g) →
  max_nodes ≤ fuel + (size (g_nodes g) - length (g_queue g)) →
  let g' := callgraph_loop fuel idb max_depth max_nodes g in
  graph_inv g' ∧ (g_queue g' = [] ∨ size (g_nodes g') = max_nodes).
Proof.
  revert g; induction fuel as [|fuel IH]; intros g Hinv Hle Hfuel.
  { pose proof (gi_size _ Hinv). simpl in *. split; [done|]. right. lia. }
  cbn [callgraph_loop]. destruct (g_queue g) as [|[cur depth] rest] eqn:Hq; [by auto|].
  pose proof (graph_inv_pop g _ _ Hq Hinv) as Hpop. simpl in Hle, Hfuel.
  pose proof (gi_queue _ Hinv cur depth ltac:(rewrite Hq; set_solver)) as [Hcur Hreach].
  case_bool_decide as Hdeep; [apply IH; simpl; [done|lia|lia]|].
  case_bool_decide as Hfull; simpl in Hfull.
  { split; [done|]. right. simpl. pose proof (gi_size _ Hinv). lia. }
  destruct (handle_callees idb cur) as [l|e] eqn:Hc; simpl; [|apply IH; simpl; [done|lia|lia]].
  destruct (visit_callees_inv cur depth l Hreach ltac:(lia) Hc l
    {| g_nodes := g_nodes g; g_edges := g_edges g; g_queue := rest |}) as (Hi & Hcnt & Hle'); [done|done|done|].
  simpl in Hcnt, Hle'. apply IH; [done|apply Hle'; lia|lia].
Qed.
End callgraph.

(** The call graph of a function has at most [max_nodes] nodes, each reached
    from the root by at most [max_depth] calls; every edge is a call of a node; and
    when the node limit was not reached, every called function on an edge is a node
    and no function was left waiting. *)
Theorem callgraph_sound idb root max_depth max_nodes :
  let g := callgraph idb root max_depth max_nodes in
  graph_inv idb root (max_depth `max` 1) (max_nodes `max` 1) g ∧
  (size (g_nodes g) < max_nodes `max` 1 → g_queue g = []).
Proof.
  intros g. destruct (callgraph_loop_inv idb root (max_depth `max` 1) (max_nodes `max` 1) (max_nodes `max` 1)
    {| g_nodes := {[f_start root := function_info root]}; g_edges := []; g_queue := [(f_start root, 0)] |})
    as [Hinv Hend].
  - split; simpl.
    + rewrite map_size_singleton. lia.
    + rewrite lookup_singleton_eq. eauto.
    + set_solver.
    + set_solver.
    + intros a [i Ha]. apply lookup_singleton_Some in Ha as [<- _]. exists 0. split; [lia|constructor].
    + intros a d [= -> ->]%list_elem_of_singleton. rewrite lookup_singleton_eq. split; [eauto|constructor].
  - simpl. rewrite map_size_singleton. lia.
  - simpl. rewrite map_size_singleton. lia.
  - split; [exact Hinv|]. intros Hlt. destruct Hend as [?|Hsz]; [done|]. unfold g, callgraph in Hlt. lia.
Qed.

(** ** Callees and callers *)

(** The instruction heads of a function, from an address on. *)
Inductive head_from (db : IDB) (end_ : Z) : Z → Z → Prop :=
| head_here a : (a < end_)%Z → head_from db end_ a a
| head_next a n h : (a < end_)%Z → db_next_head db a = Some n → (a < n)%Z → head_from db end_ n h → head_from db end_ a h.

Section distinct.
Context (db : IDB) (Hpos : ∀ a f, db_function_at db a = Some f → (0 ≤ f_start f)%Z).

(** A call with its other end in a function that is listed as [s]. *)
Definition call_to (g : XRef → Z) (x : XRef) (s : string) : Prop :=
  is_call x = true ∧ ∃ f, db_function_at db (g x) = Some f ∧ s = fmt_hex_alt (f_start f).

Definition listed (acc : gset Z * list FunctionInfo) : list string := fi_address <$> acc.2.

(** The list has no duplicates, and [seen] is what is listed. *)
Definition acc_inv (acc : gset Z * list FunctionInfo) : Prop :=
  NoDup (listed acc) ∧ (∀ a, a ∈ acc.1 → (0 ≤ a)%Z ∧ fmt_hex_alt a ∈ listed acc) ∧
  ∀ s, s ∈ listed acc → ∃ a, a ∈ acc.1 ∧ s = fmt_hex_alt a.

Lemma add_function_spec (g : XRef → Z) x acc :
  acc_inv acc →
  acc_inv (add_function db (g x) (is_call x) acc) ∧
  ∀ s, s ∈ listed (add_function db (g x) (is_call x) acc) ↔ s ∈ listed acc ∨ call_to g x s.
Proof.
  destruct acc as [seen out]. unfold add_function, call_to, acc_inv, listed. intros (Hnd & Hge & Hin).
  destruct (is_call x); [|naive_solver].
  destruct (db_function_at db (g x)) as [f|] eqn:Hf; [|naive_solver].
  case_bool_decide as Hseen.
  { split; [done|]. intros s. split; [by left|]. intros [?|(_ & f' & [= <-] & ->)]; [done|]. by apply Hge. }
  apply Hpos in Hf. cbn [fst snd] in *.
  assert (∀ s, s ∈ fi_address <$> (out ++ [function_info f]) ↔
               s ∈ fi_address <$> out ∨ s = fmt_hex_alt (f_start f)) as Happ.
  { intros s. rewrite fmap_app, elem_of_app. cbn [fmap list_fmap]. by rewrite list_elem_of_singleton. }
  split; [split_and!|].
  - rewrite fmap_app. apply NoDup_app. split_and!; [done| |apply NoDup_singleton].
    intros s (a & Ha & ->)%Hin Heq%list_elem_of_singleton. simpl in Heq. unfold fmt_hex_alt in Heq.
    apply append_inj, fmt_radix_inj in Heq; [|lia|by apply Hge|done]. by subst.
  - intros a. rewrite Happ. intros [->%elem_of_singleton| Ha]%elem_of_union; [by auto|].
    split; [by apply Hge|left; by apply Hge].
  - intros s [(a & ? & ->)%Hin| ->]%Happ; [exists a|exists (f_start f)]; set_solver.
  - intros s. rewrite Happ. naive_solver.
Qed.

Lemma foldl_add_spec (g : XRef → Z) l acc :
  acc_inv acc →
  acc_inv (foldl (λ acc x, add_function db (g x) (is_call x) acc) acc l) ∧
  ∀ s, s ∈ listed (foldl (λ acc x, add_function db (g x) (is_call x) acc) acc l) ↔
       s ∈ listed acc ∨ ∃ x, x ∈ l ∧ call_to g x s.
Proof.
  revert acc; induction l as [|x l IH]; intros acc Hacc; simpl; [set_solver|].
  destruct (add_function_spec g x acc Hacc) as [Hi Hs]. destruct (IH _ Hi) as [Hi' Hs'].
  split; [done|]. intros s. rewrite Hs', Hs. setoid_rewrite elem_of_cons. naive_solver.
Qed.

(** The fuel of the walk is enough when it is the distance to the end. *)
Lemma callees_loop_spec fuel current end_ acc :
  (end_ - current ≤ Z.of_nat fuel)%Z → acc_inv acc →
  acc_inv (callees_loop fuel db current end_ acc) ∧
  ∀ s, s ∈ listed (callees_loop fuel db current end_ acc) ↔
       s ∈ listed acc ∨ ∃ h x, head_from db end_ current h ∧ x ∈ db_xrefs_from db h ∧ call_to x_to x s.
Proof.
  revert current acc; induction fuel as [|fuel IH]; intros current acc Hfuel Hacc; cbn [callees_loop].
  { split; [done|]. intros s. split; [by left|]. intros [?|(h & x & Hh & _)]; [done|]. inversion Hh; lia. }
  destruct (Z.ltb_spec current end_) as [Hlt|Hge].
  2: { split; [done|]. intros s. split; [by left|]. intros [?|(h & x & Hh & _)]; [done|]. inversion Hh; lia. }
  destruct (foldl_add_spec x_to (db_xrefs_from db current) acc Hacc) as [Hi Hs].
  fold (add_callees db current acc) in Hi, Hs.
  assert (∀ s, s ∈ listed (add_callees db current acc) → s ∈ listed acc ∨
            ∃ h x, head_from db end_ current h ∧ x ∈ db_xrefs_from db h ∧ call_to x_to x s) as Hhere.
  { intros s [?|(x & Hx & Hc)]%Hs; [by left|right]. exists current, x. split; [by constructor|done]. }
  assert (∀ n h, db_next_head db current = Some n → (n <= current)%Z → head_from db end_ current h → h = current) as Hback.
  { intros n h Hn Hle Hh. inversion Hh; [done|]. simplify_eq. lia. }
  destruct (db_next_head db current) as [next|] eqn:En; [destruct (Z.leb_spec next current)|].
  - split; [done|]. intros s. split; [apply Hhere|]. rewrite Hs. intros [?|(h & x & Hh & Hx)]; [by left|].
    apply (Hback next) in Hh as ->; [|done|lia]. eauto.
  - destruct (IH next (add_callees db current acc)) as [Hi' Hs']; [lia|done|]. split; [done|].
    intros s. rewrite Hs', Hs. split.
    + intros [[?|(x & Hx & Hc)]|(h & x & Hh & Hx)]; [by left|right; exists current, x|right; exists h, x];
        (split; [|done]); [by constructor|by eapply head_next].
    + intros [?|(h & x & Hh & Hx & Hc)]; [by auto|]. inversion Hh; simplify_eq; eauto 10.
  - split; [done|]. intros s. split; [apply Hhere|]. rewrite Hs. intros [?|(h & x & Hh & Hx)]; [by left|].
    inversion Hh; simplify_eq; eauto.
Qed.

Lemma acc_inv_empty : acc_inv (∅, []).
Proof using Type. clear Hpos db. split_and!; simpl; [constructor|set_solver|set_solver]. Qed.
End distinct.

(** The callees of a function are exactly the functions that a call at one of its
    instructions leads into, and its callers exactly the functions that hold a call to
    its first address, each listed once however many calls there are. *)
Theorem callees_callers_exact db addr func
    (Hpos : ∀ a f, db_function_at db a = Some f → (0 ≤ f_start f)%Z)
    (Hfunc : db_function_at db addr = Some func) :
  (∃ l, handle_callees (Some db) addr = Ok l ∧ NoDup (fi_address <$> l) ∧
     ∀ s, s ∈ fi_address <$> l ↔
       ∃ h x, head_from db (f_end func) (f_start func) h ∧ x ∈ db_xrefs_from db h ∧ call_to db x_to x s) ∧
  (∃ l, handle_callers (Some db) addr = Ok l ∧ NoDup (fi_address <$> l) ∧
     ∀ s, s ∈ fi_address <$> l ↔ ∃ x, x ∈ db_xrefs_to db (f_start func) ∧ call_to db x_from x s).
Proof.
  unfold handle_callees, handle_callers. cbn [ok_or result_bind]. rewrite Hfunc. cbn [ok_or result_bind].
  split; (eexists; split; [reflexivity|]).
  - destruct (callees_loop_spec db Hpos (Z.to_nat (f_end func - f_start func)) (f_start func) (f_end func) (∅, []))
      as [[Hnd _] Hs]; [lia|apply acc_inv_empty|].
    split; [exact Hnd|]. intros s. rewrite (Hs s). unfold listed. set_solver.
  - destruct (foldl_add_spec db Hpos x_from (db_xrefs_to db (f_start func)) (∅, [])) as [[Hnd _] Hs];
      [apply acc_inv_empty|].
    split; [exact Hnd|]. intros s. rewrite (Hs s). unfold listed. set_solver.
Qed.

(** ** A small program *)

(** Two functions; the second calls the first twice.  The blocks of the first are a
    diamond with a back edge. *)
Definition diamond : list BasicBlock :=
  [{| b_start := 16; b_end := 20; b_succs := [20; 24]%Z |};
   {| b_start := 20; b_end := 24; b_succs := [28; 16]%Z |};
   {| b_start := 24; b_end := 28; b_succs := [28]%Z |};
   {| b_start := 28; b_end := 32; b_succs := [] |}].

Definition func_a : Func :=
  {| f_start := 16; f_end := 32; f_name := Some "remainder"; f_len := 16;
     f_contains := λ a, (16 <=? a)%Z && (a <? 32)%Z; f_cfg := Ok diamond |}.
Definition func_b : Func :=
  {| f_start := 32; f_end := 40; f_name := Some "main"; f_len := 8;
     f_contains := λ a, (32 <=? a)%Z && (a <? 40)%Z; f_cfg := Err "no cfg" |}.

Definition sample_db : IDB :=
  {| db_functions := [func_a; func_b]; db_names := [];
     db_function_at := λ a, if (16 <=? a)%Z && (a <? 32)%Z then Some func_a
                            else if (32 <=? a)%Z && (a <? 40)%Z then Some func_b else None;
     db_xrefs_from := λ a, if (a =? 32)%Z || (a =? 36)%Z then [{| x_from := a; x_to := 16; x_type := NearCall |}] else [];
     db_xrefs_to := λ _, []; db_next_head := λ a, Some (a + 4)%Z |}.

Lemma find_paths_exact_witness :
  ∃ results,
    handle_find_paths (Some sample_db) 17 30 10 10 =
      Ok (obj [("paths", Array (path_addresses diamond <$> results)); ("count", vnat (length results))]) ∧
    length results ≤ 10 ∧ (length results < 10 → [0; 1; 3] ∈ results).
Proof.
  destruct (find_paths_exact sample_db func_a diamond 17 30 0 3 10 10) as (results & Hres & _ & Hle & Hall);
    [reflexivity..|]. exists results. split; [exact Hres|]. split; [exact Hle|]. intros Hlt.
  apply Hall; [exact Hlt| |simpl; lia]. split_and!; [reflexivity|reflexivity| |].
  - simpl. unfold edge. split_and!; vm_compute; set_solver.
  - apply (bool_decide_unpack (NoDup [0; 1; 3])). vm_compute. exact I.
Defined.

(** Both ways through the diamond, and nothing through the back edge. *)
Example diamond_paths :
  handle_find_paths (Some sample_db) 17 30 10 10 =
  Ok (obj [("paths", Array [Array [VString "0x10"; VString "0x14"; VString "0x1c"];
                            Array [VString "0x10"; VString "0x18"; VString "0x1c"]]);
           ("count", vnat 2)]).
Proof. vm_compute. reflexivity. Qed.

Lemma callees_callers_exact_witness :
  handle_callees (Some sample_db) 32 = Ok [function_info func_a] ∧
  (∃ l, handle_callers (Some sample_db) 32 = Ok l ∧ NoDup (fi_address <$> l)).
Proof.
  destruct (callees_callers_exact sample_db 32 func_b) as [_ (l & Hl & Hnd & _)].
  - intros a f. unfold sample_db. cbn [db_function_at]. repeat case_match; intros [= <-]; vm_compute; discriminate.
  - vm_compute. reflexivity.
  - split; [vm_compute; reflexivity|]. exists l. split; [exact Hl|exact Hnd].
Defined.

(** A name is resolved to the first function whose name contains it, even when
    a later function has exactly that name. *)
Theorem name_resolution_takes_substring :
  resolve_address_by_name (Some sample_db) "main" = Ok 16%Z ∧ f_name func_b = Some "main" ∧ f_start func_b = 32%Z.
Proof. split_and!; vm_compute; reflexivity. Qed.
