(* ===== verification/ToolTable.v ===== *)
(** * The table of tools (src/tool_registry.rs)

    [ToolCategory] with its names, [ToolInfo], and the static table [TOOL_REGISTRY],
    one definition per group of the source's table (a group of more than 150 lines is
    split). *)

From Stdlib Require Import Ascii.
From stdpp Require Import base strings list.
From S2P Require Import Prelude RustStr.

Local Open Scope string_scope.

Inductive ToolCategory : Type :=
| Core | Functions | Disassembly | Decompile | Xrefs | ControlFlow | Memory | Search
| Metadata | Types | Editing | Debug | Ui | Scripting.

#[export] Instance ToolCategory_eq_dec : EqDecision ToolCategory.
Proof. solve_decision. Defined.

(** [ToolCategory::as_str] *)
Definition category_str (c : ToolCategory) : string :=
  match c with
  | Core => "core"
  | Functions => "functions"
  | Disassembly => "disassembly"
  | Decompile => "decompile"
  | Xrefs => "xrefs"
  | ControlFlow => "control_flow"
  | Memory => "memory"
  | Search => "search"
  | Metadata => "metadata"
  | Types => "types"
  | Editing => "editing"
  | Debug => "debug"
  | Ui => "ui"
  | Scripting => "scripting"
  end.

(** [ToolCategory::description] *)
Definition category_description (c : ToolCategory) : string :=
  match c with
  | Core => "Database open/close and discovery tools"
  | Functions => "List, search, and resolve functions"
  | Disassembly => "Disassemble code at addresses"
  | Decompile => "Decompile functions to pseudocode (requires Hex-Rays)"
  | Xrefs => "Cross-reference analysis (xrefs to/from)"
  | ControlFlow => "Basic blocks, call graphs, control flow"
  | Memory => "Read bytes, strings, and data"
  | Search => "Search for bytes, strings, patterns"
  | Metadata => "Database info, segments, imports, exports"
  | Types => "Types, structs, and stack variable info"
  | Editing => "Patching, renaming, and comment editing"
  | Debug => "Debugger operations (headless unsupported)"
  | Ui => "UI/cursor helpers (headless unsupported)"
  | Scripting => "Execute Python scripts via IDAPython"
  end.

(** [ToolCategory::all] *)
Definition all_categories : list ToolCategory :=
  [Core; Functions; Disassembly; Decompile; Xrefs; ControlFlow; Memory; Search;
   Metadata; Types; Editing; Debug; Ui; Scripting].

(** [replace(['-', ' '], "_")] after [trim] and [to_lowercase]. *)
Definition underscore_char (c : ascii) : ascii :=
  if bool_decide (c = "-"%char) || bool_decide (c = " "%char) then "_"%char else c.

Definition normalize (input : string) : string :=
  str_map underscore_char (to_ascii_lowercase (trim input)).

(** One match arm [p1 | p2 | ... => Ok(c)] *)
Definition category_arms : list (list string * ToolCategory) :=
  [(["core"], Core);
   (["functions"; "function"], Functions);
   (["disassembly"; "disasm"], Disassembly);
   (["decompile"; "decompiler"], Decompile);
   (["xrefs"; "xref"; "references"], Xrefs);
   (["control_flow"; "controlflow"; "cfg"], ControlFlow);
   (["memory"; "data"], Memory);
   (["search"], Search);
   (["metadata"; "meta"; "info"], Metadata);
   (["types"; "type"; "structs"], Types);
   (["editing"; "edit"], Editing);
   (["debug"; "debugger"], Debug);
   (["ui"], Ui);
   (["scripting"; "script"; "eval"], Scripting)].

(** [<ToolCategory as FromStr>::from_str] *)
Definition category_from_str (input : string) : result ToolCategory () :=
  let normalized := normalize input in
  match find (λ arm, bool_decide (normalized ∈ arm.1)) category_arms with
  | Some arm => Ok arm.2
  | None => Err tt
  end.

Record ToolInfo : Type := {
  tool_name : string;
  tool_category : ToolCategory;
  tool_default : bool;
  tool_short_desc : string;
  tool_full_desc : string;
  tool_example : string;
  tool_keywords : list string;
  tool_aliases : list string
}.

#[export] Instance ToolInfo_eq_dec : EqDecision ToolInfo.
Proof. solve_decision. Defined.

(** An entry of the table, its fields in the order category, default, texts, lists. *)
Definition tool (n : string) (c : ToolCategory) (d : bool) (sd fd ex : string)
    (ks als : list string) : ToolInfo :=
  {| tool_name := n; tool_category := c; tool_default := d; tool_short_desc := sd; tool_full_desc := fd;
     tool_example := ex; tool_keywords := ks; tool_aliases := als |}.

(** A text with quotation marks, written with back quotes. *)
Definition unq (s : string) : string :=
  str_map (λ c, if bool_decide (c = "`"%char) then "034"%char else c) s.

Definition core_tools_1 : list ToolInfo := [
  tool "open_idb" Core true
    "Open an IDA database or raw binary"
    "Open an IDA Pro database file or a raw binary for analysis. Supports .i64 (64-bit) and .idb (32-bit) databases, as well as raw binaries like Mach-O/ELF/PE. Raw binaries are auto-analyzed and saved as .i64 alongside the input. If opening a raw binary with no existing .i64 and a sibling .dSYM is present, its DWARF debug info is loaded automatically. Set load_debug_info=true to force loading external debug info after open (optionally specify debug_info_path). The database must be opened before using any other analysis tools. Call close_idb when finished to release database locks; in multi-client servers, coordinate before closing. In HTTP/SSE mode, open_idb returns a close_token that must be provided to close_idb. Returns metadata about the binary: file type, processor, bitness, function count."
    (unq "{`path`: `/path/to/binary`, `load_debug_info`: true}")
    ["open"; "load"; "database"; "binary"; "idb"; "i64"; "macho"; "elf"; "pe"]
    [];
  tool "open_dsc" Core false
    "Open a dyld_shared_cache and load one module; use dsc_add_dylib/dsc_add_region for more"
    "Open an Apple dyld_shared_cache file and extract a single dylib for analysis. Handles DSC-specific loader selection and dscu plugin orchestration automatically. After opening, runs ObjC type and block analysis on the loaded module. Use this instead of open_idb when working with dyld_shared_cache files. Optionally load additional frameworks to resolve cross-module references. To load more code modules after the initial open, call dsc_add_dylib. To load additional data/GOT/stub regions by address, call dsc_add_region."
    (unq "{`path`: `/path/to/dyld_shared_cache_arm64e`, `arch`: `arm64e`, `module`: `/usr/lib/libobjc.A.dylib`, `frameworks`: [`/System/Library/Frameworks/Foundation.framework/Foundation`]}")
    ["open"; "dsc"; "dyld"; "shared"; "cache"; "dylib"; "module"; "region"; "apple"; "macos"; "ios"]
    [];
  tool "dsc_add_dylib" Core false
    "Load an additional dylib into an open DSC database (light analysis only)"
    "Incrementally load a single dylib into a database previously opened via open_dsc. Uses the dscu plugin to add the module, then runs ObjC type analysis. Skips full auto-analysis to keep the operation fast. Call once per module; then check analysis_status. If auto_is_ok is false, run analyze_funcs before relying on xrefs/decompile. Requires: database opened via open_dsc."
    (unq "{`module`: `/System/Library/Frameworks/Foundation.framework/Foundation`, `timeout_secs`: 300}")
    ["dsc"; "dyld"; "dylib"; "module"; "load"; "add"; "framework"; "cache"]
    [];
  tool "dsc_add_region" Core false
    "Load a DSC memory region by address (data/GOT/stubs)"
    "Incrementally load a specific region from the currently open DSC database by address. Accepts exactly one address per call. Uses the dscu plugin region mode for on-demand data/GOT/stub loading. This does not force full auto-analysis; check analysis_status and run analyze_funcs when deeper cross-reference/decompile fidelity is required after loading. Requires: database opened via open_dsc."
    (unq "{`address`: `0x180116000`, `timeout_secs`: 300}")
    ["dsc"; "dyld"; "region"; "memory"; "address"; "got"; "stubs"; "data"; "load"]
    [];
  tool "load_debug_info" Core false
    "Load external debug info (e.g., dSYM/DWARF)"
    "Load external debug info (e.g., DWARF from a dSYM) into the current database. If path is omitted, attempts to locate a sibling .dSYM for the currently-open database. Returns whether the load succeeded."
    (unq "{`path`: `/path/to/binary.dSYM/Contents/Resources/DWARF/binary`}")
    ["debug"; "dwarf"; "dsym"; "symbols"; "load"]
    [];
  tool "get_analysis_status" Core true
    "Report auto-analysis status"
    "Report auto-analysis status (auto_is_ok, auto_state) so clients can determine whether analysis-dependent tools like xrefs or decompile are fully ready."
    "{}"
    ["analysis"; "autoanalysis"; "status"; "xrefs"; "decompile"]
    ["analysis_status"];
  tool "close_idb" Core true
    "Close the current database (release locks)"
    "Close the currently open IDA database, releasing resources. Call this when done with analysis or before opening a different database. In multi-client servers, coordinate before closing to avoid interrupting others. In HTTP/SSE mode, provide the close_token returned by open_idb."
    (unq "{`close_token`: `token-from-open-idb`}")
    ["close"; "unload"; "database"]
    [];
  tool "tool_catalog" Core true
    "Discover available tools by query or category"
    "Search for relevant tools based on what you're trying to accomplish. Returns tool names with short descriptions and relevance reasons. Use this to find the right tool before calling tool_help for full details."
    (unq "{`query`: `find all callers of a function`}")
    ["discover"; "find"; "search"; "tools"; "help"; "catalog"]
    [];
  tool "tool_help" Core true
    "Get full documentation for a tool"
    "Returns complete documentation for a specific tool including: full description, parameter schema, and example invocation. Use tool_catalog first to find the tool name."
    (unq "{`name`: `list_functions`}")
    ["help"; "docs"; "documentation"; "schema"; "usage"]
    []].

Definition core_tools_2 : list ToolInfo := [
  tool "get_task_status" Core true
    "Check status of a background task (e.g. DSC loading)"
    "Check the status of a background task started by open_dsc. Returns 'running' (with progress message), 'completed' (with db_info — database is already open and ready for analysis), or 'failed' (with error). Use the task_id returned by open_dsc when a new .i64 must be created."
    (unq "{`task_id`: `dsc-abc123`}")
    ["task"; "status"; "poll"; "background"; "dsc"; "progress"]
    ["task_status"];
  tool "get_database_info" Core true
    "Get database metadata and summary"
    "Returns metadata about the currently open database: file type, processor architecture, bitness, entry points, segment count, function count, and other summary info."
    "{}"
    ["info"; "metadata"; "summary"; "database"; "binary"]
    ["idb_meta"]].

Definition function_tools : list ToolInfo := [
  tool "list_functions" Functions false
    "List functions with pagination and filtering"
    "List all functions in the database with optional name filtering. Supports pagination via offset/limit. Returns function address, name, and size. Use filter parameter to search by substring in function name."
    (unq "{`offset`: 0, `limit`: 100, `filter`: `init`}")
    ["functions"; "list"; "enumerate"; "find"; "filter"; "subroutines"]
    ["list_funcs"];
  tool "get_function_by_name" Functions false
    "Find function address by name"
    "Resolve a function name to its address. Supports exact names and demangled names. Returns the function's address, full name, and size if found."
    (unq "{`name`: `main`}")
    ["resolve"; "find"; "lookup"; "function"; "name"; "address"]
    ["resolve_function"];
  tool "get_function_prototype" Functions false
    "Get the type/prototype declaration of a function"
    "Retrieve the type declaration (prototype string) for a function. Uses IDA's type system to extract the C prototype. Returns: address, prototype string, type kind."
    (unq "{`address`: `0x100000f00`}")
    ["prototype"; "type"; "function"; "declaration"; "signature"]
    [];
  tool "get_function_at_address" Functions false
    "Find the function containing an address"
    "Return the function that contains the given address, including start/end and size. Useful for mapping PC/LR to a function."
    (unq "{`address`: `0x1000`}")
    ["function"; "address"; "pc"; "lr"; "containing"]
    ["function_at"];
  tool "batch_lookup_functions" Functions false
    "Batch lookup multiple functions by name"
    "Look up multiple function names at once. Returns address and size for each found function. More efficient than multiple get_function_by_name calls."
    (unq "{`names`: [`main`, `printf`, `malloc`]}")
    ["lookup"; "batch"; "multiple"; "functions"; "names"]
    ["lookup_funcs"];
  tool "run_auto_analysis" Functions false
    "Run auto-analysis and wait for completion"
    "Run IDA auto-analysis and wait for completion. Returns whether analysis completed and current function count."
    (unq "{`timeout_secs`: 120}")
    ["analyze"; "functions"; "analysis"; "auto"]
    ["analyze_funcs"]].

Definition disassembly_tools : list ToolInfo := [
  tool "disassemble" Disassembly false
    "Disassemble instructions at an address"
    "Disassemble machine code starting at the given address. Returns assembly instructions with addresses and opcodes. Specify count to control how many instructions to disassemble."
    (unq "{`address`: `0x1000`, `count`: 20}")
    ["disassemble"; "disasm"; "assembly"; "instructions"; "code"]
    ["disasm"];
  tool "disassemble_function" Disassembly false
    "Disassemble a function by name"
    "Disassemble a function given its name. Resolves the name to an address and disassembles the specified number of instructions."
    (unq "{`name`: `main`, `count`: 50}")
    ["disassemble"; "function"; "name"; "assembly"]
    ["disasm_by_name"];
  tool "disassemble_function_at" Disassembly false
    "Disassemble the function containing an address"
    "Disassemble the function that contains the provided address. Useful when you only have a PC/LR."
    (unq "{`address`: `0x1000`, `count`: 200}")
    ["disassemble"; "function"; "address"; "pc"; "lr"]
    ["disasm_function_at"]].

Definition decompile_tools : list ToolInfo := [
  tool "decompile_function" Decompile false
    "Decompile function to C pseudocode"
    "Decompile a function using Hex-Rays decompiler (if available). Returns C-like pseudocode. Accepts address or function name."
    (unq "{`address`: `0x1000`}")
    ["decompile"; "pseudocode"; "c"; "source"; "hex-rays"]
    ["decompile"];
  tool "get_pseudocode_at" Decompile false
    "Get pseudocode for specific address/range"
    "Get decompiled pseudocode for a specific address or address range (e.g., a basic block). Unlike decompile_function which returns the full function, this returns only statements corresponding to the given address(es)."
    (unq "{`address`: `0x1000`, `end_address`: `0x1020`}")
    ["pseudocode"; "decompile"; "block"; "range"; "statement"]
    ["pseudocode_at"];
  tool "decompile_structured" Decompile false
    "Decompile function to structured AST (ctree JSON)"
    "Decompile a function and return the Hex-Rays ctree as structured JSON. Each node has an 'op' field (if/while/call/asg/add/var/num/...) with recursive children. Includes local variables with types and function signature. Useful for programmatic analysis rather than reading pseudocode text."
    (unq "{`address`: `0x1000`, `max_depth`: 20, `include_types`: true}")
    ["decompile"; "structured"; "ast"; "ctree"; "json"; "hex-rays"; "tree"]
    [];
  tool "batch_decompile" Decompile false
    "Decompile multiple functions at once"
    "Decompile multiple functions in a single call. Accepts an array of addresses (hex strings or numbers). Returns pseudocode for each address, with success/error status per entry. Useful for bulk analysis without repeated round-trips."
    (unq "{`addresses`: [`0x1000`, `0x2000`, `0x3000`]}")
    ["decompile"; "batch"; "multiple"; "bulk"; "pseudocode"]
    [];
  tool "search_pseudocode" Search false
    "Search decompiled pseudocode for a text pattern"
    "Iterate over all functions, decompile each, and return those whose pseudocode contains the given pattern (case-sensitive substring match). No regex crate used. Returns matching function addresses, names, and full pseudocode. Use limit to cap results and timeout_secs to bound execution time."
    (unq "{`pattern`: `malloc`, `limit`: 10}")
    ["search"; "pseudocode"; "decompile"; "pattern"; "find"; "grep"]
    [];
  tool "scan_memory_table" Memory false
    "Scan a memory table by reading entries at stride intervals"
    "Read memory at a base address, stepping by stride bytes for count entries. Useful for scanning vtables, function pointer tables, or any regular-stride data structure. Returns hex bytes for each entry. Default stride is 8 bytes (pointer size on 64-bit), max count is 256."
    (unq "{`base_address`: `0x1000`, `stride`: 8, `count`: 16}")
    ["table"; "scan"; "memory"; "vtable"; "pointer"; "stride"; "bytes"]
    ["table_scan"];
  tool "diff_pseudocode" Decompile false
    "Diff two functions' decompiled pseudocode line by line"
    "Decompile two functions and produce a line-by-line diff of their pseudocode. Lines prefixed with ' ' are identical, '-' only in function1, '+' only in function2. Returns similarity_ratio (0.0-1.0), full pseudocode for both, and diff_lines array. No external diff crate used - pure std comparison."
    (unq "{`addr1`: `0x1000`, `addr2`: `0x2000`}")
    ["diff"; "compare"; "functions"; "decompile"; "pseudocode"; "similarity"]
    ["diff_functions"]].

Definition xref_tools : list ToolInfo := [
  tool "get_xrefs_to" Xrefs false
    "Find all references TO an address"
    "Find all cross-references pointing to the given address. Shows what code/data references this location. Useful for finding callers, data usage, etc."
    (unq "{`address`: `0x1000`}")
    ["xrefs"; "references"; "to"; "callers"; "usage"]
    ["xrefs_to"];
  tool "get_xrefs_from" Xrefs false
    "Find all references FROM an address"
    "Find all cross-references originating from the given address. Shows what this instruction/data references. Useful for finding callees, data accesses, etc."
    (unq "{`address`: `0x1000`}")
    ["xrefs"; "references"; "from"; "callees"; "targets"]
    ["xrefs_from"];
  tool "get_xrefs_to_string" Xrefs false
    "Find xrefs to strings matching a query"
    "Find strings that match a query and return xrefs to each match. Useful for 'xref to cstring' workflows."
    (unq "{`query`: `value=%d`, `limit`: 10}")
    ["xrefs"; "strings"; "cstring"; "references"; "usage"]
    ["xrefs_to_string"];
  tool "build_xref_matrix" Xrefs false
    "Build xref matrix between addresses"
    "Build a cross-reference matrix showing relationships between multiple addresses. Returns a boolean matrix indicating which addresses reference which others."
    (unq "{`addresses`: [`0x1000`, `0x2000`, `0x3000`]}")
    ["xrefs"; "matrix"; "relationships"; "graph"]
    ["xref_matrix"]].

Definition control_flow_tools : list ToolInfo := [
  tool "get_basic_blocks" ControlFlow false
    "Get basic blocks of a function"
    "Get the control flow graph basic blocks for a function. Returns block addresses, sizes, and successor relationships."
    (unq "{`address`: `0x1000`}")
    ["basic"; "blocks"; "cfg"; "control"; "flow"; "graph"]
    ["basic_blocks"];
  tool "get_callers" ControlFlow false
    "Find all callers of a function"
    "Find all functions that call the specified function. Returns caller addresses and names."
    (unq "{`address`: `0x1000`}")
    ["callers"; "called"; "by"; "references"; "xrefs"]
    ["callers"];
  tool "get_callees" ControlFlow false
    "Find all functions called by a function"
    "Find all functions that are called by the specified function. Returns callee addresses and names."
    (unq "{`address`: `0x1000`}")
    ["callees"; "calls"; "targets"; "functions"]
    ["callees"];
  tool "build_callgraph" ControlFlow false
    "Build call graph from a function"
    "Build a call graph starting from a function, exploring callers/callees up to the specified depth. Returns nodes and edges."
    (unq "{`roots`: `0x1000`, `max_depth`: 2, `max_nodes`: 256}")
    ["callgraph"; "call"; "graph"; "depth"; "tree"]
    ["callgraph"];
  tool "find_control_flow_paths" ControlFlow false
    "Find control-flow paths between two addresses"
    "Find control-flow paths between two addresses within the same function. Returns all paths up to max_depth. Both addresses must be in the same function."
    (unq "{`start`: `0x1000`, `end`: `0x2000`, `max_depth`: 5}")
    ["paths"; "route"; "flow"; "between"; "reach"]
    ["find_paths"]].

Definition memory_tools : list ToolInfo := [
  tool "read_bytes" Memory false
    "Read raw bytes from an address"
    "Read raw bytes from the database at the specified address. Returns bytes as hex string. Useful for examining data. You can also supply a symbol/function name with an optional offset."
    (unq "{`name`: `interesting_function`, `offset`: 0, `size`: 32}")
    ["bytes"; "read"; "memory"; "data"; "raw"; "hex"]
    ["get_bytes"];
  tool "read_string" Memory false
    "Read string at an address"
    "Read a null-terminated string at the specified address. Supports C strings and other string types recognized by IDA."
    (unq "{`address`: `0x1000`}")
    ["string"; "read"; "text"; "ascii"; "data"]
    ["get_string"];
  tool "read_byte" Memory false
    "Read 8-bit value"
    "Read an unsigned 8-bit value (byte) at the specified address."
    (unq "{`address`: `0x1000`}")
    ["byte"; "u8"; "read"; "value"]
    ["get_u8"];
  tool "read_word" Memory false
    "Read 16-bit value"
    "Read an unsigned 16-bit value (word) at the specified address."
    (unq "{`address`: `0x1000`}")
    ["word"; "u16"; "read"; "value"]
    ["get_u16"];
  tool "read_dword" Memory false
    "Read 32-bit value"
    "Read an unsigned 32-bit value (dword) at the specified address."
    (unq "{`address`: `0x1000`}")
    ["dword"; "u32"; "read"; "value"]
    ["get_u32"];
  tool "read_qword" Memory false
    "Read 64-bit value"
    "Read an unsigned 64-bit value (qword) at the specified address."
    (unq "{`address`: `0x1000`}")
    ["qword"; "u64"; "read"; "value"]
    ["get_u64"];
  tool "read_global_variable" Memory false
    "Read global value by name or address"
    "Read a global value by name or address. Returns value and raw bytes."
    (unq "{`query`: `g_flag`}")
    ["global"; "value"; "read"; "symbol"; "data"]
    ["get_global_value"];
  tool "convert_number" Memory false
    "Convert integers between bases"
    "Convert integers between decimal/hex/binary and show ASCII bytes when possible."
    (unq "{`inputs`: [`0x41424344`, 1234]}")
    ["int"; "convert"; "hex"; "decimal"; "ascii"]
    ["int_convert"]].

Definition search_tool_entries : list ToolInfo := [
  tool "search_bytes" Search false
    "Search for byte pattern"
    "Search for a byte pattern in the database. Supports wildcards. Returns all matching addresses up to the limit."
    (unq "{`pattern`: `48 89 5C 24`, `limit`: 100}")
    ["find"; "search"; "bytes"; "pattern"; "hex"]
    ["find_bytes"];
  tool "search_text" Search false
    "Search for text or immediate values"
    "General search tool. Searches for text strings or immediate values in instructions. Use search_bytes for byte-pattern searches."
    (unq "{`targets`: `password`, `kind`: `text`}")
    ["search"; "find"; "text"; "string"; "immediate"]
    ["search"];
  tool "list_strings" Search false
    "List all strings in the database"
    "List strings found in the database with pagination and optional substring filter (filter/query). Returns address and content."
    (unq "{`offset`: 0, `limit`: 100, `filter`: `http`}")
    ["strings"; "list"; "text"; "data"]
    ["strings"; "find_string"; "analyze_strings"];
  tool "search_instructions" Search false
    "Find instruction sequences by mnemonic"
    "Search for instruction mnemonic patterns. If patterns is an array, matches contiguous sequences. Each pattern matches the mnemonic substring unless it contains whitespace or commas (then full line match)."
    (unq "{`patterns`: [`mov`, `bl`], `limit`: 5}")
    ["find"; "instructions"; "sequence"; "pattern"]
    ["find_insns"];
  tool "search_instruction_operands" Search false
    "Find instructions by operand substring"
    "Search for instructions whose operand text matches any provided substring. Returns address, mnemonic, operands, and disasm line."
    (unq "{`patterns`: [`sp`, `0x10`], `limit`: 5}")
    ["find"; "operands"; "instructions"; "pattern"]
    ["find_insn_operands"]].

Definition metadata_tools : list ToolInfo := [
  tool "list_segments" Metadata false
    "List all segments"
    "List all segments in the database with their addresses, sizes, names, and permissions (read/write/execute)."
    "{}"
    ["segments"; "sections"; "memory"; "layout"]
    ["segments"];
  tool "get_address_info" Metadata false
    "Resolve address to segment/function/symbol"
    "Return address context including segment info, containing function, and nearest named symbol."
    (unq "{`address`: `0x1000`}")
    ["address"; "segment"; "function"; "symbol"; "context"]
    ["addr_info"];
  tool "list_imports" Metadata false
    "List imported functions"
    "List all imported external symbols with their addresses and names."
    (unq "{`offset`: 0, `limit`: 100}")
    ["imports"; "external"; "libraries"; "api"]
    ["imports"];
  tool "list_exports" Metadata false
    "List exported functions"
    "List all exported functions/symbols with their addresses and names."
    (unq "{`offset`: 0, `limit`: 100}")
    ["exports"; "symbols"; "public"; "api"]
    ["exports"];
  tool "export_functions" Metadata false
    "Export functions (JSON)"
    "Export functions in JSON format. If addrs is provided, only export those functions."
    (unq "{`addrs`: [`0x1000`, `0x2000`], `format`: `json`}")
    ["export"; "functions"; "json"; "dump"]
    ["export_funcs"];
  tool "list_entry_points" Metadata false
    "List entry points"
    "List all entry points in the binary (main, DllMain, etc.)."
    "{}"
    ["entry"; "start"; "main"; "entrypoint"]
    ["entrypoints"];
  tool "list_globals" Metadata false
    "List global variables"
    "List global variables and data items with their addresses, names, and types."
    (unq "{`offset`: 0, `limit`: 100}")
    ["globals"; "variables"; "data"; "symbols"]
    []].

Definition type_tools : list ToolInfo := [
  tool "list_local_types" Types false
    "List local types"
    "List local types (typedefs, enums, structs, etc.) with pagination and optional filter."
    (unq "{`query`: `struct`, `limit`: 50}")
    ["types"; "local"; "typedef"]
    ["local_types"];
  tool "get_xrefs_to_struct_field" Xrefs false
    "Xrefs to a struct field"
    "Get cross-references to a struct field by struct name/ordinal and member name/index."
    (unq "{`name`: `Outer`, `member_name`: `inner`, `limit`: 25}")
    ["xrefs"; "struct"; "field"; "member"]
    ["xrefs_to_field"];
  tool "declare_c_type" Types false
    "Declare a type in the local type library"
    "Parse a C declaration and store it in the local type library (optionally replacing existing)."
    (unq "{`decl`: `typedef int mcp_int_t;`, `replace`: true}")
    ["type"; "declare"; "typedef"]
    ["declare_type"];
  tool "apply_type" Types false
    "Apply a type to an address or stack variable"
    "Apply a named type or C declaration to an address/symbol. For stack vars, provide stack_offset or stack_name plus decl."
    (unq "{`name`: `interesting_function`, `stack_offset`: -16, `decl`: `int mcp_local;`}")
    ["types"; "apply"; "annotations"]
    ["apply_types"];
  tool "infer_type" Types false
    "Infer/guess type at an address"
    "Guess a type for an address or symbol using IDA's heuristics."
    (unq "{`name`: `interesting_function`}")
    ["types"; "infer"; "analysis"]
    ["infer_types"];
  tool "get_stack_frame" Types false
    "Get stack frame info"
    "Get stack frame layout for the function at an address, including args/locals ranges and per-member type info."
    (unq "{`address`: `0x1000`}")
    ["stack"; "frame"; "locals"]
    ["stack_frame"];
  tool "create_stack_variable" Types false
    "Declare a stack variable"
    "Define a stack variable in a function frame using a C declaration. Provide function address/name and stack offset (negative for locals)."
    (unq "{`name`: `interesting_function`, `offset`: -16, `var_name`: `mcp_local`, `decl`: `int mcp_local;`}")
    ["stack"; "declare"; "variable"]
    ["declare_stack"];
  tool "delete_stack_variable" Types false
    "Delete a stack variable"
    "Delete a stack variable by name or offset in a function frame."
    (unq "{`name`: `interesting_function`, `offset`: -16}")
    ["stack"; "delete"; "variable"]
    ["delete_stack"];
  tool "list_enums" Types false
    "List all enum types in the database"
    "List all enum type definitions in the IDA local types database. Returns each enum name and C declaration. Supports filtering by name substring and pagination."
    (unq "{`filter`: `Error`, `limit`: 20}")
    ["enum"; "types"; "local"; "list"; "names"]
    [];
  tool "create_enum" Types false
    "Create an enum type from a C declaration"
    (unq "Create a new enum type in the IDA local types database from a C declaration string. Example: `enum ErrorCode { OK = 0, ERR_INVALID = 1, ERR_OVERFLOW = 2 };`. Use list_enums to verify. Use declare_c_type for structs.")
    (unq "{`decl`: `enum SwapResult { SWAP_OK = 0, SWAP_ERR_SLIPPAGE = 1, SWAP_ERR_FUNDS = 2 };`}")
    ["enum"; "create"; "type"; "declare"; "define"]
    [];
  tool "list_structs" Types false
    "List structs with pagination"
    "List structs (UDTs) in the database with optional name filtering."
    (unq "{`limit`: 50, `filter`: `objc`}")
    ["structs"; "types"; "list"]
    ["structs"];
  tool "get_struct_info" Types false
    "Get struct info by name or ordinal"
    "Get struct details including member layout and sizes."
    (unq "{`name`: `MyStruct`}")
    ["struct"; "info"; "types"]
    ["struct_info"];
  tool "read_struct_at_address" Types false
    "Read a struct instance at an address"
    "Read raw bytes for each struct member at a given address."
    (unq "{`address`: `0x1000`, `name`: `MyStruct`}")
    ["struct"; "read"; "values"]
    ["read_struct"];
  tool "search_structs" Types false
    "Search structs by name"
    "Search for structs by name with optional filter and pagination. Returns the same structure list output as structs."
    (unq "{`query`: `my_struct`, `limit`: 20}")
    ["struct"; "search"; "types"]
    []].

Definition editing_tools : list ToolInfo := [
  tool "set_comment" Editing false
    "Set comments at an address"
    "Set a non-repeatable or repeatable comment at an address. Empty string clears the comment. You can also supply a symbol/function name with an optional offset."
    (unq "{`name`: `interesting_function`, `comment`: `note`, `repeatable`: false}")
    ["comments"; "set"; "annotate"]
    ["set_comments"];
  tool "set_function_comment" Editing false
    "Set a function-level comment (visible at function entry)"
    "Set a comment at the function entry point using IDA's function comment API. This differs from set_comment (per-address) and set_decompiler_comment (per-decompiler-line). Function comments are shown in function listings and navigation views."
    (unq "{`name`: `process_swap`, `comment`: `Handles swap instruction routing`}")
    ["comment"; "function"; "annotate"; "note"]
    [];
  tool "patch_assembly" Editing false
    "Patch instructions with assembly text"
    "Assemble a single instruction line at the target address and patch the bytes. Requires a processor module with assembler support; may fail on some targets. You can supply an address or a symbol name with an optional offset."
    (unq "{`name`: `interesting_function`, `offset`: 0, `line`: `nop`}")
    ["patch"; "asm"; "edit"; "modify"]
    ["patch_asm"];
  tool "patch_bytes" Editing false
    "Patch bytes at an address"
    "Patch bytes in the database at the given address. You can also supply a symbol/function name with an optional offset."
    (unq "{`name`: `interesting_function`, `offset`: 0, `bytes`: `1f 20 03 d5`}")
    ["patch"; "bytes"; "edit"; "modify"]
    ["patch"];
  tool "rename_symbol" Editing false
    "Rename symbols"
    "Rename a symbol at an address. Optional flags map to IDA set_name flags. You can also supply the current name instead of an address."
    (unq "{`current_name`: `interesting_function`, `name`: `interesting_function_renamed`, `flags`: 0}")
    ["rename"; "symbol"; "edit"]
    ["rename"];
  tool "batch_rename" Editing false
    "Rename multiple symbols at once"
    "Rename multiple symbols in one call. Each entry specifies an address or current name plus the new name. Results are returned per-entry (success/error). Useful for leaf-first renaming workflows to reduce round-trips."
    (unq "{`renames`: [{`address`: `0x1000`, `new_name`: `process_swap`}, {`current_name`: `sub_2000`, `new_name`: `validate_amount`}]}")
    ["rename"; "batch"; "bulk"; "symbol"; "multiple"]
    [];
  tool "set_function_prototype" Editing false
    "Apply a C prototype declaration to a function"
    (unq "Apply a C function prototype string to a function in the IDA database. The prototype is parsed and applied using IDA's type system. Example prototype: `int __fastcall foo(void *ctx, int len)`")
    (unq "{`address`: `0x100000f00`, `prototype`: `int __fastcall process_swap(void *ctx, int amount)`}")
    ["prototype"; "type"; "function"; "set"; "declaration"; "signature"; "apply"]
    [];
  tool "rename_local_variable" Editing false
    "Rename a local variable in decompiled pseudocode"
    "Rename a local variable in the Hex-Rays decompiled pseudocode. Requires Hex-Rays decompiler. The change is persisted to the IDB."
    (unq "{`func_address`: `0x100000f00`, `lvar_name`: `v1`, `new_name`: `buffer_size`}")
    ["rename"; "lvar"; "local"; "variable"; "decompiler"; "pseudocode"]
    ["rename_lvar"];
  tool "set_local_variable_type" Editing false
    "Set the type of a local variable in decompiled pseudocode"
    (unq "Change the type of a local variable in the Hex-Rays decompiled pseudocode. Accepts C type declaration strings (e.g. `int *`, `DWORD`). Requires Hex-Rays decompiler.")
    (unq "{`func_address`: `0x100000f00`, `lvar_name`: `v1`, `type_str`: `char *`}")
    ["type"; "lvar"; "local"; "variable"; "decompiler"; "pseudocode"; "retype"]
    ["set_lvar_type"];
  tool "rename_stack_variable" Editing false
    "Rename a stack frame variable in a function"
    "Rename a local variable in a function stack frame. Locates the variable by its current name and renames it. Requires a valid function address or name."
    (unq "{`func_address`: `0x100000f00`, `name`: `var_4`, `new_name`: `buffer_size`}")
    ["rename"; "stack"; "variable"; "frame"; "local"]
    [];
  tool "set_stack_variable_type" Editing false
    "Set the type of a stack frame variable"
    (unq "Set the type of a local variable in a function stack frame. Accepts C type declaration strings (e.g. `char *`, `DWORD`, `void *`). Different from set_local_variable_type which works on Hex-Rays variables.")
    (unq "{`func_address`: `0x100000f00`, `name`: `buffer_size`, `type_decl`: `int`}")
    ["type"; "stack"; "variable"; "frame"; "local"; "retype"]
    [];
  tool "set_decompiler_comment" Editing false
    "Set a comment in decompiled pseudocode"
    "Attach a comment to a specific address in the Hex-Rays decompiled pseudocode. Use itp=69 (ITP_SEMI) for end-of-line comments, itp=74 (ITP_BLOCK1) for block comments. Empty comment string clears an existing comment. Requires Hex-Rays decompiler."
    (unq "{`func_address`: `0x100000f00`, `address`: `0x100000f10`, `comment`: `check buffer size`}")
    ["comment"; "decompiler"; "pseudocode"; "annotate"; "hex-rays"]
    []].

Definition scripting_tools : list ToolInfo := [
  tool "run_script" Scripting false
    "Execute Python code via IDAPython"
    "Execute a Python script via IDAPython in the currently open database. Provide either 'code' (inline Python) or 'file' (path to a .py file). Has full access to all ida_* modules (ida_funcs, ida_bytes, ida_segment, etc.), idc, and idautils. stdout and stderr are captured and returned. Use this for custom analysis that goes beyond the built-in tools. Requires that the IDAPython plugin is loaded (available by default in IDA Pro). API reference: https://python.docs.hex-rays.com"
    (unq "{`code`: `import idautils\nfor f in idautils.Functions():\n    print(hex(f))`}")
    ["script"; "python"; "execute"; "eval"; "idapython"; "run"; "code"; "file"]
    []].

Definition debug_tools_1 : list ToolInfo := [
  tool "dbg_load_debugger" Debug false
    "Load a debugger module for the current binary"
    "Load a debugger module (e.g. 'mac', 'linux', 'gdb', 'win32'). Must be called before starting or attaching to a debug session. Automatically disables exception dialogs for headless operation via set_debugger_options(0)."
    (unq "{`debugger_name`: `mac`}")
    ["debug"; "debugger"; "load"; "attach"; "mac"; "linux"; "gdb"]
    [];
  tool "dbg_start_process" Debug false
    "Start the target process under the debugger"
    "Launch the target binary under the IDA debugger. Auto-loads the native debugger if not already loaded. Waits for the first suspension event (breakpoint or exception) before returning. Returns IP, event code, and process state."
    (unq "{`path`: `/usr/bin/ls`, `args`: `-la /tmp`}")
    ["debug"; "process"; "start"; "launch"; "run"; "execute"]
    [];
  tool "dbg_attach_process" Debug false
    "Attach the debugger to a running process by PID"
    "Attach IDA's debugger to an already-running process identified by PID. Waits for the process to suspend after attachment."
    (unq "{`pid`: 1234}")
    ["debug"; "process"; "attach"; "pid"; "running"]
    [];
  tool "dbg_detach_process" Debug false
    "Detach the debugger without killing the process"
    "Detach IDA's debugger from the current process, leaving the process running independently. The debug session ends but the process continues."
    "{}"
    ["debug"; "process"; "detach"; "stop"; "disconnect"]
    [];
  tool "dbg_exit_process" Debug false
    "Terminate the debugged process"
    "Forcibly terminate the process currently being debugged and end the debug session."
    "{}"
    ["debug"; "process"; "exit"; "kill"; "terminate"; "stop"]
    [];
  tool "dbg_get_state" Debug false
    "Get current debugger and process state"
    "Query the current debugger state: DSTATE_NOTASK (no process), DSTATE_RUN (running), or DSTATE_SUSP (suspended at breakpoint). When suspended, also returns IP, SP, and current thread."
    "{}"
    ["debug"; "state"; "status"; "process"; "running"; "suspended"]
    [];
  tool "dbg_add_breakpoint" Debug false
    "Set a breakpoint at an address"
    "Add a software, execution, or memory access breakpoint at the given address. Breakpoint types: 'soft' (software, default), 'exec' (hardware execution), 'write' (hardware write watchpoint), 'read' (hardware read watchpoint), 'rdwr' (hardware read/write watchpoint). Optional condition expression supported."
    (unq "{`address`: `0x100001234`, `bpt_type`: `soft`}")
    ["debug"; "breakpoint"; "bpt"; "break"; "software"; "hardware"; "watchpoint"; "set"]
    [];
  tool "dbg_del_breakpoint" Debug false
    "Delete a breakpoint at an address"
    "Remove an existing breakpoint at the given address from the IDA database."
    (unq "{`address`: `0x100001234`}")
    ["debug"; "breakpoint"; "bpt"; "delete"; "remove"; "clear"]
    [];
  tool "dbg_enable_breakpoint" Debug false
    "Enable or disable a breakpoint"
    "Toggle a breakpoint on or off without deleting it. Useful for temporarily disabling breakpoints without losing their configuration."
    (unq "{`address`: `0x100001234`, `enable`: false}")
    ["debug"; "breakpoint"; "bpt"; "enable"; "disable"; "toggle"]
    [];
  tool "dbg_list_breakpoints" Debug false
    "List all breakpoints in the database"
    "Enumerate all breakpoints currently defined in the IDA database, including their address, type, size, enabled status, and optional condition."
    "{}"
    ["debug"; "breakpoint"; "bpt"; "list"; "enumerate"; "show"]
    [];
  tool "dbg_continue" Debug false
    "Continue execution until the next debug event"
    "Resume execution of the suspended process and wait for the next breakpoint hit, exception, or other debug event. Returns event code, new IP, and process state. Process must be in DSTATE_SUSP state."
    (unq "{`timeout_secs`: 30}")
    ["debug"; "continue"; "resume"; "run"; "execute"; "go"]
    [];
  tool "dbg_step_into" Debug false
    "Single-step into the next instruction (follows calls)"
    "Execute exactly one instruction, following call instructions into callees. Returns the new IP after stepping. Process must be in DSTATE_SUSP state."
    (unq "{`timeout_secs`: 5}")
    ["debug"; "step"; "into"; "single"; "instruction"; "trace"]
    [];
  tool "dbg_step_over" Debug false
    "Single-step over the next instruction (skips calls)"
    "Execute exactly one instruction, treating calls as single steps (does not follow into callees). Returns the new IP after stepping. Process must be in DSTATE_SUSP state."
    (unq "{`timeout_secs`: 5}")
    ["debug"; "step"; "over"; "next"; "instruction"; "skip"]
    []].

Definition debug_tools_2 : list ToolInfo := [
  tool "dbg_step_until_ret" Debug false
    "Step until the current function returns"
    "Continue stepping until the current function executes a return instruction. Useful for quickly exiting a function during debugging. Process must be suspended."
    (unq "{`timeout_secs`: 60}")
    ["debug"; "step"; "return"; "ret"; "finish"; "until"; "out"]
    [];
  tool "dbg_run_to" Debug false
    "Run to a specific address"
    "Continue execution and stop when the given address is reached. Sets a temporary breakpoint at the target address, continues, then removes it. Process must be in DSTATE_SUSP state."
    (unq "{`address`: `0x100001500`, `timeout_secs`: 30}")
    ["debug"; "run"; "to"; "goto"; "reach"; "cursor"; "until"]
    [];
  tool "dbg_get_registers" Debug false
    "Read register values from the suspended process"
    "Read the current values of all or selected CPU registers from the suspended process. Returns register values as hex strings plus IP and SP. Process must be in DSTATE_SUSP state."
    (unq "{`register_names`: [`rax`, `rbx`, `rip`, `rsp`]}")
    ["debug"; "register"; "reg"; "ip"; "sp"; "pc"; "value"; "read"; "cpu"]
    [];
  tool "dbg_set_register" Debug false
    "Set a CPU register value in the suspended process"
    "Write a new value to a CPU register in the suspended process. Accepts hex (0x...) or decimal values. Process must be in DSTATE_SUSP state."
    (unq "{`register_name`: `rax`, `value`: `0x1234`}")
    ["debug"; "register"; "reg"; "set"; "write"; "modify"; "patch"]
    [];
  tool "dbg_read_memory" Debug false
    "Read bytes from the debugged process memory"
    "Read up to 4096 bytes from the suspended process's memory at the given address. Returns hex-encoded bytes and ASCII representation. Process must be in DSTATE_SUSP state."
    (unq "{`address`: `0x100001000`, `size`: 64}")
    ["debug"; "memory"; "read"; "dump"; "hex"; "bytes"; "inspect"]
    [];
  tool "dbg_write_memory" Debug false
    "Write bytes to the debugged process memory"
    "Patch memory in the suspended process at runtime. Data is provided as a hex string (e.g. '4889c7' or '48 89 c7'). Process must be in DSTATE_SUSP state."
    (unq "{`address`: `0x100001000`, `data`: `90909090`}")
    ["debug"; "memory"; "write"; "patch"; "modify"; "bytes"; "inject"]
    [];
  tool "dbg_get_memory_info" Debug false
    "List memory regions of the debugged process"
    "Enumerate all mapped memory regions in the debugged process, including start/end addresses, region names, permissions (rwx), and segment class."
    "{}"
    ["debug"; "memory"; "map"; "regions"; "segments"; "info"; "layout"]
    [];
  tool "dbg_list_threads" Debug false
    "List all threads in the debugged process"
    "Enumerate all threads in the currently debugged process, with their thread IDs, names, and indices. Also shows the current active thread."
    "{}"
    ["debug"; "thread"; "list"; "enumerate"; "tls"; "concurrent"]
    [];
  tool "dbg_select_thread" Debug false
    "Select a thread as the current debugging context"
    "Switch the active debugging context to a specific thread by its thread ID. Subsequent register reads and memory inspections use this thread's context. Process must be in DSTATE_SUSP state."
    (unq "{`thread_id`: 12345}")
    ["debug"; "thread"; "select"; "switch"; "context"; "focus"]
    [];
  tool "dbg_wait_event" Debug false
    "Wait for the next debug event"
    "Block until the next debug event occurs (breakpoint hit, exception, library load, process exit, etc.). Returns the event code, type, and new process state. Always includes WFNE_SILENT for headless safety."
    (unq "{`timeout_secs`: 10}")
    ["debug"; "event"; "wait"; "notification"; "breakpoint"; "exception"; "trap"]
    []].

Definition TOOL_REGISTRY : list ToolInfo :=
  core_tools_1 ++ core_tools_2 ++ function_tools ++ disassembly_tools ++ decompile_tools ++ xref_tools ++
  control_flow_tools ++ memory_tools ++ search_tool_entries ++ metadata_tools ++ type_tools ++ editing_tools ++
  scripting_tools ++ debug_tools_1 ++ debug_tools_2.
