(* ===== verification/ToolRegistry.v ===== *)
(** * The tool registry (src/tool_registry.rs, [tool_catalog] and [tool_help])

    Lookup by name or alias, the catalogue by category and the ranked search over the
    table of [ToolTable].  The theorems: a name resolves to exactly the tool that
    carries it, alias resolution is idempotent, the categories partition the table,
    and the search returns the best matches in order of score. *)

From Stdlib Require Import Ascii.
From stdpp Require Import base strings sorting sets list.
From S2P Require Import Prelude RustStr Json ToolTable.


(** ** Lookup *)

Definition default_tools : list ToolInfo := filter (λ t, tool_default t = true) TOOL_REGISTRY.

Definition has_name (name : string) (t : ToolInfo) : bool :=
  bool_decide (tool_name t = name) || bool_decide (name ∈ tool_aliases t).

Definition get_tool_by_alias (name : string) : option ToolInfo :=
  find (has_name name) TOOL_REGISTRY.

Definition get_tool (name : string) : option ToolInfo := get_tool_by_alias name.

Definition primary_name_for (name : string) : string :=
  match get_tool_by_alias name with
  | Some tool => tool_name tool
  | None => name
  end.

Definition tools_by_category (category : ToolCategory) : list ToolInfo :=
  filter (λ t, tool_category t = category) TOOL_REGISTRY.

(** ** Search *)

(** The state of the loop body: the keywords matched so far and the score. *)
Definition name_pass (words : list string) (name_lower : string)
    (acc : list string * nat) : list string * nat :=
  foldl (λ '(mk, score) word,
    if contains word name_lower then (mk ++ ["name match"], score + 10) else (mk, score))
    acc words.

Definition desc_pass (words : list string) (desc_lower : string)
    (acc : list string * nat) : list string * nat :=
  foldl (λ '(mk, score) word,
    if contains word desc_lower then (mk, score + 5) else (mk, score)) acc words.

(** [if !matched_keywords.contains(k) { matched_keywords.push(k) }] *)
Definition push_new (k : string) (mk : list string) : list string :=
  if bool_decide (k ∈ mk) then mk else mk ++ [k].

Definition keyword_pass (words : list string) (keywords : list string)
    (acc : list string * nat) : list string * nat :=
  foldl (λ acc keyword,
    let kw_lower := to_ascii_lowercase keyword in
    foldl (λ '(mk, score) word,
      if contains word kw_lower || contains kw_lower word
      then (push_new keyword mk, score + 3) else (mk, score)) acc words) acc keywords.

Definition alias_pass (words : list string) (aliases : list string)
    (acc : list string * nat) : list string * nat :=
  foldl (λ acc alias,
    let alias_lower := to_ascii_lowercase alias in
    foldl (λ '(mk, score) word,
      if contains word alias_lower then (push_new alias mk, score + 8) else (mk, score))
      acc words) acc aliases.

Definition category_pass (words : list string) (cat : ToolCategory)
    (acc : list string * nat) : list string * nat :=
  let cat_str := to_ascii_lowercase (category_str cat) in
  foldl (λ '(mk, score) word,
    if contains word cat_str then (mk ++ [category_str cat], score + 2) else (mk, score))
    acc words.

(** The body of the loop over the registry. *)
Definition score_tool (words : list string) (tool : ToolInfo) : list string * nat :=
  let acc := name_pass words (to_ascii_lowercase (tool_name tool)) ([], 0) in
  let acc := desc_pass words (to_ascii_lowercase (tool_short_desc tool)) acc in
  let acc := keyword_pass words (tool_keywords tool) acc in
  let acc := alias_pass words (tool_aliases tool) acc in
  category_pass words (tool_category tool) acc.

Definition query_words (query : string) : list string :=
  split_whitespace (to_ascii_lowercase query).

(** [results.sort_by(|a, b| b.2.cmp(&a.2))]: stable, highest score first. *)
Definition score_ge (a b : ToolInfo * list string * nat) : bool := b.2 <=? a.2.

Definition scored (query : string) : list (ToolInfo * list string * nat) :=
  omap (λ tool,
    let '(mk, score) := score_tool (query_words query) tool in
    if 0 <? score then Some (tool, mk, score) else None) TOOL_REGISTRY.

Definition search_tools (query : string) (limit : nat) : list (ToolInfo * list string) :=
  fst <$> take limit (sort_by score_ge (scored query)).

(** ** The tools [tool_catalog] and [tool_help] *)

Definition catalog_hint : string := "Use tool_help(name) for full documentation and examples".

(** [tool_catalog]: the JSON document that the tool prints. *)
Definition tool_catalog (category query : option string) (limit : option nat) : Value :=
  let limit := Nat.min (default 7 limit) 15 in
  let by_query :=
    match query with
    | Some q =>
        obj [("query", VString q);
             ("tools", Array ((λ '(t, keywords),
                obj [("name", VString (tool_name t));
                     ("description", VString (tool_short_desc t));
                     ("category", VString (category_str (tool_category t)));
                     ("matched", Array (VString <$> keywords))]) <$> search_tools q limit));
             ("hint", VString catalog_hint)]
    | None =>
        obj [("categories", Array ((λ c,
                obj [("category", VString (category_str c));
                     ("description", VString (category_description c));
                     ("tool_count", vnat (length (tools_by_category c)))]) <$> all_categories));
             ("hint", VString "Use tool_catalog(category='...') to list tools in a category, or tool_catalog(query='...') to search. tools/list already includes all tools.")]
    end in
  match category with
  | Some cat_str =>
      match category_from_str cat_str with
      | Ok cat =>
          obj [("category", VString (category_str cat));
               ("category_description", VString (category_description cat));
               ("tools", Array ((λ t,
                  obj [("name", VString (tool_name t));
                       ("description", VString (tool_short_desc t));
                       ("category", VString (category_str (tool_category t)))])
                  <$> take limit (tools_by_category cat)));
               ("hint", VString catalog_hint)]
      | Err _ => by_query
      end
  | None => by_query
  end.

(** [tool_help]; [tool_params_schema] (generated by schemars) is a parameter. *)
Definition tool_help (tool_params_schema : string → option Value) (name : string) : Value :=
  match get_tool name with
  | Some tool =>
      obj [("name", VString (tool_name tool));
           ("category", VString (category_str (tool_category tool)));
           ("description", VString (tool_full_desc tool));
           ("parameters", opt_value (tool_params_schema name));
           ("example", VString (tool_example tool));
           ("keywords", Array (VString <$> tool_keywords tool))]
  | None =>
      obj [("error", VString ("Tool '" +:+ name +:+ "' not found"));
           ("suggestions", Array ((λ r, VString (tool_name r.1)) <$> search_tools name 3));
           ("hint", VString "Use tool_catalog to discover available tools")]
  end.

(** ** Lookup is exact *)

(** Every name under which a list of tools can be asked for. *)
Definition all_names (l : list ToolInfo) : list string :=
  l ≫= λ t, tool_name t :: tool_aliases t.

Lemma has_name_elem n t : has_name n t = true ↔ n ∈ tool_name t :: tool_aliases t.
Proof.
  unfold has_name. rewrite orb_true_iff, !bool_decide_eq_true, elem_of_cons. naive_solver.
Qed.

Lemma find_has_name l n t :
  NoDup (all_names l) → t ∈ l → has_name n t = true → find (has_name n) l = Some t.
Proof.
  induction l as [|u l IH]; intros Hnd Ht Hn; [by apply elem_of_nil in Ht|]. simpl.
  assert (all_names (u :: l) = (tool_name u :: tool_aliases u) ++ all_names l) as Hall
    by reflexivity.
  rewrite Hall, NoDup_app in Hnd. destruct Hnd as (_ & Hdisj & Hnd).
  apply elem_of_cons in Ht as [->|Ht]; [by rewrite Hn|].
  destruct (has_name n u) eqn:Hu; [|by apply IH].
  exfalso. apply (Hdisj n); [by apply has_name_elem|].
  apply list_elem_of_bind. exists t. split; [by apply has_name_elem|done].
Qed.

Lemma registry_names_unique : NoDup (all_names TOOL_REGISTRY).
Proof. apply (bool_decide_unpack (NoDup (all_names TOOL_REGISTRY))). vm_compute. exact I. Qed.

Lemma get_tool_iff n t : get_tool n = Some t ↔ t ∈ TOOL_REGISTRY ∧ has_name n t = true.
Proof.
  unfold get_tool, get_tool_by_alias. split.
  - intros H%find_some. destruct H as [Hin Hn]. by apply list_elem_of_In in Hin.
  - intros [Hin Hn]. by apply find_has_name; [apply registry_names_unique|..].
Qed.

Lemma primary_name_get_tool n : get_tool (primary_name_for n) = get_tool n.
Proof.
  unfold primary_name_for. change (get_tool_by_alias n) with (get_tool n).
  destruct (get_tool n) as [t|] eqn:H; [|done].
  apply get_tool_iff in H as [Hin _]. apply get_tool_iff. split; [done|].
  apply has_name_elem. left.
Qed.

(** A name resolves to a tool exactly when that tool of the table carries it as its
    name or as an alias, so the order of the table never decides; and resolving to the
    primary name keeps the tool and is idempotent. *)
Theorem tool_resolution_exact (n : string) :
  (∀ t, get_tool n = Some t ↔ t ∈ TOOL_REGISTRY ∧ (tool_name t = n ∨ n ∈ tool_aliases t)) ∧
  get_tool (primary_name_for n) = get_tool n ∧
  primary_name_for (primary_name_for n) = primary_name_for n.
Proof.
  split; [|split].
  - intros t. rewrite get_tool_iff. unfold has_name.
    by rewrite orb_true_iff, !bool_decide_eq_true.
  - apply primary_name_get_tool.
  - unfold primary_name_for at 1. change get_tool_by_alias with get_tool.
    rewrite primary_name_get_tool. unfold primary_name_for.
    change get_tool_by_alias with get_tool. by destruct (get_tool n).
Qed.

(** ** Categories *)

Lemma elem_of_all_categories c : c ∈ all_categories.
Proof. destruct c; set_solver. Qed.

Lemma filter_partition {A B} `{EqDecision B} (f : A → B) (cs : list B) (l : list A) :
  NoDup cs → (∀ x, x ∈ l → f x ∈ cs) → (cs ≫= λ c, filter (λ x, f x = c) l) ≡ₚ l.
Proof.
  intros Hnd. induction l as [|x l IH]; intros Hin.
  { clear Hin. induction cs; [done|]. simpl. apply NoDup_cons in Hnd as [_ ?]. auto. }
  transitivity (x :: (cs ≫= λ c, filter (λ x, f x = c) l));
    [|constructor; apply IH; set_solver]. clear IH.
  assert (f x ∈ cs) as Hx by set_solver. clear Hin.
  induction cs as [|c cs IH]; [by apply elem_of_nil in Hx|].
  apply NoDup_cons in Hnd as [Hc Hnd]. simpl. rewrite filter_cons.
  destruct (decide (f x = c)) as [<-|Hne].
  - simpl. constructor. f_equiv. clear IH Hx Hnd. induction cs as [|d cs IH]; [done|]. simpl.
    rewrite filter_cons, decide_False by set_solver. f_equiv. apply IH. set_solver.
  - rewrite IH by set_solver. by rewrite Permutation_middle.
Qed.

Lemma tools_partition : (all_categories ≫= tools_by_category) ≡ₚ TOOL_REGISTRY.
Proof.
  apply (filter_partition tool_category).
  - apply (bool_decide_unpack (NoDup all_categories)). vm_compute. exact I.
  - intros x _. apply elem_of_all_categories.
Qed.

(** Printing a category and parsing it back gives the category, [all] lists each one
    once, and listing the catalogue category by category yields every tool of the table
    exactly once. *)
Theorem categories_partition_registry :
  (∀ c, category_from_str (category_str c) = Ok c) ∧
  (∀ c, c ∈ all_categories) ∧ NoDup all_categories ∧
  (all_categories ≫= tools_by_category) ≡ₚ TOOL_REGISTRY.
Proof.
  split; [|split; [apply elem_of_all_categories|split; [|apply tools_partition]]].
  - by intros [].
  - apply (bool_decide_unpack (NoDup all_categories)). vm_compute. exact I.
Qed.

(** ** The search is a ranking *)

(** The number of query words that satisfy [p]. *)
Definition hits (p : string → bool) (words : list string) : nat :=
  length (filter (λ w, p w = true) words).

(** What the score of a tool is meant to be: ten points per word found in the name, five
    in the description, three in a keyword (in either direction), eight in an alias and
    two in the category. *)
Definition tool_score (words : list string) (t : ToolInfo) : nat :=
  10 * hits (λ w, contains w (to_ascii_lowercase (tool_name t))) words +
  5 * hits (λ w, contains w (to_ascii_lowercase (tool_short_desc t))) words +
  3 * sum_list_with (λ k, hits (λ w, contains w (to_ascii_lowercase k)
                                     || contains (to_ascii_lowercase k) w) words)
        (tool_keywords t) +
  8 * sum_list_with (λ a, hits (λ w, contains w (to_ascii_lowercase a)) words)
        (tool_aliases t) +
  2 * hits (λ w, contains w (to_ascii_lowercase (category_str (tool_category t)))) words.

Section passes.
Context (p : string → bool) (k : nat) (g : list string → list string).

(** Every pass over the words adds its weight per hit, whatever it does to the list. *)
Lemma pass_score words acc :
  (foldl (λ '(mk, score) word, if p word then (g mk, score + k) else (mk, score)) acc words).2
  = acc.2 + k * hits p words.
Proof.
  unfold hits. revert acc. induction words as [|w words IH]; intros [mk sc]; simpl; [lia|].
  rewrite IH, filter_cons. destruct (p w); simpl; lia.
Qed.
End passes.

Lemma passes_score (p : string → string → bool) (k : nat)
    (g : string → list string → list string) words items acc :
  (foldl (λ acc item, foldl (λ '(mk, score) word,
     if p item word then (g item mk, score + k) else (mk, score)) acc words) acc items).2
  = acc.2 + k * sum_list_with (λ i, hits (p i) words) items.
Proof.
  revert acc. induction items as [|i items IH]; intros acc; simpl; [lia|].
  rewrite IH, (pass_score (p i) k (g i)). lia.
Qed.

Lemma score_tool_score words t : (score_tool words t).2 = tool_score words t.
Proof.
  unfold score_tool, category_pass, alias_pass, keyword_pass, desc_pass, name_pass.
  rewrite (pass_score (λ w, contains w _) 2 (λ mk, mk ++ [category_str (tool_category t)])).
  rewrite (passes_score (λ a w, contains w (to_ascii_lowercase a)) 8 push_new).
  rewrite (passes_score (λ kw w, contains w (to_ascii_lowercase kw)
             || contains (to_ascii_lowercase kw) w) 3 push_new).
  rewrite (pass_score (λ w, contains w _) 5 (λ mk, mk)).
  rewrite (pass_score (λ w, contains w _) 10 (λ mk, mk ++ ["name match"])).
  unfold tool_score. simpl. lia.
Qed.

Lemma elem_of_scored query t mk n :
  (t, mk, n) ∈ scored query ↔
  t ∈ TOOL_REGISTRY ∧ mk = (score_tool (query_words query) t).1 ∧
  n = tool_score (query_words query) t ∧ 0 < n.
Proof.
  unfold scored. rewrite list_elem_of_omap. rewrite <-score_tool_score. split.
  - intros (u & Hu & Hs). destruct (score_tool _ u) as [mk' n'] eqn:E.
    destruct (Nat.ltb_spec 0 n'); simplify_eq. by rewrite E.
  - intros (Hin & -> & -> & Hpos). exists t. split; [done|].
    destruct (score_tool _ t) as [mk' n']. simpl in *.
    by destruct (Nat.ltb_spec 0 n'); [|lia].
Qed.

Lemma score_ge_total x y : score_ge x y = false → score_ge y x = true.
Proof. unfold score_ge. rewrite Nat.leb_gt, Nat.leb_le. lia. Qed.

Lemma score_ge_trans x y z : score_ge x y = true → score_ge y z = true → score_ge x z = true.
Proof. unfold score_ge. rewrite !Nat.leb_le. lia. Qed.

Lemma StronglySorted_take_drop {A} (R : A → A → Prop) n (l : list A) x y :
  StronglySorted R l → x ∈ take n l → y ∈ drop n l → R x y.
Proof.
  intros Hs. rewrite <-(take_drop n l) in Hs. by apply StronglySorted_app_1_elem_of.
Qed.

Lemma StronglySorted_fmap_impl {A B} (R : A → A → Prop) (Q : B → B → Prop) (f : A → B) l :
  (∀ x y, x ∈ l → y ∈ l → R x y → Q (f x) (f y)) →
  StronglySorted R l → StronglySorted Q (f <$> l).
Proof.
  intros HRQ. induction 1 as [|x l Hs IH Hx]; simpl; constructor.
  - apply IH. intros y z Hy Hz. apply HRQ; by right.
  - rewrite Forall_fmap, Forall_forall in *. intros y Hy. apply HRQ; [left|by right|auto].
Qed.

(** The search ranks: it returns tools of the table with a positive score, each with
    the keywords it matched, best score first and no more than [limit]; a tool with a
    positive score is left out only when [limit] tools that score at least as well are
    returned. *)
Theorem search_tools_ranked (query : string) (limit : nat) :
  let words := query_words query in
  let res := search_tools query limit in
  length res ≤ limit ∧
  (∀ t mk, (t, mk) ∈ res →
     t ∈ TOOL_REGISTRY ∧ 0 < tool_score words t ∧ mk = (score_tool words t).1) ∧
  StronglySorted (λ a b, tool_score words b.1 ≤ tool_score words a.1) res ∧
  (∀ t, t ∈ TOOL_REGISTRY → 0 < tool_score words t → t ∉ res.*1 →
     length res = limit ∧ ∀ r, r ∈ res → tool_score words t ≤ tool_score words r.1).
Proof.
  intros words res. pose proof (sort_by_strongly_sorted score_ge score_ge_total score_ge_trans
    (scored query)) as Hsort.
  pose proof (sort_by_perm score_ge (scored query)) as Hperm.
  unfold res, search_tools. set (l := sort_by score_ge (scored query)) in *.
  assert (∀ x, x ∈ take limit l → x ∈ scored query) as Hsub.
  { intros x Hx. rewrite <-Hperm, <-(take_drop limit l). apply elem_of_app. by left. }
  split; [rewrite length_fmap, length_take; lia|]. split; [|split].
  - intros t mk ([[t' mk'] n] & Heq & Hx)%list_elem_of_fmap. simpl in Heq. simplify_eq.
    apply Hsub, elem_of_scored in Hx. naive_solver.
  - rewrite <-(take_drop limit l) in Hsort. apply StronglySorted_app_1_l in Hsort.
    eapply StronglySorted_fmap_impl, Hsort.
    intros [[t1 mk1] n1] [[t2 mk2] n2] H1%Hsub%elem_of_scored H2%Hsub%elem_of_scored Hle.
    apply Is_true_true, Nat.leb_le in Hle. simpl in *. naive_solver.
  - intros t Ht Hpos Hnot.
    assert ((t, (score_tool words t).1, tool_score words t) ∈ l) as Hl.
    { rewrite Hperm. by apply elem_of_scored. }
    rewrite <-(take_drop limit l), elem_of_app in Hl. destruct Hl as [Hl|Hl].
    { exfalso. apply Hnot. apply list_elem_of_fmap. eexists. split; [|by apply list_elem_of_fmap_2]. done. }
    split.
    + rewrite length_fmap, length_take. assert (0 < length (drop limit l)) as Hlen.
      { destruct (drop limit l); [by apply elem_of_nil in Hl|simpl; lia]. }
      rewrite length_drop in Hlen. lia.
    + intros r ([[t' mk'] n] & -> & Hx)%list_elem_of_fmap. simpl.
      pose proof (StronglySorted_take_drop _ _ _ _ _ Hsort Hx Hl) as Hr.
      apply Is_true_true, Nat.leb_le in Hr. simpl in Hr.
      apply Hsub, elem_of_scored in Hx. destruct Hx as (_ & _ & -> & _). done.
Qed.
