(* ===== verification/Fs.v ===== *)
(** * A directory of files, and evicting from it in order of age

    What the caches use of [std::fs]: one flat directory, whose operations may fail
    as an I/O oracle decides, since the sources ignore such failures.  The second
    part is the eviction policy that the database store and the response cache
    share. *)

From Stdlib Require Import Ascii.
From stdpp Require Import base gmap strings numbers sorting list.
From S2P Require Import Prelude RustStr.

(** ** Directories *)

(** [fs::Metadata]; a time is in nanoseconds since the epoch. *)
Record Metadata : Type := { md_is_file : bool; md_len : Z; md_modified : option Z }.

(** A directory entry; [metadata()] may fail, and the content may not be text. *)
Record DirEntry : Type := { de_name : string; de_meta : option Metadata; de_data : option string }.

(** Which operations succeed, and the clock. *)
Record Io : Type := {
  io_read_dir : bool;
  io_remove : string → bool;
  io_write : string → bool;
  io_rename : bool;
  io_now : Z
}.

(** Everything succeeds. *)
Definition io_fine (io : Io) : Prop :=
  io_read_dir io = true ∧ (∀ n, io_remove io n = true) ∧ (∀ n, io_write io n = true) ∧ io_rename io = true.

Definition read_dir (io : Io) (d : list DirEntry) : option (list DirEntry) := if io_read_dir io then Some d else None.

(** [remove_file] does not remove a directory. *)
Definition removable (e : DirEntry) : bool := match de_meta e with Some m => md_is_file m | None => true end.

Definition remove_file (io : Io) (name : string) (d : list DirEntry) : list DirEntry :=
  if io_remove io name then filter (λ e, ¬ (de_name e = name ∧ removable e = true)) d else d.

Definition remove_files (io : Io) (names : list string) (d : list DirEntry) : list DirEntry :=
  foldl (λ d n, remove_file io n d) d names.

Definition find_entry (name : string) (d : list DirEntry) : option DirEntry :=
  snd <$> list_find (λ e, de_name e = name) d.

Definition read_to_string (name : string) (d : list DirEntry) : option string := find_entry name d ≫= de_data.

Definition without (name : string) (d : list DirEntry) : list DirEntry := filter (λ e, de_name e ≠ name) d.

(** [fs::write]: create or truncate; whether it succeeded. *)
Definition write_file (io : Io) (name data : string) (d : list DirEntry) : list DirEntry * bool :=
  if io_write io name then
    (without name d ++
       [{| de_name := name;
           de_meta := Some {| md_is_file := true; md_len := Z.of_nat (String.length data); md_modified := Some (io_now io) |};
           de_data := Some data |}], true)
  else (d, false).

(** [fs::rename]: replaces the target. *)
Definition rename_file (io : Io) (from to : string) (d : list DirEntry) : list DirEntry :=
  match find_entry from d with
  | Some e =>
      if io_rename io
      then without to (without from d) ++ [{| de_name := to; de_meta := de_meta e; de_data := de_data e |}]
      else d
  | None => d
  end.

(** ** File names *)

(** Split at the last dot. *)
Fixpoint rsplit_dot (s : string) : option (string * string) :=
  match s with
  | EmptyString => None
  | String c rest =>
      match rsplit_dot rest with
      | Some (before, after) => Some (String c before, after)
      | None => if bool_decide (c = "."%char) then Some (EmptyString, rest) else None
      end
  end.

(** [Path::file_stem] and [Path::extension] of a file name: a leading dot starts no
    extension. *)
Definition file_stem (name : string) : string :=
  match rsplit_dot name with
  | Some (EmptyString, _) => name
  | Some (before, _) => if bool_decide (name = "..") then name else before
  | None => name
  end.

Definition extension (name : string) : option string :=
  match rsplit_dot name with
  | Some (EmptyString, _) => None
  | Some (_, after) => if bool_decide (name = "..") then None else Some after
  | None => None
  end.

Definition is_slash (c : ascii) : bool := bool_decide (c = "/"%char).

(** [Path::file_name]: the last component, unless it is [..]. *)
Definition file_name (path : string) : option string :=
  match last (filter (λ c, c ≠ "" ∧ c ≠ ".") (split_on is_slash path)) with
  | Some c => if bool_decide (c = "..") then None else Some c
  | None => None
  end.

(** [Path::join] of a relative name. *)
Definition path_join (root name : string) : string :=
  if ends_with "/" root || bool_decide (root = "") then root +:+ name else root +:+ "/" +:+ name.

(** Split at the last slash. *)
Fixpoint rsplit_slash (s : string) : option (string * string) :=
  match s with
  | EmptyString => None
  | String c rest =>
      match rsplit_slash rest with
      | Some (before, after) => Some (String c before, after)
      | None => if bool_decide (c = "/"%char) then Some (EmptyString, rest) else None
      end
  end.

(** [Path::set_extension] for a path that ends in a file name; the empty extension removes
    the one that is there. *)
Definition with_extension (ext path : string) : string :=
  let dotted stem := if bool_decide (ext = "") then stem else stem +:+ "." +:+ ext in
  match file_name path, rsplit_slash path with
  | None, _ => path
  | Some _, Some (dir, name) => dir +:+ "/" +:+ dotted (file_stem name)
  | Some _, None => dotted (file_stem path)
  end.

(** ** The regular files of a directory *)

Record FileInfo : Type := { f_name : string; f_len : Z; f_mtime : Z }.

(** The body of the scan loops: an entry without metadata or that is not a file is
    skipped, and an unknown time counts as the epoch. *)
Definition file_info (e : DirEntry) : option FileInfo :=
  match de_meta e with
  | Some m =>
      if md_is_file m
      then Some {| f_name := de_name e; f_len := md_len m; f_mtime := default 0%Z (md_modified m) |}
      else None
  | None => None
  end.

Definition files_of (d : list DirEntry) : list FileInfo := omap file_info d.

(** The files a scan sees: none when the directory cannot be read. *)
Definition scan_files (io : Io) (d : list DirEntry) : list FileInfo := files_of (default [] (read_dir io d)).

(** [total_size = total_size.saturating_add(meta.len())] over a scan. *)
Definition scan_total (files : list FileInfo) : Z := foldl (λ t f, saturating_add t (f_len f)) 0%Z files.

(** ** Sums of sizes *)

Definition sumZ {A} (size : A → Z) (l : list A) : Z := foldr (λ x t, size x + t)%Z 0%Z l.

Lemma sumZ_app {A} (size : A → Z) l1 l2 : sumZ size (l1 ++ l2) = (sumZ size l1 + sumZ size l2)%Z.
Proof. induction l1 as [|x l1 IH]; simpl; [done|]. unfold sumZ in *. lia. Qed.

Lemma sumZ_perm {A} (size : A → Z) l1 l2 : l1 ≡ₚ l2 → sumZ size l1 = sumZ size l2.
Proof. unfold sumZ. induction 1; simpl; lia. Qed.

Lemma sumZ_nonneg {A} (size : A → Z) l : (∀ x, x ∈ l → 0 ≤ size x)%Z → (0 ≤ sumZ size l)%Z.
Proof.
  unfold sumZ. induction l as [|x l IH]; simpl; intros Hl; [done|].
  assert (0 ≤ size x)%Z by (apply Hl; left). specialize (IH (λ y Hy, Hl y (list_elem_of_further _ _ _ Hy))). lia.
Qed.

Lemma sumZ_filter {A} (size : A → Z) (P : A → Prop) `{∀ x, Decision (P x)} l :
  sumZ size l = (sumZ size (filter P l) + sumZ size (filter (λ x, ¬ P x) l))%Z.
Proof.
  unfold sumZ in *. induction l as [|x l IH]; simpl; [done|].
  rewrite !filter_cons. destruct (decide (P x)); destruct (decide (¬ P x)); simpl; try done; lia.
Qed.

Lemma foldl_saturating_add {A} (size : A → Z) l t :
  (∀ x, x ∈ l → 0 ≤ size x)%Z → (t + sumZ size l ≤ u64_max)%Z →
  foldl (λ t x, saturating_add t (size x)) t l = (t + sumZ size l)%Z.
Proof.
  revert t; induction l as [|x l IH]; intros t Hpos Hle; simpl in *; [lia|].
  assert (0 ≤ sumZ size l)%Z by (apply sumZ_nonneg; set_solver).
  rewrite IH; [|set_solver|]; unfold saturating_add in *; unfold sumZ in *; lia.
Qed.

Lemma NoDup_fmap_elem_of_eq {A B} (g : A → B) l x y :
  NoDup (g <$> l) → x ∈ l → y ∈ l → g x = g y → x = y.
Proof.
  induction l as [|z l IH]; intros Hnd Hx Hy Hg; [set_solver|].
  apply NoDup_cons in Hnd as [Hz Hnd]. apply elem_of_cons in Hx, Hy.
  destruct Hx as [->|Hx], Hy as [->|Hy]; [done| | |by apply IH];
    destruct Hz; apply list_elem_of_fmap; eauto.
Qed.

(** A directory whose files have sizes that add up in 64 bits. *)
Record dir_wf (d : list DirEntry) : Prop := {
  dir_names : NoDup (de_name <$> d);
  dir_sizes : ∀ f, f ∈ files_of d → (0 ≤ f_len f)%Z;
  dir_fits : (sumZ f_len (files_of d) ≤ u64_max)%Z
}.

Lemma scan_total_sum d : dir_wf d → scan_total (files_of d) = sumZ f_len (files_of d).
Proof. intros [? Hs Hf]. unfold scan_total. by rewrite foldl_saturating_add. Qed.

(** ** Reading back what was written *)

Lemma find_entry_app_new name d e :
  de_name e = name → find_entry name (without name d ++ [e]) = Some e.
Proof.
  intros He. unfold find_entry, without.
  assert (list_find (λ e, de_name e = name) (filter (λ e, de_name e ≠ name) d) = None) as Hn.
  { apply list_find_None, Forall_forall. intros x Hx%list_elem_of_filter. tauto. }
  rewrite list_find_app_r by done. simpl. by rewrite decide_True.
Qed.

Lemma find_entry_ne name d1 d2 (e : DirEntry) :
  de_name e ≠ name → find_entry name d1 = find_entry name d2 → find_entry name (d1 ++ [e]) = find_entry name d2.
Proof.
  intros He Hd. rewrite <-Hd. unfold find_entry.
  destruct (list_find (λ e, de_name e = name) d1) as [[i x]|] eqn:E.
  - by rewrite (list_find_app_l _ _ _ _ _ E).
  - rewrite list_find_app_r by done. simpl. by rewrite decide_False.
Qed.

Lemma find_entry_filter name (P : DirEntry → Prop) `{∀ e, Decision (P e)} d :
  (∀ e, de_name e = name → P e) → find_entry name (filter P d) = find_entry name d.
Proof.
  intros HP. unfold find_entry. induction d as [|e d IH]; [done|].
  assert (∀ l, snd <$> list_find (λ e, de_name e = name) (e :: l) =
     if decide (de_name e = name) then Some e else snd <$> list_find (λ e, de_name e = name) l) as Hcons.
  { intros l. simpl. destruct (decide (de_name e = name)); [done|].
    by destruct (list_find _ l) as [[]|]. }
  rewrite Hcons, filter_cons. destruct (decide (P e)) as [Hp|Hp]; [rewrite Hcons; by destruct (decide _)|].
  rewrite decide_False by naive_solver. apply IH.
Qed.

Lemma find_entry_without name name' d : name ≠ name' → find_entry name (without name' d) = find_entry name d.
Proof. intros Hne. apply find_entry_filter. congruence. Qed.

Lemma read_write_file io name data d :
  io_write io name = true → read_to_string name (write_file io name data d).1 = Some data.
Proof. intros Hw. unfold read_to_string, write_file. rewrite Hw. simpl. by rewrite find_entry_app_new. Qed.

(** The pattern [write tmp; rename tmp target]. *)
Lemma read_replaced_file io tmp target data d :
  io_fine io → tmp ≠ target →
  read_to_string target (rename_file io tmp target (write_file io tmp data d).1) = Some data.
Proof.
  intros (_ & _ & Hw & Hr) Hne. unfold rename_file, write_file. rewrite Hw. simpl.
  rewrite find_entry_app_new by done. rewrite Hr. unfold read_to_string. by rewrite find_entry_app_new.
Qed.

(** ** Removing several files *)

Lemma remove_files_filter io names d :
  (∀ n, io_remove io n = true) →
  remove_files io names d = filter (λ e, ¬ (de_name e ∈ names ∧ removable e = true)) d.
Proof.
  intros Hio. unfold remove_files. revert d; induction names as [|n names IH]; intros d; simpl.
  - induction d as [|e d IH]; [done|]. rewrite filter_cons, decide_True by set_solver. by f_equal.
  - rewrite IH. unfold remove_file. rewrite Hio, list_filter_filter.
    apply list_filter_iff. intros e. rewrite elem_of_cons. destruct (decide (de_name e = n)); naive_solver.
Qed.

(** ** Files and entries *)

#[export] Instance FileInfo_eq_dec : EqDecision FileInfo.
Proof. solve_decision. Defined.

Lemma file_info_name e f : file_info e = Some f → f_name f = de_name e ∧ removable e = true.
Proof. unfold file_info, removable. intros. by repeat case_match; simplify_eq. Qed.

Lemma elem_of_files_of d f : f ∈ files_of d ↔ ∃ e, e ∈ d ∧ file_info e = Some f.
Proof. unfold files_of. by rewrite list_elem_of_omap. Qed.

Lemma files_of_names d : (f_name <$> files_of d) `sublist_of` (de_name <$> d).
Proof.
  unfold files_of. induction d as [|e d IH]; simpl; [done|]. destruct (file_info e) as [f|] eqn:E; simpl.
  - destruct (file_info_name _ _ E) as [-> _]. by constructor.
  - by constructor.
Qed.

Lemma files_of_NoDup d : NoDup (de_name <$> d) → NoDup (f_name <$> files_of d).
Proof. intros Hd. eapply sublist_NoDup; [exact Hd|apply files_of_names]. Qed.

(** Removing some of the files leaves the others. *)
Lemma files_of_remove_files io ev d :
  (∀ n, io_remove io n = true) → NoDup (de_name <$> d) → (∀ f, f ∈ ev → f ∈ files_of d) →
  files_of (remove_files io (f_name <$> ev) d) = filter (λ f, f ∉ ev) (files_of d).
Proof.
  intros Hio Hnd Hev. rewrite remove_files_filter by done.
  assert (∀ e f, e ∈ d → file_info e = Some f → de_name e ∈ f_name <$> ev ↔ f ∈ ev) as Hin.
  { intros e f He Hf. destruct (file_info_name _ _ Hf) as [Hn _]. rewrite list_elem_of_fmap. split.
    - intros (f' & Hn' & Hf'). enough (f' = f) by congruence.
      apply (NoDup_fmap_elem_of_eq f_name (files_of d)); [by apply files_of_NoDup|by apply Hev| |congruence].
      apply elem_of_files_of. eauto.
    - intros Hf'. by exists f. }
  clear Hev Hnd. induction d as [|e d IH]; [done|].
  rewrite filter_cons. unfold files_of in *. cbn [omap list_omap].
  specialize (IH (λ e f He, Hin e f (list_elem_of_further _ _ _ He))).
  destruct (file_info e) as [f|] eqn:Ef.
  - destruct (file_info_name _ _ Ef) as [_ Hr]. pose proof (Hin e f ltac:(left) Ef) as Hi.
    rewrite filter_cons. destruct (decide (f ∉ ev)) as [Hn|Hn].
    + rewrite decide_True by naive_solver. simpl. rewrite Ef. by f_equal.
    + rewrite decide_False by naive_solver. done.
  - destruct (decide _); simpl; rewrite ?Ef; done.
Qed.

(** ** Eviction

    [for item in ordered { if total <= max { break } if pinned { continue } .. }]:
    the items that are evicted, and the total that is left. *)

Section evict.
Context {A : Type} (size : A → Z) (pinned : A → bool) (max : Z).
Implicit Types l : list A.

Fixpoint evicted (l : list A) (total : Z) : list A :=
  match l with
  | [] => []
  | x :: rest =>
      if (total <=? max)%Z then []
      else if pinned x then evicted rest total
      else x :: evicted rest (saturating_sub total (size x))
  end.

Definition unpinned l : list A := filter (λ x, pinned x = false) l.

Lemma evicted_prefix l total : evicted l total `prefix_of` unpinned l.
Proof.
  revert total; induction l as [|x l IH]; intros total; simpl; [done|].
  destruct (total <=? max)%Z; [apply prefix_nil|]. unfold unpinned in *. rewrite filter_cons.
  destruct (pinned x); simpl; [apply IH|]. apply prefix_cons, IH.
Qed.

(** Either the limit is met or everything that may go is gone. *)
Lemma evicted_enough l total :
  (∀ x, x ∈ l → 0 ≤ size x)%Z → (sumZ size l ≤ total)%Z →
  (total - sumZ size (evicted l total) ≤ max)%Z ∨ evicted l total = unpinned l.
Proof.
  revert total; induction l as [|x l IH]; intros total Hpos Hle; simpl; [by right|].
  destruct (total <=? max)%Z eqn:E; [left; simpl; lia|].
  unfold unpinned in *. rewrite filter_cons. simpl in Hle.
  assert (0 ≤ size x)%Z by (apply Hpos; set_solver).
  assert (0 ≤ sumZ size l)%Z by (apply sumZ_nonneg; set_solver).
  destruct (pinned x); simpl; [apply IH; [set_solver|unfold sumZ in *; lia]|].
  replace (saturating_sub total (size x)) with (total - size x)%Z by (unfold saturating_sub, sumZ in *; lia).
  destruct (IH (total - size x)%Z) as [Hl|Hl]; [set_solver|unfold sumZ in *; lia|left|right; by rewrite Hl].
  unfold sumZ in *; lia.
Qed.

(** Nothing is evicted once the limit is met: the last item had to go. *)
Lemma evicted_minimal l total l' x :
  (∀ x, x ∈ l → 0 ≤ size x)%Z → (sumZ size l ≤ total)%Z →
  evicted l total = l' ++ [x] → (max < total - sumZ size l')%Z.
Proof.
  revert total l'; induction l as [|y l IH]; intros total l' Hpos Hle Hev; simpl in Hev;
    [by destruct l'|].
  destruct (total <=? max)%Z eqn:E; [by destruct l'|]. simpl in Hle.
  assert (0 ≤ size y)%Z by (apply Hpos; set_solver).
  assert (0 ≤ sumZ size l)%Z by (apply sumZ_nonneg; set_solver).
  destruct (pinned y); [eapply IH; [set_solver|unfold sumZ in *; lia|done]|].
  destruct l' as [|z l']; simplify_eq/=; [unfold sumZ; simpl; lia|].
  replace (saturating_sub total (size z)) with (total - size z)%Z in * by (unfold saturating_sub, sumZ in *; lia).
  apply IH in H2; [|set_solver|unfold sumZ in *; lia]. unfold sumZ in *; simpl. lia.
Qed.
End evict.

Lemma unpinned_false {A} (l : list A) : unpinned (λ _, false) l = l.
Proof. unfold unpinned. induction l as [|x l IH]; [done|]. by rewrite filter_cons_True, IH. Qed.

Lemma evicted_unpinned_prefix {A} (size : A → Z) max l total : evicted size (λ _, false) max l total `prefix_of` l.
Proof. rewrite <-(unpinned_false l) at 2. apply evicted_prefix. Qed.

(** The sizes of a selection of files and of the others. *)
Lemma sumZ_split (ev l : list FileInfo) :
  NoDup l → NoDup ev → (∀ f, f ∈ ev → f ∈ l) →
  sumZ f_len l = (sumZ f_len ev + sumZ f_len (filter (λ f, f ∉ ev) l))%Z.
Proof.
  intros Hl Hev Hsub. rewrite (sumZ_filter f_len (λ f, f ∈ ev) l). f_equal.
  apply sumZ_perm, NoDup_Permutation; [by apply NoDup_filter|done|].
  intros f. rewrite list_elem_of_filter. naive_solver.
Qed.

(** A concrete directory is well formed by computation. *)
Ltac solve_dir_wf :=
  split;
  [ apply (bool_decide_unpack _); vm_compute; exact I
  | let f := fresh in let Hf := fresh in
    intros f Hf; vm_compute in Hf; repeat (apply elem_of_cons in Hf as [->|Hf]; [done|]); by apply elem_of_nil in Hf
  | vm_compute; discriminate ].
