(* ===== verification/IdbStore.v ===== *)
(** * The database store (src/idb_store.rs)

    The content-addressed registry of analysed databases: a directory of [.i64]
    files and an [index.json] beside them.  The JSON codec of the index and the
    BLAKE3 hash are third-party code and parameters here. *)

From Stdlib Require Import Ascii.
From stdpp Require Import base gmap strings numbers sorting fin_maps fin_map_dom list.
From S2P Require Import Prelude RustStr Fs.

(** ** Data *)

Record IdbEntry : Type := {
  ie_hash : string;
  ie_original_path : string;
  ie_binary_type : string;
  ie_size : Z;
  ie_created_at : string;
  ie_last_accessed : string
}.

Record IdbStoreStats : Type := {
  ss_root : string; ss_file_count : nat; ss_entry_count : nat; ss_total_size_bytes : Z
}.

Record IdbEvictionStats : Type := {
  es_evicted_groups : nat; es_evicted_files : nat; es_evicted_bytes : Z; es_remaining_bytes : Z
}.

(** [Group] of [evict_to_limit], with its [Default]. *)
Record Group : Type := { g_files : list string; g_bytes : Z; g_newest_mtime : Z }.

Definition group_default : Group := {| g_files := []; g_bytes := 0; g_newest_mtime := 0 |}.

Definition index_json : string := "index.json".
Definition index_tmp : string := "index.json.tmp".

(** [now_iso8601] *)
Definition now_iso8601 (io : Io) : string := fmt_dec (Z.max 0 (io_now io / 10 ^ 9)) +:+ "Z".

(** What the store needs of the codec of [index.json] (serde_json) and of BLAKE3,
    and the files outside the store. *)
Class StoreEnv : Type := {
  parse_index : string → option (gmap string IdbEntry);
  print_index : gmap string IdbEntry → option string;
  blake3_hex : string → string;
  read_binary : string → option string
}.

(** A printed index reads back. *)
Definition index_codec_ok `{StoreEnv} : Prop :=
  ∀ m, ∃ s, print_index m = Some s ∧ parse_index s = Some m.

Section store.
Context `{HashOrder} `{StoreEnv}.
Implicit Types (d : list DirEntry) (io : Io).

(** ** Names *)

Definition compute_hash (path : string) : string :=
  String.substring 0 12 (blake3_hex (default "" (read_binary path))).

Definition idb_name (path : string) : string :=
  default "" (file_name path) +:+ "." +:+ compute_hash path +:+ ".dylib.i64".

Definition idb_path (root path : string) : string := path_join root (idb_name path).

(** [.{hash}.] *)
Definition hash_pattern (hash : string) : string := "." +:+ hash +:+ ".".

Definition is_idb_of (hash : string) (e : DirEntry) : Prop :=
  contains (hash_pattern hash) (de_name e) = true ∧ ends_with ".i64" (de_name e) = true.

#[export] Instance is_idb_of_dec hash e : Decision (is_idb_of hash e).
Proof. unfold is_idb_of. apply _. Defined.

Definition lookup_by_hash io (root hash : string) d : option string :=
  match read_dir io d with
  | Some entries => (λ e, path_join root (de_name e)) <$> head (filter (is_idb_of hash) entries)
  | None => None
  end.

Definition lookup_idb io (root path : string) d : option string := lookup_by_hash io root (compute_hash path) d.

(** ** The index *)

Definition load_index d : gmap string IdbEntry := default ∅ (read_to_string index_json d ≫= parse_index).

(** Write a temporary file and rename it over the index. *)
Definition save_index io (index : gmap string IdbEntry) d : list DirEntry :=
  match print_index index with
  | Some json => rename_file io index_tmp index_json (write_file io index_tmp json d).1
  | None => d
  end.

Definition record_idb io (path : string) d : list DirEntry :=
  let index := load_index d in
  let hash := compute_hash path in
  let size := match read_binary path with Some data => Z.of_nat (String.length data) | None => 0%Z end in
  let binary_type := if bool_decide (file_name path ≫= extension = Some "so") then "sbpf" else "native" in
  let now := now_iso8601 io in
  let created_at := match index !! hash with Some e => ie_created_at e | None => now end in
  let entry := {| ie_hash := hash; ie_original_path := path; ie_binary_type := binary_type; ie_size := size;
                  ie_created_at := created_at; ie_last_accessed := now |} in
  save_index io (<[hash := entry]> index) d.

Definition list_entries d : list IdbEntry :=
  match read_to_string index_json d ≫= parse_index with
  | Some m => (hash_iter m).*2
  | None => []
  end.

Definition stats io (root : string) d : IdbStoreStats :=
  let files := scan_files io d in
  {| ss_root := root; ss_file_count := length files; ss_entry_count := length (list_entries d);
     ss_total_size_bytes := scan_total files |}.

Definition remove_files_by_hash io (hash : string) d : list DirEntry :=
  match read_dir io d with
  | Some entries =>
      foldl (λ d e, if contains (hash_pattern hash) (de_name e) then remove_file io (de_name e) d else d) d entries
  | None => d
  end.

Definition remove_idb io (hash : string) d : list DirEntry * bool :=
  let index := load_index d in
  match index !! hash with
  | Some _ => (save_index io (delete hash index) (remove_files_by_hash io hash d), true)
  | None => (d, false)
  end.

Definition clean io (root : string) d : list DirEntry * list IdbEntry :=
  let index := load_index d in
  let orphans := filter (λ he, lookup_by_hash io root he.1 d = None) (hash_iter index) in
  let index' := delete_keys orphans index in
  (if bool_decide (orphans = []) then d else save_index io index' d, orphans.*2).

(** ** Eviction *)

(** [path.with_extension("").display()] *)
Definition group_stem (root name : string) : string := path_join root (file_stem name).

Definition add_to_group (root : string) (groups : gmap string Group) (f : FileInfo) : gmap string Group :=
  let stem := group_stem root (f_name f) in
  let g := default group_default (groups !! stem) in
  <[stem := {| g_files := g_files g ++ [f_name f]; g_bytes := saturating_add (g_bytes g) (f_len f);
               g_newest_mtime := if (g_newest_mtime g <? f_mtime f)%Z then f_mtime f else g_newest_mtime g |}]> groups.

Definition groups_of (root : string) (files : list FileInfo) : gmap string Group :=
  foldl (add_to_group root) ∅ files.

(** A [BTreeMap] iterates in the order of its keys. *)
Definition btree_iter {V} (m : gmap string V) : list (string * V) :=
  sort_by (λ a b, String.leb a.1 b.1) (map_to_list m).

Definition older_group (a b : string * Group) : bool := (g_newest_mtime a.2 <=? g_newest_mtime b.2)%Z.

Definition lru_order (root : string) (files : list FileInfo) : list (string * Group) :=
  sort_by older_group (btree_iter (groups_of root files)).

Record EvictState : Type := {
  ev_total : Z; ev_groups : nat; ev_files : nat; ev_bytes : Z; ev_dir : list DirEntry
}.

Fixpoint evict_groups io (max_bytes : Z) (pinned : gset string) (ordered : list (string * Group)) (s : EvictState) :
    EvictState :=
  match ordered with
  | [] => s
  | (stem, group) :: rest =>
      if (ev_total s <=? max_bytes)%Z then s
      else if bool_decide (stem ∈ pinned) then evict_groups io max_bytes pinned rest s
      else
        evict_groups io max_bytes pinned rest
          {| ev_total := saturating_sub (ev_total s) (g_bytes group);
             ev_groups := S (ev_groups s);
             ev_files := ev_files s + length (g_files group);
             ev_bytes := saturating_add (ev_bytes s) (g_bytes group);
             ev_dir := remove_files io (g_files group) (ev_dir s) |}
  end.

Definition evict_to_limit io (root : string) (max_bytes : Z) (pinned : gset string) d :
    list DirEntry * IdbEvictionStats :=
  let files := scan_files io d in
  let total_size := scan_total files in
  if (total_size <=? max_bytes)%Z then
    (d, {| es_evicted_groups := 0; es_evicted_files := 0; es_evicted_bytes := 0; es_remaining_bytes := total_size |})
  else
    let s := evict_groups io max_bytes pinned (lru_order root files)
               {| ev_total := total_size; ev_groups := 0; ev_files := 0; ev_bytes := 0; ev_dir := d |} in
    ((clean io root (ev_dir s)).1,
     {| es_evicted_groups := ev_groups s; es_evicted_files := ev_files s; es_evicted_bytes := ev_bytes s;
        es_remaining_bytes := ev_total s |}).
End store.

(** * What the database store guarantees

    The index after recording, removing and cleaning, content-addressed lookup, and
    the eviction policy. *)


Definition is_index_name (n : string) : Prop := n = index_json ∨ n = index_tmp.

Section theorems.
Context `{HashOrder} `{StoreEnv}.
Implicit Types (d : list DirEntry) (io : Io).

(** ** Saving the index *)

Lemma load_save_index io m d : io_fine io → index_codec_ok → load_index (save_index io m d) = m.
Proof.
  intros Hio Hc. destruct (Hc m) as (s & Hp & Hs). unfold load_index, save_index. rewrite Hp.
  rewrite read_replaced_file by done. simpl. by rewrite Hs.
Qed.

Lemma elem_of_save_index io m d e :
  io_fine io → index_codec_ok → ¬ is_index_name (de_name e) → e ∈ save_index io m d ↔ e ∈ d.
Proof.
  intros (_ & _ & Hw & Hr) Hc Hn. destruct (Hc m) as (s & Hp & _). unfold save_index. rewrite Hp.
  unfold write_file, rename_file. rewrite Hw. simpl. rewrite find_entry_app_new by done. rewrite Hr.
  unfold without. rewrite elem_of_app, !list_elem_of_filter, elem_of_app, list_elem_of_filter.
  rewrite !list_elem_of_singleton. unfold is_index_name in Hn.
  split; [intros [?| ->]; [|simpl in Hn; tauto]|]; naive_solver.
Qed.

Lemma is_idb_of_not_index h e : is_idb_of h e → ¬ is_index_name (de_name e).
Proof. intros [_ Hi] [Hn|Hn]; by rewrite Hn in Hi. Qed.

Lemma lookup_by_hash_None io root h d :
  io_fine io → lookup_by_hash io root h d = None ↔ ∀ e, e ∈ d → ¬ is_idb_of h e.
Proof.
  intros (Hr & _). unfold lookup_by_hash, read_dir. rewrite Hr.
  destruct (filter (is_idb_of h) d) as [|x l] eqn:E; simpl; (split; [|try done]).
  - intros _ e He Hi. apply (not_elem_of_nil e). rewrite <-E. by apply list_elem_of_filter.
  - done.
  - intros Hd. assert (x ∈ filter (is_idb_of h) d) as [Hi Hx]%list_elem_of_filter by (rewrite E; left).
    by destruct (Hd x Hx).
Qed.

Lemma lookup_by_hash_Some io root h d p :
  lookup_by_hash io root h d = Some p → ∃ e, e ∈ d ∧ is_idb_of h e ∧ p = path_join root (de_name e).
Proof.
  unfold lookup_by_hash, read_dir. destruct (io_read_dir io); [|done].
  intros (e & He & ->)%fmap_Some. exists e.
  destruct (filter (is_idb_of h) d) as [|x l] eqn:E; simplify_eq/=.
  assert (e ∈ filter (is_idb_of h) d) as [??]%list_elem_of_filter by (rewrite E; left). done.
Qed.

Lemma lookup_save_index io root h m d :
  io_fine io → index_codec_ok → lookup_by_hash io root h (save_index io m d) = None ↔ lookup_by_hash io root h d = None.
Proof.
  intros Hio Hc. rewrite !lookup_by_hash_None by done.
  split; intros Hd e He Hi; (eapply (Hd e); [|done]); pose proof (is_idb_of_not_index _ _ Hi);
    by apply (elem_of_save_index io m d e).
Qed.

(** ** Cleaning *)

Lemma clean_index io root d h :
  io_fine io → index_codec_ok →
  load_index (clean io root d).1 !! h =
    if bool_decide (lookup_by_hash io root h d = None) then None else load_index d !! h.
Proof.
  intros Hio Hc. unfold clean. cbn zeta.
  set (orph := filter (λ he : string * IdbEntry, lookup_by_hash io root he.1 d = None) (hash_iter (load_index d))).
  assert (∀ e, (h, e) ∈ orph ↔ lookup_by_hash io root h d = None ∧ load_index d !! h = Some e) as Horph.
  { intros e. unfold orph. by rewrite list_elem_of_filter, elem_of_hash_iter. }
  assert (load_index d !! h = None ∨ (h ∈ orph.*1 ↔ lookup_by_hash io root h d = None)) as Hin.
  { destruct (load_index d !! h) as [e|] eqn:E; [right|by left].
    rewrite list_elem_of_fmap. split; [intros ([h' e'] & -> & ?%Horph); tauto|].
    intros Hl. exists (h, e). split; [done|]. by apply Horph. }
  simpl. case_bool_decide as Ho.
  - rewrite Ho in *. destruct Hin as [->|Hin]; [by case_bool_decide|].
    rewrite bool_decide_false; [done|]. rewrite <-Hin. set_solver.
  - rewrite load_save_index by done. rewrite lookup_delete_keys.
    destruct Hin as [->|Hin]; [by repeat case_bool_decide|]. by rewrite (bool_decide_ext _ _ Hin).
Qed.

Lemma elem_of_clean io root d e :
  io_fine io → index_codec_ok → ¬ is_index_name (de_name e) → e ∈ (clean io root d).1 ↔ e ∈ d.
Proof. intros. unfold clean. simpl. case_bool_decide; [done|]. by apply elem_of_save_index. Qed.

Lemma clean_orphans io root d e :
  e ∈ (clean io root d).2 ↔ ∃ h, load_index d !! h = Some e ∧ lookup_by_hash io root h d = None.
Proof.
  unfold clean. simpl. rewrite list_elem_of_fmap. split.
  - intros ([h e'] & -> & [? ?%elem_of_hash_iter]%list_elem_of_filter). eauto.
  - intros (h & ? & ?). exists (h, e). split; [done|]. apply list_elem_of_filter. by rewrite elem_of_hash_iter.
Qed.

(** [clean] keeps exactly the index entries whose database file still exists,
    returns the entries it dropped, touches no file but the index, and a second
    [clean] finds nothing to drop. *)
Theorem clean_drops_orphans io root d :
  io_fine io → index_codec_ok →
  (∀ h e, load_index (clean io root d).1 !! h = Some e ↔
     load_index d !! h = Some e ∧ ∃ f, f ∈ d ∧ is_idb_of h f) ∧
  (∀ e, e ∈ (clean io root d).2 ↔
     ∃ h, load_index d !! h = Some e ∧ ∀ f, f ∈ d → ¬ is_idb_of h f) ∧
  (∀ f, ¬ is_index_name (de_name f) → f ∈ (clean io root d).1 ↔ f ∈ d) ∧
  (clean io root (clean io root d).1).2 = [].
Proof.
  intros Hio Hc.
  assert (∀ h, lookup_by_hash io root h d ≠ None ↔ ∃ f, f ∈ d ∧ is_idb_of h f) as Hl.
  { intros h. split.
    - intros (p & Hp)%not_eq_None_Some. apply lookup_by_hash_Some in Hp. naive_solver.
    - intros (f & Hf & Hi) Hn. by eapply lookup_by_hash_None. }
  split_and!.
  - intros h e. rewrite clean_index by done. rewrite <-Hl. case_bool_decide; naive_solver.
  - intros e. rewrite clean_orphans. setoid_rewrite lookup_by_hash_None; done.
  - intros f Hf. by apply elem_of_clean.
  - apply elem_of_nil_inv. intros e (h & He & Hn)%clean_orphans.
    rewrite clean_index in He by done. rewrite lookup_by_hash_None in Hn by done.
    case_bool_decide as Hd; [done|]. apply Hl in Hd as (f & Hf & Hi).
    apply (Hn f); [|done]. apply elem_of_clean; [done..| |done]. by eapply is_idb_of_not_index.
Qed.

(** ** Recording, removing and looking up *)

(** Recording a binary files it under the hash of its content, with the current
    time as its last access and, for content that was recorded before, the
    creation time it had; no other entry changes. *)
Theorem record_updates_index io path d :
  io_fine io → index_codec_ok →
  ∃ e, load_index (record_idb io path d) = <[compute_hash path := e]> (load_index d) ∧
    e ∈ list_entries (record_idb io path d) ∧
    ie_hash e = compute_hash path ∧ ie_original_path e = path ∧ ie_last_accessed e = now_iso8601 io ∧
    ie_created_at e = match load_index d !! compute_hash path with
                      | Some old => ie_created_at old | None => now_iso8601 io end.
Proof.
  intros Hio Hc. unfold record_idb. rewrite load_save_index by done.
  eexists. split; [reflexivity|]. split; [|done].
  set (m := <[_ := _]> (load_index d)).
  unfold list_entries. destruct (Hc m) as (s & Hp & Hs). unfold save_index. rewrite Hp.
  rewrite read_replaced_file by done. simpl. rewrite Hs.
  apply list_elem_of_fmap. eexists (_, _). split; [reflexivity|].
  apply elem_of_hash_iter. apply lookup_insert_eq.
Qed.

Lemma idb_name_is_idb path e : de_name e = idb_name path → is_idb_of (compute_hash path) e.
Proof.
  intros He. unfold is_idb_of, hash_pattern. rewrite He. unfold idb_name. split.
  - replace (default "" (file_name path) +:+ "." +:+ compute_hash path +:+ ".dylib.i64")
      with (default "" (file_name path) +:+ ("." +:+ compute_hash path +:+ ".") +:+ "dylib.i64"); [apply contains_app|].
    by rewrite !string_app_assoc.
  - replace (default "" (file_name path) +:+ "." +:+ compute_hash path +:+ ".dylib.i64")
      with ((default "" (file_name path) +:+ "." +:+ compute_hash path +:+ ".dylib") +:+ ".i64"); [apply ends_with_app|].
    by rewrite !string_app_assoc.
Qed.

(** Lookup is by content: a database stored under the name of one binary is found
    for any binary with the same bytes, whatever its path, and whatever is found is
    a database file of the store for that hash. *)
Theorem lookup_content_addressed io root p1 p2 e d :
  io_fine io → e ∈ d → de_name e = idb_name p1 → read_binary p1 = read_binary p2 →
  ∃ f, f ∈ d ∧ is_idb_of (compute_hash p2) f ∧ lookup_idb io root p2 d = Some (path_join root (de_name f)).
Proof.
  intros Hio He Hn Hr.
  assert (compute_hash p1 = compute_hash p2) as Hh by (unfold compute_hash; by rewrite Hr).
  unfold lookup_idb. destruct (lookup_by_hash io root (compute_hash p2) d) as [p|] eqn:E.
  - apply lookup_by_hash_Some in E as (f & ? & ? & ->). eauto.
  - rewrite lookup_by_hash_None in E by done. destruct (E e He). rewrite <-Hh. by apply idb_name_is_idb.
Qed.

Lemma remove_files_by_hash_filter io h d :
  io_fine io →
  remove_files_by_hash io h d =
    filter (λ e, ¬ (de_name e ∈ de_name <$> filter (λ e, contains (hash_pattern h) (de_name e) = true) d ∧
                    removable e = true)) d.
Proof.
  intros (Hr & Hrm & _). unfold remove_files_by_hash, read_dir. rewrite Hr.
  rewrite <-(remove_files_filter io) by done. unfold remove_files. generalize d at 1 3. intros d0.
  revert d0. induction d as [|e d IH]; intros d0; [done|]. simpl. rewrite filter_cons. rewrite IH.
  by destruct (contains _ _).
Qed.

(** Removing a recorded hash deletes its index entry and every file that carries
    the hash in its name, so that it cannot be looked up again; the other files and
    entries stay.  An unknown hash changes nothing. *)
Theorem remove_forgets_database io root h d :
  io_fine io → index_codec_ok → (∀ e, e ∈ d → removable e = true) →
  let '(d', found) := remove_idb io h d in
  match load_index d !! h with
  | Some _ =>
      found = true ∧ load_index d' = delete h (load_index d) ∧ lookup_by_hash io root h d' = None ∧
      ∀ e, ¬ is_index_name (de_name e) → e ∈ d' ↔ e ∈ d ∧ contains (hash_pattern h) (de_name e) = false
  | None => found = false ∧ d' = d
  end.
Proof.
  intros Hio Hc Hrm. unfold remove_idb. cbn zeta. destruct (load_index d !! h) as [e0|]; [|done].
  assert (∀ e, ¬ is_index_name (de_name e) →
    e ∈ save_index io (delete h (load_index d)) (remove_files_by_hash io h d) ↔
    e ∈ d ∧ contains (hash_pattern h) (de_name e) = false) as Hin.
  { intros e He. rewrite elem_of_save_index, remove_files_by_hash_filter, list_elem_of_filter by done.
    rewrite list_elem_of_fmap. setoid_rewrite list_elem_of_filter.
    destruct (contains (hash_pattern h) (de_name e)) eqn:E; [naive_solver|].
    split; [naive_solver|]. intros [Hd _]. split; [|done]. intros ((x & Hx & ? & ?) & _). congruence. }
  split_and!; [done|by apply load_save_index| |done].
  apply lookup_by_hash_None; [done|]. intros e He Hi.
  apply Hin in He as [_ He]; [|by eapply is_idb_of_not_index]. destruct Hi. congruence.
Qed.
End theorems.

(** ** A codec for the index

    The hypotheses on the codec can be met: an index printed as the binary digits of
    its code. *)

Definition entry_tuple (e : IdbEntry) : string * string * string * Z * string * string :=
  (ie_hash e, ie_original_path e, ie_binary_type e, ie_size e, ie_created_at e, ie_last_accessed e).

Definition tuple_entry (t : string * string * string * Z * string * string) : IdbEntry :=
  let '(h, p, b, s, c, l) := t in
  {| ie_hash := h; ie_original_path := p; ie_binary_type := b; ie_size := s; ie_created_at := c; ie_last_accessed := l |}.

#[export] Instance IdbEntry_eq_dec : EqDecision IdbEntry.
Proof. solve_decision. Defined.

#[export] Instance IdbEntry_countable : Countable IdbEntry.
Proof. apply (inj_countable' entry_tuple tuple_entry). by intros []. Defined.

Fixpoint print_pos (p : positive) : string :=
  match p with
  | xH => ""
  | xO p => String "0" (print_pos p)
  | xI p => String "1" (print_pos p)
  end.

Fixpoint parse_pos (s : string) : positive :=
  match s with
  | EmptyString => xH
  | String c s => if bool_decide (c = "0"%char) then xO (parse_pos s) else xI (parse_pos s)
  end.

Lemma parse_print_pos p : parse_pos (print_pos p) = p.
Proof. by induction p as [p IH|p IH|]; simpl; rewrite ?IH. Qed.

Definition sample_store : StoreEnv :=
  {| parse_index := λ s, decode (parse_pos s); print_index := λ m, Some (print_pos (encode m));
     blake3_hex := λ data, data +:+ "0123456789abcdef"; read_binary := λ path, Some "ELF" |}.

Lemma sample_store_ok : @index_codec_ok sample_store.
Proof. intros m. eexists. split; [reflexivity|]. simpl. by rewrite parse_print_pos, decode_encode. Qed.

Definition sample_io : Io :=
  {| io_read_dir := true; io_remove := λ _, true; io_write := λ _, true; io_rename := true; io_now := 5 * 10 ^ 9 |}.

Lemma sample_io_fine : io_fine sample_io.
Proof. done. Qed.

Definition sample_file (name : string) (len mtime : Z) : DirEntry :=
  {| de_name := name; de_meta := Some {| md_is_file := true; md_len := len; md_modified := Some mtime |};
     de_data := None |}.

(** One analysed binary, and an index entry for another one that is gone. *)
Definition sample_index : gmap string IdbEntry :=
  <["gone" := {| ie_hash := "gone"; ie_original_path := "/b"; ie_binary_type := "native"; ie_size := 1;
                 ie_created_at := "1Z"; ie_last_accessed := "2Z" |}]>
  (<["ELF012345678" := {| ie_hash := "ELF012345678"; ie_original_path := "/a.so"; ie_binary_type := "sbpf"; ie_size := 3;
                 ie_created_at := "1Z"; ie_last_accessed := "2Z" |}]> ∅).

Definition sample_dir : list DirEntry :=
  [sample_file "a.so.ELF012345678.dylib.i64" 30 7;
   {| de_name := index_json;
      de_meta := Some {| md_is_file := true; md_len := 10; md_modified := Some 3%Z |};
      de_data := print_index (StoreEnv := sample_store) sample_index |}].

Lemma clean_drops_orphans_witness :
  let h := canonical_order in let e := sample_store in
  (clean sample_io "/idb" (clean sample_io "/idb" sample_dir).1).2 = [] ∧
  ie_hash <$> (clean sample_io "/idb" sample_dir).2 = ["gone"].
Proof.
  cbn zeta. split; [|vm_compute; reflexivity].
  exact (proj2 (proj2 (proj2 (@clean_drops_orphans canonical_order sample_store sample_io "/idb" sample_dir
    sample_io_fine sample_store_ok)))).
Defined.

Lemma record_updates_index_witness :
  let h := canonical_order in let e := sample_store in
  ∃ e, load_index (record_idb sample_io "/x/a.so" sample_dir) = <["ELF012345678" := e]> (load_index sample_dir) ∧
    ie_created_at e = "1Z" ∧ ie_last_accessed e = "5Z".
Proof.
  cbn zeta.
  destruct (@record_updates_index canonical_order sample_store sample_io "/x/a.so" sample_dir
    sample_io_fine sample_store_ok) as (e & He & _ & _ & _ & Hl & Hc).
  exists e. split; [exact He|]. rewrite Hl, Hc. split; vm_compute; reflexivity.
Defined.

Lemma lookup_content_addressed_witness :
  let e := sample_store in
  ∃ f, f ∈ sample_dir ∧ lookup_idb sample_io "/idb" "/renamed" sample_dir = Some (path_join "/idb" (de_name f)).
Proof.
  cbn zeta.
  destruct (@lookup_content_addressed sample_store sample_io "/idb" "/x/a.so" "/renamed"
    (sample_file "a.so.ELF012345678.dylib.i64" 30 7) sample_dir sample_io_fine) as (f & Hf & _ & Hl).
  - left.
  - vm_compute. reflexivity.
  - reflexivity.
  - exists f. split; [exact Hf|exact Hl].
Defined.

Lemma remove_forgets_database_witness :
  let e := sample_store in
  (remove_idb sample_io "ELF012345678" sample_dir).2 = true ∧
  lookup_by_hash sample_io "/idb" "ELF012345678" (remove_idb sample_io "ELF012345678" sample_dir).1 = None.
Proof.
  cbn zeta.
  pose proof (@remove_forgets_database sample_store sample_io "/idb" "ELF012345678" sample_dir
    sample_io_fine sample_store_ok) as Hr.
  destruct (remove_idb sample_io "ELF012345678" sample_dir) as [d' b].
  assert (∀ e, e ∈ sample_dir → removable e = true) as Hrm.
  { intros e He. unfold sample_dir in He. rewrite !elem_of_cons in He. destruct He as [->|[->|[]%elem_of_nil]]; reflexivity. }
  specialize (Hr Hrm).
  assert (is_Some (load_index (H0 := sample_store) sample_dir !! "ELF012345678")) as [x Hx]
    by (eexists; vm_compute; reflexivity).
  rewrite Hx in Hr. destruct Hr as (H1 & _ & H2 & _). split; [exact H1|exact H2].
Defined.
