(* ===== verification/IdbEviction.v ===== *)
(** * What [IdbStore::evict_to_limit] evicts

    The files of a group share a stem and go together, the groups go in the order of
    their last use, the pinned ones stay, and eviction stops as soon as the limit is
    met. *)

From Stdlib Require Import Ascii.
From stdpp Require Import base gmap strings numbers sorting fin_maps fin_map_dom list.
From S2P Require Import Prelude RustStr Fs IdbStore.

Section groups.
Context (root : string).
Implicit Types (l : list FileInfo) (f : FileInfo).

Definition stem_of f : string := group_stem root (f_name f).

(** The files of a stem. *)
Definition stem_files (stem : string) l : list FileInfo := filter (λ f, stem_of f = stem) l.

Definition newest l : Z := foldl (λ m f, if (m <? f_mtime f)%Z then f_mtime f else m) 0%Z l.

(** The group of a stem. *)
Definition group_at (stem : string) l : Group :=
  {| g_files := f_name <$> stem_files stem l; g_bytes := sumZ f_len (stem_files stem l);
     g_newest_mtime := newest (stem_files stem l) |}.

Lemma stem_files_snoc stem l f :
  stem_files stem (l ++ [f]) = if decide (stem_of f = stem) then stem_files stem l ++ [f] else stem_files stem l.
Proof.
  unfold stem_files. rewrite filter_app, filter_cons. destruct (decide _); [done|]. apply app_nil_r.
Qed.

Lemma groups_of_snoc l f : groups_of root (l ++ [f]) = add_to_group root (groups_of root l) f.
Proof. unfold groups_of. by rewrite foldl_app. Qed.

Lemma sum_stem_le stem l : (∀ f, f ∈ l → 0 ≤ f_len f)%Z → (sumZ f_len (stem_files stem l) ≤ sumZ f_len l)%Z.
Proof.
  intros Hl. rewrite (sumZ_filter f_len (λ f, stem_of f = stem) l). unfold stem_files.
  assert (0 ≤ sumZ f_len (filter (λ f, stem_of f ≠ stem) l))%Z; [|lia].
  apply sumZ_nonneg. intros f [_ Hf]%list_elem_of_filter. auto.
Qed.

Lemma groups_of_lookup stem l :
  (∀ f, f ∈ l → 0 ≤ f_len f)%Z → (sumZ f_len l ≤ u64_max)%Z →
  groups_of root l !! stem = if bool_decide (stem_files stem l = []) then None else Some (group_at stem l).
Proof.
  induction l as [|f l IH] using rev_ind; intros Hpos Hle; [done|].
  rewrite groups_of_snoc. rewrite sumZ_app in Hle. cbn [sumZ foldr] in Hle.
  assert (0 ≤ f_len f)%Z by (apply Hpos; set_solver).
  assert (∀ g, g ∈ l → 0 ≤ f_len g)%Z as Hpos' by set_solver.
  specialize (IH Hpos' ltac:(lia)). pose proof (sum_stem_le stem l Hpos').
  unfold add_to_group. cbn zeta. fold (stem_of f). rewrite stem_files_snoc. unfold group_at at 1.
  rewrite stem_files_snoc. destruct (decide (stem_of f = stem)) as [<-|Hne].
  - rewrite lookup_insert_eq, IH.
    rewrite (bool_decide_false (stem_files (stem_of f) l ++ [f] = [])) by (intros [_ ?]%app_nil; done).
    f_equal. unfold newest. rewrite fmap_app, sumZ_app, foldl_app. cbn [sumZ foldr foldl].
    unfold sumZ in *. case_bool_decide as Hn; [rewrite Hn in *; simpl in H0|]; simpl; f_equal; unfold saturating_add, sumZ; lia.
  - by rewrite lookup_insert_ne.
Qed.

(** No byte is counted twice or missed. *)
Lemma groups_of_sum l :
  (∀ f, f ∈ l → 0 ≤ f_len f)%Z → (sumZ f_len l ≤ u64_max)%Z →
  sumZ (λ sg, g_bytes sg.2) (map_to_list (groups_of root l)) = sumZ f_len l.
Proof.
  induction l as [|f l IH] using rev_ind; intros Hpos Hle; [done|].
  rewrite groups_of_snoc. rewrite sumZ_app in *. cbn [sumZ foldr] in *.
  assert (0 ≤ f_len f)%Z by (apply Hpos; set_solver).
  assert (∀ g, g ∈ l → 0 ≤ f_len g)%Z as Hpos' by set_solver.
  specialize (IH Hpos' ltac:(lia)). pose proof (sum_stem_le (stem_of f) l Hpos').
  pose proof (groups_of_lookup (stem_of f) l Hpos' ltac:(lia)) as Hl.
  unfold add_to_group. cbn zeta. fold (stem_of f).
  case_bool_decide as Hn; rewrite Hl; simpl.
  - rewrite (sumZ_perm _ _ _ (map_to_list_insert _ _ _ Hl)). simpl. fold (sumZ (λ sg : string * Group, g_bytes sg.2)).
    rewrite IH. unfold saturating_add. assert (0 ≤ sumZ f_len l)%Z by by apply sumZ_nonneg. unfold sumZ in *. lia.
  - rewrite <-(sumZ_perm _ _ _ (map_to_list_delete _ _ _ Hl)) in IH. rewrite <-insert_delete_eq.
    rewrite (sumZ_perm _ _ _ (map_to_list_insert _ _ _ (lookup_delete_eq _ _))). simpl in *.
    unfold saturating_add, sumZ in *. lia.
Qed.

Lemma lru_order_perm l : lru_order root l ≡ₚ map_to_list (groups_of root l).
Proof. unfold lru_order, btree_iter. by rewrite !sort_by_perm. Qed.

Lemma lru_order_sorted l : StronglySorted older_group (lru_order root l).
Proof. apply sort_by_strongly_sorted; unfold older_group; intros *; lia. Qed.

Lemma elem_of_lru_order l stem g :
  (∀ f, f ∈ l → 0 ≤ f_len f)%Z → (sumZ f_len l ≤ u64_max)%Z →
  (stem, g) ∈ lru_order root l ↔ stem_files stem l ≠ [] ∧ g = group_at stem l.
Proof.
  intros ??. rewrite lru_order_perm, elem_of_map_to_list, groups_of_lookup by done.
  case_bool_decide; naive_solver.
Qed.

(** The bytes of some of the groups are the bytes of the files of their stems. *)
Lemma sum_of_groups l (ev : list (string * Group)) :
  NoDup ev.*1 → (∀ g, g ∈ ev → g.2 = group_at g.1 l) →
  sumZ (λ g, g_bytes g.2) ev = sumZ f_len (filter (λ f, stem_of f ∈ ev.*1) l) ∧
  sum_list_with (λ g, length (g_files g.2)) ev = length (filter (λ f, stem_of f ∈ ev.*1) l).
Proof.
  induction ev as [|[stem g] ev IH]; intros Hnd Hg; simpl.
  - assert (filter (λ f, stem_of f ∈ ([] : list string)) l = []) as ->; [|done].
    apply elem_of_nil_inv. intros f [Hf _]%list_elem_of_filter. set_solver.
  - apply NoDup_cons in Hnd as [Hn Hnd]. change (stem ∉ ev.*1) in Hn. destruct IH as [IHb IHf]; [done|set_solver|].
    pose proof (Hg (stem, g) ltac:(left)) as Hgs. simpl in Hgs. subst g. rewrite IHf.
    change (foldr _ 0%Z ev) with (sumZ (λ g : string * Group, g_bytes g.2) ev). rewrite IHb.
    assert (filter (λ f, stem_of f ∈ stem :: ev.*1) l ≡ₚ
            stem_files stem l ++ filter (λ f, stem_of f ∈ ev.*1) l) as Hp.
    { clear -Hn. unfold stem_files. induction l as [|f l IH]; [done|]. rewrite !filter_cons.
      destruct (decide (stem_of f = stem)), (decide (stem_of f ∈ ev.*1));
        try rewrite (decide_True (P := stem_of f ∈ stem :: ev.*1)) by set_solver;
        try rewrite (decide_False (P := stem_of f ∈ stem :: ev.*1)) by set_solver;
        [set_solver|simpl; by rewrite IH|rewrite IH; apply Permutation_middle|done]. }
    rewrite (sumZ_perm _ _ _ Hp), Hp, sumZ_app, length_app. simpl. by rewrite length_fmap.
Qed.
End groups.

(** ** The eviction loop *)

Section evict.
Context `{HashOrder} `{StoreEnv} (io : Io) (root : string) (max_bytes : Z) (pinned : gset string).

Definition group_bytes (g : string * Group) : Z := g_bytes g.2.
Definition is_pinned (g : string * Group) : bool := bool_decide (g.1 ∈ pinned).

Lemma remove_files_app l1 l2 d : remove_files io (l1 ++ l2) d = remove_files io l2 (remove_files io l1 d).
Proof. unfold remove_files. by rewrite foldl_app. Qed.

Lemma evict_groups_spec ordered s :
  (∀ g, g ∈ ordered → 0 ≤ group_bytes g)%Z → (sumZ group_bytes ordered ≤ ev_total s)%Z →
  (0 ≤ ev_bytes s)%Z → (ev_bytes s + sumZ group_bytes ordered ≤ u64_max)%Z →
  let ev := evicted group_bytes is_pinned max_bytes ordered (ev_total s) in
  evict_groups io max_bytes pinned ordered s =
    {| ev_total := ev_total s - sumZ group_bytes ev; ev_groups := ev_groups s + length ev;
       ev_files := ev_files s + sum_list_with (λ g, length (g_files g.2)) ev;
       ev_bytes := ev_bytes s + sumZ group_bytes ev;
       ev_dir := remove_files io (concat ((λ g, g_files g.2) <$> ev)) (ev_dir s) |}%Z.
Proof.
  cbn zeta. revert s; induction ordered as [|[stem g] rest IH]; intros [t ng nf b d] Hpos Hle Hb Hfit; simpl in *;
    [f_equal; lia|].
  destruct (t <=? max_bytes)%Z; [simpl; f_equal; lia|]. change (is_pinned (stem, g)) with (bool_decide (stem ∈ pinned)).
  assert (0 ≤ group_bytes (stem, g))%Z by (apply Hpos; left).
  assert (0 ≤ sumZ group_bytes rest)%Z by (apply sumZ_nonneg; set_solver).
  assert (∀ g, g ∈ rest → 0 ≤ group_bytes g)%Z as Hpos' by set_solver.
  change (foldr _ 0%Z rest) with (sumZ group_bytes rest) in *.
  case_bool_decide; [rewrite IH; simpl; auto; lia|].
  change (group_bytes (stem, g)) with (g_bytes g) in *.
  replace (saturating_sub t (g_bytes g)) with (t - g_bytes g)%Z by (unfold saturating_sub; lia).
  replace (saturating_add b (g_bytes g)) with (b + g_bytes g)%Z by (unfold saturating_add; lia).
  rewrite IH; simpl; [|done|lia..].
  rewrite remove_files_app. f_equal; unfold sumZ, group_bytes in *; simpl; lia.
Qed.

Definition evicted_groups (d : list DirEntry) : list (string * Group) :=
  evicted group_bytes is_pinned max_bytes (lru_order root (files_of d)) (sumZ f_len (files_of d)).

Lemma group_bytes_nonneg d g : dir_wf d → g ∈ lru_order root (files_of d) → (0 ≤ group_bytes g)%Z.
Proof.
  destruct g as [stem g]. intros [_ Hs Hf] [_ ->]%elem_of_lru_order; [|done..].
  unfold group_bytes, group_at. simpl. apply sumZ_nonneg. intros f [_ ?]%list_elem_of_filter. auto.
Qed.

Lemma lru_order_total d :
  dir_wf d → sumZ group_bytes (lru_order root (files_of d)) = sumZ f_len (files_of d).
Proof. intros [_ Hs Hf]. rewrite (sumZ_perm _ _ _ (lru_order_perm _ _)). by apply groups_of_sum. Qed.

Lemma evicted_groups_sub d g : g ∈ evicted_groups d → g ∈ lru_order root (files_of d).
Proof.
  intros Hg. unfold evicted_groups in Hg. eapply elem_of_prefix in Hg; [|apply evicted_prefix].
  by apply list_elem_of_filter in Hg as [_ ?].
Qed.

Lemma evicted_groups_NoDup d : NoDup (evicted_groups d).*1.
Proof.
  assert (NoDup (lru_order root (files_of d)).*1) as Hnd
    by (rewrite lru_order_perm; apply NoDup_fst_map_to_list).
  destruct (evicted_prefix group_bytes is_pinned max_bytes (lru_order root (files_of d)) (sumZ f_len (files_of d)))
    as [k Hk].
  assert (NoDup (unpinned is_pinned (lru_order root (files_of d))).*1) as Hu.
  { eapply sublist_NoDup; [exact Hnd|]. apply fmap_sublist, sublist_filter. }
  rewrite Hk, fmap_app in Hu. by apply NoDup_app in Hu as [? _].
Qed.

(** What the loop leaves of a directory. *)
Lemma elem_of_evicted_dir d e :
  io_fine io → dir_wf d → e ∈ d →
  e ∈ remove_files io (concat ((λ g, g_files g.2) <$> evicted_groups d)) d ↔
  ¬ (is_Some (file_info e) ∧ group_stem root (de_name e) ∈ (evicted_groups d).*1).
Proof.
  intros (_ & Hr & _) Hwf He. rewrite remove_files_filter, list_elem_of_filter by done.
  assert (de_name e ∈ concat ((λ g : string * Group, g_files g.2) <$> evicted_groups d) ↔
          is_Some (file_info e) ∧ group_stem root (de_name e) ∈ (evicted_groups d).*1) as Hiff.
  { rewrite list_elem_of_In, in_concat. setoid_rewrite <-list_elem_of_In. setoid_rewrite list_elem_of_fmap. split.
    - intros (names & ([stem g] & -> & Hg) & Hn). pose proof (evicted_groups_sub _ _ Hg) as Hl.
      apply elem_of_lru_order in Hl as [_ ->]; [|apply Hwf..]. simpl in Hn.
      apply list_elem_of_fmap in Hn as (f & Hn & [Hs Hf]%list_elem_of_filter).
      apply list_elem_of_omap in Hf as (e' & He' & Hinfo).
      assert (de_name e' = f_name f) as Hn' by (unfold file_info in Hinfo; repeat case_match; by simplify_eq).
      assert (e' = e) as -> by (eapply NoDup_fmap_elem_of_eq; [apply Hwf|done..|congruence]).
      split; [by eexists|]. exists (stem, group_at root stem (files_of d)). split; [|done].
      simpl. unfold stem_of in Hs. congruence.
    - intros [[f Hf] ([stem g] & Hs & Hg)]. simpl in Hs. pose proof (evicted_groups_sub _ _ Hg) as Hl.
      apply elem_of_lru_order in Hl as [_ ->]; [|apply Hwf..].
      eexists. split; [by eexists (_, _)|]. simpl. apply list_elem_of_fmap. exists f.
      assert (de_name e = f_name f) as Hn by (unfold file_info in Hf; repeat case_match; by simplify_eq).
      split; [done|]. apply list_elem_of_filter. split; [unfold stem_of; congruence|].
      apply list_elem_of_omap. eauto. }
  rewrite Hiff. split; [|tauto].
  intros [Hn _] [[f Hf] Hs]. apply Hn. split; [by split|].
  unfold file_info, removable in *. by repeat case_match.
Qed.

(** The result of [evict_to_limit] in terms of the groups that go. *)
Lemma evict_to_limit_eq d :
  io_fine io → dir_wf d →
  let ev := evicted_groups d in
  let total := sumZ f_len (files_of d) in
  (evict_to_limit io root max_bytes pinned d).2 =
    {| es_evicted_groups := length ev; es_evicted_files := sum_list_with (λ g, length (g_files g.2)) ev;
       es_evicted_bytes := sumZ group_bytes ev; es_remaining_bytes := total - sumZ group_bytes ev |}%Z ∧
  (evict_to_limit io root max_bytes pinned d).1 =
    if (total <=? max_bytes)%Z then d
    else (clean io root (remove_files io (concat ((λ g, g_files g.2) <$> ev)) d)).1.
Proof.
  intros (Hr & _) Hwf. cbn zeta. unfold evict_to_limit, scan_files, read_dir. rewrite Hr. change (default [] (Some d)) with d.
  rewrite scan_total_sum by done. unfold evicted_groups.
  destruct (sumZ f_len (files_of d) <=? max_bytes)%Z eqn:E.
  - assert (evicted group_bytes is_pinned max_bytes (lru_order root (files_of d)) (sumZ f_len (files_of d)) = [])
      as -> by (destruct (lru_order _ _); simpl; by rewrite ?E).
    simpl. change (sumZ group_bytes []) with 0%Z. split; [f_equal; lia|done].
  - rewrite evict_groups_spec; simpl; rewrite ?lru_order_total by done.
    + done.
    + intros g. by apply group_bytes_nonneg.
    + done.
    + done.
    + apply Hwf.
Qed.

Lemma elem_of_evict_to_limit d e :
  io_fine io → index_codec_ok → dir_wf d → e ∈ d → ¬ is_index_name (de_name e) →
  e ∈ (evict_to_limit io root max_bytes pinned d).1 ↔
  ¬ (is_Some (file_info e) ∧ group_stem root (de_name e) ∈ (evicted_groups d).*1).
Proof.
  intros Hio Hc Hwf He Hn. rewrite <-elem_of_evicted_dir by done.
  rewrite (proj2 (evict_to_limit_eq d Hio Hwf)).
  destruct (sumZ f_len (files_of d) <=? max_bytes)%Z eqn:E; [|by apply elem_of_clean].
  assert (evicted_groups d = []) as -> by (unfold evicted_groups; destruct (lru_order _ _); simpl; by rewrite ?E).
  done.
Qed.

End evict.

(** Three groups, the oldest one pinned, and a limit that one eviction meets. *)
Definition lru_dir : list DirEntry :=
  [sample_file "a.i64" 40 10; sample_file "b.i64" 30 20; sample_file "b.til" 5 60; sample_file "c.i64" 20 40].

Lemma lru_dir_wf : dir_wf lru_dir.
Proof. solve_dir_wf. Qed.


(** ** The index is evicted like any other file *)

(** [index.json] is a group of the store like the databases are: it is the oldest
    file when nothing was recorded lately, and evicting it drops every entry, also
    those whose databases stay. *)
Theorem evict_can_drop_index :
  let h := canonical_order in let e := sample_store in
  let d' := (evict_to_limit sample_io "/idb" 35 ∅ sample_dir).1 in
  lookup_by_hash sample_io "/idb" "ELF012345678" d' = Some "/idb/a.so.ELF012345678.dylib.i64" ∧
  is_Some (load_index sample_dir !! "ELF012345678") ∧ list_entries d' = [].
Proof. cbn zeta. split_and!; [|eexists|]; vm_compute; reflexivity. Qed.
