(* ===== verification/ResponseCache.v ===== *)
(** * The response cache (src/server/response_cache.rs)

    Responses that are too large to send inline are written to a directory and
    replaced by a summary; the directory is pruned oldest first.  [serde_json]'s
    printer and the hash of [DefaultHasher], which the standard library leaves
    unspecified, are parameters. *)

From Stdlib Require Import Ascii.
From stdpp Require Import base gmap strings numbers sorting list.
From S2P Require Import Prelude RustStr Json Fs.

Definition DEFAULT_MAX_INLINE_BYTES : Z := 512.
Definition CACHE_DIR : string := "/tmp/ida-cli-out".

Record ResponseCacheStats : Type := { rs_dir : string; rs_file_count : nat; rs_total_size_bytes : Z }.

Record ResponseCacheEvictionStats : Type := {
  re_evicted_files : nat; re_evicted_bytes : Z; re_remaining_bytes : Z
}.

(** ** Guarding the size of a response *)

Definition count_keys : list string :=
  ["strings"; "functions"; "exports"; "imports"; "segments"; "xrefs"; "results"; "items"; "callgraph"].

Fixpoint first_array (keys : list string) (o : list (string * Value)) : option nat :=
  match keys with
  | [] => None
  | key :: rest =>
      match obj_get key o ≫= as_array with
      | Some arr => Some (length arr)
      | None => first_array rest o
      end
  end.

Definition count_items (v : Value) : option nat :=
  match (match as_object v with Some o => first_array count_keys o | None => None end) with
  | Some n => Some n
  | None => length <$> as_array v
  end.

(** [{:.1}] of [size as f64 / 1024.0], which is exact below 2^53 bytes: tenths of a
    kilobyte, halves to even. *)
Definition fmt_kb (size : Z) : string :=
  let q := (size * 10 / 1024)%Z in
  let r := (size * 10 mod 1024)%Z in
  let tenths := if (512 <? r)%Z || ((r =? 512)%Z && Z.odd q) then (q + 1)%Z else q in
  fmt_dec (tenths / 10) +:+ "." +:+ fmt_dec (tenths mod 10).

Class CacheEnv : Type := {
  cache_var : string → option string;
  to_json_string : Value → option string;
  default_hash : string → Z
}.

Section cache.
Context `{CacheEnv}.
Implicit Types (d : list DirEntry) (io : Io).

Definition max_inline_bytes : Z :=
  default DEFAULT_MAX_INLINE_BYTES (cache_var "IDA_MCP_MAX_INLINE_BYTES" ≫= parse_u64).

Definition cache_filename (method json_str : string) : string :=
  method +:+ "-" +:+ pad_zero 16 (fmt_hex (default_hash json_str)) +:+ ".json".

Definition cache_summary (size : Z) (item_count : option nat) (file : string) : string :=
  "Response too large for inline display (" +:+ fmt_kb size +:+ "KB" +:+
  match item_count with Some n => ", " +:+ fmt_dec (Z.of_nat n) +:+ " items" | None => "" end +:+
  "). Full output saved to: " +:+ file +:+ newline +:+
  "Use `cat " +:+ file +:+ "` or Read tool to access the data.".

Definition guard_response_size io (method : string) (result : Value) d : list DirEntry * Value :=
  let json_str := default "" (to_json_string result) in
  let size := Z.of_nat (String.length json_str) in
  if (size <=? max_inline_bytes)%Z then (d, result)
  else
    let filename := cache_filename method json_str in
    let file_path := path_join CACHE_DIR filename in
    let '(d', written) := write_file io filename json_str d in
    if negb written then (d', result)
    else
      let item_count := count_items result in
      (d', obj [("cached", Bool true); ("file", VString file_path); ("size_bytes", vz size);
                ("item_count", opt_value (vnat <$> item_count));
                ("summary", VString (cache_summary size item_count file_path))]).

(** ** Statistics and pruning *)

Definition cache_stats io d : ResponseCacheStats :=
  let files := scan_files io d in
  {| rs_dir := CACHE_DIR; rs_file_count := length files; rs_total_size_bytes := scan_total files |}.

Definition older_file (a b : FileInfo) : bool := (f_mtime a <=? f_mtime b)%Z.

Record PruneState : Type := { ps_total : Z; ps_files : nat; ps_bytes : Z; ps_dir : list DirEntry }.

Fixpoint prune_files io (max_bytes : Z) (files : list FileInfo) (s : PruneState) : PruneState :=
  match files with
  | [] => s
  | f :: rest =>
      if (ps_total s <=? max_bytes)%Z then s
      else
        prune_files io max_bytes rest
          {| ps_total := saturating_sub (ps_total s) (f_len f);
             ps_files := S (ps_files s);
             ps_bytes := saturating_add (ps_bytes s) (f_len f);
             ps_dir := remove_file io (f_name f) (ps_dir s) |}
  end.

Definition prune_to_limit io (max_bytes : Z) d : list DirEntry * ResponseCacheEvictionStats :=
  let files := scan_files io d in
  let total_size := scan_total files in
  if (total_size <=? max_bytes)%Z then
    (d, {| re_evicted_files := 0; re_evicted_bytes := 0; re_remaining_bytes := total_size |})
  else
    let s := prune_files io max_bytes (sort_by older_file files)
               {| ps_total := total_size; ps_files := 0; ps_bytes := 0; ps_dir := d |} in
    (ps_dir s, {| re_evicted_files := ps_files s; re_evicted_bytes := ps_bytes s; re_remaining_bytes := ps_total s |}).

(** ** Theorems *)

(** No response is lost: what [guard_response_size] answers is the response
    itself, or an object with [cached] set and the path of a file whose content is
    the whole response as JSON.  The first happens exactly when the JSON text fits
    the inline limit or cannot be written. *)
Theorem guard_response_lossless io method result d :
  let json_str := default "" (to_json_string result) in
  let name := cache_filename method json_str in
  let '(d', answer) := guard_response_size io method result d in
  if (Z.of_nat (String.length json_str) <=? max_inline_bytes)%Z || negb (io_write io name)
  then answer = result ∧ d' = d
  else
    get "cached" answer = Some (Bool true) ∧ get "file" answer = Some (VString (path_join CACHE_DIR name)) ∧
    get "size_bytes" answer = Some (vz (Z.of_nat (String.length json_str))) ∧
    read_to_string name d' = Some json_str ∧
    ∀ other, other ≠ name → read_to_string other d' = read_to_string other d.
Proof.
  cbn zeta. unfold guard_response_size. cbn zeta.
  set (json_str := default "" (to_json_string result)). set (name := cache_filename method json_str).
  destruct (_ <=? _)%Z; [done|]. simpl orb.
  destruct (io_write io name) eqn:Hw; unfold write_file at 1; rewrite Hw; simpl negb; cbn iota; [|done].
  split_and!; [done..| |].
  - pose proof (read_write_file io name json_str d Hw) as Hr. unfold write_file in Hr. by rewrite Hw in Hr.
  - intros other Hne. unfold read_to_string. f_equal.
    apply find_entry_ne; [by simpl|]. by apply find_entry_without.
Qed.

Lemma prune_files_spec io max_bytes files s :
  (∀ f, f ∈ files → 0 ≤ f_len f)%Z → (sumZ f_len files ≤ ps_total s)%Z →
  (0 ≤ ps_bytes s)%Z → (ps_bytes s + sumZ f_len files ≤ u64_max)%Z →
  let ev := evicted f_len (λ _, false) max_bytes files (ps_total s) in
  prune_files io max_bytes files s =
    {| ps_total := ps_total s - sumZ f_len ev; ps_files := ps_files s + length ev;
       ps_bytes := ps_bytes s + sumZ f_len ev; ps_dir := remove_files io (f_name <$> ev) (ps_dir s) |}%Z.
Proof.
  cbn zeta. revert s; induction files as [|f rest IH]; intros [t nf b d] Hpos Hle Hb Hfit; simpl in *;
    [f_equal; lia|].
  destruct (t <=? max_bytes)%Z; [simpl; f_equal; lia|].
  assert (0 ≤ f_len f)%Z by (apply Hpos; left).
  assert (0 ≤ sumZ f_len rest)%Z by (apply sumZ_nonneg; set_solver).
  change (foldr _ 0%Z rest) with (sumZ f_len rest) in *.
  replace (saturating_sub t (f_len f)) with (t - f_len f)%Z by (unfold saturating_sub; lia).
  replace (saturating_add b (f_len f)) with (b + f_len f)%Z by (unfold saturating_add; lia).
  rewrite IH; simpl; [|set_solver|lia..]. f_equal; unfold sumZ in *; simpl; lia.
Qed.

(** The files that [prune_to_limit] evicts. *)
Definition pruned_files (max_bytes : Z) d : list FileInfo :=
  evicted f_len (λ _, false) max_bytes (sort_by older_file (files_of d)) (sumZ f_len (files_of d)).

Lemma pruned_files_sub max_bytes d f : f ∈ pruned_files max_bytes d → f ∈ files_of d.
Proof. intros Hf. apply (sort_by_elem older_file). eapply elem_of_prefix; [exact Hf|apply evicted_unpinned_prefix]. Qed.

Lemma pruned_files_NoDup max_bytes d : dir_wf d → NoDup (pruned_files max_bytes d).
Proof.
  intros Hwf. destruct (evicted_unpinned_prefix f_len max_bytes (sort_by older_file (files_of d)) (sumZ f_len (files_of d)))
    as [k Hk].
  assert (NoDup (sort_by older_file (files_of d))) as Hnd
    by (rewrite sort_by_perm; eapply NoDup_fmap_1, files_of_NoDup, Hwf).
  rewrite Hk in Hnd. by apply NoDup_app in Hnd as [? _].
Qed.

Lemma prune_to_limit_eq io max_bytes d :
  io_fine io → dir_wf d →
  (prune_to_limit io max_bytes d).2 =
    {| re_evicted_files := length (pruned_files max_bytes d); re_evicted_bytes := sumZ f_len (pruned_files max_bytes d);
       re_remaining_bytes := sumZ f_len (files_of d) - sumZ f_len (pruned_files max_bytes d) |}%Z ∧
  files_of (prune_to_limit io max_bytes d).1 = filter (λ f, f ∉ pruned_files max_bytes d) (files_of d).
Proof.
  intros Hio Hwf.
  rewrite <-(files_of_remove_files io (pruned_files max_bytes d) d);
    [|apply Hio|apply Hwf|intros f; apply pruned_files_sub].
  unfold prune_to_limit, pruned_files, scan_files, read_dir. rewrite (proj1 Hio). change (default [] (Some d)) with d.
  rewrite scan_total_sum by done. destruct (_ <=? _)%Z eqn:E.
  - assert (evicted f_len (λ _, false) max_bytes (sort_by older_file (files_of d)) (sumZ f_len (files_of d)) = [])
      as -> by (destruct (sort_by _ _); simpl; by rewrite ?E).
    simpl. change (sumZ f_len []) with 0%Z. split; [f_equal; lia|done].
  - pose proof (sumZ_perm f_len _ _ (sort_by_perm older_file (files_of d))) as Hsum.
    rewrite prune_files_spec; simpl; [done|intros f; rewrite sort_by_elem; apply Hwf|lia|done|destruct Hwf; lia].
Qed.

(** [prune_to_limit] removes the least recently modified files, and no more of them
    than needed: afterwards the files left fit the limit and their total is what it
    reports, and the last file that went was over the limit. *)
Theorem prune_to_limit_correct io max_bytes d :
  io_fine io → dir_wf d → (0 ≤ max_bytes)%Z →
  ∃ ev,
    let '(d', st) := prune_to_limit io max_bytes d in
    ev `prefix_of` sort_by older_file (files_of d) ∧ StronglySorted older_file (sort_by older_file (files_of d)) ∧
    files_of d' = filter (λ f, f ∉ ev) (files_of d) ∧
    re_remaining_bytes st = sumZ f_len (files_of d') ∧ (re_remaining_bytes st ≤ max_bytes)%Z ∧
    re_evicted_files st = length ev ∧ re_evicted_bytes st = sumZ f_len ev ∧
    (∀ ev' f, ev = ev' ++ [f] → max_bytes < re_remaining_bytes st + f_len f)%Z.
Proof.
  intros Hio Hwf Hmax. exists (pruned_files max_bytes d).
  pose proof (prune_to_limit_eq io max_bytes d Hio Hwf) as [Hst Hd].
  destruct (prune_to_limit io max_bytes d) as [d' st]. simpl in Hst, Hd. subst st. rewrite Hd. simpl.
  pose proof (sumZ_split (pruned_files max_bytes d) (files_of d)
    (NoDup_fmap_1 _ _ (files_of_NoDup _ (dir_names _ Hwf))) (pruned_files_NoDup _ _ Hwf)
    (pruned_files_sub _ _)) as Hsplit.
  pose proof (sumZ_perm f_len _ _ (sort_by_perm older_file (files_of d))) as Hsum.
  assert (∀ f, f ∈ sort_by older_file (files_of d) → 0 ≤ f_len f)%Z as Hpos
    by (intros f; rewrite sort_by_elem; apply Hwf).
  split_and!; try done.
  - apply evicted_unpinned_prefix.
  - apply sort_by_strongly_sorted; unfold older_file; intros *; lia.
  - lia.
  - destruct (evicted_enough f_len (λ _, false) max_bytes _ (sumZ f_len (files_of d)) Hpos ltac:(lia)) as [?|Hall];
      [done|]. unfold pruned_files. rewrite Hall, unpinned_false. lia.
  - intros ev' f Hev. pose proof (evicted_minimal f_len (λ _, false) max_bytes _ (sumZ f_len (files_of d)) ev' f
      Hpos ltac:(lia) Hev) as Hm. rewrite Hev, sumZ_app. cbn [sumZ foldr]. unfold sumZ in *. lia.
Qed.
End cache.

Definition cached_file (name : string) (len mtime : Z) : DirEntry :=
  {| de_name := name; de_meta := Some {| md_is_file := true; md_len := len; md_modified := Some mtime |};
     de_data := None |}.

Lemma prune_to_limit_correct_witness :
  let io := {| io_read_dir := true; io_remove := λ _, true; io_write := λ _, true; io_rename := true; io_now := 0 |} in
  let d := [cached_file "a" 40 9; cached_file "b" 30 5; cached_file "c" 20 7] in
  (re_remaining_bytes (prune_to_limit io 60 d).2 ≤ 60)%Z ∧
  de_name <$> (prune_to_limit io 60 d).1 = ["a"; "c"].
Proof.
  cbn zeta. split; [|vm_compute; reflexivity].
  set (io := {| io_now := 0 |}). set (d := [_; _; _]).
  destruct (prune_to_limit_correct io 60 d) as [ev Hev].
  - done.
  - solve_dir_wf.
  - lia.
  - destruct (prune_to_limit io 60 d) as [d' st]. exact (proj1 (proj2 (proj2 (proj2 (proj2 Hev))))).
Defined.

(** * Pruning both caches (RouterState::prune_caches of src/router/mod.rs)

    The watchdog bounds the database store and the response cache; the databases of
    warm leases are pinned. *)

From stdpp Require Import fin_maps list.
From S2P Require Import RouterConfig Registry Router Fs IdbStore.
From S2P Require Import IdbEviction.

(** [path.with_extension("").display()], for a path that ends in a file name. *)
Definition without_extension (path : string) : string :=
  match rsplit_slash path with
  | Some (dir, name) => dir +:+ "/" +:+ file_stem name
  | None => file_stem path
  end.

Definition pinned_groups (warm_pool : gmap string WarmLease) : gset string :=
  list_to_set (without_extension <$> omap wl_cache_path (map_to_list warm_pool).*2).

(** The two directories after [prune_caches]. *)
Definition prune_caches `{HashOrder} `{StoreEnv} (cfg : RouterConfig) (io : Io) (root : string)
    (warm_pool : gmap string WarmLease) (idb_dir response_dir : list DirEntry) : list DirEntry * list DirEntry :=
  ((evict_to_limit io root (max_idb_cache_bytes cfg) (pinned_groups warm_pool) idb_dir).1,
   (prune_to_limit io (max_response_cache_bytes cfg) response_dir).1).

(** ** Warm databases survive *)

Lemma rsplit_slash_none name : str_all (λ c, negb (is_slash c)) name = true → rsplit_slash name = None.
Proof.
  induction name as [|c name IH]; simpl; [done|]. intros [Hc Hn]%andb_true_iff. rewrite IH by done.
  unfold is_slash in Hc. by destruct (bool_decide (c = "/"%char)).
Qed.

Lemma rsplit_slash_app root name :
  str_all (λ c, negb (is_slash c)) name = true → rsplit_slash (root +:+ "/" +:+ name) = Some (root, name).
Proof.
  intros Hn. induction root as [|c root IH].
  - change ("" +:+ "/" +:+ name) with (String "/" name). cbn [rsplit_slash]. by rewrite rsplit_slash_none.
  - change (String c root +:+ "/" +:+ name) with (String c (root +:+ "/" +:+ name)). cbn [rsplit_slash]. by rewrite IH.
Qed.

Lemma without_extension_join root name :
  ends_with "/" root = false → root ≠ "" → str_all (λ c, negb (is_slash c)) name = true →
  without_extension (path_join root name) = group_stem root name.
Proof.
  intros He Hne Hn. unfold without_extension, group_stem, path_join.
  rewrite He, bool_decide_false by done. cbn [orb]. by rewrite rsplit_slash_app.
Qed.

(** Pruning never removes the database of a warm lease, nor a file that shares its
    stem: when the lease's cache path is an entry of the store, that entry is still
    there afterwards. *)
Theorem prune_keeps_warm_databases `{HashOrder} `{StoreEnv} cfg io root pool idb resp path lease name e :
  io_fine io → index_codec_ok → dir_wf idb → ends_with "/" root = false → root ≠ "" →
  pool !! path = Some lease → wl_cache_path lease = Some (path_join root name) →
  str_all (λ c, negb (is_slash c)) name = true →
  e ∈ idb → ¬ is_index_name (de_name e) → file_stem (de_name e) = file_stem name →
  e ∈ (prune_caches cfg io root pool idb resp).1.
Proof.
  intros Hio Hc Hwf Hroot Hne Hl Hcache Hn He Hi Hstem. unfold prune_caches. cbn [fst].
  apply elem_of_evict_to_limit; [done..|]. intros [_ Hev].
  apply list_elem_of_fmap in Hev as ([stem g] & Hs & Hg). simpl in Hs. subst stem.
  unfold evicted_groups in Hg. eapply elem_of_prefix in Hg; [|apply evicted_prefix].
  apply list_elem_of_filter in Hg as [Hp _]. unfold is_pinned in Hp. apply bool_decide_eq_false in Hp. apply Hp.
  unfold pinned_groups. rewrite elem_of_list_to_set, list_elem_of_fmap. exists (path_join root name).
  rewrite without_extension_join by done. split; [simpl; unfold group_stem; by rewrite Hstem|].
  apply list_elem_of_omap. exists lease. split; [|done]. apply list_elem_of_fmap. exists (path, lease).
  by rewrite elem_of_map_to_list.
Qed.

(** A store over its limit, and a warm lease on its oldest database. *)
Definition warm_lease : WarmLease :=
  {| wl_handle := "h"; wl_token := "t"; wl_path := "/bin/a"; wl_cache_path := Some "/idb/a.i64";
     wl_tenant_id := "default"; wl_pinned_at := 0; wl_last_hit := 0 |}.

Definition tiny_cache : RouterConfig :=
  from_env (λ v, if bool_decide (v = "IDA_CLI_MAX_IDB_CACHE_BYTES") then Some "50" else None) None 1.

Lemma prune_keeps_warm_databases_witness :
  let h := canonical_order in let e := sample_store in
  let d' := (prune_caches tiny_cache sample_io "/idb" {["/bin/a" := warm_lease]} lru_dir []).1 in
  sample_file "a.i64" 40 10 ∈ d' ∧ de_name <$> d' = ["a.i64"].
Proof.
  cbn zeta. split; [|vm_compute; reflexivity].
  apply (@prune_keeps_warm_databases canonical_order sample_store tiny_cache sample_io "/idb"
    {["/bin/a" := warm_lease]} lru_dir [] "/bin/a" warm_lease "a.i64").
  - exact sample_io_fine.
  - exact sample_store_ok.
  - exact lru_dir_wf.
  - reflexivity.
  - discriminate.
  - reflexivity.
  - reflexivity.
  - reflexivity.
  - left.
  - intros [?|?]; discriminate.
  - reflexivity.
Defined.
