(* ===== verification/F64.v ===== *)
(** * Binary64 arithmetic

    The [f64] operations of the federation ranking, on the IEEE 754 specification of
    the Standard Library.  The ranking compares with [partial_cmp], so what matters
    is that no NaN arises: sums and quotients of converted counters are ordered. *)

From Stdlib Require Import ZArith SpecFloat.
From stdpp Require Import base numbers.
From S2P Require Import Prelude.

Local Open Scope Z_scope.

Definition f64 : Type := spec_float.
Definition f64_add : f64 → f64 → f64 := SFadd 53 1024.
Definition f64_div : f64 → f64 → f64 := SFdiv 53 1024.
(** [as f64] of an unsigned integer. *)
Definition f64_of (z : Z) : f64 := binary_normalize 53 1024 z 0 false.
Definition f64_mul : f64 → f64 → f64 := SFmul 53 1024.

(** [f64::round]: to the nearest integer, halves away from zero. *)
Definition f64_round (x : f64) : f64 :=
  match x with
  | S754_finite s m e =>
      if 0 <=? e then x
      else
        let d := 2 ^ (- e) in
        let q := (2 * Zpos m + d) / (2 * d) in
        if q =? 0 then S754_zero s else binary_normalize 53 1024 (if s then - q else q) 0 s
  | _ => x
  end.
Definition f64_recip (x : f64) : f64 := f64_div (f64_of 1) x.
Definition f64_partial_cmp : f64 → f64 → option comparison := SFcompare.

(** [partial_cmp(..).unwrap_or(Equal)] is not [Greater]. *)
Definition f64_leb (x y : f64) : bool :=
  match f64_partial_cmp x y with Some Gt => false | _ => true end.

(** ** Ordering *)

Definition is_nan (x : f64) : bool := match x with S754_nan => true | _ => false end.

Lemma f64_leb_total x y : f64_leb x y = false → f64_leb y x = true.
Proof.
  unfold f64_leb, f64_partial_cmp.
  destruct x as [[]|[]| |[] m1 e1], y as [[]|[]| |[] m2 e2]; simpl; try done.
  - rewrite (Z.compare_antisym e2 e1), !Pos.compare_cont_spec. destruct (e2 ?= e1); simpl; try done.
    rewrite (Pos.compare_antisym m2 m1). by destruct (m2 ?= m1)%positive.
  - rewrite (Z.compare_antisym e2 e1), !Pos.compare_cont_spec. destruct (e2 ?= e1); simpl; try done.
    rewrite (Pos.compare_antisym m2 m1). by destruct (m2 ?= m1)%positive.
Qed.

Lemma f64_leb_trans x y z :
  is_nan y = false → f64_leb x y = true → f64_leb y z = true → f64_leb x z = true.
Proof.
  unfold f64_leb, f64_partial_cmp.
  destruct x as [[]|[]| |[] m1 e1], y as [[]|[]| |[] m2 e2], z as [[]|[]| |[] m3 e3]; simpl; try done;
    rewrite !Pos.compare_cont_spec;
    repeat match goal with |- context [(?a ?= ?b)%Z] => destruct (Z.compare_spec a b)
                         | |- context [(?a ?= ?b)%positive] => destruct (Pos.compare_spec a b) end;
    simpl; try done; lia.
Qed.

(** ** Shifting a mantissa *)

Lemma shr_1_value x : 0 ≤ shr_m x → shr_m (shr_1 x) = shr_m x / 2.
Proof.
  destruct x as [[|[p|p|]|p] r s]; simpl; intros H; try done.
  - rewrite Pos2Z.inj_xI, Z.mul_comm, Z.div_add_l by lia. change (1 / 2) with 0. lia.
  - rewrite Pos2Z.inj_xO, Z.mul_comm, Z.div_mul by lia. done.
Qed.

Lemma iter_shr_value p x : 0 ≤ shr_m x → shr_m (SpecFloat.iter_pos shr_1 p x) = shr_m x / 2 ^ Zpos p.
Proof.
  revert x; induction p as [p IH|p IH|]; intros x Hx; cbn [SpecFloat.iter_pos].
  - assert (0 ≤ shr_m (shr_1 x)) by (rewrite shr_1_value by done; by apply Z.div_pos).
    rewrite !IH by (rewrite ?IH by done; try apply Z.div_pos; lia).
    rewrite shr_1_value, !Z.div_div by lia. f_equal.
    replace (Zpos p~1) with (1 + Zpos p + Zpos p) by lia. rewrite !Z.pow_add_r by lia. lia.
  - rewrite !IH by (rewrite ?IH by done; try apply Z.div_pos; lia).
    rewrite Z.div_div by lia. f_equal.
    replace (Zpos p~0) with (Zpos p + Zpos p) by lia. by rewrite Z.pow_add_r by lia.
  - by rewrite shr_1_value.
Qed.

Lemma digits2_bounds p : 2 ^ (Zpos (digits2_pos p) - 1) ≤ Zpos p < 2 ^ Zpos (digits2_pos p).
Proof.
  induction p as [p IH|p IH|]; simpl digits2_pos; [| |done];
    rewrite Pos2Z.inj_succ, ?(Pos2Z.inj_xI p), ?(Pos2Z.inj_xO p);
    set (d := Zpos (digits2_pos p)) in *; assert (0 < d) by lia;
    replace (Z.succ d - 1) with (Z.succ (d - 1)) by lia; rewrite !Z.pow_succ_r by lia; lia.
Qed.

(** Rounding to the precision keeps a positive mantissa positive and moves the
    exponent by no more than the surplus digits. *)
Lemma shr_fexp_bounds m e l k :
  0 < m < 2 ^ k → 53 ≤ k → -1074 ≤ e →
  let '(x, e') := shr_fexp 53 1024 m e l in
  0 < shr_m x ≤ m ∧ -1074 ≤ e' ≤ e + (k - 53).
Proof.
  intros [Hm Hmk] Hk He. destruct m as [|p|p]; try lia.
  unfold shr_fexp. assert (∀ q, shr_m (shr_record_of_loc q l) = q) as Hloc by (intros q; by destruct l as [|[]]).
  pose proof (digits2_bounds p) as [Hd1 Hd2]. simpl Zdigits2. set (d := Zpos (digits2_pos p)) in *.
  assert (0 < d) by lia.
  assert (d ≤ k) by (enough (d - 1 < k) by lia; apply (Z.pow_lt_mono_r_iff 2); lia).
  unfold fexp, emin. change (3 - 1024 - 53) with (-1074).
  unfold shr. destruct (Z.max (d + e - 53) (-1074) - e) as [|n|n] eqn:En; rewrite ?Hloc; try lia.
  rewrite iter_shr_value, Hloc by (rewrite Hloc; lia).
  assert (Zpos n ≤ d - 1) by lia.
  assert (2 ^ Zpos n ≤ Zpos p) by (etransitivity; [|exact Hd1]; apply Z.pow_le_mono_r; lia).
  split; [split|lia].
  - apply Z.div_str_pos. lia.
  - apply Z.div_le_upper_bound; [lia|]. nia.
Qed.

(** ** No NaN *)

(** Zero or above, infinity included. *)
Definition nonneg (x : f64) : bool :=
  match x with S754_zero _ | S754_infinity false | S754_finite false _ _ => true | _ => false end.

Lemma nonneg_not_nan x : nonneg x = true → is_nan x = false.
Proof. by destruct x. Qed.

Lemma round_nearest_even_le m l : m ≤ round_nearest_even m l ≤ m + 1.
Proof. destruct l as [|[]]; simpl; try lia. destruct (Z.even m); lia. Qed.

Lemma shr_fexp_nonneg m e l : 0 ≤ m → 0 ≤ shr_m (shr_fexp 53 1024 m e l).1.
Proof.
  intros Hm. unfold shr_fexp, shr. assert (shr_m (shr_record_of_loc m l) = m) as Hloc by (by destruct l as [|[]]).
  destruct (_ - e) as [|n|n]; simpl; rewrite ?Hloc; try done.
  rewrite iter_shr_value, Hloc by (by rewrite Hloc). apply Z.div_pos; lia.
Qed.

Lemma binary_round_aux_nonneg m e l : 0 ≤ m → nonneg (binary_round_aux 53 1024 false m e l) = true.
Proof.
  intros Hm. unfold binary_round_aux. pose proof (shr_fexp_nonneg m e l Hm) as H1.
  destruct (shr_fexp 53 1024 m e l) as [x e']. simpl in H1.
  pose proof (round_nearest_even_le (shr_m x) (loc_of_shr_record x)) as Hr.
  pose proof (shr_fexp_nonneg (round_nearest_even (shr_m x) (loc_of_shr_record x)) e' loc_Exact ltac:(lia)) as H2.
  destruct (shr_fexp 53 1024 (round_nearest_even _ _) e' loc_Exact) as [y e'']. simpl in H2.
  destruct (shr_m y); [done| |lia]. by destruct (e'' <=? 1024 - 53).
Qed.

Lemma binary_normalize_nonneg z e : 0 ≤ z → nonneg (binary_normalize 53 1024 z e false) = true.
Proof.
  intros Hz. destruct z as [|p|p]; [done| |lia]. unfold binary_normalize, binary_round.
  destruct (shl_align _ _ _). apply binary_round_aux_nonneg. lia.
Qed.

Lemma f64_of_nonneg z : 0 ≤ z → nonneg (f64_of z) = true.
Proof. apply binary_normalize_nonneg. Qed.

Lemma f64_add_nonneg x y : nonneg x = true → nonneg y = true → nonneg (f64_add x y) = true.
Proof.
  destruct x as [[]|[]| |[] m1 e1], y as [[]|[]| |[] m2 e2]; try done. intros _ _.
  unfold f64_add, SFadd. apply binary_normalize_nonneg. simpl. lia.
Qed.

Definition finite_pos (x : f64) : bool := match x with S754_finite false _ _ => true | _ => false end.

Lemma f64_div_nonneg x y : nonneg x = true → finite_pos y = true → nonneg (f64_div x y) = true.
Proof.
  destruct x as [[]|[]| |[] m1 e1], y as [[]|[]| |[] m2 e2]; try done. intros _ _.
  unfold f64_div, SFdiv, SFdiv_core_binary. cbn zeta.
  set (s := _ - _ - _). set (m' := match s with Z0 => _ | Zpos _ => _ | Zneg _ => _ end).
  assert (0 ≤ m') by (unfold m'; destruct s; [lia|apply Z.shiftl_nonneg; lia|lia]).
  pose proof (Z_div_mod m' (Zpos m2) ltac:(lia)) as Hdm. fold s. fold m'.
  destruct (Z.div_eucl m' (Zpos m2)) as [q r]. apply binary_round_aux_nonneg. nia.
Qed.

(** A positive counter converts to a positive finite number. *)
Lemma f64_of_finite z : 0 < z ≤ u64_max → finite_pos (f64_of z) = true.
Proof.
  intros [Hz Hmax]. destruct z as [|p|p]; try lia. unfold f64_of, binary_normalize, binary_round.
  pose proof (digits2_bounds p) as [Hd1 Hd2]. set (d := Zpos (digits2_pos p)) in *.
  assert (∃ mz ez, shl_align p 0 (fexp 53 1024 (d + 0)) = (mz, ez) ∧ Zpos mz < 2 ^ 64 ∧ -1074 ≤ ez ≤ 0)
    as (mz & ez & -> & Hmz & Hez).
  { unfold shl_align, fexp, emin. change (3 - 1024 - 53) with (-1074).
    destruct (Z.max (d + 0 - 53) (-1074) - 0) as [|n|n] eqn:En; eexists _, _; (split; [done|]); unfold u64_max in *;
      [lia..|].
    split; [|lia]. assert (Zpos (Pos.iter xO p n) = Zpos p * 2 ^ Zpos n) as ->.
    { clear. induction n as [|n IH] using Pos.peano_ind; [simpl; lia|].
      rewrite Pos.iter_succ, Pos2Z.inj_xO, IH, Pos2Z.inj_succ, Z.pow_succ_r by lia. lia. }
    assert (Zpos p * 2 ^ Zpos n < 2 ^ d * 2 ^ Zpos n) by (apply Z.mul_lt_mono_pos_r; lia).
    rewrite <-Z.pow_add_r in H by lia. etransitivity; [exact H|]. apply Z.pow_lt_mono_r; lia. }
  unfold binary_round_aux.
  pose proof (shr_fexp_bounds (Zpos mz) ez loc_Exact 64 ltac:(lia) ltac:(lia) ltac:(lia)) as H1.
  destruct (shr_fexp 53 1024 (Zpos mz) ez loc_Exact) as [x e'].
  pose proof (round_nearest_even_le (shr_m x) (loc_of_shr_record x)) as Hr.
  pose proof (shr_fexp_bounds (round_nearest_even (shr_m x) (loc_of_shr_record x)) e' loc_Exact 65
    ltac:(lia) ltac:(lia) ltac:(lia)) as H2.
  destruct (shr_fexp 53 1024 (round_nearest_even _ _) e' loc_Exact) as [y e''].
  destruct (shr_m y); [lia| |lia]. destruct (Z.leb_spec e'' (1024 - 53)); [done|lia].
Qed.
