(* ===== verification/Federation.v ===== *)
(** * Federation (src/federation.rs, and its operations in src/router/mod.rs)

    Other routers that tasks can be sent to: the node table with its heartbeats, the
    probe of a node over HTTP, the ranking of the ready nodes, dispatch with failover
    and the polling of a remote task.  The network, [hyper::Uri] and [serde_json] are
    parameters. *)

From Stdlib Require Import Ascii SpecFloat.
From stdpp Require Import base gmap strings numbers sorting list.
From S2P Require Import Prelude RustStr Json ToolError Registry Tasks F64.

Open Scope ida_scope.

(** ** Data *)

Record FederationNodeConfig : Type := {
  n_name : string;
  n_url : string;
  n_weight : Z;
  n_enabled : bool;
  n_capabilities : list string;
  n_tenant_allow : list string;
  n_node_id : option string
}.

Record FederationNodeStatus : Type := {
  fs_name : string;
  fs_url : string;
  fs_enabled : bool;
  fs_source : string;
  fs_last_seen_iso : option string;
  fs_capabilities : list string;
  fs_tenant_allow : list string;
  fs_node_id : option string;
  fs_healthy : bool;
  fs_ready : bool;
  fs_worker_count : option Z;
  fs_max_workers : option Z;
  fs_route_queue_depth : option Z;
  fs_prewarm_queue_depth : option Z;
  fs_load_score : option f64;
  fs_detail : string;
  fs_stale : bool
}.

Record RemoteDispatchResult : Type := { rd_node : string; rd_url : string; rd_response : Value }.

Record RemoteTaskStatus : Type := { rk_node : string; rk_url : string; rk_task_id : string; rk_payload : Value }.

(** [last_seen_at] is an [Instant], in nanoseconds. *)
Record FederationNodeRecord : Type := {
  nr_config : FederationNodeConfig;
  nr_source : string;
  nr_last_seen_at : option Z;
  nr_last_seen_iso : option string
}.

Definition node_record_new (config : FederationNodeConfig) (source : string) : FederationNodeRecord :=
  {| nr_config := config; nr_source := source; nr_last_seen_at := None; nr_last_seen_iso := None |}.

Definition touch (now : Z) (iso : string) (r : FederationNodeRecord) : FederationNodeRecord :=
  {| nr_config := nr_config r; nr_source := nr_source r; nr_last_seen_at := Some now; nr_last_seen_iso := Some iso |}.

(** What is used of [hyper::Uri]. *)
Record Uri : Type := { uri_scheme : option string; uri_host : option string; uri_port : option Z }.

(** The environment: variables, URIs, the network (one exchange of a request text for
    the whole response text, or an error) and JSON. *)
Class NetEnv : Type := {
  net_var : string → option string;
  parse_uri : string → result Uri string;
  exchange : string → Z → Z → string → result string string;
  parse_json : string → result Value string;
  print_json : Value → result string string
}.

(** ** HTTP *)

Definition crlf : string := String "013" (String "010" "").

Fixpoint split_at (sep s : string) : option (string * string) :=
  match strip_prefix sep s with
  | Some rest => Some ("", rest)
  | None =>
      match s with
      | EmptyString => None
      | String c s => match split_at sep s with Some (b, a) => Some (String c b, a) | None => None end
      end
  end.

(** [buf.split("\r\n\r\n").nth(1)] *)
Definition http_body (buf : string) : option string :=
  match split_at (crlf +:+ crlf) buf with
  | Some (_, rest) => Some (match split_at (crlf +:+ crlf) rest with Some (b, _) => b | None => rest end)
  | None => None
  end.

Section federation.
Context `{NetEnv}.

Definition fetch_json (host : string) (port : Z) (path : string) : result Value string :=
  let request := "GET " +:+ path +:+ " HTTP/1.1" +:+ crlf +:+ "Host: " +:+ host +:+ crlf +:+
    "Connection: close" +:+ crlf +:+ "Accept: application/json" +:+ crlf +:+ crlf in
  let? buf := exchange host port 2 request in
  let? body := ok_or (http_body buf) "invalid http response" in
  parse_json body.

Definition post_json (host : string) (port : Z) (path : string) (payload : Value) : result Value string :=
  let? body := print_json payload in
  let request := "POST " +:+ path +:+ " HTTP/1.1" +:+ crlf +:+ "Host: " +:+ host +:+ crlf +:+
    "Connection: close" +:+ crlf +:+ "Content-Type: application/json" +:+ crlf +:+
    "Content-Length: " +:+ fmt_dec (Z.of_nat (String.length body)) +:+ crlf +:+ crlf +:+ body in
  let? buf := exchange host port 5 request in
  let? body := ok_or (http_body buf) "invalid http response" in
  parse_json body.

(** ** Probing *)

Definition heartbeat_ttl : Z :=
  default 30%Z (net_var "IDA_CLI_FEDERATION_HEARTBEAT_TTL_SECS" ≫= parse_u64) * 10 ^ 9.

Definition is_stale (now : Z) (r : FederationNodeRecord) : bool :=
  bool_decide (nr_source r = "heartbeat") &&
  match nr_last_seen_at r with
  | Some seen => (heartbeat_ttl <? Z.max 0 (now - seen))%Z
  | None => true
  end.

(** The status of a node that was not asked. *)
Definition not_asked (r : FederationNodeRecord) (enabled stale : bool) (detail : string) : FederationNodeStatus :=
  let node := nr_config r in
  {| fs_name := n_name node; fs_url := n_url node; fs_enabled := enabled; fs_source := nr_source r;
     fs_last_seen_iso := nr_last_seen_iso r; fs_capabilities := n_capabilities node;
     fs_tenant_allow := n_tenant_allow node; fs_node_id := n_node_id node; fs_healthy := false; fs_ready := false;
     fs_worker_count := None; fs_max_workers := None; fs_route_queue_depth := None; fs_prewarm_queue_depth := None;
     fs_load_score := None; fs_detail := detail; fs_stale := stale |}.

Definition compute_load_score (worker_count max_workers route_depth prewarm_depth : option Z) : option f64 :=
  match worker_count, max_workers with
  | Some current, Some max =>
      if (0 <? max)%Z then
        let worker_score := f64_div (f64_of current) (f64_of max) in
        let route_penalty := f64_div (f64_of (default 0%Z route_depth)) (f64_of 100) in
        let prewarm_penalty := f64_div (f64_of (default 0%Z prewarm_depth)) (f64_of 100) in
        Some (f64_add (f64_add worker_score route_penalty) prewarm_penalty)
      else None
  | _, _ => None
  end.

(** [fetch_json(..).ok().and_then(|v| v.get("ok").and_then(as_bool)).unwrap_or(false)] *)
Definition answers_ok (host : string) (port : Z) (path : string) : bool :=
  default false ((ok (fetch_json host port path) ≫= get "ok") ≫= as_bool).

Definition probe_record (now : Z) (record : FederationNodeRecord) : FederationNodeStatus :=
  let node := nr_config record in
  if negb (n_enabled node) then not_asked record false false "disabled"
  else if is_stale now record then not_asked record true true "heartbeat expired"
  else
    match parse_uri (n_url node) with
    | Err err => not_asked record true false ("invalid url: " +:+ err)
    | Ok uri =>
        if negb (bool_decide (uri_scheme uri = Some "http")) then
          not_asked record true false "only http federation urls are currently supported"
        else
          match uri_host uri with
          | None => not_asked record true false "missing host"
          | Some host =>
              let port := default 80%Z (uri_port uri) in
              let statusz := ok (fetch_json host port "/statusz") in
              let healthy := answers_ok host port "/healthz" in
              let ready := answers_ok host port "/readyz" in
              let worker_count := (statusz ≫= get "worker_count") ≫= as_u64 in
              let max_workers := (statusz ≫= get "max_workers") ≫= as_u64 in
              let depth key := (λ l : list Value, Z.of_nat (length l)) <$> ((statusz ≫= get key) ≫= as_array) in
              let route_queue_depth := depth "route_queue" in
              let prewarm_queue_depth := depth "prewarm_queue" in
              {| fs_name := n_name node; fs_url := n_url node; fs_enabled := true; fs_source := nr_source record;
                 fs_last_seen_iso := nr_last_seen_iso record; fs_capabilities := n_capabilities node;
                 fs_tenant_allow := n_tenant_allow node; fs_node_id := n_node_id node;
                 fs_healthy := healthy; fs_ready := ready;
                 fs_worker_count := worker_count; fs_max_workers := max_workers;
                 fs_route_queue_depth := route_queue_depth; fs_prewarm_queue_depth := prewarm_queue_depth;
                 fs_load_score := compute_load_score worker_count max_workers route_queue_depth prewarm_queue_depth;
                 fs_detail := if healthy || ready then "ok" else "unreachable or unhealthy"; fs_stale := false |}
          end
    end.

Definition probe_nodes (now : Z) (nodes : list FederationNodeRecord) : list FederationNodeStatus :=
  probe_record now <$> nodes.

(** ** Choosing nodes *)

Definition supports_request (node : FederationNodeConfig) (method tenant : option string) : bool :=
  let tenant := default "default" tenant in
  let tenant_ok := bool_decide (n_tenant_allow node = []) || bool_decide (tenant ∈ n_tenant_allow node) in
  let method_ok :=
    match method with
    | None => true
    | Some method =>
        bool_decide (n_capabilities node = []) ||
        existsb (λ cap, bool_decide (cap = "*") || bool_decide (cap = method)) (n_capabilities node)
    end in
  tenant_ok && method_ok.

Definition node_rank (node : FederationNodeConfig) (status : FederationNodeStatus) : f64 :=
  let load := default (f64_of 10) (fs_load_score status) in
  let weight_bonus := f64_recip (f64_of (Z.max (n_weight node) 1)) in
  f64_add load weight_bonus.

Definition rank_leb (x y : FederationNodeConfig * FederationNodeStatus) : bool :=
  f64_leb (node_rank x.1 x.2) (node_rank y.1 y.2).

(** The ready nodes that may take the request, with their statuses. *)
Definition ready_nodes (now : Z) (nodes : list FederationNodeRecord) (method tenant : option string) :
    list (FederationNodeConfig * FederationNodeStatus) :=
  omap (λ node, let status := probe_record now node in
                if fs_ready status then Some (nr_config node, status) else None)
    (filter (λ node, supports_request (nr_config node) method tenant = true)
       (filter (λ node, n_enabled (nr_config node) = true) nodes)).

Definition choose_ready_nodes (now : Z) (nodes : list FederationNodeRecord) (method tenant : option string) :
    list FederationNodeConfig :=
  (sort_by rank_leb (ready_nodes now nodes method tenant)).*1.

Definition choose_ready_node (now : Z) (nodes : list FederationNodeRecord) (method tenant : option string) :
    option FederationNodeConfig :=
  head (choose_ready_nodes now nodes method tenant).

(** ** Remote calls *)

(** The URI's host and port. *)
Definition node_endpoint (node : FederationNodeConfig) : result (string * Z) string :=
  let? uri := parse_uri (n_url node) in
  let? host := ok_or (uri_host uri) "missing host in node url" in
  Ok (host, default 80%Z (uri_port uri)).

Definition submit_enqueue (node : FederationNodeConfig) (payload : Value) : result RemoteDispatchResult string :=
  let? (host, port) := node_endpoint node in
  let? response := post_json host port "/enqueuez" payload in
  Ok {| rd_node := n_name node; rd_url := n_url node; rd_response := response |}.

Definition fetch_remote_task (node : FederationNodeConfig) (task_id : string) : result RemoteTaskStatus string :=
  let? (host, port) := node_endpoint node in
  let? payload := fetch_json host port ("/taskz/" +:+ task_id) in
  Ok {| rk_node := n_name node; rk_url := n_url node; rk_task_id := task_id; rk_payload := payload |}.
End federation.

(** ** The node table of the router *)

Definition node_json (n : FederationNodeConfig) : Value :=
  obj [("name", VString (n_name n)); ("url", VString (n_url n)); ("weight", vz (n_weight n));
       ("enabled", Bool (n_enabled n)); ("capabilities", Array (VString <$> n_capabilities n));
       ("tenant_allow", Array (VString <$> n_tenant_allow n)); ("node_id", opt_value (VString <$> n_node_id n))].

(** [load_node_map_from_env], from the nodes of the configuration file. *)
Definition load_node_map (nodes : list FederationNodeConfig) : gmap string FederationNodeRecord :=
  foldl (λ m node, <[n_name node := node_record_new node "static"]> m) ∅ nodes.

Definition federation_nodes_snapshot `{HashOrder} (t : gmap string FederationNodeRecord) :
    list FederationNodeRecord :=
  (hash_iter t).*2.

Definition register_federation_node (node : FederationNodeConfig) (t : gmap string FederationNodeRecord) :
    gmap string FederationNodeRecord * Value :=
  (<[n_name node := node_record_new node "dynamic"]> t,
   obj [("ok", Bool true); ("replaced", Bool (bool_decide (is_Some (t !! n_name node)))); ("node", node_json node)]).

Definition heartbeat_federation_node (now : Z) (iso : string) (node : FederationNodeConfig)
    (t : gmap string FederationNodeRecord) :
    gmap string FederationNodeRecord * Value :=
  let record := default (node_record_new node "heartbeat") (t !! n_name node) in
  let record := touch now iso {| nr_config := node; nr_source := "heartbeat";
                                 nr_last_seen_at := nr_last_seen_at record; nr_last_seen_iso := nr_last_seen_iso record |} in
  (<[n_name node := record]> t, obj [("ok", Bool true); ("node", node_json node)]).

Definition unregister_federation_node (name : string) (t : gmap string FederationNodeRecord) :
    gmap string FederationNodeRecord * Value :=
  (delete name t, obj [("ok", Bool (bool_decide (is_Some (t !! name)))); ("name", VString name)]).

(** * Which nodes federation chooses, and when a node expires *)

From Stdlib Require Import Ascii SpecFloat.
From stdpp Require Import base gmap strings numbers sorting list.
From S2P Require Import Prelude RustStr Json ToolError Registry Tasks F64.

(** What [serde_json] promises about the integers of the values it parses. *)
Definition json_in_range `{NetEnv} : Prop := ∀ s v, parse_json s = Ok v → value_wf v = true.

(** A [u32]. *)
Definition weight_wf (n : FederationNodeConfig) : Prop := (0 ≤ n_weight n < 2 ^ 32)%Z.

Section choose.
Context `{NetEnv}.

(** ** Load scores and ranks are numbers *)

Lemma get_u64_wf v k z : value_wf v = true → get k v ≫= as_u64 = Some z → (0 ≤ z ≤ u64_max)%Z.
Proof.
  destruct v as [| | | | |m]; simpl; try done. intros Hwf Hg.
  destruct (obj_get k m) as [w|] eqn:E; simpl in Hg; [|done].
  assert (value_wf w = true) as Hw.
  { rewrite forallb_forall in Hwf. clear Hg. induction m as [|[k' w'] m IH]; simpl in *; [done|].
    case_bool_decide; simplify_eq; [by apply (Hwf (k', w)); left|]. apply IH; [intros; apply Hwf; by right|done]. }
  destruct w as [| |[]| | |]; simplify_eq/=. apply andb_true_iff in Hw. lia.
Qed.

Lemma fetch_json_wf host port path v :
  json_in_range → fetch_json host port path = Ok v → value_wf v = true.
Proof.
  intros Hj. unfold fetch_json, result_bind. repeat case_match; try done. apply Hj.
Qed.

Lemma compute_load_score_nonneg wc mw rd pd s :
  (∀ z, wc = Some z → 0 ≤ z)%Z → (∀ z, mw = Some z → z ≤ u64_max)%Z →
  (∀ z, rd = Some z → 0 ≤ z)%Z → (∀ z, pd = Some z → 0 ≤ z)%Z →
  compute_load_score wc mw rd pd = Some s → nonneg s = true.
Proof.
  intros Hwc Hmw Hrd Hpd. unfold compute_load_score.
  destruct wc as [c|], mw as [m|]; try done. destruct (Z.ltb_spec 0 m); [|done]. intros [= <-].
  assert (0 ≤ default 0 rd)%Z by (destruct rd; simpl; [by apply Hrd|done]).
  assert (0 ≤ default 0 pd)%Z by (destruct pd; simpl; [by apply Hpd|done]).
  assert (finite_pos (f64_of 100) = true) by done.
  assert (finite_pos (f64_of m) = true) by (apply f64_of_finite; split; [done|by apply Hmw]).
  repeat first [apply f64_add_nonneg|apply f64_div_nonneg|apply f64_of_nonneg]; auto.
Qed.

Lemma probe_load_nonneg now r s :
  json_in_range → fs_load_score (probe_record now r) = Some s → nonneg s = true.
Proof.
  intros Hj. unfold probe_record. cbn zeta.
  destruct (negb (n_enabled (nr_config r))); [done|]. destruct (is_stale now r); [done|].
  destruct (parse_uri _) as [uri|]; [|done]. destruct (negb _); [done|]. destruct (uri_host uri) as [host|]; [|done].
  cbn [fs_load_score]. apply compute_load_score_nonneg.
  - intros z Hz. destruct (fetch_json host _ "/statusz") as [v|] eqn:Ef; [|done]. simpl in Hz.
    apply (get_u64_wf v "worker_count" z); [by eapply fetch_json_wf|done].
  - intros z Hz. destruct (fetch_json host _ "/statusz") as [v|] eqn:Ef; [|done]. simpl in Hz.
    apply (get_u64_wf v "max_workers" z); [by eapply fetch_json_wf|done].
  - intros z (l & _ & ->)%fmap_Some. lia.
  - intros z (l & _ & ->)%fmap_Some. lia.
Qed.

Lemma node_rank_not_nan now r :
  json_in_range → weight_wf (nr_config r) → is_nan (node_rank (nr_config r) (probe_record now r)) = false.
Proof.
  intros Hj Hw. apply nonneg_not_nan. unfold node_rank. apply f64_add_nonneg.
  - destruct (fs_load_score (probe_record now r)) as [s|] eqn:E; simpl; [by eapply probe_load_nonneg|done].
  - apply f64_div_nonneg; [done|]. apply f64_of_finite. unfold weight_wf, u64_max in *. lia.
Qed.

(** ** What makes a node ready *)

(** A node that is asked, and answers that it is ready. *)
Definition really_ready (now : Z) (r : FederationNodeRecord) : Prop :=
  n_enabled (nr_config r) = true ∧ is_stale now r = false ∧
  ∃ uri host, parse_uri (n_url (nr_config r)) = Ok uri ∧ uri_scheme uri = Some "http" ∧ uri_host uri = Some host ∧
    answers_ok host (default 80%Z (uri_port uri)) "/readyz" = true.

Lemma probe_ready now r : fs_ready (probe_record now r) = true ↔ really_ready now r.
Proof.
  unfold probe_record, really_ready. cbn zeta. destruct (n_enabled (nr_config r)); simpl; [|naive_solver].
  destruct (is_stale now r); [naive_solver|].
  destruct (parse_uri (n_url (nr_config r))) as [uri|err]; [|naive_solver].
  case_bool_decide as Hs; simpl; [|naive_solver]. destruct (uri_host uri) as [host|] eqn:Eh; simpl; [|naive_solver].
  split; [intros; eauto 10|]. intros (_ & _ & uri' & host' & [= <-] & _ & Hh & ?). by simplify_eq.
Qed.

Lemma elem_of_ready_nodes now nodes method tenant n st :
  (n, st) ∈ ready_nodes now nodes method tenant ↔
  ∃ r, r ∈ nodes ∧ n = nr_config r ∧ st = probe_record now r ∧
    supports_request n method tenant = true ∧ really_ready now r.
Proof.
  unfold ready_nodes. rewrite list_elem_of_omap. split.
  - intros (r & Hr & Hst). apply list_elem_of_filter in Hr as [Hs [_ Hr]%list_elem_of_filter].
    cbn zeta in Hst. destruct (fs_ready (probe_record now r)) eqn:E; simplify_eq.
    exists r. by rewrite <-probe_ready.
  - intros (r & Hr & -> & -> & Hs & Hrd). exists r. cbn zeta. split; [|by rewrite (proj2 (probe_ready now r) Hrd)].
    rewrite !list_elem_of_filter. destruct Hrd. done.
Qed.

Lemma sort_ranked now nodes method tenant :
  json_in_range → (∀ r, r ∈ nodes → weight_wf (nr_config r)) →
  StronglySorted rank_leb (sort_by rank_leb (ready_nodes now nodes method tenant)).
Proof.
  intros Hj Hw. set (l := ready_nodes now nodes method tenant).
  assert (∀ x, x ∈ sort_by rank_leb l → is_nan (node_rank x.1 x.2) = false) as Hnan.
  { intros [n st]. rewrite sort_by_elem. intros (r & Hr & -> & -> & _ & _)%elem_of_ready_nodes.
    apply node_rank_not_nan; auto. }
  assert (Sorted rank_leb (sort_by rank_leb l)) as Hsorted
    by (apply sort_by_sorted; intros x y; apply f64_leb_total).
  revert Hnan Hsorted. generalize (sort_by rank_leb l). clear. intros l Hnan.
  induction 1 as [|x l Hs IH Hd]; [constructor|].
  assert (StronglySorted rank_leb l) as Hss by (apply IH; set_solver). constructor; [done|].
  destruct Hd as [|y l Hxy]; [constructor|]. inversion Hss as [|?? _ Hy]; subst. constructor; [done|].
  eapply Forall_impl; [exact Hy|]. intros z Hz. apply Is_true_true in Hxy, Hz. apply Is_true_true.
  eapply f64_leb_trans; [|exact Hxy|exact Hz]. apply Hnan. set_solver.
Qed.

(** C32: the nodes a request may be sent to are exactly the enabled nodes that allow its
    tenant and its method, whose heartbeat has not expired, whose URL is a plain http
    one and that answer ready, in the order of their rank; ranks are never NaN, so
    the order is total and the first node is a best one. *)
Theorem choose_ready_nodes_ranked now nodes method tenant :
  json_in_range → (∀ r, r ∈ nodes → weight_wf (nr_config r)) →
  ∃ ranked, choose_ready_nodes now nodes method tenant = ranked.*1 ∧
    ranked ≡ₚ ready_nodes now nodes method tenant ∧ StronglySorted rank_leb ranked ∧
    (∀ n st, (n, st) ∈ ranked ↔
       ∃ r, r ∈ nodes ∧ n = nr_config r ∧ st = probe_record now r ∧
         supports_request n method tenant = true ∧ really_ready now r) ∧
    (∀ n st, (n, st) ∈ ranked → is_nan (node_rank n st) = false) ∧
    (choose_ready_node now nodes method tenant = None ↔ ranked = []).
Proof.
  intros Hj Hw. eexists. split; [reflexivity|].
  assert (∀ n st, (n, st) ∈ sort_by rank_leb (ready_nodes now nodes method tenant) ↔
       ∃ r, r ∈ nodes ∧ n = nr_config r ∧ st = probe_record now r ∧
         supports_request n method tenant = true ∧ really_ready now r) as Hin
    by (intros n st; rewrite sort_by_elem; apply elem_of_ready_nodes).
  split_and!; [apply sort_by_perm|by apply sort_ranked|done| |].
  - intros n st (r & Hr & -> & -> & _ & _)%Hin. apply node_rank_not_nan; auto.
  - unfold choose_ready_node, choose_ready_nodes. by destruct (sort_by _ _).
Qed.

(** ** Heartbeats *)

(** After a heartbeat the node is in the table with the new configuration and counts
    as alive for exactly the time to live: its probe reports an expired heartbeat
    once more time than that has passed, whatever kind of node it was before. *)
Theorem heartbeat_lifetime now iso node t later :
  n_enabled node = true → (now ≤ later)%Z →
  let t' := (heartbeat_federation_node now iso node t).1 in
  ∃ r, t' !! n_name node = Some r ∧ nr_config r = node ∧
    (∀ name, name ≠ n_name node → t' !! name = t !! name) ∧
    fs_stale (probe_record later r) = bool_decide (heartbeat_ttl < later - now)%Z.
Proof.
  intros He Hle. cbn zeta. unfold heartbeat_federation_node. cbn [fst].
  eexists. rewrite lookup_insert_eq. split_and!; [done|done| |].
  - intros name Hn. by rewrite lookup_insert_ne.
  - unfold probe_record, is_stale, touch. simpl. rewrite He. simpl. rewrite Z.max_r by lia.
    destruct (Z.ltb_spec heartbeat_ttl (later - now)); [by rewrite bool_decide_true|].
    rewrite bool_decide_false by lia. by repeat case_match.
Qed.
End choose.

(** ** Two nodes *)

(** A network in which every node is up, with two busy workers out of four, one of
    four on host [b], and no node takes tasks. *)
Definition sample_net : NetEnv :=
  {| net_var := λ _, None;
     parse_uri := λ url, Ok {| uri_scheme := Some "http"; uri_host := Some url; uri_port := None |};
     exchange := λ host _ _ request,
       if starts_with "POST" request then Err "connection refused"
       else Ok ("HTTP/1.1 200 OK" +:+ crlf +:+ crlf +:+ host);
     parse_json := λ body,
       Ok (obj [("ok", Bool true); ("worker_count", vz (if bool_decide (body = "b") then 1 else 2));
                ("max_workers", vz 4)]);
     print_json := λ _, Ok "" |}.

Definition sample_node (name : string) : FederationNodeConfig :=
  {| n_name := name; n_url := name; n_weight := 1; n_enabled := true; n_capabilities := []; n_tenant_allow := [];
     n_node_id := None |}.

Definition sample_nodes : list FederationNodeRecord :=
  [node_record_new (sample_node "a") "static"; node_record_new (sample_node "b") "static"].

Lemma sample_net_in_range : @json_in_range sample_net.
Proof. intros s v [= <-]. simpl. by destruct (bool_decide (s = "b")). Qed.

Lemma choose_ready_nodes_ranked_witness :
  let e := sample_net in
  (∃ ranked, choose_ready_nodes 0 sample_nodes (Some "decompile") None = ranked.*1 ∧ StronglySorted rank_leb ranked) ∧
  n_name <$> choose_ready_nodes 0 sample_nodes (Some "decompile") None = ["b"; "a"].
Proof.
  cbn zeta. split; [|vm_compute; reflexivity].
  destruct (@choose_ready_nodes_ranked sample_net 0 sample_nodes (Some "decompile") None sample_net_in_range)
    as (ranked & Hr & _ & Hs & _).
  - intros r Hr. unfold sample_nodes in Hr. rewrite !elem_of_cons in Hr.
    destruct Hr as [->|[->|[]%elem_of_nil]]; unfold weight_wf; simpl; lia.
  - exists ranked. split; [exact Hr|exact Hs].
Defined.

Lemma heartbeat_lifetime_witness :
  let e := sample_net in
  let t := (heartbeat_federation_node 5 "now" (sample_node "a") ∅).1 in
  ∃ r, t !! "a" = Some r ∧ fs_stale (probe_record (40 * 10 ^ 9)%Z r) = true.
Proof.
  cbn zeta.
  destruct (@heartbeat_lifetime sample_net 5 "now" (sample_node "a") ∅ (40 * 10 ^ 9)%Z) as (r & Hr & _ & _ & Hs).
  - reflexivity.
  - lia.
  - exists r. split; [exact Hr|]. rewrite Hs. reflexivity.
Defined.
