(* ===== verification/FederatedTasks.v ===== *)
(** * Federated tasks (RouterState::enqueue_federated_task of src/router/mod.rs)

    Sending a task to the best ready node, with failover to the next one, and the
    polling loop that mirrors the remote task in the local registry. *)

From Stdlib Require Import Ascii SpecFloat.
From stdpp Require Import base gmap strings numbers sorting fin_maps list.
From S2P Require Import Prelude RustStr Json ToolError Registry Tasks F64 Federation.

Open Scope ida_scope.

(** What the polling task keeps. *)
Record PollJob : Type := {
  pj_task : string; pj_node : FederationNodeConfig; pj_url : string; pj_remote : string
}.

Section federated.
Context `{HashOrder} `{NetEnv}.

Definition federated_payload (path method : string) (priority : Z) (tenant : string) (key : option string)
    (params : Value) : Value :=
  obj [("path", VString path); ("method", VString method); ("priority", vz priority);
       ("tenant_id", VString tenant); ("dedupe_key", opt_value (VString <$> key)); ("task_params", params);
       ("federate", Bool false)].

(** The loop over the candidates: the first that answers with a task id is chosen. *)
Fixpoint dispatch (payload : Value) (candidates : list FederationNodeConfig) (last_error : option string) :
    result (FederationNodeConfig * string * string) (option string) :=
  match candidates with
  | [] => Err last_error
  | node :: rest =>
      match submit_enqueue node payload with
      | Ok remote =>
          match get "task_id" (rd_response remote) ≫= as_str with
          | Some task => Ok (node, task, rd_url remote)
          | None => dispatch payload rest (Some ("remote node " +:+ n_name node +:+ " did not return task_id"))
          end
      | Err err => dispatch payload rest (Some (n_name node +:+ ": " +:+ err))
      end
  end.

(** [clock] is the instant of the probes, [now] the registry's time stamp and [h] the
    join handle of the polling task. *)
Definition enqueue_federated_task (clock : Z) (now : stamp) (h : N) (nodes : list FederationNodeRecord)
    (path method : string) (params : Value) (tenant : option string) (priority : Z) (dedupe_key : option string)
    (reg : TaskRegistry) : TaskRegistry * result Value ToolError * option PollJob :=
  let tenant_id := normalize_tenant tenant in
  let candidates := choose_ready_nodes clock nodes (Some method) (Some tenant_id) in
  if bool_decide (candidates = []) then (reg, Err (IdaError "no ready federation node available"), None)
  else
    let '(reg, created) :=
      create_with_key "federated" dedupe_key ("Dispatching " +:+ method +:+ " to federation") now reg in
    let task_id := match created with Ok id => id | Err existing => existing end in
    let reg := merge_meta task_id (obj [("tenant_id", VString tenant_id); ("path", VString path);
                                        ("method", VString method); ("priority", vz priority);
                                        ("remote", Bool true)]) now reg in
    match dispatch (federated_payload path method priority tenant_id dedupe_key params) candidates None with
    | Err last_error =>
        (reg, Err (IdaError ("federation enqueue failed across all candidate nodes: " +:+
                             default "unknown error" last_error)), None)
    | Ok (node, remote_task_id, remote_url) =>
        let '(reg, job) :=
          match task_get task_id reg with
          | Some state =>
              if bool_decide (t_status state = Running) then
                let reg := update_message task_id
                  ("Queued remotely on " +:+ n_name node +:+ " as " +:+ remote_task_id) now reg in
                let reg := merge_meta task_id (obj [("node", VString (n_name node)); ("url", VString remote_url);
                                                    ("remote_task_id", VString remote_task_id)]) now reg in
                (set_handle task_id h reg,
                 Some {| pj_task := task_id; pj_node := node; pj_url := remote_url; pj_remote := remote_task_id |})
              else (reg, None)
          | None => (reg, None)
          end in
        (reg, Ok (obj [("task_id", VString task_id); ("status", VString "queued"); ("path", VString path);
                       ("method", VString method); ("tenant_id", VString tenant_id); ("priority", vz priority);
                       ("remote", Bool true); ("node", VString (n_name node)); ("url", VString (n_url node))]), job)
    end.

(** ** Polling *)

(** One turn of the polling loop, on what [fetch_remote_task] returned; whether the
    loop goes on. *)
Definition poll_once (job : PollJob) (fetched : result RemoteTaskStatus string) (now : stamp) (reg : TaskRegistry) :
    TaskRegistry * bool :=
  match fetched with
  | Ok remote =>
      let payload := rk_payload remote in
      let name := n_name (pj_node job) in
      let status := default "unknown" (get "status" payload ≫= as_str) in
      let message := default status (get "message" payload ≫= as_str) in
      let reg := update_message (pj_task job) ("remote " +:+ name +:+ ": " +:+ message) now reg in
      if bool_decide (status = "completed") then
        (complete (pj_task job)
           (obj [("remote", Bool true); ("node", VString name); ("url", VString (pj_url job));
                 ("remote_task_id", VString (pj_remote job)); ("payload", payload)]) now reg, false)
      else if bool_decide (status = "failed") then
        (fail_task (pj_task job) ("remote " +:+ name +:+ " failed: " +:+ message) now reg, false)
      else if bool_decide (status = "cancelled") then
        (fail_task (pj_task job) ("remote " +:+ name +:+ " cancelled") now reg, false)
      else (reg, true)
  | Err err => (update_message (pj_task job) ("remote poll error: " +:+ err) now reg, true)
  end.

(** The loop, on the answers of successive ticks; whether it is still polling. *)
Fixpoint poll_loop (job : PollJob) (ticks : list (result RemoteTaskStatus string * stamp)) (reg : TaskRegistry) :
    TaskRegistry * bool :=
  match ticks with
  | [] => (reg, true)
  | (fetched, now) :: rest =>
      let '(reg, continue) := poll_once job fetched now reg in
      if continue then poll_loop job rest reg else (reg, false)
  end.

(** ** Dispatch *)

(** The remote task id a node accepts a payload with. *)
Definition accepted (payload : Value) (node : FederationNodeConfig) : option string :=
  match submit_enqueue node payload with
  | Ok remote => get "task_id" (rd_response remote) ≫= as_str
  | Err _ => None
  end.

Lemma dispatch_spec payload candidates err :
  match dispatch payload candidates err with
  | Ok (node, task, url) =>
      ∃ pre post, candidates = pre ++ node :: post ∧ (∀ x, x ∈ pre → accepted payload x = None) ∧
        accepted payload node = Some task
  | Err _ => ∀ x, x ∈ candidates → accepted payload x = None
  end.
Proof.
  revert err; induction candidates as [|n rest IH]; intros err; simpl; [set_solver|].
  unfold accepted. destruct (submit_enqueue n payload) as [remote|e] eqn:Es;
    [destruct (get "task_id" (rd_response remote) ≫= as_str) as [task|] eqn:Et|].
  - exists [], rest. rewrite Es. set_solver.
  - set (err' := Some _). specialize (IH err'). destruct (dispatch payload rest err') as [[[node task] url]|].
    + destruct IH as (pre & post & -> & Hpre & Hacc). exists (n :: pre), post. split_and!; [done| |done].
      intros x [->|Hx]%elem_of_cons; [by rewrite Es|by apply Hpre].
    + intros x [->|Hx]%elem_of_cons; [by rewrite Es|by apply IH].
  - set (err' := Some _). specialize (IH err'). destruct (dispatch payload rest err') as [[[node task] url]|].
    + destruct IH as (pre & post & -> & Hpre & Hacc). exists (n :: pre), post. split_and!; [done| |done].
      intros x [->|Hx]%elem_of_cons; [by rewrite Es|by apply Hpre].
    + intros x [->|Hx]%elem_of_cons; [by rewrite Es|by apply IH].
Qed.

(** C33: a federated task goes to the first node, in the order of rank, that answers with
    a task id; nodes before it refused or could not be reached.  The caller sees an
    error exactly when no node is ready or every one of them refused. *)
Theorem federated_failover clock now h nodes path method params tenant priority key reg :
  let tenant_id := normalize_tenant tenant in
  let candidates := choose_ready_nodes clock nodes (Some method) (Some tenant_id) in
  let payload := federated_payload path method priority tenant_id key params in
  let '(_, answer, job) := enqueue_federated_task clock now h nodes path method params tenant priority key reg in
  match answer with
  | Err _ => job = None ∧ ∀ n, n ∈ candidates → accepted payload n = None
  | Ok v =>
      ∃ pre node post task, candidates = pre ++ node :: post ∧ (∀ n, n ∈ pre → accepted payload n = None) ∧
        accepted payload node = Some task ∧ get "node" v = Some (VString (n_name node)) ∧
        (∀ j, job = Some j → pj_node j = node ∧ pj_remote j = task ∧ get "task_id" v = Some (VString (pj_task j)))
  end.
Proof.
  cbn zeta. unfold enqueue_federated_task. cbn zeta.
  set (candidates := choose_ready_nodes _ _ _ _). case_bool_decide as Hc.
  { rewrite Hc. split; [done|set_solver]. }
  destruct (create_with_key _ _ _ _ _) as [reg' created].
  set (payload := federated_payload _ _ _ _ _ _).
  pose proof (dispatch_spec payload candidates None) as Hd.
  destruct (dispatch payload candidates None) as [[[node task] url]|err]; [|done].
  destruct Hd as (pre & post & Hcand & Hpre & Hacc).
  set (tid := match created with Ok id => id | Err existing => existing end). set (reg2 := merge_meta _ _ _ reg').
  destruct (task_get tid reg2) as [state|]; [destruct (bool_decide _)|];
    exists pre, node, post, task; (split_and!; [done..|]); by intros j [= <-].
Qed.

(** ** A failed dispatch *)

Lemma with_entry_lookup f id r e : entries r !! id = Some e → entries (with_entry f id r) !! id = Some (f e).
Proof. intros He. simpl. by rewrite lookup_alter_eq, He. Qed.

Lemma create_lookup prefix msg now reg :
  let id := next_task_id prefix (id_counter reg) in
  ∃ e, (create_with_key prefix None msg now reg).2 = Ok id ∧
    entries (create_with_key prefix None msg now reg).1 !! id = Some e ∧
    t_status (te_state e) = Running ∧ te_handle e = None.
Proof.
  eexists. split; [reflexivity|]. split; [|split].
  - simpl. apply prune_running; [apply lookup_insert_eq|done].
  - done.
  - done.
Qed.

(** When every candidate refuses, the caller gets an error, but the task that was
    created for the dispatch stays in the registry as running, with nothing left
    that would ever finish it. *)
Theorem failed_dispatch_keeps_task_running clock now h nodes path method params tenant priority reg :
  let tenant_id := normalize_tenant tenant in
  let candidates := choose_ready_nodes clock nodes (Some method) (Some tenant_id) in
  candidates ≠ [] →
  (∀ n, n ∈ candidates → accepted (federated_payload path method priority tenant_id None params) n = None) →
  let '(reg', answer, job) := enqueue_federated_task clock now h nodes path method params tenant priority None reg in
  is_ok answer = false ∧ job = None ∧
  ∃ e, entries reg' !! next_task_id "federated" (id_counter reg) = Some e ∧
    t_status (te_state e) = Running ∧ te_handle e = None.
Proof.
  cbn zeta. unfold enqueue_federated_task. cbn zeta.
  set (candidates := choose_ready_nodes _ _ _ _). intros Hne Hall. rewrite bool_decide_false by done.
  destruct (create_lookup "federated" ("Dispatching " +:+ method +:+ " to federation") now reg)
    as (e & Hid & He & Hr & Hh).
  destruct (create_with_key _ _ _ _ _) as [reg' created]. simpl in Hid, He. subst created.
  set (payload := federated_payload _ _ _ _ _ _) in *.
  pose proof (dispatch_spec payload candidates None) as Hd.
  destruct (dispatch payload candidates None) as [[[node task] url]|err].
  { destruct Hd as (pre & post & Hc & _ & Hacc). rewrite Hall in Hacc; [done|]. rewrite Hc. set_solver. }
  split_and!; [done|done|]. eexists. split; [|split].
  - unfold merge_meta. by apply with_entry_lookup.
  - done.
  - done.
Qed.

(** ** Polling *)

Definition remote_status (fetched : result RemoteTaskStatus string) : option string :=
  remote ← ok fetched; get "status" (rk_payload remote) ≫= as_str.

(** The local status that a remote one leads to. *)
Definition mirrored (fetched : result RemoteTaskStatus string) : option TaskStatus :=
  match remote_status fetched with
  | Some st =>
      if bool_decide (st = "completed") then Some Completed
      else if bool_decide (st = "failed" ∨ st = "cancelled") then Some Failed else None
  | None => None
  end.

Lemma ended_status f id r e st :
  (∀ e, t_status (te_state (f e)) = st) → entries (pruned (with_entry f id r)) !! id = Some e →
  t_status (te_state e) = st.
Proof.
  intros Hf He. apply (lookup_weaken _ (entries (with_entry f id r))) in He; [|apply prune_subseteq].
  simpl in He. apply lookup_alter_Some in He as [(_ & e0 & _ & ->)|[? _]]; [apply Hf|done].
Qed.

Lemma poll_once_spec job fetched now reg e :
  entries reg !! pj_task job = Some e →
  let '(reg', continue) := poll_once job fetched now reg in
  match mirrored fetched with
  | Some st => continue = false ∧
      ∀ e', entries reg' !! pj_task job = Some e' → t_status (te_state e') = st
  | None => continue = true ∧
      ∃ e', entries reg' !! pj_task job = Some e' ∧ t_status (te_state e') = t_status (te_state e)
  end.
Proof.
  intros He. unfold poll_once, mirrored, remote_status. destruct fetched as [remote|err]; simpl.
  - destruct (get "status" (rk_payload remote) ≫= as_str) as [st|]; simpl.
    + destruct (bool_decide (st = "completed")) eqn:E1; [split; [done|]; intros e'; by apply ended_status|].
      destruct (bool_decide (st = "failed")) eqn:E2.
      { rewrite bool_decide_true by (left; by apply bool_decide_eq_true in E2).
        split; [done|]. intros e'. by apply ended_status. }
      destruct (bool_decide (st = "cancelled")) eqn:E3.
      { rewrite bool_decide_true by (right; by apply bool_decide_eq_true in E3).
        split; [done|]. intros e'. by apply ended_status. }
      apply bool_decide_eq_false in E2, E3. rewrite bool_decide_false by tauto.
      split; [done|]. eexists. split; [by apply with_entry_lookup|done].
    + split; [done|]. eexists. split; [by apply with_entry_lookup|done].
  - split; [done|]. eexists. split; [by apply with_entry_lookup|done].
Qed.

(** The polling loop mirrors the remote task: it goes on, without changing the local
    status, as long as the answers are errors or report no final state, and the
    first final answer ends it with the local task completed, or failed for a
    remote failure or cancellation.  Errors alone never end it. *)
Theorem poll_mirrors_remote job ticks reg e :
  entries reg !! pj_task job = Some e → t_status (te_state e) = Running →
  let '(reg', continue) := poll_loop job ticks reg in
  match omap mirrored ticks.*1 with
  | st :: _ => continue = false ∧ ∀ e', entries reg' !! pj_task job = Some e' → t_status (te_state e') = st
  | [] => continue = true ∧ ∃ e', entries reg' !! pj_task job = Some e' ∧ t_status (te_state e') = Running
  end.
Proof.
  revert reg e; induction ticks as [|[fetched now] ticks IH]; intros reg e He Hr; simpl; [eauto|].
  pose proof (poll_once_spec job fetched now reg e He) as Hp.
  destruct (poll_once job fetched now reg) as [reg' continue].
  destruct (mirrored fetched) as [st|]; destruct Hp as [-> Hp]; [done|].
  destruct Hp as (e' & He' & Hst). apply (IH reg' e'); [done|congruence].
Qed.
End federated.

Definition epoch : stamp := {| st_now := 0; st_iso := "1970-01-01T00:00:00Z" |}.

Lemma failed_dispatch_keeps_task_running_witness :
  let o := canonical_order in let e := sample_net in
  let r := enqueue_federated_task 0 epoch 7 sample_nodes "/bin/x" "decompile" Null None 5 None registry_new in
  is_ok r.1.2 = false ∧
  (∃ e, entries r.1.1 !! "federated-1" = Some e ∧ t_status (te_state e) = Running).
Proof.
  cbn zeta.
  pose proof (@failed_dispatch_keeps_task_running canonical_order sample_net 0 epoch 7 sample_nodes
    "/bin/x" "decompile" Null None 5 registry_new) as Hf.
  destruct (enqueue_federated_task _ _ _ _ _ _ _ _ _ _ _) as [[reg answer] job].
  destruct Hf as (Ha & _ & e & He & Hs & _).
  - vm_compute. discriminate.
  - intros n Hn.
    assert (@choose_ready_nodes sample_net 0 sample_nodes (Some "decompile") (Some (normalize_tenant None)) =
            [sample_node "b"; sample_node "a"]) as Hc by (vm_compute; reflexivity).
    rewrite Hc, !elem_of_cons in Hn.
    destruct Hn as [->|[->|[]%elem_of_nil]]; vm_compute; reflexivity.
  - split; [exact Ha|]. exists e. split; [exact He|exact Hs].
Defined.

Lemma poll_mirrors_remote_witness :
  let o := canonical_order in
  let reg := (create_with_key "federated" None "Dispatching" epoch registry_new).1 in
  let job := {| pj_task := "federated-1"; pj_node := sample_node "a"; pj_url := "a"; pj_remote := "job-9" |} in
  let answer st := Ok {| rk_node := "a"; rk_url := "a"; rk_task_id := "job-9";
                         rk_payload := obj [("status", VString st)] |} in
  let '(reg', continue) := poll_loop job [(Err "timeout", epoch); (answer "running", epoch); (answer "completed", epoch)] reg in
  continue = false ∧ ∀ e', entries reg' !! "federated-1" = Some e' → t_status (te_state e') = Completed.
Proof.
  cbn zeta.
  set (reg := (create_with_key "federated" None "Dispatching" epoch registry_new).1).
  assert (is_Some (entries reg !! "federated-1")) as [e He] by (eexists; vm_compute; reflexivity).
  eapply (@poll_mirrors_remote canonical_order
    {| pj_task := "federated-1"; pj_node := sample_node "a"; pj_url := "a"; pj_remote := "job-9" |}
    [(Err "timeout", epoch); (Ok {| rk_payload := obj [("status", VString "running")] |}, epoch);
     (Ok {| rk_payload := obj [("status", VString "completed")] |}, epoch)] reg e He).
  vm_compute in He. injection He as <-. reflexivity.
Defined.
