(* ===== verification/Serde.v ===== *)
(** * Request structs and their JSON form

    The derived [Serialize] and [Deserialize] implementations of the structs in
    src/server/requests.rs.  A field type is a [Codec]: how a value is read from JSON
    and written to it, with the law that reading what was written gives it back.  A
    struct is a list of fields, each with its name, its [alias] names, its [default]
    and its [skip_serializing_if]; [struct_codec] reads and writes all of them, and its
    round trip is proved once, for every struct.

    As the derive macro does it: unknown keys are ignored, a key given twice (under any
    of its names) is an error, a missing [Option] is [None], a JSON array is read field
    by field.  The text of an error message is serde's, see [RpcDispatch]. *)

From Stdlib Require Import Ascii.
From stdpp Require Import base strings numbers sets list.
From S2P Require Import Prelude RustStr Json.

Open Scope ida_scope.

(** What [serde_json::from_value] can report. *)
Inductive DeError : Type :=
| InvalidType (found : Value) (expected : string)
| MissingField (name : string)
| DuplicateField (name : string)
| InvalidLength (n : nat).

(** ** Field types *)

Record Codec : Type := {
  ty : Type;
  de : Value → result ty DeError;
  ser : ty → Value;
  missing : option ty;
  codec_wf : ty → Prop;
  codec_roundtrip : ∀ x, codec_wf x → de (ser x) = Ok x
}.

Definition de_string (v : Value) : result string DeError :=
  match v with VString s => Ok s | _ => Err (InvalidType v "a string") end.

Definition de_bool (v : Value) : result bool DeError :=
  match v with Bool b => Ok b | _ => Err (InvalidType v "a boolean") end.

(** An integer type from [lo] to [hi]; a negative number is a [NegInt]. *)
Definition de_int (expected : string) (lo hi : Z) (v : Value) : result Z DeError :=
  match v with
  | Number (PosInt z) | Number (NegInt z) =>
      if (lo <=? z)%Z && (z <=? hi)%Z then Ok z else Err (InvalidType v expected)
  | _ => Err (InvalidType v expected)
  end.

Definition ser_int (z : Z) : Value :=
  Number (if (z <? 0)%Z then NegInt z else PosInt z).

Definition string_codec : Codec :=
  {| ty := string; de := de_string; ser := VString; missing := None;
     codec_wf := λ _, True; codec_roundtrip := λ _ _, eq_refl |}.

Definition bool_codec : Codec :=
  {| ty := bool; de := de_bool; ser := Bool; missing := None;
     codec_wf := λ _, True; codec_roundtrip := λ _ _, eq_refl |}.

(** [serde_json::Value] itself. *)
Definition value_codec : Codec :=
  {| ty := Value; de := Ok; ser := λ v, v; missing := None;
     codec_wf := λ _, True; codec_roundtrip := λ _ _, eq_refl |}.

Lemma int_roundtrip e lo hi z : (lo ≤ z ≤ hi)%Z → de_int e lo hi (ser_int z) = Ok z.
Proof.
  intros Hz. unfold ser_int. destruct (z <? 0)%Z; simpl;
    by rewrite (proj2 (Z.leb_le lo z)), (proj2 (Z.leb_le z hi)) by lia.
Qed.

Definition int_codec (expected : string) (lo hi : Z) : Codec :=
  {| ty := Z; de := de_int expected lo hi; ser := ser_int; missing := None;
     codec_wf := λ z, (lo ≤ z ≤ hi)%Z; codec_roundtrip := int_roundtrip expected lo hi |}.

Definition u64_codec : Codec := int_codec "u64" 0 u64_max.
Definition usize_codec : Codec := int_codec "usize" 0 u64_max.
Definition u32_codec : Codec := int_codec "u32" 0 (2 ^ 32 - 1).
Definition u8_codec : Codec := int_codec "u8" 0 255.
Definition i64_codec : Codec := int_codec "i64" (- 2 ^ 63) (2 ^ 63 - 1).
Definition i32_codec : Codec := int_codec "i32" (- 2 ^ 31) (2 ^ 31 - 1).

(** [Option<T>]: [null] is [None]. *)
Definition de_option (c : Codec) (v : Value) : result (option (ty c)) DeError :=
  match v with Null => Ok None | _ => let? x := de c v in Ok (Some x) end.

Definition ser_option (c : Codec) (o : option (ty c)) : Value :=
  match o with None => Null | Some x => ser c x end.

(** [Some] of a value that is written as [null] cannot be told from [None]. *)
Definition option_wf (c : Codec) (o : option (ty c)) : Prop :=
  match o with None => True | Some x => codec_wf c x ∧ ser c x ≠ Null end.

Lemma option_roundtrip c o : option_wf c o → de_option c (ser_option c o) = Ok o.
Proof.
  destruct o as [x|]; [|done]. intros [Hwf Hnn]. unfold de_option, ser_option.
  pose proof (codec_roundtrip c x Hwf) as Hrt. by destruct (ser c x); [done|rewrite Hrt..].
Qed.

Definition option_codec (c : Codec) : Codec :=
  {| ty := option (ty c); de := de_option c; ser := ser_option c; missing := Some None;
     codec_wf := option_wf c; codec_roundtrip := option_roundtrip c |}.

(** [Vec<T>] *)
Definition de_vec (c : Codec) (v : Value) : result (list (ty c)) DeError :=
  match v with
  | Array l => collect (de c <$> l)
  | _ => Err (InvalidType v "a sequence")
  end.

Lemma vec_roundtrip c l : Forall (codec_wf c) l → de_vec c (Array (ser c <$> l)) = Ok l.
Proof.
  intros Hl. simpl. induction Hl as [|x l Hx _ IH]; [done|]. cbn.
  rewrite (codec_roundtrip c x Hx). by rewrite IH.
Qed.

Definition vec_codec (c : Codec) : Codec :=
  {| ty := list (ty c); de := de_vec c; ser := λ l, Array (ser c <$> l); missing := None;
     codec_wf := Forall (codec_wf c); codec_roundtrip := vec_roundtrip c |}.

(** ** Structs *)

Record Field : Type := {
  f_name : string;
  f_aliases : list string;
  f_codec : Codec;
  f_default : option (ty f_codec);
  f_skip : ty f_codec → bool
}.

(** The value of a field that the JSON object does not have. *)
Definition f_missing (f : Field) : option (ty (f_codec f)) :=
  match f_default f with Some d => Some d | None => missing (f_codec f) end.

(** A plain field, perhaps with aliases. *)
Definition field (name : string) (aliases : list string) (c : Codec) : Field :=
  {| f_name := name; f_aliases := aliases; f_codec := c; f_default := None;
     f_skip := λ _, false |}.

(** [#[serde(default)]] *)
Definition field_default (name : string) (c : Codec) (d : ty c) : Field :=
  {| f_name := name; f_aliases := []; f_codec := c; f_default := Some d;
     f_skip := λ _, false |}.

(** [#[serde(default, skip_serializing_if = "Option::is_none")]] *)
Definition field_skip (name : string) (c : Codec) : Field :=
  {| f_name := name; f_aliases := []; f_codec := option_codec c; f_default := Some None;
     f_skip := λ o, bool_decide (o = None) |}.

Definition f_matches (f : Field) (k : string) : bool :=
  String.eqb k (f_name f) || existsb (String.eqb k) (f_aliases f).

(** The fields of a struct, and its fields while they are being read. *)
Fixpoint tuple (fs : list Field) : Type :=
  match fs with [] => () | f :: fs => (ty (f_codec f) * tuple fs)%type end.

Fixpoint slots (fs : list Field) : Type :=
  match fs with [] => () | f :: fs => (option (ty (f_codec f)) * slots fs)%type end.

Fixpoint empty_slots (fs : list Field) : slots fs :=
  match fs with [] => tt | f :: fs => (None, empty_slots fs) end.

(** One [key: value] of the object: the first field with that name takes it. *)
Fixpoint fill (fs : list Field) (k : string) (v : Value) : slots fs → result (slots fs) DeError :=
  match fs with
  | [] => λ s, Ok s
  | f :: fs => λ s,
      if f_matches f k then
        match s.1 with
        | Some _ => Err (DuplicateField (f_name f))
        | None => let? x := de (f_codec f) v in Ok (Some x, s.2)
        end
      else let? s' := fill fs k v s.2 in Ok (s.1, s')
  end.

Fixpoint visit_map (fs : list Field) (m : list (string * Value)) (s : slots fs) :
    result (slots fs) DeError :=
  match m with
  | [] => Ok s
  | (k, v) :: m => let? s' := fill fs k v s in visit_map fs m s'
  end.

Fixpoint finish_struct (fs : list Field) : slots fs → result (tuple fs) DeError :=
  match fs with
  | [] => λ _, Ok tt
  | f :: fs => λ s,
      let? x := ok_or (match s.1 with Some x => Some x | None => f_missing f end)
                      (MissingField (f_name f)) in
      let? t := finish_struct fs s.2 in Ok (x, t)
  end.

(** The array form: one element per field, in order; [n] is the index of the field. *)
Fixpoint visit_seq (fs : list Field) (n : nat) (l : list Value) : result (tuple fs) DeError :=
  match fs with
  | [] => match l with [] => Ok tt | _ => Err (InvalidLength (n + length l)) end
  | f :: fs =>
      match l with
      | v :: l =>
          let? x := de (f_codec f) v in let? t := visit_seq fs (S n) l in Ok (x, t)
      | [] =>
          let? x := ok_or (f_default f) (InvalidLength n) in
          let? t := visit_seq fs (S n) [] in Ok (x, t)
      end
  end.

Record Struct (fs : list Field) : Type := MkStruct { fields : tuple fs }.
Arguments MkStruct {fs} _.
Arguments fields {fs} _.

Definition de_struct (name : string) (fs : list Field) (v : Value) : result (Struct fs) DeError :=
  match v with
  | Object m =>
      let? s := visit_map fs m (empty_slots fs) in
      let? t := finish_struct fs s in Ok (MkStruct t)
  | Array l => let? t := visit_seq fs 0 l in Ok (MkStruct t)
  | _ => Err (InvalidType v ("struct " +:+ name))
  end.

(** The members written, in the order of the fields. *)
Fixpoint ser_fields (fs : list Field) : tuple fs → list (string * Value) :=
  match fs with
  | [] => λ _, []
  | f :: fs => λ t,
      (if f_skip f t.1 then [] else [(f_name f, ser (f_codec f) t.1)]) ++ ser_fields fs t.2
  end.

Definition ser_struct (fs : list Field) (r : Struct fs) : Value := obj (ser_fields fs (fields r)).

(** ** Field access *)

Fixpoint field_ty (fs : list Field) (k : string) : Type :=
  match fs with
  | [] => ()
  | f :: fs => if String.eqb k (f_name f) then ty (f_codec f) else field_ty fs k
  end.

Fixpoint getf_tuple (fs : list Field) (k : string) : tuple fs → field_ty fs k :=
  match fs with
  | [] => λ _, tt
  | f :: fs => λ t,
      match String.eqb k (f_name f) as b
        return if b then ty (f_codec f) else field_ty fs k with
      | true => t.1
      | false => getf_tuple fs k t.2
      end
  end.

(** [req.field] *)
Definition getf {fs} (r : Struct fs) (k : string) : field_ty fs k := getf_tuple fs k (fields r).

Notation "r @ k" := (getf r k%string) (at level 9, k at level 0) : ida_scope.

(** ** Round trip *)

(** No name of a field is captured by an earlier one. *)
Fixpoint schema_ok (fs : list Field) : bool :=
  match fs with
  | [] => true
  | f :: fs => forallb (λ g, negb (f_matches f (f_name g))) fs && schema_ok fs
  end.

(** The fields are in the range of their types; what is not written is the default. *)
Fixpoint tuple_wf (fs : list Field) : tuple fs → Prop :=
  match fs with
  | [] => λ _, True
  | f :: fs => λ t,
      (if f_skip f t.1 then f_missing f = Some t.1 else codec_wf (f_codec f) t.1) ∧
      tuple_wf fs t.2
  end.

Definition struct_wf {fs} (r : Struct fs) : Prop := tuple_wf fs (fields r).

(** The slots once the keys [K] were read from what [t] was written to. *)
Fixpoint partial (K : list string) (fs : list Field) : tuple fs → slots fs :=
  match fs with
  | [] => λ _, tt
  | f :: fs => λ t,
      (if f_skip f t.1 then None else if bool_decide (f_name f ∈ K) then Some t.1 else None,
       partial K fs t.2)
  end.

Lemma partial_nil fs t : partial [] fs t = empty_slots fs.
Proof.
  induction fs as [|f fs IH]; [done|]. destruct t as [x t]. simpl. rewrite IH.
  by destruct (f_skip f x).
Qed.

(** A key that is not the name of a later field changes nothing there. *)
Lemma partial_fresh k K fs t :
  forallb (λ g, negb (bool_decide (k = f_name g))) fs = true →
  partial (k :: K) fs t = partial K fs t.
Proof.
  induction fs as [|f fs IH]; [done|]. destruct t as [x t]. simpl.
  rewrite andb_true_iff, negb_true_iff, bool_decide_eq_false. intros [Hne Hfs].
  rewrite IH by done. destruct (f_skip f x); [done|]. f_equal.
  by rewrite (bool_decide_ext (f_name f ∈ k :: K) (f_name f ∈ K)) by set_solver.
Qed.

Lemma matches_name f k : f_matches f k = false → k ≠ f_name f.
Proof. unfold f_matches. by rewrite orb_false_iff, String.eqb_neq; intros [??]. Qed.

Lemma ser_fields_name fs t k v : (k, v) ∈ ser_fields fs t → ∃ g, g ∈ fs ∧ k = f_name g.
Proof.
  revert t. induction fs as [|f fs IH]; intros t Hin; [by apply elem_of_nil in Hin|].
  destruct t as [x t]. simpl in Hin. apply elem_of_app in Hin as [Hin|Hin].
  - destruct (f_skip f x); [by apply elem_of_nil in Hin|].
    apply list_elem_of_singleton in Hin. exists f. split; [left|congruence].
  - destruct (IH _ Hin) as (g & Hg & ->). exists g. split; [by right|done].
Qed.

Lemma fill_partial K fs t k v :
  schema_ok fs = true → tuple_wf fs t → (k, v) ∈ ser_fields fs t → k ∉ K →
  fill fs k v (partial K fs t) = Ok (partial (k :: K) fs t).
Proof.
  revert t. induction fs as [|f fs IH]; intros t Hok Hwf Hin HK; [by apply elem_of_nil in Hin|].
  destruct t as [x t]. simpl in Hok, Hwf, Hin |- *.
  apply andb_true_iff in Hok as [Hf Hok]. destruct Hwf as [Hx Hwf].
  apply elem_of_app in Hin as [Hin|Hin].
  - destruct (f_skip f x); [by apply elem_of_nil in Hin|].
    apply list_elem_of_singleton in Hin. simplify_eq.
    unfold f_matches at 1. rewrite String.eqb_refl. simpl.
    rewrite bool_decide_false by done. rewrite (codec_roundtrip _ _ Hx). simpl.
    rewrite bool_decide_true by left. rewrite partial_fresh; [done|].
    apply forallb_forall. intros g Hg. rewrite forallb_forall in Hf.
    specialize (Hf g Hg). apply negb_true_iff in Hf. apply matches_name in Hf.
    by apply negb_true_iff, bool_decide_eq_false.
  - destruct (ser_fields_name _ _ _ _ Hin) as (g & Hg & Hk).
    rewrite forallb_forall in Hf. specialize (Hf g (proj1 (list_elem_of_In _ _) Hg)).
    rewrite <-Hk in Hf. apply negb_true_iff in Hf. rewrite Hf. rewrite IH by done. simpl.
    apply matches_name in Hf. destruct (f_skip f x); [done|].
    by rewrite (bool_decide_ext (f_name f ∈ k :: K) (f_name f ∈ K)) by set_solver.
Qed.

Lemma visit_map_partial fs t m K :
  schema_ok fs = true → tuple_wf fs t → NoDup m.*1 →
  (∀ kv, kv ∈ m → kv ∈ ser_fields fs t) → (∀ k, k ∈ m.*1 → k ∉ K) →
  ∃ K', visit_map fs m (partial K fs t) = Ok (partial K' fs t) ∧ ∀ k, k ∈ K' ↔ k ∈ K ∨ k ∈ m.*1.
Proof.
  intros Hok Hwf. revert K. induction m as [|[k v] m IH]; intros K Hnd Hm HK.
  { exists K. set_solver. }
  simpl in *. apply NoDup_cons in Hnd as [Hk Hnd].
  rewrite (fill_partial K) by set_solver. simpl.
  destruct (IH (k :: K)) as (K' & HK' & Heq); [done|set_solver|set_solver|].
  exists K'. split; [done|]. intros k'. rewrite Heq. set_solver.
Qed.

Lemma finish_partial fs t K :
  tuple_wf fs t → (∀ k v, (k, v) ∈ ser_fields fs t → k ∈ K) → finish_struct fs (partial K fs t) = Ok t.
Proof.
  revert t. induction fs as [|f fs IH]; intros t; [by destruct t|]. destruct t as [x t]. simpl.
  intros [Hx Hwf] HK. rewrite IH; [|done|].
  - destruct (f_skip f x); simpl; [by rewrite Hx|].
    rewrite bool_decide_true; [done|]. eapply HK. left.
  - intros k v Hin. eapply HK. apply elem_of_app. right. done.
Qed.

Lemma ser_fields_NoDup fs t : schema_ok fs = true → NoDup (ser_fields fs t).*1.
Proof.
  revert t. induction fs as [|f fs IH]; intros t Hok; [constructor|]. destruct t as [x t].
  simpl in *. apply andb_true_iff in Hok as [Hf Hok]. rewrite fmap_app.
  destruct (f_skip f x); simpl; [by apply IH|]. constructor; [|by apply IH].
  intros ([k v] & Hk & Hin)%list_elem_of_fmap. simpl in Hk. subst.
  destruct (ser_fields_name _ _ _ _ Hin) as (g & Hg & Hk).
  rewrite forallb_forall in Hf. specialize (Hf g (proj1 (list_elem_of_In _ _) Hg)).
  apply negb_true_iff, matches_name in Hf. congruence.
Qed.

Lemma obj_insert_perm k v m : k ∉ m.*1 → obj_insert k v m ≡ₚ (k, v) :: m.
Proof.
  induction m as [|[k' v'] m IH]; intros Hk; [done|]. simpl in *.
  destruct (String.compare k k') eqn:E; [|done|].
  - apply String.compare_eq_iff in E. set_solver.
  - rewrite IH by set_solver. constructor.
Qed.

Lemma obj_fold_perm l m :
  NoDup (m ++ l).*1 → foldl (λ m kv, obj_insert kv.1 kv.2 m) m l ≡ₚ m ++ l.
Proof.
  revert m. induction l as [|[k v] l IH]; intros m Hnd; simpl; [by rewrite app_nil_r|].
  rewrite fmap_app in Hnd. apply NoDup_app in Hnd as (Hm & Hdisj & Hl).
  apply NoDup_cons in Hl as [Hk Hl].
  assert (k ∉ m.*1) as Hkm by (intros H; by apply (Hdisj _ H); left).
  pose proof (obj_insert_perm k v m Hkm) as Hp.
  rewrite IH; [rewrite Hp; simpl; by rewrite Permutation_middle|].
  rewrite fmap_app, (fmap_Permutation fst _ _ Hp). simpl. apply NoDup_cons. split.
  - rewrite elem_of_app. tauto.
  - apply NoDup_app. split; [done|]. split; [|done]. intros x Hx Hin.
    apply (Hdisj x Hx). by right.
Qed.

Lemma obj_perm l : NoDup l.*1 → ∃ m, obj l = Object m ∧ m ≡ₚ l.
Proof. intros Hnd. eexists. split; [done|]. by apply obj_fold_perm. Qed.

Lemma struct_roundtrip name fs (r : Struct fs) :
  schema_ok fs = true → struct_wf r → de_struct name fs (ser_struct fs r) = Ok r.
Proof.
  intros Hok Hwf. destruct r as [t]. unfold struct_wf, ser_struct in *. cbn [fields] in *.
  destruct (obj_perm (ser_fields fs t)) as (m & -> & Hm); [by apply ser_fields_NoDup|].
  simpl. rewrite <-(partial_nil fs t).
  destruct (visit_map_partial fs t m []) as (K & -> & HK); [done|done| | |set_solver|].
  - rewrite (fmap_Permutation fst _ _ Hm). by apply ser_fields_NoDup.
  - intros kv. by rewrite Hm.
  - simpl. rewrite finish_partial; [done|done|]. intros k v Hin. apply HK. right.
    apply list_elem_of_fmap. exists (k, v). by rewrite Hm.
Qed.

(** ** Reading an object that was built by hand

    Fields that are read do not depend on the order of the members. *)

Lemma fill_swap fs k1 v1 k2 v2 s s1 s2 :
  fill fs k1 v1 s = Ok s1 → fill fs k2 v2 s1 = Ok s2 →
  ∃ s1', fill fs k2 v2 s = Ok s1' ∧ fill fs k1 v1 s1' = Ok s2.
Proof.
  revert s s1 s2. induction fs as [|f fs IH]; intros s s1 s2; [cbn; naive_solver|].
  destruct s as [o s]. cbn [fill fst snd].
  destruct (f_matches f k1) eqn:Hk1.
  - destruct o as [y|]; [done|]. destruct (de (f_codec f) v1) as [x|] eqn:Hx; [|done]. cbn [result_bind].
    intros ?; simplify_eq. cbn [fst snd]. destruct (f_matches f k2); [done|]. cbn.
    destruct (fill fs k2 v2 s) as [s'|]; [|done]. cbn. intros ?; simplify_eq.
    eexists. split; [done|]. cbn [fill fst snd]. by rewrite ?Hk1, ?Hx.
  - destruct (fill fs k1 v1 s) as [s'|] eqn:E1; [|done]. cbn. intros ?; simplify_eq. cbn [fill fst snd].
    destruct (f_matches f k2) eqn:Hk2.
    + destruct o as [y|]; [done|]. destruct (de (f_codec f) v2) as [x|] eqn:Hx; [|done]. cbn.
      intros ?; simplify_eq. eexists. split; [done|]. cbn [fill fst snd]. by rewrite ?Hk1, ?E1.
    + destruct (fill fs k2 v2 s') as [s''|] eqn:E2; [|done]. cbn. intros ?; simplify_eq.
      destruct (IH _ _ _ E1 E2) as (s1' & -> & Hb). eexists. split; [done|]. cbn [fill fst snd].
      by rewrite ?Hk1, ?Hb.
Qed.

Lemma visit_map_perm fs m m' s s' :
  m ≡ₚ m' → visit_map fs m s = Ok s' → visit_map fs m' s = Ok s'.
Proof.
  intros Hp. revert s s'. induction Hp as [|[k v] m m' _ IH|[k1 v1] [k2 v2] m|m1 m2 m3 _ IH1 _ IH2];
    intros s s'; cbn [visit_map]; [done|..].
  - destruct (fill fs k v s) as [s1|]; [|done]. cbn. apply IH.
  - destruct (fill fs k2 v2 s) as [s1|] eqn:E1; [|done]. cbn.
    destruct (fill fs k1 v1 s1) as [s2|] eqn:E2; [|done]. cbn.
    destruct (fill_swap _ _ _ _ _ _ _ _ E1 E2) as (s1' & -> & Hb). cbn. by rewrite Hb.
  - eauto.
Qed.

(** The members can be read in the order in which they were written down. *)
Lemma de_struct_obj name fs l s t :
  NoDup l.*1 → visit_map fs l (empty_slots fs) = Ok s → finish_struct fs s = Ok t →
  de_struct name fs (obj l) = Ok (MkStruct t).
Proof.
  intros Hnd Hv Hf. destruct (obj_perm l Hnd) as (m & -> & Hm). cbn.
  rewrite (visit_map_perm _ l m _ s) by done. cbn. by rewrite Hf.
Qed.

(** Indexing an object that was built by hand. *)
Lemma obj_get_perm m m' k : NoDup m.*1 → m ≡ₚ m' → obj_get k m = obj_get k m'.
Proof.
  intros Hnd Hp. induction Hp as [|[k1 v1] m m' _ IH|[k1 v1] [k2 v2] m|m1 m2 m3 H1 IH1 H2 IH2].
  - done.
  - simpl in *. apply NoDup_cons in Hnd as [_ Hnd]. by rewrite IH.
  - simpl in *. apply NoDup_cons in Hnd as [Hk _]. 
    destruct (bool_decide_reflect (k = k1)), (bool_decide_reflect (k = k2)); subst; set_solver.
  - rewrite IH1 by done. apply IH2. by rewrite <-(fmap_Permutation fst _ _ H1).
Qed.

Lemma index_obj l k : NoDup l.*1 → index (obj l) k = default Null (obj_get k l).
Proof.
  intros Hnd. destruct (obj_perm l Hnd) as (m & -> & Hm). unfold index, get.
  f_equal. symmetry. by apply obj_get_perm.
Qed.

Lemma as_str_option o : as_str (ser_option string_codec o) = o.
Proof. by destruct o. Qed.

Lemma as_u64_option o : option_wf u64_codec o → as_u64 (ser_option u64_codec o) = o.
Proof.
  destruct o as [z|]; [|done]. intros [Hz _]. cbn in Hz |- *. unfold ser_int.
  by rewrite (proj2 (Z.ltb_ge z 0)) by lia.
Qed.

Ltac keys_distinct := apply (bool_decide_unpack (NoDup _)); vm_compute; exact I.

(** [p["k"]] of an object whose members are known. *)
Ltac index_is p k v := replace (index p k) with v by (symmetry; refine (eq_trans (index_obj _ k _) _); [keys_distinct|reflexivity]).

(** A struct as a field type. *)
Definition struct_codec (name : string) (fs : list Field) (Hok : schema_ok fs = true) : Codec :=
  {| ty := Struct fs; de := de_struct name fs; ser := ser_struct fs; missing := None;
     codec_wf := struct_wf; codec_roundtrip := λ r, struct_roundtrip name fs r Hok |}.
