(* ===== verification/ToolRequests.v ===== *)
(** * The parameters of the tools (src/server/requests.rs)

    Every request struct of the source with its fields in the order of the source: type,
    [alias] names, [default] and [skip_serializing_if].  The last theorem shows that what
    is written is read back unchanged, which is how a request travels from the MCP tool
    through [invoke_dispatch] to the dispatcher. *)

From Stdlib Require Import Ascii.
From stdpp Require Import base strings list.
From S2P Require Import Prelude RustStr Json Serde.

Definition OpenIdbRequest : list Field :=
  [field "path" [] string_codec;
   field "load_debug_info" ["load_dsym"] (option_codec bool_codec);
   field "debug_info_path" ["dsym_path"] (option_codec string_codec);
   field "debug_info_verbose" [] (option_codec bool_codec);
   field "force" ["recover"] (option_codec bool_codec);
   field "file_type" [] (option_codec string_codec)].

Definition CloseIdbRequest : list Field :=
  [field "token" ["close_token"; "owner_token"] (option_codec string_codec)].

Definition LoadDebugInfoRequest : list Field :=
  [field_skip "db_handle" string_codec;
   field "path" [] (option_codec string_codec);
   field "verbose" [] (option_codec bool_codec)].

Definition EmptyParams : list Field := [].

Definition ListFunctionsRequest : list Field :=
  [field_skip "db_handle" string_codec;
   field "offset" [] (option_codec usize_codec);
   field "limit" ["count"] (option_codec usize_codec);
   field "filter" ["query"; "queries"; "filter"] (option_codec string_codec);
   field "timeout_secs" [] (option_codec u64_codec)].

Definition AnalyzeFuncsRequest : list Field :=
  [field_skip "db_handle" string_codec;
   field "timeout_secs" [] (option_codec u64_codec)].

Definition ResolveFunctionRequest : list Field :=
  [field_skip "db_handle" string_codec;
   field "name" [] string_codec].

Definition GetFunctionPrototypeRequest : list Field :=
  [field_skip "db_handle" string_codec;
   field "address" ["ea"; "addr"] (option_codec value_codec);
   field "name" [] (option_codec string_codec)].

Definition SetFunctionPrototypeRequest : list Field :=
  [field_skip "db_handle" string_codec;
   field "address" ["ea"; "addr"] (option_codec value_codec);
   field "name" [] (option_codec string_codec);
   field "prototype" [] string_codec].

Definition AddrInfoRequest : list Field :=
  [field_skip "db_handle" string_codec;
   field "address" ["ea"; "addr"; "addresses"] (option_codec value_codec);
   field "target_name" ["name"; "symbol"] (option_codec string_codec);
   field "offset" [] (option_codec u64_codec)].

Definition FunctionAtRequest : list Field :=
  [field_skip "db_handle" string_codec;
   field "address" ["ea"; "addr"; "addresses"] (option_codec value_codec);
   field "target_name" ["name"; "symbol"] (option_codec string_codec);
   field "offset" [] (option_codec u64_codec)].

Definition DisasmFunctionAtRequest : list Field :=
  [field_skip "db_handle" string_codec;
   field "address" ["ea"; "addr"; "addresses"] (option_codec value_codec);
   field "target_name" ["name"; "symbol"] (option_codec string_codec);
   field "offset" [] (option_codec u64_codec);
   field "count" [] (option_codec usize_codec)].

Definition DisasmRequest : list Field :=
  [field_skip "db_handle" string_codec;
   field "address" ["addrs"; "addr"; "addresses"] value_codec;
   field "count" [] (option_codec usize_codec)].

Definition DisasmByNameRequest : list Field :=
  [field_skip "db_handle" string_codec;
   field "name" [] string_codec;
   field "count" [] (option_codec usize_codec)].

Definition DecompileRequest : list Field :=
  [field_skip "db_handle" string_codec;
   field "address" ["addrs"; "addr"; "addresses"] value_codec].

Definition DecompileStructuredRequest : list Field :=
  [field_skip "db_handle" string_codec;
   field "address" ["addr"] value_codec;
   field_default "max_depth" (option_codec u32_codec) None;
   field_default "include_types" (option_codec bool_codec) None;
   field_default "include_addresses" (option_codec bool_codec) None].

Definition BatchDecompileRequest : list Field :=
  [field_skip "db_handle" string_codec;
   field "addresses" ["addrs"; "address"; "addresses"] value_codec].

Definition SearchPseudocodeRequest : list Field :=
  [field_skip "db_handle" string_codec;
   field "pattern" [] string_codec;
   field_default "limit" (option_codec usize_codec) None;
   field_default "timeout_secs" (option_codec u64_codec) None].

Definition TableScanRequest : list Field :=
  [field_skip "db_handle" string_codec;
   field "base_address" ["addr"; "base"] value_codec;
   field_default "stride" (option_codec u64_codec) None;
   field_default "count" (option_codec usize_codec) None].

Definition DiffFunctionsRequest : list Field :=
  [field_skip "db_handle" string_codec;
   field "addr1" ["address1"; "func1"] value_codec;
   field "addr2" ["address2"; "func2"] value_codec].

Definition ListStringsRequest : list Field :=
  [field_skip "db_handle" string_codec;
   field "query" [] (option_codec string_codec);
   field "filter" [] (option_codec string_codec);
   field "exact" [] (option_codec bool_codec);
   field "case_insensitive" [] (option_codec bool_codec);
   field "offset" [] (option_codec usize_codec);
   field "limit" ["count"] (option_codec usize_codec);
   field "timeout_secs" [] (option_codec u64_codec)].

Definition StringsRequest : list Field :=
  [field_skip "db_handle" string_codec;
   field "offset" [] (option_codec usize_codec);
   field "limit" ["count"] (option_codec usize_codec);
   field "filter" ["query"] (option_codec string_codec);
   field "timeout_secs" [] (option_codec u64_codec)].

Definition FindStringRequest : list Field :=
  [field_skip "db_handle" string_codec;
   field "query" [] string_codec;
   field "exact" [] (option_codec bool_codec);
   field "case_insensitive" [] (option_codec bool_codec);
   field "offset" [] (option_codec usize_codec);
   field "limit" ["count"] (option_codec usize_codec);
   field "timeout_secs" [] (option_codec u64_codec)].

Definition XrefsToStringRequest : list Field :=
  [field_skip "db_handle" string_codec;
   field "query" [] string_codec;
   field "exact" [] (option_codec bool_codec);
   field "case_insensitive" [] (option_codec bool_codec);
   field "offset" [] (option_codec usize_codec);
   field "limit" ["count"] (option_codec usize_codec);
   field "max_xrefs" [] (option_codec usize_codec);
   field "timeout_secs" [] (option_codec u64_codec)].

Definition LocalTypesRequest : list Field :=
  [field_skip "db_handle" string_codec;
   field "offset" [] (option_codec usize_codec);
   field "limit" ["count"] (option_codec usize_codec);
   field "filter" ["query"] (option_codec string_codec);
   field "timeout_secs" [] (option_codec u64_codec)].

Definition DeclareTypeRequest : list Field :=
  [field_skip "db_handle" string_codec;
   field "decl" [] string_codec;
   field "relaxed" [] (option_codec bool_codec);
   field "replace" [] (option_codec bool_codec);
   field "multi" [] (option_codec bool_codec)].

Definition StructsRequest : list Field :=
  [field_skip "db_handle" string_codec;
   field "offset" [] (option_codec usize_codec);
   field "limit" ["count"] (option_codec usize_codec);
   field "filter" ["query"] (option_codec string_codec);
   field "timeout_secs" [] (option_codec u64_codec)].

Definition StructInfoRequest : list Field :=
  [field_skip "db_handle" string_codec;
   field "ordinal" [] (option_codec u32_codec);
   field "name" ["struct_name"; "type_name"] (option_codec string_codec)].

Definition ReadStructRequest : list Field :=
  [field_skip "db_handle" string_codec;
   field "address" ["ea"; "addr"; "addresses"] value_codec;
   field "ordinal" [] (option_codec u32_codec);
   field "name" ["struct_name"; "type_name"] (option_codec string_codec)].

Definition ApplyTypesRequest : list Field :=
  [field_skip "db_handle" string_codec;
   field "address" ["ea"; "addr"; "addresses"] (option_codec value_codec);
   field "target_name" ["name"; "symbol"] (option_codec string_codec);
   field "offset" [] (option_codec u64_codec);
   field "stack_offset" [] (option_codec i64_codec);
   field "stack_name" [] (option_codec string_codec);
   field "type_name" [] (option_codec string_codec);
   field "decl" [] (option_codec string_codec);
   field "relaxed" [] (option_codec bool_codec);
   field "delay" [] (option_codec bool_codec);
   field "strict" [] (option_codec bool_codec)].

Definition InferTypesRequest : list Field :=
  [field_skip "db_handle" string_codec;
   field "address" ["ea"; "addr"; "addresses"] (option_codec value_codec);
   field "target_name" ["name"; "symbol"] (option_codec string_codec);
   field "offset" [] (option_codec u64_codec)].

Definition DeclareStackRequest : list Field :=
  [field_skip "db_handle" string_codec;
   field "address" ["ea"; "addr"; "addresses"] (option_codec value_codec);
   field "target_name" ["function"; "name"] (option_codec string_codec);
   field "offset" [] i64_codec;
   field "var_name" [] (option_codec string_codec);
   field "decl" [] string_codec;
   field "relaxed" [] (option_codec bool_codec)].

Definition DeleteStackRequest : list Field :=
  [field_skip "db_handle" string_codec;
   field "address" ["ea"; "addr"; "addresses"] (option_codec value_codec);
   field "target_name" ["function"; "name"] (option_codec string_codec);
   field "offset" [] (option_codec i64_codec);
   field "var_name" [] (option_codec string_codec)].

Definition RenameStackVariableRequest : list Field :=
  [field "func_address" [] (option_codec value_codec);
   field "func_name" [] (option_codec string_codec);
   field "name" [] string_codec;
   field "new_name" [] string_codec;
   field "db_handle" [] (option_codec string_codec)].

Definition SetStackVariableTypeRequest : list Field :=
  [field "func_address" [] (option_codec value_codec);
   field "func_name" [] (option_codec string_codec);
   field "name" [] string_codec;
   field "type_decl" [] string_codec;
   field "db_handle" [] (option_codec string_codec)].

Definition ListEnumsRequest : list Field :=
  [field "filter" [] (option_codec string_codec);
   field "offset" [] (option_codec usize_codec);
   field "limit" [] (option_codec usize_codec);
   field "db_handle" [] (option_codec string_codec)].

Definition CreateEnumRequest : list Field :=
  [field "decl" [] string_codec;
   field "replace" [] (option_codec bool_codec);
   field "db_handle" [] (option_codec string_codec)].

Definition XrefsToFieldRequest : list Field :=
  [field_skip "db_handle" string_codec;
   field "ordinal" [] (option_codec u32_codec);
   field "name" ["struct_name"; "type_name"] (option_codec string_codec);
   field "member_index" [] (option_codec u32_codec);
   field "member_name" ["member"; "field"; "field_name"] (option_codec string_codec);
   field "limit" ["count"] (option_codec usize_codec)].

Definition AddressRequest : list Field :=
  [field_skip "db_handle" string_codec;
   field "address" ["addrs"; "addr"; "addresses"] value_codec].

Definition GetBytesRequest : list Field :=
  [field_skip "db_handle" string_codec;
   field "address" ["addrs"; "addr"; "addresses"] (option_codec value_codec);
   field "target_name" ["name"; "symbol"] (option_codec string_codec);
   field "offset" [] (option_codec u64_codec);
   field "size" ["count"] (option_codec usize_codec)].

Definition SetCommentsRequest : list Field :=
  [field_skip "db_handle" string_codec;
   field "address" ["ea"; "addr"; "addresses"] (option_codec value_codec);
   field "target_name" ["name"; "symbol"] (option_codec string_codec);
   field "offset" [] (option_codec u64_codec);
   field "comment" ["text"; "comment"] string_codec;
   field "repeatable" ["rptble"; "repeatable"] (option_codec bool_codec)].

Definition SetFunctionCommentRequest : list Field :=
  [field_skip "db_handle" string_codec;
   field "address" ["ea"; "addr"] (option_codec value_codec);
   field "name" [] (option_codec string_codec);
   field "comment" [] string_codec;
   field "repeatable" [] (option_codec bool_codec)].

Definition RenameRequest : list Field :=
  [field_skip "db_handle" string_codec;
   field "address" ["ea"; "addr"; "addresses"] (option_codec value_codec);
   field "current_name" ["current"; "old_name"; "from"] (option_codec string_codec);
   field "name" ["new_name"; "name"] string_codec;
   field "flags" [] (option_codec i32_codec)].

Definition BatchRenameEntry : list Field :=
  [field "address" ["ea"; "addr"] (option_codec value_codec);
   field "current_name" [] (option_codec string_codec);
   field "new_name" [] string_codec].

Definition BatchRenameRequest : list Field :=
  [field_skip "db_handle" string_codec;
   field "renames" [] (vec_codec (struct_codec "BatchRenameEntry" BatchRenameEntry eq_refl))].

Definition RenameLvarRequest : list Field :=
  [field_skip "db_handle" string_codec;
   field "func_address" ["func_ea"; "func_addr"] value_codec;
   field "lvar_name" ["old_name"; "variable"] string_codec;
   field "new_name" ["name"] string_codec].

Definition SetLvarTypeRequest : list Field :=
  [field_skip "db_handle" string_codec;
   field "func_address" ["func_ea"; "func_addr"] value_codec;
   field "lvar_name" ["variable"; "name"] string_codec;
   field "type_str" ["type"; "decl"] string_codec].

Definition SetDecompilerCommentRequest : list Field :=
  [field_skip "db_handle" string_codec;
   field "func_address" ["func_ea"; "func_addr"] value_codec;
   field "address" ["ea"] value_codec;
   field_default "itp" (option_codec i32_codec) None;
   field "comment" ["text"; "cmt"] string_codec].

Definition PatchRequest : list Field :=
  [field_skip "db_handle" string_codec;
   field "address" ["ea"; "addr"; "addresses"] (option_codec value_codec);
   field "target_name" ["name"; "symbol"] (option_codec string_codec);
   field "offset" [] (option_codec u64_codec);
   field "bytes" ["data"; "bytes"] value_codec].

Definition PatchAsmRequest : list Field :=
  [field_skip "db_handle" string_codec;
   field "address" ["ea"; "addr"; "addresses"] (option_codec value_codec);
   field "target_name" ["name"; "symbol"] (option_codec string_codec);
   field "offset" [] (option_codec u64_codec);
   field "line" ["asm"; "instruction"] string_codec].

Definition PaginatedRequest : list Field :=
  [field_skip "db_handle" string_codec;
   field "offset" [] (option_codec usize_codec);
   field "limit" ["count"] (option_codec usize_codec)].

Definition LookupFuncsRequest : list Field :=
  [field_skip "db_handle" string_codec;
   field "queries" ["query"; "queries"; "names"] value_codec].

Definition ListGlobalsRequest : list Field :=
  [field_skip "db_handle" string_codec;
   field "query" ["filter"] (option_codec string_codec);
   field "offset" [] (option_codec usize_codec);
   field "limit" ["count"] (option_codec usize_codec);
   field "timeout_secs" [] (option_codec u64_codec)].

Definition AnalyzeStringsRequest : list Field :=
  [field_skip "db_handle" string_codec;
   field "query" ["filter"] (option_codec string_codec);
   field "offset" [] (option_codec usize_codec);
   field "limit" ["count"] (option_codec usize_codec);
   field "timeout_secs" [] (option_codec u64_codec)].

Definition FindBytesRequest : list Field :=
  [field_skip "db_handle" string_codec;
   field "patterns" ["pattern"; "patterns"] value_codec;
   field "limit" ["count"] (option_codec usize_codec);
   field "offset" [] (option_codec usize_codec);
   field "timeout_secs" [] (option_codec u64_codec)].

Definition SearchRequest : list Field :=
  [field_skip "db_handle" string_codec;
   field "targets" ["query"; "queries"; "targets"] value_codec;
   field "kind" ["type"] (option_codec string_codec);
   field "limit" ["count"] (option_codec usize_codec);
   field "offset" [] (option_codec usize_codec);
   field "timeout_secs" [] (option_codec u64_codec)].

Definition FindInsnsRequest : list Field :=
  [field_skip "db_handle" string_codec;
   field "patterns" ["pattern"; "patterns"; "query"; "queries"; "mnemonic"; "mnemonics"] value_codec;
   field "limit" ["count"] (option_codec usize_codec);
   field "case_insensitive" [] (option_codec bool_codec);
   field "timeout_secs" [] (option_codec u64_codec)].

Definition FindInsnOperandsRequest : list Field :=
  [field_skip "db_handle" string_codec;
   field "patterns" ["pattern"; "patterns"; "query"; "queries"; "operands"] value_codec;
   field "limit" ["count"] (option_codec usize_codec);
   field "case_insensitive" [] (option_codec bool_codec);
   field "timeout_secs" [] (option_codec u64_codec)].

Definition FindPathsRequest : list Field :=
  [field_skip "db_handle" string_codec;
   field "start" [] value_codec;
   field "end" [] value_codec;
   field "max_paths" [] (option_codec usize_codec);
   field "max_depth" [] (option_codec usize_codec)].

Definition CallGraphRequest : list Field :=
  [field_skip "db_handle" string_codec;
   field "roots" ["root"; "roots"; "addr"; "address"; "addrs"] value_codec;
   field "max_depth" [] (option_codec usize_codec);
   field "max_nodes" [] (option_codec usize_codec)].

Definition XrefMatrixRequest : list Field :=
  [field_skip "db_handle" string_codec;
   field "addrs" ["addr"; "address"; "addresses"] value_codec].

Definition ExportFuncsRequest : list Field :=
  [field_skip "db_handle" string_codec;
   field "addrs" ["addrs"; "addr"; "address"; "functions"] (option_codec value_codec);
   field "offset" [] (option_codec usize_codec);
   field "limit" ["count"] (option_codec usize_codec);
   field "format" [] (option_codec string_codec)].

Definition GetStringRequest : list Field :=
  [field_skip "db_handle" string_codec;
   field "address" ["addrs"; "addr"; "addresses"] value_codec;
   field "max_len" [] (option_codec usize_codec)].

Definition GetGlobalValueRequest : list Field :=
  [field_skip "db_handle" string_codec;
   field "query" ["query"; "queries"; "names"; "addrs"] value_codec].

Definition IntConvertRequest : list Field :=
  [field "inputs" ["input"; "inputs"] value_codec].

Definition PseudocodeAtRequest : list Field :=
  [field_skip "db_handle" string_codec;
   field "address" ["addrs"; "addr"; "addresses"] value_codec;
   field "end_address" [] (option_codec string_codec)].

Definition ToolCatalogRequest : list Field :=
  [field "query" [] (option_codec string_codec);
   field "category" [] (option_codec string_codec);
   field "limit" [] (option_codec usize_codec)].

Definition ToolHelpRequest : list Field :=
  [field "name" [] string_codec].

Definition RunScriptRequest : list Field :=
  [field_skip "db_handle" string_codec;
   field "code" [] (option_codec string_codec);
   field "file" [] (option_codec string_codec);
   field "timeout_secs" [] (option_codec u64_codec)].

Definition TaskStatusRequest : list Field :=
  [field "task_id" [] string_codec].

Definition OpenDscRequest : list Field :=
  [field "path" [] string_codec;
   field "arch" [] string_codec;
   field "module" [] string_codec;
   field "frameworks" [] (option_codec (vec_codec string_codec));
   field "ida_version" [] (option_codec u8_codec);
   field "log_path" [] (option_codec string_codec)].

Definition OpenSbpfRequest : list Field :=
  [field "path" [] string_codec;
   field "sbx_path" [] (option_codec string_codec);
   field_default "skip_runtime_types" bool_codec false].

Definition DscAddDylibRequest : list Field :=
  [field_skip "db_handle" string_codec;
   field "module" [] string_codec;
   field "timeout_secs" [] (option_codec u64_codec)].

Definition DscAddRegionRequest : list Field :=
  [field_skip "db_handle" string_codec;
   field "address" ["ea"; "addr"] value_codec;
   field "timeout_secs" [] (option_codec u64_codec)].

Definition DbgLoadDebuggerRequest : list Field :=
  [field_skip "db_handle" string_codec;
   field_skip "debugger_name" string_codec;
   field_skip "is_remote" bool_codec;
   field_skip "timeout_secs" u64_codec].

Definition DbgStartProcessRequest : list Field :=
  [field_skip "db_handle" string_codec;
   field_skip "path" string_codec;
   field_skip "args" string_codec;
   field_skip "start_dir" string_codec;
   field_skip "timeout_secs" u64_codec].

Definition DbgAttachProcessRequest : list Field :=
  [field_skip "db_handle" string_codec;
   field_skip "pid" u64_codec;
   field_skip "timeout_secs" u64_codec].

Definition DbgDetachProcessRequest : list Field :=
  [field_skip "db_handle" string_codec;
   field_skip "timeout_secs" u64_codec].

Definition DbgExitProcessRequest : list Field :=
  [field_skip "db_handle" string_codec;
   field_skip "timeout_secs" u64_codec].

Definition DbgGetStateRequest : list Field :=
  [field_skip "db_handle" string_codec;
   field_skip "timeout_secs" u64_codec].

Definition DbgAddBreakpointRequest : list Field :=
  [field_skip "db_handle" string_codec;
   field "address" [] string_codec;
   field_skip "size" u64_codec;
   field_skip "bpt_type" string_codec;
   field_skip "condition" string_codec;
   field_skip "timeout_secs" u64_codec].

Definition DbgDelBreakpointRequest : list Field :=
  [field_skip "db_handle" string_codec;
   field "address" [] string_codec;
   field_skip "timeout_secs" u64_codec].

Definition DbgEnableBreakpointRequest : list Field :=
  [field_skip "db_handle" string_codec;
   field "address" [] string_codec;
   field_skip "enable" bool_codec;
   field_skip "timeout_secs" u64_codec].

Definition DbgListBreakpointsRequest : list Field :=
  [field_skip "db_handle" string_codec;
   field_skip "timeout_secs" u64_codec].

Definition DbgContinueRequest : list Field :=
  [field_skip "db_handle" string_codec;
   field_skip "timeout_secs" u64_codec].

Definition DbgStepIntoRequest : list Field :=
  [field_skip "db_handle" string_codec;
   field_skip "timeout_secs" u64_codec].

Definition DbgStepOverRequest : list Field :=
  [field_skip "db_handle" string_codec;
   field_skip "timeout_secs" u64_codec].

Definition DbgStepUntilRetRequest : list Field :=
  [field_skip "db_handle" string_codec;
   field_skip "timeout_secs" u64_codec].

Definition DbgRunToRequest : list Field :=
  [field_skip "db_handle" string_codec;
   field "address" [] string_codec;
   field_skip "timeout_secs" u64_codec].

Definition DbgGetRegistersRequest : list Field :=
  [field_skip "db_handle" string_codec;
   field_skip "register_names" (vec_codec string_codec);
   field_skip "timeout_secs" u64_codec].

Definition DbgSetRegisterRequest : list Field :=
  [field_skip "db_handle" string_codec;
   field "register_name" [] string_codec;
   field "value" [] string_codec;
   field_skip "timeout_secs" u64_codec].

Definition DbgReadMemoryRequest : list Field :=
  [field_skip "db_handle" string_codec;
   field "address" [] string_codec;
   field "size" [] u64_codec;
   field_skip "timeout_secs" u64_codec].

Definition DbgWriteMemoryRequest : list Field :=
  [field_skip "db_handle" string_codec;
   field "address" [] string_codec;
   field "data" [] string_codec;
   field_skip "timeout_secs" u64_codec].

Definition DbgGetMemoryInfoRequest : list Field :=
  [field_skip "db_handle" string_codec;
   field_skip "timeout_secs" u64_codec].

Definition DbgListThreadsRequest : list Field :=
  [field_skip "db_handle" string_codec;
   field_skip "timeout_secs" u64_codec].

Definition DbgSelectThreadRequest : list Field :=
  [field_skip "db_handle" string_codec;
   field "thread_id" [] u64_codec;
   field_skip "timeout_secs" u64_codec].

Definition DbgWaitEventRequest : list Field :=
  [field_skip "db_handle" string_codec;
   field_skip "timeout_secs" u64_codec;
   field_skip "flags" string_codec].

(** All of them, with their names. *)
Definition request_structs : list (string * list Field) :=
  [("OpenIdbRequest", OpenIdbRequest);
   ("CloseIdbRequest", CloseIdbRequest);
   ("LoadDebugInfoRequest", LoadDebugInfoRequest);
   ("EmptyParams", EmptyParams);
   ("ListFunctionsRequest", ListFunctionsRequest);
   ("AnalyzeFuncsRequest", AnalyzeFuncsRequest);
   ("ResolveFunctionRequest", ResolveFunctionRequest);
   ("GetFunctionPrototypeRequest", GetFunctionPrototypeRequest);
   ("SetFunctionPrototypeRequest", SetFunctionPrototypeRequest);
   ("AddrInfoRequest", AddrInfoRequest);
   ("FunctionAtRequest", FunctionAtRequest);
   ("DisasmFunctionAtRequest", DisasmFunctionAtRequest);
   ("DisasmRequest", DisasmRequest);
   ("DisasmByNameRequest", DisasmByNameRequest);
   ("DecompileRequest", DecompileRequest);
   ("DecompileStructuredRequest", DecompileStructuredRequest);
   ("BatchDecompileRequest", BatchDecompileRequest);
   ("SearchPseudocodeRequest", SearchPseudocodeRequest);
   ("TableScanRequest", TableScanRequest);
   ("DiffFunctionsRequest", DiffFunctionsRequest);
   ("ListStringsRequest", ListStringsRequest);
   ("StringsRequest", StringsRequest);
   ("FindStringRequest", FindStringRequest);
   ("XrefsToStringRequest", XrefsToStringRequest);
   ("LocalTypesRequest", LocalTypesRequest);
   ("DeclareTypeRequest", DeclareTypeRequest);
   ("StructsRequest", StructsRequest);
   ("StructInfoRequest", StructInfoRequest);
   ("ReadStructRequest", ReadStructRequest);
   ("ApplyTypesRequest", ApplyTypesRequest);
   ("InferTypesRequest", InferTypesRequest);
   ("DeclareStackRequest", DeclareStackRequest);
   ("DeleteStackRequest", DeleteStackRequest);
   ("RenameStackVariableRequest", RenameStackVariableRequest);
   ("SetStackVariableTypeRequest", SetStackVariableTypeRequest);
   ("ListEnumsRequest", ListEnumsRequest);
   ("CreateEnumRequest", CreateEnumRequest);
   ("XrefsToFieldRequest", XrefsToFieldRequest);
   ("AddressRequest", AddressRequest);
   ("GetBytesRequest", GetBytesRequest);
   ("SetCommentsRequest", SetCommentsRequest);
   ("SetFunctionCommentRequest", SetFunctionCommentRequest);
   ("RenameRequest", RenameRequest);
   ("BatchRenameEntry", BatchRenameEntry);
   ("BatchRenameRequest", BatchRenameRequest);
   ("RenameLvarRequest", RenameLvarRequest);
   ("SetLvarTypeRequest", SetLvarTypeRequest);
   ("SetDecompilerCommentRequest", SetDecompilerCommentRequest);
   ("PatchRequest", PatchRequest);
   ("PatchAsmRequest", PatchAsmRequest);
   ("PaginatedRequest", PaginatedRequest);
   ("LookupFuncsRequest", LookupFuncsRequest);
   ("ListGlobalsRequest", ListGlobalsRequest);
   ("AnalyzeStringsRequest", AnalyzeStringsRequest);
   ("FindBytesRequest", FindBytesRequest);
   ("SearchRequest", SearchRequest);
   ("FindInsnsRequest", FindInsnsRequest);
   ("FindInsnOperandsRequest", FindInsnOperandsRequest);
   ("FindPathsRequest", FindPathsRequest);
   ("CallGraphRequest", CallGraphRequest);
   ("XrefMatrixRequest", XrefMatrixRequest);
   ("ExportFuncsRequest", ExportFuncsRequest);
   ("GetStringRequest", GetStringRequest);
   ("GetGlobalValueRequest", GetGlobalValueRequest);
   ("IntConvertRequest", IntConvertRequest);
   ("PseudocodeAtRequest", PseudocodeAtRequest);
   ("ToolCatalogRequest", ToolCatalogRequest);
   ("ToolHelpRequest", ToolHelpRequest);
   ("RunScriptRequest", RunScriptRequest);
   ("TaskStatusRequest", TaskStatusRequest);
   ("OpenDscRequest", OpenDscRequest);
   ("OpenSbpfRequest", OpenSbpfRequest);
   ("DscAddDylibRequest", DscAddDylibRequest);
   ("DscAddRegionRequest", DscAddRegionRequest);
   ("DbgLoadDebuggerRequest", DbgLoadDebuggerRequest);
   ("DbgStartProcessRequest", DbgStartProcessRequest);
   ("DbgAttachProcessRequest", DbgAttachProcessRequest);
   ("DbgDetachProcessRequest", DbgDetachProcessRequest);
   ("DbgExitProcessRequest", DbgExitProcessRequest);
   ("DbgGetStateRequest", DbgGetStateRequest);
   ("DbgAddBreakpointRequest", DbgAddBreakpointRequest);
   ("DbgDelBreakpointRequest", DbgDelBreakpointRequest);
   ("DbgEnableBreakpointRequest", DbgEnableBreakpointRequest);
   ("DbgListBreakpointsRequest", DbgListBreakpointsRequest);
   ("DbgContinueRequest", DbgContinueRequest);
   ("DbgStepIntoRequest", DbgStepIntoRequest);
   ("DbgStepOverRequest", DbgStepOverRequest);
   ("DbgStepUntilRetRequest", DbgStepUntilRetRequest);
   ("DbgRunToRequest", DbgRunToRequest);
   ("DbgGetRegistersRequest", DbgGetRegistersRequest);
   ("DbgSetRegisterRequest", DbgSetRegisterRequest);
   ("DbgReadMemoryRequest", DbgReadMemoryRequest);
   ("DbgWriteMemoryRequest", DbgWriteMemoryRequest);
   ("DbgGetMemoryInfoRequest", DbgGetMemoryInfoRequest);
   ("DbgListThreadsRequest", DbgListThreadsRequest);
   ("DbgSelectThreadRequest", DbgSelectThreadRequest);
   ("DbgWaitEventRequest", DbgWaitEventRequest)].

Lemma request_schemas_ok : forallb (λ nf, schema_ok nf.2) request_structs = true.
Proof. vm_compute. reflexivity. Qed.


