(* ===== verification/IdaRequest.v ===== *)
(** * Requests to the IDA worker (src/ida/request.rs)

    The request enum of the worker, one constructor per variant with the variant's fields
    but the reply channel; what each variant answers; and the queue entry. *)

From Stdlib Require Import Ascii.
From stdpp Require Import base strings list numbers.
From S2P Require Import Prelude RustStr Json ToolError.

Inductive IdaRequest : Type :=
| Open (path : string) (load_debug_info : bool) (debug_info_path : option string)
    (debug_info_verbose : bool) (force : bool) (file_type : option string) (auto_analyse : bool)
    (extra_args : list string)
| Close
| LoadDebugInfo (path : option string) (verbose : bool)
| AnalysisStatus
| ListFunctions (offset : Z) (limit : Z) (filter : option string)
| ResolveFunction (name : string)
| GetFunctionPrototype (addr : option Z) (name : option string)
| DisasmByName (name : string) (count : Z)
| Disasm (addr : Z) (count : Z)
| Decompile (addr : Z)
| Segments
| Strings (offset : Z) (limit : Z) (filter : option string)
| LocalTypes (offset : Z) (limit : Z) (filter : option string)
| DeclareType (decl : string) (relaxed : bool) (replace : bool) (multi : bool)
| ApplyTypes (addr : option Z) (name : option string) (offset : Z) (stack_offset : option Z)
    (stack_name : option string) (decl : option string) (type_name : option string) (relaxed :
    bool) (delay : bool) (strict : bool)
| InferTypes (addr : option Z) (name : option string) (offset : Z)
| AddrInfo (addr : option Z) (name : option string) (offset : Z)
| FunctionAt (addr : option Z) (name : option string) (offset : Z)
| DisasmFunctionAt (addr : option Z) (name : option string) (offset : Z) (count : Z)
| DeclareStack (addr : option Z) (name : option string) (offset : Z) (var_name : option string)
    (decl : string) (relaxed : bool)
| DeleteStack (addr : option Z) (name : option string) (offset : option Z) (var_name : option
    string)
| StackFrame (addr : Z)
| Structs (offset : Z) (limit : Z) (filter : option string)
| StructInfo (ordinal : option Z) (name : option string)
| ReadStruct (addr : Z) (ordinal : option Z) (name : option string)
| XRefsTo (addr : Z)
| XRefsFrom (addr : Z)
| XRefsToField (ordinal : option Z) (name : option string) (member_index : option Z)
    (member_name : option string) (limit : Z)
| Imports (offset : Z) (limit : Z)
| Exports (offset : Z) (limit : Z)
| Entrypoints
| GetBytes (addr : option Z) (name : option string) (offset : Z) (size : Z)
| SetComments (addr : option Z) (name : option string) (offset : Z) (comment : string)
    (repeatable : bool)
| SetFunctionComment (addr : option Z) (name : option string) (comment : string) (repeatable :
    bool)
| Rename (addr : option Z) (current_name : option string) (new_name : string) (flags : Z)
| BatchRename (entries : list (option Z * option string * string))
| SetFunctionPrototype (addr : option Z) (name : option string) (prototype : string)
| RenameStackVariable (func_addr : option Z) (func_name : option string) (old_name : string)
    (new_name : string)
| SetStackVariableType (func_addr : option Z) (func_name : option string) (var_name : string)
    (type_decl : string)
| ListEnums (filter : option string) (offset : Z) (limit : Z)
| CreateEnum (decl : string) (replace : bool)
| PatchBytes (addr : option Z) (name : option string) (offset : Z) (bytes : list Z)
| PatchAsm (addr : option Z) (name : option string) (offset : Z) (line : string)
| BasicBlocks (addr : Z)
| Callees (addr : Z)
| Callers (addr : Z)
| IdbMeta
| LookupFunctions (queries : list string)
| ListGlobals (query : option string) (offset : Z) (limit : Z)
| AnalyzeStrings (query : option string) (offset : Z) (limit : Z)
| FindString (query : string) (exact : bool) (case_insensitive : bool) (offset : Z) (limit : Z)
| XrefsToString (query : string) (exact : bool) (case_insensitive : bool) (offset : Z) (limit :
    Z) (max_xrefs : Z)
| AnalyzeFuncs
| FindBytes (pattern : string) (max_results : Z)
| SearchText (text : string) (max_results : Z)
| SearchImm (imm : Z) (max_results : Z)
| FindInsns (patterns : list string) (max_results : Z) (case_insensitive : bool)
| FindInsnOperands (patterns : list string) (max_results : Z) (case_insensitive : bool)
| ReadInt (addr : Z) (size : Z)
| GetString (addr : Z) (max_len : Z)
| GetGlobalValue (query : string)
| FindPaths (start : Z) (end_ : Z) (max_paths : Z) (max_depth : Z)
| CallGraph (addr : Z) (max_depth : Z) (max_nodes : Z)
| XrefMatrix (addrs : list Z)
| ExportFuncs (offset : Z) (limit : Z)
| PseudocodeAt (addr : Z) (end_addr : option Z)
| SearchPseudocode (pattern : string) (limit : Z)
| RunScript (code : string)
| RenameLvar (func_addr : Z) (lvar_name : string) (new_name : string)
| SetLvarType (func_addr : Z) (lvar_name : string) (type_str : string)
| SetDecompilerComment (func_addr : Z) (addr : Z) (itp : Z) (comment : string)
| Shutdown.

(** [BytesResult] (src/ida/types.rs), whose bytes the dispatcher reads. *)
Record BytesResult : Type := {
  bytes_address : string;
  bytes : string;
  bytes_length : Z
}.

(** What the reply channel of a request carries besides errors.  The dispatcher only
    turns the result structs of src/ida/types.rs into JSON, so they are JSON here. *)
Definition reply (r : IdaRequest) : Type :=
  match r with
  | DisasmByName _ _ | Disasm _ _ | Decompile _ | DisasmFunctionAt _ _ _ _ => string
  | GetBytes _ _ _ _ => BytesResult
  | Close | Shutdown => ()
  | _ => Value
  end.

Definition type_name (r : IdaRequest) : string :=
  match r with
  | Open _ _ _ _ _ _ _ _ => "Open"
  | Close => "Close"
  | LoadDebugInfo _ _ => "LoadDebugInfo"
  | AnalysisStatus => "AnalysisStatus"
  | ListFunctions _ _ _ => "ListFunctions"
  | ResolveFunction _ => "ResolveFunction"
  | GetFunctionPrototype _ _ => "GetFunctionPrototype"
  | DisasmByName _ _ => "DisasmByName"
  | Disasm _ _ => "Disasm"
  | Decompile _ => "Decompile"
  | Segments => "Segments"
  | Strings _ _ _ => "Strings"
  | LocalTypes _ _ _ => "LocalTypes"
  | DeclareType _ _ _ _ => "DeclareType"
  | ApplyTypes _ _ _ _ _ _ _ _ _ _ => "ApplyTypes"
  | InferTypes _ _ _ => "InferTypes"
  | AddrInfo _ _ _ => "AddrInfo"
  | FunctionAt _ _ _ => "FunctionAt"
  | DisasmFunctionAt _ _ _ _ => "DisasmFunctionAt"
  | DeclareStack _ _ _ _ _ _ => "DeclareStack"
  | DeleteStack _ _ _ _ => "DeleteStack"
  | StackFrame _ => "StackFrame"
  | Structs _ _ _ => "Structs"
  | StructInfo _ _ => "StructInfo"
  | ReadStruct _ _ _ => "ReadStruct"
  | XRefsTo _ => "XRefsTo"
  | XRefsFrom _ => "XRefsFrom"
  | XRefsToField _ _ _ _ _ => "XRefsToField"
  | Imports _ _ => "Imports"
  | Exports _ _ => "Exports"
  | Entrypoints => "Entrypoints"
  | GetBytes _ _ _ _ => "GetBytes"
  | SetComments _ _ _ _ _ => "SetComments"
  | SetFunctionComment _ _ _ _ => "SetFunctionComment"
  | Rename _ _ _ _ => "Rename"
  | BatchRename _ => "BatchRename"
  | SetFunctionPrototype _ _ _ => "SetFunctionPrototype"
  | RenameStackVariable _ _ _ _ => "RenameStackVariable"
  | SetStackVariableType _ _ _ _ => "SetStackVariableType"
  | ListEnums _ _ _ => "ListEnums"
  | CreateEnum _ _ => "CreateEnum"
  | PatchBytes _ _ _ _ => "PatchBytes"
  | PatchAsm _ _ _ _ => "PatchAsm"
  | BasicBlocks _ => "BasicBlocks"
  | Callees _ => "Callees"
  | Callers _ => "Callers"
  | IdbMeta => "IdbMeta"
  | LookupFunctions _ => "LookupFunctions"
  | ListGlobals _ _ _ => "ListGlobals"
  | AnalyzeStrings _ _ _ => "AnalyzeStrings"
  | FindString _ _ _ _ _ => "FindString"
  | XrefsToString _ _ _ _ _ _ => "XrefsToString"
  | AnalyzeFuncs => "AnalyzeFuncs"
  | FindBytes _ _ => "FindBytes"
  | SearchText _ _ => "SearchText"
  | SearchImm _ _ => "SearchImm"
  | FindInsns _ _ _ => "FindInsns"
  | FindInsnOperands _ _ _ => "FindInsnOperands"
  | ReadInt _ _ => "ReadInt"
  | GetString _ _ => "GetString"
  | GetGlobalValue _ => "GetGlobalValue"
  | FindPaths _ _ _ _ => "FindPaths"
  | CallGraph _ _ _ => "CallGraph"
  | XrefMatrix _ => "XrefMatrix"
  | ExportFuncs _ _ => "ExportFuncs"
  | PseudocodeAt _ _ => "PseudocodeAt"
  | SearchPseudocode _ _ => "SearchPseudocode"
  | RunScript _ => "RunScript"
  | RenameLvar _ _ _ => "RenameLvar"
  | SetLvarType _ _ _ => "SetLvarType"
  | SetDecompilerComment _ _ _ _ => "SetDecompilerComment"
  | Shutdown => "Shutdown"
  end.

Definition is_control (r : IdaRequest) : bool :=
  match r with Close | Shutdown => true | _ => false end.
