(* ===== verification/IdaWorker.v ===== *)
(** * The handle of the IDA worker (src/ida/worker.rs, src/ida/worker_trait.rs)

    Every method of [WorkerDispatch] as [IdaWorker] implements it: the request that it
    builds, how it is put on the worker's queue and how its reply is awaited.  What
    happens to the call is in [WorkerLoop]; the dispatcher of [RpcDispatch] is generic
    in what answers it. *)

From Stdlib Require Import Ascii.
From stdpp Require Import base strings list numbers.
From S2P Require Import Prelude RustStr Json ToolError IdaRequest.

(** Constants of the source, in seconds and milliseconds. *)
Definition DEFAULT_TIMEOUT_SECS : Z := 120.
Definition MAX_TIMEOUT_SECS : Z := 600.
Definition CLOSE_SEND_TIMEOUT_SECS : Z := 5.
Definition CONTROL_SEND_BACKOFF_MS : Z := 25.

(** [try_send], or [send_with_retry] with its longest wait. *)
Inductive SendMode : Type :=
| TrySend
| SendRetry (max_wait : option Z).

(** [rx.await?], [recv_with_timeout], or no reply channel. *)
Inductive RecvMode : Type :=
| RecvAwait
| RecvTimeout (timeout_secs : option Z)
| NoReply.

Record WorkerCall : Type := {
  wc_request : IdaRequest;
  wc_send : SendMode;
  wc_recv : RecvMode
}.

(** The wait of [recv_with_timeout], in seconds. *)
Definition recv_timeout (timeout_secs : option Z) : Z :=
  Z.min (default DEFAULT_TIMEOUT_SECS timeout_secs) MAX_TIMEOUT_SECS.

Module Worker.
Definition open (path : string) (load_debug_info : bool) (debug_info_path : option string)
    (debug_info_verbose : bool) (force : bool) (file_type : option string) (auto_analyse : bool)
    (extra_args : list string) : WorkerCall :=
  {| wc_request := Open path load_debug_info debug_info_path debug_info_verbose force file_type
     auto_analyse extra_args; wc_send := TrySend; wc_recv := RecvAwait |}.

Definition close : WorkerCall :=
  {| wc_request := Close; wc_send := SendRetry (Some CLOSE_SEND_TIMEOUT_SECS); wc_recv :=
     RecvAwait |}.

Definition close_for_shutdown : WorkerCall :=
  {| wc_request := Close; wc_send := SendRetry None; wc_recv := RecvAwait |}.

Definition load_debug_info (path : option string) (verbose : bool) : WorkerCall :=
  {| wc_request := LoadDebugInfo path verbose; wc_send := TrySend; wc_recv := RecvAwait |}.

Definition analysis_status : WorkerCall :=
  {| wc_request := AnalysisStatus; wc_send := TrySend; wc_recv := RecvAwait |}.

Definition shutdown : WorkerCall :=
  {| wc_request := Shutdown; wc_send := SendRetry None; wc_recv := NoReply |}.

Definition list_functions (offset : Z) (limit : Z) (filter : option string) (timeout_secs :
    option Z) : WorkerCall :=
  {| wc_request := ListFunctions offset limit filter; wc_send := TrySend; wc_recv := RecvTimeout
     timeout_secs |}.

Definition resolve_function (name : string) : WorkerCall :=
  {| wc_request := ResolveFunction name; wc_send := TrySend; wc_recv := RecvAwait |}.

Definition get_function_prototype (addr : option Z) (name : option string) : WorkerCall :=
  {| wc_request := GetFunctionPrototype addr name; wc_send := TrySend; wc_recv := RecvAwait |}.

Definition disasm_by_name (name : string) (count : Z) : WorkerCall :=
  {| wc_request := DisasmByName name count; wc_send := TrySend; wc_recv := RecvAwait |}.

Definition disasm (addr : Z) (count : Z) : WorkerCall :=
  {| wc_request := Disasm addr count; wc_send := TrySend; wc_recv := RecvAwait |}.

Definition decompile (addr : Z) : WorkerCall :=
  {| wc_request := Decompile addr; wc_send := TrySend; wc_recv := RecvAwait |}.

Definition segments : WorkerCall :=
  {| wc_request := Segments; wc_send := TrySend; wc_recv := RecvAwait |}.

Definition strings (offset : Z) (limit : Z) (filter : option string) (timeout_secs : option Z) :
    WorkerCall :=
  {| wc_request := Strings offset limit filter; wc_send := TrySend; wc_recv := RecvTimeout
     timeout_secs |}.

Definition local_types (offset : Z) (limit : Z) (filter : option string) (timeout_secs : option
    Z) : WorkerCall :=
  {| wc_request := LocalTypes offset limit filter; wc_send := TrySend; wc_recv := RecvTimeout
     timeout_secs |}.

Definition declare_type (decl : string) (relaxed : bool) (replace : bool) (multi : bool) :
    WorkerCall :=
  {| wc_request := DeclareType decl relaxed replace multi; wc_send := TrySend; wc_recv :=
     RecvAwait |}.

Definition apply_types (addr : option Z) (name : option string) (offset : Z) (stack_offset :
    option Z) (stack_name : option string) (decl : option string) (type_name : option string)
    (relaxed : bool) (delay : bool) (strict : bool) : WorkerCall :=
  {| wc_request := ApplyTypes addr name offset stack_offset stack_name decl type_name relaxed
     delay strict; wc_send := TrySend; wc_recv := RecvAwait |}.

Definition infer_types (addr : option Z) (name : option string) (offset : Z) : WorkerCall :=
  {| wc_request := InferTypes addr name offset; wc_send := TrySend; wc_recv := RecvAwait |}.

Definition set_function_prototype (addr : option Z) (name : option string) (prototype : string)
    : WorkerCall :=
  {| wc_request := SetFunctionPrototype addr name prototype; wc_send := TrySend; wc_recv :=
     RecvAwait |}.

Definition list_enums (filter : option string) (offset : Z) (limit : Z) : WorkerCall :=
  {| wc_request := ListEnums filter offset limit; wc_send := TrySend; wc_recv := RecvAwait |}.

Definition create_enum (decl : string) (replace : bool) : WorkerCall :=
  {| wc_request := CreateEnum decl replace; wc_send := TrySend; wc_recv := RecvAwait |}.

Definition addr_info (addr : option Z) (name : option string) (offset : Z) : WorkerCall :=
  {| wc_request := AddrInfo addr name offset; wc_send := TrySend; wc_recv := RecvAwait |}.

Definition function_at (addr : option Z) (name : option string) (offset : Z) : WorkerCall :=
  {| wc_request := FunctionAt addr name offset; wc_send := TrySend; wc_recv := RecvAwait |}.

Definition disasm_function_at (addr : option Z) (name : option string) (offset : Z) (count : Z)
    : WorkerCall :=
  {| wc_request := DisasmFunctionAt addr name offset count; wc_send := TrySend; wc_recv :=
     RecvAwait |}.

Definition declare_stack (addr : option Z) (name : option string) (offset : Z) (var_name :
    option string) (decl : string) (relaxed : bool) : WorkerCall :=
  {| wc_request := DeclareStack addr name offset var_name decl relaxed; wc_send := TrySend;
     wc_recv := RecvAwait |}.

Definition delete_stack (addr : option Z) (name : option string) (offset : option Z) (var_name :
    option string) : WorkerCall :=
  {| wc_request := DeleteStack addr name offset var_name; wc_send := TrySend; wc_recv :=
     RecvAwait |}.

Definition stack_frame (addr : Z) : WorkerCall :=
  {| wc_request := StackFrame addr; wc_send := TrySend; wc_recv := RecvAwait |}.

Definition rename_stack_variable (func_addr : option Z) (func_name : option string) (old_name :
    string) (new_name : string) : WorkerCall :=
  {| wc_request := RenameStackVariable func_addr func_name old_name new_name; wc_send :=
     TrySend; wc_recv := RecvAwait |}.

Definition set_stack_variable_type (func_addr : option Z) (func_name : option string) (var_name
    : string) (type_decl : string) : WorkerCall :=
  {| wc_request := SetStackVariableType func_addr func_name var_name type_decl; wc_send :=
     TrySend; wc_recv := RecvAwait |}.

Definition structs (offset : Z) (limit : Z) (filter : option string) (timeout_secs : option Z) :
    WorkerCall :=
  {| wc_request := Structs offset limit filter; wc_send := TrySend; wc_recv := RecvTimeout
     timeout_secs |}.

Definition struct_info (ordinal : option Z) (name : option string) : WorkerCall :=
  {| wc_request := StructInfo ordinal name; wc_send := TrySend; wc_recv := RecvAwait |}.

Definition read_struct (addr : Z) (ordinal : option Z) (name : option string) : WorkerCall :=
  {| wc_request := ReadStruct addr ordinal name; wc_send := TrySend; wc_recv := RecvAwait |}.

Definition xrefs_to (addr : Z) : WorkerCall :=
  {| wc_request := XRefsTo addr; wc_send := TrySend; wc_recv := RecvAwait |}.

Definition xrefs_from (addr : Z) : WorkerCall :=
  {| wc_request := XRefsFrom addr; wc_send := TrySend; wc_recv := RecvAwait |}.

Definition xrefs_to_field (ordinal : option Z) (name : option string) (member_index : option Z)
    (member_name : option string) (limit : Z) : WorkerCall :=
  {| wc_request := XRefsToField ordinal name member_index member_name limit; wc_send := TrySend;
     wc_recv := RecvAwait |}.

Definition imports (offset : Z) (limit : Z) : WorkerCall :=
  {| wc_request := Imports offset limit; wc_send := TrySend; wc_recv := RecvAwait |}.

Definition exports (offset : Z) (limit : Z) : WorkerCall :=
  {| wc_request := Exports offset limit; wc_send := TrySend; wc_recv := RecvAwait |}.

Definition entrypoints : WorkerCall :=
  {| wc_request := Entrypoints; wc_send := TrySend; wc_recv := RecvAwait |}.

Definition get_bytes (addr : option Z) (name : option string) (offset : Z) (size : Z) :
    WorkerCall :=
  {| wc_request := GetBytes addr name offset size; wc_send := TrySend; wc_recv := RecvAwait |}.

Definition set_comments (addr : option Z) (name : option string) (offset : Z) (comment : string)
    (repeatable : bool) : WorkerCall :=
  {| wc_request := SetComments addr name offset comment repeatable; wc_send := TrySend; wc_recv
     := RecvAwait |}.

Definition set_function_comment (addr : option Z) (name : option string) (comment : string)
    (repeatable : bool) : WorkerCall :=
  {| wc_request := SetFunctionComment addr name comment repeatable; wc_send := TrySend; wc_recv
     := RecvAwait |}.

Definition rename (addr : option Z) (current_name : option string) (new_name : string) (flags :
    Z) : WorkerCall :=
  {| wc_request := Rename addr current_name new_name flags; wc_send := TrySend; wc_recv :=
     RecvAwait |}.

Definition batch_rename (entries : list (option Z * option string * string)) : WorkerCall :=
  {| wc_request := BatchRename entries; wc_send := TrySend; wc_recv := RecvAwait |}.

Definition rename_lvar (func_addr : Z) (lvar_name : string) (new_name : string) : WorkerCall :=
  {| wc_request := RenameLvar func_addr lvar_name new_name; wc_send := TrySend; wc_recv :=
     RecvAwait |}.

Definition set_lvar_type (func_addr : Z) (lvar_name : string) (type_str : string) : WorkerCall
    :=
  {| wc_request := SetLvarType func_addr lvar_name type_str; wc_send := TrySend; wc_recv :=
     RecvAwait |}.

Definition set_decompiler_comment (func_addr : Z) (addr : Z) (itp : Z) (comment : string) :
    WorkerCall :=
  {| wc_request := SetDecompilerComment func_addr addr itp comment; wc_send := TrySend; wc_recv
     := RecvAwait |}.

Definition patch_bytes (addr : option Z) (name : option string) (offset : Z) (bytes : list Z) :
    WorkerCall :=
  {| wc_request := PatchBytes addr name offset bytes; wc_send := TrySend; wc_recv := RecvAwait
     |}.

Definition patch_asm (addr : option Z) (name : option string) (offset : Z) (line : string) :
    WorkerCall :=
  {| wc_request := PatchAsm addr name offset line; wc_send := TrySend; wc_recv := RecvAwait |}.

Definition basic_blocks (addr : Z) : WorkerCall :=
  {| wc_request := BasicBlocks addr; wc_send := TrySend; wc_recv := RecvAwait |}.

Definition callees (addr : Z) : WorkerCall :=
  {| wc_request := Callees addr; wc_send := TrySend; wc_recv := RecvAwait |}.

Definition callers (addr : Z) : WorkerCall :=
  {| wc_request := Callers addr; wc_send := TrySend; wc_recv := RecvAwait |}.

Definition idb_meta : WorkerCall :=
  {| wc_request := IdbMeta; wc_send := TrySend; wc_recv := RecvAwait |}.

Definition lookup_funcs (queries : list string) : WorkerCall :=
  {| wc_request := LookupFunctions queries; wc_send := TrySend; wc_recv := RecvAwait |}.

Definition list_globals (query : option string) (offset : Z) (limit : Z) (timeout_secs : option
    Z) : WorkerCall :=
  {| wc_request := ListGlobals query offset limit; wc_send := TrySend; wc_recv := RecvTimeout
     timeout_secs |}.

Definition analyze_strings (query : option string) (offset : Z) (limit : Z) (timeout_secs :
    option Z) : WorkerCall :=
  {| wc_request := AnalyzeStrings query offset limit; wc_send := TrySend; wc_recv := RecvTimeout
     timeout_secs |}.

Definition find_string (query : string) (exact : bool) (case_insensitive : bool) (offset : Z)
    (limit : Z) (timeout_secs : option Z) : WorkerCall :=
  {| wc_request := FindString query exact case_insensitive offset limit; wc_send := TrySend;
     wc_recv := RecvTimeout timeout_secs |}.

Definition xrefs_to_string (query : string) (exact : bool) (case_insensitive : bool) (offset :
    Z) (limit : Z) (max_xrefs : Z) (timeout_secs : option Z) : WorkerCall :=
  {| wc_request := XrefsToString query exact case_insensitive offset limit max_xrefs; wc_send :=
     TrySend; wc_recv := RecvTimeout timeout_secs |}.

Definition analyze_funcs (timeout_secs : option Z) : WorkerCall :=
  {| wc_request := AnalyzeFuncs; wc_send := TrySend; wc_recv := RecvTimeout timeout_secs |}.

Definition find_bytes (pattern : string) (max_results : Z) (timeout_secs : option Z) :
    WorkerCall :=
  {| wc_request := FindBytes pattern max_results; wc_send := TrySend; wc_recv := RecvTimeout
     timeout_secs |}.

Definition search_text (text : string) (max_results : Z) (timeout_secs : option Z) : WorkerCall
    :=
  {| wc_request := SearchText text max_results; wc_send := TrySend; wc_recv := RecvTimeout
     timeout_secs |}.

Definition search_imm (imm : Z) (max_results : Z) (timeout_secs : option Z) : WorkerCall :=
  {| wc_request := SearchImm imm max_results; wc_send := TrySend; wc_recv := RecvTimeout
     timeout_secs |}.

Definition find_insns (patterns : list string) (max_results : Z) (case_insensitive : bool)
    (timeout_secs : option Z) : WorkerCall :=
  {| wc_request := FindInsns patterns max_results case_insensitive; wc_send := TrySend; wc_recv
     := RecvTimeout timeout_secs |}.

Definition find_insn_operands (patterns : list string) (max_results : Z) (case_insensitive :
    bool) (timeout_secs : option Z) : WorkerCall :=
  {| wc_request := FindInsnOperands patterns max_results case_insensitive; wc_send := TrySend;
     wc_recv := RecvTimeout timeout_secs |}.

Definition read_int (addr : Z) (size : Z) : WorkerCall :=
  {| wc_request := ReadInt addr size; wc_send := TrySend; wc_recv := RecvAwait |}.

Definition get_string (addr : Z) (max_len : Z) : WorkerCall :=
  {| wc_request := GetString addr max_len; wc_send := TrySend; wc_recv := RecvAwait |}.

Definition get_global_value (query : string) : WorkerCall :=
  {| wc_request := GetGlobalValue query; wc_send := TrySend; wc_recv := RecvAwait |}.

Definition find_paths (start : Z) (end_ : Z) (max_paths : Z) (max_depth : Z) : WorkerCall :=
  {| wc_request := FindPaths start end_ max_paths max_depth; wc_send := TrySend; wc_recv :=
     RecvAwait |}.

Definition callgraph (addr : Z) (max_depth : Z) (max_nodes : Z) : WorkerCall :=
  {| wc_request := CallGraph addr max_depth max_nodes; wc_send := TrySend; wc_recv := RecvAwait
     |}.

Definition xref_matrix (addrs : list Z) : WorkerCall :=
  {| wc_request := XrefMatrix addrs; wc_send := TrySend; wc_recv := RecvAwait |}.

Definition export_funcs (offset : Z) (limit : Z) : WorkerCall :=
  {| wc_request := ExportFuncs offset limit; wc_send := TrySend; wc_recv := RecvAwait |}.

Definition search_pseudocode (pattern : string) (limit : Z) (timeout_secs : option Z) :
    WorkerCall :=
  {| wc_request := SearchPseudocode pattern limit; wc_send := TrySend; wc_recv := RecvTimeout
     timeout_secs |}.

Definition run_script (code : string) (timeout_secs : option Z) : WorkerCall :=
  {| wc_request := RunScript code; wc_send := TrySend; wc_recv := RecvTimeout timeout_secs |}.

Definition pseudocode_at (addr : Z) (end_addr : option Z) : WorkerCall :=
  {| wc_request := PseudocodeAt addr end_addr; wc_send := TrySend; wc_recv := RecvAwait |}.
End Worker.
