(* ===== verification/RpcDispatch.v ===== *)
(** * The RPC dispatcher (src/rpc_dispatch.rs, [dispatch_rpc])

    [dispatch_rpc] resolves the method name, reads the parameters, calls the worker and
    shapes the answer.  It is generic in the worker, as in the source: [worker] answers
    a call of [WorkerDispatch] and may change its state, and one definition per match arm
    is a program over it.  [dispatch_table] is the match.

    Parameters: [serde_json]'s parser and printer, the text of a serde error, and the
    decimal text of a binary64 number. *)

From Stdlib Require Import Ascii.
From stdpp Require Import base strings numbers list.
From S2P Require Import ToolRegistry.
From S2P Require Import Prelude RustStr Json ToolError Protocol Parse.
From S2P Require Import Serde ToolRequests IdaRequest IdaWorker F64.

Open Scope ida_scope.

Section dispatch.
Context {S : Type}.
Context (worker : ∀ c : WorkerCall, S → result (reply (wc_request c)) ToolError * S).
Context (json_parse : string → option Value) (json_display : Value → string).
Context (de_message : DeError → string) (f64_text : f64 → string).

(** ** Programs that call the worker *)

Definition Rpc (A : Type) : Type := S → result A ToolError * S.

Definition rpc_ret {A} (a : A) : Rpc A := λ s, (Ok a, s).
Definition rpc_fail {A} (e : ToolError) : Rpc A := λ s, (Err e, s).
Definition rpc_lift {A} (r : result A ToolError) : Rpc A := λ s, (r, s).

Definition rpc_bind {A B} (m : Rpc A) (f : A → Rpc B) : Rpc B := λ s,
  match m s with
  | (Ok a, s) => f a s
  | (Err e, s) => (Err e, s)
  end.

(** The outcome of a call as a value, for the arms that match on it. *)
Definition rpc_try {A} (m : Rpc A) : Rpc (result A ToolError) := λ s,
  let '(r, s) := m s in (Ok r, s).

Notation "'let!' x := m 'in' k" := (rpc_bind m (λ x, k))
  (at level 10, x pattern, m at level 200, k at level 200).

(** A loop over a list that may stop early: [f] gives the next state and whether to go on. *)
Fixpoint rpc_for {A B} (f : B → A → Rpc (B * bool)) (b : B) (l : list A) : Rpc B :=
  match l with
  | [] => rpc_ret b
  | x :: l => let! r := f b x in if r.2 then rpc_for f r.1 l else rpc_ret r.1
  end.

(** ** Reading parameters *)

Definition parse_params (name : string) (fs : list Field) (p : Value) : Rpc (Struct fs) :=
  rpc_lift (match de_struct name fs p with
            | Ok r => Ok r
            | Err e => Err (InvalidParams ("invalid params: " +:+ de_message e))
            end).

(** [req.address.as_ref().and_then(parse_address_value)] *)
Definition opt_addr (o : option Value) : option Z := o ≫= parse_address_value.

(** [parse_address_value(&v).unwrap_or(0)] *)
Definition addr_or_zero (v : Value) : Z := default 0%Z (parse_address_value v).

Definition ok_true : Value := obj [("ok", Bool true)].

(** ** Database management *)

Definition rpc_open (p : Value) : Rpc Value :=
  let path := default "" (as_str (index p "path")) in
  let auto_analyse := default true (as_bool (index p "auto_analyse")) in
  let load_debug_info := default false (as_bool (index p "load_debug_info")) in
  let debug_info_path := as_str (index p "debug_info_path") in
  let debug_info_verbose := default false (as_bool (index p "debug_info_verbose")) in
  let force := default false (as_bool (index p "force")) in
  let file_type := as_str (index p "file_type") in
  let extra_args := parse_string_list (index p "extra_args") in
  worker (Worker.open path load_debug_info debug_info_path debug_info_verbose force
            file_type auto_analyse extra_args).

Definition rpc_close (_ : Value) : Rpc Value :=
  let! _ := worker Worker.close in rpc_ret ok_true.

Definition rpc_shutdown (_ : Value) : Rpc Value :=
  let! _ := worker Worker.shutdown in rpc_ret ok_true.

Definition rpc_load_debug_info (p : Value) : Rpc Value :=
  let! req := parse_params "LoadDebugInfoRequest" LoadDebugInfoRequest p in
  worker (Worker.load_debug_info (req @ "path") (default false (req @ "verbose"))).

Definition rpc_get_analysis_status (_ : Value) : Rpc Value := worker Worker.analysis_status.

(** ** Functions *)

Definition rpc_list_functions (p : Value) : Rpc Value :=
  let! req := parse_params "ListFunctionsRequest" ListFunctionsRequest p in
  worker (Worker.list_functions (default 0%Z (req @ "offset")) (default 100%Z (req @ "limit"))
            (req @ "filter") (req @ "timeout_secs")).

Definition rpc_get_function_by_name (p : Value) : Rpc Value :=
  let! req := parse_params "ResolveFunctionRequest" ResolveFunctionRequest p in
  worker (Worker.resolve_function (req @ "name")).

Definition rpc_get_function_prototype (p : Value) : Rpc Value :=
  worker (Worker.get_function_prototype (parse_address_value (index p "address"))
            (as_str (index p "name"))).

Definition rpc_get_function_at_address (p : Value) : Rpc Value :=
  let! req := parse_params "FunctionAtRequest" FunctionAtRequest p in
  worker (Worker.function_at (opt_addr (req @ "address")) (req @ "target_name")
            (default 0%Z (req @ "offset"))).

Definition rpc_batch_lookup_functions (p : Value) : Rpc Value :=
  let! req := parse_params "LookupFuncsRequest" LookupFuncsRequest p in
  worker (Worker.lookup_funcs (parse_string_list (req @ "queries"))).

Definition rpc_export_functions (p : Value) : Rpc Value :=
  let! req := parse_params "ExportFuncsRequest" ExportFuncsRequest p in
  worker (Worker.export_funcs (default 0%Z (req @ "offset")) (default 100%Z (req @ "limit"))).

(** ** Disassembly and decompilation *)

(** The answer for several addresses: each one's text or its own error. *)
Definition per_address (key : string) (call : Z → Rpc string) (addrs : list Z) : Rpc Value :=
  let! results := rpc_for (λ results addr,
    let! r := rpc_try (call addr) in
    rpc_ret (results ++
      [obj [("address", VString (fmt_hex_alt addr));
            match r with
            | Ok text => (key, VString text)
            | Err e => ("error", VString (error_to_string e))
            end]], true)) [] addrs in
  rpc_ret (obj [("results", Array results)]).

Definition rpc_disassemble (p : Value) : Rpc Value :=
  let! req := parse_params "DisasmRequest" DisasmRequest p in
  let! addrs := rpc_lift (parse_address_values json_display (req @ "address")) in
  let count := default 10%Z (req @ "count") in
  match addrs with
  | [addr] =>
      let! r := worker (Worker.disasm addr count) in
      rpc_ret (obj [("disasm", VString r)])
  | _ => per_address "disasm" (λ addr, worker (Worker.disasm addr count)) addrs
  end.

Definition rpc_disassemble_function (p : Value) : Rpc Value :=
  let! req := parse_params "DisasmByNameRequest" DisasmByNameRequest p in
  let! r := worker (Worker.disasm_by_name (req @ "name") (default 10%Z (req @ "count"))) in
  rpc_ret (obj [("disasm", VString r)]).

Definition rpc_disassemble_function_at (p : Value) : Rpc Value :=
  let! req := parse_params "DisasmFunctionAtRequest" DisasmFunctionAtRequest p in
  let! r := worker (Worker.disasm_function_at (opt_addr (req @ "address")) (req @ "target_name")
              (default 0%Z (req @ "offset")) (default 200%Z (req @ "count"))) in
  rpc_ret (obj [("disasm", VString r)]).

(** The first line that looks like a signature names a function nobody has named. *)
Definition has_unknown_name (r : string) : bool :=
  match find (λ line,
    let t := trim line in
    negb (bool_decide (t = "")) && negb (starts_with "//" t) && negb (starts_with "/*" t) &&
    contains "(" t) (lines r) with
  | Some sig => contains "sub_" sig || contains "nullsub_" sig || contains "j_sub_" sig
  | None => false
  end.

Definition rename_hint : string :=
  "💡 If you understand this function's purpose, immediately call rename_symbol to rename it before proceeding."
  +:+ newline +:+ newline.

Definition rpc_decompile_function (p : Value) : Rpc Value :=
  let! req := parse_params "DecompileRequest" DecompileRequest p in
  let! addrs := rpc_lift (parse_address_values json_display (req @ "address")) in
  match addrs with
  | [addr] =>
      let! r := worker (Worker.decompile addr) in
      rpc_ret (obj [("code", VString (if has_unknown_name r then rename_hint +:+ r else r))])
  | _ => per_address "code" (λ addr, worker (Worker.decompile addr)) addrs
  end.

Definition rpc_get_pseudocode_at (p : Value) : Rpc Value :=
  let! req := parse_params "PseudocodeAtRequest" PseudocodeAtRequest p in
  worker (Worker.pseudocode_at (addr_or_zero (req @ "address"))
            ((req @ "end_address") ≫= λ s, parse_address_value (VString s))).

(** ** Segments and strings *)

Definition rpc_list_segments (_ : Value) : Rpc Value := worker Worker.segments.

Definition rpc_list_strings (p : Value) : Rpc Value :=
  let query := match as_str (index p "query") with
               | Some q => Some q
               | None => as_str (index p "filter")
               end in
  let exact := default false (as_bool (index p "exact")) in
  let case_insensitive := default true (as_bool (index p "case_insensitive")) in
  let offset := default 0%Z (as_u64 (index p "offset")) in
  let limit := default 100%Z (as_u64 (index p "limit")) in
  let timeout := as_u64 (index p "timeout_secs") in
  match query with
  | Some q => worker (Worker.find_string q exact case_insensitive offset limit timeout)
  | None => worker (Worker.strings offset limit None timeout)
  end.

Definition rpc_get_xrefs_to_string (p : Value) : Rpc Value :=
  let! req := parse_params "XrefsToStringRequest" XrefsToStringRequest p in
  worker (Worker.xrefs_to_string (req @ "query") (default false (req @ "exact"))
            (default true (req @ "case_insensitive")) (default 0%Z (req @ "offset"))
            (default 100%Z (req @ "limit")) (default 10%Z (req @ "max_xrefs"))
            (req @ "timeout_secs")).

(** ** Types *)

Definition rpc_list_local_types (p : Value) : Rpc Value :=
  let! req := parse_params "LocalTypesRequest" LocalTypesRequest p in
  worker (Worker.local_types (default 0%Z (req @ "offset")) (default 100%Z (req @ "limit"))
            (req @ "filter") (req @ "timeout_secs")).

Definition rpc_declare_c_type (p : Value) : Rpc Value :=
  let! req := parse_params "DeclareTypeRequest" DeclareTypeRequest p in
  worker (Worker.declare_type (req @ "decl") (default false (req @ "relaxed"))
            (default false (req @ "replace")) (default false (req @ "multi"))).

Definition rpc_apply_type (p : Value) : Rpc Value :=
  let! req := parse_params "ApplyTypesRequest" ApplyTypesRequest p in
  worker (Worker.apply_types (opt_addr (req @ "address")) (req @ "target_name")
            (default 0%Z (req @ "offset")) (req @ "stack_offset") (req @ "stack_name")
            (req @ "decl") (req @ "type_name") (default false (req @ "relaxed"))
            (default false (req @ "delay")) (default false (req @ "strict"))).

Definition rpc_infer_type (p : Value) : Rpc Value :=
  let! req := parse_params "InferTypesRequest" InferTypesRequest p in
  worker (Worker.infer_types (opt_addr (req @ "address")) (req @ "target_name")
            (default 0%Z (req @ "offset"))).

Definition rpc_set_function_prototype (p : Value) : Rpc Value :=
  let! req := parse_params "SetFunctionPrototypeRequest" SetFunctionPrototypeRequest p in
  worker (Worker.set_function_prototype (opt_addr (req @ "address")) (req @ "name")
            (req @ "prototype")).

Definition rpc_rename_stack_variable (p : Value) : Rpc Value :=
  let! req := parse_params "RenameStackVariableRequest" RenameStackVariableRequest p in
  worker (Worker.rename_stack_variable (opt_addr (req @ "func_address")) (req @ "func_name")
            (req @ "name") (req @ "new_name")).

Definition rpc_set_stack_variable_type (p : Value) : Rpc Value :=
  let! req := parse_params "SetStackVariableTypeRequest" SetStackVariableTypeRequest p in
  worker (Worker.set_stack_variable_type (opt_addr (req @ "func_address")) (req @ "func_name")
            (req @ "name") (req @ "type_decl")).

Definition rpc_list_enums (p : Value) : Rpc Value :=
  let! req := parse_params "ListEnumsRequest" ListEnumsRequest p in
  worker (Worker.list_enums (req @ "filter") (default 0%Z (req @ "offset"))
            (default 100%Z (req @ "limit"))).

Definition rpc_create_enum (p : Value) : Rpc Value :=
  let! req := parse_params "CreateEnumRequest" CreateEnumRequest p in
  worker (Worker.create_enum (req @ "decl") (default false (req @ "replace"))).

Definition rpc_get_address_info (p : Value) : Rpc Value :=
  let! req := parse_params "AddrInfoRequest" AddrInfoRequest p in
  worker (Worker.addr_info (opt_addr (req @ "address")) (req @ "target_name")
            (default 0%Z (req @ "offset"))).

(** ** Stack frames *)

Definition rpc_create_stack_variable (p : Value) : Rpc Value :=
  let! req := parse_params "DeclareStackRequest" DeclareStackRequest p in
  worker (Worker.declare_stack (opt_addr (req @ "address")) (req @ "target_name")
            (req @ "offset") (req @ "var_name") (req @ "decl") (default false (req @ "relaxed"))).

Definition rpc_delete_stack_variable (p : Value) : Rpc Value :=
  let! req := parse_params "DeleteStackRequest" DeleteStackRequest p in
  worker (Worker.delete_stack (opt_addr (req @ "address")) (req @ "target_name")
            (req @ "offset") (req @ "var_name")).

Definition rpc_get_stack_frame (p : Value) : Rpc Value :=
  let! req := parse_params "AddressRequest" AddressRequest p in
  worker (Worker.stack_frame (addr_or_zero (req @ "address"))).

(** ** Structs *)

Definition rpc_list_structs (p : Value) : Rpc Value :=
  let! req := parse_params "StructsRequest" StructsRequest p in
  worker (Worker.structs (default 0%Z (req @ "offset")) (default 100%Z (req @ "limit"))
            (req @ "filter") (req @ "timeout_secs")).

Definition rpc_get_struct_info (p : Value) : Rpc Value :=
  let! req := parse_params "StructInfoRequest" StructInfoRequest p in
  worker (Worker.struct_info (req @ "ordinal") (req @ "name")).

Definition rpc_read_struct_at_address (p : Value) : Rpc Value :=
  let! req := parse_params "ReadStructRequest" ReadStructRequest p in
  worker (Worker.read_struct (addr_or_zero (req @ "address")) (req @ "ordinal") (req @ "name")).

(** ** Cross-references *)

Definition rpc_get_xrefs_to (p : Value) : Rpc Value :=
  let! req := parse_params "AddressRequest" AddressRequest p in
  worker (Worker.xrefs_to (addr_or_zero (req @ "address"))).

Definition rpc_get_xrefs_from (p : Value) : Rpc Value :=
  let! req := parse_params "AddressRequest" AddressRequest p in
  worker (Worker.xrefs_from (addr_or_zero (req @ "address"))).

Definition rpc_get_xrefs_to_struct_field (p : Value) : Rpc Value :=
  let! req := parse_params "XrefsToFieldRequest" XrefsToFieldRequest p in
  worker (Worker.xrefs_to_field (req @ "ordinal") (req @ "name") (req @ "member_index")
            (req @ "member_name") (default 100%Z (req @ "limit"))).

(** ** Imports, exports, entry points *)

Definition rpc_list_imports (p : Value) : Rpc Value :=
  let! req := parse_params "PaginatedRequest" PaginatedRequest p in
  worker (Worker.imports (default 0%Z (req @ "offset")) (default 100%Z (req @ "limit"))).

Definition rpc_list_exports (p : Value) : Rpc Value :=
  let! req := parse_params "PaginatedRequest" PaginatedRequest p in
  worker (Worker.exports (default 0%Z (req @ "offset")) (default 100%Z (req @ "limit"))).

Definition rpc_list_entry_points (_ : Value) : Rpc Value := worker Worker.entrypoints.

(** ** Memory *)

(** The derived [Serialize] of [BytesResult]. *)
Definition bytes_value (r : BytesResult) : Value :=
  obj [("address", VString (bytes_address r)); ("bytes", VString (bytes r));
       ("length", vz (bytes_length r))].

Definition rpc_read_bytes (p : Value) : Rpc Value :=
  let! req := parse_params "GetBytesRequest" GetBytesRequest p in
  let! r := worker (Worker.get_bytes (opt_addr (req @ "address")) (req @ "target_name")
              (default 0%Z (req @ "offset")) (default 16%Z (req @ "size"))) in
  rpc_ret (bytes_value r).

Definition rpc_read_int (p : Value) : Rpc Value :=
  let addr := default 0%Z (match parse_address_value (index p "address") with
                           | Some a => Some a
                           | None => parse_address_value (index p "addr")
                           end) in
  worker (Worker.read_int addr (default 4%Z (as_u64 (index p "size")))).

Definition rpc_read_string (p : Value) : Rpc Value :=
  let! req := parse_params "GetStringRequest" GetStringRequest p in
  worker (Worker.get_string (addr_or_zero (req @ "address")) (default 1024%Z (req @ "max_len"))).

Definition rpc_read_global_variable (p : Value) : Rpc Value :=
  let! req := parse_params "GetGlobalValueRequest" GetGlobalValueRequest p in
  let query := match (req @ "query") : Value with
               | VString s => s
               | other => json_display other
               end in
  worker (Worker.get_global_value query).

(** ** Annotations *)

Definition rpc_set_comment (p : Value) : Rpc Value :=
  let! req := parse_params "SetCommentsRequest" SetCommentsRequest p in
  worker (Worker.set_comments (opt_addr (req @ "address")) (req @ "target_name")
            (default 0%Z (req @ "offset")) (req @ "comment") (default false (req @ "repeatable"))).

Definition rpc_set_function_comment (p : Value) : Rpc Value :=
  let! req := parse_params "SetFunctionCommentRequest" SetFunctionCommentRequest p in
  worker (Worker.set_function_comment (opt_addr (req @ "address")) (req @ "name")
            (req @ "comment") (default false (req @ "repeatable"))).

Definition rpc_rename_symbol (p : Value) : Rpc Value :=
  let! req := parse_params "RenameRequest" RenameRequest p in
  worker (Worker.rename (opt_addr (req @ "address")) (req @ "current_name") (req @ "name")
            (default 0%Z (req @ "flags"))).

Definition rename_entry (e : Struct BatchRenameEntry) : option Z * option string * string :=
  (opt_addr (e @ "address"), e @ "current_name", e @ "new_name").

Definition rpc_batch_rename (p : Value) : Rpc Value :=
  let! req := parse_params "BatchRenameRequest" BatchRenameRequest p in
  worker (Worker.batch_rename (map rename_entry (req @ "renames"))).

Definition rpc_rename_local_variable (p : Value) : Rpc Value :=
  let! req := parse_params "RenameLvarRequest" RenameLvarRequest p in
  worker (Worker.rename_lvar (addr_or_zero (req @ "func_address")) (req @ "lvar_name")
            (req @ "new_name")).

Definition rpc_set_local_variable_type (p : Value) : Rpc Value :=
  let! req := parse_params "SetLvarTypeRequest" SetLvarTypeRequest p in
  worker (Worker.set_lvar_type (addr_or_zero (req @ "func_address")) (req @ "lvar_name")
            (req @ "type_str")).

Definition rpc_set_decompiler_comment (p : Value) : Rpc Value :=
  let! req := parse_params "SetDecompilerCommentRequest" SetDecompilerCommentRequest p in
  worker (Worker.set_decompiler_comment (addr_or_zero (req @ "func_address"))
            (addr_or_zero (req @ "address")) (default 69%Z (req @ "itp")) (req @ "comment")).

(** ** Patching *)

Definition rpc_patch_bytes (p : Value) : Rpc Value :=
  let! req := parse_params "PatchRequest" PatchRequest p in
  let! bytes := rpc_lift (parse_patch_bytes (req @ "bytes")) in
  worker (Worker.patch_bytes (opt_addr (req @ "address")) (req @ "target_name")
            (default 0%Z (req @ "offset")) bytes).

Definition rpc_patch_assembly (p : Value) : Rpc Value :=
  let! req := parse_params "PatchAsmRequest" PatchAsmRequest p in
  worker (Worker.patch_asm (opt_addr (req @ "address")) (req @ "target_name")
            (default 0%Z (req @ "offset")) (req @ "line")).

(** ** Control flow *)

Definition rpc_get_basic_blocks (p : Value) : Rpc Value :=
  let! req := parse_params "AddressRequest" AddressRequest p in
  worker (Worker.basic_blocks (addr_or_zero (req @ "address"))).

Definition rpc_get_callees (p : Value) : Rpc Value :=
  let! req := parse_params "AddressRequest" AddressRequest p in
  worker (Worker.callees (addr_or_zero (req @ "address"))).

Definition rpc_get_callers (p : Value) : Rpc Value :=
  let! req := parse_params "AddressRequest" AddressRequest p in
  worker (Worker.callers (addr_or_zero (req @ "address"))).

(** The first root of an array, else the value itself. *)
Definition callgraph_root (roots : Value) : Z :=
  default 0%Z (match (as_array roots ≫= λ l, head l) ≫= parse_address_value with
               | Some a => Some a
               | None => parse_address_value roots
               end).

Definition rpc_build_callgraph (p : Value) : Rpc Value :=
  let! req := parse_params "CallGraphRequest" CallGraphRequest p in
  worker (Worker.callgraph (callgraph_root (req @ "roots")) (default 5%Z (req @ "max_depth"))
            (default 100%Z (req @ "max_nodes"))).

Definition rpc_find_control_flow_paths (p : Value) : Rpc Value :=
  let! req := parse_params "FindPathsRequest" FindPathsRequest p in
  worker (Worker.find_paths (addr_or_zero (req @ "start")) (addr_or_zero (req @ "end"))
            (default 10%Z (req @ "max_paths")) (default 10%Z (req @ "max_depth"))).

Definition rpc_build_xref_matrix (p : Value) : Rpc Value :=
  let! req := parse_params "XrefMatrixRequest" XrefMatrixRequest p in
  worker (Worker.xref_matrix
            (match as_array (req @ "addrs") with
             | Some a => omap parse_address_value a
             | None => []
             end)).

(** ** Metadata, globals, analysis *)

Definition rpc_get_database_info (_ : Value) : Rpc Value := worker Worker.idb_meta.

Definition rpc_list_globals (p : Value) : Rpc Value :=
  let! req := parse_params "ListGlobalsRequest" ListGlobalsRequest p in
  worker (Worker.list_globals (req @ "query") (default 0%Z (req @ "offset"))
            (default 100%Z (req @ "limit")) (req @ "timeout_secs")).

Definition rpc_run_auto_analysis (p : Value) : Rpc Value :=
  let! req := parse_params "AnalyzeFuncsRequest" AnalyzeFuncsRequest p in
  worker (Worker.analyze_funcs (req @ "timeout_secs")).

(** ** Search *)

(** The patterns of a search: an array, a string, or a string that holds a JSON array. *)
Definition pattern_list (v : Value) : list string :=
  match as_array v with
  | Some arr => omap as_str arr
  | None =>
      match as_str v with
      | Some s =>
          if starts_with "[" (trim s) then
            match json_parse s with
            | Some (Array arr) => omap as_str arr
            | _ => [s]
            end
          else [s]
      | None => []
      end
  end.

Definition rpc_search_bytes (p : Value) : Rpc Value :=
  let! req := parse_params "FindBytesRequest" FindBytesRequest p in
  let max_results := default 100%Z (req @ "limit") in
  let timeout := (req @ "timeout_secs") in
  match pattern_list (req @ "patterns") with
  | [pattern] => worker (Worker.find_bytes pattern max_results timeout)
  | [] => rpc_ret (obj [("matches", Array []); ("count", vz 0)])
  | patterns =>
      let! all_matches := rpc_for (λ all_matches pattern,
        let! r := rpc_try (worker (Worker.find_bytes pattern max_results timeout)) in
        rpc_ret (match r with
                 | Ok result =>
                     match get "matches" result ≫= as_array with
                     | Some matches => all_matches ++ matches
                     | None => all_matches
                     end
                 | Err _ => all_matches
                 end, true)) [] patterns in
      rpc_ret (obj [("matches", Array all_matches); ("count", vnat (length all_matches))])
  end.

Definition rpc_search_text (p : Value) : Rpc Value :=
  worker (Worker.search_text (default "" (as_str (index p "text")))
            (default 100%Z (as_u64 (index p "max_results"))) (as_u64 (index p "timeout_secs"))).

Definition rpc_search_imm (p : Value) : Rpc Value :=
  worker (Worker.search_imm (default 0%Z (as_u64 (index p "imm")))
            (default 100%Z (as_u64 (index p "max_results"))) (as_u64 (index p "timeout_secs"))).

Definition rpc_search_instructions (p : Value) : Rpc Value :=
  let! req := parse_params "FindInsnsRequest" FindInsnsRequest p in
  worker (Worker.find_insns (pattern_list (req @ "patterns")) (default 100%Z (req @ "limit"))
            (default true (req @ "case_insensitive")) (req @ "timeout_secs")).

Definition rpc_search_instruction_operands (p : Value) : Rpc Value :=
  let! req := parse_params "FindInsnOperandsRequest" FindInsnOperandsRequest p in
  worker (Worker.find_insn_operands (pattern_list (req @ "patterns"))
            (default 100%Z (req @ "limit")) (default true (req @ "case_insensitive"))
            (req @ "timeout_secs")).

Definition rpc_run_script (p : Value) : Rpc Value :=
  let! req := parse_params "RunScriptRequest" RunScriptRequest p in
  worker (Worker.run_script (default "" (req @ "code")) (req @ "timeout_secs")).

(** ** Batches *)

Definition batch_addresses (v : Value) : list Value :=
  match as_array v with
  | Some arr => arr
  | None =>
      match as_str v with
      | Some s => match json_parse s with Some (Array arr) => arr | _ => [v] end
      | None => [v]
      end
  end.

Definition rpc_batch_decompile (p : Value) : Rpc Value :=
  let! req := parse_params "BatchDecompileRequest" BatchDecompileRequest p in
  let! results := rpc_for (λ results addr_val,
    match parse_address_value addr_val with
    | None =>
        rpc_ret (results ++ [obj [("address", addr_val); ("error", VString "invalid address");
                                  ("success", Bool false)]], true)
    | Some addr =>
        let! r := rpc_try (worker (Worker.decompile addr)) in
        rpc_ret (results ++
          [match r with
           | Ok code => obj [("address", addr_val); ("pseudocode", VString code);
                             ("success", Bool true)]
           | Err e => obj [("address", addr_val); ("error", VString (error_to_string e));
                           ("success", Bool false)]
           end], true)
    end) [] (batch_addresses (req @ "addresses")) in
  rpc_ret (Array results).

Definition rpc_search_pseudocode (p : Value) : Rpc Value :=
  let! req := parse_params "SearchPseudocodeRequest" SearchPseudocodeRequest p in
  worker (Worker.search_pseudocode (req @ "pattern") (Z.min (default 20%Z (req @ "limit")) 100)
            (req @ "timeout_secs")).

(** The address arithmetic is 64-bit and wraps (release profile). *)
Definition table_addr (base_addr stride : Z) (i : nat) : Z :=
  wrap64 (base_addr + wrap64 (Z.of_nat i * stride)).

Definition scan_table (base_addr stride : Z) (count : nat) : Rpc Value :=
  let! entries := rpc_for (λ entries i,
    let addr := table_addr base_addr stride i in
    let! r := rpc_try (worker (Worker.get_bytes (Some addr) None 0 stride)) in
    rpc_ret (match r with
             | Ok r => (entries ++ [obj [("index", vnat i); ("address", VString (fmt_hex_alt addr));
                                         ("bytes", VString (bytes r))]], true)
             | Err e => (entries ++ [obj [("index", vnat i); ("address", VString (fmt_hex_alt addr));
                                          ("error", VString (error_to_string e))]], false)
             end)) [] (seq 0 count) in
  rpc_ret (obj [("base_address", VString (fmt_hex_alt base_addr)); ("stride", vz stride);
                ("count", vnat (length entries)); ("entries", Array entries)]).

Definition rpc_scan_memory_table (p : Value) : Rpc Value :=
  let! req := parse_params "TableScanRequest" TableScanRequest p in
  let! base_addr := rpc_lift (ok_or (parse_address_value (req @ "base_address"))
                                (InvalidParams "base_address is required")) in
  let stride := Z.max (default 8%Z (req @ "stride")) 1 in
  let count := Z.to_nat (Z.min (default 16%Z (req @ "count")) 256) in
  scan_table base_addr stride count.

(** The comparison line by line; the result has the lines and the two counters. *)
Fixpoint diff_lines (lines1 lines2 : list string) : list string * nat * nat :=
  match lines1, lines2 with
  | [], [] => ([], 0, 0)
  | l1 :: r1, l2 :: r2 =>
      let '(d, same, different) := diff_lines r1 r2 in
      if bool_decide (l1 = l2) then (("  " +:+ l1) :: d, same + 1, different)
      else (("- " +:+ l1) :: ("+ " +:+ l2) :: d, same, different + 1)
  | l1 :: r1, [] =>
      let '(d, same, different) := diff_lines r1 [] in
      (("- " +:+ l1) :: d, same, different + 1)
  | [], _ =>
      (map (λ l2, "+ " +:+ l2) lines2, 0, length lines2)
  end.

Definition similarity (same different : nat) : f64 :=
  let total := same + different in
  let s := if bool_decide (total = 0) then f64_of 1
           else f64_div (f64_of (Z.of_nat same)) (f64_of (Z.of_nat total)) in
  f64_div (f64_round (f64_mul s (f64_of 100))) (f64_of 100).

Definition rpc_diff_pseudocode (p : Value) : Rpc Value :=
  let! req := parse_params "DiffFunctionsRequest" DiffFunctionsRequest p in
  let! addr1 := rpc_lift (ok_or (parse_address_value (req @ "addr1"))
                            (InvalidParams "addr1 is required")) in
  let! addr2 := rpc_lift (ok_or (parse_address_value (req @ "addr2"))
                            (InvalidParams "addr2 is required")) in
  let! result1 := worker (Worker.decompile addr1) in
  let! result2 := worker (Worker.decompile addr2) in
  let '(d, same, different) := diff_lines (lines result1) (lines result2) in
  rpc_ret (obj [("function1", VString result1); ("function2", VString result2);
                ("similarity_ratio", Number (Float (f64_text (similarity same different))));
                ("diff_lines", Array (VString <$> d))]).

(** ** The match on the method name *)

Definition dispatch_table : list (string * (Value → Rpc Value)) :=
  [("open", rpc_open);
   ("close", rpc_close);
   ("shutdown", rpc_shutdown);
   ("load_debug_info", rpc_load_debug_info);
   ("get_analysis_status", rpc_get_analysis_status);
   ("list_functions", rpc_list_functions);
   ("get_function_by_name", rpc_get_function_by_name);
   ("get_function_prototype", rpc_get_function_prototype);
   ("get_function_at_address", rpc_get_function_at_address);
   ("batch_lookup_functions", rpc_batch_lookup_functions);
   ("export_functions", rpc_export_functions);
   ("disassemble", rpc_disassemble);
   ("disassemble_function", rpc_disassemble_function);
   ("disassemble_function_at", rpc_disassemble_function_at);
   ("decompile_function", rpc_decompile_function);
   ("get_pseudocode_at", rpc_get_pseudocode_at);
   ("list_segments", rpc_list_segments);
   ("list_strings", rpc_list_strings);
   ("get_xrefs_to_string", rpc_get_xrefs_to_string);
   ("list_local_types", rpc_list_local_types);
   ("declare_c_type", rpc_declare_c_type);
   ("apply_type", rpc_apply_type);
   ("infer_type", rpc_infer_type);
   ("set_function_prototype", rpc_set_function_prototype);
   ("rename_stack_variable", rpc_rename_stack_variable);
   ("set_stack_variable_type", rpc_set_stack_variable_type);
   ("list_enums", rpc_list_enums);
   ("create_enum", rpc_create_enum);
   ("get_address_info", rpc_get_address_info);
   ("create_stack_variable", rpc_create_stack_variable);
   ("delete_stack_variable", rpc_delete_stack_variable);
   ("get_stack_frame", rpc_get_stack_frame);
   ("list_structs", rpc_list_structs);
   ("get_struct_info", rpc_get_struct_info);
   ("read_struct_at_address", rpc_read_struct_at_address);
   ("get_xrefs_to", rpc_get_xrefs_to);
   ("get_xrefs_from", rpc_get_xrefs_from);
   ("get_xrefs_to_struct_field", rpc_get_xrefs_to_struct_field);
   ("list_imports", rpc_list_imports);
   ("list_exports", rpc_list_exports);
   ("list_entry_points", rpc_list_entry_points);
   ("read_bytes", rpc_read_bytes);
   ("read_int", rpc_read_int);
   ("read_string", rpc_read_string);
   ("read_global_variable", rpc_read_global_variable);
   ("set_comment", rpc_set_comment);
   ("set_function_comment", rpc_set_function_comment);
   ("rename_symbol", rpc_rename_symbol);
   ("batch_rename", rpc_batch_rename);
   ("rename_local_variable", rpc_rename_local_variable);
   ("set_local_variable_type", rpc_set_local_variable_type);
   ("set_decompiler_comment", rpc_set_decompiler_comment);
   ("patch_bytes", rpc_patch_bytes);
   ("patch_assembly", rpc_patch_assembly);
   ("get_basic_blocks", rpc_get_basic_blocks);
   ("get_callees", rpc_get_callees);
   ("get_callers", rpc_get_callers);
   ("build_callgraph", rpc_build_callgraph);
   ("find_control_flow_paths", rpc_find_control_flow_paths);
   ("build_xref_matrix", rpc_build_xref_matrix);
   ("get_database_info", rpc_get_database_info);
   ("list_globals", rpc_list_globals);
   ("run_auto_analysis", rpc_run_auto_analysis);
   ("search_bytes", rpc_search_bytes);
   ("search_text", rpc_search_text);
   ("search_imm", rpc_search_imm);
   ("search_instructions", rpc_search_instructions);
   ("search_instruction_operands", rpc_search_instruction_operands);
   ("run_script", rpc_run_script);
   ("batch_decompile", rpc_batch_decompile);
   ("search_pseudocode", rpc_search_pseudocode);
   ("scan_memory_table", rpc_scan_memory_table);
   ("diff_pseudocode", rpc_diff_pseudocode)].

Definition lookup_method (method : string) : option (Value → Rpc Value) :=
  snd <$> find (λ mh, bool_decide (mh.1 = method)) dispatch_table.

Definition dispatch_rpc (req : RpcRequest) : Rpc Value :=
  let p := req_params req in
  let method := ToolRegistry.primary_name_for (req_method req) in
  match lookup_method method with
  | Some handler => handler p
  | None => rpc_fail (InvalidToolName ("Unknown method: " +:+ req_method req))
  end.
End dispatch.

(** Unfolding an arm of the match. *)
Create HintDb rpc discriminated.
#[export] Hint Unfold
  rpc_open rpc_close rpc_shutdown rpc_load_debug_info rpc_get_analysis_status
  rpc_list_functions rpc_get_function_by_name rpc_get_function_prototype
  rpc_get_function_at_address rpc_batch_lookup_functions rpc_export_functions rpc_disassemble
  rpc_disassemble_function rpc_disassemble_function_at rpc_decompile_function
  rpc_get_pseudocode_at rpc_list_segments rpc_list_strings rpc_get_xrefs_to_string
  rpc_list_local_types rpc_declare_c_type rpc_apply_type rpc_infer_type
  rpc_set_function_prototype rpc_rename_stack_variable rpc_set_stack_variable_type
  rpc_list_enums rpc_create_enum rpc_get_address_info rpc_create_stack_variable
  rpc_delete_stack_variable rpc_get_stack_frame rpc_list_structs rpc_get_struct_info
  rpc_read_struct_at_address rpc_get_xrefs_to rpc_get_xrefs_from rpc_get_xrefs_to_struct_field
  rpc_list_imports rpc_list_exports rpc_list_entry_points rpc_read_bytes rpc_read_int
  rpc_read_string rpc_read_global_variable rpc_set_comment rpc_set_function_comment
  rpc_rename_symbol rpc_batch_rename rpc_rename_local_variable rpc_set_local_variable_type
  rpc_set_decompiler_comment rpc_patch_bytes rpc_patch_assembly rpc_get_basic_blocks
  rpc_get_callees rpc_get_callers rpc_build_callgraph rpc_find_control_flow_paths
  rpc_build_xref_matrix rpc_get_database_info rpc_list_globals rpc_run_auto_analysis
  rpc_search_bytes rpc_search_text rpc_search_imm rpc_search_instructions
  rpc_search_instruction_operands rpc_run_script rpc_batch_decompile rpc_search_pseudocode
  rpc_scan_memory_table rpc_diff_pseudocode : rpc.
