(* ===== verification/RpcTheorems.v ===== *)
(** * What the dispatcher does

    The method name alone decides which arm runs; a request whose parameters cannot be
    read never reaches the worker; batches answer for every item; a table scan stays in
    its bounds; a diff can be read back. *)

From Stdlib Require Import Ascii.
From stdpp Require Import base strings numbers sets list.
From S2P Require Import ToolTable ToolRegistry.
From S2P Require Import Prelude RustStr Json ToolError Protocol Parse.
From S2P Require Import Serde ToolRequests IdaRequest IdaWorker F64 RpcDispatch.

Open Scope ida_scope.

(** The request struct that each arm of the match reads with [parse_params], in the order
    of the match; [None] for the arms that index the JSON value themselves. *)
Definition arm_params : list (option (string * list Field)) :=
  [None;
   None;
   None;
   Some ("LoadDebugInfoRequest", LoadDebugInfoRequest);
   None;
   Some ("ListFunctionsRequest", ListFunctionsRequest);
   Some ("ResolveFunctionRequest", ResolveFunctionRequest);
   None;
   Some ("FunctionAtRequest", FunctionAtRequest);
   Some ("LookupFuncsRequest", LookupFuncsRequest);
   Some ("ExportFuncsRequest", ExportFuncsRequest);
   Some ("DisasmRequest", DisasmRequest);
   Some ("DisasmByNameRequest", DisasmByNameRequest);
   Some ("DisasmFunctionAtRequest", DisasmFunctionAtRequest);
   Some ("DecompileRequest", DecompileRequest);
   Some ("PseudocodeAtRequest", PseudocodeAtRequest);
   None;
   None;
   Some ("XrefsToStringRequest", XrefsToStringRequest);
   Some ("LocalTypesRequest", LocalTypesRequest);
   Some ("DeclareTypeRequest", DeclareTypeRequest);
   Some ("ApplyTypesRequest", ApplyTypesRequest);
   Some ("InferTypesRequest", InferTypesRequest);
   Some ("SetFunctionPrototypeRequest", SetFunctionPrototypeRequest);
   Some ("RenameStackVariableRequest", RenameStackVariableRequest);
   Some ("SetStackVariableTypeRequest", SetStackVariableTypeRequest);
   Some ("ListEnumsRequest", ListEnumsRequest);
   Some ("CreateEnumRequest", CreateEnumRequest);
   Some ("AddrInfoRequest", AddrInfoRequest);
   Some ("DeclareStackRequest", DeclareStackRequest);
   Some ("DeleteStackRequest", DeleteStackRequest);
   Some ("AddressRequest", AddressRequest);
   Some ("StructsRequest", StructsRequest);
   Some ("StructInfoRequest", StructInfoRequest);
   Some ("ReadStructRequest", ReadStructRequest);
   Some ("AddressRequest", AddressRequest);
   Some ("AddressRequest", AddressRequest);
   Some ("XrefsToFieldRequest", XrefsToFieldRequest);
   Some ("PaginatedRequest", PaginatedRequest);
   Some ("PaginatedRequest", PaginatedRequest);
   None;
   Some ("GetBytesRequest", GetBytesRequest);
   None;
   Some ("GetStringRequest", GetStringRequest);
   Some ("GetGlobalValueRequest", GetGlobalValueRequest);
   Some ("SetCommentsRequest", SetCommentsRequest);
   Some ("SetFunctionCommentRequest", SetFunctionCommentRequest);
   Some ("RenameRequest", RenameRequest);
   Some ("BatchRenameRequest", BatchRenameRequest);
   Some ("RenameLvarRequest", RenameLvarRequest);
   Some ("SetLvarTypeRequest", SetLvarTypeRequest);
   Some ("SetDecompilerCommentRequest", SetDecompilerCommentRequest);
   Some ("PatchRequest", PatchRequest);
   Some ("PatchAsmRequest", PatchAsmRequest);
   Some ("AddressRequest", AddressRequest);
   Some ("AddressRequest", AddressRequest);
   Some ("AddressRequest", AddressRequest);
   Some ("CallGraphRequest", CallGraphRequest);
   Some ("FindPathsRequest", FindPathsRequest);
   Some ("XrefMatrixRequest", XrefMatrixRequest);
   None;
   Some ("ListGlobalsRequest", ListGlobalsRequest);
   Some ("AnalyzeFuncsRequest", AnalyzeFuncsRequest);
   Some ("FindBytesRequest", FindBytesRequest);
   None;
   None;
   Some ("FindInsnsRequest", FindInsnsRequest);
   Some ("FindInsnOperandsRequest", FindInsnOperandsRequest);
   Some ("RunScriptRequest", RunScriptRequest);
   Some ("BatchDecompileRequest", BatchDecompileRequest);
   Some ("SearchPseudocodeRequest", SearchPseudocodeRequest);
   Some ("TableScanRequest", TableScanRequest);
   Some ("DiffFunctionsRequest", DiffFunctionsRequest)].

Section theorems.
Context {S : Type}.
Context (worker : ∀ c : WorkerCall, S → result (reply (wc_request c)) ToolError * S).
Context (json_parse : string → option Value) (json_display : Value → string).
Context (de_message : DeError → string) (f64_text : f64 → string).

#[local] Abbreviation table := (dispatch_table worker json_parse json_display de_message f64_text).
#[local] Abbreviation dispatch := (dispatch_rpc worker json_parse json_display de_message f64_text).

(** ** Names *)

Lemma table_names_NoDup : NoDup table.*1.
Proof. apply (bool_decide_unpack (NoDup table.*1)). vm_compute. exact I. Qed.

Lemma find_key {A} (l : list (string * A)) m h :
  NoDup l.*1 → (m, h) ∈ l → find (λ mh, bool_decide (mh.1 = m)) l = Some (m, h).
Proof.
  induction l as [|[m' h'] l IH]; intros Hnd Hin; [by apply elem_of_nil in Hin|].
  simpl in *. apply NoDup_cons in Hnd as [Hm Hnd].
  apply elem_of_cons in Hin as [Heq|Hin]; [simplify_eq; by rewrite bool_decide_true|].
  rewrite bool_decide_false; [by apply IH|]. intros ->. apply Hm.
  apply list_elem_of_fmap. by exists (m, h).
Qed.

Lemma find_key_None {A} (l : list (string * A)) m :
  m ∉ l.*1 → find (λ mh, bool_decide (mh.1 = m)) l = None.
Proof.
  induction l as [|[m' h'] l IH]; intros Hm; [done|]. simpl in *.
  rewrite bool_decide_false by set_solver. apply IH. set_solver.
Qed.

Lemma dispatch_arm req m h s :
  (m, h) ∈ table → ToolRegistry.primary_name_for (req_method req) = m →
  dispatch req s = h (req_params req) s.
Proof.
  intros Hin Hm. unfold dispatch_rpc, lookup_method. rewrite Hm.
  by rewrite (find_key _ _ _ table_names_NoDup Hin).
Qed.

(** C9: the dispatcher is decided by the name: every arm of the match is reached, by its
    own name and by every alias that the registry resolves to it, with the parameters as
    they are; any other name is refused by name and the worker is not asked. *)
Theorem dispatch_decided_by_name (req : RpcRequest) (s : S) :
  (∀ m h, (m, h) ∈ table →
     ToolRegistry.primary_name_for m = m ∧
     (ToolRegistry.primary_name_for (req_method req) = m →
      dispatch req s = h (req_params req) s)) ∧
  (ToolRegistry.primary_name_for (req_method req) ∉ table.*1 →
   dispatch req s = (Err (InvalidToolName ("Unknown method: " +:+ req_method req)), s)).
Proof.
  split.
  - intros m h Hin. split; [|by intros; eapply dispatch_arm].
    assert (Forall (λ m, ToolRegistry.primary_name_for m = m) table.*1) as Hfix.
    { apply (bool_decide_unpack (Forall _ _)). vm_compute. exact I. }
    rewrite Forall_forall in Hfix. apply Hfix, list_elem_of_fmap. by exists (m, h).
  - intros Hno. unfold dispatch_rpc, lookup_method. by rewrite find_key_None.
Qed.

(** ** Parameters that cannot be read *)

Definition params_error (e : DeError) : ToolError :=
  InvalidParams ("invalid params: " +:+ de_message e).

Lemma parse_params_err {A} n fs p e (k : Struct fs → Rpc A) (s : S) :
  de_struct n fs p = Err e →
  rpc_bind (parse_params de_message n fs p) k s = (Err (params_error e), s).
Proof. intros He. unfold rpc_bind, parse_params, rpc_lift. by rewrite He. Qed.

(** An arm refuses what its struct cannot hold. *)
Definition refuses_bad_params (h : Value → Rpc Value) (o : option (string * list Field)) : Prop :=
  match o with
  | None => True
  | Some (n, fs) => ∀ p e (s : S), de_struct n fs p = Err e → h p s = (Err (params_error e), s)
  end.

Lemma arms_refuse_bad_params : Forall2 refuses_bad_params table.*2 arm_params.
Proof.
  cbn [dispatch_table fmap list_fmap snd arm_params].
  repeat (constructor; [try exact I; intros p e s He; autounfold with rpc;
                        try (by apply parse_params_err)|]).
  all: try done.
Qed.

(** C36: a request whose parameters do not fit the request struct of its method is answered
    with [InvalidParams], and the worker is neither called nor changed. *)
Theorem bad_params_never_reach_worker (req : RpcRequest) (s : S) (i : nat) (m n : string)
    (h : Value → Rpc Value) (fs : list Field) (e : DeError)
    (Harm : table !! i = Some (m, h)) (Hparams : arm_params !! i = Some (Some (n, fs)))
    (Hmethod : ToolRegistry.primary_name_for (req_method req) = m)
    (Hbad : de_struct n fs (req_params req) = Err e) :
  dispatch req s = (Err (params_error e), s).
Proof.
  rewrite (dispatch_arm req m h s); [|by eapply list_elem_of_lookup_2|done].
  pose proof arms_refuse_bad_params as Hall. rewrite Forall2_lookup in Hall.
  specialize (Hall i). rewrite list_lookup_fmap, Harm, Hparams in Hall. inversion Hall; subst.
  by auto.
Qed.

(** ** Batches *)

(** Run a total step on every element in turn, keeping the answers. *)
Fixpoint map_state {A B} (f : A → S → B * S) (l : list A) (s : S) : list B * S :=
  match l with
  | [] => ([], s)
  | x :: l => let '(y, s) := f x s in let '(ys, s) := map_state f l s in (y :: ys, s)
  end.

Lemma map_state_length {A B} (f : A → S → B * S) l s : length (map_state f l s).1 = length l.
Proof.
  revert s. induction l as [|x l IH]; intros s; [done|]. simpl. destruct (f x s) as [y s'].
  specialize (IH s'). destruct (map_state f l s') as [ys s'']. simpl in *. by rewrite IH.
Qed.

Lemma rpc_for_map {A B} (step : list B → A → Rpc (list B * bool)) (f : A → S → B * S) acc l s :
  (∀ acc x s, step acc x s = (Ok (acc ++ [(f x s).1], true), (f x s).2)) →
  rpc_for step acc l s = (Ok (acc ++ (map_state f l s).1), (map_state f l s).2).
Proof.
  intros Hstep. revert acc s. induction l as [|x l IH]; intros acc s; simpl.
  { by rewrite app_nil_r. }
  unfold rpc_bind. rewrite Hstep. simpl. destruct (f x s) as [y s'] eqn:E. simpl.
  rewrite IH. destruct (map_state f l s') as [ys s''] eqn:E'. simpl. by rewrite <-app_assoc.
Qed.

(** The answer for one address of several. *)
Definition address_entry (key : string) (addr : Z) (r : result string ToolError) : Value :=
  obj [("address", VString (fmt_hex_alt addr));
       match r with
       | Ok text => (key, VString text)
       | Err e => ("error", VString (error_to_string e))
       end].

Lemma per_address_spec key (call : Z → Rpc string) addrs (s : S) :
  let '(results, s') :=
    map_state (λ a s, let '(r, s) := call a s in (address_entry key a r, s)) addrs s in
  per_address key call addrs s = (Ok (obj [("results", Array results)]), s').
Proof.
  destruct (map_state _ addrs s) as [results s'] eqn:E. unfold per_address, rpc_bind at 1.
  rewrite (rpc_for_map _ (λ a s, let '(r, s) := call a s in (address_entry key a r, s))).
  - by rewrite E.
  - intros acc x s0. unfold rpc_bind, rpc_try, rpc_ret, address_entry.
    by destruct (call x s0) as [[]].
Qed.

Lemma parse_params_ok {A} n fs p r (k : Struct fs → Rpc A) (s : S) :
  de_struct n fs p = Ok r → rpc_bind (parse_params de_message n fs p) k s = k r s.
Proof. intros Hr. unfold rpc_bind, parse_params, rpc_lift. by rewrite Hr. Qed.

Lemma rpc_lift_ok {A B} (a : A) (k : A → Rpc B) (s : S) : rpc_bind (rpc_lift (Ok a)) k s = k a s.
Proof. done. Qed.

(** The answer of [batch_decompile] for one element. *)
Definition decompile_entry (addr_val : Value) (s : S) : Value * S :=
  match parse_address_value addr_val with
  | None => (obj [("address", addr_val); ("error", VString "invalid address");
                  ("success", Bool false)], s)
  | Some addr =>
      let '(r, s) := worker (Worker.decompile addr) s in
      (match r with
       | Ok code => obj [("address", addr_val); ("pseudocode", VString code); ("success", Bool true)]
       | Err e => obj [("address", addr_val); ("error", VString (error_to_string e));
                       ("success", Bool false)]
       end, s)
  end.

(** The tools that take several addresses answer for each of them, in order: one entry
    per address with its text or its own error; no failure stops the others or fails the
    request, and the worker is asked once per address that can be read. *)
Theorem batch_answers_every_item (p : Value) (s : S) :
  (∀ req, de_struct "BatchDecompileRequest" BatchDecompileRequest p = Ok req →
     let out := map_state decompile_entry (batch_addresses json_parse (req @ "addresses")) s in
     rpc_batch_decompile worker json_parse de_message p s = (Ok (Array out.1), out.2) ∧
     length out.1 = length (batch_addresses json_parse (req @ "addresses"))) ∧
  (∀ req addrs, de_struct "DisasmRequest" DisasmRequest p = Ok req →
     parse_address_values json_display (req @ "address") = Ok addrs → length addrs ≠ 1 →
     let call a s := let '(r, s) := worker (Worker.disasm a (default 10%Z (req @ "count"))) s in
                     (address_entry "disasm" a r, s) in
     let out := map_state call addrs s in
     rpc_disassemble worker json_display de_message p s =
       (Ok (obj [("results", Array out.1)]), out.2)) ∧
  (∀ req addrs, de_struct "DecompileRequest" DecompileRequest p = Ok req →
     parse_address_values json_display (req @ "address") = Ok addrs → length addrs ≠ 1 →
     let call a s := let '(r, s) := worker (Worker.decompile a) s in
                     (address_entry "code" a r, s) in
     let out := map_state call addrs s in
     rpc_decompile_function worker json_display de_message p s =
       (Ok (obj [("results", Array out.1)]), out.2)).
Proof.
  split; [|split].
  - intros req Hreq out. split; [|apply map_state_length].
    unfold rpc_batch_decompile. rewrite (parse_params_ok _ _ _ _ _ _ Hreq). unfold rpc_bind at 1.
    rewrite (rpc_for_map _ decompile_entry); [done|].
    intros acc x s0. unfold decompile_entry. destruct (parse_address_value x) as [a|]; [|done].
    unfold rpc_bind, rpc_try, rpc_ret. by destruct (worker (Worker.decompile a) s0) as [[]].
  - intros req addrs Hreq Haddrs Hlen call out.
    unfold rpc_disassemble. rewrite (parse_params_ok _ _ _ _ _ _ Hreq), Haddrs, rpc_lift_ok.
    pose proof (per_address_spec "disasm"
      (λ a, worker (Worker.disasm a (default 10%Z (req @ "count")))) addrs s) as Hper.
    change (map_state _ addrs s) with out in Hper. destruct out as [results s'].
    by destruct addrs as [|a [|b addrs]].
  - intros req addrs Hreq Haddrs Hlen call out.
    unfold rpc_decompile_function. rewrite (parse_params_ok _ _ _ _ _ _ Hreq), Haddrs, rpc_lift_ok.
    pose proof (per_address_spec "code" (λ a, worker (Worker.decompile a)) addrs s) as Hper.
    change (map_state _ addrs s) with out in Hper. destruct out as [results s'].
    by destruct addrs as [|a [|b addrs]].
Qed.

(** ** Table scans *)

(** The reads of a scan over the rows [ids]: up to the first that fails. *)
Fixpoint scan_rows (base_addr stride : Z) (ids : list nat) (s : S) :
    list (nat * result BytesResult ToolError) * S :=
  match ids with
  | [] => ([], s)
  | i :: ids =>
      match worker (Worker.get_bytes (Some (table_addr base_addr stride i)) None 0 stride) s with
      | (Ok r, s) => let '(rs, s) := scan_rows base_addr stride ids s in ((i, Ok r) :: rs, s)
      | (Err e, s) => ([(i, Err e)], s)
      end
  end.

Definition scan_entry (base_addr stride : Z) (row : nat * result BytesResult ToolError) : Value :=
  obj [("index", vnat row.1); ("address", VString (fmt_hex_alt (table_addr base_addr stride row.1)));
       match row.2 with
       | Ok r => ("bytes", VString (bytes r))
       | Err e => ("error", VString (error_to_string e))
       end].

Lemma scan_rows_spec base_addr stride a n s :
  let rows := (scan_rows base_addr stride (seq a n) s).1 in
  length rows ≤ n ∧
  (∀ k row, rows !! k = Some row → row.1 = a + k ∧ (is_ok row.2 = false → length rows = k + 1)) ∧
  (length rows < n → ∃ row, last rows = Some row ∧ is_ok row.2 = false).
Proof.
  revert a s. induction n as [|n IH]; intros a s; simpl.
  { split; [lia|]. split; [intros k row H; by rewrite lookup_nil in H|lia]. }
  destruct (worker _ s) as [[r|e] s1].
  - specialize (IH (Datatypes.S a) s1). destruct (scan_rows _ _ _ _) as [rs s2]. simpl in *.
    destruct IH as (Hle & Hrows & Hlast). split; [lia|]. split.
    + intros [|k] row Hk; simpl in Hk; [simplify_eq; simpl; split; [lia|done]|].
      destruct (Hrows k row Hk) as [-> Herr]. split; [lia|]. intros H. rewrite (Herr H). lia.
    + intros Hlt. destruct Hlast as (row & Hl & Herr); [lia|]. exists row.
      rewrite last_cons, Hl. done.
  - simpl. split; [lia|]. split.
    + intros [|k] row Hk; simpl in Hk; [simplify_eq; simpl; split; [lia|done]|].
      by rewrite lookup_nil in Hk.
    + intros _. by exists (a, Err e).
Qed.

Lemma scan_loop base_addr stride ids acc s step :
  (∀ acc i s, step acc i s =
     match worker (Worker.get_bytes (Some (table_addr base_addr stride i)) None 0 stride) s with
     | (r, s) => (Ok (acc ++ [scan_entry base_addr stride (i, r)], is_ok r), s)
     end) →
  rpc_for step acc ids s =
    (Ok (acc ++ (scan_entry base_addr stride <$> (scan_rows base_addr stride ids s).1)),
     (scan_rows base_addr stride ids s).2).
Proof.
  intros Hstep. revert acc s. induction ids as [|i ids IH]; intros acc s; simpl.
  { by rewrite app_nil_r. }
  unfold rpc_bind. rewrite Hstep. destruct (worker _ s) as [[r|e] s1]; simpl; [|done].
  rewrite IH. destruct (scan_rows _ _ ids s1) as [rs s2]. simpl. by rewrite <-app_assoc.
Qed.

(** A table scan reads at most 256 rows, in order from row 0, at the base address plus
    the row times the stride as long as the table fits the address space; it stops at the
    first row that cannot be read, which is its last entry, and reports every row it read. *)
Theorem scan_memory_table_bounded (p : Value) (s : S) (req : Struct TableScanRequest) (base : Z)
    (Hreq : de_struct "TableScanRequest" TableScanRequest p = Ok req)
    (Hbase : parse_address_value (req @ "base_address") = Some base) :
  let stride := Z.max (default 8%Z (req @ "stride")) 1 in
  let count := Z.to_nat (Z.min (default 16%Z (req @ "count")) 256) in
  let out := scan_rows base stride (seq 0 count) s in
  rpc_scan_memory_table worker de_message p s =
    (Ok (obj [("base_address", VString (fmt_hex_alt base)); ("stride", vz stride);
              ("count", vnat (length out.1)); ("entries", Array (scan_entry base stride <$> out.1))]),
     out.2) ∧
  length out.1 ≤ 256 ∧
  (∀ k row, out.1 !! k = Some row → row.1 = k ∧ (is_ok row.2 = false → length out.1 = k + 1)) ∧
  (length out.1 < count → ∃ row, last out.1 = Some row ∧ is_ok row.2 = false) ∧
  (∀ k row, out.1 !! k = Some row → (0 ≤ base)%Z → (base + 256 * stride ≤ u64_max)%Z →
     table_addr base stride row.1 = (base + Z.of_nat k * stride)%Z).
Proof.
  intros stride count out. destruct (scan_rows_spec base stride 0 count s) as (Hle & Hrows & Hlast).
  change (scan_rows base stride (seq 0 count) s) with out in Hle, Hrows, Hlast.
  split; [|split; [unfold count in *; lia|split; [exact Hrows|split; [exact Hlast|]]]].
  - unfold rpc_scan_memory_table. rewrite (parse_params_ok _ _ _ _ _ _ Hreq), Hbase.
    unfold ok_or. rewrite rpc_lift_ok. fold stride count. unfold scan_table, rpc_bind at 1.
    rewrite (scan_loop base stride).
    + fold out. destruct out as [rows s']. unfold rpc_ret. cbn [fst snd].
      by rewrite length_app, length_fmap.
    + intros acc i s0. unfold rpc_bind, rpc_try, rpc_ret.
      by destruct (worker _ s0) as [[r|e] s1].
  - intros k row Hk Hb Hfit. destruct (Hrows k row Hk) as [Hrow _]. simpl in Hrow. rewrite Hrow.
    apply lookup_lt_Some in Hk. assert (k ≤ 255) by (unfold count in *; lia).
    unfold table_addr. rewrite (wrap64_small (Z.of_nat k * stride)); [apply wrap64_small|];
      unfold in_u64, u64_max in *; nia.
Qed.
End theorems.

(** ** Diffs *)

Definition diff_left (d : list string) : list string :=
  omap (λ l, match strip_prefix "  " l with Some x => Some x | None => strip_prefix "- " l end) d.

Definition diff_right (d : list string) : list string :=
  omap (λ l, match strip_prefix "  " l with Some x => Some x | None => strip_prefix "+ " l end) d.

Lemma diff_same l d :
  diff_left (("  " +:+ l) :: d) = l :: diff_left d ∧ diff_right (("  " +:+ l) :: d) = l :: diff_right d.
Proof. done. Qed.

Lemma diff_removed l d :
  diff_left (("- " +:+ l) :: d) = l :: diff_left d ∧ diff_right (("- " +:+ l) :: d) = diff_right d.
Proof. done. Qed.

Lemma diff_added l d :
  diff_left (("+ " +:+ l) :: d) = diff_left d ∧ diff_right (("+ " +:+ l) :: d) = l :: diff_right d.
Proof. done. Qed.

Lemma diff_all_added (ls : list string) :
  let d := map (λ l, "+ " +:+ l) ls in diff_left d = [] ∧ diff_right d = ls.
Proof.
  induction ls as [|l ls [IHl IHr]]; [done|]. cbn [map].
  destruct (diff_added l (map (λ l, "+ " +:+ l) ls)) as [-> ->]. by rewrite IHl, IHr.
Qed.

(** The positions at which two texts have the same line. *)
Definition same_lines (l1 l2 : list string) : nat :=
  length (filter (λ p, p.1 = p.2) (zip l1 l2)).

(** The diff of two functions loses nothing: the unchanged and removed lines are the
    first text, the unchanged and added lines the second; the counters are the positions
    that agree and those that do not, so that nothing differs exactly when the texts are
    equal line by line. *)
Theorem diff_reads_back (l1 l2 : list string) :
  let '(d, same, different) := diff_lines l1 l2 in
  diff_left d = l1 ∧ diff_right d = l2 ∧
  same = same_lines l1 l2 ∧ same + different = length l1 `max` length l2 ∧
  (different = 0 ↔ l1 = l2).
Proof.
  revert l2. induction l1 as [|a l1 IH]; intros [|b l2]; [done|..]; cbn [diff_lines].
  - destruct (diff_all_added (b :: l2)) as [-> ->]. unfold same_lines. simpl. naive_solver lia.
  - specialize (IH []). destruct (diff_lines l1 []) as [[d same] different].
    destruct (diff_removed a d) as [-> ->]. destruct IH as (-> & -> & Hs & Hsum & _).
    unfold same_lines in *. destruct l1; simpl in *; naive_solver lia.
  - specialize (IH l2). destruct (diff_lines l1 l2) as [[d same] different].
    destruct IH as (Hl & Hr & Hs & Hsum & Heq). unfold same_lines in *. cbn [zip zip_with].
    rewrite filter_cons. simpl. destruct (decide (a = b)) as [->|Hne].
    + rewrite bool_decide_true by done. destruct (diff_same b d) as [-> ->].
      rewrite Hl, Hr. simpl. rewrite <-Hs. split_and!; [done|done|lia|lia|].
      rewrite Heq. split; [by intros ->|by intros [=]].
    + rewrite bool_decide_false by done. destruct (diff_removed a (("+ " +:+ b) :: d)) as [-> ->].
      destruct (diff_added b d) as [-> ->]. rewrite Hl, Hr. split_and!; [done|done|lia|simpl; lia|].
      split; [lia|by intros [=]].
Qed.

(** ** A worker to run the dispatcher on: it answers reads until the third one *)

Definition sample_worker (c : WorkerCall) (s : nat) : result (reply (wc_request c)) ToolError * nat :=
  match wc_request c as r return result (reply r) ToolError * nat with
  | GetBytes _ _ _ _ =>
      (if s <? 2 then Ok {| bytes_address := "0x0"; bytes := "90"; bytes_length := 1 |}
       else Err Busy, s + 1)
  | _ => (Err WorkerClosed, s)
  end.

Definition sample_scan : Value :=
  obj [("base", VString "0x1000"); ("stride", vz 1); ("count", vz 4)].

Definition sample_request : RpcRequest :=
  {| req_jsonrpc := "2.0"; req_id := "1"; req_method := "rename"; req_params := obj [] |}.

Lemma bad_params_never_reach_worker_witness :
  dispatch_rpc sample_worker (λ _, None) (λ _, "") (λ _, "missing field") (λ _, "")
    sample_request 7 = (Err (InvalidParams "invalid params: missing field"), 7).
Proof.
  eapply (bad_params_never_reach_worker sample_worker (λ _, None) (λ _, "") (λ _, "missing field")
            (λ _, "") sample_request 7 47 "rename_symbol" "RenameRequest" _ RenameRequest
            (MissingField "name")); reflexivity.
Defined.

Lemma scan_memory_table_bounded_witness :
  (rpc_scan_memory_table sample_worker (λ _, "") sample_scan 0).2 = 3.
Proof.
  destruct (scan_memory_table_bounded sample_worker (λ _, "") sample_scan 0
    (MkStruct (fs := TableScanRequest) (None, (VString "0x1000", (Some 1%Z, (Some 4%Z, tt)))))
    4096%Z eq_refl eq_refl) as [Heq _].
  rewrite Heq. reflexivity.
Defined.
