(* ===== verification/RoutedTools.v ===== *)
(** * The tools of the MCP server in router mode (src/server/mod.rs)

    In router mode a tool forwards its request: it names a method and builds its
    parameters, and [route_or_err] hands both to the router with the [db_handle] of the
    request.  Most tools forward the request as it is; the others build an object by
    hand.  The worker's dispatcher reads the parameters at the other end, and the
    theorems show what it gets to see of the client's request. *)

From Stdlib Require Import Ascii.
From stdpp Require Import base strings numbers sets list.
From S2P Require Import ToolTable ToolRegistry.
From S2P Require Import Prelude RustStr Json ToolError Protocol Parse.
From S2P Require Import Serde ToolRequests IdaRequest IdaWorker F64 RpcDispatch RpcTheorems.

Open Scope ida_scope.

(** ** Parameters built by hand *)

Section params.
Context (json_parse : string → option Value).

Definition route_load_debug_info (req : Struct LoadDebugInfoRequest) : Value :=
  obj [("path", ser_option string_codec (req @ "path"));
       ("verbose", Bool (default false (req @ "verbose")))].

Definition route_get_function_by_name (req : Struct ResolveFunctionRequest) : Value :=
  obj [("name", VString (req @ "name"))].

Definition route_get_function_prototype (req : Struct GetFunctionPrototypeRequest) : Value :=
  obj [("address", ser_option value_codec (req @ "address"));
       ("name", ser_option string_codec (req @ "name"))].

Definition route_get_address_info (req : Struct AddrInfoRequest) : Value :=
  obj [("addr", ser_option value_codec (req @ "address"));
       ("name", ser_option string_codec (req @ "target_name"));
       ("offset", ser_option u64_codec (req @ "offset"))].

Definition route_get_function_at_address (req : Struct FunctionAtRequest) : Value :=
  obj [("addr", ser_option value_codec (req @ "address"));
       ("name", ser_option string_codec (req @ "target_name"));
       ("offset", ser_option u64_codec (req @ "offset"))].

Definition route_disassemble (req : Struct DisasmRequest) : Value :=
  obj [("address", req @ "address"); ("count", ser_option usize_codec (req @ "count"))].

Definition route_disassemble_function (req : Struct DisasmByNameRequest) : Value :=
  obj [("name", VString (req @ "name")); ("count", ser_option usize_codec (req @ "count"))].

Definition route_decompile_function (req : Struct DecompileRequest) : Value :=
  obj [("address", req @ "address")].

Definition route_get_pseudocode_at (req : Struct PseudocodeAtRequest) : Value :=
  obj [("address", req @ "address"); ("end_addr", ser_option string_codec (req @ "end_address"))].

Definition route_batch_decompile (req : Struct BatchDecompileRequest) : Value :=
  obj [("addresses", Array (batch_addresses json_parse (req @ "addresses")))].

Definition route_search_pseudocode (req : Struct SearchPseudocodeRequest) : Value :=
  obj [("pattern", VString (req @ "pattern"));
       ("limit", vz (Z.min (default 20%Z (req @ "limit")) 100));
       ("timeout_secs", ser_option u64_codec (req @ "timeout_secs"))].

Definition route_scan_memory_table (req : Struct TableScanRequest) : Value :=
  obj [("base_address", req @ "base_address");
       ("stride", vz (Z.max (default 8%Z (req @ "stride")) 1));
       ("count", vz (Z.min (default 16%Z (req @ "count")) 256))].

Definition route_diff_pseudocode (req : Struct DiffFunctionsRequest) : Value :=
  obj [("addr1", req @ "addr1"); ("addr2", req @ "addr2")].

Definition route_list_strings (req : Struct ListStringsRequest) : Value :=
  let query := match req @ "query" with Some q => Some q | None => req @ "filter" end in
  obj [("query", ser_option string_codec query);
       ("exact", ser_option bool_codec (req @ "exact"));
       ("case_insensitive", ser_option bool_codec (req @ "case_insensitive"));
       ("offset", ser_option usize_codec (req @ "offset"));
       ("limit", ser_option usize_codec (req @ "limit"));
       ("timeout_secs", ser_option u64_codec (req @ "timeout_secs"))].

(** [get_xrefs_to], [get_xrefs_from], [get_basic_blocks], [get_callees], [get_callers] and
    [get_stack_frame] *)
Definition route_address (req : Struct AddressRequest) : Value :=
  obj [("address", req @ "address")].

(** [list_imports] and [list_exports] *)
Definition route_paginated (req : Struct PaginatedRequest) : Value :=
  obj [("offset", ser_option usize_codec (req @ "offset"));
       ("limit", ser_option usize_codec (req @ "limit"))].

Definition route_batch_lookup_functions (req : Struct LookupFuncsRequest) : Value :=
  obj [("queries", req @ "queries")].

(** [read_byte], [read_word], [read_dword], [read_qword], with [size] 1, 2, 4, 8 *)
Definition route_read_int (size : Z) (req : Struct AddressRequest) : Value :=
  obj [("address", req @ "address"); ("size", vz size)].

Definition route_read_string (req : Struct GetStringRequest) : Value :=
  obj [("address", req @ "address"); ("max_len", ser_option usize_codec (req @ "max_len"))].

Definition route_read_global_variable (req : Struct GetGlobalValueRequest) : Value :=
  obj [("query", req @ "query")].

Definition route_build_xref_matrix (req : Struct XrefMatrixRequest) : Value :=
  obj [("addrs", req @ "addrs")].

Definition route_export_functions (req : Struct ExportFuncsRequest) : Value :=
  obj [("offset", ser_option usize_codec (req @ "offset"));
       ("limit", ser_option usize_codec (req @ "limit"))].

Definition route_get_struct_info (req : Struct StructInfoRequest) : Value :=
  obj [("ordinal", ser_option u32_codec (req @ "ordinal"));
       ("name", ser_option string_codec (req @ "name"))].

Definition route_read_struct_at_address (req : Struct ReadStructRequest) : Value :=
  obj [("address", req @ "address"); ("ordinal", ser_option u32_codec (req @ "ordinal"));
       ("name", ser_option string_codec (req @ "name"))].

Definition route_infer_type (req : Struct InferTypesRequest) : Value :=
  obj [("addr", ser_option value_codec (req @ "address"));
       ("name", ser_option string_codec (req @ "target_name"));
       ("offset", ser_option u64_codec (req @ "offset"))].

Definition route_run_auto_analysis (req : Struct AnalyzeFuncsRequest) : Value :=
  obj [("timeout_secs", ser_option u64_codec (req @ "timeout_secs"))].

(** ** The table of tools that forward their request *)

Record RoutedTool : Type := Routed {
  rt_tool : string;
  rt_method : string;
  rt_struct : string;
  rt_fields : list Field;
  rt_params : Struct rt_fields → Value
}.

(** Every tool with a request of its own that [route_or_err] forwards, in the order of the
    source ([get_analysis_status], [list_segments], [list_entry_points] and
    [get_database_info] take no parameters and forward none). *)
Definition routed_tools : list RoutedTool :=
  [Routed "load_debug_info" "load_debug_info" "LoadDebugInfoRequest" LoadDebugInfoRequest route_load_debug_info;
   Routed "list_functions" "list_functions" "ListFunctionsRequest" ListFunctionsRequest (ser_struct ListFunctionsRequest);
   Routed "list_funcs" "list_functions" "ListFunctionsRequest" ListFunctionsRequest (ser_struct ListFunctionsRequest);
   Routed "get_function_by_name" "get_function_by_name" "ResolveFunctionRequest" ResolveFunctionRequest route_get_function_by_name;
   Routed "get_function_prototype" "get_function_prototype" "GetFunctionPrototypeRequest" GetFunctionPrototypeRequest route_get_function_prototype;
   Routed "get_address_info" "get_address_info" "AddrInfoRequest" AddrInfoRequest route_get_address_info;
   Routed "get_function_at_address" "get_function_at_address" "FunctionAtRequest" FunctionAtRequest route_get_function_at_address;
   Routed "disassemble" "disassemble" "DisasmRequest" DisasmRequest route_disassemble;
   Routed "disassemble_function" "disassemble_function" "DisasmByNameRequest" DisasmByNameRequest route_disassemble_function;
   Routed "disassemble_function_at" "disassemble_function_at" "DisasmFunctionAtRequest" DisasmFunctionAtRequest (ser_struct DisasmFunctionAtRequest);
   Routed "decompile_function" "decompile_function" "DecompileRequest" DecompileRequest route_decompile_function;
   Routed "get_pseudocode_at" "get_pseudocode_at" "PseudocodeAtRequest" PseudocodeAtRequest route_get_pseudocode_at;
   Routed "batch_decompile" "batch_decompile" "BatchDecompileRequest" BatchDecompileRequest route_batch_decompile;
   Routed "search_pseudocode" "search_pseudocode" "SearchPseudocodeRequest" SearchPseudocodeRequest route_search_pseudocode;
   Routed "scan_memory_table" "scan_memory_table" "TableScanRequest" TableScanRequest route_scan_memory_table;
   Routed "diff_pseudocode" "diff_pseudocode" "DiffFunctionsRequest" DiffFunctionsRequest route_diff_pseudocode;
   Routed "list_strings" "list_strings" "ListStringsRequest" ListStringsRequest route_list_strings;
   Routed "get_xrefs_to_string" "get_xrefs_to_string" "XrefsToStringRequest" XrefsToStringRequest (ser_struct XrefsToStringRequest);
   Routed "get_xrefs_to" "get_xrefs_to" "AddressRequest" AddressRequest route_address;
   Routed "get_xrefs_from" "get_xrefs_from" "AddressRequest" AddressRequest route_address;
   Routed "list_imports" "list_imports" "PaginatedRequest" PaginatedRequest route_paginated;
   Routed "list_exports" "list_exports" "PaginatedRequest" PaginatedRequest route_paginated;
   Routed "read_bytes" "read_bytes" "GetBytesRequest" GetBytesRequest (ser_struct GetBytesRequest);
   Routed "get_basic_blocks" "get_basic_blocks" "AddressRequest" AddressRequest route_address;
   Routed "get_callees" "get_callees" "AddressRequest" AddressRequest route_address;
   Routed "get_callers" "get_callers" "AddressRequest" AddressRequest route_address;
   Routed "batch_lookup_functions" "batch_lookup_functions" "LookupFuncsRequest" LookupFuncsRequest route_batch_lookup_functions;
   Routed "list_globals" "list_globals" "ListGlobalsRequest" ListGlobalsRequest (ser_struct ListGlobalsRequest);
   Routed "search_bytes" "search_bytes" "FindBytesRequest" FindBytesRequest (ser_struct FindBytesRequest);
   Routed "read_byte" "read_int" "AddressRequest" AddressRequest (route_read_int 1);
   Routed "read_word" "read_int" "AddressRequest" AddressRequest (route_read_int 2);
   Routed "read_dword" "read_int" "AddressRequest" AddressRequest (route_read_int 4);
   Routed "read_qword" "read_int" "AddressRequest" AddressRequest (route_read_int 8);
   Routed "read_string" "read_string" "GetStringRequest" GetStringRequest route_read_string;
   Routed "read_global_variable" "read_global_variable" "GetGlobalValueRequest" GetGlobalValueRequest route_read_global_variable;
   Routed "find_control_flow_paths" "find_control_flow_paths" "FindPathsRequest" FindPathsRequest (ser_struct FindPathsRequest);
   Routed "build_callgraph" "build_callgraph" "CallGraphRequest" CallGraphRequest (ser_struct CallGraphRequest);
   Routed "build_xref_matrix" "build_xref_matrix" "XrefMatrixRequest" XrefMatrixRequest route_build_xref_matrix;
   Routed "export_functions" "export_functions" "ExportFuncsRequest" ExportFuncsRequest route_export_functions;
   Routed "list_local_types" "list_local_types" "LocalTypesRequest" LocalTypesRequest (ser_struct LocalTypesRequest);
   Routed "get_xrefs_to_struct_field" "get_xrefs_to_struct_field" "XrefsToFieldRequest" XrefsToFieldRequest (ser_struct XrefsToFieldRequest);
   Routed "set_comment" "set_comment" "SetCommentsRequest" SetCommentsRequest (ser_struct SetCommentsRequest);
   Routed "set_function_comment" "set_function_comment" "SetFunctionCommentRequest" SetFunctionCommentRequest (ser_struct SetFunctionCommentRequest);
   Routed "patch_assembly" "patch_assembly" "PatchAsmRequest" PatchAsmRequest (ser_struct PatchAsmRequest);
   Routed "declare_c_type" "declare_c_type" "DeclareTypeRequest" DeclareTypeRequest (ser_struct DeclareTypeRequest);
   Routed "get_stack_frame" "get_stack_frame" "AddressRequest" AddressRequest route_address;
   Routed "create_stack_variable" "create_stack_variable" "DeclareStackRequest" DeclareStackRequest (ser_struct DeclareStackRequest);
   Routed "delete_stack_variable" "delete_stack_variable" "DeleteStackRequest" DeleteStackRequest (ser_struct DeleteStackRequest);
   Routed "rename_stack_variable" "rename_stack_variable" "RenameStackVariableRequest" RenameStackVariableRequest (ser_struct RenameStackVariableRequest);
   Routed "set_stack_variable_type" "set_stack_variable_type" "SetStackVariableTypeRequest" SetStackVariableTypeRequest (ser_struct SetStackVariableTypeRequest);
   Routed "list_enums" "list_enums" "ListEnumsRequest" ListEnumsRequest (ser_struct ListEnumsRequest);
   Routed "create_enum" "create_enum" "CreateEnumRequest" CreateEnumRequest (ser_struct CreateEnumRequest);
   Routed "list_structs" "list_structs" "StructsRequest" StructsRequest (ser_struct StructsRequest);
   Routed "get_struct_info" "get_struct_info" "StructInfoRequest" StructInfoRequest route_get_struct_info;
   Routed "read_struct_at_address" "read_struct_at_address" "ReadStructRequest" ReadStructRequest route_read_struct_at_address;
   Routed "search_structs" "list_structs" "StructsRequest" StructsRequest (ser_struct StructsRequest);
   Routed "search_instructions" "search_instructions" "FindInsnsRequest" FindInsnsRequest (ser_struct FindInsnsRequest);
   Routed "search_instruction_operands" "search_instruction_operands" "FindInsnOperandsRequest" FindInsnOperandsRequest (ser_struct FindInsnOperandsRequest);
   Routed "apply_type" "apply_type" "ApplyTypesRequest" ApplyTypesRequest (ser_struct ApplyTypesRequest);
   Routed "set_function_prototype" "set_function_prototype" "SetFunctionPrototypeRequest" SetFunctionPrototypeRequest (ser_struct SetFunctionPrototypeRequest);
   Routed "infer_type" "infer_type" "InferTypesRequest" InferTypesRequest route_infer_type;
   Routed "run_auto_analysis" "run_auto_analysis" "AnalyzeFuncsRequest" AnalyzeFuncsRequest route_run_auto_analysis;
   Routed "rename_symbol" "rename_symbol" "RenameRequest" RenameRequest (ser_struct RenameRequest);
   Routed "batch_rename" "batch_rename" "BatchRenameRequest" BatchRenameRequest (ser_struct BatchRenameRequest);
   Routed "rename_local_variable" "rename_local_variable" "RenameLvarRequest" RenameLvarRequest (ser_struct RenameLvarRequest);
   Routed "set_local_variable_type" "set_local_variable_type" "SetLvarTypeRequest" SetLvarTypeRequest (ser_struct SetLvarTypeRequest);
   Routed "set_decompiler_comment" "set_decompiler_comment" "SetDecompilerCommentRequest" SetDecompilerCommentRequest (ser_struct SetDecompilerCommentRequest);
   Routed "patch_bytes" "patch_bytes" "PatchRequest" PatchRequest (ser_struct PatchRequest)].

(** What [route_or_err] is given: the handle, the method, the parameters. *)
Definition routed_request (t : RoutedTool) (id : string) (req : Struct (rt_fields t)) : RpcRequest :=
  {| req_jsonrpc := "2.0"; req_id := id; req_method := rt_method t;
     req_params := rt_params t req |}.

(** The same call with the client's request as it is. *)
Definition whole_request (t : RoutedTool) (id : string) (req : Struct (rt_fields t)) : RpcRequest :=
  {| req_jsonrpc := "2.0"; req_id := id; req_method := rt_method t;
     req_params := ser_struct (rt_fields t) req |}.
End params.

(** ** What the worker sees of a routed request *)

Section routed.
Context {S : Type}.
Context (worker : ∀ c : WorkerCall, S → result (reply (wc_request c)) ToolError * S).
Context (json_parse : string → option Value) (json_display : Value → string).
Context (de_message : DeError → string) (f64_text : f64 → string).

#[local] Abbreviation lookup := (lookup_method worker json_parse json_display de_message f64_text).
#[local] Abbreviation dispatch := (dispatch_rpc worker json_parse json_display de_message f64_text).

(** The arm of the method answers the routed parameters as it answers the whole request. *)
Definition same_answer (t : RoutedTool) : Prop :=
  match lookup (rt_method t) with
  | Some h => ∀ (r : Struct (rt_fields t)) (s : S), struct_wf r →
      h (rt_params t r) s = h (ser_struct (rt_fields t) r) s
  | None => False
  end.

(** An arm that reads a struct sees the whole request as it was. *)
Lemma whole_params {A} n fs (r : Struct fs) (k : Struct fs → Rpc A) (s : S) :
  schema_ok fs = true → struct_wf r →
  rpc_bind (parse_params de_message n fs (ser_struct fs r)) k s = k r s.
Proof. intros Hok Hwf. by apply parse_params_ok, struct_roundtrip. Qed.

Ltac read_routed :=
  eapply de_struct_obj;
  [apply (bool_decide_unpack (NoDup _)); vm_compute; exact I
  |cbn -[de_option ser_option de_int vz]; rewrite ?option_roundtrip by done; reflexivity
  |reflexivity].

Ltac same_by_struct :=
  intros [t] s Hwf; cbn in t;
  repeat match type of t with
         | (_ * _)%type => let x := fresh "x" in destruct t as [x t]
         end; destruct t;
  cbn in Hwf; destruct_and? Hwf;
  cbn [rt_fields rt_params]; autounfold with rpc;
  rewrite whole_params by done;
  match goal with
  | |- rpc_bind (parse_params _ ?n ?fs ?p) _ _ = _ =>
      let Hr := fresh in
      eassert (de_struct n fs p = Ok _) as Hr by read_routed;
      rewrite (parse_params_ok _ _ _ _ _ _ _ Hr); reflexivity
  end.

(** The tools whose routed parameters are not the request: see below. *)
Definition lossy_tools : list string :=
  ["get_pseudocode_at"; "read_byte"; "read_word"; "read_dword"; "read_qword"].

(** Numbers that were brought into range before they are sent. *)
Lemma de_vz e z : (0 ≤ z ≤ u64_max)%Z → de_option (int_codec e 0 u64_max) (vz z) = Ok (Some z).
Proof.
  intros Hz. unfold de_option, vz. cbn [de int_codec].
  unfold de_int. by rewrite (proj2 (Z.leb_le 0 z)), (proj2 (Z.leb_le z u64_max)) by lia.
Qed.

Lemma prototype_same (r : Struct GetFunctionPrototypeRequest) (s : S) :
  struct_wf r →
  rpc_get_function_prototype worker (route_get_function_prototype r) s =
  rpc_get_function_prototype worker (ser_struct GetFunctionPrototypeRequest r) s.
Proof.
  destruct r as [[db [a [n []]]]]. intros _. unfold rpc_get_function_prototype.
  set (r := MkStruct _). 
  index_is (route_get_function_prototype r) "address" (ser_option value_codec a).
  index_is (route_get_function_prototype r) "name" (ser_option string_codec n).
  destruct db as [db|];
    index_is (ser_struct GetFunctionPrototypeRequest r) "address" (ser_option value_codec a);
    index_is (ser_struct GetFunctionPrototypeRequest r) "name" (ser_option string_codec n); done.
Qed.

Lemma search_pseudocode_same (r : Struct SearchPseudocodeRequest) (s : S) :
  struct_wf r →
  rpc_search_pseudocode worker de_message (route_search_pseudocode r) s =
  rpc_search_pseudocode worker de_message (ser_struct SearchPseudocodeRequest r) s.
Proof.
  destruct r as [[db [p [l [t []]]]]]. intros Hwf. autounfold with rpc.
  rewrite whole_params by done. cbn in Hwf. destruct Hwf as (_ & _ & Hl & Ht & _).
  set (l' := Z.min (default 20%Z l) 100).
  assert (0 ≤ l' ≤ u64_max)%Z as Hl'.
  { unfold l', u64_max. destruct l as [z|]; simpl in *; lia. }
  assert (de_struct "SearchPseudocodeRequest" SearchPseudocodeRequest
    (route_search_pseudocode (MkStruct (fs := SearchPseudocodeRequest) (db, (p, (l, (t, tt)))))) =
    Ok (MkStruct (fs := SearchPseudocodeRequest) (None, (p, (Some l', (t, tt)))))) as Hr.
  { eapply de_struct_obj; [keys_distinct|..].
    { cbn -[de_option ser_option de_int vz Z.min]. change (Z.min _ 100) with l'.
      unfold usize_codec. rewrite (de_vz _ l' Hl').
    cbn -[de_option ser_option de_int vz Z.min]. rewrite option_roundtrip by done. reflexivity. }
    reflexivity. }
  rewrite (parse_params_ok _ _ _ _ _ _ _ Hr). cbn -[Z.min l']. 
  by rewrite (Z.min_l l' 100) by (unfold l'; lia).
Qed.

Lemma scan_memory_table_same (r : Struct TableScanRequest) (s : S) :
  struct_wf r →
  rpc_scan_memory_table worker de_message (route_scan_memory_table r) s =
  rpc_scan_memory_table worker de_message (ser_struct TableScanRequest r) s.
Proof.
  destruct r as [[db [b [st [c []]]]]]. intros Hwf. autounfold with rpc.
  rewrite whole_params by done. cbn in Hwf. destruct Hwf as (_ & _ & Hst & Hc & _).
  set (st' := Z.max (default 8%Z st) 1). set (c' := Z.min (default 16%Z c) 256).
  assert (0 ≤ st' ≤ u64_max)%Z as Hst'.
  { unfold st'. destruct st as [z|]; simpl in *; unfold u64_max in *; lia. }
  assert (0 ≤ c' ≤ u64_max)%Z as Hc'.
  { unfold c'. destruct c as [z|]; simpl in *; unfold u64_max in *; lia. }
  assert (de_struct "TableScanRequest" TableScanRequest
    (route_scan_memory_table (MkStruct (fs := TableScanRequest) (db, (b, (st, (c, tt)))))) =
    Ok (MkStruct (fs := TableScanRequest) (None, (b, (Some st', (Some c', tt)))))) as Hr.
  { eapply de_struct_obj; [keys_distinct|..].
    { cbn -[de_option ser_option de_int vz Z.min Z.max].
    change (Z.max _ 1) with st'. change (Z.min _ 256) with c'.
    unfold u64_codec, usize_codec. rewrite (de_vz _ st' Hst').
    cbn -[de_option ser_option de_int vz Z.min Z.max]. rewrite (de_vz _ c' Hc'). reflexivity. }
    reflexivity. }
  rewrite (parse_params_ok _ _ _ _ _ _ _ Hr).
  assert (Z.max st' 1 = st') as E1 by (unfold st'; lia).
  assert (Z.min c' 256 = c') as E2 by (unfold c'; lia).
  cbn -[Z.max Z.min Z.to_nat scan_table rpc_bind st' c']. by rewrite E1, E2.
Qed.

Lemma list_strings_same (r : Struct ListStringsRequest) (s : S) :
  struct_wf r →
  rpc_list_strings worker (route_list_strings r) s =
  rpc_list_strings worker (ser_struct ListStringsRequest r) s.
Proof.
  destruct r as [[db [q [f [e [ci [o [l [t []]]]]]]]]]. intros Hwf. cbn in Hwf.
  destruct Hwf as (_ & _ & _ & _ & _ & Ho & Hl & Ht & _).
  unfold rpc_list_strings. set (r := MkStruct _).
  set (q' := match q with Some q => Some q | None => f end).
  set (a := route_list_strings r). set (b := ser_struct ListStringsRequest r).
  index_is a "query" (ser_option string_codec q'). index_is a "filter" Null.
  index_is a "exact" (ser_option bool_codec e). index_is a "case_insensitive" (ser_option bool_codec ci).
  index_is a "offset" (ser_option usize_codec o). index_is a "limit" (ser_option usize_codec l).
  index_is a "timeout_secs" (ser_option u64_codec t).
  destruct db as [db|];
    index_is b "query" (ser_option string_codec q); index_is b "filter" (ser_option string_codec f);
    index_is b "exact" (ser_option bool_codec e);
    index_is b "case_insensitive" (ser_option bool_codec ci);
    index_is b "offset" (ser_option usize_codec o); index_is b "limit" (ser_option usize_codec l);
    index_is b "timeout_secs" (ser_option u64_codec t);
    rewrite !as_str_option; by destruct q, f.
Qed.

Lemma routed_same : Forall (λ t, rt_tool t ∈ lossy_tools ∨ same_answer t) (routed_tools json_parse).
Proof.
  unfold routed_tools.
  repeat (constructor;
    [first
      [left; apply (bool_decide_unpack (_ ∈ lossy_tools)); vm_compute; exact I
      |right; unfold same_answer; cbn [rt_method];
       match goal with
       | |- context [lookup ?m] => let o := eval hnf in (lookup m) in change (lookup m) with o
       end; cbn [snd rt_fields rt_params];
       first [by intros | exact prototype_same | exact search_pseudocode_same
             | exact scan_memory_table_same | exact list_strings_same | same_by_struct]]|]).
  constructor.
Qed.

(** The tools name the methods by their primary names. *)
Lemma routed_name t : t ∈ routed_tools json_parse → ToolRegistry.primary_name_for (rt_method t) = rt_method t.
Proof.
  assert (Forall (λ t, ToolRegistry.primary_name_for (rt_method t) = rt_method t)
            (routed_tools json_parse)) as Hnames.
  { apply (bool_decide_unpack (Forall _ _)). vm_compute. exact I. }
  rewrite Forall_forall in Hnames. apply Hnames.
Qed.

Lemma routed_request_same (t : RoutedTool) (id : string) (r : Struct (rt_fields t)) (s : S)
    (Ht : t ∈ routed_tools json_parse) (Hlossy : rt_tool t ∉ lossy_tools) (Hwf : struct_wf r) :
  dispatch (routed_request t id r) s = dispatch (whole_request t id r) s.
Proof.
  pose proof routed_same as Hall. rewrite Forall_forall in Hall.
  destruct (Hall t Ht) as [Hin|Hsame]; [done|].
  pose proof (routed_name t Ht) as Hnames.
  unfold dispatch_rpc, routed_request, whole_request. cbn [req_method req_params].
  rewrite Hnames. unfold same_answer in Hsame. destruct (lookup (rt_method t)) as [h|]; [|done].
  by apply Hsame.
Qed.

(** C14: every tool that forwards its request in router mode, but those named, reaches the
    worker with nothing lost: the dispatcher answers the parameters that the tool builds,
    under whatever names it gives them, as it would answer the client's whole request. *)
Theorem routed_requests_preserved (t : RoutedTool) (id : string) (r : Struct (rt_fields t)) (s : S)
    (Ht : t ∈ routed_tools json_parse) (Hlossy : rt_tool t ∉ lossy_tools) (Hwf : struct_wf r) :
  dispatch (routed_request t id r) s = dispatch (whole_request t id r) s.
Proof. by apply routed_request_same. Qed.

(** In router mode [get_pseudocode_at] loses the end of the range: the tool sends it as
    [end_addr], which the dispatcher does not know, so whatever range the client asks for,
    the worker is asked for the statement at one address. *)
Theorem routed_pseudocode_drops_end (r : Struct PseudocodeAtRequest) (s : S) :
  rpc_get_pseudocode_at worker de_message (route_get_pseudocode_at r) s =
  worker (Worker.pseudocode_at (addr_or_zero (r @ "address")) None) s.
Proof.
  destruct r as [[db [a [e []]]]]. unfold rpc_get_pseudocode_at.
  assert (de_struct "PseudocodeAtRequest" PseudocodeAtRequest
    (route_get_pseudocode_at (MkStruct (fs := PseudocodeAtRequest) (db, (a, (e, tt))))) =
    Ok (MkStruct (fs := PseudocodeAtRequest) (None, (a, (None, tt))))) as Hr.
  { eapply de_struct_obj; [keys_distinct|reflexivity|reflexivity]. }
  by rewrite (parse_params_ok _ _ _ _ _ _ _ Hr).
Qed.

(** The integer readers send the address as it is, so a list of addresses, which the tool
    accepts, is read as address 0. *)
Lemma routed_read_int size (r : Struct AddressRequest) (s : S) :
  rpc_read_int worker (route_read_int size r) s =
  worker (Worker.read_int (addr_or_zero (r @ "address")) size) s.
Proof.
  unfold rpc_read_int. set (p := route_read_int size r).
  index_is p "address" (r @ "address" : Value). index_is p "addr" Null. index_is p "size" (vz size).
  unfold addr_or_zero. by destruct (parse_address_value (r @ "address")).
Qed.
End routed.

Definition sample_routed : RoutedTool :=
  Routed "get_address_info" "get_address_info" "AddrInfoRequest" AddrInfoRequest
    route_get_address_info.

Lemma routed_requests_preserved_witness :
  dispatch_rpc sample_worker (λ _, None) (λ _, "") (λ _, "") (λ _, "")
    (routed_request sample_routed "1"
      (MkStruct (fs := AddrInfoRequest) (Some "db", (Some (VString "0x10"), (None, (Some 4%Z, tt)))))) 0 =
  dispatch_rpc sample_worker (λ _, None) (λ _, "") (λ _, "") (λ _, "")
    (whole_request sample_routed "1"
      (MkStruct (fs := AddrInfoRequest) (Some "db", (Some (VString "0x10"), (None, (Some 4%Z, tt)))))) 0.
Proof.
  apply (routed_requests_preserved sample_worker (λ _, None) (λ _, "") (λ _, "") (λ _, "")
           sample_routed).
  - apply (list_elem_of_lookup_2 _ 5). reflexivity.
  - apply (bool_decide_unpack (_ ∉ lossy_tools)). vm_compute. exact I.
  - cbn. repeat split; done || lia.
Defined.
