(* ===== verification/AsyncTools.v ===== *)
(** * The [AsyncTool] implementations (src/server/tools)

    Each tool of src/server/tools serialises its request and passes it to the dispatcher
    under a method name ([invoke_dispatch]); the macros [impl_dispatch_tool] and
    [impl_empty_tool] generate them from a table, which is [async_tools] here. *)

From Stdlib Require Import Ascii.
From stdpp Require Import base strings numbers sets list.
From S2P Require Import ToolTable ToolRegistry.
From S2P Require Import Prelude RustStr Json ToolError Protocol Parse.
From S2P Require Import Serde ToolRequests IdaRequest IdaWorker F64 RpcDispatch RpcTheorems.

Open Scope ida_scope.

(** A tool: its name, the method it invokes, its request struct. *)
Record AsyncTool : Type := Async {
  at_name : string;
  at_method : string;
  at_struct : string;
  at_fields : list Field
}.

(** The macro invocations, file by file; [impl_empty_tool] has [EmptyParams]. *)
Definition async_analysis : list AsyncTool :=
  [Async "list_segments" "list_segments" "EmptyParams" EmptyParams;
   Async "list_strings" "list_strings" "ListStringsRequest" ListStringsRequest;
   Async "list_imports" "list_imports" "PaginatedRequest" PaginatedRequest;
   Async "list_exports" "list_exports" "PaginatedRequest" PaginatedRequest;
   Async "list_entry_points" "list_entry_points" "EmptyParams" EmptyParams;
   Async "list_globals" "list_globals" "ListGlobalsRequest" ListGlobalsRequest;
   Async "get_basic_blocks" "get_basic_blocks" "AddressRequest" AddressRequest;
   Async "get_callers" "get_callers" "AddressRequest" AddressRequest;
   Async "get_callees" "get_callees" "AddressRequest" AddressRequest;
   Async "find_control_flow_paths" "find_control_flow_paths" "FindPathsRequest" FindPathsRequest;
   Async "convert_number" "convert_number" "IntConvertRequest" IntConvertRequest;
   Async "list_local_types" "list_local_types" "LocalTypesRequest" LocalTypesRequest;
   Async "list_structs" "list_structs" "StructsRequest" StructsRequest;
   Async "get_struct_info" "get_struct_info" "StructInfoRequest" StructInfoRequest;
   Async "read_struct_at_address" "read_struct_at_address" "ReadStructRequest" ReadStructRequest;
   Async "search_structs" "search_structs" "StructsRequest" StructsRequest;
   Async "list_enums" "list_enums" "ListEnumsRequest" ListEnumsRequest].

Definition async_decompile : list AsyncTool :=
  [Async "decompile_function" "decompile_function" "DecompileRequest" DecompileRequest;
   Async "get_pseudocode_at" "get_pseudocode_at" "PseudocodeAtRequest" PseudocodeAtRequest;
   Async "decompile_structured" "decompile_structured" "DecompileStructuredRequest" DecompileStructuredRequest;
   Async "batch_decompile" "batch_decompile" "BatchDecompileRequest" BatchDecompileRequest;
   Async "search_pseudocode" "search_pseudocode" "SearchPseudocodeRequest" SearchPseudocodeRequest;
   Async "diff_pseudocode" "diff_pseudocode" "DiffFunctionsRequest" DiffFunctionsRequest].

Definition async_disasm : list AsyncTool :=
  [Async "disassemble" "disassemble" "DisasmRequest" DisasmRequest;
   Async "disassemble_function" "disassemble_function" "DisasmByNameRequest" DisasmByNameRequest;
   Async "disassemble_function_at" "disassemble_function_at" "DisasmFunctionAtRequest" DisasmFunctionAtRequest].

Definition async_editing : list AsyncTool :=
  [Async "rename_symbol" "rename_symbol" "RenameRequest" RenameRequest;
   Async "batch_rename" "batch_rename" "BatchRenameRequest" BatchRenameRequest;
   Async "rename_local_variable" "rename_local_variable" "RenameLvarRequest" RenameLvarRequest;
   Async "set_local_variable_type" "set_local_variable_type" "SetLvarTypeRequest" SetLvarTypeRequest;
   Async "set_decompiler_comment" "set_decompiler_comment" "SetDecompilerCommentRequest" SetDecompilerCommentRequest;
   Async "set_comment" "set_comment" "SetCommentsRequest" SetCommentsRequest;
   Async "set_function_comment" "set_function_comment" "SetFunctionCommentRequest" SetFunctionCommentRequest;
   Async "patch_assembly" "patch_assembly" "PatchAsmRequest" PatchAsmRequest;
   Async "patch_bytes" "patch_bytes" "PatchRequest" PatchRequest;
   Async "declare_c_type" "declare_c_type" "DeclareTypeRequest" DeclareTypeRequest;
   Async "apply_type" "apply_type" "ApplyTypesRequest" ApplyTypesRequest;
   Async "set_function_prototype" "set_function_prototype" "SetFunctionPrototypeRequest" SetFunctionPrototypeRequest;
   Async "infer_type" "infer_type" "InferTypesRequest" InferTypesRequest;
   Async "get_stack_frame" "get_stack_frame" "AddressRequest" AddressRequest;
   Async "create_stack_variable" "create_stack_variable" "DeclareStackRequest" DeclareStackRequest;
   Async "delete_stack_variable" "delete_stack_variable" "DeleteStackRequest" DeleteStackRequest;
   Async "rename_stack_variable" "rename_stack_variable" "RenameStackVariableRequest" RenameStackVariableRequest;
   Async "set_stack_variable_type" "set_stack_variable_type" "SetStackVariableTypeRequest" SetStackVariableTypeRequest;
   Async "create_enum" "create_enum" "CreateEnumRequest" CreateEnumRequest].

Definition async_functions : list AsyncTool :=
  [Async "list_functions" "list_functions" "ListFunctionsRequest" ListFunctionsRequest;
   Async "get_function_by_name" "get_function_by_name" "ResolveFunctionRequest" ResolveFunctionRequest;
   Async "get_function_prototype" "get_function_prototype" "GetFunctionPrototypeRequest" GetFunctionPrototypeRequest;
   Async "get_address_info" "get_address_info" "AddrInfoRequest" AddrInfoRequest;
   Async "get_function_at_address" "get_function_at_address" "FunctionAtRequest" FunctionAtRequest;
   Async "batch_lookup_functions" "batch_lookup_functions" "LookupFuncsRequest" LookupFuncsRequest;
   Async "export_functions" "export_functions" "ExportFuncsRequest" ExportFuncsRequest;
   Async "run_auto_analysis" "analyze_funcs" "AnalyzeFuncsRequest" AnalyzeFuncsRequest;
   Async "get_database_info" "idb_meta" "EmptyParams" EmptyParams;
   Async "get_analysis_status" "get_analysis_status" "EmptyParams" EmptyParams].

Definition async_memory : list AsyncTool :=
  [Async "read_bytes" "read_bytes" "GetBytesRequest" GetBytesRequest;
   Async "read_byte" "read_byte" "AddressRequest" AddressRequest;
   Async "read_word" "read_word" "AddressRequest" AddressRequest;
   Async "read_dword" "read_dword" "AddressRequest" AddressRequest;
   Async "read_qword" "read_qword" "AddressRequest" AddressRequest;
   Async "read_string" "read_string" "GetStringRequest" GetStringRequest;
   Async "read_global_variable" "read_global_variable" "GetGlobalValueRequest" GetGlobalValueRequest;
   Async "scan_memory_table" "scan_memory_table" "TableScanRequest" TableScanRequest].

Definition async_misc : list AsyncTool :=
  [Async "build_callgraph" "build_callgraph" "CallGraphRequest" CallGraphRequest;
   Async "build_xref_matrix" "build_xref_matrix" "XrefMatrixRequest" XrefMatrixRequest].

Definition async_search : list AsyncTool :=
  [Async "search_bytes" "search_bytes" "FindBytesRequest" FindBytesRequest;
   Async "search_text" "search_text" "SearchRequest" SearchRequest;
   Async "search_instruction_operands" "search_instruction_operands" "FindInsnOperandsRequest" FindInsnOperandsRequest].

Definition async_xrefs : list AsyncTool :=
  [Async "get_xrefs_to" "get_xrefs_to" "AddressRequest" AddressRequest;
   Async "get_xrefs_from" "get_xrefs_from" "AddressRequest" AddressRequest;
   Async "get_xrefs_to_string" "get_xrefs_to_string" "XrefsToStringRequest" XrefsToStringRequest;
   Async "get_xrefs_to_struct_field" "get_xrefs_to_struct_field" "XrefsToFieldRequest" XrefsToFieldRequest].

Definition async_tools : list AsyncTool :=
  async_analysis ++ async_decompile ++ async_disasm ++ async_editing ++ async_functions ++ async_memory ++ async_misc ++ async_search ++ async_xrefs.

Section invoke.
Context {S : Type}.
Context (worker : ∀ c : WorkerCall, S → result (reply (wc_request c)) ToolError * S).
Context (json_parse : string → option Value) (json_display : Value → string).
Context (de_message : DeError → string) (f64_text : f64 → string).

#[local] Abbreviation dispatch := (dispatch_rpc worker json_parse json_display de_message f64_text).
#[local] Abbreviation table := (dispatch_table worker json_parse json_display de_message f64_text).

Definition invoke_dispatch (method : string) (params : Value) : Rpc Value :=
  dispatch {| req_jsonrpc := "2.0"; req_id := "async-tool"; req_method := method;
              req_params := params |}.

(** [AsyncTool::invoke] *)
Definition invoke (t : AsyncTool) (req : Struct (at_fields t)) : Rpc Value :=
  invoke_dispatch (at_method t) (ser_struct (at_fields t) req).

(** The names of the arms, in the order of the match. *)
Definition arm_names : list string := table.*1.

(** Tools whose method no arm of the dispatcher has. *)
Definition dead_tools : list string :=
  ["convert_number"; "search_structs"; "decompile_structured"; "read_byte"; "read_word";
   "read_dword"; "read_qword"].

(** The tool is dead, or its arm reads the tool's own struct or no struct at all. *)
Definition tool_arm (t : AsyncTool) : Prop :=
  let m := ToolRegistry.primary_name_for (at_method t) in
  (at_name t ∈ dead_tools ∧ m ∉ arm_names) ∨
  (¬ at_name t ∈ dead_tools ∧ (∃ i, arm_names !! i = Some m ∧
     (arm_params !! i = Some (Some (at_struct t, at_fields t)) ∨ arm_params !! i = Some None))).

Lemma async_tool_arms : Forall tool_arm async_tools.
Proof.
  unfold async_tools. cbv delta [async_analysis async_decompile async_disasm async_editing async_functions async_memory async_misc async_search async_xrefs].
  cbn [app].
  repeat (constructor;
    [first
      [left; split; [apply (bool_decide_unpack (_ ∈ dead_tools)); vm_compute; exact I|];
       apply (bool_decide_unpack (_ ∉ arm_names)); vm_compute; exact I
      |right; split; [apply (bool_decide_unpack (_ ∉ dead_tools)); vm_compute; exact I|];
       match goal with
       | |- ∃ i, _ !! i = Some ?m ∧ _ =>
           let r := eval vm_compute in (list_find (λ n, n = m) arm_names) in
           match r with
           | Some (?i, _) => exists i; split; [vm_compute; reflexivity|]
           end
       end; first [left; reflexivity | right; reflexivity]]|]).
  constructor.
Qed.

Lemma async_structs_ok : forallb (λ t, schema_ok (at_fields t)) async_tools = true.
Proof. vm_compute. reflexivity. Qed.

(** A tool reaches the arm of its method, and where that arm reads a struct it reads the
    tool's own struct and gets the very request that the tool was invoked with; the seven
    tools named in [dead_tools] invoke methods that the dispatcher does not have, and
    always fail without asking the worker. *)
Theorem async_tools_reach_their_arm (t : AsyncTool) (req : Struct (at_fields t)) (s : S)
    (Ht : t ∈ async_tools) (Hwf : struct_wf req) :
  let m := ToolRegistry.primary_name_for (at_method t) in
  let p := ser_struct (at_fields t) req in
  (at_name t ∈ dead_tools ∧
   invoke t req s = (Err (InvalidToolName ("Unknown method: " +:+ at_method t)), s)) ∨
  (¬ at_name t ∈ dead_tools ∧ (∃ i h, table !! i = Some (m, h) ∧ invoke t req s = h p s ∧
   (arm_params !! i = Some None ∨
    (arm_params !! i = Some (Some (at_struct t, at_fields t)) ∧
     de_struct (at_struct t) (at_fields t) p = Ok req)))).
Proof.
  intros m p. pose proof async_tool_arms as Hall. rewrite Forall_forall in Hall.
  destruct (Hall t Ht) as [[Hdead Hno]|(Hlive & i & Hi & Harm)]; [left|right].
  - split; [done|]. unfold invoke, invoke_dispatch, dispatch_rpc, lookup_method.
    by rewrite find_key_None.
  - split; [done|]. unfold arm_names in Hi. rewrite list_lookup_fmap in Hi.
    destruct (table !! i) as [[m' h]|] eqn:Hh; [|done]. simpl in Hi. injection Hi as ->.
    exists i, h. split; [done|]. split.
    + unfold invoke, invoke_dispatch.
      by rewrite (dispatch_arm _ _ _ _ _ _ m h s) by (done || by eapply list_elem_of_lookup_2).
    + destruct Harm as [Harm|Harm]; [right; split; [done|]|by left].
      apply struct_roundtrip; [|done]. pose proof async_structs_ok as Hok.
      rewrite forallb_forall in Hok. by apply Hok, list_elem_of_In.
Qed.

(** [SearchTextTool] searches for nothing: its request carries [targets] and [limit],
    the dispatcher reads [text] and [max_results], so that every search is for the empty
    text with the default limit, whatever the client asked for. *)
Theorem search_text_tool_searches_nothing (req : Struct SearchRequest) (s : S)
    (Hwf : struct_wf req) :
  invoke (Async "search_text" "search_text" "SearchRequest" SearchRequest) req s =
  worker (Worker.search_text "" 100 (req @ "timeout_secs")) s.
Proof.
  unfold invoke, invoke_dispatch.
  rewrite (dispatch_arm _ _ _ _ _ _ "search_text" (rpc_search_text worker) s);
    [|apply (list_elem_of_lookup_2 _ 64); reflexivity|reflexivity].
  cbn [req_params at_fields]. unfold rpc_search_text.
  destruct req as [[db [ta [k [l [o [t []]]]]]]]. cbn in Hwf.
  destruct Hwf as (_ & _ & _ & _ & _ & Ht & _).
  set (p := ser_struct SearchRequest _).
  destruct db as [db|]; index_is p "text" Null; index_is p "max_results" Null;
    index_is p "timeout_secs" (ser_option u64_codec t); by rewrite as_u64_option.
Qed.
End invoke.

Lemma async_tools_reach_their_arm_witness :
  invoke sample_worker (λ _, None) (λ _, "") (λ _, "") (λ _, "")
    (Async "read_byte" "read_byte" "AddressRequest" AddressRequest)
    (MkStruct (fs := AddressRequest) (None, (VString "0x10", tt))) 5 =
  (Err (InvalidToolName "Unknown method: read_byte"), 5).
Proof.
  destruct (async_tools_reach_their_arm sample_worker (λ _, None) (λ _, "") (λ _, "") (λ _, "")
    (Async "read_byte" "read_byte" "AddressRequest" AddressRequest)
    (MkStruct (fs := AddressRequest) (None, (VString "0x10", tt))) 5) as [[_ H]|[H _]].
  - apply (list_elem_of_lookup_2 _ 56). reflexivity.
  - cbn. repeat split; done.
  - exact H.
  - exfalso. apply H. apply (bool_decide_unpack (_ ∈ dead_tools)). vm_compute. exact I.
Defined.

Lemma search_text_tool_searches_nothing_witness :
  invoke sample_worker (λ _, None) (λ _, "") (λ _, "") (λ _, "")
    (Async "search_text" "search_text" "SearchRequest" SearchRequest)
    (MkStruct (fs := SearchRequest)
       (None, (VString "main", (Some "text", (Some 5%Z, (None, (None, tt))))))) 5 =
  sample_worker (Worker.search_text "" 100 None) 5.
Proof.
  apply (search_text_tool_searches_nothing sample_worker (λ _, None) (λ _, "") (λ _, "") (λ _, "")
    (MkStruct (fs := SearchRequest)
       (None, (VString "main", (Some "text", (Some 5%Z, (None, (None, tt)))))))).
  cbn. repeat split; done || lia.
Defined.
