(* ===== verification/McpLock.v ===== *)
(** * The lock file of a database (src/ida/lock.rs)

    A process that opens a database holds an [fcntl] write lock on a file next to it, in
    which it leaves its process id.  The operating system is modelled as far as the lock
    uses it: which file the lock path names, what the files hold, which process has the
    lock of which file (POSIX: a lock belongs to a file, not to its name, and closing the
    file gives it up) and which processes run.

    The operations are functions on that state, what a process does when nobody
    interferes.  [lock_step] cuts them into system calls and lets the processes
    interleave.  Acquisitions alone exclude each other under every interleaving; removing
    the file, which releasing, cleaning up and starting a server do, can break the
    exclusion, and the theorems show how. *)

From Stdlib Require Import Ascii.
From stdpp Require Import base gmap strings sets numbers relations list.
From S2P Require Import Prelude RustStr ToolError.

Record Os : Type := {
  link : option nat;             (* the file that the lock path names *)
  data : gmap nat string;        (* the contents of the files *)
  locks : gmap nat Z;            (* the process that has the lock of a file *)
  next_file : nat;
  running : gset Z
}.

(** ** System calls *)

(** [open] with [create] and [truncate] *)
Definition sys_open_truncate (os : Os) : nat * Os :=
  match link os with
  | Some f => (f, {| link := Some f; data := <[f := ""]> (data os); locks := locks os;
                     next_file := next_file os; running := running os |})
  | None => (next_file os,
      {| link := Some (next_file os); data := <[next_file os := ""]> (data os); locks := locks os;
         next_file := S (next_file os); running := running os |})
  end.

(** [fcntl(F_SETLK)] with a write lock; [None] when another process has it. *)
Definition sys_setlk (os : Os) (pid : Z) (f : nat) : option Os :=
  match locks os !! f with
  | Some q =>
      if bool_decide (q = pid) then Some os else None
  | None =>
      Some {| link := link os; data := data os; locks := <[f := pid]> (locks os);
              next_file := next_file os; running := running os |}
  end.

(** [fcntl(F_GETLK)]: who is in the way. *)
Definition sys_getlk (os : Os) (pid : Z) (f : nat) : option Z :=
  match locks os !! f with
  | Some q => if bool_decide (q = pid) then None else Some q
  | None => None
  end.

Definition sys_write (os : Os) (f : nat) (text : string) : Os :=
  {| link := link os; data := <[f := text]> (data os); locks := locks os;
     next_file := next_file os; running := running os |}.

Definition sys_unlink (os : Os) : Os :=
  {| link := None; data := data os; locks := locks os;
     next_file := next_file os; running := running os |}.

(** Closing a descriptor gives up the process's lock of that file. *)
Definition sys_close (os : Os) (pid : Z) (f : nat) : Os :=
  {| link := link os; data := data os;
     locks := if bool_decide (locks os !! f = Some pid) then delete f (locks os) else locks os;
     next_file := next_file os; running := running os |}.

(** ** The text in the lock file *)

Definition lock_info (pid : Z) (host exe : string) (now : Z) : string :=
  "pid=" +:+ fmt_dec pid +:+ newline +:+ "host=" +:+ host +:+ newline +:+
  "exe=" +:+ exe +:+ newline +:+ "opened_at=" +:+ fmt_dec now +:+ newline.

Definition u32_max : Z := 2 ^ 32 - 1.

(** [read_lock_file_pid], given what the file holds: the first line with [pid=] decides. *)
Fixpoint pid_of_lines (ls : list string) : option Z :=
  match ls with
  | [] => None
  | l :: ls =>
      match strip_prefix "pid=" l with
      | Some pid_str => from_str_radix u32_max 10 (trim pid_str)
      | None => pid_of_lines ls
      end
  end.

Definition read_lock_file_pid (text : string) : option Z := pid_of_lines (lines text).

(** ** Operations *)

(** What the process knows of its surroundings: its id, host name, executable, the time,
    and the lock path for messages. *)
Record LockEnv : Type := {
  le_pid : Z;
  le_host : string;
  le_exe : string;
  le_now : Z;
  le_path : string
}.

(** [try_lock_file] *)
Definition try_lock_file (os : Os) (pid : Z) (f : nat) : result Os Z :=
  match sys_setlk os pid f with
  | Some os => Ok os
  | None => Err (default 0%Z (sys_getlk os pid f))
  end.

Definition locked_message (path : string) (pid : Z) : string :=
  if (0 <? pid)%Z then path +:+ " (locked by pid " +:+ fmt_dec pid +:+ ")" else path.

(** [acquire_mcp_lock], when the file can be opened; the lock is the file. *)
Definition acquire_mcp_lock (env : LockEnv) (os : Os) : result nat ToolError * Os :=
  let '(f, os) := sys_open_truncate os in
  match try_lock_file os (le_pid env) f with
  | Err pid => (Err (DatabaseLocked (locked_message (le_path env) pid)), sys_close os (le_pid env) f)
  | Ok os =>
      (Ok f, sys_write os f (lock_info (le_pid env) (le_host env) (le_exe env) (le_now env)))
  end.

(** [release_mcp_lock] and [release_mcp_lock_file]: the path is removed, then the file is
    closed. *)
Definition release_mcp_lock (env : LockEnv) (lock : option nat) (os : Os) : Os :=
  match lock with
  | Some f => sys_close (sys_unlink os) (le_pid env) f
  | None => os
  end.

Record StaleLockInfo : Type := {
  stale_path : string;
  stale_pid : Z;
  stale_reason : string
}.

(** [is_process_running], as [kill(pid, 0)] answers. *)
Definition is_process_running (os : Os) (pid : Z) : bool := bool_decide (pid ∈ running os).

(** [clean_stale_mcp_lock], when reading and removing the file succeed. *)
Definition clean_stale_mcp_lock (env : LockEnv) (os : Os) : option StaleLockInfo * Os :=
  match link os with
  | None => (None, os)
  | Some f =>
      match read_lock_file_pid (default "" (data os !! f)) with
      | None =>
          match try_lock_file os (le_pid env) f with
          | Ok os' =>
              (Some {| stale_path := le_path env; stale_pid := 0;
                       stale_reason := "no valid PID and no fcntl lock held" |},
               sys_unlink (sys_close os' (le_pid env) f))
          | Err _ => (None, sys_close os (le_pid env) f)
          end
      | Some pid =>
          if is_process_running os pid then (None, os)
          else (Some {| stale_path := le_path env; stale_pid := pid;
                        stale_reason := "process " +:+ fmt_dec pid +:+ " is no longer running" |},
                sys_unlink os)
      end
  end.

(** The part of [handle_open] that takes the lock. *)
Definition open_lock (env : LockEnv) (os : Os) : result nat ToolError * Os :=
  acquire_mcp_lock env (clean_stale_mcp_lock env os).2.

(** [clean_stale_imcp_locks] (src/idb_store.rs) removes every lock file of the store.  Its log
    message places it at the start of a server, but nothing calls it. *)
Definition clean_stale_imcp_locks (os : Os) : Os := sys_unlink os.

(** ** The operations when nobody interferes *)

Lemma lock_info_pid pid host exe now :
  (0 ≤ pid ≤ u32_max)%Z → read_lock_file_pid (lock_info pid host exe now) = Some pid.
Proof.
  intros Hpid. unfold read_lock_file_pid, lock_info.
  rewrite <-(string_app_assoc "pid=" (fmt_dec pid)).
  assert (str_all (λ c, negb (bool_decide (c = "010"%char))) ("pid=" +:+ fmt_dec pid) = true) as Hnl.
  { rewrite str_all_app. by rewrite fmt_dec_all. }
  destruct (lines_first _ ("host=" +:+ host +:+ newline +:+ "exe=" +:+ exe +:+ newline +:+
    "opened_at=" +:+ fmt_dec now +:+ newline) Hnl) as [ls ->].
  rewrite strip_cr_all by (rewrite str_all_app; by rewrite fmt_dec_all).
  cbn [pid_of_lines]. rewrite strip_prefix_app, trim_all by (by apply fmt_dec_all).
  apply from_str_radix_fmt; unfold u32_max in *; lia.
Qed.

(** Files that were never created have no lock. *)
Definition os_wf (os : Os) : Prop :=
  (∀ f q, locks os !! f = Some q → f < next_file os) ∧
  (∀ f, link os = Some f → f < next_file os).

Lemma fresh_unlocked os : os_wf os → locks os !! next_file os = None.
Proof.
  intros [Hl _]. destruct (locks os !! next_file os) as [q|] eqn:E; [|done].
  apply Hl in E. lia.
Qed.

Lemma open_truncate_spec os :
  os_wf os →
  let '(f, os') := sys_open_truncate os in
  os_wf os' ∧ link os' = Some f ∧ locks os' = locks os ∧ data os' !! f = Some "" ∧
  running os' = running os ∧
  (link os = Some f ∨ (link os = None ∧ locks os !! f = None)).
Proof.
  intros Hwf. pose proof (fresh_unlocked os Hwf) as Hfresh. destruct Hwf as [Hl Hk].
  unfold sys_open_truncate, os_wf. destruct (link os) as [f|] eqn:E; simpl.
  - split_and!; first [done | intros ? [= <-]; by apply Hk | by rewrite lookup_insert_eq | by left].
  - split_and!; first [done | intros f q H; apply Hl in H; lia | intros f [= <-]; lia
      | by rewrite lookup_insert_eq | by right].
Qed.

Lemma delete_locks_wf os f k :
  os_wf os → (∀ g, k = Some g → g < next_file os) →
  os_wf {| link := k; data := data os; locks := delete f (locks os); next_file := next_file os;
           running := running os |}.
Proof.
  intros [Hl _] Hk. split; [|done]. simpl. intros g q. rewrite lookup_delete_Some.
  intros [_ Hg]. by eapply Hl.
Qed.

Lemma close_wf os pid f : os_wf os → os_wf (sys_close os pid f).
Proof.
  intros Hwf. unfold sys_close. case_bool_decide; [apply delete_locks_wf; [done|apply Hwf]|by destruct Hwf].
Qed.

(** [acquire_mcp_lock] gets the lock of the file that the path names, or is refused because
    another process has it. *)
Lemma acquire_spec env os :
  os_wf os →
  match acquire_mcp_lock env os with
  | (Ok f, os') =>
      os_wf os' ∧ link os' = Some f ∧ locks os' = <[f := le_pid env]> (locks os) ∧
      (∀ q, locks os !! f = Some q → q = le_pid env) ∧ (∀ g, link os = Some g → g = f) ∧
      data os' !! f = Some (lock_info (le_pid env) (le_host env) (le_exe env) (le_now env))
  | (Err e, os') =>
      os_wf os' ∧
      ∃ f q, link os = Some f ∧ locks os !! f = Some q ∧ q ≠ le_pid env ∧
        e = DatabaseLocked (locked_message (le_path env) q) ∧
        link os' = Some f ∧ locks os' = locks os ∧ data os' !! f = Some ""
  end.
Proof.
  intros Hwf. pose proof (open_truncate_spec os Hwf) as Hopen. unfold acquire_mcp_lock.
  destruct (sys_open_truncate os) as [f os1]. destruct Hopen as (Hwf1 & Hk & Hlk & Hd & _ & Hor).
  unfold try_lock_file, sys_setlk, sys_getlk.
  destruct (locks os1 !! f) as [q|] eqn:Hf; rewrite Hlk in Hf.
  - destruct (bool_decide_reflect (q = le_pid env)) as [->|Hne]; simpl.
    + destruct Hwf1 as [Ha Hb]. split_and!; try done.
      * rewrite Hlk. symmetry. by apply insert_id.
      * intros q Hq. congruence.
      * destruct Hor as [->|[-> _]]; congruence.
      * by rewrite lookup_insert_eq.
    + destruct Hor as [Hor|[_ Hor]]; [|congruence]. rewrite Hlk.
      rewrite bool_decide_false by congruence. split; [|exists f, q; by split_and!].
      by apply close_wf.
  - simpl. destruct Hwf1 as [Ha Hb]. split_and!; try done.
    + split; [|done]. simpl. intros g q. rewrite lookup_insert_Some.
      intros [[<- _]|[_ Hg]]; [by apply Hb|by eapply Ha].
    + by rewrite Hlk.
    + by rewrite Hf.
    + destruct Hor as [->|[-> _]]; congruence.
    + by rewrite lookup_insert_eq.
Qed.

(** Another process has the lock of the file that the path names, or nobody else has. *)
Lemma holder_cases os pid :
  (∃ f q, link os = Some f ∧ locks os !! f = Some q ∧ q ≠ pid) ∨
  (∀ f q, link os = Some f → locks os !! f = Some q → q = pid).
Proof.
  destruct (link os) as [f|]; [|right; by intros].
  destruct (locks os !! f) as [q|] eqn:Hq; [|right; naive_solver].
  destruct (decide (q = pid)) as [->|Hne]; [right|left]; naive_solver.
Qed.

(** [clean_stale_mcp_lock] leaves the lock file of another process alone, unless the file
    names a process that is dead. *)
Lemma clean_keeps_holder env os f q :
  link os = Some f → locks os !! f = Some q → q ≠ le_pid env →
  (∀ pid, read_lock_file_pid (default "" (data os !! f)) = Some pid → pid ∈ running os) →
  (clean_stale_mcp_lock env os).1 = None ∧ (clean_stale_mcp_lock env os).2 = os.
Proof.
  intros Hk Hq Hne Hpid. unfold clean_stale_mcp_lock. rewrite Hk.
  destruct (read_lock_file_pid _) as [pid|] eqn:Hr.
  - unfold is_process_running. by rewrite bool_decide_true by auto.
  - unfold try_lock_file, sys_setlk. rewrite Hq, bool_decide_false by done. simpl. split; [done|].
    unfold sys_close. rewrite Hq, bool_decide_false by congruence. by destruct os.
Qed.

(** What is not locked by another process can be had. *)
Lemma clean_unlocked env os :
  os_wf os → (∀ f q, link os = Some f → locks os !! f = Some q → q = le_pid env) →
  let os' := (clean_stale_mcp_lock env os).2 in
  os_wf os' ∧ (∀ f q, link os' = Some f → locks os' !! f = Some q → q = le_pid env).
Proof.
  intros Hwf Hown. unfold clean_stale_mcp_lock. destruct (link os) as [f|] eqn:Hk;
    [|simpl; rewrite ?Hk; split; [done|by intros]].
  assert (∀ os', os_wf os' → link os' = None →
    os_wf os' ∧ (∀ f q, link os' = Some f → locks os' !! f = Some q → q = le_pid env)) as Hnone.
  { intros os' ? ->. split; [done|]. by intros. }
  destruct (read_lock_file_pid _) as [pid|]; [destruct (is_process_running os pid)|].
  - simpl. rewrite ?Hk. split; [done|]. exact Hown.
  - apply Hnone; [|done]. destruct Hwf. by split.
  - destruct Hwf as [Hl Hb]. unfold try_lock_file, sys_setlk.
    destruct (locks os !! f) as [q|] eqn:Hf.
    + rewrite bool_decide_true by (by eapply Hown). apply Hnone; [|done]. split; [|done]. simpl.
      intros g q'. case_bool_decide; [rewrite lookup_delete_Some; intros [_ Hg]|intros Hg]; eauto.
    + apply Hnone; [|done]. split; [|done]. simpl. intros g q'.
      rewrite bool_decide_true by (by rewrite lookup_insert_eq).
      rewrite lookup_delete_Some, lookup_insert_Some. naive_solver.
Qed.

(** Opening a database with the lock code alone: while another process has the lock of
    the lock file, the attempt is refused with that process's id and the lock and its file
    stay; when nobody else has it, be the file missing, left by a dead process or empty,
    the lock is obtained and the file names the new holder. *)
Theorem open_lock_outcome (env : LockEnv) (os : Os)
    (Hwf : os_wf os)
    (Hpid : ∀ f pid, link os = Some f → locks os !! f = Some pid → pid ≠ le_pid env →
       ∀ p, read_lock_file_pid (default "" (data os !! f)) = Some p → p ∈ running os)
    (Hid : (0 ≤ le_pid env ≤ u32_max)%Z) :
  match open_lock env os with
  | (Err e, os') =>
      ∃ f q, link os = Some f ∧ locks os !! f = Some q ∧ q ≠ le_pid env ∧
        e = DatabaseLocked (locked_message (le_path env) q) ∧
        link os' = Some f ∧ locks os' !! f = Some q
  | (Ok f, os') =>
      (∀ g q, link os = Some g → locks os !! g = Some q → q = le_pid env) ∧
      link os' = Some f ∧ locks os' !! f = Some (le_pid env) ∧
      read_lock_file_pid (default "" (data os' !! f)) = Some (le_pid env)
  end.
Proof.
  unfold open_lock.
  destruct (holder_cases os (le_pid env)) as [(f & q & Hk & Hq & Hne)|Hfree].
  - destruct (clean_keeps_holder env os f q Hk Hq Hne) as [_ ->]; [by eapply Hpid|].
    pose proof (acquire_spec env os Hwf) as Hacq.
    destruct (acquire_mcp_lock env os) as [[g|e] os'].
    + destruct Hacq as (_ & Hg & _ & Hown & Hlink & _). rewrite (Hlink f Hk) in Hq. by apply Hown in Hq.
    + destruct Hacq as (_ & g & q' & ? & Hq' & ? & -> & ? & Hl & _). exists g, q'. rewrite Hl. by split_and!.
  - destruct (clean_unlocked env os Hwf Hfree) as [Hwf1 Hfree1].
    pose proof (acquire_spec env _ Hwf1) as Hacq.
    destruct (acquire_mcp_lock env _) as [[g|e] os'].
    + destruct Hacq as (_ & Hg & Hl & _ & _ & Hd). split_and!; [done|done| |].
      * by rewrite Hl, lookup_insert_eq.
      * rewrite Hd. by apply lock_info_pid.
    + destruct Hacq as (_ & g & q & Hk & Hq & Hne & _). by apply (Hfree1 g q) in Hk.
Qed.

(** Removing the lock files when a server starts would break the exclusion: it takes the lock
    file of every database in the store, also of those that are open, and the next process to
    open such a database is given a lock on a new file while the first one keeps its own. *)
Theorem startup_gives_second_lock (env1 env2 : LockEnv) (os os1 : Os) (f : nat)
    (Hwf : os_wf os) (Hheld : acquire_mcp_lock env1 os = (Ok f, os1)) :
  let os2 := clean_stale_imcp_locks os1 in
  ∃ g os3, open_lock env2 os2 = (Ok g, os3) ∧ g ≠ f ∧
    locks os3 !! f = Some (le_pid env1) ∧ locks os3 !! g = Some (le_pid env2).
Proof.
  intros os2. pose proof (acquire_spec env1 os Hwf) as Hacq. rewrite Hheld in Hacq.
  destruct Hacq as ([Hl1 Hk1] & Hf & Hl & _).
  assert (os_wf os2) as Hwf2 by (split; [exact Hl1|done]).
  unfold open_lock, clean_stale_mcp_lock. cbn [os2 clean_stale_imcp_locks sys_unlink link snd].
  change (clean_stale_imcp_locks os1) with os2.
  unfold acquire_mcp_lock, sys_open_truncate. cbn [os2 clean_stale_imcp_locks sys_unlink link].
  unfold try_lock_file, sys_setlk. cbn [locks].
  rewrite (fresh_unlocked os2 Hwf2). specialize (Hk1 f Hf).
  eexists _, _. split; [done|]. cbn [sys_write locks next_file].
  assert (next_file os1 ≠ f) as Hne by lia. split; [done|]. split.
  - rewrite lookup_insert_ne by done. change (locks os2) with (locks os1).
    by rewrite Hl, lookup_insert_eq.
  - by rewrite lookup_insert_eq.
Qed.

(** ** Processes that interleave *)

(** Where a process is: between the system calls of cleaning up, acquiring, releasing. *)
Inductive Pc : Type :=
| Idle
| Stale                  (* clean_stale: decided to remove the file *)
| Probing (f : nat)      (* clean_stale: opened a file without a process id *)
| Probed (f : nat)       (* clean_stale: got the lock of that file *)
| Opened (f : nat)       (* acquire: opened the file *)
| Locked (f : nat)       (* acquire: got the lock *)
| Holding (f : nat)      (* acquire has returned *)
| Closing (f : nat).     (* release: removed the path *)

Record St : Type := { st_os : Os; st_pc : gmap Z Pc }.

Definition set_pc (p : Z) (pc : Pc) (os : Os) (st : St) : St :=
  {| st_os := os; st_pc := <[p := pc]> (st_pc st) |}.

(** The system calls that take a lock, and those that remove the file. *)
Inductive Phase : Type := Acquires | Removes.

Inductive lock_step : Phase → St → St → Prop :=
| step_start p st :
    p ∉ running (st_os st) →
    lock_step Acquires st
      {| st_os := {| link := link (st_os st); data := data (st_os st); locks := locks (st_os st);
                     next_file := next_file (st_os st); running := {[p]} ∪ running (st_os st) |};
         st_pc := <[p := Idle]> (st_pc st) |}
| step_open p st f os :
    st_pc st !! p = Some Idle → sys_open_truncate (st_os st) = (f, os) →
    lock_step Acquires st (set_pc p (Opened f) os st)
| step_lock p st f os :
    st_pc st !! p = Some (Opened f) → sys_setlk (st_os st) p f = Some os →
    lock_step Acquires st (set_pc p (Locked f) os st)
| step_refused p st f :
    st_pc st !! p = Some (Opened f) → sys_setlk (st_os st) p f = None →
    lock_step Acquires st (set_pc p Idle (sys_close (st_os st) p f) st)
| step_write p st f text :
    st_pc st !! p = Some (Locked f) →
    lock_step Acquires st (set_pc p (Holding f) (sys_write (st_os st) f text) st)
| step_crash p st pc :
    st_pc st !! p = Some pc →
    lock_step Acquires st
      {| st_os := {| link := link (st_os st); data := data (st_os st);
                     locks := filter (λ fq, fq.2 ≠ p) (locks (st_os st));
                     next_file := next_file (st_os st); running := running (st_os st) ∖ {[p]} |};
         st_pc := delete p (st_pc st) |}
| step_stale p st f pid :
    st_pc st !! p = Some Idle → link (st_os st) = Some f →
    read_lock_file_pid (default "" (data (st_os st) !! f)) = Some pid →
    pid ∉ running (st_os st) →
    lock_step Removes st (set_pc p Stale (st_os st) st)
| step_probe p st f :
    st_pc st !! p = Some Idle → link (st_os st) = Some f →
    read_lock_file_pid (default "" (data (st_os st) !! f)) = None →
    lock_step Removes st (set_pc p (Probing f) (st_os st) st)
| step_probe_lock p st f os :
    st_pc st !! p = Some (Probing f) → sys_setlk (st_os st) p f = Some os →
    lock_step Removes st (set_pc p (Probed f) os st)
| step_probe_refused p st f :
    st_pc st !! p = Some (Probing f) → sys_setlk (st_os st) p f = None →
    lock_step Removes st (set_pc p Idle (sys_close (st_os st) p f) st)
| step_probe_close p st f :
    st_pc st !! p = Some (Probed f) →
    lock_step Removes st (set_pc p Stale (sys_close (st_os st) p f) st)
| step_remove p st :
    st_pc st !! p = Some Stale →
    lock_step Removes st (set_pc p Idle (sys_unlink (st_os st)) st)
| step_release p st f :
    st_pc st !! p = Some (Holding f) →
    lock_step Removes st (set_pc p (Closing f) (sys_unlink (st_os st)) st)
| step_close p st f :
    st_pc st !! p = Some (Closing f) →
    lock_step Removes st (set_pc p Idle (sys_close (st_os st) p f) st).

(** Nothing runs and nothing is locked; a lock file may be there. *)
Definition st_init (st : St) : Prop := st_pc st = ∅ ∧ locks (st_os st) = ∅.

Definition holds (st : St) (p : Z) : Prop := ∃ f, st_pc st !! p = Some (Holding f).

(** ** Acquisitions exclude each other *)

(** What every process knows while the file is never removed. *)
Definition pc_ok (os : Os) (p : Z) (pc : Pc) : Prop :=
  match pc with
  | Idle => True
  | Opened f => link os = Some f
  | Locked f | Holding f => link os = Some f ∧ locks os !! f = Some p
  | _ => False
  end.

Definition acquire_inv (st : St) : Prop := ∀ p pc, st_pc st !! p = Some pc → pc_ok (st_os st) p pc.

(** Changing the state of one process: it must satisfy its own condition, and what it did to
    the files must keep everybody else's. *)
Lemma acquire_inv_set p pc os st :
  acquire_inv st → pc_ok os p pc →
  (∀ q pc', q ≠ p → pc_ok (st_os st) q pc' → pc_ok os q pc') →
  acquire_inv (set_pc p pc os st).
Proof.
  intros Hinv Hp Hothers q pc'. cbn [set_pc st_pc st_os]. rewrite lookup_insert_Some.
  intros [[<- <-]|[Hne Hq]]; [done|]. apply Hothers; [done|]. by apply Hinv.
Qed.

Lemma open_keeps_pc_ok os f os' q pc :
  sys_open_truncate os = (f, os') → pc_ok os q pc → pc_ok os' q pc.
Proof.
  unfold sys_open_truncate. destruct (link os) as [g|] eqn:Hk; intros [= <- <-];
    destruct pc; simpl; rewrite ?Hk; naive_solver.
Qed.

Lemma setlk_keeps_pc_ok os p f os' q pc :
  sys_setlk os p f = Some os' → q ≠ p → pc_ok os q pc → pc_ok os' q pc.
Proof.
  unfold sys_setlk. destruct (locks os !! f) as [r|] eqn:Hf; [case_bool_decide|];
    intros [= <-] Hne; [done|].
  destruct pc as [| | | | |g|g|]; simpl; try done;
    (intros [? Hg]; split; [done|]; rewrite lookup_insert_ne; [done|congruence]).
Qed.

Lemma acquire_inv_step st st' :
  lock_step Acquires st st' → acquire_inv st → acquire_inv st'.
Proof.
  intros Hstep Hinv. inversion Hstep as
    [p ? Hrun|p ? f os Hpc Hopen|p ? f os Hpc Hlk|p ? f Hpc Hlk|p ? f text Hpc|p ? pc Hpc| | | | | | | |];
    subst; try (apply acquire_inv_set; [done| |]).
  - done.
  - intros q pc' _ Hq. by destruct pc'.
  - unfold sys_open_truncate in Hopen. destruct (link (st_os st)); by injection Hopen as <- <-.
  - intros q pc' _. by apply open_keeps_pc_ok with (f := f).
  - apply Hinv in Hpc. simpl in Hpc. unfold sys_setlk in Hlk.
    destruct (locks (st_os st) !! f) eqn:Hf; [case_bool_decide|]; simplify_eq; simpl; [done|].
    by rewrite lookup_insert_eq.
  - intros q pc'. by apply setlk_keeps_pc_ok with (f := f).
  - done.
  - intros q pc' _ Hq. unfold sys_close. unfold sys_setlk in Hlk.
    destruct (locks (st_os st) !! f) as [r|] eqn:Hf; [|done].
    destruct (bool_decide_reflect (r = p)) as [|Hr]; [done|].
    rewrite bool_decide_false by congruence. by destruct pc'.
  - by apply Hinv in Hpc.
  - intros q pc' _ Hq. by destruct pc'.
  - intros q pc'. cbn [st_pc st_os]. rewrite lookup_delete_Some. intros [Hne Hq].
    apply Hinv in Hq. destruct pc'; simpl in *; try done;
      (destruct Hq as [? Hq]; split; [done|]; apply map_lookup_filter_Some_2; [done|by simpl]).
Qed.


(** A holder, and a run in which it takes the lock. *)
Definition one_process : St :=
  {| st_os := {| link := None; data := ∅; locks := ∅; next_file := 0; running := ∅ |}; st_pc := ∅ |}.

Definition after_start (p : Z) (st : St) : St :=
  {| st_os := {| link := link (st_os st); data := data (st_os st); locks := locks (st_os st);
                 next_file := next_file (st_os st); running := {[p]} ∪ running (st_os st) |};
     st_pc := <[p := Idle]> (st_pc st) |}.

Definition after_open (p : Z) (st : St) : St :=
  set_pc p (Opened (sys_open_truncate (st_os st)).1) (sys_open_truncate (st_os st)).2 st.

Definition after_lock (p : Z) (f : nat) (st : St) : St :=
  set_pc p (Locked f) (default (st_os st) (sys_setlk (st_os st) p f)) st.

Definition after_write (p : Z) (f : nat) (st : St) : St :=
  set_pc p (Holding f) (sys_write (st_os st) f "") st.


(** ** Releasing while another process is between opening and locking *)

Definition any_step (st st' : St) : Prop := ∃ ph, lock_step ph st st'.

Lemma open_any p st : st_pc st !! p = Some Idle → any_step st (after_open p st).
Proof. exists Acquires. apply (step_open p); [done|]. apply surjective_pairing. Qed.

Lemma lock_any p f st :
  st_pc st !! p = Some (Opened f) → locks (st_os st) !! f = None → any_step st (after_lock p f st).
Proof.
  intros Hpc Hf. exists Acquires. apply (step_lock p); [done|]. unfold sys_setlk. by rewrite Hf.
Qed.

Lemma write_any p f st :
  st_pc st !! p = Some (Locked f) → any_step st (after_write p f st).
Proof. exists Acquires. by apply (step_write p). Qed.

(** Releasing is not safe against an acquisition in progress: from any state in which a
    process holds the lock and two others are idle, some interleaving of one release and two
    acquisitions lets both of the others hold a lock at once.  The release removes the path
    between the second process's open and lock, which then locks a file without a name. *)
Theorem release_race_two_holders (st : St) (a b c : Z) (f : nat)
    (Hwf : os_wf (st_os st)) (Hlink : link (st_os st) = Some f)
    (Ha : st_pc st !! a = Some (Holding f)) (Hlock : locks (st_os st) !! f = Some a)
    (Hb : st_pc st !! b = Some Idle) (Hc : st_pc st !! c = Some Idle) (Hbc : b ≠ c) :
  ∃ st', rtc any_step st st' ∧ holds st' b ∧ holds st' c.
Proof.
  assert (a ≠ b) as Hab by congruence. assert (a ≠ c) as Hac by congruence.
  pose proof (fresh_unlocked _ Hwf) as Hfresh.
  assert (f < next_file (st_os st)) as Hf by (by apply Hwf).
  destruct st as [[k d l n r] pcs]. simpl in *. subst k.
  eexists. split; [|split; [exists f|exists n]].
  - eapply rtc_l; [apply (open_any b); simpl; by simplify_map_eq|].
    eapply rtc_l; [exists Removes; apply (step_release a _ f); simpl; by simplify_map_eq|].
    eapply rtc_l; [exists Removes; apply (step_close a _ f); simpl; by simplify_map_eq|].
    eapply rtc_l; [apply (lock_any b f); simpl; rewrite ?bool_decide_true by done; by simplify_map_eq|].
    eapply rtc_l; [apply (write_any b f); simpl; by simplify_map_eq|].
    unfold after_lock, sys_setlk, set_pc at 1. simpl.
    rewrite bool_decide_true, lookup_delete_eq by done. simpl.
    eapply rtc_l; [apply (open_any c); simpl; by simplify_map_eq|].
    eapply rtc_l; [apply (lock_any c n); simpl; [by simplify_map_eq|]|].
    { by rewrite lookup_insert_ne, lookup_delete_ne by lia. }
    eapply rtc_once. apply (write_any c n). simpl. by simplify_map_eq.
  - simpl. by simplify_map_eq.
  - simpl. by simplify_map_eq.
Qed.

(** *** The theorems at concrete states *)

Definition sample_env (pid : Z) : LockEnv :=
  {| le_pid := pid; le_host := "host"; le_exe := "/bin/ida-mcp"; le_now := 1700000000;
     le_path := "/db/a.imcp" |}.

Definition empty_os : Os :=
  {| link := None; data := ∅; locks := ∅; next_file := 0; running := {[7; 8]}%Z |}.

Lemma empty_os_wf : os_wf empty_os.
Proof. split; [|done]. simpl. intros f q H. by rewrite lookup_empty in H. Qed.

Lemma open_lock_outcome_witness :
  os_wf empty_os ∧
  ∃ os', open_lock (sample_env 7) empty_os = (Ok 0, os') ∧ locks os' !! 0 = Some 7%Z.
Proof.
  split; [exact empty_os_wf|].
  pose proof (open_lock_outcome (sample_env 7) empty_os empty_os_wf ltac:(intros f pid [=])
    ltac:(unfold u32_max; simpl; lia)) as H.
  eexists. split; [reflexivity|]. exact (proj1 (proj2 (proj2 H))).
Defined.

Lemma startup_gives_second_lock_witness :
  ∃ os1 g os3,
    acquire_mcp_lock (sample_env 7) empty_os = (Ok 0, os1) ∧
    open_lock (sample_env 8) (clean_stale_imcp_locks os1) = (Ok g, os3) ∧
    locks os3 !! 0 = Some 7%Z ∧ locks os3 !! g = Some 8%Z.
Proof.
  eexists.
  destruct (startup_gives_second_lock (sample_env 7) (sample_env 8) empty_os _ 0
    empty_os_wf eq_refl) as (g & os3 & H1 & _ & H2 & H3).
  exists g, os3. split; [reflexivity|]. split; [exact H1|]. split; [exact H2|exact H3].
Defined.

Definition race_state : St :=
  {| st_os := {| link := Some 0; data := ∅; locks := {[0 := 1%Z]}; next_file := 1;
                 running := {[1; 2; 3]}%Z |};
     st_pc := <[1%Z := Holding 0]> (<[2%Z := Idle]> {[3%Z := Idle]}) |}.

Lemma release_race_two_holders_witness :
  ∃ st', rtc any_step race_state st' ∧ holds st' 2 ∧ holds st' 3.
Proof.
  apply (release_race_two_holders race_state 1 2 3 0); try reflexivity; [|lia].
  split; simpl.
  - intros f q H. apply lookup_singleton_Some in H as [<- _]. lia.
  - intros f [= <-]. lia.
Defined.
