(* ===== verification/OpenDatabase.v ===== *)
(** * Opening and closing a database in the worker (src/ida/handlers/database.rs)

    [handle_open] with all its branches, the closing arms of the worker loop, and the backend
    boundary of src/ida/backend.rs.  IDA itself ([idalib]) is a parameter: the databases it
    opens and what they answer.  The lock files are those of [McpLock], one per lock path;
    the store of databases is the directory of [IdbStore]. *)

From Stdlib Require Import Ascii.
From stdpp Require Import base gmap strings numbers list.
From S2P Require Import Prelude RustStr Json ToolError Runtime Router Fs IdbStore McpLock.

(** What [IDB::open] is told about a raw binary. *)
Record RawDatabaseOptions : Type := {
  rdo_auto_analyse : bool;
  rdo_save : bool;
  rdo_idb_output : string;
  rdo_file_type : option string;
  rdo_extra_args : list string
}.

(** [idalib].  Opening may turn out differently each time; the first argument of the
    operations that can fail is the moment.  An error is its text. *)
Class Idalib : Type := {
  IDB : Type;
  ida_version : result IdaRuntimeVersion string;
  open_with : nat → string → bool → bool → result IDB string;
  open_options : nat → string → RawDatabaseOptions → result IDB string;
  idb_load_debug_info : nat → IDB → string → bool → result bool string;
  idb_file : IDB → string;
  meta_filetype : IDB → string;
  processor_long_name : IDB → string;
  is_64bit : IDB → bool;
  is_32bit_exactly : IDB → bool;
  db_function_count : IDB → Z;
  is_auto_enabled : IDB → bool;
  auto_is_ok : IDB → bool;
  auto_state : IDB → Z
}.

(** An [IDB] knows the path that it was opened with. *)
Class IdalibPaths `{Idalib} : Prop := {
  open_with_file : ∀ t p a s db, open_with t p a s = Ok db → idb_file db = p;
  open_options_file : ∀ t p o db, open_options t p o = Ok db → idb_file db = p
}.

(** The process and its surroundings, as far as opening uses them. *)
Class OpenEnv : Type := {
  e_pid : Z;
  e_host : string;
  e_exe : string;
  e_home : option string;
  e_epoch_secs : nat → Z;
  e_exists : nat → string → bool;
  e_locked_by : nat → string → option Z;    (* locks that others have on files of a database *)
  e_lock_create_error : nat → string → option string;
  e_io : nat → Io;
  e_idb_root : string
}.

(** Lock files by path, the store's directory, the debug files that were loaded into the open
    database, the moment. *)
Record World : Type := {
  w_locks : string → Os;
  w_store : list DirEntry;
  w_debug_loads : list string;
  w_tick : nat
}.

Definition set_lock (p : string) (os : Os) (w : World) : World :=
  {| w_locks := λ q, if bool_decide (q = p) then os else w_locks w q;
     w_store := w_store w; w_debug_loads := w_debug_loads w; w_tick := w_tick w |}.

Definition set_store (d : list DirEntry) (w : World) : World :=
  {| w_locks := w_locks w; w_store := d; w_debug_loads := w_debug_loads w; w_tick := w_tick w |}.

Definition add_debug_load (p : string) (w : World) : World :=
  {| w_locks := w_locks w; w_store := w_store w; w_debug_loads := w_debug_loads w ++ [p];
     w_tick := w_tick w |}.

(** The variables of [run_ida_loop]. *)
Record LoopVars `{Idalib} : Type := {
  idb : option IDB;
  lock_file : option nat;
  lock_path : option string;
  lib_initialized : bool
}.

(** ** Results *)

Record AnalysisStatusInfo : Type := {
  as_auto_enabled : bool;
  as_auto_is_ok : bool;
  as_auto_state : string;
  as_auto_state_id : Z;
  as_analysis_running : bool
}.

Record DebugInfoLoad : Type := {
  dl_path : string;
  dl_loaded : bool;
  dl_error : option string
}.

Record DbInfo : Type := {
  di_path : string;
  di_file_type : string;
  di_processor : string;
  di_bits : Z;
  di_function_count : Z;
  di_debug_info : option DebugInfoLoad;
  di_analysis_status : AnalysisStatusInfo
}.

(** [auto_state_name] *)
Definition auto_state_name (state : Z) : string :=
  match state with
  | 0 => "AU_NONE" | 10 => "AU_UNK" | 20 => "AU_CODE" | 25 => "AU_WEAK" | 30 => "AU_PROC"
  | 35 => "AU_TAIL" | 38 => "AU_FCHUNK" | 40 => "AU_USED" | 45 => "AU_USD2" | 50 => "AU_TYPE"
  | 60 => "AU_LIBF" | 70 => "AU_LBF2" | 80 => "AU_LBF3" | 90 => "AU_CHLB" | 200 => "AU_FINAL"
  | _ => "AU_UNKNOWN"
  end%Z.

(** ** Paths *)

Definition lock_path_of (db_path : string) : string := with_extension "imcp" db_path.

Definition ext_of (path : string) : option string := file_name path ≫= extension.

(** [dsym_expected_path_for_binary] *)
Definition dsym_expected_path_for_binary (path : string) : option string :=
  match file_name path with
  | Some name => Some (path +:+ ".dSYM/Contents/Resources/DWARF/" +:+ name)
  | None => None
  end.

(** [unpacked_id0_path] *)
Definition unpacked_id0_path (path : string) : option string :=
  match ext_of path with
  | Some ext => if bool_decide (ext = "i64" ∨ ext = "idb") then Some (with_extension "id0" path) else None
  | None => None
  end.

Section open.
Context `{Idalib} `{OpenEnv} `{HashOrder} `{StoreEnv}.

Definition build_analysis_status (db : IDB) : AnalysisStatusInfo :=
  {| as_auto_enabled := is_auto_enabled db; as_auto_is_ok := auto_is_ok db;
     as_auto_state := auto_state_name (auto_state db); as_auto_state_id := auto_state db;
     as_analysis_running := is_auto_enabled db && negb (auto_is_ok db) |}.

Definition build_db_info (db : IDB) (path : string) (debug_info : option DebugInfoLoad) : DbInfo :=
  {| di_path := path; di_file_type := meta_filetype db; di_processor := processor_long_name db;
     di_bits := if is_64bit db then 64 else if is_32bit_exactly db then 32 else 16;
     di_function_count := db_function_count db; di_debug_info := debug_info;
     di_analysis_status := build_analysis_status db |}.

(** ** The backend *)

Definition ensure_runtime_can_open : result () string :=
  match ida_version with
  | Err e => Err e
  | Ok v =>
      let probe := select_worker_backend v in
      if supported probe then Ok ()
      else Err (default "native backend is not supported" (reason probe))
  end.

Definition open_existing_database (t : nat) (path : string) (auto_analyse save : bool) : result IDB string :=
  match ensure_runtime_can_open with
  | Err e => Err e
  | Ok _ => open_with t path auto_analyse save
  end.

Definition open_raw_binary (t : nat) (path : string) (o : RawDatabaseOptions) : result IDB string :=
  match ensure_runtime_can_open with
  | Err e => Err e
  | Ok _ => open_options t path o
  end.

(** ** Files and locks *)

(** A lock file is seen in [w_locks], a stored database in [w_store], any other file by the
    environment. *)
Definition path_exists (w : World) (p : string) : bool :=
  e_exists (w_tick w) p ||
  bool_decide (is_Some (link (w_locks w p))) ||
  existsb (λ e, bool_decide (Fs.path_join e_idb_root (de_name e) = p)) (w_store w).

Definition dsym_path_for_binary (w : World) (path : string) : option string :=
  match dsym_expected_path_for_binary path with
  | Some p => if path_exists w p then Some p else None
  | None => None
  end.

(** [locked_by_pid] *)
Definition locked_by_pid (w : World) (p : string) : option Z :=
  match link (w_locks w p) with
  | Some f => sys_getlk (w_locks w p) e_pid f
  | None => e_locked_by (w_tick w) p
  end.

(** The files that [detect_db_lock] asks about. *)
Definition lock_candidates (path : string) : list string :=
  [path] ++
  match ext_of path with
  | Some ext =>
      if bool_decide (ext = "i64" ∨ ext = "idb" ∨ ext = "id0") then
        (if bool_decide (ext = "id0") then [with_extension "i64" path] else []) ++
        [with_extension "id0" path; with_extension "id1" path; with_extension "nam" path]
      else []
  | None => []
  end ++ [with_extension "imcp" path].

Definition lock_report (w : World) (p : string) : option string :=
  if path_exists w p then
    match locked_by_pid w p with
    | Some 0%Z => Some (p +:+ " (locked by another process)")
    | Some pid => Some (p +:+ " (locked by pid " +:+ fmt_dec pid +:+ ")")
    | None => None
    end
  else None.

(** [detect_db_lock]: the first candidate that is locked. *)
Definition detect_db_lock (w : World) (path : string) : option string :=
  head (omap (lock_report w) (lock_candidates path)).

Definition lock_env (t : nat) (db_path : string) : LockEnv :=
  {| le_pid := e_pid; le_host := e_host; le_exe := e_exe; le_now := e_epoch_secs t;
     le_path := lock_path_of db_path |}.

(** [clean_stale_mcp_lock] and [acquire_mcp_lock] at the lock path of a database. *)
Definition clean_lock_at (db_path : string) (w : World) : World :=
  let p := lock_path_of db_path in
  set_lock p (clean_stale_mcp_lock (lock_env (w_tick w) db_path) (w_locks w p)).2 w.

Definition acquire_lock_at (db_path : string) (w : World) : result nat ToolError * World :=
  let p := lock_path_of db_path in
  match e_lock_create_error (w_tick w) p with
  | Some e => (Err (OpenFailed (p +:+ ": " +:+ e)), w)
  | None =>
      let '(r, os) := acquire_mcp_lock (lock_env (w_tick w) db_path) (w_locks w p) in
      (r, set_lock p os w)
  end.

(** [release_mcp_lock_file]: remove the path, close the file. *)
Definition release_lock_at (p : string) (f : nat) (w : World) : World :=
  set_lock p (sys_close (sys_unlink (w_locks w p)) e_pid f) w.

(** [release_mcp_lock] on the variables of the loop. *)
Definition release_vars (v : LoopVars) (w : World) : LoopVars * World :=
  let w := match lock_path v with Some p => set_lock p (sys_unlink (w_locks w p)) w | None => w end in
  let w := match lock_path v, lock_file v with
           | Some p, Some f => set_lock p (sys_close (w_locks w p) e_pid f) w
           | _, _ => w
           end in
  ({| idb := idb v; lock_file := None; lock_path := None; lib_initialized := lib_initialized v |}, w).

(** ** Debug information *)

(** What [load_debug_info] of a database reports for a file. *)
Definition load_debug_file (w : World) (db : IDB) (path : string) (verbose : bool) : DebugInfoLoad * World :=
  if negb (path_exists w path) then
    ({| dl_path := path; dl_loaded := false; dl_error := Some "debug info not found" |}, w)
  else
    (match idb_load_debug_info (w_tick w) db path verbose with
     | Ok true => {| dl_path := path; dl_loaded := true; dl_error := None |}
     | Ok false => {| dl_path := path; dl_loaded := false; dl_error := Some "load returned false" |}
     | Err e => {| dl_path := path; dl_loaded := false; dl_error := Some e |}
     end, add_debug_load path w).

Definition drop_idb_ext (path : string) : string :=
  match ext_of path with
  | Some ext =>
      if bool_decide (to_ascii_lowercase ext = "i64" ∨ to_ascii_lowercase ext = "idb")
      then with_extension "" path else path
  | None => path
  end.

(** The part of [handle_open] that loads debug information: the file that the request or the
    naming convention gives, or, without a request, the [.dSYM] next to a binary that had no
    database yet. *)
Definition debug_info_of (w : World) (db : IDB) (is_idb load : bool) (path : option string)
    (verbose : bool) (expanded : string) (dsym_path : option string) : option DebugInfoLoad * World :=
  if load then
    let resolved :=
      match path with
      | Some p => Some p
      | None => dsym_expected_path_for_binary (if is_idb then drop_idb_ext expanded else expanded)
      end in
    match resolved with
    | Some p => let '(d, w) := load_debug_file w db p verbose in (Some d, w)
    | None => (None, w)
    end
  else
    (None, match dsym_path with Some p => add_debug_load p w | None => w end).

(** [handle_load_debug_info] *)
Definition handle_load_debug_info (w : World) (db : option IDB) (path : option string)
    (verbose : bool) : result Value ToolError * World :=
  match db with
  | None => (Err NoDatabaseOpen, w)
  | Some db =>
      match (match path with
             | Some p => Ok p
             | None =>
                 match dsym_path_for_binary w (drop_idb_ext (idb_file db)) with
                 | Some p => Ok p
                 | None => Err (InvalidPath "No sibling .dSYM found")
                 end
             end) with
      | Err e => (Err e, w)
      | Ok p =>
          if negb (path_exists w p) then (Err (InvalidPath ("File not found: " +:+ p)), w)
          else
            (match idb_load_debug_info (w_tick w) db p verbose with
             | Ok loaded => Ok (Object [("loaded", Bool loaded); ("path", VString p)])
             | Err e => Err (IdaError e)
             end, add_debug_load p w)
      end
  end.

(** ** Opening *)

Definition is_idb_ext (path : string) : bool :=
  bool_decide (to_ascii_lowercase (default "" (ext_of path)) ∈ ["i64"; "idb"; "id0"]).

(** The store's database for a raw binary. *)
Definition raw_out_path (w : World) (expanded : string) : string :=
  default (idb_path e_idb_root expanded) (lookup_idb (e_io (w_tick w)) e_idb_root expanded (w_store w)).

(** The call to the backend: what it opened, and the path that is reported. *)
Definition open_backend (w : World) (expanded out_path : string) (is_idb : bool) (file_type : option string)
    (auto_analyse : bool) (extra_args : list string) : result IDB string * string :=
  if is_idb then
    match open_existing_database (w_tick w) expanded false true with
    | Ok db => (Ok db, expanded)
    | Err e =>
        match unpacked_id0_path expanded with
        | Some id0 =>
            if path_exists w id0 then (open_existing_database (w_tick w) id0 false true, id0)
            else (Err e, expanded)
        | None => (Err e, expanded)
        end
    end
  else
    (open_raw_binary (w_tick w) expanded
       {| rdo_auto_analyse := auto_analyse; rdo_save := true; rdo_idb_output := out_path;
          rdo_file_type := file_type; rdo_extra_args := extra_args |}, out_path).

Definition handle_open (path : string) (load_debug_info : bool) (debug_info_path : option string)
    (debug_info_verbose : bool) (file_type : option string) (auto_analyse : bool)
    (extra_args : list string) (v : LoopVars) (w : World) :
    result DbInfo ToolError * LoopVars * World :=
  let expanded := expand_home e_home path in
  match idb v with
  | Some db =>
      if bool_decide (idb_file db = expanded) then (Ok (build_db_info db (idb_file db) None), v, w)
      else (Err (DatabaseAlreadyOpen (idb_file db)), v, w)
  | None =>
      if negb (path_exists w expanded) then
        (Err (InvalidPath ("File not found: " +:+ expanded)), v, w)
      else
        let is_idb := is_idb_ext expanded in
        let out_path := raw_out_path w expanded in
        let dsym_path :=
          if negb is_idb && negb (path_exists w out_path) then dsym_path_for_binary w expanded else None in
        let w := clean_lock_at expanded w in
        match acquire_lock_at expanded w with
        | (Err e, w) => (Err e, v, w)
        | (Ok f, w) =>
            match open_backend w expanded out_path is_idb file_type auto_analyse extra_args with
            | (Err e, opened_path) =>
                let w := release_lock_at (lock_path_of expanded) f w in
                match detect_db_lock w expanded with
                | Some msg => (Err (DatabaseLocked msg), v, w)
                | None => (Err (OpenFailed (opened_path +:+ ": " +:+ e)), v, w)
                end
            | (Ok db, opened_path) =>
                let w := if is_idb then w
                         else set_store (record_idb (e_io (w_tick w)) expanded (w_store w)) w in
                let '(debug_info, w) := debug_info_of w db is_idb load_debug_info debug_info_path
                                          debug_info_verbose expanded dsym_path in
                (Ok (build_db_info db opened_path debug_info),
                 {| idb := Some db; lock_file := Some f; lock_path := Some (lock_path_of expanded);
                    lib_initialized := lib_initialized v |}, w)
            end
        end
  end.

(** The [Close] arm: drop the database, then release the lock. *)
Definition handle_close (v : LoopVars) (w : World) : LoopVars * World :=
  release_vars {| idb := None; lock_file := lock_file v; lock_path := lock_path v;
                  lib_initialized := lib_initialized v |} w.
End open.

(** ** The lock follows the database *)

Lemma unlink_wf os : os_wf os → os_wf (sys_unlink os).
Proof. intros [Hl _]. by split. Qed.

(** Closing a file that the process has no lock of changes no lock. *)
Lemma close_other os pid f : locks os !! f ≠ Some pid → locks (sys_close os pid f) = locks os.
Proof. intros Hf. unfold sys_close. by rewrite bool_decide_false. Qed.

Definition no_lock (pid : Z) (os : Os) : Prop := ∀ g, locks os !! g ≠ Some pid.

(** Taking a free lock and closing the file changes nothing. *)
Lemma lock_close_id os pid f :
  locks os !! f = None →
  sys_close {| link := link os; data := data os; locks := <[f := pid]> (locks os);
               next_file := next_file os; running := running os |} pid f = os.
Proof.
  intros Hf. unfold sys_close. cbn [locks]. rewrite bool_decide_true by (by rewrite lookup_insert_eq).
  rewrite delete_insert_id by done. by destruct os.
Qed.

(** Cleaning up leaves the locks as they are, for a process that has none. *)
Lemma clean_locks env os :
  os_wf os → no_lock (le_pid env) os →
  os_wf (clean_stale_mcp_lock env os).2 ∧ locks (clean_stale_mcp_lock env os).2 = locks os.
Proof.
  intros Hwf Hno. unfold clean_stale_mcp_lock. destruct (link os) as [f|]; [|done].
  destruct (read_lock_file_pid _) as [pid|].
  - destruct (is_process_running os pid); [done|]. split; [by apply unlink_wf|done].
  - unfold try_lock_file, sys_setlk. destruct (locks os !! f) as [q|] eqn:Hf.
    + rewrite bool_decide_false by (intros ->; by eapply Hno). cbn [snd].
      split; [by apply close_wf|]. apply close_other, Hno.
    + cbn [snd]. rewrite lock_close_id by done. split; [by apply unlink_wf|done].
Qed.

(** Acquiring adds one lock, or changes none. *)
Lemma acquire_locks env os :
  os_wf os → no_lock (le_pid env) os →
  match acquire_mcp_lock env os with
  | (Ok f, os') => os_wf os' ∧ locks os !! f = None ∧ locks os' = <[f := le_pid env]> (locks os)
  | (Err _, os') => os_wf os' ∧ locks os' = locks os
  end.
Proof.
  intros Hwf Hno. pose proof (acquire_spec env os Hwf) as Hacq.
  destruct (acquire_mcp_lock env os) as [[f|e] os'].
  - destruct Hacq as (? & _ & Hl & Hown & _). split_and!; [done| |done].
    destruct (locks os !! f) as [q|] eqn:Hf; [|done].
    destruct (Hno f). by rewrite Hf, (Hown q).
  - destruct Hacq as (? & f & q & _ & _ & _ & _ & _ & ? & _). done.
Qed.

Section discipline.
Context `{Idalib} `{OpenEnv} `{HashOrder} `{StoreEnv}.

Definition world_wf (w : World) : Prop := ∀ p, os_wf (w_locks w p).

(** The worker has one lock while a database is open, and none otherwise. *)
Definition loop_wf (v : LoopVars) (w : World) : Prop :=
  world_wf w ∧
  match idb v with
  | Some _ => ∃ p f, lock_path v = Some p ∧ lock_file v = Some f ∧
      ∀ q g, locks (w_locks w q) !! g = Some e_pid ↔ q = p ∧ g = f
  | None => lock_path v = None ∧ lock_file v = None ∧ ∀ q, no_lock e_pid (w_locks w q)
  end.

Definition same_locks (w w' : World) : Prop := ∀ q, locks (w_locks w' q) = locks (w_locks w q).

(** The worker got the lock [f] at the path [p]. *)
Definition adds_lock (p : string) (f : nat) (w w' : World) : Prop :=
  locks (w_locks w p) !! f = None ∧
  ∀ q, locks (w_locks w' q) =
    if bool_decide (q = p) then <[f := e_pid]> (locks (w_locks w q)) else locks (w_locks w q).

(** Whatever the worker does, the locks of other processes stay. *)
Definition others_kept (w w' : World) : Prop :=
  ∀ q g pid, pid ≠ e_pid → locks (w_locks w' q) !! g = Some pid ↔ locks (w_locks w q) !! g = Some pid.

Lemma set_lock_wf p os w : world_wf w → os_wf os → world_wf (set_lock p os w).
Proof. intros Hw Hos q. unfold set_lock. simpl. by case_bool_decide. Qed.

Lemma set_lock_same p os w : locks os = locks (w_locks w p) → same_locks w (set_lock p os w).
Proof. intros Hos q. unfold set_lock. simpl. case_bool_decide; by subst. Qed.

Lemma same_locks_trans w1 w2 w3 : same_locks w1 w2 → same_locks w2 w3 → same_locks w1 w3.
Proof. intros Ha Hb q. by rewrite Hb, Ha. Qed.

Lemma same_others w w' : same_locks w w' → others_kept w w'.
Proof. intros Hs q g pid _. by rewrite Hs. Qed.

Lemma adds_others p f w w' : adds_lock p f w w' → others_kept w w'.
Proof.
  intros [Hf Ha] q g pid Hne. rewrite Ha. case_bool_decide as Hq; [|done]. subst q.
  rewrite lookup_insert_Some. naive_solver.
Qed.

Lemma no_lock_same w w' :
  same_locks w w' → (∀ q, no_lock e_pid (w_locks w q)) → ∀ q, no_lock e_pid (w_locks w' q).
Proof. intros Hs Hno q g. rewrite Hs. apply Hno. Qed.

Lemma clean_lock_at_spec path w :
  world_wf w → (∀ q, no_lock e_pid (w_locks w q)) →
  world_wf (clean_lock_at path w) ∧ same_locks w (clean_lock_at path w).
Proof.
  intros Hw Hno. unfold clean_lock_at.
  destruct (clean_locks (lock_env (w_tick w) path) (w_locks w (lock_path_of path))) as [Hos Hl];
    [apply Hw|apply Hno|].
  split; [by apply set_lock_wf|by apply set_lock_same].
Qed.

Lemma acquire_lock_at_spec path w :
  world_wf w → (∀ q, no_lock e_pid (w_locks w q)) →
  match acquire_lock_at path w with
  | (Ok f, w') => world_wf w' ∧ adds_lock (lock_path_of path) f w w'
  | (Err _, w') => world_wf w' ∧ same_locks w w'
  end.
Proof.
  intros Hw Hno. unfold acquire_lock_at. destruct (e_lock_create_error _ _); [done|].
  pose proof (acquire_locks (lock_env (w_tick w) path) (w_locks w (lock_path_of path)) (Hw _) (Hno _)) as Hacq.
  destruct (acquire_mcp_lock _ _) as [[f|e] os].
  - destruct Hacq as (Hos & Hf & Hl). split; [by apply set_lock_wf|]. split; [done|].
    intros q. unfold set_lock. simpl. case_bool_decide; [by subst|done].
  - destruct Hacq as (Hos & Hl). split; [by apply set_lock_wf|by apply set_lock_same].
Qed.

(** Giving back the lock that was added restores the locks. *)
Lemma release_lock_at_spec p f w w' :
  world_wf w' → adds_lock p f w w' →
  world_wf (release_lock_at p f w') ∧ same_locks w (release_lock_at p f w').
Proof.
  intros Hw [Hf Ha]. split; [apply set_lock_wf; [done|]; apply close_wf, unlink_wf, Hw|].
  assert (locks (w_locks w' p) = <[f := e_pid]> (locks (w_locks w p))) as Hp
    by (by rewrite Ha, bool_decide_true).
  intros q. unfold release_lock_at, set_lock. cbn [w_locks]. case_bool_decide as Hq; [subst q|].
  - cbn [sys_close sys_unlink locks]. rewrite Hp.
    rewrite bool_decide_true by (by rewrite lookup_insert_eq). by apply delete_insert_id.
  - by rewrite Ha, bool_decide_false.
Qed.

Lemma debug_info_locks w db is_idb load path verbose expanded dsym :
  let '(_, w') := debug_info_of w db is_idb load path verbose expanded dsym in
  w_locks w' = w_locks w.
Proof.
  unfold debug_info_of, load_debug_file. destruct load; [|by destruct dsym].
  destruct (match path with Some p => _ | None => _ end); [|done]. by destruct (negb _).
Qed.

Lemma loop_wf_opened v db p f w w' w'' :
  world_wf w' → (∀ q, no_lock e_pid (w_locks w q)) → adds_lock p f w w' → w_locks w'' = w_locks w' →
  loop_wf {| idb := Some db; lock_file := Some f; lock_path := Some p;
             lib_initialized := lib_initialized v |} w''.
Proof.
  intros Hw Hno [Hf Ha] Heq. split; [intros q; rewrite Heq; apply Hw|]. simpl.
  exists p, f. split_and!; [done..|]. intros q g. rewrite Heq, Ha. specialize (Hno q g).
  case_bool_decide as Hq; [subst q; rewrite lookup_insert_Some|]; naive_solver.
Qed.

Lemma loop_wf_closed v w w' :
  idb v = None → loop_wf v w → world_wf w' → same_locks w w' → loop_wf v w'.
Proof.
  intros Hidb [_ Hv] Hw Hs. rewrite Hidb in Hv. destruct Hv as (? & ? & Hno).
  split; [done|]. rewrite Hidb. split_and!; [done..|]. by eapply no_lock_same.
Qed.

Lemma handle_open_wf path ldi dip div ft aa ea v w :
  loop_wf v w →
  let '(r, v', w') := handle_open path ldi dip div ft aa ea v w in
  loop_wf v' w' ∧ others_kept w w' ∧
  match r with Ok _ => is_Some (idb v') | Err _ => idb v' = idb v end.
Proof.
  intros Hwf. pose proof Hwf as [Hw Hv]. unfold handle_open.
  assert (others_kept w w) as Hrefl by (by apply same_others).
  destruct (idb v) as [db|] eqn:Hidb.
  { case_bool_decide; split_and!; [done..|by rewrite Hidb|done|done|done]. }
  destruct Hv as (_ & _ & Hno). destruct (negb _); [done|].
  set (e := expand_home e_home path).
  destruct (clean_lock_at_spec e w Hw Hno) as [Hw1 Hs1].
  pose proof (no_lock_same _ _ Hs1 Hno) as Hno1.
  pose proof (acquire_lock_at_spec e _ Hw1 Hno1) as Hacq.
  destruct (acquire_lock_at e _) as [[f|err] w2].
  - destruct Hacq as [Hw2 Ha]. destruct (open_backend _ _ _ _ _ _ _) as [[db|msg] opened].
    + match goal with |- context [debug_info_of ?w ?d ?i ?l ?p ?vb ?x ?ds] =>
        pose proof (debug_info_locks w d i l p vb x ds) as Hdbg; destruct (debug_info_of w d i l p vb x ds) as [di w3] end.
      assert (w_locks w3 = w_locks w2) as Heq by (rewrite Hdbg; by destruct (is_idb_ext e)).
      split_and!; [by eapply loop_wf_opened| |done].
      intros q g pid Hne. rewrite Heq, (adds_others _ _ _ _ Ha q g pid Hne). by rewrite Hs1.
    + destruct (release_lock_at_spec _ _ _ _ Hw2 Ha) as [Hw3 Hs3].
      pose proof (same_locks_trans _ _ _ Hs1 Hs3) as Hs.
      destruct (detect_db_lock _ _); (split_and!; [by eapply loop_wf_closed|by apply same_others|done]).
  - destruct Hacq as [Hw2 Hs2]. pose proof (same_locks_trans _ _ _ Hs1 Hs2) as Hs.
    split_and!; [by eapply loop_wf_closed|by apply same_others|done].
Qed.

Lemma handle_close_wf v w :
  loop_wf v w →
  let '(v', w') := handle_close v w in
  loop_wf v' w' ∧ others_kept w w' ∧ idb v' = None.
Proof.
  intros [Hw Hv]. unfold handle_close, release_vars. cbn [lock_path lock_file].
  destruct (idb v) as [db|] eqn:Hidb.
  - destruct Hv as (p & f & -> & -> & Hown).
    set (w1 := set_lock p (sys_unlink (w_locks w p)) w).
    assert (world_wf w1) as Hw1 by (apply set_lock_wf; [done|]; apply unlink_wf, Hw).
    assert (same_locks w w1) as Hs1 by (by apply set_lock_same).
    assert (∀ q g, locks (w_locks (set_lock p (sys_close (w_locks w1 p) e_pid f) w1) q) !! g =
      if bool_decide (q = p ∧ g = f) then None else locks (w_locks w q) !! g) as Hl.
    { intros q g. unfold set_lock at 1. cbn [w_locks]. destruct (bool_decide_reflect (q = p)) as [->|Hq].
      - cbn [sys_close locks]. rewrite Hs1, bool_decide_true by (by apply Hown).
        case_bool_decide as Hg; [destruct Hg as [_ ->]; by rewrite lookup_delete_eq|].
        rewrite lookup_delete_ne by naive_solver. done.
      - rewrite bool_decide_false by naive_solver. by rewrite Hs1. }
    split_and!; [| |done].
    + split; [apply set_lock_wf; [done|]; apply close_wf, Hw1|]. cbn [idb]. split_and!; [done..|].
      intros q g. rewrite Hl. case_bool_decide as Hqg; [done|]. rewrite Hown. naive_solver.
    + intros q g pid Hne. rewrite Hl. case_bool_decide as Hqg; [|done].
      split; [done|]. destruct Hqg as [-> ->]. intros Hpid.
      assert (locks (w_locks w p) !! f = Some e_pid) as Hmine by (by apply Hown). congruence.
  - destruct Hv as (-> & -> & Hno). split_and!; [|by apply same_others|done]. by split.
Qed.
End discipline.

(** ** Opening again *)

Section again.
Context `{Idalib} `{!IdalibPaths} `{OpenEnv} `{HashOrder} `{StoreEnv}.

(** The backend opens the path that it is given, or the unpacked [.id0] next to it. *)
Lemma open_backend_file w e out is_idb ft aa ea db p :
  open_backend w e out is_idb ft aa ea = (Ok db, p) →
  idb_file db = e ∨ is_idb = true ∧ unpacked_id0_path e = Some (idb_file db).
Proof.
  unfold open_backend, open_existing_database, open_raw_binary.
  destruct ensure_runtime_can_open as [[]|err]; destruct is_idb; try done.
  - destruct (open_with (w_tick w) e false true) as [db'|err] eqn:Ho.
    + intros [= <- <-]. left. by eapply open_with_file.
    + destruct (unpacked_id0_path e) as [id0|]; [|done]. destruct (path_exists w id0); [|done].
      intros [= Ho' <-]. right. split; [done|]. f_equal. symmetry. by eapply open_with_file.
  - intros [= Ho _]. left. by eapply open_options_file.
  - destruct (unpacked_id0_path e) as [id0|]; [|done]. by destruct (path_exists w id0).
Qed.

(** Opening a database while one is open: nothing changes; the path that the open database
    was opened with is answered with its data, every other path is refused with that path.
    The path is the one that was asked for, except when IDA only accepted the unpacked
    [.id0] file: then asking for the same database again is refused. *)
Theorem second_open_outcome (path : string) (ldi : bool) (dip : option string) (div : bool)
    (ft : option string) (aa : bool) (ea : list string) (v v1 : LoopVars) (w w1 : World) (info : DbInfo)
    (Hnone : idb v = None)
    (Hfirst : handle_open path ldi dip div ft aa ea v w = (Ok info, v1, w1)) :
  ∃ db, idb v1 = Some db ∧
    (idb_file db = expand_home e_home path ∨ unpacked_id0_path (expand_home e_home path) = Some (idb_file db)) ∧
    ∀ path' ldi' dip' div' ft' aa' ea',
      handle_open path' ldi' dip' div' ft' aa' ea' v1 w1 =
      (if bool_decide (expand_home e_home path' = idb_file db)
       then Ok (build_db_info db (idb_file db) None)
       else Err (DatabaseAlreadyOpen (idb_file db)), v1, w1).
Proof.
  unfold handle_open in Hfirst. rewrite Hnone in Hfirst. destruct (negb _) in Hfirst; [done|].
  destruct (acquire_lock_at _ _) as [[f|e] w2] in Hfirst; [|done].
  destruct (open_backend _ _ _ _ _ _ _) as [[db|e] opened] eqn:Ho in Hfirst;
    [|by destruct (detect_db_lock _ _) in Hfirst].
  destruct (debug_info_of _ _ _ _ _ _ _ _) as [di w3] in Hfirst. injection Hfirst as <- <- <-.
  exists db. split; [done|]. split; [apply open_backend_file in Ho; naive_solver|].
  intros. unfold handle_open. cbn [idb].
  destruct (decide (idb_file db = expand_home e_home path')) as [Heq|Hne].
  - by rewrite !bool_decide_true by congruence.
  - by rewrite !bool_decide_false by congruence.
Qed.
End again.

(** ** A concrete worker *)

(** A database that is no more than its path. *)
Definition sample_idalib : Idalib :=
  {| IDB := string; ida_version := Ok {| major := 9; minor := 3; build := 0 |};
     open_with := λ _ p _ _, Ok p; open_options := λ _ p _, Ok p;
     idb_load_debug_info := λ _ _ _ _, Ok true; idb_file := λ p, p; meta_filetype := λ _, "ELF";
     processor_long_name := λ _, "metapc"; is_64bit := λ _, true; is_32bit_exactly := λ _, false;
     db_function_count := λ _, 0%Z; is_auto_enabled := λ _, true; auto_is_ok := λ _, true;
     auto_state := λ _, 0%Z |}.

Definition sample_open_env : OpenEnv :=
  {| e_pid := 7; e_host := "host"; e_exe := "/bin/ida-mcp"; e_home := None; e_epoch_secs := λ _, 0%Z;
     e_exists := λ _ _, true; e_locked_by := λ _ _, None; e_lock_create_error := λ _ _, None;
     e_io := λ _, {| io_read_dir := true; io_remove := λ _, true; io_write := λ _, true;
                     io_rename := true; io_now := 0 |};
     e_idb_root := "/root/.ida/idb" |}.

Definition sample_store_env : StoreEnv :=
  {| parse_index := λ _, Some ∅; print_index := λ _, Some "{}"; blake3_hex := λ _, "00";
     read_binary := λ _, Some "" |}.

Definition sample_hash_order : HashOrder := canonical_order.

Definition sample_world : World :=
  {| w_locks := λ _, empty_os; w_store := []; w_debug_loads := []; w_tick := 0 |}.

#[local] Existing Instances sample_idalib sample_open_env sample_store_env sample_hash_order.

Lemma sample_idalib_paths : IdalibPaths.
Proof. split; [by intros t p a s db [= <-]|by intros t p o db [= <-]]. Qed.

Definition sample_vars : LoopVars :=
  {| idb := None; lock_file := None; lock_path := None; lib_initialized := true |}.

Lemma second_open_outcome_witness :
  ∃ info v1 w1 file,
    handle_open "/tmp/a.i64" false None false None true [] sample_vars sample_world = (Ok info, v1, w1) ∧
    file ∈ ["/tmp/a.i64"; "/tmp/a.id0"] ∧
    (handle_open "/tmp/b.i64" false None false None true [] v1 w1).1.1 = Err (DatabaseAlreadyOpen file).
Proof.
  assert (∃ info v1 w1, handle_open "/tmp/a.i64" false None false None true [] sample_vars sample_world =
    (Ok info, v1, w1)) as (info & v1 & w1 & Hfirst) by (vm_compute; by repeat esplit).
  pose proof sample_idalib_paths as Hpaths.
  destruct (second_open_outcome "/tmp/a.i64" false None false None true [] sample_vars v1 sample_world w1 info
    eq_refl Hfirst) as (db & _ & Hfile & Hopen).
  exists info, v1, w1, (idb_file db). split; [exact Hfirst|]. rewrite Hopen.
  destruct Hfile as [->|Hid0]; [split; [by left|vm_compute; reflexivity]|].
  assert (idb_file db = "/tmp/a.id0") as -> by (vm_compute in Hid0; injection Hid0; by intros <-).
  split; [right; by left|vm_compute; reflexivity].
Defined.
