(* ===== verification/LoopArms.v ===== *)
(** * The arms of the worker loop (src/ida/loop_impl.rs)

    What the loop does with each request once it has taken it from the queue: the handler
    that it calls, with which of the request's fields, and what becomes of the database.
    The handlers are an interface here: they are modelled in [ListHandlers], [MemoryHandlers],
    [CodeHandlers], [StructHandlers], [MiscHandlers], [ControlFlow], [Search] and
    [OpenDatabase], and the loop is the same for all of them. *)

From Stdlib Require Import Ascii.
From stdpp Require Import base gmap strings numbers list.
From S2P Require Import Prelude RustStr Json ToolError Parse ControlFlow.
From S2P Require Import Fs IdbStore IdaRequest McpLock OpenDatabase.

(** A handler works on the open database, which it may change. *)
Definition Handler `{Idalib} (T : Type) : Type := IDB → result T ToolError * IDB.

(** The handlers that the arms call, in the order of the arms. *)
Class Handlers `{Idalib} : Type := {
  idb_view : IDB → ControlFlow.IDB;
  handle_list_functions : Z → Z → option string → Handler Value;
  handle_resolve_function : string → Handler Value;
  handle_get_function_prototype : option Z → option string → Handler Value;
  handle_disasm_by_name : string → Z → Handler string;
  handle_disasm : Z → Z → Handler string;
  handle_decompile : Z → Handler string;
  handle_segments : Handler Value;
  handle_strings : Z → Z → option string → Handler Value;
  handle_local_types : Z → Z → option string → Handler Value;
  handle_declare_type : string → bool → bool → bool → Handler Value;
    handle_apply_types : option Z → option string → Z → option Z → option string → option string →
    option string → bool → bool → bool → Handler Value;
  handle_infer_types : option Z → option string → Z → Handler Value;
  handle_set_function_prototype : option Z → option string → string → Handler Value;
  handle_rename_stack_variable : option Z → option string → string → string → Handler Value;
  handle_set_stack_variable_type : option Z → option string → string → string → Handler Value;
  handle_list_enums : option string → Z → Z → Handler Value;
  handle_create_enum : string → bool → Handler Value;
  handle_addr_info : Z → Handler Value;
  handle_function_at : Z → Handler Value;
  handle_disasm_function_at : Z → Z → Handler string;
    handle_declare_stack : option Z → option string → Z → option string → string → bool → Handler
    Value;
  handle_delete_stack : option Z → option string → option Z → option string → Handler Value;
  handle_stack_frame : Z → Handler Value;
  handle_structs : Z → Z → option string → Handler Value;
  handle_struct_info : option Z → option string → Handler Value;
  handle_read_struct : Z → option Z → option string → Handler Value;
  handle_xrefs_to : Z → Handler Value;
  handle_xrefs_from : Z → Handler Value;
  handle_xrefs_to_field : option Z → option string → option Z → option string → Z → Handler Value;
  handle_imports : Z → Z → Handler Value;
  handle_exports : Z → Z → Handler Value;
  handle_entrypoints : Handler Value;
  handle_get_bytes : option Z → option string → Z → Z → Handler BytesResult;
  handle_set_comments : option Z → option string → Z → string → bool → Handler Value;
  handle_set_function_comment : option Z → option string → string → bool → Handler Value;
  handle_rename : option Z → option string → string → Z → Handler Value;
  handle_batch_rename : list (option Z * option string * string) → Handler Value;
  handle_rename_lvar : Z → string → string → Handler Value;
  handle_set_lvar_type : Z → string → string → Handler Value;
  handle_set_decompiler_comment : Z → Z → Z → string → Handler Value;
  handle_patch_bytes : option Z → option string → Z → list Z → Handler Value;
  handle_patch_asm : option Z → option string → Z → string → Handler Value;
  handle_basic_blocks : Z → Handler Value;
  handle_callees : Z → Handler Value;
  handle_callers : Z → Handler Value;
  handle_idb_meta : Handler Value;
  handle_lookup_funcs : list string → Handler Value;
  handle_list_globals : option string → Z → Z → Handler Value;
  handle_analyze_strings : option string → Z → Z → Handler Value;
  handle_find_string : string → bool → bool → Z → Z → Handler Value;
  handle_xrefs_to_string : string → bool → bool → Z → Z → Z → Handler Value;
  handle_analyze_funcs : Handler Value;
  handle_find_bytes : string → Z → Handler Value;
  handle_search_text : string → Z → Handler Value;
  handle_search_imm : Z → Z → Handler Value;
  handle_find_insns : list string → Z → bool → Handler Value;
  handle_find_insn_operands : list string → Z → bool → Handler Value;
  handle_read_int : Z → Z → Handler Value;
  handle_get_string : Z → Z → Handler Value;
  handle_get_global_value : string → Handler Value;
  handle_find_paths : Z → Z → Z → Z → Handler Value;
  handle_callgraph : Z → Z → Z → Handler Value;
  handle_xref_matrix : list Z → Handler Value;
  handle_pseudocode_at : Z → option Z → Handler Value;
  handle_search_pseudocode : string → Z → Handler Value;
  handle_run_script : string → Handler Value
}.

(** An arm is given the variable [idb] of the loop. *)
Definition Arm `{Idalib} (T : Type) : Type := option IDB → result T ToolError * option IDB.

(** ** Values of the replies *)

(** An integer of either sign. *)
Definition json_int (z : Z) : Value := Number (if (z <? 0)%Z then NegInt z else PosInt z).

Definition analysis_status_value (a : AnalysisStatusInfo) : Value :=
  Object [("analysis_running", Bool (as_analysis_running a)); ("auto_enabled", Bool (as_auto_enabled a));
          ("auto_is_ok", Bool (as_auto_is_ok a)); ("auto_state", VString (as_auto_state a));
          ("auto_state_id", json_int (as_auto_state_id a))].

Definition debug_info_value (d : DebugInfoLoad) : Value :=
  Object [("error", match dl_error d with Some e => VString e | None => Null end);
          ("loaded", Bool (dl_loaded d)); ("path", VString (dl_path d))].

Definition db_info_value (i : DbInfo) : Value :=
  Object [("analysis_status", analysis_status_value (di_analysis_status i)); ("bits", json_int (di_bits i));
          ("debug_info", match di_debug_info i with Some d => debug_info_value d | None => Null end);
          ("file_type", VString (di_file_type i)); ("function_count", json_int (di_function_count i));
          ("path", VString (di_path i)); ("processor", VString (di_processor i))].

Section arms.
Context `{Idalib} `{OpenEnv} `{HashOrder} `{StoreEnv} `{!Handlers}.

(** Every handler starts with [idb.as_ref().ok_or(ToolError::NoDatabaseOpen)?]. *)
Definition with_db {T} (h : Handler T) : Arm T := λ idb,
  match idb with
  | None => (Err NoDatabaseOpen, None)
  | Some db => let '(r, db) := h db in (r, Some db)
  end.

(** [resolve_address(..)] and then the handler. *)
Definition resolved {T} (addr : option Z) (name : option string) (offset : Z) (h : Z → Arm T) : Arm T := λ idb,
  match resolve_address (idb_view <$> idb) addr name offset with
  | Err e => (Err e, idb)
  | Ok ea => h ea idb
  end.

Definition arm_AnalysisStatus : Arm Value :=
  with_db (λ db, (Ok (analysis_status_value (build_analysis_status db)), db)).

Definition arm_ListFunctions (offset : Z) (limit : Z) (filter : option string) : Arm Value :=
  with_db (handle_list_functions offset limit filter).

Definition arm_ResolveFunction (name : string) : Arm Value :=
  with_db (handle_resolve_function name).

Definition arm_GetFunctionPrototype (addr : option Z) (name : option string) : Arm Value :=
  with_db (handle_get_function_prototype addr name).

Definition arm_DisasmByName (name : string) (count : Z) : Arm string :=
  with_db (handle_disasm_by_name name count).

Definition arm_Disasm (addr : Z) (count : Z) : Arm string :=
  with_db (handle_disasm addr count).

Definition arm_Decompile (addr : Z) : Arm string :=
  with_db (handle_decompile addr).

Definition arm_Segments : Arm Value :=
  with_db handle_segments.

Definition arm_Strings (offset : Z) (limit : Z) (filter : option string) : Arm Value :=
  with_db (handle_strings offset limit filter).

Definition arm_LocalTypes (offset : Z) (limit : Z) (filter : option string) : Arm Value :=
  with_db (handle_local_types offset limit filter).

Definition arm_DeclareType (decl : string) (relaxed : bool) (replace : bool) (multi : bool) : Arm Value :=
  with_db (handle_declare_type decl relaxed replace multi).

Definition arm_ApplyTypes (addr : option Z) (name : option string) (offset : Z) (stack_offset :
    option Z) (stack_name : option string) (decl : option string) (type_name : option string)
    (relaxed : bool) (delay : bool) (strict : bool) : Arm Value :=
  with_db (handle_apply_types addr name offset stack_offset stack_name decl type_name relaxed
    delay strict).

Definition arm_InferTypes (addr : option Z) (name : option string) (offset : Z) : Arm Value :=
  with_db (handle_infer_types addr name offset).

Definition arm_SetFunctionPrototype (addr : option Z) (name : option string) (prototype : string)
    : Arm Value :=
  with_db (handle_set_function_prototype addr name prototype).

Definition arm_RenameStackVariable (func_addr : option Z) (func_name : option string) (old_name :
    string) (new_name : string) : Arm Value :=
  with_db (handle_rename_stack_variable func_addr func_name old_name new_name).

Definition arm_SetStackVariableType (func_addr : option Z) (func_name : option string) (var_name :
    string) (type_decl : string) : Arm Value :=
  with_db (handle_set_stack_variable_type func_addr func_name var_name type_decl).

Definition arm_ListEnums (filter : option string) (offset : Z) (limit : Z) : Arm Value :=
  with_db (handle_list_enums filter offset limit).

Definition arm_CreateEnum (decl : string) (replace : bool) : Arm Value :=
  with_db (handle_create_enum decl replace).

Definition arm_AddrInfo (addr : option Z) (name : option string) (offset : Z) : Arm Value :=
  resolved addr name offset (λ ea, with_db (handle_addr_info ea)).

Definition arm_FunctionAt (addr : option Z) (name : option string) (offset : Z) : Arm Value :=
  resolved addr name offset (λ ea, with_db (handle_function_at ea)).

Definition arm_DisasmFunctionAt (addr : option Z) (name : option string) (offset : Z) (count : Z)
    : Arm string :=
  resolved addr name offset (λ ea, with_db (handle_disasm_function_at ea count)).

Definition arm_DeclareStack (addr : option Z) (name : option string) (offset : Z) (var_name :
    option string) (decl : string) (relaxed : bool) : Arm Value :=
  with_db (handle_declare_stack addr name offset var_name decl relaxed).

Definition arm_DeleteStack (addr : option Z) (name : option string) (offset : option Z) (var_name
    : option string) : Arm Value :=
  with_db (handle_delete_stack addr name offset var_name).

Definition arm_StackFrame (addr : Z) : Arm Value :=
  with_db (handle_stack_frame addr).

Definition arm_Structs (offset : Z) (limit : Z) (filter : option string) : Arm Value :=
  with_db (handle_structs offset limit filter).

Definition arm_StructInfo (ordinal : option Z) (name : option string) : Arm Value :=
  with_db (handle_struct_info ordinal name).

Definition arm_ReadStruct (addr : Z) (ordinal : option Z) (name : option string) : Arm Value :=
  with_db (handle_read_struct addr ordinal name).

Definition arm_XRefsTo (addr : Z) : Arm Value :=
  with_db (handle_xrefs_to addr).

Definition arm_XRefsFrom (addr : Z) : Arm Value :=
  with_db (handle_xrefs_from addr).

Definition arm_XRefsToField (ordinal : option Z) (name : option string) (member_index : option Z)
    (member_name : option string) (limit : Z) : Arm Value :=
  with_db (handle_xrefs_to_field ordinal name member_index member_name limit).

Definition arm_Imports (offset : Z) (limit : Z) : Arm Value :=
  with_db (handle_imports offset limit).

Definition arm_Exports (offset : Z) (limit : Z) : Arm Value :=
  with_db (handle_exports offset limit).

Definition arm_Entrypoints : Arm Value :=
  with_db handle_entrypoints.

Definition arm_GetBytes (addr : option Z) (name : option string) (offset : Z) (size : Z) : Arm BytesResult :=
  with_db (handle_get_bytes addr name offset size).

Definition arm_SetComments (addr : option Z) (name : option string) (offset : Z) (comment :
    string) (repeatable : bool) : Arm Value :=
  with_db (handle_set_comments addr name offset comment repeatable).

Definition arm_SetFunctionComment (addr : option Z) (name : option string) (comment : string)
    (repeatable : bool) : Arm Value :=
  with_db (handle_set_function_comment addr name comment repeatable).

Definition arm_Rename (addr : option Z) (current_name : option string) (new_name : string) (flags
    : Z) : Arm Value :=
  with_db (handle_rename addr current_name new_name flags).

Definition arm_BatchRename (entries : list (option Z * option string * string)) : Arm Value :=
  with_db (handle_batch_rename entries).

Definition arm_RenameLvar (func_addr : Z) (lvar_name : string) (new_name : string) : Arm Value :=
  with_db (handle_rename_lvar func_addr lvar_name new_name).

Definition arm_SetLvarType (func_addr : Z) (lvar_name : string) (type_str : string) : Arm Value :=
  with_db (handle_set_lvar_type func_addr lvar_name type_str).

Definition arm_SetDecompilerComment (func_addr : Z) (addr : Z) (itp : Z) (comment : string) : Arm Value :=
  with_db (handle_set_decompiler_comment func_addr addr itp comment).

Definition arm_PatchBytes (addr : option Z) (name : option string) (offset : Z) (bytes : list Z)
    : Arm Value :=
  with_db (handle_patch_bytes addr name offset bytes).

Definition arm_PatchAsm (addr : option Z) (name : option string) (offset : Z) (line : string) : Arm Value :=
  with_db (handle_patch_asm addr name offset line).

Definition arm_BasicBlocks (addr : Z) : Arm Value :=
  with_db (handle_basic_blocks addr).

Definition arm_Callees (addr : Z) : Arm Value :=
  with_db (handle_callees addr).

Definition arm_Callers (addr : Z) : Arm Value :=
  with_db (handle_callers addr).

Definition arm_IdbMeta : Arm Value :=
  with_db handle_idb_meta.

Definition arm_LookupFunctions (queries : list string) : Arm Value :=
  with_db (handle_lookup_funcs queries).

Definition arm_ListGlobals (query : option string) (offset : Z) (limit : Z) : Arm Value :=
  with_db (handle_list_globals query offset limit).

Definition arm_AnalyzeStrings (query : option string) (offset : Z) (limit : Z) : Arm Value :=
  with_db (handle_analyze_strings query offset limit).

Definition arm_FindString (query : string) (exact : bool) (case_insensitive : bool) (offset : Z)
    (limit : Z) : Arm Value :=
  with_db (handle_find_string query exact case_insensitive offset limit).

Definition arm_XrefsToString (query : string) (exact : bool) (case_insensitive : bool) (offset :
    Z) (limit : Z) (max_xrefs : Z) : Arm Value :=
  with_db (handle_xrefs_to_string query exact case_insensitive offset limit max_xrefs).

Definition arm_AnalyzeFuncs : Arm Value :=
  with_db handle_analyze_funcs.

Definition arm_FindBytes (pattern : string) (max_results : Z) : Arm Value :=
  with_db (handle_find_bytes pattern max_results).

Definition arm_SearchText (text : string) (max_results : Z) : Arm Value :=
  with_db (handle_search_text text max_results).

Definition arm_SearchImm (imm : Z) (max_results : Z) : Arm Value :=
  with_db (handle_search_imm imm max_results).

Definition arm_FindInsns (patterns : list string) (max_results : Z) (case_insensitive : bool) : Arm Value :=
  with_db (handle_find_insns patterns max_results case_insensitive).

Definition arm_FindInsnOperands (patterns : list string) (max_results : Z) (case_insensitive :
    bool) : Arm Value :=
  with_db (handle_find_insn_operands patterns max_results case_insensitive).

Definition arm_ReadInt (addr : Z) (size : Z) : Arm Value :=
  with_db (handle_read_int addr size).

Definition arm_GetString (addr : Z) (max_len : Z) : Arm Value :=
  with_db (handle_get_string addr max_len).

Definition arm_GetGlobalValue (query : string) : Arm Value :=
  with_db (handle_get_global_value query).

Definition arm_FindPaths (start : Z) (end_ : Z) (max_paths : Z) (max_depth : Z) : Arm Value :=
  with_db (handle_find_paths start end_ max_paths max_depth).

Definition arm_CallGraph (addr : Z) (max_depth : Z) (max_nodes : Z) : Arm Value :=
  with_db (handle_callgraph addr max_depth max_nodes).

Definition arm_XrefMatrix (addrs : list Z) : Arm Value :=
  with_db (handle_xref_matrix addrs).

Definition arm_ExportFuncs (offset : Z) (limit : Z) : Arm Value :=
  with_db (handle_list_functions offset limit None).

Definition arm_PseudocodeAt (addr : Z) (end_addr : option Z) : Arm Value :=
  with_db (handle_pseudocode_at addr end_addr).

Definition arm_SearchPseudocode (pattern : string) (limit : Z) : Arm Value :=
  with_db (handle_search_pseudocode pattern limit).

Definition arm_RunScript (code : string) : Arm Value :=
  with_db (handle_run_script code).

(** ** A request *)

Definition on_idb {T} (arm : Arm T) (v : LoopVars) (w : World) : result T ToolError * LoopVars * World :=
  let '(r, db) := arm (idb v) in
  (r, {| idb := db; lock_file := lock_file v; lock_path := lock_path v;
         lib_initialized := lib_initialized v |}, w).

(** [Shutdown] has no reply; that the loop ends after it is in [WorkerLoop]. *)
Definition serve (r : IdaRequest) (v : LoopVars) (w : World) :
    result (reply r) ToolError * LoopVars * World :=
  match r return result (reply r) ToolError * LoopVars * World with
  | Open path ldi dip div force file_type auto_analyse extra_args =>
      let '(res, v, w) := handle_open path ldi dip div file_type auto_analyse extra_args v w in
      (match res with Ok i => Ok (db_info_value i) | Err e => Err e end, v, w)
  | Close | Shutdown => let '(v, w) := handle_close v w in (Ok (), v, w)
  | LoadDebugInfo path verbose =>
      let '(res, w) := handle_load_debug_info w (idb v) path verbose in (res, v, w)
  | AnalysisStatus => on_idb arm_AnalysisStatus v w
  | ListFunctions offset limit filter => on_idb (arm_ListFunctions offset limit filter) v w
  | ResolveFunction name => on_idb (arm_ResolveFunction name) v w
  | GetFunctionPrototype addr name => on_idb (arm_GetFunctionPrototype addr name) v w
  | DisasmByName name count => on_idb (arm_DisasmByName name count) v w
  | Disasm addr count => on_idb (arm_Disasm addr count) v w
  | Decompile addr => on_idb (arm_Decompile addr) v w
  | Segments => on_idb arm_Segments v w
  | Strings offset limit filter => on_idb (arm_Strings offset limit filter) v w
  | LocalTypes offset limit filter => on_idb (arm_LocalTypes offset limit filter) v w
  | DeclareType decl relaxed replace multi =>
      on_idb (arm_DeclareType decl relaxed replace multi) v w
  | ApplyTypes addr name offset stack_offset stack_name decl type_name relaxed delay strict =>
      on_idb (arm_ApplyTypes addr name offset stack_offset stack_name decl type_name relaxed
        delay strict) v w
  | InferTypes addr name offset => on_idb (arm_InferTypes addr name offset) v w
  | SetFunctionPrototype addr name prototype =>
      on_idb (arm_SetFunctionPrototype addr name prototype) v w
  | RenameStackVariable func_addr func_name old_name new_name =>
      on_idb (arm_RenameStackVariable func_addr func_name old_name new_name) v w
  | SetStackVariableType func_addr func_name var_name type_decl =>
      on_idb (arm_SetStackVariableType func_addr func_name var_name type_decl) v w
  | ListEnums filter offset limit => on_idb (arm_ListEnums filter offset limit) v w
  | CreateEnum decl replace => on_idb (arm_CreateEnum decl replace) v w
  | AddrInfo addr name offset => on_idb (arm_AddrInfo addr name offset) v w
  | FunctionAt addr name offset => on_idb (arm_FunctionAt addr name offset) v w
  | DisasmFunctionAt addr name offset count =>
      on_idb (arm_DisasmFunctionAt addr name offset count) v w
  | DeclareStack addr name offset var_name decl relaxed =>
      on_idb (arm_DeclareStack addr name offset var_name decl relaxed) v w
  | DeleteStack addr name offset var_name =>
      on_idb (arm_DeleteStack addr name offset var_name) v w
  | StackFrame addr => on_idb (arm_StackFrame addr) v w
  | Structs offset limit filter => on_idb (arm_Structs offset limit filter) v w
  | StructInfo ordinal name => on_idb (arm_StructInfo ordinal name) v w
  | ReadStruct addr ordinal name => on_idb (arm_ReadStruct addr ordinal name) v w
  | XRefsTo addr => on_idb (arm_XRefsTo addr) v w
  | XRefsFrom addr => on_idb (arm_XRefsFrom addr) v w
  | XRefsToField ordinal name member_index member_name limit =>
      on_idb (arm_XRefsToField ordinal name member_index member_name limit) v w
  | Imports offset limit => on_idb (arm_Imports offset limit) v w
  | Exports offset limit => on_idb (arm_Exports offset limit) v w
  | Entrypoints => on_idb arm_Entrypoints v w
  | GetBytes addr name offset size => on_idb (arm_GetBytes addr name offset size) v w
  | SetComments addr name offset comment repeatable =>
      on_idb (arm_SetComments addr name offset comment repeatable) v w
  | SetFunctionComment addr name comment repeatable =>
      on_idb (arm_SetFunctionComment addr name comment repeatable) v w
  | Rename addr current_name new_name flags =>
      on_idb (arm_Rename addr current_name new_name flags) v w
  | BatchRename entries => on_idb (arm_BatchRename entries) v w
  | RenameLvar func_addr lvar_name new_name =>
      on_idb (arm_RenameLvar func_addr lvar_name new_name) v w
  | SetLvarType func_addr lvar_name type_str =>
      on_idb (arm_SetLvarType func_addr lvar_name type_str) v w
  | SetDecompilerComment func_addr addr itp comment =>
      on_idb (arm_SetDecompilerComment func_addr addr itp comment) v w
  | PatchBytes addr name offset bytes => on_idb (arm_PatchBytes addr name offset bytes) v w
  | PatchAsm addr name offset line => on_idb (arm_PatchAsm addr name offset line) v w
  | BasicBlocks addr => on_idb (arm_BasicBlocks addr) v w
  | Callees addr => on_idb (arm_Callees addr) v w
  | Callers addr => on_idb (arm_Callers addr) v w
  | IdbMeta => on_idb arm_IdbMeta v w
  | LookupFunctions queries => on_idb (arm_LookupFunctions queries) v w
  | ListGlobals query offset limit => on_idb (arm_ListGlobals query offset limit) v w
  | AnalyzeStrings query offset limit => on_idb (arm_AnalyzeStrings query offset limit) v w
  | FindString query exact case_insensitive offset limit =>
      on_idb (arm_FindString query exact case_insensitive offset limit) v w
  | XrefsToString query exact case_insensitive offset limit max_xrefs =>
      on_idb (arm_XrefsToString query exact case_insensitive offset limit max_xrefs) v w
  | AnalyzeFuncs => on_idb arm_AnalyzeFuncs v w
  | FindBytes pattern max_results => on_idb (arm_FindBytes pattern max_results) v w
  | SearchText text max_results => on_idb (arm_SearchText text max_results) v w
  | SearchImm imm max_results => on_idb (arm_SearchImm imm max_results) v w
  | FindInsns patterns max_results case_insensitive =>
      on_idb (arm_FindInsns patterns max_results case_insensitive) v w
  | FindInsnOperands patterns max_results case_insensitive =>
      on_idb (arm_FindInsnOperands patterns max_results case_insensitive) v w
  | ReadInt addr size => on_idb (arm_ReadInt addr size) v w
  | GetString addr max_len => on_idb (arm_GetString addr max_len) v w
  | GetGlobalValue query => on_idb (arm_GetGlobalValue query) v w
  | FindPaths start end_ max_paths max_depth =>
      on_idb (arm_FindPaths start end_ max_paths max_depth) v w
  | CallGraph addr max_depth max_nodes => on_idb (arm_CallGraph addr max_depth max_nodes) v w
  | XrefMatrix addrs => on_idb (arm_XrefMatrix addrs) v w
  | ExportFuncs offset limit => on_idb (arm_ExportFuncs offset limit) v w
  | PseudocodeAt addr end_addr => on_idb (arm_PseudocodeAt addr end_addr) v w
  | SearchPseudocode pattern limit => on_idb (arm_SearchPseudocode pattern limit) v w
  | RunScript code => on_idb (arm_RunScript code) v w
  end.
End arms.
