(* ===== verification/WorkerLoop.v ===== *)
(** * The worker loop and its queue (src/ida/loop_impl.rs, src/ida/worker.rs)

    Callers put requests on a bounded channel and wait on a one-shot channel each; one loop
    takes the requests off and serves them, skipping those whose caller is gone or that
    waited too long.  The system is a state and a total function per event, so that every
    interleaving of callers and loop is a list of events.  The log of what the loop did with
    each request is there for the theorems only. *)

From Stdlib Require Import Ascii.
From stdpp Require Import base gmap strings numbers sorting list.
From S2P Require Import Prelude RustStr Json ToolError Fs IdbStore IdaRequest IdaWorker McpLock.
From S2P Require Import OpenDatabase LoopArms.

Definition REQUEST_QUEUE_CAPACITY : nat := 64.
Definition DEFAULT_DEADLINE_SECS : Z := 120.

(** A request on the queue; the name of its reply channel and the time in milliseconds. *)
Record EnqueuedRequest : Type := {
  en_id : nat;
  request : IdaRequest;
  enqueued_at : Z
}.

(** A one-shot channel: the caller waits, the caller has dropped its end, the reply is there,
    or the loop has dropped its end without a reply. *)
Inductive Slot : Type :=
| Waiting
| Gone
| Replied (r : IdaRequest) (a : result (reply r) ToolError)
| SenderDropped.

Inductive Outcome : Type := Served | Skipped.

Record Sys `{Idalib} : Type := {
  s_queue : list EnqueuedRequest;
  s_busy : option EnqueuedRequest;      (* taken off the queue, being served *)
  s_alive : bool;                       (* the loop has its end of the channel *)
  s_now : Z;
  s_next : nat;
  s_slots : gmap nat Slot;
  s_vars : LoopVars;
  s_world : World;
  s_log : list (EnqueuedRequest * Outcome)
}.

(** A reply, or dropping the sender, reaches a caller that still waits. *)
Definition settle (id : nat) (x : Slot) (slots : gmap nat Slot) : gmap nat Slot :=
  alter (λ s, match s with Waiting => x | s => s end) id slots.

Definition drop_all (q : list EnqueuedRequest) (slots : gmap nat Slot) : gmap nat Slot :=
  foldl (λ m e, settle (en_id e) SenderDropped m) slots q.

(** [is_resp_closed] *)
Definition is_resp_closed (slots : gmap nat Slot) (e : EnqueuedRequest) : bool :=
  match slots !! en_id e with Some Gone => true | _ => false end.

(** The two checks at the head of the loop. *)
Definition skip (now : Z) (slots : gmap nat Slot) (e : EnqueuedRequest) : bool :=
  negb (is_control (request e)) &&
  (is_resp_closed slots e || (DEFAULT_DEADLINE_SECS * 1000 <? now - enqueued_at e)%Z).

Definition is_shutdown (r : IdaRequest) : bool := match r with Shutdown => true | _ => false end.

Section loop.
Context `{Idalib} `{OpenEnv} `{HashOrder} `{StoreEnv} `{!Handlers}.

Definition init_vars (v : LoopVars) : LoopVars :=
  {| idb := idb v; lock_file := lock_file v; lock_path := lock_path v; lib_initialized := true |}.

Definition next_tick (w : World) : World :=
  {| w_locks := w_locks w; w_store := w_store w; w_debug_loads := w_debug_loads w; w_tick := S (w_tick w) |}.

(** ** Callers *)

(** The channel's [try_send] of a request made at [at_ms]; a new reply channel comes with
    every request but [Shutdown]. *)
Definition enqueue (at_ms : Z) (r : IdaRequest) (s : Sys) : result () ToolError * Sys :=
  if negb (s_alive s) then (Err WorkerClosed, s)
  else if (REQUEST_QUEUE_CAPACITY <=? length (s_queue s))%nat then (Err Busy, s)
  else
    (Ok (),
     {| s_queue := s_queue s ++ [{| en_id := s_next s; request := r; enqueued_at := at_ms |}];
        s_busy := s_busy s; s_alive := s_alive s; s_now := s_now s; s_next := S (s_next s);
        s_slots := if is_shutdown r then s_slots s else <[s_next s := Waiting]> (s_slots s);
        s_vars := s_vars s; s_world := s_world s; s_log := s_log s |}).

Definition try_send (r : IdaRequest) (s : Sys) : result () ToolError * Sys := enqueue (s_now s) r s.

(** One turn of [send_with_retry], [waited] milliseconds after it began: done with the
    result, or try again after the backoff. *)
Definition send_turn (r : IdaRequest) (max_wait_secs : option Z) (waited : Z) (s : Sys) :
    option (result () ToolError) * Sys :=
  match enqueue (s_now s - waited) r s with
  | (Err Busy, s) =>
      match max_wait_secs with
      | Some m => if (m * 1000 <=? waited)%Z then (Some (Err Busy), s) else (None, s)
      | None => (None, s)
      end
  | (r, s) => (Some r, s)
  end.

(** What a caller sees in its channel, [waited] milliseconds after it began to wait: nothing
    yet, or a result ([rx.await?], [recv_with_timeout]). *)
Definition recv (mode : RecvMode) (waited : Z) (x : Slot) : option (result Slot ToolError) :=
  match mode with
  | NoReply => None
  | RecvAwait =>
      match x with
      | Replied _ _ => Some (Ok x)
      | SenderDropped => Some (Err WorkerClosed)
      | _ => None
      end
  | RecvTimeout t =>
      match x with
      | Replied _ _ => Some (Ok x)
      | SenderDropped => Some (Err WorkerClosed)
      | _ => if (recv_timeout t * 1000 <=? waited)%Z then Some (Err (Timeout (recv_timeout t))) else None
      end
  end.

(** A caller drops its receiver. *)
Definition abandon (id : nat) (s : Sys) : Sys :=
  {| s_queue := s_queue s; s_busy := s_busy s; s_alive := s_alive s; s_now := s_now s;
     s_next := s_next s; s_slots := settle id Gone (s_slots s); s_vars := s_vars s;
     s_world := s_world s; s_log := s_log s |}.

Definition pass (ms : Z) (s : Sys) : Sys :=
  {| s_queue := s_queue s; s_busy := s_busy s; s_alive := s_alive s; s_now := s_now s + Z.max 0 ms;
     s_next := s_next s; s_slots := s_slots s; s_vars := s_vars s;
     s_world := next_tick (s_world s); s_log := s_log s |}.

(** ** The loop *)

(** [rx.recv()] and the checks. *)
Definition loop_recv (e : EnqueuedRequest) (q : list EnqueuedRequest) (s : Sys) : Sys :=
  if skip (s_now s) (s_slots s) e then
    {| s_queue := q; s_busy := None; s_alive := s_alive s; s_now := s_now s; s_next := s_next s;
       s_slots := settle (en_id e) SenderDropped (s_slots s); s_vars := s_vars s;
       s_world := s_world s; s_log := s_log s ++ [(e, Skipped)] |}
  else
    {| s_queue := q; s_busy := Some e; s_alive := s_alive s; s_now := s_now s; s_next := s_next s;
       s_slots := s_slots s; s_vars := init_vars (s_vars s); s_world := s_world s; s_log := s_log s |}.

(** The arm of the request, its reply, and the end of the loop after [Shutdown], which has no
    reply channel: the queue goes with the receiver. *)
Definition loop_finish (e : EnqueuedRequest) (s : Sys) : Sys :=
  let '(a, v, w) := serve (request e) (s_vars s) (s_world s) in
  if is_shutdown (request e) then
    {| s_queue := []; s_busy := None; s_alive := false; s_now := s_now s; s_next := s_next s;
       s_slots := drop_all (e :: s_queue s) (s_slots s); s_vars := v; s_world := w;
       s_log := s_log s ++ [(e, Served)] |}
  else
    {| s_queue := s_queue s; s_busy := None; s_alive := s_alive s; s_now := s_now s;
       s_next := s_next s; s_slots := settle (en_id e) (Replied (request e) a) (s_slots s);
       s_vars := v; s_world := w; s_log := s_log s ++ [(e, Served)] |}.

(** [run_ida_loop] makes one of these steps at a time, and waits when the queue is empty. *)
Definition loop_step (s : Sys) : Sys :=
  match s_busy s, s_queue s with
  | Some e, _ => loop_finish e s
  | None, e :: q => loop_recv e q s
  | None, [] => s
  end.

(** ** Events *)

Inductive Event : Type :=
| TrySendEv (r : IdaRequest)
| SendTurn (r : IdaRequest) (max_wait_secs : option Z) (waited : Z)
| GiveUp (id : nat)
| Pass (ms : Z)
| Loop.

Definition event (ev : Event) (s : Sys) : Sys :=
  match ev with
  | TrySendEv r => (try_send r s).2
  | SendTurn r max_wait_secs waited => (send_turn r max_wait_secs waited s).2
  | GiveUp id => abandon id s
  | Pass ms => pass ms s
  | Loop => loop_step s
  end.

Definition run (evs : list Event) (s : Sys) : Sys := foldl (λ s ev, event ev s) s evs.

(** The loop as it starts. *)
Definition start (w : World) : Sys :=
  {| s_queue := []; s_busy := None; s_alive := true; s_now := 0; s_next := 0; s_slots := ∅;
     s_vars := {| idb := None; lock_file := None; lock_path := None; lib_initialized := false |};
     s_world := w; s_log := [] |}.
End loop.
