(* ===== verification/WorkerTheorems.v ===== *)
(** * What the worker loop guarantees

    The invariant of the loop under every interleaving of callers and loop, and that every
    call comes to an end. *)

From Stdlib Require Import Ascii.
From stdpp Require Import base gmap strings numbers sorting list.
From S2P Require Import Prelude RustStr Json ToolError Fs IdbStore IdaRequest IdaWorker McpLock.
From S2P Require Import Runtime OpenDatabase LoopArms WorkerLoop.

Section theorems.
Context `{Idalib} `{OpenEnv} `{HashOrder} `{StoreEnv} `{!Handlers}.

(** ** Serving keeps the lock with the database *)

(** An arm leaves a database open, and opens none. *)
Definition keeps_open {T} (arm : Arm T) : Prop := ∀ o, is_Some (arm o).2 ↔ is_Some o.

Lemma with_db_keeps {T} (h : Handler T) : keeps_open (with_db h).
Proof. intros [db|]; simpl; [|done]. destruct (h db). split; eauto. Qed.

Lemma resolved_keeps {T} addr name offset (h : Z → Arm T) :
  (∀ ea, keeps_open (h ea)) → keeps_open (resolved addr name offset h).
Proof. intros Hh o. unfold resolved. destruct (ControlFlow.resolve_address _ _ _ _); [apply Hh|done]. Qed.

Lemma loop_wf_vars v v' w w' :
  (is_Some (idb v') ↔ is_Some (idb v)) → lock_file v' = lock_file v → lock_path v' = lock_path v →
  w_locks w' = w_locks w → loop_wf v w → loop_wf v' w'.
Proof.
  intros Hi Hf Hp Hw [Hwf Hv]. unfold loop_wf, world_wf. rewrite Hw, Hf, Hp. split; [exact Hwf|].
  destruct (idb v), (idb v'); try done; exfalso; eapply is_Some_None, Hi; eauto.
Qed.

Lemma on_idb_wf {T} (arm : Arm T) v w :
  keeps_open arm → loop_wf v w →
  let '(_, v', w') := on_idb arm v w in loop_wf v' w' ∧ others_kept w w'.
Proof.
  intros Ha Hwf. unfold on_idb. specialize (Ha (idb v)). destruct (arm (idb v)) as [r db].
  split; [by apply (loop_wf_vars v _ w)|by apply same_others].
Qed.

Lemma load_debug_locks w db path verbose : w_locks (handle_load_debug_info w db path verbose).2 = w_locks w.
Proof.
  unfold handle_load_debug_info. destruct db as [db|]; [|done].
  destruct (match path with Some p => _ | None => _ end) as [p|e]; [|done]. by destruct (negb _).
Qed.

(** Serving any request keeps the invariant of the lock and the locks of other processes. *)
Lemma serve_wf r v w :
  loop_wf v w →
  let '(_, v', w') := serve r v w in loop_wf v' w' ∧ others_kept w w'.
Proof.
  intros Hwf. destruct r; cbn [serve reply];
    try (apply on_idb_wf; [first [apply with_db_keeps|apply resolved_keeps; intros; apply with_db_keeps]|done]).
  - pose proof (handle_open_wf path load_debug_info debug_info_path debug_info_verbose file_type
      auto_analyse extra_args v w Hwf) as Hopen.
    destruct (handle_open _ _ _ _ _ _ _ v w) as [[res v'] w']. naive_solver.
  - pose proof (handle_close_wf v w Hwf) as Hclose. destruct (handle_close v w). naive_solver.
  - pose proof (load_debug_locks w (idb v) path verbose) as Hl.
    destruct (handle_load_debug_info _ _ _ _) as [res w'].
    split; [by apply (loop_wf_vars v _ w)|]. apply same_others. intros q. simpl in Hl. by rewrite Hl.
  - pose proof (handle_close_wf v w Hwf) as Hclose. destruct (handle_close v w). naive_solver.
Qed.

Lemma serve_shutdown r v w : is_shutdown r = true → idb (serve r v w).1.2 = None.
Proof. by destruct r. Qed.

Lemma others_kept_trans w1 w2 w3 : others_kept w1 w2 → others_kept w2 w3 → others_kept w1 w3.
Proof. intros Ha Hb q g pid Hne. rewrite (Hb q g pid Hne). by apply Ha. Qed.

(** ** Slots *)

Lemma settle_ne id id' x slots : id ≠ id' → settle id x slots !! id' = slots !! id'.
Proof. intros Hne. unfold settle. by rewrite lookup_alter_ne. Qed.

Lemma settle_eq id x slots :
  settle id x slots !! id = match slots !! id with Some Waiting => Some x | o => o end.
Proof. unfold settle. rewrite lookup_alter_eq. by destruct (slots !! id) as [[]|]. Qed.

(** A slot after [settle] is as before, or it was waiting and got [x]. *)
Lemma settle_cases id x slots id' y :
  settle id x slots !! id' = Some y →
  slots !! id' = Some y ∧ (y = Waiting → x ≠ Waiting → id ≠ id') ∨ id' = id ∧ y = x ∧ slots !! id = Some Waiting.
Proof.
  destruct (decide (id = id')) as [<-|Hne]; [rewrite settle_eq|rewrite settle_ne by done].
  - destruct (slots !! id) as [[]|]; naive_solver.
  - naive_solver.
Qed.

Lemma drop_all_cases q slots id y :
  drop_all q slots !! id = Some y →
  y = SenderDropped ∨ slots !! id = Some y ∧ (y = Waiting → id ∉ (en_id <$> q)).
Proof.
  revert slots. induction q as [|e q IH]; intros slots Hy; [right; split; [done|set_solver]|].
  apply IH in Hy as [Hy|[Hy Hin]]; [by left|].
  apply settle_cases in Hy as [[Hy Hne]|(-> & -> & _)]; [|by left].
  right. split; [done|]. intros ->. rewrite fmap_cons, not_elem_of_cons. split; [|by apply Hin].
  intros ->. by apply Hne.
Qed.

Lemma drop_all_keeps q slots id x :
  slots !! id = Some x → x ≠ Waiting → drop_all q slots !! id = Some x.
Proof.
  revert slots. induction q as [|e q IH]; intros slots Hx Hne; [done|]. apply IH; [|done].
  destruct (decide (en_id e = id)) as [<-|]; [|by rewrite settle_ne].
  rewrite settle_eq, Hx. by destruct x.
Qed.

(** ** The invariant *)

Definition pending (s : Sys) : list EnqueuedRequest := option_list (s_busy s) ++ s_queue s.

Record sys_inv (s : Sys) : Prop := {
  (** every accepted request is in the log, being served or in the queue, in order *)
  si_order : if s_alive s then en_id <$> ((s_log s).*1 ++ pending s) = seq 0 (s_next s)
             else pending s = [] ∧ en_id <$> (s_log s).*1 = seq 0 (length (s_log s));
  (** who waits, waits for a request that is still to be served *)
  si_waiting : ∀ id, s_slots s !! id = Some Waiting → id ∈ (en_id <$> pending s);
  (** a reply answers the request of its caller, which was served *)
  si_replied : ∀ id r a, s_slots s !! id = Some (Replied r a) →
    ∃ e, (e, Served) ∈ s_log s ∧ en_id e = id ∧ request e = r;
  (** a caller loses its reply only to the deadline or to the end of the loop *)
  si_dropped : ∀ id, s_slots s !! id = Some SenderDropped →
    s_alive s = false ∨ ∃ e, (e, Skipped) ∈ s_log s ∧ en_id e = id;
  si_skipped : ∀ e, (e, Skipped) ∈ s_log s → is_control (request e) = false;
  si_bound : length (s_queue s) ≤ REQUEST_QUEUE_CAPACITY;
  (** IDA is initialised before it is used *)
  si_init : is_Some (s_busy s) → lib_initialized (s_vars s) = true;
  si_lock : loop_wf (s_vars s) (s_world s);
  (** when the loop has ended the database is closed *)
  si_closed : s_alive s = false → idb (s_vars s) = None
}.

Lemma sys_inv_start w : world_wf w → (∀ q, no_lock e_pid (w_locks w q)) → sys_inv (start w).
Proof.
  intros Hw Hno. split; try done; cbn [start s_slots s_log s_queue s_busy length].
  - intros e. by rewrite elem_of_nil.
  - unfold REQUEST_QUEUE_CAPACITY. lia.
  - by intros [].
Qed.

Lemma enqueue_slots (r : IdaRequest) (n id : nat) (slots : gmap nat Slot) x :
  (if is_shutdown r then slots else <[n := Waiting]> slots) !! id = Some x →
  id = n ∧ x = Waiting ∨ slots !! id = Some x.
Proof. destruct (is_shutdown r); [by right|]. rewrite lookup_insert_Some. naive_solver. Qed.

Lemma sys_inv_enqueue at_ms r s : sys_inv s → sys_inv (enqueue at_ms r s).2.
Proof.
  intros Hinv. pose proof Hinv as [Hord Hwait Hrep Hdrop Hskip Hbound Hinit Hlock Hclosed]. unfold enqueue.
  destruct (s_alive s) eqn:Ha; [|done].
  destruct (Nat.leb_spec REQUEST_QUEUE_CAPACITY (length (s_queue s))) as [|Hlt]; [done|].
  cbn [negb snd]. split; unfold pending in *; cbn [s_queue s_busy s_alive s_next s_slots s_vars s_world s_log]; try done.
  - rewrite seq_S, <-Hord, !(assoc_L (++)), fmap_app. done.
  - intros id [[-> _]|Hid]%enqueue_slots; rewrite (assoc_L (++)), fmap_app, elem_of_app; [right; set_solver|].
    left. by apply Hwait.
  - intros id r' a [[_ [=]]|Hid]%enqueue_slots. by apply Hrep with (a := a).
  - intros id [[_ [=]]|Hid]%enqueue_slots. by apply Hdrop.
  - rewrite length_app. simpl. lia.
Qed.

Lemma send_turn_snd r mw waited s : (send_turn r mw waited s).2 = (enqueue (s_now s - waited) r s).2.
Proof.
  unfold send_turn. destruct (enqueue _ r s) as [[[]|e] s']; [done|]. destruct e; try done.
  destruct mw as [m|]; [|done]. by destruct (m * 1000 <=? waited)%Z.
Qed.

Lemma sys_inv_send_turn r mw waited s : sys_inv s → sys_inv (send_turn r mw waited s).2.
Proof. rewrite send_turn_snd. apply sys_inv_enqueue. Qed.

Lemma sys_inv_abandon id s : sys_inv s → sys_inv (abandon id s).
Proof.
  intros [Hord Hwait Hrep Hdrop Hskip Hbound Hinit Hlock Hclosed].
  split; simpl; try done.
  - intros id' [[Hid _]|(_ & [=] & _)]%settle_cases. by apply Hwait.
  - intros id' r a [[Hid _]|(_ & [=] & _)]%settle_cases. by apply Hrep with (a := a).
  - intros id' [[Hid _]|(_ & [=] & _)]%settle_cases. by apply Hdrop.
Qed.

Lemma sys_inv_pass ms s : sys_inv s → sys_inv (pass ms s).
Proof. intros []. by split. Qed.

Lemma sys_inv_recv e q s :
  sys_inv s → s_busy s = None → s_queue s = e :: q → sys_inv (loop_recv e q s).
Proof.
  intros [Hord Hwait Hrep Hdrop Hskip Hbound Hinit Hlock Hclosed] Hb Hq. unfold pending in *.
  rewrite Hb, Hq in *. simpl in Hord, Hwait, Hbound.
  assert (s_alive s = true) as Ha by (destruct (s_alive s); [done|by destruct Hord]). rewrite Ha in *.
  unfold loop_recv. destruct (skip _ _ e) eqn:Hsk.
  - assert (is_control (request e) = false) as Hctl
      by (unfold skip in Hsk; by destruct (is_control (request e))).
    split; unfold pending; cbn [s_queue s_busy s_alive s_next s_slots s_vars s_world s_log option_list]; try done.
    + rewrite Ha, <-Hord, (fmap_app fst), <-(assoc_L (++)). done.
    + intros id [[Hid Hne]|(_ & [=] & _)]%settle_cases.
      apply Hwait in Hid as [->|Hid]%elem_of_cons; [|done]. by destruct Hne.
    + intros id r a [[Hid _]|(_ & [=] & _)]%settle_cases. apply Hrep in Hid as (e' & He' & ?).
      exists e'. split; [set_solver|done].
    + intros id [[Hid _]|(-> & _)]%settle_cases; right; [|exists e; set_solver].
      apply Hdrop in Hid as [?|(e' & He' & ?)]; [done|]. exists e'. split; [set_solver|done].
    + intros e'. rewrite elem_of_app, list_elem_of_singleton. intros [?|[= ->]]; [by apply Hskip|done].
    + lia.
    + by rewrite Ha.
  - split; unfold pending; cbn [s_queue s_busy s_alive s_next s_slots s_vars s_world s_log option_list]; try done.
    + by rewrite Ha.
    + rewrite Ha. exact Hdrop.
    + lia.
    + by rewrite Ha.
Qed.

(** What serving a request leaves, but for the end of the loop. *)
Lemma sys_inv_finish e s : sys_inv s → s_busy s = Some e → sys_inv (loop_finish e s).
Proof.
  intros [Hord Hwait Hrep Hdrop Hskip Hbound Hinit Hlock Hclosed] Hb. unfold pending in *.
  rewrite Hb in *. simpl in Hord, Hwait.
  assert (s_alive s = true) as Ha by (destruct (s_alive s); [done|by destruct Hord]). rewrite Ha in *.
  assert (∀ id r a, s_slots s !! id = Some (Replied r a) →
    ∃ e', (e', Served) ∈ s_log s ++ [(e, Served)] ∧ en_id e' = id ∧ request e' = r) as Hrep'.
  { intros id r a Hid. apply Hrep in Hid as (e' & He' & ?). exists e'. split; [set_solver|done]. }
  assert (∀ e', (e', Skipped) ∈ s_log s ++ [(e, Served)] → is_control (request e') = false) as Hskip'.
  { intros e'. rewrite elem_of_app, list_elem_of_singleton. intros [?|[=]]. by apply Hskip. }
  assert (en_id <$> (s_log s ++ [(e, Served)]).*1 ++ s_queue s = seq 0 (s_next s)) as Hord'.
  { rewrite <-Hord, (fmap_app fst), <-(assoc_L (++)). done. }
  unfold loop_finish. pose proof (serve_wf (request e) (s_vars s) (s_world s) Hlock) as Hserve.
  pose proof (serve_shutdown (request e) (s_vars s) (s_world s)) as Hidb.
  destruct (serve (request e) (s_vars s) (s_world s)) as [[a v] w]. destruct Hserve as [Hserve _].
  destruct (is_shutdown (request e)) eqn:Hsd;
    split; unfold pending; cbn [s_queue s_busy s_alive s_next s_slots s_vars s_world s_log option_list]; try done.
  - split; [done|]. apply (f_equal (take (length (s_log s ++ [(e, Served)])))) in Hord'.
    rewrite take_seq in Hord'. rewrite fmap_app, take_app_le in Hord' by (by rewrite !length_fmap).
    rewrite take_ge in Hord' by (by rewrite !length_fmap). rewrite Hord'. f_equal.
    apply (f_equal length) in Hord. rewrite length_fmap, length_app, length_fmap, length_seq in Hord.
    simpl in Hord. rewrite length_app. simpl. lia.
  - intros id [[=]|[Hid Hne]]%drop_all_cases. apply Hwait in Hid. by apply Hne in Hid.
  - intros id r a' [[=]|[Hid _]]%drop_all_cases. by apply Hrep' with (a := a').
  - intros id _. by left.
  - simpl. lia.
  - intros _. by apply Hidb.
  - by rewrite Ha.
  - intros id [[Hid Hne]|(_ & [=] & _)]%settle_cases.
    apply Hwait in Hid as [->|Hid]%elem_of_cons; [|done]. by destruct Hne.
  - intros id r a' [[Hid _]|(-> & Heq & _)]%settle_cases; [by apply Hrep' with (a := a')|].
    exists e. injection Heq as -> _. set_solver.
  - intros id [[Hid _]|(_ & [=] & _)]%settle_cases. rewrite Ha. apply Hdrop in Hid as [?|(e' & He' & ?)]; [by left|].
    right. exists e'. set_solver.
  - by rewrite Ha.
Qed.

Lemma sys_inv_event ev s : sys_inv s → sys_inv (event ev s).
Proof.
  intros Hinv. destruct ev as [r|r mw waited|id|ms|]; simpl.
  - by apply sys_inv_enqueue.
  - by apply sys_inv_send_turn.
  - by apply sys_inv_abandon.
  - by apply sys_inv_pass.
  - unfold loop_step. destruct (s_busy s) as [e|] eqn:Hb; [by apply sys_inv_finish|].
    destruct (s_queue s) as [|e q] eqn:Hq; [done|by apply sys_inv_recv].
Qed.

Lemma sys_inv_run evs s : sys_inv s → sys_inv (run evs s).
Proof. revert s. induction evs as [|ev evs IH]; intros s Hinv; [done|]. by apply IH, sys_inv_event. Qed.

(** ** Every call ends *)

(** Once the caller's channel is settled it stays so; names of channels are not reused. *)
Definition settled (s : Sys) (id : nat) : Prop := id < s_next s ∧ s_slots s !! id ≠ Some Waiting.

Lemma settle_settled id x slots id' :
  x ≠ Waiting → slots !! id' ≠ Some Waiting → settle id x slots !! id' ≠ Some Waiting.
Proof. intros Hx Hne [[? _]|(-> & ? & ?)]%settle_cases; congruence. Qed.

Lemma drop_all_settled q slots id : slots !! id ≠ Some Waiting → drop_all q slots !! id ≠ Some Waiting.
Proof. intros Hne [?|[? _]]%drop_all_cases; congruence. Qed.

Lemma enqueue_settled at_ms r s id : settled s id → settled (enqueue at_ms r s).2 id.
Proof.
  intros [Hlt Hne]. unfold enqueue. destruct (s_alive s); [|done].
  destruct (_ <=? _)%nat; [done|]. split; simpl; [lia|].
  intros [[-> _]|?]%enqueue_slots; [lia|done].
Qed.

Lemma finish_fields e s :
  s_next (loop_finish e s) = s_next s ∧ s_busy (loop_finish e s) = None ∧
  (∃ x, x ≠ Waiting ∧ x ≠ Gone ∧ is_shutdown (request e) = false ∧ s_queue (loop_finish e s) = s_queue s ∧
     s_slots (loop_finish e s) = settle (en_id e) x (s_slots s)) ∨
  (s_next (loop_finish e s) = s_next s ∧ s_slots (loop_finish e s) = drop_all (e :: s_queue s) (s_slots s)).
Proof.
  unfold loop_finish. destruct (serve _ _ _) as [[a v] w]. destruct (is_shutdown (request e)).
  - by right.
  - left. split; [done|]. split; [done|]. by exists (Replied (request e) a).
Qed.

Lemma loop_settled s id : settled s id → settled (loop_step s) id.
Proof.
  intros [Hlt Hne]. unfold loop_step. destruct (s_busy s) as [e|].
  - destruct (finish_fields e s) as [(Hn & _ & x & ? & _ & _ & _ & Hs)|[Hn Hs]]; split; rewrite ?Hn, ?Hs; try done.
    + by apply settle_settled.
    + by apply drop_all_settled.
  - destruct (s_queue s) as [|e q]; [done|]. unfold loop_recv.
    destruct (skip _ _ e); [|done]. split; [done|]. by apply settle_settled.
Qed.

(** The call [id] needs at most [n] more steps of the loop. *)
Definition settles_in (n : nat) (s : Sys) (id : nat) : Prop :=
  settled s id ∨
  id < s_next s ∧
  ((∃ e, s_busy s = Some e ∧ en_id e = id ∧ 1 ≤ n) ∨
   (∃ k e, s_queue s !! k = Some e ∧ en_id e = id ∧ 2 * (k + 1) + length (option_list (s_busy s)) ≤ n)).

Lemma settles_finish n e s id :
  s_busy s = Some e → settles_in (S n) s id → settles_in n (loop_finish e s) id.
Proof.
  intros Hb [Hset|[Hlt Hin]].
  { left. pose proof (loop_settled s id Hset) as Hs. unfold loop_step in Hs. by rewrite Hb in Hs. }
  rewrite Hb in Hin. destruct (finish_fields e s) as [(Hn & Hbusy & x & Hx & _ & _ & Hq & Hs)|[Hn Hs]].
  - destruct Hin as [(e' & [= <-] & <- & _)|(k & e' & Hk & <- & Hle)].
    + left. split; [by rewrite Hn|]. rewrite Hs, settle_eq.
      destruct (s_slots s !! en_id e) as [[]|]; congruence.
    + right. rewrite Hn. split; [done|]. right. exists k, e'. rewrite Hq, Hbusy. simpl in *. split_and!; [done..|lia].
  - left. split; [by rewrite Hn|]. rewrite Hs. intros [[=]|[_ Hni]]%drop_all_cases.
    apply Hni; [done|]. rewrite fmap_cons, elem_of_cons.
    destruct Hin as [(e' & [= <-] & <- & _)|(k & e' & Hk & <- & _)]; [by left|right].
    apply list_elem_of_fmap_2. by eapply list_elem_of_lookup_2.
Qed.

Lemma settles_recv n e q s id :
  s_busy s = None → s_queue s = e :: q → settles_in (S n) s id → settles_in n (loop_recv e q s) id.
Proof.
  intros Hb Hq [Hset|[Hlt Hin]].
  { left. pose proof (loop_settled s id Hset) as Hs. unfold loop_step in Hs. by rewrite Hb, Hq in Hs. }
  rewrite Hb, Hq in Hin. destruct Hin as [(? & [=] & _)|(k & e' & Hk & <- & Hle)]. simpl in Hle.
  unfold loop_recv. destruct k as [|k]; simpl in Hk; [injection Hk as ->|].
  - destruct (skip _ _ _); [left|right].
    + split; [done|]. simpl. rewrite settle_eq. by destruct (s_slots s !! en_id e') as [[]|].
    + split; [done|]. left. exists e'. split_and!; [done..|lia].
  - destruct (skip _ _ e); right; (split; [done|]); right; exists k, e'; simpl; (split_and!; [done..|lia]).
Qed.

Lemma settles_loop n s id : settles_in (S n) s id → settles_in n (loop_step s) id.
Proof.
  intros Hin. unfold loop_step. destruct (s_busy s) as [e|] eqn:Hb; [by apply settles_finish|].
  destruct (s_queue s) as [|e q] eqn:Hq; [|by apply settles_recv].
  destruct Hin as [?|[_ [(? & ? & _)|(k & ? & Hk & _)]]]; [by left|congruence|by rewrite Hq in Hk].
Qed.

Lemma settles_enqueue n at_ms r s id : settles_in n s id → settles_in n (enqueue at_ms r s).2 id.
Proof.
  intros [Hset|[Hlt Hin]]; [left; by apply enqueue_settled|right]. unfold enqueue.
  destruct (s_alive s); [|done]. destruct (_ <=? _)%nat; [done|]. simpl. split; [lia|].
  destruct Hin as [?|(k & e & Hk & ?)]; [by left|]. right. exists k, e.
  split; [by apply lookup_app_l_Some|done].
Qed.

Lemma settles_event n ev s id :
  settles_in n s id → settles_in (match ev with Loop => n - 1 | _ => n end) (event ev s) id.
Proof.
  intros Hin. destruct ev as [r|r mw waited|id'|ms|]; simpl.
  - by apply settles_enqueue.
  - rewrite send_turn_snd. by apply settles_enqueue.
  - destruct Hin as [[Hlt Hset]|Hin]; [left|by right]. split; [done|]. by apply settle_settled.
  - done.
  - destruct n as [|n]; [|rewrite Nat.sub_succ, Nat.sub_0_r; by apply settles_loop].
    destruct Hin as [?|[_ [(e & ? & ? & ?)|(k & e & ? & ? & ?)]]]; [left; by apply loop_settled|lia|lia].
Qed.

Definition is_loop (ev : Event) : bool := match ev with Loop => true | _ => false end.

(** How often the loop gets to run. *)
Definition loop_turns (evs : list Event) : nat := length (filter (λ ev, is_loop ev = true) evs).

Lemma settles_run n evs s id : settles_in n s id → settles_in (n - loop_turns evs) (run evs s) id.
Proof.
  revert n s. induction evs as [|ev evs IH]; intros n s Hin; [unfold loop_turns; simpl; by rewrite Nat.sub_0_r|].
  simpl. apply (settles_event _ ev) in Hin. apply IH in Hin. unfold loop_turns in *.
  rewrite filter_cons. destruct ev; simpl in *; try done. by rewrite <-Nat.sub_add_distr in Hin.
Qed.

(** A caller that does not give up keeps its end of the channel. *)
Definition heard (s : Sys) (id : nat) : Prop :=
  id < s_next s ∧ ∃ x, s_slots s !! id = Some x ∧ x ≠ Gone.

Lemma settle_heard id x slots id' y :
  slots !! id' = Some y → y ≠ Gone → (x = Gone → id ≠ id') → ∃ z, settle id x slots !! id' = Some z ∧ z ≠ Gone.
Proof.
  intros Hy Hne Hx. destruct (decide (id = id')) as [<-|Hid]; [|rewrite settle_ne by done; eauto].
  rewrite settle_eq, Hy. destruct y; [exists x; naive_solver|done|by eexists|by eexists].
Qed.

Lemma drop_all_heard q slots id y :
  slots !! id = Some y → y ≠ Gone → ∃ z, drop_all q slots !! id = Some z ∧ z ≠ Gone.
Proof.
  revert slots y. induction q as [|e q IH]; intros slots y Hy Hne; [by exists y|].
  destruct (settle_heard (en_id e) SenderDropped slots id y Hy Hne) as (z & Hz & Hzne); [done|].
  by apply (IH _ z).
Qed.

Lemma heard_event ev s id : heard s id → ev ≠ GiveUp id → heard (event ev s) id.
Proof.
  assert (∀ at_ms r, heard s id → heard (enqueue at_ms r s).2 id) as Henq.
  { intros at_ms r (Hlt & x & Hx & Hne). unfold enqueue. destruct (s_alive s); [|by repeat esplit].
    destruct (_ <=? _)%nat; [by repeat esplit|]. split; [simpl; lia|]. exists x. split; [|done]. simpl.
    destruct (is_shutdown r); [done|]. rewrite lookup_insert_ne by lia. done. }
  intros Hh Hev. pose proof Hh as (Hlt & x & Hx & Hne).
  destruct ev as [r|r mw waited|id'|ms|]; simpl; [by apply Henq|rewrite send_turn_snd; by apply Henq|..].
  - split; [done|]. apply (settle_heard _ _ _ _ x); [done..|]. intros _ ->. done.
  - done.
  - unfold loop_step. destruct (s_busy s) as [e|].
    + destruct (finish_fields e s) as [(Hn & _ & y & _ & Hy & _ & _ & Hs)|[Hn Hs]]; unfold heard; rewrite Hn, Hs.
      * split; [done|]. by apply (settle_heard _ _ _ _ x).
      * split; [done|]. by apply (drop_all_heard _ _ _ x).
    + destruct (s_queue s) as [|e q]; [done|]. unfold loop_recv. destruct (skip _ _ e); [|done].
      split; [done|]. by apply (settle_heard _ _ _ _ x).
Qed.

Lemma heard_run evs s id : heard s id → GiveUp id ∉ evs → heard (run evs s) id.
Proof.
  revert s. induction evs as [|ev evs IH]; intros s Hh Hni; [done|].
  apply not_elem_of_cons in Hni as [? ?]. apply IH; [|done]. apply heard_event; [done|congruence].
Qed.

Lemma pending_settles k e s : pending s !! k = Some e → en_id e < s_next s → settles_in (2 * (k + 1)) s (en_id e).
Proof.
  intros Hk Hlt. right. split; [done|]. unfold pending in Hk. destruct (s_busy s) as [b|] eqn:Hb; simpl in *.
  - destruct k as [|k]; simpl in Hk; [injection Hk as ->; left; exists e; split_and!; [done..|lia]|].
    right. exists k, e. split_and!; [done..|lia].
  - right. exists k, e. split_and!; [done..|lia].
Qed.

Lemma pending_next s k e : sys_inv s → pending s !! k = Some e → en_id e < s_next s.
Proof.
  intros [Hord _ _ _ _ _ _ _ _] Hk. apply list_elem_of_lookup_2 in Hk. destruct (s_alive s).
  - assert (en_id e ∈ (en_id <$> ((s_log s).*1 ++ pending s))) as Hin
      by (rewrite fmap_app, elem_of_app; right; by apply list_elem_of_fmap_2).
    rewrite Hord in Hin. apply elem_of_seq in Hin. lia.
  - destruct Hord as [Hp _]. rewrite Hp in Hk. by apply elem_of_nil in Hk.
Qed.

(** C7: whatever callers and loop do, in any interleaving: the requests that were accepted are
    handled in the order of their arrival, each once; who waits, waits for a request that is
    still to come; a reply answers the request of its own caller; closing and shutting down
    are never skipped; the queue is bounded; IDA is initialised before a request is served;
    the worker has the lock of a database exactly while one is open; and when the loop has
    ended the database is closed. *)
Theorem worker_loop_invariant (w : World) (evs : list Event)
    (Hw : world_wf w) (Hno : ∀ q, no_lock e_pid (w_locks w q)) :
  sys_inv (run evs (start w)).
Proof. by apply sys_inv_run, sys_inv_start. Qed.

(** C8: every call comes to an end: the caller of the request in place [k] of those to be
    served, if it does not give up, has its reply or learns that there will be none once the
    loop has taken [2 * (k + 1)] steps, however many other events come in between. *)
Theorem every_call_is_answered (w : World) (before after : list Event) (k : nat) (e : EnqueuedRequest)
    (Hw : world_wf w) (Hno : ∀ q, no_lock e_pid (w_locks w q))
    (Hk : pending (run before (start w)) !! k = Some e)
    (Hwait : s_slots (run before (start w)) !! en_id e = Some Waiting)
    (Hstay : GiveUp (en_id e) ∉ after)
    (Hturns : 2 * (k + 1) ≤ loop_turns after) :
  ∃ x r, s_slots (run after (run before (start w))) !! en_id e = Some x ∧ recv RecvAwait 0 x = Some r.
Proof.
  pose proof (sys_inv_run before _ (sys_inv_start w Hw Hno)) as Hinv.
  pose proof (pending_next _ _ _ Hinv Hk) as Hlt.
  pose proof (settles_run _ after _ _ (pending_settles k e _ Hk Hlt)) as Hset.
  rewrite (proj2 (Nat.sub_0_le _ _) Hturns) in Hset.
  destruct (heard_run after (run before (start w)) (en_id e)) as (_ & x & Hx & Hne); [by repeat esplit|done|].
  assert (x ≠ Waiting) as Hnw.
  { intros ->. destruct Hset as [[_ ?]|[_ [(?&?&?&?)|(?&?&?&?&?)]]]; [done|lia|lia]. }
  destruct x; try done; by repeat esplit.
Qed.

(** A request that has waited more than two minutes in the queue is dropped although its
    caller may wait for up to ten: the caller is told that the worker has closed while the
    loop goes on. *)
Theorem expired_request_reports_closed (s : Sys) (e : EnqueuedRequest) (q : list EnqueuedRequest)
    (timeout : option Z) (waited : Z)
    (Hbusy : s_busy s = None) (Hq : s_queue s = e :: q) (Halive : s_alive s = true)
    (Hctl : is_control (request e) = false) (Hwait : s_slots s !! en_id e = Some Waiting)
    (Hlate : (DEFAULT_DEADLINE_SECS * 1000 < s_now s - enqueued_at e)%Z) :
  let s' := loop_step s in
  s_alive s' = true ∧
  (recv (RecvTimeout timeout) waited <$> s_slots s' !! en_id e) = Some (Some (Err WorkerClosed)).
Proof.
  unfold loop_step. rewrite Hbusy, Hq. unfold loop_recv, skip.
  rewrite Hctl, (proj2 (Z.ltb_lt _ _) Hlate), orb_true_r. simpl. split; [done|].
  by rewrite settle_eq, Hwait.
Qed.
End theorems.

(** ** A concrete worker *)

#[local] Existing Instances sample_idalib sample_open_env sample_store_env sample_hash_order.

Definition sample_view : ControlFlow.IDB :=
  {| ControlFlow.db_functions := []; ControlFlow.db_names := []; ControlFlow.db_function_at := λ _, None;
     ControlFlow.db_xrefs_from := λ _, []; ControlFlow.db_xrefs_to := λ _, [];
     ControlFlow.db_next_head := λ _, None |}.

Definition sample_bytes : BytesResult := {| bytes_address := "0x0"; bytes := ""; bytes_length := 0 |}.

(** Handlers that answer nothing of note. *)
#[local] Instance sample_handlers : Handlers :=
  {| idb_view := λ _, sample_view; handle_list_functions := λ _ _ _ db, (Ok Null, db);
     handle_resolve_function := λ _ db, (Ok Null, db);
     handle_get_function_prototype := λ _ _ db, (Ok Null, db);
     handle_disasm_by_name := λ _ _ db, (Ok "", db); handle_disasm := λ _ _ db, (Ok "", db);
     handle_decompile := λ _ db, (Ok "", db); handle_segments := λ db, (Ok Null, db);
     handle_strings := λ _ _ _ db, (Ok Null, db); handle_local_types := λ _ _ _ db, (Ok Null, db);
     handle_declare_type := λ _ _ _ _ db, (Ok Null, db);
     handle_apply_types := λ _ _ _ _ _ _ _ _ _ _ db, (Ok Null, db);
     handle_infer_types := λ _ _ _ db, (Ok Null, db);
     handle_set_function_prototype := λ _ _ _ db, (Ok Null, db);
     handle_rename_stack_variable := λ _ _ _ _ db, (Ok Null, db);
     handle_set_stack_variable_type := λ _ _ _ _ db, (Ok Null, db);
     handle_list_enums := λ _ _ _ db, (Ok Null, db); handle_create_enum := λ _ _ db, (Ok Null, db);
     handle_addr_info := λ _ db, (Ok Null, db); handle_function_at := λ _ db, (Ok Null, db);
     handle_disasm_function_at := λ _ _ db, (Ok "", db);
     handle_declare_stack := λ _ _ _ _ _ _ db, (Ok Null, db);
     handle_delete_stack := λ _ _ _ _ db, (Ok Null, db);
     handle_stack_frame := λ _ db, (Ok Null, db); handle_structs := λ _ _ _ db, (Ok Null, db);
     handle_struct_info := λ _ _ db, (Ok Null, db);
     handle_read_struct := λ _ _ _ db, (Ok Null, db); handle_xrefs_to := λ _ db, (Ok Null, db);
     handle_xrefs_from := λ _ db, (Ok Null, db);
     handle_xrefs_to_field := λ _ _ _ _ _ db, (Ok Null, db);
     handle_imports := λ _ _ db, (Ok Null, db); handle_exports := λ _ _ db, (Ok Null, db);
     handle_entrypoints := λ db, (Ok Null, db);
     handle_get_bytes := λ _ _ _ _ db, (Ok sample_bytes, db);
     handle_set_comments := λ _ _ _ _ _ db, (Ok Null, db);
     handle_set_function_comment := λ _ _ _ _ db, (Ok Null, db);
     handle_rename := λ _ _ _ _ db, (Ok Null, db); handle_batch_rename := λ _ db, (Ok Null, db);
     handle_rename_lvar := λ _ _ _ db, (Ok Null, db);
     handle_set_lvar_type := λ _ _ _ db, (Ok Null, db);
     handle_set_decompiler_comment := λ _ _ _ _ db, (Ok Null, db);
     handle_patch_bytes := λ _ _ _ _ db, (Ok Null, db);
     handle_patch_asm := λ _ _ _ _ db, (Ok Null, db); handle_basic_blocks := λ _ db, (Ok Null, db);
     handle_callees := λ _ db, (Ok Null, db); handle_callers := λ _ db, (Ok Null, db);
     handle_idb_meta := λ db, (Ok Null, db); handle_lookup_funcs := λ _ db, (Ok Null, db);
     handle_list_globals := λ _ _ _ db, (Ok Null, db);
     handle_analyze_strings := λ _ _ _ db, (Ok Null, db);
     handle_find_string := λ _ _ _ _ _ db, (Ok Null, db);
     handle_xrefs_to_string := λ _ _ _ _ _ _ db, (Ok Null, db);
     handle_analyze_funcs := λ db, (Ok Null, db); handle_find_bytes := λ _ _ db, (Ok Null, db);
     handle_search_text := λ _ _ db, (Ok Null, db); handle_search_imm := λ _ _ db, (Ok Null, db);
     handle_find_insns := λ _ _ _ db, (Ok Null, db);
     handle_find_insn_operands := λ _ _ _ db, (Ok Null, db);
     handle_read_int := λ _ _ db, (Ok Null, db); handle_get_string := λ _ _ db, (Ok Null, db);
     handle_get_global_value := λ _ db, (Ok Null, db);
     handle_find_paths := λ _ _ _ _ db, (Ok Null, db);
     handle_callgraph := λ _ _ _ db, (Ok Null, db); handle_xref_matrix := λ _ db, (Ok Null, db);
     handle_pseudocode_at := λ _ _ db, (Ok Null, db);
     handle_search_pseudocode := λ _ _ db, (Ok Null, db);
     handle_run_script := λ _ db, (Ok Null, db) |}.

Definition sample_open : IdaRequest := IdaRequest.Open "/tmp/a.i64" false None false false None true [].

Definition two_calls : list Event := [TrySendEv sample_open; TrySendEv Segments].

Lemma sample_world_wf : world_wf sample_world.
Proof. intros p. apply empty_os_wf. Qed.

Lemma sample_no_lock q : no_lock e_pid (w_locks sample_world q).
Proof. intros g Hg. simpl in Hg. by rewrite lookup_empty in Hg. Qed.

Lemma worker_loop_invariant_witness :
  sys_inv (run (two_calls ++ [Loop; Loop; Loop; Loop]) (start sample_world)) ∧
  idb (s_vars (run (two_calls ++ [Loop; Loop; Loop; Loop]) (start sample_world))) = Some "/tmp/a.i64".
Proof.
  split; [apply (worker_loop_invariant sample_world _ sample_world_wf sample_no_lock)|].
  vm_compute. reflexivity.
Defined.

Lemma every_call_is_answered_witness :
  ∃ x r, s_slots (run [Loop; Loop; Pass 10; Loop; Loop] (run two_calls (start sample_world))) !! 1 = Some x ∧
    recv RecvAwait 0 x = Some r.
Proof.
  apply (every_call_is_answered sample_world two_calls [Loop; Loop; Pass 10; Loop; Loop] 1
    {| en_id := 1; request := Segments; enqueued_at := 0 |}
    sample_world_wf sample_no_lock); [reflexivity|reflexivity| |vm_compute; lia].
  intros Hin. repeat (apply elem_of_cons in Hin as [Hin|Hin]; [discriminate Hin|]). by apply elem_of_nil in Hin.
Defined.

Lemma expired_request_reports_closed_witness :
  s_alive (loop_step (run [TrySendEv Segments; Pass 200000] (start sample_world))) = true.
Proof.
  apply (expired_request_reports_closed (run [TrySendEv Segments; Pass 200000] (start sample_world))
    {| en_id := 0; request := Segments; enqueued_at := 0 |} [] (Some 600%Z) 200000); try reflexivity.
Defined.
