(* ===== verification/WorkerMain.v ===== *)
(** * The worker process (run_serve_worker of src/main.rs)

    The thread that reads requests line by line from the standard input, runs the dispatcher
    on each and writes one response line, until the input ends or a shutdown was asked for.
    The dispatcher's worker is the caller's side of [WorkerLoop]; the theorems hold for any. *)

From Stdlib Require Import Ascii.
From stdpp Require Import base strings numbers list.
From S2P Require Import ToolTable ToolRegistry.
From S2P Require Import Prelude RustStr Json ToolError Protocol Parse.
From S2P Require Import Serde ToolRequests IdaRequest IdaWorker F64 RpcDispatch RpcTheorems.

(** What [read_line] returns. *)
Inductive ReadLine : Type :=
| Line (text : string)
| Eof
| ReadError.

Section process.
Context {S : Type}.
Context (worker : ∀ c : WorkerCall, S → result (reply (wc_request c)) ToolError * S).
Context (json_parse : string → option Value) (json_display : Value → string).
Context (de_message : DeError → string) (f64_text : f64 → string).
(** [serde_json::from_str::<RpcRequest>] and [serde_json::to_string] *)
Context (read_request : string → result RpcRequest string) (json_print : Value → result string string).

(** The response to a line that is not blank, and whether the loop ends. *)
Definition handle_line (trimmed : string) (s : S) : RpcResponse * bool * S :=
  match read_request trimmed with
  | Err e => (RpcResponse_err "null" (-32700) ("Parse error: " +:+ e), false, s)
  | Ok req =>
      let '(r, s) := dispatch_rpc worker json_parse json_display de_message f64_text req s in
      (match r with
       | Ok value => RpcResponse_ok (req_id req) value
       | Err e => RpcResponse_err (req_id req) (-32000) (error_to_string e)
       end, bool_decide (req_method req = "shutdown"), s)
  end.

(** The loop: the responses in the order in which they are written. *)
Fixpoint rpc_loop (input : list ReadLine) (s : S) : list RpcResponse * S :=
  match input with
  | [] => ([], s)
  | (Eof | ReadError) :: _ => ([], (worker Worker.shutdown s).2)
  | Line text :: input =>
      let trimmed := trim text in
      if bool_decide (trimmed = "") then rpc_loop input s
      else
        let '(resp, stop, s) := handle_line trimmed s in
        if stop then ([resp], s)
        else let '(out, s) := rpc_loop input s in (resp :: out, s)
  end.

(** The line that is written for a response. *)
Definition response_line (resp : RpcResponse) : string :=
  match json_print (response_to_value resp) with
  | Ok j => j
  | Err e =>
      match json_print (response_to_value
              (RpcResponse_err (resp_id resp) (-32603) ("Serialization error: " +:+ e))) with
      | Ok j => j
      | Err _ => ""
      end
  end +:+ newline.

(** ** One response per line *)

(** The ids that the responses must carry: one per line that is not blank, up to the first
    shutdown or the end. *)
Fixpoint expected_ids (input : list ReadLine) : list string :=
  match input with
  | [] | Eof :: _ | ReadError :: _ => []
  | Line text :: input =>
      if bool_decide (trim text = "") then expected_ids input
      else
        match read_request (trim text) with
        | Err _ => "null" :: expected_ids input
        | Ok req =>
            req_id req :: (if bool_decide (req_method req = "shutdown") then [] else expected_ids input)
        end
  end.

(** The worker answers every line exactly once and in order, with the id of the request
    on that line, or the id [null] when the line is not a request; a bad line does not end
    the loop, and nothing is answered after a shutdown. *)
Theorem one_response_per_line (input : list ReadLine) (s : S) :
  resp_id <$> (rpc_loop input s).1 = expected_ids input.
Proof.
  revert s. induction input as [|[text| |] input IH]; intros s; [done| |done|done].
  cbn [rpc_loop expected_ids]. case_bool_decide; [apply IH|]. unfold handle_line.
  destruct (read_request (trim text)) as [req|e].
  - destruct (dispatch_rpc _ _ _ _ _ req s) as [r s'].
    case_bool_decide; [by destruct r|]. specialize (IH s'). destruct (rpc_loop input s') as [out s''].
    cbn [fst] in IH |- *. rewrite fmap_cons, IH. by destruct r.
  - specialize (IH s). destruct (rpc_loop input s) as [out s'']. cbn [fst] in IH |- *. by rewrite fmap_cons, IH.
Qed.
End process.

(** ** The IDA loop is always told to stop *)

(** A worker that also keeps the calls that it got. *)
Definition traced {S} (worker : ∀ c : WorkerCall, S → result (reply (wc_request c)) ToolError * S)
    (c : WorkerCall) (st : S * list WorkerCall) : result (reply (wc_request c)) ToolError * (S * list WorkerCall) :=
  let '(r, s) := worker c st.1 in (r, (s, st.2 ++ [c])).

Section shutdown.
Context {S : Type}.
Context (worker : ∀ c : WorkerCall, S → result (reply (wc_request c)) ToolError * S).
Context (json_parse : string → option Value) (json_display : Value → string).
Context (de_message : DeError → string) (f64_text : f64 → string).
Context (read_request : string → result RpcRequest string).

#[local] Abbreviation loop :=
  (rpc_loop (traced worker) json_parse json_display de_message f64_text read_request).

(** The input ends, fails, or asks for a shutdown. *)
Definition stops (input : list ReadLine) : bool :=
  existsb (λ l, match l with
    | Eof | ReadError => true
    | Line text =>
        match read_request (trim text) with
        | Ok req => negb (bool_decide (trim text = "")) && bool_decide (req_method req = "shutdown")
        | Err _ => false
        end
    end) input.

Lemma traced_last c st : last ((traced worker c st).2).2 = Some c.
Proof. unfold traced. destruct (worker c st.1). simpl. apply last_snoc. Qed.

(** Asking for a shutdown reaches the worker. *)
Lemma dispatch_shutdown req st :
  req_method req = "shutdown" →
  last (dispatch_rpc (traced worker) json_parse json_display de_message f64_text req st).2.2 =
  Some Worker.shutdown.
Proof.
  intros Hm. rewrite (dispatch_arm _ _ _ _ _ req "shutdown" (rpc_shutdown (traced worker))).
  - unfold rpc_shutdown, rpc_bind. pose proof (traced_last Worker.shutdown st) as Hl.
    by destruct (traced worker Worker.shutdown st) as [[] st'].
  - unfold dispatch_table. right. right. left.
  - rewrite Hm. vm_compute. reflexivity.
Qed.

(** C37: the worker process never leaves the IDA loop running: when its input ends, fails or
    asks for a shutdown, the last thing that it sends to the loop is the shutdown request,
    whatever came before. *)
Theorem process_shuts_loop_down (input : list ReadLine) (st : S * list WorkerCall)
    (Hstops : stops input = true) :
  last (loop input st).2.2 = Some Worker.shutdown.
Proof.
  revert st. induction input as [|[text| |] input IH]; intros st; [done| |apply traced_last|apply traced_last].
  cbn [rpc_loop]. simpl in Hstops. case_bool_decide as Ht.
  { apply IH. by destruct (read_request (trim text)). }
  unfold handle_line. destruct (read_request (trim text)) as [req|e].
  - pose proof (dispatch_shutdown req st) as Hd.
    destruct (dispatch_rpc _ _ _ _ _ req st) as [r st']. simpl in Hstops.
    case_bool_decide as Hm; [by apply Hd|]. specialize (IH Hstops st').
    by destruct (loop input st') as [out st''].
  - specialize (IH Hstops st). by destruct (loop input st) as [out st''].
Qed.
End shutdown.

Lemma process_shuts_loop_down_witness :
  last (rpc_loop (traced sample_worker) (λ _, None) (λ _, "") (λ _, "") (λ _, "") (λ _, Err "bad")
          [Line "x"; Line ""; Eof] (0, [])).2.2 = Some Worker.shutdown.
Proof. apply (process_shuts_loop_down sample_worker). reflexivity. Defined.
