(* ===== verification/Paging.v ===== *)
(** * Pages of a listing

    The loop that most listing handlers of src/ida/handlers share: count what passes the
    filter, skip [offset], keep at most [limit], and say where the next page begins.  The
    theorems: a page is the right slice, and a client that follows [next_offset] sees every
    item once and stops. *)

From stdpp Require Import base numbers list.
From S2P Require Import Prelude.

Section paging.
Context {A B : Type} (keep : A → bool) (f : A → B).

(** The body of the loop: what was kept so far and the number of matches. *)
Definition page_step (offset limit : Z) (acc : list B * Z) (x : A) : list B * Z :=
  let '(out, total) := acc in
  if negb (keep x) then (out, total)
  else
    let total := (total + 1)%Z in
    if (total <=? offset)%Z then (out, total)
    else if (limit <=? Z.of_nat (length out))%Z then (out, total)
    else (out ++ [f x], total).

Definition paged (offset limit : Z) (items : list A) : list B * Z :=
  foldl (page_step offset limit) ([], 0%Z) items.

Definition next_offset (offset : Z) (got : nat) (total : Z) : option Z :=
  if (saturating_add offset (Z.of_nat got) <? total)%Z then Some (saturating_add offset (Z.of_nat got))
  else None.

(** What the loop has after a prefix of the items. *)
Lemma paged_loop offset limit done_ items :
  (0 ≤ offset)%Z → (0 ≤ limit)%Z →
  let kept := filter (λ x, keep x = true) in
  foldl (page_step offset limit)
    (f <$> take (Z.to_nat limit) (drop (Z.to_nat offset) (kept done_)), Z.of_nat (length (kept done_))) items =
  (f <$> take (Z.to_nat limit) (drop (Z.to_nat offset) (kept (done_ ++ items))),
   Z.of_nat (length (kept (done_ ++ items)))).
Proof.
  intros Ho Hl kept. revert done_. induction items as [|x items IH]; intros done_; [by rewrite app_nil_r|].
  rewrite (cons_middle x done_ items), (assoc_L (++)), <-IH. cbn [foldl]. f_equal.
  unfold page_step. destruct (keep x) eqn:Hx; cbn [negb]; unfold kept; rewrite filter_app, filter_cons.
  - rewrite decide_True by done. cbn [filter list_filter]. rewrite length_app. cbn [length].
    fold (kept done_). set (k := kept done_).
    replace (Z.of_nat (length k + 1)) with (Z.of_nat (length k) + 1)%Z by lia.
    destruct (Z.leb_spec (Z.of_nat (length k) + 1) offset).
    + rewrite !drop_ge by (rewrite ?length_app; simpl; lia). done.
    + rewrite drop_app_le by lia. rewrite length_fmap, length_take, length_drop.
      case_match; rename select (_ = _) into Hle.
      * apply Z.leb_le in Hle. rewrite take_app_le by (rewrite length_drop; lia). done.
      * apply Z.leb_gt in Hle. rewrite !take_ge by (rewrite ?length_app, ?length_drop; simpl; lia).
        by rewrite fmap_app.
  - rewrite decide_False by congruence. by rewrite app_nil_r.
Qed.

(** A page is a slice of what passes the filter, and the total counts all of it. *)
Lemma paged_spec offset limit items :
  (0 ≤ offset)%Z → (0 ≤ limit)%Z →
  paged offset limit items =
  (f <$> take (Z.to_nat limit) (drop (Z.to_nat offset) (filter (λ x, keep x = true) items)),
   Z.of_nat (length (filter (λ x, keep x = true) items))).
Proof.
  intros Ho Hl. etransitivity; [|apply (paged_loop offset limit [] items Ho Hl)].
  cbn [filter list_filter]. by rewrite drop_nil, take_nil.
Qed.

(** A client that asks for page after page. *)
Fixpoint all_pages (fuel : nat) (offset limit : Z) (items : list A) : list B :=
  match fuel with
  | 0 => []
  | S fuel =>
      let '(page, total) := paged offset limit items in
      page ++ match next_offset offset (length page) total with
              | Some offset => all_pages fuel offset limit items
              | None => []
              end
  end.

(** With a positive limit, as many pages as there are items are enough to see all of them, in
    order and once each; the listing must be shorter than the largest [usize]. *)
Lemma all_pages_from fuel offset limit items :
  (0 ≤ offset)%Z → (0 < limit)%Z →
  let kept := filter (λ x, keep x = true) items in
  (Z.of_nat (length kept) < u64_max)%Z → length kept - Z.to_nat offset < fuel →
  all_pages fuel offset limit items = f <$> drop (Z.to_nat offset) kept.
Proof.
  intros Ho Hl kept Hlen. revert offset Ho. induction fuel as [|fuel IH]; intros offset Ho Hfuel; [lia|].
  cbn [all_pages]. rewrite paged_spec by lia. fold kept. unfold next_offset.
  rewrite length_fmap, length_take, length_drop.
  set (got := Z.to_nat limit `min` (length kept - Z.to_nat offset)).
  assert (saturating_add offset (Z.of_nat got) < Z.of_nat (length kept) →
          saturating_add offset (Z.of_nat got) = offset + Z.of_nat got)%Z as Hsat
    by (unfold saturating_add; lia).
  destruct (Z.ltb_spec (saturating_add offset (Z.of_nat got)) (Z.of_nat (length kept))) as [Hlt|Hge].
  - rewrite (Hsat Hlt) in *. rewrite IH by lia. rewrite <-fmap_app. f_equal.
    replace (Z.to_nat (offset + Z.of_nat got)) with (Z.to_nat offset + got) by lia.
    rewrite <-drop_drop. replace got with (Z.to_nat limit) by lia. by rewrite take_drop.
  - rewrite app_nil_r, take_ge; [done|]. rewrite length_drop. unfold saturating_add in Hge. lia.
Qed.
End paging.
