(* ===== verification/IdaDatabase.v ===== *)
(** * The database as the handlers see it

    What the handlers of src/ida/handlers read of an open [idalib] database, as a record of
    observations on top of [ControlFlow.IDB], and the result structs of src/ida/types.rs. *)

From Stdlib Require Import Ascii.
From stdpp Require Import base gmap strings numbers list.
From S2P Require Import Prelude RustStr Json ToolError Parse ControlFlow.

(** An entry of [names()]. *)
Record Symbol : Type := { sy_address : Z; sy_name : string; sy_public : bool; sy_weak : bool }.

Record Seg : Type := {
  sg_name : option string;
  sg_start : Z;
  sg_end : Z;
  sg_len : Z;
  sg_readable : bool;
  sg_writable : bool;
  sg_executable : bool;
  sg_type : string;              (* [{:?}] of the segment type *)
  sg_extern : bool;
  sg_import : bool;
  sg_bitness : Z
}.

(** A cross reference with the text of its type. *)
Record XRefData : Type := { xd_from : Z; xd_to : Z; xd_type : string; xd_code : bool }.

(** A statement of decompiled code. *)
Record Stmt : Type := {
  st_address : Z;
  st_text : string;
  st_opcode : Z;
  st_bounds : option (Z * Z)
}.

Record CFunc : Type := {
  cf_pseudocode : string;
  cf_has_eamap : bool;
  cf_statements_at : Z → option (list Stmt)
}.

Record TypeGuess : Type := { tg_code : Z; tg_decl : string; tg_kind : string }.

(** Structures and unions, local types, and the frame of a function, as [idalib] gives them. *)
Record UdtInfo : Type := {
  ud_ordinal : Z;
  ud_name : string;
  ud_size : Z;
  ud_is_union : bool;
  ud_member_count : Z
}.

Record UdtMember : Type := {
  um_name : string;
  um_type_name : string;
  um_offset_bits : Z;
  um_size_bits : Z;
  um_is_bitfield : bool
}.

Record LocalType : Type := { lt_ordinal : Z; lt_name : string; lt_decl : string; lt_kind : string }.

Record FrameData : Type := {
  fd_frame_size : Z;
  fd_ret_size : Z;
  fd_frsize : Z;
  fd_frregs : Z;
  fd_argsize : Z;
  fd_fpd : Z;
  fd_args : Z * Z;
  fd_retaddr : Z * Z;
  fd_savregs : Z * Z;
  fd_locals : Z * Z;
  fd_member_count : Z
}.

Record FrameMember : Type := { fm_member : UdtMember; fm_part : string }.

(** A block of a flow graph: which of the seven kinds it is, and its neighbours' starts. *)
Record Block : Type := {
  bk_start : Z;
  bk_end : Z;
  bk_len : Z;
  bk_normal : bool;
  bk_ret : bool;
  bk_cndret : bool;
  bk_noret : bool;
  bk_indjump : bool;
  bk_extern : bool;
  bk_error : bool;
  bk_succs : list Z;
  bk_preds : list Z
}.

Record Meta : Type := {
  me_64bit : bool;
  me_32bit_exactly : bool;
  me_md5 : list Z;
  me_sha256 : list Z;
  me_filetype : string;
  me_processor : string;
  me_function_count : Z;
  me_path : string;
  me_size : Z;
  me_base : option Z;
  me_min : Z;
  me_max : Z;
  me_main : option Z
}.

Record PyOutput : Type := {
  py_success : bool;
  py_stdout : string;
  py_stderr : string;
  py_error : option string
}.

Record Database : Type := {
  d_view : IDB;                              (* functions, function_at, next_head *)
  d_symbols : list Symbol;
  d_closest_symbol : Z → option Symbol;
  d_segments : list Seg;
  d_segment_at : Z → option Seg;
  d_strings : list (Z * string);
  d_entries : list Z;
  d_get_bytes : Z → Z → list Z;
  d_get_byte : Z → Z;
  d_get_word : Z → Z;
  d_get_dword : Z → Z;
  d_get_qword : Z → Z;
  d_xrefs_to : Z → list XRefData;
  d_xrefs_from : Z → list XRefData;
  d_guess_type : Z → TypeGuess;
  d_disasm_line : Z → option string;
  d_insn_len : Z → option Z;
  d_find_text : string → list Z;
  d_find_imm : Z → list Z;
  d_decompiler_available : bool;
  d_decompile : Func → result CFunc string;
  d_udt_ordinal_limit : Z;
  d_udt_info : Z → option UdtInfo;
  d_udt_member : Z → Z → option UdtMember;
  d_udt_member_tid : Z → Z → option Z;
  d_xrefs_to_tid : Z → list XRefData;
  d_local_type_info : Z → option LocalType;
  d_frame_info : Z → option FrameData;
  d_frame_member : Z → Z → option FrameMember;
  d_blocks : Func → result (list Block) string;
  d_meta : Meta
}.

Definition functions (db : Database) : list Func := db_functions (d_view db).
Definition function_at (db : Database) (a : Z) : option Func := db_function_at (d_view db) a.
Definition next_head (db : Database) (a : Z) : option Z := db_next_head (d_view db) a.

(** [func.name().unwrap_or_else(|| format!("sub_{:x}", start))] *)
Definition name_or_sub (fn : Func) : string := default ("sub_" +:+ fmt_hex (f_start fn)) (f_name fn).

(** ** Results (src/ida/types.rs) *)

Record FunctionListResult : Type := {
  fl_functions : list FunctionInfo;
  fl_total : Z;
  fl_next_offset : option Z
}.

Record FunctionRangeInfo : Type := {
  fr_address : string;
  fr_name : string;
  fr_start : string;
  fr_end : string;
  fr_size : Z
}.

Record SegmentInfo : Type := {
  si_name : string;
  si_start : string;
  si_end : string;
  si_size : Z;
  si_permissions : string;
  si_type : string;
  si_bitness : Z
}.

Record SymbolInfo : Type := {
  sym_name : string;
  sym_address : string;
  sym_delta : Z;
  sym_exact : bool;
  sym_is_public : bool;
  sym_is_weak : bool
}.

Record AddressInfo : Type := {
  ai_address : string;
  ai_segment : option SegmentInfo;
  ai_function : option FunctionRangeInfo;
  ai_symbol : option SymbolInfo
}.

Record StringInfo : Type := { str_address : string; str_content : string; str_length : Z }.

Record StringListResult : Type := {
  sl_strings : list StringInfo;
  sl_total : Z;
  sl_next_offset : option Z
}.

Record StringXrefInfo : Type := {
  sx_address : string;
  sx_content : string;
  sx_length : Z;
  sx_xrefs : list string;
  sx_xref_count : Z
}.

Record StringXrefsResult : Type := {
  sxr_strings : list StringXrefInfo;
  sxr_total : Z;
  sxr_next_offset : option Z
}.

Record XRefInfo : Type := { xi_from : string; xi_to : string; xi_type : string; xi_is_code : bool }.

Record ImportInfo : Type := { imp_address : string; imp_name : string; imp_ordinal : Z }.

Record ExportInfo : Type := { exp_address : string; exp_name : string; exp_is_public : bool }.

Record GlobalInfo : Type := {
  gl_address : string;
  gl_name : string;
  gl_is_public : bool;
  gl_is_weak : option bool
}.

Record LocalTypeListResult : Type := {
  ltl_types : list LocalType;              (* [LocalTypeInfo] has the same fields *)
  ltl_total : Z;
  ltl_next_offset : option Z
}.

Record FrameRange : Type := { rg_start : string; rg_end : string }.

Record FrameMemberInfo : Type := {
  fmi_name : string;
  fmi_type_name : string;
  fmi_offset_bits : Z;
  fmi_size_bits : Z;
  fmi_offset : Z;
  fmi_size : Z;
  fmi_is_bitfield : bool;
  fmi_part : string
}.

Record FrameInfo : Type := {
  fri_address : string;
  fri_frame_size : Z;
  fri_ret_size : Z;
  fri_frsize : Z;
  fri_frregs : Z;
  fri_argsize : Z;
  fri_fpd : Z;
  fri_args_range : FrameRange;
  fri_retaddr_range : FrameRange;
  fri_savregs_range : FrameRange;
  fri_locals_range : FrameRange;
  fri_member_count : Z;
  fri_members : list FrameMemberInfo
}.

Record StructSummary : Type := {
  ss_ordinal : Z;
  ss_name : string;
  ss_size : Z;
  ss_is_union : bool;
  ss_member_count : Z
}.

Record StructListResult : Type := {
  stl_structs : list StructSummary;
  stl_total : Z;
  stl_next_offset : option Z
}.

Record StructMemberInfo : Type := {
  smi_name : string;
  smi_type_name : string;
  smi_offset_bits : Z;
  smi_size_bits : Z;
  smi_offset : Z;
  smi_size : Z;
  smi_is_bitfield : bool
}.

Record StructInfo : Type := {
  sti_ordinal : Z;
  sti_name : string;
  sti_size : Z;
  sti_is_union : bool;
  sti_member_count : Z;
  sti_members : list StructMemberInfo
}.

Record StructMemberValue : Type := { smv_info : StructMemberInfo; smv_bytes : string }.

Record StructReadResult : Type := {
  srr_address : string;
  srr_ordinal : Z;
  srr_name : string;
  srr_size : Z;
  srr_members : list StructMemberValue
}.

Record GuessTypeResult : Type := {
  gt_address : string;
  gt_code : Z;
  gt_status : string;
  gt_decl : string;
  gt_kind : string
}.

Record StackVarResult : Type := {
  sv_function : string;
  sv_name : string;
  sv_offset : Z;
  sv_code : Z;
  sv_status : string
}.

Record XrefsToFieldResult : Type := {
  xf_struct_ordinal : Z;
  xf_struct_name : string;
  xf_member_index : Z;
  xf_member_name : string;
  xf_member_type : string;
  xf_member_offset_bits : Z;
  xf_member_size_bits : Z;
  xf_tid : string;
  xf_xrefs : list XRefInfo;
  xf_truncated : bool
}.

Record BasicBlockInfo : Type := {
  bbi_start : string;
  bbi_end : string;
  bbi_size : Z;
  bbi_block_type : string;
  bbi_successors : list string;
  bbi_predecessors : list string
}.

(** ** Their JSON *)

Definition function_info_value (i : FunctionInfo) : Value :=
  obj [("address", VString (fi_address i)); ("name", VString (fi_name i)); ("size", vz (fi_size i))].

Definition global_info_value (g : GlobalInfo) : Value :=
  obj ([("address", VString (gl_address g)); ("name", VString (gl_name g));
        ("is_public", Bool (gl_is_public g))] ++
       match gl_is_weak g with Some b => [("is_weak", Bool b)] | None => [] end).

(** A signed integer ([i32], [i64]): a negative one is a number of its own kind. *)
Definition vint (z : Z) : Value := Number (if (z <? 0)%Z then NegInt z else PosInt z).
Definition opt_vz (o : option Z) : Value := match o with Some z => vz z | None => Null end.
Definition opt_vstring (o : option string) : Value := match o with Some s => VString s | None => Null end.

(** ** A small database

    Two functions in one segment of four-byte instructions, two strings and an import. *)

Definition sample_fn (start stop : Z) (name : option string) : Func :=
  {| f_start := start; f_end := stop; f_name := name; f_len := stop - start;
     f_contains := λ a, (start <=? a)%Z && (a <? stop)%Z; f_cfg := Err "no graph" |}.

Definition sample_fns : list Func :=
  [sample_fn 4096 4104 (Some "main"); sample_fn 4104 4112 None].

Definition sample_fn_at (a : Z) : option Func := snd <$> list_find (λ fn, f_contains fn a = true) sample_fns.

Definition sample_line (a : Z) : option string :=
  if bool_decide (a = 4096)%Z then Some "mov     r0, r1 ; copy"
  else if bool_decide (a = 4100)%Z then Some "bl      sub_1008"
  else if bool_decide (a = 4104)%Z then Some "mov     r1, r2"
  else if bool_decide (a = 4108)%Z then Some "ret"
  else None.

Definition sample_seg : Seg :=
  {| sg_name := Some ".text"; sg_start := 4096; sg_end := 4112; sg_len := 16; sg_readable := true;
     sg_writable := false; sg_executable := true; sg_type := "CODE"; sg_extern := false; sg_import := false;
     sg_bitness := 1 |}.

Definition sample_db : Database :=
  {| d_view := {| db_functions := sample_fns; db_names := [("main", 4096%Z)]; db_function_at := sample_fn_at;
                  db_xrefs_from := λ _, []; db_xrefs_to := λ _, [];
                  db_next_head := λ a, if (a <? 4108)%Z then Some (a + 4)%Z else None |};
     d_symbols := [{| sy_address := 4096; sy_name := "main"; sy_public := true; sy_weak := false |};
                   {| sy_address := 8192; sy_name := "puts"; sy_public := false; sy_weak := false |}];
     d_closest_symbol := λ _, None;
     d_segments := [sample_seg];
     d_segment_at := λ a, if (4096 <=? a)%Z && (a <? 4112)%Z then Some sample_seg else None;
     d_strings := [(12288%Z, "hello"); (12296%Z, "world")];
     d_entries := [4096%Z; 4096%Z];
     d_get_bytes := λ _ n, take (Z.to_nat n) [104; 105; 0; 255]%Z;
     d_get_byte := λ _, 104%Z;
     d_get_word := λ _, 26984%Z;
     d_get_dword := λ _, 0%Z;
     d_get_qword := λ _, 0%Z;
     d_xrefs_to := λ _, [];
     d_xrefs_from := λ a, if (a =? 4100)%Z
                          then [{| xd_from := 4100; xd_to := 4104; xd_type := "CallNear"; xd_code := true |}] else [];
     d_guess_type := λ _, {| tg_code := 0; tg_decl := ""; tg_kind := "" |};
     d_disasm_line := sample_line;
     d_insn_len := λ a, if bool_decide (is_Some (sample_line a)) then Some 4%Z else None;
     d_find_text := λ _, [];
     d_find_imm := λ _, [];
     d_decompiler_available := true;
     d_decompile := λ _, Err "no licence";
     d_udt_ordinal_limit := 4;
     d_udt_info := λ o,
       if (o =? 1)%Z then Some {| ud_ordinal := 1; ud_name := "struct point"; ud_size := 8; ud_is_union := false;
                                  ud_member_count := 2 |}
       else if (o =? 3)%Z then Some {| ud_ordinal := 3; ud_name := "point3d"; ud_size := 4; ud_is_union := false;
                                       ud_member_count := 1 |}
       else None;
     d_udt_member := λ o i,
       if (o =? 1)%Z && (i =? 0)%Z then Some {| um_name := "x"; um_type_name := "int"; um_offset_bits := 0;
                                                um_size_bits := 32; um_is_bitfield := false |}
       else if (o =? 1)%Z && (i =? 1)%Z then Some {| um_name := "y"; um_type_name := "int"; um_offset_bits := 32;
                                                     um_size_bits := 32; um_is_bitfield := false |}
       else if (o =? 3)%Z && (i =? 0)%Z then Some {| um_name := "flags"; um_type_name := "int"; um_offset_bits := 6;
                                                     um_size_bits := 4; um_is_bitfield := true |}
       else None;
     d_udt_member_tid := λ o i, Some (1000 * o + i)%Z;
     d_xrefs_to_tid := λ _, [{| xd_from := 4096; xd_to := 1000; xd_type := "Read"; xd_code := false |};
                             {| xd_from := 4104; xd_to := 1000; xd_type := "Write"; xd_code := false |}];
     d_local_type_info := λ o, if (o =? 2)%Z then Some {| lt_ordinal := 2; lt_name := "color"; lt_decl := "enum color";
                                                          lt_kind := "enum" |} else None;
     d_frame_info := λ a,
       if (a =? 4096)%Z
       then Some {| fd_frame_size := 24; fd_ret_size := 8; fd_frsize := 16; fd_frregs := 0; fd_argsize := 0;
                    fd_fpd := 0; fd_args := (24, 24); fd_retaddr := (16, 24); fd_savregs := (16, 16);
                    fd_locals := (0, 16); fd_member_count := 2 |}%Z
       else None;
     d_frame_member := λ _ i,
       Some {| fm_member := {| um_name := if (i =? 0)%Z then "buf" else "len"; um_type_name := "";
                               um_offset_bits := 64 * i; um_size_bits := 64; um_is_bitfield := false |};
               fm_part := "locals" |};
     d_blocks := λ _, Err "no graph";
     d_meta := {| me_64bit := true; me_32bit_exactly := false; me_md5 := []; me_sha256 := []; me_filetype := "ELF";
                  me_processor := "arm"; me_function_count := 2; me_path := "a.out"; me_size := 100; me_base := None;
                  me_min := 4096; me_max := 12300; me_main := Some 4096%Z |} |}.
