(* ===== verification/ListHandlers.v ===== *)
(** * Listings (src/ida/handlers: functions.rs, globals.rs, imports.rs, segments.rs,
    strings.rs, address.rs)

    Every handler works on [idb], which may be closed.  Unicode lower-casing
    ([str::to_lowercase]) is a parameter. *)

From Stdlib Require Import Ascii.
From stdpp Require Import base gmap strings numbers list.
From S2P Require Import Prelude RustStr Json ToolError Parse ControlFlow Paging IdaDatabase.

Open Scope ida_scope.

Section listings.
Context (to_lowercase : string → string).

(** [filter.map(|f| f.to_lowercase())] and the test of the loops. *)
Definition passes (filter : option string) (text : string) : bool :=
  match to_lowercase <$> filter with
  | Some f => contains f (to_lowercase text)
  | None => true
  end.

(** ** Functions *)

Definition handle_list_functions (idb : option Database) (offset limit : Z) (filter : option string) :
    result FunctionListResult ToolError :=
  let? db := ok_or idb NoDatabaseOpen in
  let '(fs, total) := paged (λ fn, passes filter (name_or_sub fn)) function_info offset limit (functions db) in
  Ok {| fl_functions := fs; fl_total := total; fl_next_offset := next_offset offset (length fs) total |}.

Definition handle_resolve_function (idb : option Database) (name : string) : result FunctionInfo ToolError :=
  let? db := ok_or idb NoDatabaseOpen in
  match list_find (λ fn, match f_name fn with Some n => name_hit name n | None => false end = true)
                  (functions db) with
  | Some (_, fn) => Ok (function_info fn)
  | None => Err (FunctionNameNotFound name)
  end.

(** One query of [handle_lookup_funcs]; [funcs] are the functions computed before. *)
Definition lookup_func (db : Database) (funcs : list FunctionInfo) (query : string) : Value :=
  let found (o : option FunctionInfo) :=
    match o with
    | Some info => obj [("query", VString query); ("result", function_info_value info)]
    | None => obj [("query", VString query); ("error", VString "Function not found")]
    end in
  match parse_address_str query with
  | Ok addr => found (function_info <$> function_at db addr)
  | Err _ => found (snd <$> list_find (λ i, name_hit query (fi_name i) = true) funcs)
  end.

Definition handle_lookup_funcs (idb : option Database) (queries : list string) : result Value ToolError :=
  let? db := ok_or idb NoDatabaseOpen in
  let funcs := function_info <$> functions db in
  Ok (obj [("results", Array (lookup_func db funcs <$> queries))]).

Definition handle_get_function_prototype (idb : option Database) (addr : option Z) (name : option string) :
    result Value ToolError :=
  let? db := ok_or idb NoDatabaseOpen in
  let? addr := resolve_address (Some (d_view db)) addr name 0 in
  let gt := d_guess_type db addr in
  if (tg_code gt =? 0)%Z then Err (IdaError ("No type information at " +:+ fmt_hex_alt addr))
  else Ok (obj [("address", VString (fmt_hex_alt addr)); ("prototype", VString (tg_decl gt));
                ("kind", VString (tg_kind gt))]).

Definition function_range_info (fn : Func) : FunctionRangeInfo :=
  {| fr_address := fmt_hex_alt (f_start fn); fr_name := name_or_sub fn;
     fr_start := fmt_hex_alt (f_start fn); fr_end := fmt_hex_alt (f_end fn); fr_size := f_len fn |}.

Definition handle_function_at (idb : option Database) (addr : Z) : result FunctionRangeInfo ToolError :=
  let? db := ok_or idb NoDatabaseOpen in
  let? fn := ok_or (function_at db addr) (FunctionNotFound addr) in
  Ok (function_range_info fn).

(** ** Segments and addresses *)

Definition permissions_text (sg : Seg) : string :=
  (if sg_readable sg then "r" else "-") +:+ (if sg_writable sg then "w" else "-") +:+
  (if sg_executable sg then "x" else "-").

Definition segment_info (sg : Seg) : SegmentInfo :=
  {| si_name := default "" (sg_name sg); si_start := fmt_hex_alt (sg_start sg);
     si_end := fmt_hex_alt (sg_end sg); si_size := sg_len sg; si_permissions := permissions_text sg;
     si_type := sg_type sg; si_bitness := sg_bitness sg |}.

Definition handle_segments (idb : option Database) : result (list SegmentInfo) ToolError :=
  let? db := ok_or idb NoDatabaseOpen in
  Ok (segment_info <$> d_segments db).

(** The distance to a symbol, clamped to [i64]. *)
Definition symbol_delta (addr sym_addr : Z) : Z :=
  let delta_raw := if (sym_addr <=? addr)%Z then (addr - sym_addr)%Z else (- (sym_addr - addr))%Z in
  Z.max (- 2 ^ 63) (Z.min delta_raw (2 ^ 63 - 1)).

Definition symbol_info (addr : Z) (s : Symbol) : SymbolInfo :=
  let delta := symbol_delta addr (sy_address s) in
  {| sym_name := sy_name s; sym_address := fmt_hex_alt (sy_address s); sym_delta := delta;
     sym_exact := (delta =? 0)%Z; sym_is_public := sy_public s; sym_is_weak := sy_weak s |}.

Definition handle_addr_info (idb : option Database) (addr : Z) : result AddressInfo ToolError :=
  let? db := ok_or idb NoDatabaseOpen in
  Ok {| ai_address := fmt_hex_alt addr; ai_segment := segment_info <$> d_segment_at db addr;
        ai_function := function_range_info <$> function_at db addr;
        ai_symbol := symbol_info addr <$> d_closest_symbol db addr |}.

(** ** Names *)

(** A global: a name outside of every function. *)
Definition is_global (db : Database) (query : option string) (s : Symbol) : bool :=
  passes query (sy_name s) && negb (bool_decide (is_Some (function_at db (sy_address s)))).

Definition global_info (s : Symbol) : GlobalInfo :=
  {| gl_address := fmt_hex_alt (sy_address s); gl_name := sy_name s; gl_is_public := sy_public s;
     gl_is_weak := Some (sy_weak s) |}.

Definition handle_list_globals (idb : option Database) (query : option string) (offset limit : Z) :
    result Value ToolError :=
  let? db := ok_or idb NoDatabaseOpen in
  let '(globals, total) := paged (is_global db query) global_info offset limit (d_symbols db) in
  Ok (obj [("globals", Array (global_info_value <$> globals)); ("total", vz total);
           ("next_offset", opt_vz (next_offset offset (length globals) total))]).

(** The loop of [handle_imports] and [handle_exports]: [count] names were seen, and the loop
    ends as soon as the page is full. *)
Fixpoint slice_loop {B} (keep : Symbol → bool) (f : Z → Symbol → B) (offset limit : Z)
    (count : Z) (out : list B) (l : list Symbol) : list B :=
  match l with
  | [] => out
  | s :: l =>
      if negb (keep s) then slice_loop keep f offset limit count out l
      else if (count <? offset)%Z then slice_loop keep f offset limit (count + 1) out l
      else if (limit <=? Z.of_nat (length out))%Z then out
      else slice_loop keep f offset limit (count + 1) (out ++ [f count s]) l
  end.

Definition is_external (db : Database) (s : Symbol) : bool :=
  match d_segment_at db (sy_address s) with
  | Some sg => sg_extern sg || sg_import sg
  | None => false
  end.

Definition import_info (count : Z) (s : Symbol) : ImportInfo :=
  {| imp_address := fmt_hex_alt (sy_address s); imp_name := sy_name s; imp_ordinal := count |}.

Definition handle_imports (idb : option Database) (offset limit : Z) : result (list ImportInfo) ToolError :=
  let? db := ok_or idb NoDatabaseOpen in
  Ok (slice_loop (is_external db) import_info offset limit 0 [] (d_symbols db)).

Definition export_info (_ : Z) (s : Symbol) : ExportInfo :=
  {| exp_address := fmt_hex_alt (sy_address s); exp_name := sy_name s; exp_is_public := sy_public s |}.

Definition handle_exports (idb : option Database) (offset limit : Z) : result (list ExportInfo) ToolError :=
  let? db := ok_or idb NoDatabaseOpen in
  Ok (slice_loop (λ _, true) export_info offset limit 0 [] (d_symbols db)).

(** Up to the first address that was seen before. *)
Fixpoint until_repeat (seen : gset Z) (l : list Z) : list Z :=
  match l with
  | [] => []
  | a :: l => if bool_decide (a ∈ seen) then [] else a :: until_repeat ({[a]} ∪ seen) l
  end.

Definition handle_entrypoints (idb : option Database) : result (list string) ToolError :=
  let? db := ok_or idb NoDatabaseOpen in
  Ok (fmt_hex_alt <$> until_repeat ∅ (d_entries db)).

(** ** Strings *)

Definition string_info (s : Z * string) : StringInfo :=
  {| str_address := fmt_hex_alt s.1; str_content := s.2; str_length := Z.of_nat (String.length s.2) |}.

Definition handle_strings (idb : option Database) (offset limit : Z) (filter : option string) :
    result StringListResult ToolError :=
  let? db := ok_or idb NoDatabaseOpen in
  let '(strings, total) := paged (λ s, passes filter s.2) string_info offset limit (d_strings db) in
  Ok {| sl_strings := strings; sl_total := total; sl_next_offset := next_offset offset (length strings) total |}.

(** The references to a string, at most [n]: the loop leaves after the one that fills it. *)
Definition first_xrefs (db : Database) (n : nat) (addr : Z) : list string :=
  (λ x, fmt_hex_alt (xd_from x)) <$> take n (d_xrefs_to db addr).

Definition analyzed_string (db : Database) (s : Z * string) : Value :=
  let xrefs := first_xrefs db 64 s.1 in
  obj [("address", VString (fmt_hex_alt s.1)); ("content", VString s.2);
       ("length", vnat (String.length s.2)); ("xrefs", Array (VString <$> xrefs));
       ("xref_count", vnat (length xrefs))].

Definition handle_analyze_strings (idb : option Database) (query : option string) (offset limit : Z) :
    result Value ToolError :=
  let? db := ok_or idb NoDatabaseOpen in
  let '(results, total) := paged (λ s, passes query s.2) (analyzed_string db) offset limit (d_strings db) in
  Ok (obj [("strings", Array results); ("total", vz total);
           ("next_offset", opt_vz (next_offset offset (length results) total))]).

(** The test of [handle_find_string] and [handle_xrefs_to_string]. *)
Definition string_matches (query : string) (exact case_insensitive : bool) (content : string) : bool :=
  let query_norm := if case_insensitive then to_lowercase query else query in
  let hay := if case_insensitive then to_lowercase content else content in
  if exact then bool_decide (hay = query_norm) else contains query_norm hay.

Definition handle_find_string (idb : option Database) (query : string) (exact case_insensitive : bool)
    (offset limit : Z) : result StringListResult ToolError :=
  let? db := ok_or idb NoDatabaseOpen in
  let '(strings, total) :=
    paged (λ s, string_matches query exact case_insensitive s.2) string_info offset limit (d_strings db) in
  Ok {| sl_strings := strings; sl_total := total; sl_next_offset := next_offset offset (length strings) total |}.

Definition string_xref_info (db : Database) (max_xrefs : nat) (s : Z * string) : StringXrefInfo :=
  let xrefs := first_xrefs db max_xrefs s.1 in
  {| sx_address := fmt_hex_alt s.1; sx_content := s.2; sx_length := Z.of_nat (String.length s.2);
     sx_xrefs := xrefs; sx_xref_count := Z.of_nat (length xrefs) |}.

Definition handle_xrefs_to_string (idb : option Database) (query : string) (exact case_insensitive : bool)
    (offset limit max_xrefs : Z) : result StringXrefsResult ToolError :=
  let? db := ok_or idb NoDatabaseOpen in
  let max_xrefs := Z.to_nat (Z.max 1 (Z.min max_xrefs 1024)) in
  let '(strings, total) :=
    paged (λ s, string_matches query exact case_insensitive s.2) (string_xref_info db max_xrefs)
      offset limit (d_strings db) in
  Ok {| sxr_strings := strings; sxr_total := total; sxr_next_offset := next_offset offset (length strings) total |}.
End listings.

(** * What the listings guarantee

    Paging is complete, imports and exports are slices with running ordinals, entry points are
    listed up to the first repetition, symbols are located by their distance. *)

Section theorems.
Context (to_lowercase : string → string).

(** ** Pages *)

(** A client that follows [next_offset]. *)
Fixpoint walk {B} (fuel : nat) (get : Z → result (list B * option Z) ToolError) (offset : Z) : list B :=
  match fuel with
  | 0 => []
  | S fuel =>
      match get offset with
      | Ok (page, Some next) => page ++ walk fuel get next
      | Ok (page, None) => page
      | Err _ => []
      end
  end.

Lemma walk_pages {A B} (keep : A → bool) (f : A → B) get fuel offset limit items :
  (∀ o, get o = let '(page, total) := paged keep f o limit items in
                Ok (page, next_offset o (length page) total)) →
  walk fuel get offset = all_pages keep f fuel offset limit items.
Proof.
  intros Hget. revert offset. induction fuel as [|fuel IH]; intros offset; [done|]. cbn [walk all_pages].
  rewrite Hget. destruct (paged keep f offset limit items) as [page total].
  destruct (next_offset _ _ _); [by rewrite IH|by rewrite app_nil_r].
Qed.

Lemma walk_complete {A B} (keep : A → bool) (f : A → B) get fuel limit items :
  (∀ o, get o = let '(page, total) := paged keep f o limit items in
                Ok (page, next_offset o (length page) total)) →
  (0 < limit)%Z → (Z.of_nat (length items) < u64_max)%Z → length items < fuel →
  walk fuel get 0 = f <$> filter (λ x, keep x = true) items.
Proof.
  intros Hget Hl Hlen Hfuel. rewrite (walk_pages _ _ _ _ _ _ _ Hget).
  pose proof (length_filter (λ x, keep x = true) items) as Hle.
  rewrite all_pages_from by lia. by rewrite drop_0.
Qed.

Definition get_functions (db : Database) (limit : Z) (filter : option string) (o : Z) :
    result (list FunctionInfo * option Z) ToolError :=
  match handle_list_functions to_lowercase (Some db) o limit filter with
  | Ok r => Ok (fl_functions r, fl_next_offset r)
  | Err e => Err e
  end.

Definition get_strings (db : Database) (limit : Z) (filter : option string) (o : Z) :
    result (list StringInfo * option Z) ToolError :=
  match handle_strings to_lowercase (Some db) o limit filter with
  | Ok r => Ok (sl_strings r, sl_next_offset r)
  | Err e => Err e
  end.

Definition get_found (db : Database) (query : string) (exact ci : bool) (limit : Z) (o : Z) :
    result (list StringInfo * option Z) ToolError :=
  match handle_find_string to_lowercase (Some db) query exact ci o limit with
  | Ok r => Ok (sl_strings r, sl_next_offset r)
  | Err e => Err e
  end.

Definition get_referenced (db : Database) (query : string) (exact ci : bool) (limit max_xrefs : Z) (o : Z) :
    result (list StringXrefInfo * option Z) ToolError :=
  match handle_xrefs_to_string to_lowercase (Some db) query exact ci o limit max_xrefs with
  | Ok r => Ok (sxr_strings r, sxr_next_offset r)
  | Err e => Err e
  end.

(** A client that follows [next_offset] with any positive page size sees every function,
    every string, every match of a string search and every referenced string exactly once
    and in the order of the database, and comes to an end. *)
Theorem paging_complete (db : Database) (limit max_xrefs : Z) (filter_ : option string) (query : string)
    (exact ci : bool) (fuel : nat)
    (Hlimit : (0 < limit)%Z)
    (Hfs : length (functions db) < fuel) (Hss : length (d_strings db) < fuel)
    (Hmax : (Z.of_nat fuel < u64_max)%Z) :
  walk fuel (get_functions db limit filter_) 0 =
    function_info <$> filter (λ fn, passes to_lowercase filter_ (name_or_sub fn) = true) (functions db) ∧
  walk fuel (get_strings db limit filter_) 0 =
    string_info <$> filter (λ s, passes to_lowercase filter_ s.2 = true) (d_strings db) ∧
  walk fuel (get_found db query exact ci limit) 0 =
    string_info <$> filter (λ s, string_matches to_lowercase query exact ci s.2 = true) (d_strings db) ∧
  walk fuel (get_referenced db query exact ci limit max_xrefs) 0 =
    string_xref_info db (Z.to_nat (Z.max 1 (Z.min max_xrefs 1024))) <$>
      filter (λ s, string_matches to_lowercase query exact ci s.2 = true) (d_strings db).
Proof.
  split_and!; (apply walk_complete with (limit := limit); [|done|lia|done]); intros o;
    unfold get_functions, get_strings, get_found, get_referenced, handle_list_functions, handle_strings,
      handle_find_string, handle_xrefs_to_string; cbn [ok_or result_bind];
    by destruct (paged _ _ _ _ _).
Qed.

(** A page size of zero never gets anywhere: as long as there is a match, the empty page
    names itself as the next one. *)
Theorem zero_limit_never_advances (db : Database) (filter_ : option string) (fn : Func)
    (Hin : fn ∈ functions db) (Hpass : passes to_lowercase filter_ (name_or_sub fn) = true) :
  get_functions db 0 filter_ 0 = Ok ([], Some 0%Z).
Proof.
  unfold get_functions, handle_list_functions. cbn [ok_or result_bind].
  rewrite paged_spec by lia. rewrite take_0. cbn [fmap list_fmap]. unfold next_offset.
  assert (fn ∈ filter (λ fn, passes to_lowercase filter_ (name_or_sub fn) = true) (functions db)) as Hf
    by (by apply list_elem_of_filter).
  destruct (filter _ (functions db)) as [|g l]; [by apply elem_of_nil in Hf|].
  rewrite (proj2 (Z.ltb_lt _ _)); [done|]. unfold saturating_add. simpl. lia.
Qed.
End theorems.

Lemma paging_complete_witness :
  walk 5 (get_functions id sample_db 1 (Some "main")) 0 = [function_info (sample_fn 4096 4104 (Some "main"))] ∧
  walk 5 (get_found id sample_db "o" false false 1) 0 = string_info <$> d_strings sample_db.
Proof.
  destruct (paging_complete id sample_db 1 8 (Some "main") "o" false false 5) as (-> & _ & -> & _);
    [lia|simpl; lia..|vm_compute; done|].
  split; vm_compute; reflexivity.
Defined.

Lemma zero_limit_never_advances_witness : get_functions id sample_db 0 None 0 = Ok ([], Some 0%Z).
Proof.
  apply (zero_limit_never_advances id sample_db None (sample_fn 4096 4104 (Some "main")));
    [by left|reflexivity].
Defined.

(** ** Imports and exports *)

Section slices.
Context {B : Type} (keep : Symbol → bool) (f : Z → Symbol → B) (offset limit : Z).

(** The page so far is full, or everything from here on is still to be taken. *)
Lemma slice_loop_full count out l :
  (offset ≤ count)%Z → (limit ≤ Z.of_nat (length out))%Z →
  slice_loop keep f offset limit count out l = out.
Proof.
  intros Hc Hfull. induction l as [|s l IH]; [done|]. cbn [slice_loop].
  destruct (keep s); cbn [negb]; [|done].
  destruct (Z.ltb_spec count offset); [lia|]. by rewrite (proj2 (Z.leb_le _ _) Hfull).
Qed.

Lemma slice_loop_taking count out l :
  (0 ≤ limit)%Z → (offset ≤ count)%Z →
  slice_loop keep f offset limit count out l =
  out ++ imap (λ i s, f (count + Z.of_nat i)%Z s)
    (take (Z.to_nat limit - length out) (filter (λ s, keep s = true) l)).
Proof.
  intros Hl. revert count out. induction l as [|s l IH]; intros count out Hc.
  { cbn [slice_loop filter list_filter]. by rewrite take_nil, app_nil_r. }
  cbn [slice_loop]. rewrite filter_cons. destruct (keep s) eqn:Hs; cbn [negb].
  - rewrite decide_True by done. destruct (Z.ltb_spec count offset); [lia|].
    destruct (Z.leb_spec limit (Z.of_nat (length out))) as [Hfull|Hroom].
    + replace (Z.to_nat limit - length out) with 0 by lia. by rewrite take_0, app_nil_r.
    + rewrite IH by lia. rewrite length_app. cbn [length].
      replace (Z.to_nat limit - length out) with (S (Z.to_nat limit - (length out + 1))) by lia.
      cbn [take imap]. rewrite <-(assoc_L (++)). cbn [app]. rewrite Z.add_0_r. do 2 f_equal.
      apply imap_ext. intros i x _. simpl. f_equal. lia.
  - rewrite decide_False by congruence. by apply IH.
Qed.

(** The page is the slice at [offset], numbered by position. *)
Lemma slice_loop_spec l :
  (0 ≤ offset)%Z → (0 ≤ limit)%Z →
  slice_loop keep f offset limit 0 [] l =
  imap (λ i s, f (offset + Z.of_nat i)%Z s)
    (take (Z.to_nat limit) (drop (Z.to_nat offset) (filter (λ s, keep s = true) l))).
Proof.
  intros Ho Hl. enough (∀ count, (0 ≤ count ≤ offset)%Z →
    slice_loop keep f offset limit count [] l =
    imap (λ i s, f (offset + Z.of_nat i)%Z s)
      (take (Z.to_nat limit) (drop (Z.to_nat (offset - count)) (filter (λ s, keep s = true) l)))) as Hgen.
  { rewrite Hgen by lia. by rewrite Z.sub_0_r. }
  induction l as [|s l IH]; intros count Hc.
  { cbn [slice_loop filter list_filter]. by rewrite drop_nil, take_nil. }
  destruct (decide (count = offset)) as [->|Hne].
  { rewrite slice_loop_taking by lia. rewrite Z.sub_diag. cbn [length app]. by rewrite Nat.sub_0_r, drop_0. }
  cbn [slice_loop]. rewrite filter_cons. destruct (keep s) eqn:Hs; cbn [negb].
  - rewrite decide_True by done. destruct (Z.ltb_spec count offset); [|lia].
    rewrite IH by lia. replace (Z.to_nat (offset - count)) with (S (Z.to_nat (offset - (count + 1)))) by lia.
    done.
  - rewrite decide_False by congruence. by apply IH.
Qed.
End slices.

(** The imports are the names in external or import segments, and the exports are all the
    names of the database: each answer is the requested slice, in order, and the ordinal of
    an import is its place among the imports. *)
Theorem imports_exports_slices (db : Database) (offset limit : Z)
    (Ho : (0 ≤ offset)%Z) (Hl : (0 ≤ limit)%Z) :
  handle_imports (Some db) offset limit =
    Ok (imap (λ i s, import_info (offset + Z.of_nat i) s)
      (take (Z.to_nat limit) (drop (Z.to_nat offset) (filter (λ s, is_external db s = true) (d_symbols db))))) ∧
  handle_exports (Some db) offset limit =
    Ok (imap (λ i s, export_info (offset + Z.of_nat i) s)
      (take (Z.to_nat limit) (drop (Z.to_nat offset) (d_symbols db)))).
Proof.
  unfold handle_imports, handle_exports. cbn [ok_or result_bind]. rewrite !slice_loop_spec by done.
  split; [done|]. do 4 f_equal. induction (d_symbols db) as [|s l IH]; [done|].
  rewrite filter_cons, decide_True by done. by rewrite IH.
Qed.

Lemma imports_exports_slices_witness :
  handle_exports (Some sample_db) 1 5 =
    Ok [export_info 1 {| sy_address := 8192; sy_name := "puts"; sy_public := false; sy_weak := false |}].
Proof. destruct (imports_exports_slices sample_db 1 5) as [_ ->]; [lia..|reflexivity]. Defined.

(** ** Entry points *)

Lemma until_repeat_prefix seen l : until_repeat seen l `prefix_of` l.
Proof.
  revert seen. induction l as [|a l IH]; intros seen; [done|]. cbn [until_repeat].
  case_bool_decide; [apply prefix_nil|]. by apply prefix_cons.
Qed.

Lemma until_repeat_NoDup seen l :
  NoDup (until_repeat seen l) ∧ ∀ a, a ∈ until_repeat seen l → a ∉ seen.
Proof.
  revert seen. induction l as [|a l IH]; intros seen; [split; [constructor|set_solver]|]. cbn [until_repeat].
  case_bool_decide as Ha; [split; [constructor|set_solver]|].
  destruct (IH ({[a]} ∪ seen)) as [Hnd Hns]. split; [constructor; set_solver|set_solver].
Qed.

Lemma until_repeat_maximal seen l rest a :
  l = until_repeat seen l ++ a :: rest → a ∈ seen ∨ a ∈ until_repeat seen l.
Proof.
  revert seen. induction l as [|b l IH]; intros seen; cbn [until_repeat]; [done|].
  case_bool_decide as Hb; [intros [= -> _]; by left|]. intros [= Hl].
  apply IH in Hl. set_solver.
Qed.

(** The entry points that are listed are the longest beginning of IDA's list in which no
    address repeats: all of them when none repeats, and nothing of what follows the first
    repetition. *)
Theorem entrypoints_until_repeat (db : Database) :
  ∃ l rest, handle_entrypoints (Some db) = Ok (fmt_hex_alt <$> l) ∧ d_entries db = l ++ rest ∧ NoDup l ∧
    match rest with [] => True | a :: _ => a ∈ l end.
Proof.
  destruct (until_repeat_prefix ∅ (d_entries db)) as [rest Hrest].
  exists (until_repeat ∅ (d_entries db)), rest. split; [done|]. split; [done|].
  split; [apply until_repeat_NoDup|]. destruct rest as [|a rest]; [done|].
  destruct (until_repeat_maximal ∅ (d_entries db) rest a) as [?|?]; [done|set_solver|done].
Qed.

(** ** Symbols *)

(** The distance to the symbol is exact, so that the symbol's address and the distance
    add up to the address, whenever it fits 64 signed bits, and clamped otherwise; a symbol
    is called exact only at its own address. *)
Theorem symbol_delta_exact (addr : Z) (s : Symbol) :
  let i := symbol_info addr s in
  (- 2 ^ 63 ≤ sym_delta i < 2 ^ 63)%Z ∧
  ((- 2 ^ 63 ≤ addr - sy_address s < 2 ^ 63)%Z → (sy_address s + sym_delta i = addr)%Z) ∧
  (sym_exact i = true ↔ addr = sy_address s).
Proof.
  cbn [symbol_info sym_delta sym_exact]. unfold symbol_delta.
  destruct (Z.leb_spec (sy_address s) addr); rewrite Z.eqb_eq; lia.
Qed.
