(* ===== verification/MemoryHandlers.v ===== *)
(** * Reading and editing (src/ida/handlers: memory.rs, annotations.rs, xrefs.rs, and the
    readers of globals.rs and strings.rs)

    The edits are [idalib]'s: each is a function from database to database that may fail with
    a message.  [from_utf8_lossy] is a parameter. *)

From Stdlib Require Import Ascii.
From stdpp Require Import base gmap strings numbers list.
From S2P Require Import Prelude RustStr Json ToolError Parse ParseTheorems ControlFlow IdaRequest IdaDatabase.

Open Scope ida_scope.

Record Edits : Type := {
  ed_patch_bytes : Z → list Z → Database → result Database string;
  ed_assemble_line : Z → string → Database → result (list Z) string;
  ed_set_cmt : Z → string → bool → Database → result Database string;       (* repeatable *)
  ed_set_func_cmt : Z → string → bool → Database → result Database string;
  ed_set_name : Z → string → Z → Database → result Database string;         (* flags *)
  ed_rename_lvar : Z → string → string → Database → result Database string;
  ed_set_lvar_type : Z → string → string → Database → result Database string;
  ed_set_decompiler_comment : Z → Z → Z → string → Database → result Database string
}.

(** ** Reading *)

Section reading.
Context (from_utf8_lossy : list Z → string).

Definition handle_get_bytes (idb : option Database) (addr : option Z) (name : option string)
    (offset size : Z) : result BytesResult ToolError :=
  let? db := ok_or idb NoDatabaseOpen in
  let? addr := resolve_address (Some (d_view db)) addr name offset in
  let bytes := d_get_bytes db addr (Z.min size 65536) in
  Ok {| bytes_address := fmt_hex_alt addr; bytes := hex_encode bytes;
        bytes_length := Z.of_nat (length bytes) |}.

Definition handle_read_int (idb : option Database) (addr size : Z) : result Value ToolError :=
  let? db := ok_or idb NoDatabaseOpen in
  let? value :=
    match size with
    | 1 => Ok (d_get_byte db addr)
    | 2 => Ok (d_get_word db addr)
    | 4 => Ok (d_get_dword db addr)
    | 8 => Ok (d_get_qword db addr)
    | _ => Err (IdaError ("unsupported integer size: " +:+ fmt_dec size))
    end%Z in
  Ok (obj [("address", VString (fmt_hex_alt addr)); ("size", vz size); ("value", vz value);
           ("hex", VString (fmt_hex_alt value))]).

(** [position(|b| *b == 0)] *)
Fixpoint until_nul (bs : list Z) : list Z :=
  match bs with
  | [] => []
  | b :: bs => if (b =? 0)%Z then [] else b :: until_nul bs
  end.

Definition handle_get_string (idb : option Database) (addr max_len : Z) : result Value ToolError :=
  let? db := ok_or idb NoDatabaseOpen in
  let text := until_nul (d_get_bytes db addr (Z.min max_len 65536)) in
  Ok (obj [("address", VString (fmt_hex_alt addr)); ("string", VString (from_utf8_lossy text));
           ("length", vnat (length text)); ("bytes", VString (hex_encode text))]).

(** The loop over [bytes.iter().take(8).enumerate()]. *)
Definition or_bytes (bs : list Z) : Z :=
  foldl Z.lor 0%Z (imap (λ i b, Z.shiftl b (Z.of_nat i * 8)) (take 8 bs)).

Definition handle_get_global_value (idb : option Database) (query : string) : result Value ToolError :=
  let? db := ok_or idb NoDatabaseOpen in
  let? addr :=
    match parse_address_str query with
    | Ok a => Ok a
    | Err _ =>
        match list_find (λ s, sy_name s = query) (d_symbols db) with
        | Some (_, s) => Ok (sy_address s)
        | None => Err (FunctionNameNotFound query)
        end
    end in
  let bytes := d_get_bytes db addr 8 in
  let val := or_bytes bytes in
  Ok (obj [("address", VString (fmt_hex_alt addr)); ("value", vz val); ("hex", VString (fmt_hex_alt val));
           ("bytes", VString (hex_encode bytes))]).
End reading.

(** ** Cross references *)

Definition xref_info (x : XRefData) : XRefInfo :=
  {| xi_from := fmt_hex_alt (xd_from x); xi_to := fmt_hex_alt (xd_to x); xi_type := xd_type x;
     xi_is_code := xd_code x |}.

Definition handle_xrefs_to (idb : option Database) (addr : Z) : result (list XRefInfo) ToolError :=
  let? db := ok_or idb NoDatabaseOpen in Ok (xref_info <$> d_xrefs_to db addr).

Definition handle_xrefs_from (idb : option Database) (addr : Z) : result (list XRefInfo) ToolError :=
  let? db := ok_or idb NoDatabaseOpen in Ok (xref_info <$> d_xrefs_from db addr).

(** The targets by source, filled address by address. *)
Definition xref_map (db : Database) (addrs : list Z) : gmap Z (gset Z) :=
  foldl (λ m addr, <[addr := list_to_set (xd_to <$> d_xrefs_from db addr)]> m) ∅ addrs.

Definition xref_rows (m : gmap Z (gset Z)) (addrs : list Z) : list (list bool) :=
  (λ from, (λ to, match m !! from with Some s => bool_decide (to ∈ s) | None => false end) <$> addrs) <$> addrs.

Definition handle_xref_matrix (idb : option Database) (addrs : list Z) : result Value ToolError :=
  let? db := ok_or idb NoDatabaseOpen in
  let matrix := xref_rows (xref_map db addrs) addrs in
  Ok (obj [("addrs", Array ((λ a, VString (fmt_hex_alt a)) <$> addrs));
           ("matrix", Array ((λ row, Array (Bool <$> row)) <$> matrix))]).

(** ** Editing *)

(** [?] on an error of idalib. *)
Definition ida_err {A} (r : result A string) : result A ToolError :=
  match r with Ok a => Ok a | Err e => Err (IdaError e) end.

(** A handler on an open database: its answer and the database after it. *)
Definition Handler (A : Type) : Type := Database → result A ToolError * Database.
Definition Edit : Type := Handler Value.

(** [idb.as_ref().ok_or(ToolError::NoDatabaseOpen)?], with which every handler begins. *)
Definition with_database {A} (h : Handler A) (idb : option Database) : result A ToolError * option Database :=
  match idb with
  | Some db => let '(r, db) := h db in (r, Some db)
  | None => (Err NoDatabaseOpen, None)
  end.

Section editing.
Context (ed : Edits).

Definition edited (r : result (Value * Database) ToolError) (db : Database) : result Value ToolError * Database :=
  match r with Ok (v, db) => (Ok v, db) | Err e => (Err e, db) end.

Definition handle_patch_bytes (addr : option Z) (name : option string) (offset : Z) (bytes : list Z) : Edit := λ db,
  edited (let? addr := resolve_address (Some (d_view db)) addr name offset in
          let? db := ida_err (ed_patch_bytes ed addr bytes db) in
          Ok (obj [("address", VString (fmt_hex_alt addr)); ("length", vnat (length bytes))], db)) db.

Definition handle_patch_asm (addr : option Z) (name : option string) (offset : Z) (line : string) : Edit := λ db,
  edited (let? addr := resolve_address (Some (d_view db)) addr name offset in
          let? bytes := ida_err (ed_assemble_line ed addr line db) in
          let? db := ida_err (ed_patch_bytes ed addr bytes db) in
          Ok (obj [("address", VString (fmt_hex_alt addr)); ("line", VString line);
                   ("length", vnat (length bytes)); ("bytes", VString (str_join " " (fmt_byte <$> bytes)))], db)) db.

Definition handle_set_comments (addr : option Z) (name : option string) (offset : Z) (comment : string)
    (repeatable : bool) : Edit := λ db,
  edited (let? addr := resolve_address (Some (d_view db)) addr name offset in
          let? db := ida_err (ed_set_cmt ed addr comment repeatable db) in
          Ok (obj [("address", VString (fmt_hex_alt addr)); ("repeatable", Bool repeatable);
                   ("comment", VString comment)], db)) db.

Definition handle_set_function_comment (addr : option Z) (name : option string) (comment : string)
    (repeatable : bool) : Edit := λ db,
  edited (let? addr := resolve_address (Some (d_view db)) addr name 0 in
          let? db := ida_err (ed_set_func_cmt ed addr comment repeatable db) in
          Ok (obj [("address", VString (fmt_hex_alt addr)); ("comment", VString comment);
                   ("repeatable", Bool repeatable)], db)) db.

(** [set_name] is [set_name_with_flags] with the flags 0. *)
Definition handle_rename (addr : option Z) (current_name : option string) (name : string) (flags : Z) : Edit := λ db,
  edited (let? addr := resolve_address (Some (d_view db)) addr current_name 0 in
          let? db := ida_err (ed_set_name ed addr name flags db) in
          Ok (obj [("address", VString (fmt_hex_alt addr)); ("name", VString name);
                   ("flags", vint flags)], db)) db.

(** One entry of a batch. *)
Definition rename_one (db : Database) (entry : option Z * option string * string) : Value * Database :=
  let '(addr_opt, name_opt, new_name) := entry in
  match resolve_address (Some (d_view db)) addr_opt name_opt 0 with
  | Ok addr =>
      match ed_set_name ed addr new_name 0 db with
      | Ok db => (obj [("address", VString (fmt_hex_alt addr)); ("new_name", VString new_name);
                       ("success", Bool true)], db)
      | Err e => (obj [("address", VString (fmt_hex_alt addr)); ("new_name", VString new_name);
                       ("success", Bool false); ("error", VString e)], db)
      end
  | Err e =>
      (obj [("address", VString (match addr_opt with Some a => fmt_hex_alt a | None => "" end));
            ("current_name", opt_vstring name_opt); ("new_name", VString new_name);
            ("success", Bool false); ("error", VString (error_to_string e))], db)
  end.

Fixpoint rename_all (db : Database) (entries : list (option Z * option string * string)) : list Value * Database :=
  match entries with
  | [] => ([], db)
  | e :: entries =>
      let '(r, db) := rename_one db e in
      let '(rs, db) := rename_all db entries in (r :: rs, db)
  end.

Definition handle_batch_rename (entries : list (option Z * option string * string)) : Edit := λ db,
  let '(results, db) := rename_all db entries in
  (Ok (obj [("results", Array results); ("total", vnat (length results))]), db).

Definition handle_rename_lvar (func_addr : Z) (lvar_name new_name : string) : Edit := λ db,
  edited (let? db := ida_err (ed_rename_lvar ed func_addr lvar_name new_name db) in
          Ok (obj [("func_address", VString (fmt_hex_alt func_addr)); ("lvar_name", VString lvar_name);
                   ("new_name", VString new_name)], db)) db.

Definition handle_set_lvar_type (func_addr : Z) (lvar_name type_str : string) : Edit := λ db,
  edited (let? db := ida_err (ed_set_lvar_type ed func_addr lvar_name type_str db) in
          Ok (obj [("func_address", VString (fmt_hex_alt func_addr)); ("lvar_name", VString lvar_name);
                   ("type_str", VString type_str)], db)) db.

Definition handle_set_decompiler_comment (func_addr addr itp : Z) (comment : string) : Edit := λ db,
  edited (let? db := ida_err (ed_set_decompiler_comment ed func_addr addr itp comment db) in
          Ok (obj [("func_address", VString (fmt_hex_alt func_addr)); ("address", VString (fmt_hex_alt addr));
                   ("itp", vint itp);
                   ("comment", VString comment)], db)) db.
End editing.

(** * What reading and editing guarantee *)

(** ** The cross-reference matrix *)

Lemma xref_map_lookup db addrs a :
  a ∈ addrs → xref_map db addrs !! a = Some (list_to_set (xd_to <$> d_xrefs_from db a)).
Proof.
  induction addrs as [|b addrs IH] using rev_ind; [by intros ?%elem_of_nil|].
  unfold xref_map. rewrite foldl_snoc. fold (xref_map db addrs).
  destruct (decide (b = a)) as [->|Hne]; [by rewrite lookup_insert_eq|]. rewrite lookup_insert_ne by done.
  rewrite elem_of_app, list_elem_of_singleton. intros [?|?]; [auto|congruence].
Qed.

(** The matrix is exact: the answer has one row and one column per requested address,
    repeated addresses included, and a cell is set exactly when the database has a reference
    from the row's address to the column's. *)
Theorem xref_matrix_exact (db : Database) (addrs : list Z) :
  let rows := xref_rows (xref_map db addrs) addrs in
  handle_xref_matrix (Some db) addrs =
    Ok (obj [("addrs", Array ((λ a, VString (fmt_hex_alt a)) <$> addrs));
             ("matrix", Array ((λ row, Array (Bool <$> row)) <$> rows))]) ∧
  length rows = length addrs ∧
  ∀ i j from to, addrs !! i = Some from → addrs !! j = Some to →
    ∃ row b, rows !! i = Some row ∧ row !! j = Some b ∧
      (b = true ↔ ∃ x, x ∈ d_xrefs_from db from ∧ xd_to x = to).
Proof.
  intros rows. split; [done|]. split; [by unfold rows, xref_rows; rewrite length_fmap|].
  intros i j from to Hi Hj. unfold rows, xref_rows. rewrite list_lookup_fmap, Hi. cbn [fmap option_fmap option_map].
  eexists _, _. split; [done|]. rewrite list_lookup_fmap, Hj. split; [done|].
  rewrite xref_map_lookup by (by eapply list_elem_of_lookup_2).
  rewrite bool_decide_eq_true, elem_of_list_to_set, list_elem_of_fmap. naive_solver.
Qed.

(** ** Little-endian values *)

Lemma lor_shift (a b n : Z) : (0 ≤ n → 0 ≤ a < 2 ^ n → Z.lor a (Z.shiftl b n) = a + b * 2 ^ n)%Z.
Proof.
  intros Hn Ha. assert (Z.land a (Z.shiftl b n) = 0%Z) as Hz.
  { apply Z.bits_inj'. intros i Hi. rewrite Z.land_spec, Z.bits_0.
    destruct (Z.lt_ge_cases i n); [rewrite Z.shiftl_spec_low by done; apply andb_false_r|].
    destruct (decide (a = 0%Z)) as [->|Hne]; [by rewrite Z.bits_0|].
    rewrite Z.bits_above_log2; [done|lia|]. apply Z.log2_lt_pow2; [lia|].
    eapply Z.lt_le_trans; [apply Ha|]. apply Z.pow_le_mono_r; lia. }
  rewrite <-Z.lxor_lor, <-Z.add_nocarry_lxor by done. by rewrite Z.shiftl_mul_pow2.
Qed.

Lemma le_value_bounds bs : Forall is_byte bs → (0 ≤ le_value bs < 2 ^ (8 * Z.of_nat (length bs)))%Z.
Proof.
  induction 1 as [|b bs Hb _ IH]; [simpl; lia|]. unfold is_byte, u8_max in Hb.
  change (le_value (b :: bs)) with (b + 256 * le_value bs)%Z. cbn [length].
  replace (8 * Z.of_nat (S (length bs)))%Z with (8 + 8 * Z.of_nat (length bs))%Z by lia.
  rewrite Z.pow_add_r by lia. lia.
Qed.

Lemma or_bytes_from (k : nat) acc bs :
  Forall is_byte bs → (0 ≤ acc < 2 ^ (8 * Z.of_nat k))%Z →
  foldl Z.lor acc (imap (λ i b, Z.shiftl b (Z.of_nat (k + i) * 8)) bs) =
  (acc + 2 ^ (8 * Z.of_nat k) * le_value bs)%Z.
Proof.
  intros Hbs. revert k acc. induction Hbs as [|b bs Hb _ IH]; intros k acc Hacc; [simpl; lia|].
  rewrite imap_cons. cbn [foldl]. rewrite Nat.add_0_r.
  replace (Z.of_nat k * 8)%Z with (8 * Z.of_nat k)%Z by lia. rewrite lor_shift by lia.
  erewrite (imap_ext _ (λ i b, Z.shiftl b (Z.of_nat (S k + i) * 8)));
    [|intros i x _; simpl; do 2 f_equal; lia].
  unfold is_byte, u8_max in Hb.
  assert (2 ^ (8 * Z.of_nat (S k)) = 256 * 2 ^ (8 * Z.of_nat k))%Z as Hpow.
  { replace (8 * Z.of_nat (S k))%Z with (8 + 8 * Z.of_nat k)%Z by lia. by rewrite Z.pow_add_r by lia. }
  rewrite IH by (rewrite Hpow; nia). rewrite Hpow. change (le_value (b :: bs)) with (b + 256 * le_value bs)%Z. lia.
Qed.

(** The value of a global is the little-endian reading of the (at most eight) bytes at its
    address, so it always fits 64 bits, and the bytes that [u64::to_le_bytes] gives are read
    back as the number. *)
Theorem global_value_little_endian (bs : list Z) (n : Z) (Hbs : Forall is_byte bs) :
  or_bytes bs = le_value (take 8 bs) ∧ in_u64 (or_bytes bs) ∧
  (in_u64 n → or_bytes (to_le_bytes n) = n).
Proof.
  assert (∀ bs, Forall is_byte (take 8 bs) → or_bytes bs = le_value (take 8 bs)) as Hor.
  { intros l Hl. unfold or_bytes. erewrite (imap_ext _ (λ i b, Z.shiftl b (Z.of_nat (0 + i) * 8))) by done.
    rewrite or_bytes_from by (simpl; auto with lia). simpl. lia. }
  assert (Forall is_byte (take 8 bs)) as Hb by (by apply Forall_take).
  split; [auto|]. split.
  - rewrite Hor by done. pose proof (le_value_bounds _ Hb) as [Hlo Hhi]. rewrite length_take in Hhi.
    assert (2 ^ (8 * Z.of_nat (8 `min` length bs)) ≤ 2 ^ 64)%Z by (apply Z.pow_le_mono_r; lia).
    unfold in_u64, u64_max. lia.
  - intros Hn. rewrite Hor.
    + rewrite take_ge by (unfold to_le_bytes; by rewrite length_fmap). by apply le_value_to_le_bytes.
    + apply Forall_take. unfold to_le_bytes. apply Forall_fmap, Forall_true. intros i.
      unfold is_byte, u8_max. simpl. pose proof (Z.mod_pos_bound (Z.shiftr n (8 * i)) 256). lia.
Qed.

(** ** Text and bytes *)

Lemma until_nul_spec bs :
  (0%Z ∉ until_nul bs) ∧ ∃ rest, bs = until_nul bs ++ rest ∧ (match rest with [] => True | b :: _ => b = 0%Z end).
Proof.
  induction bs as [|b bs (Hno & rest & Hrest & Hend)]; [split; [set_solver|by exists []]|].
  cbn [until_nul]. destruct (Z.eqb_spec b 0) as [->|Hne]; [split; [set_solver|by exists (0%Z :: bs)]|].
  split; [set_solver|]. exists rest. by rewrite Hrest at 1.
Qed.

(** A string that is read ends at the first zero byte of the buffer or with the buffer:
    it is the longest beginning without a zero, and never longer than the limit nor 64 KiB. *)
Theorem get_string_is_c_string (from_utf8_lossy : list Z → string) (db : Database) (addr max_len : Z)
    (Hmax : (0 ≤ max_len)%Z)
    (Hread : ∀ a n, (0 ≤ n)%Z → (Z.of_nat (length (d_get_bytes db a n)) ≤ n)%Z) :
  ∃ text rest,
    handle_get_string from_utf8_lossy (Some db) addr max_len =
      Ok (obj [("address", VString (fmt_hex_alt addr)); ("string", VString (from_utf8_lossy text));
               ("length", vnat (length text)); ("bytes", VString (hex_encode text))]) ∧
    d_get_bytes db addr (Z.min max_len 65536) = text ++ rest ∧
    (0%Z ∉ text) ∧ (match rest with [] => True | b :: _ => b = 0%Z end) ∧
    (Z.of_nat (length text) ≤ max_len)%Z ∧ (Z.of_nat (length text) ≤ 65536)%Z.
Proof.
  destruct (until_nul_spec (d_get_bytes db addr (Z.min max_len 65536))) as (Hno & rest & Hrest & Hend).
  exists (until_nul (d_get_bytes db addr (Z.min max_len 65536))), rest.
  assert (Z.of_nat (length (d_get_bytes db addr (Z.min max_len 65536))) ≤ Z.min max_len 65536)%Z as Hlen
    by (apply Hread; lia).
  assert (length (until_nul (d_get_bytes db addr (Z.min max_len 65536))) ≤
    length (d_get_bytes db addr (Z.min max_len 65536))) by (rewrite Hrest at 2; rewrite length_app; lia).
  split_and!; [done..|lia|lia].
Qed.

Lemma hex_encode_digits bs : Forall is_byte bs → str_all (is_digit_of 16) (hex_encode bs) = true.
Proof.
  induction 1 as [|b bs Hb _ IH]; [done|]. rewrite hex_encode_cons, str_all_app, IH, andb_true_r.
  destruct (fmt_byte_pair b Hb) as (x & y & -> & Hx & Hy & _). simpl. by rewrite Hx, Hy.
Qed.


(** ** Edits *)

Section edits.
Context (ed : Edits).

(** An edit that fails changes nothing: for every editing handler, when the answer is an
    error the database is the one before. *)
Theorem failed_edit_changes_nothing (addr : option Z) (name : option string) (offset : Z)
    (text new_name : string) (bs : list Z) (flag : bool) (n a : Z) (db : Database) :
  Forall (λ edit : Edit, match edit db with (Err _, db') => db' = db | (Ok _, _) => True end)
    [handle_patch_bytes ed addr name offset bs; handle_patch_asm ed addr name offset text;
     handle_set_comments ed addr name offset text flag; handle_set_function_comment ed addr name text flag;
     handle_rename ed addr name new_name n; handle_rename_lvar ed a text new_name;
     handle_set_lvar_type ed a text new_name; handle_set_decompiler_comment ed a offset n text].
Proof.
  assert (∀ r, match edited r db with (Err _, db') => db' = db | (Ok _, _) => True end) as He
    by (by intros [[]|]).
  repeat (constructor; [apply He|]). constructor.
Qed.

(** The database that the entries before the [i]-th leave. *)
Definition after_renames (db : Database) (entries : list (option Z * option string * string)) : Database :=
  foldl (λ d e, (rename_one ed d e).2) db entries.

Lemma rename_all_spec entries db :
  (rename_all ed db entries).2 = after_renames db entries ∧
  length (rename_all ed db entries).1 = length entries ∧
  ∀ i e, entries !! i = Some e →
    (rename_all ed db entries).1 !! i = Some (rename_one ed (after_renames db (take i entries)) e).1.
Proof.
  revert db. induction entries as [|e entries IH]; intros db; [done|]. cbn [rename_all].
  unfold after_renames. cbn [foldl]. destruct (rename_one ed db e) as [r db1] eqn:Hr.
  destruct (IH db1) as (Hdb & Hlen & Hi). destruct (rename_all ed db1 entries) as [rs db2]. simpl in *.
  split; [done|]. split; [by f_equal|]. intros [|i] e' He'; simpl in *.
  - injection He' as <-. by rewrite Hr.
  - rewrite Hr. by apply Hi.
Qed.

(** A batch of renames has one result per entry, in order; each entry is resolved and
    renamed on the database that the entries before it left, whether they succeeded or not;
    and an entry that fails leaves the database alone. *)
Theorem batch_rename_every_entry (entries : list (option Z * option string * string)) (db : Database) :
  ∃ results, handle_batch_rename ed entries db =
      (Ok (obj [("results", Array results); ("total", vnat (length entries))]), after_renames db entries) ∧
    (∀ i e, entries !! i = Some e →
       results !! i = Some (rename_one ed (after_renames db (take i entries)) e).1) ∧
    (∀ d e, get "success" (rename_one ed d e).1 = Some (Bool false) → (rename_one ed d e).2 = d).
Proof.
  destruct (rename_all_spec entries db) as (Hdb & Hlen & Hi).
  exists (rename_all ed db entries).1. split; [|split; [done|]].
  - unfold handle_batch_rename. destruct (rename_all ed db entries) as [rs db']. simpl in *. by rewrite Hlen, Hdb.
  - intros d [[a n] new]. unfold rename_one. destruct (resolve_address _ _ _ _); [|done].
    by destruct (ed_set_name _ _ _ _ _).
Qed.
End edits.

Lemma global_value_little_endian_witness : or_bytes [104; 105]%Z = 26984%Z ∧ or_bytes (to_le_bytes 26984) = 26984%Z.
Proof.
  destruct (global_value_little_endian [104; 105]%Z 26984) as (-> & _ & H).
  - rewrite !Forall_cons, Forall_nil. unfold is_byte, u8_max. lia.
  - split; [reflexivity|]. apply H. unfold in_u64, u64_max. lia.
Defined.

Lemma get_string_is_c_string_witness :
  ∃ text rest, d_get_bytes sample_db 4096 4 = text ++ rest ∧ (0%Z ∉ text) ∧ (Z.of_nat (length text) ≤ 4)%Z.
Proof.
  destruct (get_string_is_c_string (λ _, "") sample_db 4096 4) as (text & rest & _ & H1 & H2 & _ & H3 & _).
  - lia.
  - intros a n Hn. cbn [d_get_bytes sample_db]. rewrite length_take. lia.
  - exists text, rest. split; [exact H1|]. split; [exact H2|exact H3].
Defined.

