(* ===== verification/CodeHandlers.v ===== *)
(** * Disassembly, decompilation and instruction search (src/ida/handlers: disasm.rs, search.rs)

    The loops over instructions recurse on a bound of their iterations: the number of lines
    that may still be printed, or the addresses left in a segment, since each turn moves
    forward.  Machine addresses wrap (release profile) where the source adds without a check. *)

From Stdlib Require Import Ascii.
From stdpp Require Import base gmap strings numbers list.
From S2P Require Import Prelude RustStr Json ToolError Parse ControlFlow IdaDatabase.

Open Scope ida_scope.

(** ** Disassembly *)

(** From an instruction to the next one; [None] ends the listing. *)
Definition advance (db : Database) (cur : Z) : option Z :=
  match d_insn_len db cur with
  | Some n => Some (wrap64 (cur + n))
  | None =>
      match next_head db cur with
      | Some next => if (next <=? cur)%Z then None else Some next
      | None => None
      end
  end.

Definition tab : string := String "009" "".

Definition disasm_text (cur : Z) (line : string) : string := fmt_hex_alt cur +:+ ":" +:+ tab +:+ line.

(** The two loops: [stop] is the end of the function, or nothing. *)
Fixpoint disasm_loop (db : Database) (stop : Z → bool) (count : nat) (cur : Z) : list string :=
  match count with
  | 0 => []
  | S count =>
      if stop cur then []
      else
        match d_disasm_line db cur with
        | None => []
        | Some line =>
            disasm_text cur line ::
            match advance db cur with Some next => disasm_loop db stop count next | None => [] end
        end
  end.

Definition handle_disasm (idb : option Database) (addr : Z) (count : nat) : result string ToolError :=
  let? db := ok_or idb NoDatabaseOpen in
  let lines := disasm_loop db (λ _, false) count addr in
  if bool_decide (lines = []) then Err (AddressOutOfRange addr) else Ok (str_join newline lines).

Definition handle_disasm_by_name (idb : option Database) (name : string) (count : nat) : result string ToolError :=
  let? db := ok_or idb NoDatabaseOpen in
  match list_find (λ fn, match f_name fn with Some n => name_hit name n | None => false end = true)
                  (functions db) with
  | Some (_, fn) => handle_disasm idb (f_start fn) count
  | None => Err (FunctionNameNotFound name)
  end.

Definition handle_disasm_function_at (idb : option Database) (addr : Z) (count : nat) : result string ToolError :=
  let? db := ok_or idb NoDatabaseOpen in
  let? fn := ok_or (function_at db addr) (FunctionNotFound addr) in
  let lines := disasm_loop db (λ cur, (f_end fn <=? cur)%Z) count (f_start fn) in
  if bool_decide (lines = []) then Err (AddressOutOfRange addr) else Ok (str_join newline lines).

(** ** Decompilation *)

Definition handle_decompile (idb : option Database) (addr : Z) : result string ToolError :=
  let? db := ok_or idb NoDatabaseOpen in
  if negb (d_decompiler_available db) then Err DecompilerUnavailable
  else
    let? fn := ok_or (function_at db addr) (FunctionNotFound addr) in
    match d_decompile db fn with
    | Ok cf => Ok (cf_pseudocode cf)
    | Err e => Err (IdaError e)
    end.

Record PseudoSearch : Type := { ps_matches : list Value; ps_searched : nat; ps_errors : nat }.

(** The loop of [handle_search_pseudocode], which ends after the match that fills the limit. *)
Fixpoint search_pseudo (db : Database) (pattern : string) (limit : nat) (acc : PseudoSearch) (fs : list Func) :
    PseudoSearch :=
  match fs with
  | [] => acc
  | fn :: fs =>
      let searched := S (ps_searched acc) in
      match d_decompile db fn with
      | Ok cf =>
          if contains pattern (cf_pseudocode cf) then
            let matches := ps_matches acc ++
              [obj [("address", VString (fmt_hex_alt (f_start fn))); ("name", VString (name_or_sub fn));
                    ("pseudocode", VString (cf_pseudocode cf))]] in
            let acc := {| ps_matches := matches; ps_searched := searched; ps_errors := ps_errors acc |} in
            if limit <=? length matches then acc else search_pseudo db pattern limit acc fs
          else search_pseudo db pattern limit
                 {| ps_matches := ps_matches acc; ps_searched := searched; ps_errors := ps_errors acc |} fs
      | Err _ => search_pseudo db pattern limit
                   {| ps_matches := ps_matches acc; ps_searched := searched; ps_errors := S (ps_errors acc) |} fs
      end
  end.

Definition handle_search_pseudocode (idb : option Database) (pattern : string) (limit : nat) :
    result Value ToolError :=
  let? db := ok_or idb NoDatabaseOpen in
  if negb (d_decompiler_available db) then Err DecompilerUnavailable
  else
    let r := search_pseudo db pattern limit {| ps_matches := []; ps_searched := 0; ps_errors := 0 |} (functions db) in
    Ok (obj [("pattern", VString pattern); ("matches", Array (ps_matches r));
             ("total_searched", vnat (ps_searched r)); ("decompile_errors", vnat (ps_errors r))]).

Definition stmt_value (st : Stmt) : Value :=
  obj [("address", VString (fmt_hex_alt (st_address st))); ("text", VString (trim (st_text st)));
       ("opcode", vint (st_opcode st));
       ("bounds", match st_bounds st with
                  | Some (a, b) => obj [("start", VString (fmt_hex_alt a)); ("end", VString (fmt_hex_alt b))]
                  | None => Null
                  end)].

(** [seen_eas.insert(stmt_ea)] decides whether a statement is new. *)
Fixpoint new_stmts (seen : gset Z) (out : list Stmt) (stmts : list Stmt) : gset Z * list Stmt :=
  match stmts with
  | [] => (seen, out)
  | st :: stmts =>
      if bool_decide (st_address st ∈ seen) then new_stmts seen out stmts
      else new_stmts ({[st_address st]} ∪ seen) (out ++ [st]) stmts
  end.

(** [while cur < end { .. cur += 1 }] *)
Fixpoint stmts_range (cf : CFunc) (n : nat) (cur : Z) (acc : gset Z * list Stmt) : gset Z * list Stmt :=
  match n with
  | 0 => acc
  | S n => stmts_range cf n (cur + 1) (new_stmts acc.1 acc.2 (default [] (cf_statements_at cf cur)))
  end.

Definition stmts_of (cf : CFunc) (addr : Z) (end_addr : option Z) : list Stmt :=
  match end_addr with
  | Some e => (stmts_range cf (Z.to_nat (e - addr)) addr (∅, [])).2
  | None => (new_stmts ∅ [] (default [] (cf_statements_at cf addr))).2
  end.

Definition handle_pseudocode_at (idb : option Database) (addr : Z) (end_addr : option Z) : result Value ToolError :=
  let? db := ok_or idb NoDatabaseOpen in
  if negb (d_decompiler_available db) then Err DecompilerUnavailable
  else
    let? fn := ok_or (function_at db addr) (FunctionNotFound addr) in
    match d_decompile db fn with
    | Err e => Err (IdaError e)
    | Ok cf =>
        let statements := stmts_of cf addr end_addr in
        Ok (obj [("function", obj [("address", VString (fmt_hex_alt (f_start fn))); ("name", VString (name_or_sub fn));
                                   ("start", VString (fmt_hex_alt (f_start fn)));
                                   ("end", VString (fmt_hex_alt (f_end fn)))]);
                 ("query_address", VString (fmt_hex_alt addr));
                 ("query_end_address", opt_vstring (fmt_hex_alt <$> end_addr));
                 ("eamap_ready", Bool (cf_has_eamap cf)); ("statements", Array (stmt_value <$> statements));
                 ("count", vnat (length statements))])
    end.

(** ** Searching *)

(** Push, then leave when the limit is reached. *)
Fixpoint collect_hits (max_results : nat) (out : list string) (l : list Z) : list string :=
  match l with
  | [] => out
  | a :: l =>
      let out := out ++ [fmt_hex_alt a] in
      if max_results <=? length out then out else collect_hits max_results out l
  end.

Definition hits_value (matches : list string) : Value :=
  obj [("matches", Array (VString <$> matches)); ("count", vnat (length matches))].

Definition handle_search_text (idb : option Database) (text : string) (max_results : nat) : result Value ToolError :=
  let? db := ok_or idb NoDatabaseOpen in
  Ok (hits_value (collect_hits max_results [] (d_find_text db text))).

(** [imm as u32] *)
Definition handle_search_imm (idb : option Database) (imm : Z) (max_results : nat) : result Value ToolError :=
  let? db := ok_or idb NoDatabaseOpen in
  Ok (hits_value (collect_hits max_results [] (d_find_imm db (imm mod 2 ^ 32)))).

(** [strip_comment] *)
Definition strip_comment (line : string) : string :=
  default line (head (split_on (λ c, bool_decide (c = ";"%char)) line)).

(** [splitn(2, char::is_whitespace)] *)
Fixpoint split_space (s : string) : string * string :=
  match s with
  | EmptyString => ("", "")
  | String c rest =>
      if is_whitespace c then ("", rest)
      else let '(a, b) := split_space rest in (String c a, b)
  end.

(** [split_disasm_line]: mnemonic, operands and the line without its comment. *)
Definition split_disasm_line (line : string) : string * string * string :=
  let trimmed := trim (strip_comment line) in
  if bool_decide (trimmed = "") then ("", "", "")
  else let '(m, ops) := split_space trimmed in (trim m, trim ops, trimmed).

(** [next_addr] *)
Definition next_addr (db : Database) (current : Z) : option Z :=
  match d_insn_len db current with
  | Some len => if (len =? 0)%Z then None else Some (saturating_add current len)
  | None =>
      match next_head db current with
      | Some next => if (current <? next)%Z then Some next else None
      | None => None
      end
  end.

Definition lower_if (case_insensitive : bool) (s : string) : string :=
  if case_insensitive then to_ascii_lowercase s else s.

(** A pattern with a blank or a comma is looked for in the line, another in the mnemonic. *)
Definition insn_matches (case_insensitive : bool) (pat mnemonic line : string) : bool :=
  if contains " " pat || contains "," pat then contains pat (lower_if case_insensitive line)
  else contains pat (lower_if case_insensitive mnemonic).

(** The rest of a sequence of patterns on the instructions that follow. *)
Fixpoint match_sequence (db : Database) (case_insensitive : bool) (seg_end : Z) (current : Z)
    (pats : list string) : option (list Z) :=
  match pats with
  | [] => Some []
  | pat :: pats =>
      match next_addr db current with
      | Some next =>
          if (next <? seg_end)%Z then
            match d_disasm_line db next with
            | Some line =>
                let '(mnemonic, _, clean) := split_disasm_line line in
                if bool_decide (mnemonic = "") then None
                else if insn_matches case_insensitive pat mnemonic clean
                then cons next <$> match_sequence db case_insensitive seg_end next pats
                else None
            | None => None
            end
          else None
      | None => None
      end
  end.

(** What the instruction at an address contributes to [handle_find_insns]. *)
Definition insn_hit (db : Database) (case_insensitive : bool) (patterns : list string) (seg_end addr : Z) :
    option Value :=
  match patterns, d_disasm_line db addr with
  | first :: rest, Some line =>
      let '(mnemonic, _, clean) := split_disasm_line line in
      if bool_decide (mnemonic = "") then None
      else if insn_matches case_insensitive first mnemonic clean then
        match rest with
        | [] => Some (obj [("address", VString (fmt_hex_alt addr)); ("mnemonic", VString mnemonic);
                           ("line", VString clean)])
        | _ =>
            (λ more, obj [("address", VString (fmt_hex_alt addr)); ("mnemonic", VString mnemonic);
                          ("line", VString clean);
                          ("sequence", Array ((λ a, VString (fmt_hex_alt a)) <$> (addr :: more)))])
              <$> match_sequence db case_insensitive seg_end addr rest
        end
      else None
  | _, _ => None
  end.

(** ... and to [handle_find_insn_operands]. *)
Definition operand_hit (db : Database) (case_insensitive : bool) (patterns : list string) (_ addr : Z) :
    option Value :=
  match d_disasm_line db addr with
  | Some line =>
      let '(mnemonic, operands, clean) := split_disasm_line line in
      if bool_decide (mnemonic = "") then None
      else if existsb (λ pat, contains pat (lower_if case_insensitive operands)) patterns then
        Some (obj [("address", VString (fmt_hex_alt addr)); ("mnemonic", VString mnemonic);
                   ("operands", VString operands); ("line", VString clean)])
      else None
  | None => None
  end.

(** The loop over a segment; each turn moves to a higher address. *)
Fixpoint scan_insns (db : Database) (hit : Z → option Value) (seg_end : Z) (max_results : nat)
    (fuel : nat) (addr : Z) (matches : list Value) : list Value :=
  match fuel with
  | 0 => matches
  | S fuel =>
      if (addr <? seg_end)%Z && (length matches <? max_results) then
        let matches := matches ++ option_list (hit addr) in
        match next_addr db addr with
        | Some next =>
            if (addr <? next)%Z then scan_insns db hit seg_end max_results fuel next matches else matches
        | None => matches
        end
      else matches
  end.

Definition seg_fuel (sg : Seg) : nat := S (Z.to_nat (sg_end sg - sg_start sg)).

Fixpoint scan_insn_segments (db : Database) (hit : Z → Z → option Value) (max_results : nat)
    (segs : list Seg) (matches : list Value) : list Value :=
  match segs with
  | [] => matches
  | sg :: segs =>
      let matches := scan_insns db (hit (sg_end sg)) (sg_end sg) max_results (seg_fuel sg) (sg_start sg) matches in
      if max_results <=? length matches then matches else scan_insn_segments db hit max_results segs matches
  end.

Definition insn_search (hit : Database → bool → list string → Z → Z → option Value) (idb : option Database)
    (patterns : list string) (max_results : nat) (case_insensitive : bool) : result Value ToolError :=
  let? db := ok_or idb NoDatabaseOpen in
  match patterns with
  | [] => Err (InvalidParams "empty patterns")
  | _ =>
      let norm := lower_if case_insensitive <$> patterns in
      let matches := scan_insn_segments db (hit db case_insensitive norm) max_results (d_segments db) [] in
      Ok (obj [("patterns", Array (VString <$> patterns)); ("case_insensitive", Bool case_insensitive);
               ("matches", Array matches); ("count", vnat (length matches))])
  end.

Definition handle_find_insns := insn_search insn_hit.
Definition handle_find_insn_operands := insn_search operand_hit.

(** * What disassembly, decompilation and instruction search guarantee *)

(** ** Listings *)

(** The addresses of a listing that starts at [cur]: each has a line, none is stopped, and
    each is the successor of the one before. *)
Inductive listing (db : Database) (stop : Z → bool) : Z → list (Z * string) → Prop :=
| listing_nil cur : listing db stop cur []
| listing_last cur line :
    stop cur = false → d_disasm_line db cur = Some line → listing db stop cur [(cur, line)]
| listing_cons cur line next l :
    stop cur = false → d_disasm_line db cur = Some line → advance db cur = Some next →
    listing db stop next l → listing db stop cur ((cur, line) :: l).

(** Nothing can be printed after the listing. *)
Inductive ended (db : Database) (stop : Z → bool) : Z → nat → Prop :=
| ended_here cur : stop cur = true ∨ d_disasm_line db cur = None → ended db stop cur 0
| ended_last cur : advance db cur = None → ended db stop cur 1
| ended_next cur next n : advance db cur = Some next → ended db stop next n → ended db stop cur (S n).

Lemma disasm_loop_spec db stop count cur :
  ∃ l, disasm_loop db stop count cur = (λ p, disasm_text p.1 p.2) <$> l ∧ listing db stop cur l ∧
    length l ≤ count ∧ (length l < count → ended db stop cur (length l)).
Proof.
  revert cur. induction count as [|count IH]; intros cur; cbn [disasm_loop].
  { exists []. split_and!; [done|constructor|simpl; lia|simpl; lia]. }
  destruct (stop cur) eqn:Hs.
  { exists []. split_and!; [done|constructor|simpl; lia|]. intros _. constructor. by left. }
  destruct (d_disasm_line db cur) as [line|] eqn:Hline.
  2: { exists []. split_and!; [done|constructor|simpl; lia|]. intros _. constructor. by right. }
  destruct (advance db cur) as [next|] eqn:Hnext.
  - destruct (IH next) as (l & -> & Hl & Hlen & Hend). exists ((cur, line) :: l).
    split_and!; [done|by econstructor|simpl; lia|]. simpl. intros Hlt. econstructor; [done|]. apply Hend. lia.
  - exists [(cur, line)]. split_and!; [done|by constructor|simpl; lia|]. intros _. by constructor.
Qed.

Lemma listing_not_stopped db stop cur l p : listing db stop cur l → p ∈ l → stop p.1 = false.
Proof.
  induction 1 as [|? ? ? ?|? ? ? ? ? ? ? ? IH]; rewrite ?elem_of_nil, ?elem_of_cons; [done|set_solver|].
  intros [->|Hp]; [done|by apply IH].
Qed.

(** The disassembly of a function starts at its first instruction, goes from each
    instruction to its successor, never leaves the function and has at most the requested
    number of lines; it is shorter only when the function ends there or IDA has no further
    line or successor. *)
Theorem disasm_function_listing (db : Database) (addr : Z) (count : nat) (fn : Func)
    (Hfn : function_at db addr = Some fn) :
  ∃ l, listing db (λ cur, (f_end fn <=? cur)%Z) (f_start fn) l ∧ length l ≤ count ∧
    (length l < count → ended db (λ cur, (f_end fn <=? cur)%Z) (f_start fn) (length l)) ∧
    (∀ p, p ∈ l → (p.1 < f_end fn)%Z) ∧
    handle_disasm_function_at (Some db) addr count =
      if bool_decide (l = []) then Err (AddressOutOfRange addr)
      else Ok (str_join newline ((λ p, disasm_text p.1 p.2) <$> l)).
Proof.
  destruct (disasm_loop_spec db (λ cur, (f_end fn <=? cur)%Z) count (f_start fn)) as (l & Heq & Hl & Hlen & Hend).
  exists l. split_and!; [done..| |].
  - intros p Hp. pose proof (listing_not_stopped _ _ _ _ p Hl Hp) as Hstop. simpl in Hstop. lia.
  - unfold handle_disasm_function_at. cbn [ok_or result_bind]. rewrite Hfn. cbn [ok_or result_bind].
    rewrite Heq. destruct l; by simpl.
Qed.

(** ** Limits *)

Lemma collect_hits_spec n out l :
  length out < Nat.max 1 n ∨ l = [] →
  collect_hits n out l = out ++ (fmt_hex_alt <$> take (Nat.max 1 n - length out) l).
Proof.
  revert out. induction l as [|a l IH]; intros out Hout; [by rewrite take_nil, app_nil_r|].
  destruct Hout as [Hout|]; [|done]. cbn [collect_hits].
  replace (Nat.max 1 n - length out) with (S (Nat.max 1 n - (length out + 1))) by lia. cbn [take].
  destruct (Nat.leb_spec n (length (out ++ [fmt_hex_alt a]))) as [Hge|Hlt]; rewrite length_app in *; simpl in *.
  - replace (Nat.max 1 n - (length out + 1)) with 0 by lia. by rewrite take_0.
  - rewrite IH by (rewrite length_app; simpl; lia). rewrite length_app. simpl.
    by rewrite <-(assoc_L (++)).
Qed.

(** Searching for text or for an immediate value returns the first matches in address
    order, as many as asked for; but never fewer than one, so that a limit of zero returns a
    match, and only the low 32 bits of the immediate count. *)
Theorem search_limits (db : Database) (text : string) (imm : Z) (max_results : nat) :
  handle_search_text (Some db) text max_results =
    Ok (hits_value (fmt_hex_alt <$> take (Nat.max 1 max_results) (d_find_text db text))) ∧
  handle_search_imm (Some db) imm max_results =
    Ok (hits_value (fmt_hex_alt <$> take (Nat.max 1 max_results) (d_find_imm db (imm mod 2 ^ 32)))) ∧
  handle_search_imm (Some db) (imm + 2 ^ 32) max_results = handle_search_imm (Some db) imm max_results.
Proof.
  unfold handle_search_text, handle_search_imm. cbn [ok_or result_bind].
  rewrite !collect_hits_spec by (left; simpl; lia). cbn [length app]. rewrite Nat.sub_0_r.
  split_and!; [done..|]. by rewrite <-Z.add_mod_idemp_r, Z.mod_same, Z.add_0_r by done.
Qed.

(** What a function contributes to a search of the pseudocode. *)
Definition pseudo_hit (db : Database) (pattern : string) (fn : Func) : option Value :=
  match d_decompile db fn with
  | Ok cf =>
      if contains pattern (cf_pseudocode cf) then
        Some (obj [("address", VString (fmt_hex_alt (f_start fn))); ("name", VString (name_or_sub fn));
                   ("pseudocode", VString (cf_pseudocode cf))])
      else None
  | Err _ => None
  end.

Lemma search_pseudo_matches db pattern limit acc fs :
  length (ps_matches acc) < Nat.max 1 limit →
  ps_matches (search_pseudo db pattern limit acc fs) =
  ps_matches acc ++ take (Nat.max 1 limit - length (ps_matches acc)) (omap (pseudo_hit db pattern) fs).
Proof.
  revert acc. induction fs as [|fn fs IH]; intros acc Hacc.
  { cbn [search_pseudo omap list_omap]. by rewrite take_nil, app_nil_r. }
  cbn [search_pseudo omap list_omap]. unfold pseudo_hit at 1. destruct (d_decompile db fn) as [cf|e]; [|by rewrite IH].
  destruct (contains pattern (cf_pseudocode cf)); [|by rewrite IH]. cbn [ps_matches].
  replace (Nat.max 1 limit - length (ps_matches acc)) with (S (Nat.max 1 limit - (length (ps_matches acc) + 1))) by lia.
  cbn [take]. case_match eqn:Hle; rewrite length_app in Hle; simpl in Hle.
  - apply Nat.leb_le in Hle. replace (Nat.max 1 limit - (length (ps_matches acc) + 1)) with 0 by lia.
    by rewrite take_0.
  - apply Nat.leb_gt in Hle. rewrite IH by (cbn [ps_matches]; rewrite length_app; simpl; lia).
    cbn [ps_matches]. rewrite length_app. simpl. by rewrite <-(assoc_L (++)).
Qed.

(** Searching the pseudocode returns the first functions, in the order of the database,
    whose decompiled text contains the pattern, up to the limit but at least one; functions
    that cannot be decompiled are passed over. *)
Theorem search_pseudocode_first_matches (db : Database) (pattern : string) (limit : nat)
    (Hdec : d_decompiler_available db = true) :
  ∃ searched errors,
    handle_search_pseudocode (Some db) pattern limit =
      Ok (obj [("pattern", VString pattern);
               ("matches", Array (take (Nat.max 1 limit) (omap (pseudo_hit db pattern) (functions db))));
               ("total_searched", vnat searched); ("decompile_errors", vnat errors)]).
Proof.
  unfold handle_search_pseudocode. cbn [ok_or result_bind]. rewrite Hdec. cbn [negb].
  eexists _, _. rewrite search_pseudo_matches by (simpl; lia). cbn [ps_matches length app].
  by rewrite Nat.sub_0_r.
Qed.

(** ** Instruction search *)

(** The instructions a scan of a segment visits from an address on, up to the end of the
    segment or to the first one without a successor. *)
Inductive insn_walk (db : Database) (seg_end : Z) : Z → list Z → Prop :=
| walk_out cur : (seg_end <= cur)%Z → insn_walk db seg_end cur []
| walk_last cur :
    (cur < seg_end)%Z → (∀ next, next_addr db cur = Some next → (next <= cur)%Z) → insn_walk db seg_end cur [cur]
| walk_step cur next l :
    (cur < seg_end)%Z → next_addr db cur = Some next → (cur < next)%Z → insn_walk db seg_end next l →
    insn_walk db seg_end cur (cur :: l).

Lemma scan_insns_spec db hit seg_end max fuel addr matches :
  Z.to_nat (seg_end - addr) < fuel → length matches ≤ max →
  ∃ l, insn_walk db seg_end addr l ∧
    scan_insns db hit seg_end max fuel addr matches = take max (matches ++ omap hit l).
Proof.
  revert addr matches. induction fuel as [|fuel IH]; intros addr matches Hfuel Hlen; [lia|]. cbn [scan_insns].
  destruct (Z.ltb_spec addr seg_end) as [Hlt|Hge]; cbn [andb].
  2: { exists []. split; [by constructor|]. cbn. by rewrite app_nil_r, take_ge. }
  assert (Hone : omap hit [addr] = option_list (hit addr)) by (simpl; by destruct (hit addr)).
  assert (Hcons : ∀ l, omap hit (addr :: l) = option_list (hit addr) ++ omap hit l)
    by (intros l; simpl; by destruct (hit addr)).
  assert (Hol : length (option_list (hit addr)) ≤ 1) by (destruct (hit addr); simpl; lia).
  destruct (next_addr db addr) as [next|] eqn:Hnext; [destruct (Z.ltb_spec addr next) as [Hn|Hn]|];
    [|exists [addr]; split; [constructor; [done|congruence || naive_solver]|] ..].
  - destruct (Nat.ltb_spec (length matches) max) as [Hm|Hm].
    + destruct (IH next (matches ++ option_list (hit addr))) as (l & Hl & ->); [lia|rewrite length_app; lia|].
      exists (addr :: l). split; [by econstructor|]. by rewrite Hcons, (assoc_L (++)).
    + destruct (IH next matches) as (l & Hl & _); [lia..|]. exists (addr :: l). split; [by econstructor|].
      rewrite take_app_le, take_ge by lia. done.
  - destruct (Nat.ltb_spec (length matches) max); rewrite Hone;
      [by rewrite take_ge by (rewrite length_app; lia)|by rewrite take_app_le, take_ge by lia].
  - destruct (Nat.ltb_spec (length matches) max); rewrite Hone;
      [by rewrite take_ge by (rewrite length_app; lia)|by rewrite take_app_le, take_ge by lia].
Qed.

Lemma insn_walk_det db seg_end a l l' : insn_walk db seg_end a l → insn_walk db seg_end a l' → l = l'.
Proof.
  intros H. revert l'. induction H as [a Ha|a Ha Hn|a next l Ha Hn Hlt H IH];
    inversion 1 as [? Hb|? Hb Hn'|? next' l1 Hb Hn' Hlt']; subst; try lia; try done.
  - apply Hn in Hn'. lia.
  - apply Hn' in Hn. lia.
  - simplify_eq. f_equal. by apply IH.
Qed.

(** The hits of the segments' walks, in order. *)
Definition walk_hits (hit : Z → Z → option Value) (segs : list Seg) (walks : list (list Z)) : list Value :=
  concat (zip_with (λ sg l, omap (hit (sg_end sg)) l) segs walks).

Lemma scan_insn_segments_spec db hit max segs matches :
  length matches ≤ max →
  ∃ walks, Forall2 (λ sg l, insn_walk db (sg_end sg) (sg_start sg) l) segs walks ∧
    scan_insn_segments db hit max segs matches = take max (matches ++ walk_hits hit segs walks).
Proof.
  revert matches. induction segs as [|sg segs IH]; intros matches Hlen; cbn [scan_insn_segments].
  { exists []. split; [constructor|]. cbn. by rewrite app_nil_r, take_ge. }
  destruct (scan_insns_spec db (hit (sg_end sg)) (sg_end sg) max (seg_fuel sg) (sg_start sg) matches)
    as (l & Hl & Hscan); [unfold seg_fuel; lia|done|].
  destruct (IH (scan_insns db (hit (sg_end sg)) (sg_end sg) max (seg_fuel sg) (sg_start sg) matches))
    as (walks & Hw & Hrest); [rewrite Hscan, length_take; lia|].
  exists (l :: walks). split; [by constructor|]. unfold walk_hits. cbn [zip_with concat]. fold (walk_hits hit segs walks).
  destruct (Nat.leb_spec max (length (scan_insns db (hit (sg_end sg)) (sg_end sg) max (seg_fuel sg) (sg_start sg) matches)))
    as [Hfull|Hmore].
  - rewrite Hscan in *. rewrite length_take in Hfull. by rewrite (assoc_L (++)), (take_app_le (_ ++ _)) by lia.
  - rewrite Hrest, Hscan. rewrite Hscan, length_take in Hmore. by rewrite (take_ge (matches ++ _)), (assoc_L (++)) by lia.
Qed.

(** The instruction searches end, and return, in segment and address order, the first
    hits among the instructions visited by walking every segment from its start, at most as
    many as asked for. *)
Theorem find_insns_first_hits (db : Database) (patterns : list string) (max_results : nat) (ci : bool)
    (Hpat : patterns ≠ []) :
  ∃ walks, Forall2 (λ sg l, insn_walk db (sg_end sg) (sg_start sg) l) (d_segments db) walks ∧
    ∀ hit, hit = insn_hit ∨ hit = operand_hit →
    let matches := take max_results (walk_hits (hit db ci (lower_if ci <$> patterns)) (d_segments db) walks) in
    insn_search hit (Some db) patterns max_results ci =
      Ok (obj [("patterns", Array (VString <$> patterns)); ("case_insensitive", Bool ci);
               ("matches", Array matches); ("count", vnat (length matches))]).
Proof.
  destruct (scan_insn_segments_spec db (insn_hit db ci (lower_if ci <$> patterns)) max_results (d_segments db) [])
    as (walks & Hw & _); [simpl; lia|].
  exists walks. split; [done|]. intros hit Hhit matches.
  destruct (scan_insn_segments_spec db (hit db ci (lower_if ci <$> patterns)) max_results (d_segments db) [])
    as (walks' & Hw' & Heq); [simpl; lia|].
  assert (walks' = walks) as ->.
  { clear -Hw Hw'. revert walks' Hw'. induction Hw; inversion 1; subst; [done|]. f_equal; [by eapply insn_walk_det|auto]. }
  unfold insn_search. cbn [ok_or result_bind]. destruct patterns; [done|]. by rewrite Heq.
Qed.

(** ** Statements of the pseudocode *)

(** The statements a range of addresses covers, in the order the code meets them. *)
Fixpoint covering (cf : CFunc) (n : nat) (cur : Z) : list Stmt :=
  match n with 0 => [] | S n => default [] (cf_statements_at cf cur) ++ covering cf n (cur + 1) end.

Lemma elem_of_covering cf n cur st :
  st ∈ covering cf n cur ↔
  ∃ a l, (cur <= a < cur + Z.of_nat n)%Z ∧ cf_statements_at cf a = Some l ∧ st ∈ l.
Proof.
  revert cur. induction n as [|n IH]; intros cur; cbn [covering].
  { rewrite elem_of_nil. split; [done|]. intros (a & l & Ha & _). lia. }
  rewrite elem_of_app, IH. split.
  - intros [Hin|(a & l & Ha & Hl & Hin)]; [|exists a, l; split_and!; [lia|lia|done..]].
    destruct (cf_statements_at cf cur) as [l|] eqn:Hl; simpl in Hin; [|by apply elem_of_nil in Hin].
    exists cur, l. split_and!; [lia|lia|done..].
  - intros (a & l & Ha & Hl & Hin). destruct (decide (a = cur)) as [->|Hne]; [left; by rewrite Hl|].
    right. exists a, l. split_and!; [lia|lia|done..].
Qed.

Lemma stmts_range_covering cf n cur acc : stmts_range cf n cur acc = new_stmts acc.1 acc.2 (covering cf n cur).
Proof.
  assert (Happ : ∀ l l' seen out, new_stmts seen out (l ++ l') =
    new_stmts (new_stmts seen out l).1 (new_stmts seen out l).2 l').
  { induction l as [|st l IHl]; intros l' seen out; [done|]. cbn [app new_stmts]. case_match; by rewrite IHl. }
  revert cur acc. induction n as [|n IH]; intros cur acc; cbn [stmts_range covering]; [by destruct acc|].
  by rewrite IH, Happ.
Qed.

(** What the collecting loop keeps: one statement for every address met. *)
Lemma new_stmts_spec seen out l :
  NoDup (st_address <$> out) → (∀ a, a ∈ seen ↔ a ∈ st_address <$> out) →
  let out' := (new_stmts seen out l).2 in
  NoDup (st_address <$> out') ∧ (∀ st, st ∈ out' → st ∈ out ∨ st ∈ l) ∧
  (∀ st, st ∈ out ∨ st ∈ l → st_address st ∈ st_address <$> out').
Proof.
  revert seen out. induction l as [|st l IH]; intros seen out Hnd Hseen; cbn [new_stmts].
  { split_and!; [done|set_solver|]. intros st [Hin|Hin]; [by apply list_elem_of_fmap_2|by apply elem_of_nil in Hin]. }
  case_bool_decide as Hin.
  - destruct (IH seen out Hnd Hseen) as (H1 & H2 & H3). split_and!; [done|intros st' Hst'; apply H2 in Hst'; set_solver|].
    intros st' [Hst'|[->|Hst']%elem_of_cons]; [by apply H3; left| |by apply H3; right].
    apply Hseen, list_elem_of_fmap in Hin as (st' & -> & Hst'). by apply H3; left.
  - destruct (IH ({[st_address st]} ∪ seen) (out ++ [st])) as (H1 & H2 & H3).
    + rewrite fmap_app. apply NoDup_app. split_and!; [done| |apply NoDup_singleton].
      intros a Ha Ha'. apply list_elem_of_singleton in Ha' as ->. by apply Hin, Hseen.
    + intros a. rewrite fmap_app, elem_of_union, elem_of_app, Hseen, elem_of_singleton.
      cbn [fmap list_fmap]. rewrite list_elem_of_singleton. tauto.
    + split_and!; [done|intros st' Hst'; apply H2 in Hst'; set_solver|].
      intros st' Hst'. apply H3. set_solver.
Qed.

(** The statements reported for a range of addresses have distinct addresses, each covers
    an address of the range, and every statement that covers one is represented by a
    statement with its address. *)
Theorem pseudocode_range_statements (cf : CFunc) (addr e : Z) :
  NoDup (st_address <$> stmts_of cf addr (Some e)) ∧
  (∀ st, st ∈ stmts_of cf addr (Some e) →
    ∃ a l, (addr <= a < e)%Z ∧ cf_statements_at cf a = Some l ∧ st ∈ l) ∧
  (∀ a l st, (addr <= a < e)%Z → cf_statements_at cf a = Some l → st ∈ l →
    st_address st ∈ st_address <$> stmts_of cf addr (Some e)).
Proof.
  unfold stmts_of. rewrite stmts_range_covering. cbn [fst snd].
  destruct (new_stmts_spec ∅ [] (covering cf (Z.to_nat (e - addr)) addr)) as (H1 & H2 & H3);
    [constructor|set_solver|].
  split_and!; [done| |].
  - intros st [Hin|Hin]%H2; [by apply elem_of_nil in Hin|].
    apply elem_of_covering in Hin as (a & l & Ha & Hl & Hst). exists a, l. split_and!; [lia|lia|done..].
  - intros a l st Ha Hl Hst. apply H3. right. apply elem_of_covering. exists a, l. split_and!; [lia|lia|done..].
Qed.

(** ** Witnesses *)

Lemma disasm_function_listing_witness :
  ∃ l, length l ≤ 10 ∧ (∀ p, p ∈ l → (p.1 < 4104)%Z) ∧
    handle_disasm_function_at (Some sample_db) 4100 10 =
      if bool_decide (l = []) then Err (AddressOutOfRange 4100)
      else Ok (str_join newline ((λ p, disasm_text p.1 p.2) <$> l)).
Proof.
  destruct (disasm_function_listing sample_db 4100 10 (sample_fn 4096 4104 (Some "main"))) as (l & _ & H1 & _ & H2 & H3);
    [reflexivity|].
  exists l. split; [exact H1|]. split; [exact H2|exact H3].
Defined.

Example sample_disasm :
  handle_disasm_function_at (Some sample_db) 4100 10 =
    Ok (str_join newline ["0x1000:" +:+ tab +:+ "mov     r0, r1 ; copy"; "0x1004:" +:+ tab +:+ "bl      sub_1008"]).
Proof. vm_compute. reflexivity. Qed.

Lemma search_pseudocode_first_matches_witness :
  ∃ searched errors, handle_search_pseudocode (Some sample_db) "x" 3 =
    Ok (obj [("pattern", VString "x"); ("matches", Array []); ("total_searched", vnat searched);
             ("decompile_errors", vnat errors)]).
Proof. destruct (search_pseudocode_first_matches sample_db "x" 3) as (n & e & ->); [reflexivity|]. by exists n, e. Defined.

Lemma find_insns_first_hits_witness :
  ∃ walks, Forall2 (λ sg l, insn_walk sample_db (sg_end sg) (sg_start sg) l) [sample_seg] walks ∧
    handle_find_insns (Some sample_db) ["MOV"; "ret"] 5 true =
      Ok (obj [("patterns", Array [VString "MOV"; VString "ret"]); ("case_insensitive", Bool true);
               ("matches", Array (take 5 (walk_hits (insn_hit sample_db true ["mov"; "ret"]) [sample_seg] walks)));
               ("count", vnat (length (take 5 (walk_hits (insn_hit sample_db true ["mov"; "ret"]) [sample_seg] walks))))]).
Proof.
  destruct (find_insns_first_hits sample_db ["MOV"; "ret"] 5 true) as (walks & H1 & H2); [done|].
  exists walks. split; [exact H1|]. apply (H2 insn_hit). by left.
Defined.

Example sample_find_insns :
  handle_find_insns (Some sample_db) ["MOV"; "ret"] 5 true =
    Ok (obj [("patterns", Array [VString "MOV"; VString "ret"]); ("case_insensitive", Bool true);
             ("matches", Array [obj [("address", VString "0x1008"); ("mnemonic", VString "mov");
                                     ("line", VString "mov     r1, r2");
                                     ("sequence", Array [VString "0x1008"; VString "0x100c"])]]);
             ("count", vnat 1)]).
Proof. vm_compute. reflexivity. Qed.
