(* ===== verification/StructHandlers.v ===== *)
(** * Structures and types (src/ida/handlers: structs.rs, types.rs)

    Ordinals and indices of [idalib] are walked as ranges.  The operations that change the type
    library or a frame are [idalib]'s: each gives its result and the database after it. *)

From Stdlib Require Import Ascii.
From stdpp Require Import base gmap strings numbers list.
From S2P Require Import Prelude RustStr Json ToolError Parse ControlFlow Paging IdaDatabase ListHandlers MemoryHandlers.

Open Scope ida_scope.

(** [a..b] *)
Definition range (a b : Z) : list Z := seqZ a (b - a).

(** [size_bits.div_ceil(8)] *)
Definition div_ceil8 (n : Z) : Z := ((n + 7) / 8)%Z.

(** The structures in the order of their ordinals. *)
Definition udts (db : Database) : list UdtInfo := omap (d_udt_info db) (range 1 (d_udt_ordinal_limit db)).

(** The members of a structure that can be loaded. *)
Definition udt_members (db : Database) (info : UdtInfo) : list UdtMember :=
  omap (d_udt_member db (ud_ordinal info)) (range 0 (ud_member_count info)).

Section structs.
Context (to_lowercase : string → string).

(** ** structs.rs *)

(** [strip_prefix("struct ").or_else(|| strip_prefix("union ")).unwrap_or(name)] *)
Definition strip_keyword (name : string) : string :=
  match strip_prefix "struct " name with
  | Some rest => rest
  | None => default name (strip_prefix "union " name)
  end.

Definition exact_name (query : string) (info : UdtInfo) : bool :=
  bool_decide (ud_name info = query) || bool_decide (strip_keyword (ud_name info) = query) ||
  bool_decide (strip_keyword (ud_name info) = strip_keyword query).

(** The loop, with the last fuzzy match and their number. *)
Fixpoint find_struct_loop (query : string) (fuzzy_match : option UdtInfo) (fuzzy_count : nat)
    (infos : list UdtInfo) : option UdtInfo :=
  match infos with
  | [] => if fuzzy_count =? 1 then fuzzy_match else None
  | info :: infos =>
      if exact_name query info then Some info
      else if contains (to_lowercase query) (to_lowercase (ud_name info))
      then find_struct_loop query (Some info) (S fuzzy_count) infos
      else find_struct_loop query fuzzy_match fuzzy_count infos
  end.

Definition find_struct_by_name (db : Database) (name : string) : option UdtInfo :=
  find_struct_loop (trim name) None 0 (udts db).

Definition struct_summary (info : UdtInfo) : StructSummary :=
  {| ss_ordinal := ud_ordinal info; ss_name := ud_name info; ss_size := ud_size info;
     ss_is_union := ud_is_union info; ss_member_count := ud_member_count info |}.

Definition handle_structs (idb : option Database) (offset limit : Z) (filter : option string) :
    result StructListResult ToolError :=
  let? db := ok_or idb NoDatabaseOpen in
  let '(structs, total) := paged (λ info, passes to_lowercase filter (ud_name info)) struct_summary offset limit (udts db) in
  Ok {| stl_structs := structs; stl_total := total; stl_next_offset := next_offset offset (length structs) total |}.

(** The selection that three handlers share; [what] names the handler in its message. *)
Definition select_struct (db : Database) (what : string) (ordinal : option Z) (name : option string) :
    result UdtInfo ToolError :=
  match ordinal, name with
  | Some ord, _ => ok_or (d_udt_info db ord) (InvalidParams ("unknown struct ordinal: " +:+ fmt_dec ord))
  | None, Some name => ok_or (find_struct_by_name db name) (InvalidParams ("unknown struct name: " +:+ name))
  | None, None => Err (InvalidParams (what +:+ " ordinal or name"))
  end.

Definition struct_member_info (m : UdtMember) : StructMemberInfo :=
  {| smi_name := um_name m; smi_type_name := um_type_name m; smi_offset_bits := um_offset_bits m;
     smi_size_bits := um_size_bits m; smi_offset := um_offset_bits m / 8; smi_size := div_ceil8 (um_size_bits m);
     smi_is_bitfield := um_is_bitfield m |}.

Definition handle_struct_info (idb : option Database) (ordinal : option Z) (name : option string) :
    result StructInfo ToolError :=
  let? db := ok_or idb NoDatabaseOpen in
  let? info := select_struct db "struct_info requires" ordinal name in
  Ok {| sti_ordinal := ud_ordinal info; sti_name := ud_name info; sti_size := ud_size info;
        sti_is_union := ud_is_union info; sti_member_count := ud_member_count info;
        sti_members := struct_member_info <$> udt_members db info |}.

(** The value of a member of the structure at [addr]; sizes are 64-bit, as [usize] is. *)
Definition struct_member_value (db : Database) (addr : Z) (m : UdtMember) : StructMemberValue :=
  let i := struct_member_info m in
  let read_len := Z.min (smi_size i) 65536 in
  {| smv_info := i;
     smv_bytes := if (read_len =? 0)%Z then ""
                  else hex_encode (d_get_bytes db (saturating_add addr (smi_offset i)) read_len) |}.

Definition handle_read_struct (idb : option Database) (addr : Z) (ordinal : option Z) (name : option string) :
    result StructReadResult ToolError :=
  let? db := ok_or idb NoDatabaseOpen in
  let? info := select_struct db "read_struct requires" ordinal name in
  Ok {| srr_address := fmt_hex_alt addr; srr_ordinal := ud_ordinal info; srr_name := ud_name info;
        srr_size := ud_size info; srr_members := struct_member_value db addr <$> udt_members db info |}.

(** The first index whose member has the name. *)
Definition member_index_by_name (db : Database) (info : UdtInfo) (name : string) : option Z :=
  snd <$> list_find (λ idx, um_name <$> d_udt_member db (ud_ordinal info) idx = Some name)
            (range 0 (ud_member_count info)).

Definition select_member (db : Database) (info : UdtInfo) (member_index : option Z) (member_name : option string) :
    result Z ToolError :=
  match member_index, member_name with
  | Some idx, _ => Ok idx
  | None, Some name =>
      ok_or (member_index_by_name db info name)
        (InvalidParams ("unknown struct member name: " +:+ name +:+ " in " +:+ ud_name info))
  | None, None => Err (InvalidParams "xrefs_to_field requires member index or name")
  end.

(** [while let Some(xref)]: the references taken and whether one was left. *)
Fixpoint take_xrefs (limit : nat) (out : list XRefInfo) (l : list XRefData) : list XRefInfo * bool :=
  match l with
  | [] => (out, false)
  | x :: l => if limit <=? length out then (out, true) else take_xrefs limit (out ++ [xref_info x]) l
  end.

Definition handle_xrefs_to_field (idb : option Database) (ordinal : option Z) (name : option string)
    (member_index : option Z) (member_name : option string) (limit : nat) : result XrefsToFieldResult ToolError :=
  let? db := ok_or idb NoDatabaseOpen in
  let? info := select_struct db "xrefs_to_field requires struct" ordinal name in
  let? member_idx := select_member db info member_index member_name in
  if (ud_member_count info <=? member_idx)%Z then
    Err (InvalidParams ("member index out of range: " +:+ fmt_dec member_idx +:+ " (member_count=" +:+
                        fmt_dec (ud_member_count info) +:+ ")"))
  else
    let? member := ok_or (d_udt_member db (ud_ordinal info) member_idx) (InvalidParams "failed to load struct member") in
    let? tid := ok_or (d_udt_member_tid db (ud_ordinal info) member_idx) (InvalidParams "struct member has no TID") in
    let '(xrefs, truncated) := take_xrefs limit [] (d_xrefs_to_tid db tid) in
    Ok {| xf_struct_ordinal := ud_ordinal info; xf_struct_name := ud_name info; xf_member_index := member_idx;
          xf_member_name := um_name member; xf_member_type := um_type_name member;
          xf_member_offset_bits := um_offset_bits member; xf_member_size_bits := um_size_bits member;
          xf_tid := fmt_hex_alt tid; xf_xrefs := xrefs; xf_truncated := truncated |}.

(** ** types.rs: reading *)

Definition local_types (db : Database) : list LocalType :=
  omap (d_local_type_info db) (range 1 (d_udt_ordinal_limit db)).

Definition handle_local_types (idb : option Database) (offset limit : Z) (filter : option string) :
    result LocalTypeListResult ToolError :=
  let? db := ok_or idb NoDatabaseOpen in
  let '(types, total) := paged (λ t, passes to_lowercase filter (lt_name t)) id offset limit (local_types db) in
  Ok {| ltl_types := types; ltl_total := total; ltl_next_offset := next_offset offset (length types) total |}.

Definition enum_value (t : LocalType) : Value :=
  obj [("ordinal", vz (lt_ordinal t)); ("name", VString (lt_name t)); ("decl", VString (lt_decl t))].

Definition handle_list_enums (idb : option Database) (filter : option string) (offset limit : Z) :
    result Value ToolError :=
  let? db := ok_or idb NoDatabaseOpen in
  let '(enums, total) :=
    paged (λ t, bool_decide (lt_kind t = "enum") && passes to_lowercase filter (lt_name t)) enum_value offset limit
      (local_types db) in
  Ok (obj [("enums", Array enums); ("total", vz total); ("next_offset", opt_vz (next_offset offset (length enums) total))]).
End structs.

Definition frame_members (db : Database) (addr : Z) (info : FrameData) : list FrameMember :=
  omap (d_frame_member db addr) (range 0 (fd_member_count info)).

Definition frame_member_info (m : FrameMember) : FrameMemberInfo :=
  let u := fm_member m in
  {| fmi_name := um_name u; fmi_type_name := um_type_name u; fmi_offset_bits := um_offset_bits u;
     fmi_size_bits := um_size_bits u; fmi_offset := um_offset_bits u / 8; fmi_size := div_ceil8 (um_size_bits u);
     fmi_is_bitfield := um_is_bitfield u; fmi_part := fm_part m |}.

Definition frame_range (r : Z * Z) : FrameRange := {| rg_start := fmt_hex_alt r.1; rg_end := fmt_hex_alt r.2 |}.

Definition handle_stack_frame (idb : option Database) (addr : Z) : result FrameInfo ToolError :=
  let? db := ok_or idb NoDatabaseOpen in
  let? info := ok_or (d_frame_info db addr) (FunctionNotFound addr) in
  Ok {| fri_address := fmt_hex_alt addr; fri_frame_size := fd_frame_size info; fri_ret_size := fd_ret_size info;
        fri_frsize := fd_frsize info; fri_frregs := fd_frregs info; fri_argsize := fd_argsize info;
        fri_fpd := fd_fpd info; fri_args_range := frame_range (fd_args info);
        fri_retaddr_range := frame_range (fd_retaddr info); fri_savregs_range := frame_range (fd_savregs info);
        fri_locals_range := frame_range (fd_locals info); fri_member_count := fd_member_count info;
        fri_members := frame_member_info <$> frame_members db addr info |}.

Definition guess_status (code : Z) : string :=
  if (code =? 0)%Z then "failed" else if (code =? 1)%Z then "trivial" else if (code =? 2)%Z then "ok" else "unknown".

Definition handle_infer_types (idb : option Database) (addr : option Z) (name : option string) (offset : Z) :
    result GuessTypeResult ToolError :=
  let? db := ok_or idb NoDatabaseOpen in
  let? address := resolve_address (Some (d_view db)) addr name offset in
  let guessed := d_guess_type db address in
  Ok {| gt_address := fmt_hex_alt address; gt_code := tg_code guessed; gt_status := guess_status (tg_code guessed);
        gt_decl := tg_decl guessed; gt_kind := tg_kind guessed |}.

(** ** types.rs: editing *)

Record DeclResult : Type := { dr_code : Z; dr_name : string; dr_decl : string; dr_kind : string }.

Record StackVar : Type := { vr_code : Z; vr_name : string; vr_offset : Z }.

(** [idalib]'s operations; each leaves a database, whatever its result says. *)
Record TypeEdits : Type := {
  te_declare_types : string → bool → Database → Z * Database;
  te_declare_type : string → bool → bool → Database → DeclResult * Database;
  te_set_stack_var_type : Z → option string → Z → bool → string → bool → bool → Database → StackVar * Database;
  te_apply_decl_type : Z → string → bool → bool → bool → Database → bool * Database;
  te_apply_named_type : Z → string → Database → bool * Database;
  te_define_stack_var : Z → option string → Z → string → bool → Database → StackVar * Database;
  te_delete_stack_var : Z → option string → Z → bool → Database → StackVar * Database
}.

(** [let a = r?; ..] where [r] does not touch the database. *)
Definition then_ {A B} (r : result A ToolError) (k : A → Handler B) : Handler B := λ db,
  match r with Ok a => k a db | Err e => (Err e, db) end.

Section types.
Context (te : TypeEdits).

Definition handle_declare_type (decl : string) (relaxed replace multi : bool) : Handler Value := λ db,
  if multi then
    let '(errors, db) := te_declare_types te decl relaxed db in (Ok (obj [("errors", vint errors)]), db)
  else
    let '(r, db) := te_declare_type te decl relaxed replace db in
    (Ok (obj [("code", vint (dr_code r)); ("name", VString (dr_name r)); ("decl", VString (dr_decl r));
              ("kind", VString (dr_kind r)); ("replaced", Bool replace)]), db).

Definition stack_var_result (func_addr : Z) (r : StackVar) : StackVarResult :=
  {| sv_function := fmt_hex_alt func_addr; sv_name := vr_name r; sv_offset := vr_offset r; sv_code := vr_code r;
     sv_status := if (vr_code r =? 0)%Z then "ok" else "error" |}.

Definition stack_var_value (r : StackVarResult) : Value :=
  obj [("function", VString (sv_function r)); ("name", VString (sv_name r)); ("offset", vint (sv_offset r));
       ("code", vint (sv_code r)); ("status", VString (sv_status r))].

Definition handle_apply_types (addr : option Z) (name : option string) (offset : Z) (stack_offset : option Z)
    (stack_name decl type_name : option string) (relaxed delay strict : bool) : Handler Value := λ db,
  if bool_decide (is_Some stack_offset) || bool_decide (is_Some stack_name) then
    then_ (resolve_address (Some (d_view db)) addr name offset) (λ func_addr,
    then_ (ok_or decl (InvalidParams "apply_types for stack var requires decl")) (λ decl db,
      let '(r, db) := te_set_stack_var_type te func_addr stack_name (default 0%Z stack_offset)
                        (bool_decide (is_Some stack_offset)) decl relaxed strict db in
      (Ok (stack_var_value (stack_var_result func_addr r)), db))) db
  else
    then_ (resolve_address (Some (d_view db)) addr name offset) (λ address db,
      let answer applied source :=
        Ok (obj [("address", VString (fmt_hex_alt address)); ("applied", Bool applied); ("source", VString source)]) in
      match decl, type_name with
      | Some decl, _ =>
          let '(applied, db) := te_apply_decl_type te address decl relaxed delay strict db in (answer applied "decl", db)
      | None, Some type_name =>
          let '(applied, db) := te_apply_named_type te address type_name db in (answer applied "named", db)
      | None, None => (Err (InvalidParams "apply_types requires decl or type_name"), db)
      end) db.

Definition handle_set_function_prototype (addr : option Z) (name : option string) (prototype : string) :
    Handler Value := λ db,
  then_ (resolve_address (Some (d_view db)) addr name 0) (λ addr db,
    let '(ok, db) := te_apply_decl_type te addr prototype true false false db in
    if ok then
      (Ok (obj [("address", VString (fmt_hex_alt addr)); ("prototype", VString prototype); ("applied", Bool true)]), db)
    else
      (Err (IdaError ("Failed to apply prototype '" +:+ prototype +:+ "' at " +:+ fmt_hex_alt addr)), db)) db.

Definition handle_declare_stack (addr : option Z) (name : option string) (offset : Z) (var_name : option string)
    (decl : string) (relaxed : bool) : Handler StackVarResult := λ db,
  then_ (resolve_address (Some (d_view db)) addr name 0) (λ func_addr db,
    let '(r, db) := te_define_stack_var te func_addr var_name offset decl relaxed db in
    (Ok (stack_var_result func_addr r), db)) db.

Definition handle_delete_stack (addr : option Z) (name : option string) (offset : option Z) (var_name : option string) :
    Handler StackVarResult := λ db,
  if negb (bool_decide (is_Some offset)) && negb (bool_decide (is_Some var_name)) then
    (Err (InvalidParams "delete_stack requires offset or name"), db)
  else
    then_ (resolve_address (Some (d_view db)) addr name 0) (λ func_addr db,
      let '(r, db) := te_delete_stack_var te func_addr var_name (default 0%Z offset) (bool_decide (is_Some offset)) db in
      (Ok (stack_var_result func_addr r), db)) db.

(** [u64 as i64], and the wrapping [i64] subtraction of the release profile. *)
Definition as_i64 (z : Z) : Z := ((z + 2 ^ 63) mod 2 ^ 64 - 2 ^ 63)%Z.

(** The frame-relative offset of a member: [offset_bits as i64 / 8 - frsize as i64], where the
    division truncates. *)
Definition frame_offset (frame : FrameData) (m : UdtMember) : Z :=
  as_i64 (Z.quot (as_i64 (um_offset_bits m)) 8 - as_i64 (fd_frsize frame)).

Definition find_frame_member (db : Database) (func_ea : Z) (frame : FrameData) (old_name : string) :
    option UdtMember :=
  snd <$> list_find (λ m, um_name m = old_name) (fm_member <$> frame_members db func_ea frame).

Definition handle_rename_stack_variable (func_addr : option Z) (func_name : option string) (old_name new_name : string) :
    Handler Value := λ db,
  then_ (resolve_address (Some (d_view db)) func_addr func_name 0) (λ func_ea,
  then_ (ok_or (d_frame_info db func_ea) (FunctionNotFound func_ea)) (λ frame,
  then_ (ok_or (find_frame_member db func_ea frame old_name)
           (IdaError ("Stack variable '" +:+ old_name +:+ "' not found in function at " +:+ fmt_hex_alt func_ea)))
    (λ m db,
      let offset := frame_offset frame m in
      let '(r, db) := te_define_stack_var te func_ea (Some new_name) offset
                        (if bool_decide (um_type_name m = "") then "int" else um_type_name m) true db in
      if (vr_code r <? 0)%Z then
        (Err (IdaError ("Failed to rename stack variable: code " +:+ fmt_signed (vr_code r))), db)
      else
        (Ok (obj [("func_address", VString (fmt_hex_alt func_ea)); ("old_name", VString old_name);
                  ("new_name", VString (vr_name r)); ("offset", vint offset)]), db)))) db.

Definition handle_set_stack_variable_type (func_addr : option Z) (func_name : option string)
    (var_name type_decl : string) : Handler Value := λ db,
  then_ (resolve_address (Some (d_view db)) func_addr func_name 0) (λ func_ea db,
    let '(r, db) := te_set_stack_var_type te func_ea (Some var_name) 0 false type_decl true false db in
    if (vr_code r <? 0)%Z then
      (Err (IdaError ("Failed to set type for '" +:+ var_name +:+ "': code " +:+ fmt_signed (vr_code r))), db)
    else
      (Ok (obj [("func_address", VString (fmt_hex_alt func_ea)); ("variable", VString (vr_name r));
                ("type", VString type_decl)]), db)) db.

Definition handle_create_enum (decl : string) (replace : bool) : Handler Value := λ db,
  let '(r, db) := te_declare_type te decl true replace db in
  if (dr_code r <? 0)%Z then
    (Err (IdaError ("Failed to create enum (code " +:+ fmt_signed (dr_code r) +:+ "): " +:+ decl)), db)
  else
    (Ok (obj [("name", VString (dr_name r)); ("kind", VString (dr_kind r)); ("decl", VString (dr_decl r));
              ("code", vint (dr_code r))]), db).
End types.

(** * What the structure and type handlers guarantee *)

(** ** Finding a structure *)

Section lookup.
Context (to_lowercase : string → string).

Definition fuzzy_name (query : string) (info : UdtInfo) : bool :=
  contains (to_lowercase query) (to_lowercase (ud_name info)).

(** The loop from the matches that it has already seen. *)
Lemma find_struct_loop_spec query infos seen :
  find_struct_loop to_lowercase query (last seen) (length seen) infos =
  match list_find (λ i, exact_name query i = true) infos with
  | Some (_, i) => Some i
  | None =>
      match seen ++ filter (λ i, fuzzy_name query i = true) infos with
      | [i] => Some i
      | _ => None
      end
  end.
Proof.
  revert seen. induction infos as [|info infos IH]; intros seen; cbn [find_struct_loop list_find].
  { rewrite app_nil_r. destruct seen as [|i [|j seen]]; try done. }
  destruct (exact_name query info) eqn:He; [by rewrite decide_True|]. rewrite decide_False by congruence.
  rewrite filter_cons. unfold fuzzy_name at 1. fold (fuzzy_name query info). unfold fuzzy_name at 1.
  destruct (contains _ _) eqn:Hf.
  - rewrite decide_True by done. rewrite <-(last_snoc info seen) at 1.
    replace (S (length seen)) with (length (seen ++ [info])) by (rewrite length_app; simpl; lia).
    rewrite IH, <-(assoc_L (++)). by destruct (list_find _ infos) as [[]|].
  - rewrite decide_False by (unfold fuzzy_name; congruence). rewrite IH. by destruct (list_find _ infos) as [[]|].
Qed.

(** A structure is looked up by its exact name first, with or without the keyword, and
    the lowest ordinal wins; otherwise by a part of its name, ignoring case, but only when
    exactly one structure has it. *)
Theorem struct_lookup_decides (db : Database) (name : string) :
  let query := trim name in
  find_struct_by_name to_lowercase db name =
  match list_find (λ i, exact_name query i = true) (udts db) with
  | Some (_, i) => Some i
  | None => match filter (λ i, fuzzy_name query i = true) (udts db) with [i] => Some i | _ => None end
  end.
Proof. exact (find_struct_loop_spec (trim name) (udts db) []). Qed.

(** ** Pages *)

Definition get_structs (db : Database) (limit : Z) (filter : option string) (o : Z) :
    result (list StructSummary * option Z) ToolError :=
  match handle_structs to_lowercase (Some db) o limit filter with
  | Ok r => Ok (stl_structs r, stl_next_offset r)
  | Err e => Err e
  end.

Definition get_local_types (db : Database) (limit : Z) (filter : option string) (o : Z) :
    result (list LocalType * option Z) ToolError :=
  match handle_local_types to_lowercase (Some db) o limit filter with
  | Ok r => Ok (ltl_types r, ltl_next_offset r)
  | Err e => Err e
  end.

(** Following [next_offset] with a positive page size lists every structure and every
    local type that passes the filter, once each and in the order of the ordinals. *)
Theorem type_paging_complete (db : Database) (limit : Z) (filter_ : option string) (fuel : nat)
    (Hlimit : (0 < limit)%Z) (Hss : length (udts db) < fuel) (Hts : length (local_types db) < fuel)
    (Hmax : (Z.of_nat fuel < u64_max)%Z) :
  walk fuel (get_structs db limit filter_) 0 =
    struct_summary <$> filter (λ i, passes to_lowercase filter_ (ud_name i) = true) (udts db) ∧
  walk fuel (get_local_types db limit filter_) 0 =
    filter (λ t, passes to_lowercase filter_ (lt_name t) = true) (local_types db).
Proof.
  split.
  - apply (walk_complete (λ i, passes to_lowercase filter_ (ud_name i)) struct_summary _ _ limit); [|lia..].
    intros o. unfold get_structs, handle_structs. cbn [ok_or result_bind]. by destruct (paged _ _ _ _ _).
  - rewrite (walk_complete (λ t, passes to_lowercase filter_ (lt_name t)) id _ _ limit (local_types db)); [|idtac|lia..].
    + apply list_fmap_id.
    + intros o. unfold get_local_types, handle_local_types. cbn [ok_or result_bind]. by destruct (paged _ _ _ _ _).
Qed.

(** ** References to a member *)

Lemma take_xrefs_spec limit out l :
  length out ≤ limit →
  take_xrefs limit out l =
    (out ++ (xref_info <$> take (limit - length out) l), bool_decide (limit < length out + length l)).
Proof.
  revert out. induction l as [|x l IH]; intros out Hout; cbn [take_xrefs].
  { rewrite take_nil, app_nil_r. by rewrite bool_decide_false by (simpl; lia). }
  destruct (Nat.leb_spec limit (length out)) as [Hge|Hlt].
  - replace (limit - length out) with 0 by lia. rewrite take_0, app_nil_r.
    by rewrite bool_decide_true by (simpl; lia).
  - rewrite IH by (rewrite length_app; simpl; lia). rewrite length_app. cbn [length].
    replace (limit - length out) with (S (limit - (length out + 1))) by lia. cbn [take fmap list_fmap].
    rewrite <-(assoc_L (++)). f_equal. apply bool_decide_ext. lia.
Qed.

(** The references to a member are those of the requested member, the first [limit] of
    them, and [truncated] says whether there are more; a member given by its name is the
    first one with that name. *)
Theorem xrefs_to_field_correct (db : Database) (ordinal : option Z) (name member_name : option string)
    (member_index : option Z) (limit : nat) (r : XrefsToFieldResult)
    (Hr : handle_xrefs_to_field to_lowercase (Some db) ordinal name member_index member_name limit = Ok r) :
  ∃ info m tid,
    select_struct to_lowercase db "xrefs_to_field requires struct" ordinal name = Ok info ∧
    xf_struct_ordinal r = ud_ordinal info ∧ (xf_member_index r < ud_member_count info)%Z ∧
    d_udt_member db (ud_ordinal info) (xf_member_index r) = Some m ∧ xf_member_name r = um_name m ∧
    d_udt_member_tid db (ud_ordinal info) (xf_member_index r) = Some tid ∧
    xf_xrefs r = xref_info <$> take limit (d_xrefs_to_tid db tid) ∧
    (xf_truncated r = true ↔ limit < length (d_xrefs_to_tid db tid)) ∧
    match member_index, member_name with
    | Some i, _ => xf_member_index r = i
    | None, Some n =>
        um_name m = n ∧
        ∀ j m', (0 ≤ j < xf_member_index r)%Z → d_udt_member db (ud_ordinal info) j = Some m' → um_name m' ≠ n
    | None, None => False
    end.
Proof.
  unfold handle_xrefs_to_field in Hr. cbn [ok_or result_bind] in Hr.
  destruct (select_struct _ _ _ _ _) as [info|] eqn:Hs; [|done]. cbn [result_bind] in Hr.
  destruct (select_member _ _ _ _) as [idx|] eqn:Hm; [|done]. cbn [result_bind] in Hr.
  destruct (Z.leb_spec (ud_member_count info) idx) as [|Hidx]; [done|].
  destruct (d_udt_member db (ud_ordinal info) idx) as [m|] eqn:Hmem; [|done]. cbn [ok_or result_bind] in Hr.
  destruct (d_udt_member_tid db (ud_ordinal info) idx) as [tid|] eqn:Htid; [|done]. cbn [ok_or result_bind] in Hr.
  rewrite take_xrefs_spec in Hr by (simpl; lia). injection Hr as <-.
  exists info, m, tid. cbn. rewrite Nat.sub_0_r, bool_decide_eq_true. split_and!; try done.
  unfold select_member in Hm. destruct member_index as [i|]; [by injection Hm|].
  destruct member_name as [n|]; [|done]. unfold member_index_by_name in Hm.
  destruct (list_find _ _) as [[k j]|] eqn:Hf; [|done]. cbn in Hm. injection Hm as ->.
  apply list_find_Some in Hf as (Hk & Hname & Hfirst). rewrite Hmem in Hname. injection Hname as Hname.
  split; [done|]. intros j m' Hj Hm' Hn. unfold range in Hk, Hfirst. apply lookup_seqZ in Hk as [Hidx' Hk].
  apply (Hfirst (Z.to_nat j) j); [apply lookup_seqZ; lia|lia|]. by rewrite Hm'; simpl; f_equal.
Qed.

End lookup.

Lemma type_paging_complete_witness :
  walk 5 (get_structs id sample_db 1 None) 0 = struct_summary <$> udts sample_db.
Proof.
  destruct (type_paging_complete id sample_db 1 None 5) as [-> _]; [lia|vm_compute; lia..|vm_compute; done|reflexivity].
Defined.

Lemma xrefs_to_field_correct_witness :
  ∃ r, handle_xrefs_to_field id (Some sample_db) None (Some "point") None (Some "y") 1 = Ok r ∧
    xf_truncated r = true.
Proof.
  eexists. assert (Hr : handle_xrefs_to_field id (Some sample_db) None (Some "point") None (Some "y") 1 = Ok _)
    by (vm_compute; reflexivity).
  split; [exact Hr|].
  destruct (xrefs_to_field_correct id sample_db None (Some "point") (Some "y") None 1 _ Hr)
    as (info & m & tid & _ & _ & _ & _ & _ & _ & _ & [_ H] & _).
  apply H. cbn. lia.
Defined.

(** ** Members and their bytes *)

(** The bits of a member, and the bits that its reported bytes hold. *)
Definition member_bit (m : UdtMember) (b : Z) : Prop :=
  (um_offset_bits m ≤ b < um_offset_bits m + um_size_bits m)%Z.
Definition reported_bit (m : UdtMember) (b : Z) : Prop :=
  let i := struct_member_info m in (8 * smi_offset i ≤ b < 8 * (smi_offset i + smi_size i))%Z.

(** The bytes reported for a member hold all its bits exactly when its bits, counted from
    the byte it starts in, fit in the rounded-up number of bytes; so always for a member that
    starts at a byte, but not for every bit field. *)
Theorem member_bytes_cover (m : UdtMember) (Hsize : (0 < um_size_bits m)%Z) :
  ((∀ b, member_bit m b → reported_bit m b) ↔
     (um_offset_bits m mod 8 + um_size_bits m ≤ 8 * div_ceil8 (um_size_bits m))%Z) ∧
  (um_offset_bits m mod 8 = 0 → ∀ b, member_bit m b → reported_bit m b)%Z.
Proof.
  unfold member_bit, reported_bit, struct_member_info, div_ceil8. cbn.
  pose proof (Z.div_mod (um_offset_bits m) 8 ltac:(done)). pose proof (Z.mod_pos_bound (um_offset_bits m) 8 ltac:(done)).
  pose proof (Z.div_mod (um_size_bits m + 7) 8 ltac:(done)). pose proof (Z.mod_pos_bound (um_size_bits m + 7) 8 ltac:(done)).
  split; [split|]; [|intros; lia|intros; lia].
  intros Hall. specialize (Hall (um_offset_bits m + um_size_bits m - 1)%Z). lia.
Qed.

Definition straddling_field : UdtMember :=
  {| um_name := "flags"; um_type_name := "int"; um_offset_bits := 6; um_size_bits := 4; um_is_bitfield := true |}.

Lemma member_bytes_cover_witness : ¬ (∀ b, member_bit straddling_field b → reported_bit straddling_field b).
Proof. destruct (member_bytes_cover straddling_field) as [-> _]; [done|]. by vm_compute. Defined.

(** ** Renaming a stack variable *)

Lemma as_i64_small z : (- 2 ^ 63 ≤ z < 2 ^ 63)%Z → as_i64 z = z.
Proof. intros Hz. unfold as_i64. rewrite Z.mod_small by lia. lia. Qed.

(** Renaming a stack variable redefines the first member of the frame with the old name,
    in place: under the new name, with its type, at its byte offset less the size of the
    local variables.  Without a function, a frame or such a member nothing changes. *)
Theorem rename_stack_variable_outcome (te : TypeEdits) (func_addr : option Z) (func_name : option string)
    (old_name new_name : string) (db : Database) :
  let '(r, db') := handle_rename_stack_variable te func_addr func_name old_name new_name db in
  match resolve_address (Some (d_view db)) func_addr func_name 0 with
  | Err e => r = Err e ∧ db' = db
  | Ok ea =>
      match d_frame_info db ea with
      | None => r = Err (FunctionNotFound ea) ∧ db' = db
      | Some frame =>
          match list_find (λ m, um_name m = old_name) (fm_member <$> frame_members db ea frame) with
          | None => is_ok r = false ∧ db' = db
          | Some (_, m) =>
              let decl := if bool_decide (um_type_name m = "") then "int" else um_type_name m in
              let done_ := te_define_stack_var te ea (Some new_name) (frame_offset frame m) decl true db in
              db' = done_.2 ∧ (is_ok r = true ↔ (0 ≤ vr_code done_.1)%Z) ∧
              ((0 ≤ um_offset_bits m < 2 ^ 63)%Z → (0 ≤ fd_frsize frame < 2 ^ 63)%Z →
                 frame_offset frame m = (um_offset_bits m / 8 - fd_frsize frame)%Z)
          end
      end
  end.
Proof.
  unfold handle_rename_stack_variable, then_. destruct (resolve_address _ _ _ _) as [ea|e]; [|done].
  destruct (d_frame_info db ea) as [frame|]; [|done]. cbn [ok_or]. unfold find_frame_member.
  destruct (list_find _ _) as [[k m]|]; [|done]. cbn [fmap option_fmap option_map snd ok_or].
  destruct (te_define_stack_var _ _ _ _ _ _ _) as [v db']. cbn [fst snd].
  assert (Hoff : (0 ≤ um_offset_bits m < 2 ^ 63)%Z → (0 ≤ fd_frsize frame < 2 ^ 63)%Z →
    frame_offset frame m = (um_offset_bits m / 8 - fd_frsize frame)%Z).
  { intros Ho Hf. unfold frame_offset. rewrite !(as_i64_small (um_offset_bits m)), !(as_i64_small (fd_frsize frame)) by lia.
    rewrite Z.quot_div_nonneg by lia.
    assert (0 ≤ um_offset_bits m / 8 ≤ um_offset_bits m)%Z
      by (split; [apply Z.div_pos|apply Z.div_le_upper_bound]; lia).
    apply as_i64_small. lia. }
  destruct (Z.ltb_spec (vr_code v) 0); cbn; split_and!; try done; split; intros; done || lia.
Qed.
