(* ===== verification/MiscHandlers.v ===== *)
(** * Scripts, metadata and blocks (src/ida/handlers: script.rs, handle_idb_meta of globals.rs,
    handle_analyze_funcs of functions.rs, handle_basic_blocks of controlflow.rs)

    Running Python and waiting for the analysis are [idalib]'s and may change the database. *)

From Stdlib Require Import Ascii.
From stdpp Require Import base gmap strings numbers list.
From S2P Require Import Prelude RustStr Json ToolError Parse ControlFlow IdaDatabase MemoryHandlers StructHandlers.

Open Scope ida_scope.

(** ** Scripts *)

(** [last_non_empty_line] *)
Definition last_non_empty_line (text : string) : option string :=
  head (filter (λ l, l ≠ "") (trim <$> reverse (lines text))).

(** [classify_python_error] *)
Definition classify_python_error (details : string) : option string :=
  let lowered := to_ascii_lowercase details in
  if contains "syntaxerror" lowered || contains "invalid syntax" lowered then Some "SyntaxError"
  else if contains "nameerror" lowered then Some "NameError"
  else if contains "attributeerror" lowered then Some "AttributeError"
  else if contains "importerror" lowered || contains "modulenotfounderror" lowered then Some "ImportError"
  else if contains "typeerror" lowered then Some "TypeError"
  else if contains "valueerror" lowered then Some "ValueError"
  else None.

(** The summary: the reported error unless it is blank, else the last line of the error stream. *)
Definition error_summary (o : PyOutput) : option string :=
  match py_error o with
  | Some e => if bool_decide (trim e = "") then last_non_empty_line (py_stderr o) else Some (trim e)
  | None => last_non_empty_line (py_stderr o)
  end.

Definition error_kind (o : PyOutput) : option string :=
  classify_python_error (default "" (error_summary o) +:+ newline +:+ py_stderr o).

Definition opt_field (key : string) (o : option string) : list (string * Value) :=
  match o with Some s => [(key, VString s)] | None => [] end.

(** [result["error"]] *)
Definition error_field (o : PyOutput) : option string :=
  match py_error o with
  | Some e => Some e
  | None => if py_success o then None else error_summary o
  end.

Definition script_value (o : PyOutput) : Value :=
  obj ([("success", Bool (py_success o)); ("stdout", VString (py_stdout o)); ("stderr", VString (py_stderr o))] ++
       opt_field "error" (error_field o) ++ opt_field "error_summary" (error_summary o) ++
       opt_field "error_kind" (error_kind o)).

Definition handle_run_script (run_python : string → Database → result PyOutput string * Database) (code : string) :
    Handler Value := λ db,
  let '(r, db) := run_python code db in
  (let? o := ida_err r in Ok (script_value o), db).

(** ** Metadata and analysis *)

Definition meta_bits (m : Meta) : Z := if me_64bit m then 64 else if me_32bit_exactly m then 32 else 16.

Definition handle_idb_meta (idb : option Database) : result Value ToolError :=
  let? db := ok_or idb NoDatabaseOpen in
  let m := d_meta db in
  Ok (obj [("file_type", VString (me_filetype m)); ("processor", VString (me_processor m)); ("bits", vz (meta_bits m));
           ("function_count", vz (me_function_count m)); ("input_file_path", VString (me_path m));
           ("input_file_size", vz (me_size m)); ("md5", VString (hex_encode (me_md5 m)));
           ("sha256", VString (hex_encode (me_sha256 m))); ("base_address", opt_vstring (fmt_hex_alt <$> me_base m));
           ("min_address", VString (fmt_hex_alt (me_min m))); ("max_address", VString (fmt_hex_alt (me_max m)));
           ("main_address", opt_vstring (fmt_hex_alt <$> me_main m))]).

Definition handle_analyze_funcs (auto_wait : Database → bool * Database) : Handler Value := λ db,
  let '(completed, db) := auto_wait db in
  (Ok (obj [("completed", Bool completed); ("function_count", vz (me_function_count (d_meta db)))]), db).

(** ** Blocks *)

Definition block_type (b : Block) : string :=
  if bk_normal b then "normal"
  else if bk_ret b then "ret"
  else if bk_cndret b then "cndret"
  else if bk_noret b then "noret"
  else if bk_indjump b then "indjump"
  else if bk_extern b then "extern"
  else if bk_error b then "error"
  else "unknown".

Definition basic_block_info (b : Block) : BasicBlockInfo :=
  {| bbi_start := fmt_hex_alt (bk_start b); bbi_end := fmt_hex_alt (bk_end b); bbi_size := bk_len b;
     bbi_block_type := block_type b; bbi_successors := fmt_hex_alt <$> bk_succs b;
     bbi_predecessors := fmt_hex_alt <$> bk_preds b |}.

Definition handle_basic_blocks (idb : option Database) (addr : Z) : result (list BasicBlockInfo) ToolError :=
  let? db := ok_or idb NoDatabaseOpen in
  let? fn := ok_or (function_at db addr) (FunctionNotFound addr) in
  let? blocks := ida_err (d_blocks db fn) in
  Ok (basic_block_info <$> blocks).

(** ** What a script's answer says *)

Lemma last_non_empty_line_spec text :
  match last_non_empty_line text with
  | Some l => l ≠ "" ∧ ∃ before line after, lines text = before ++ line :: after ∧ trim line = l ∧
                Forall (λ l, trim l = "") after
  | None => Forall (λ l, trim l = "") (lines text)
  end.
Proof.
  unfold last_non_empty_line. induction (lines text) as [|x l IH] using rev_ind; [by constructor|].
  rewrite reverse_app, reverse_singleton. cbn [app fmap list_fmap]. rewrite filter_cons.
  destruct (decide (trim x ≠ "")) as [Hx|Hx].
  - cbn. split; [done|]. exists l, x, []. split_and!; [done|done|constructor].
  - apply dec_stable in Hx. change (list_fmap _ _ trim (reverse l)) with (trim <$> reverse l).
    destruct (head _) as [y|].
    + destruct IH as (Hy & before & line & after & -> & Hline & Hafter). split; [done|].
      exists before, line, (after ++ [x]). rewrite <-(assoc_L (++)). split_and!; [done|done|].
      apply Forall_app. split; [done|by apply Forall_singleton].
    + apply Forall_app. split; [done|by apply Forall_singleton].
Qed.

(** A failed script always says why when there is anything to say: its answer has an
    error unless the interpreter reported none and wrote only blanks to the error stream.
    A summary, however, also appears for a script that succeeded, as soon as it wrote to the
    error stream. *)
Theorem script_errors_reported (o : PyOutput) :
  (py_success o = false → error_field o = None →
     py_error o = None ∧ Forall (λ l, trim l = "") (lines (py_stderr o))) ∧
  (py_success o = true → py_error o = None → error_field o = None ∧
     (error_summary o = None ↔ Forall (λ l, trim l = "") (lines (py_stderr o)))).
Proof.
  unfold error_field, error_summary. pose proof (last_non_empty_line_spec (py_stderr o)) as Hl. split.
  - intros -> Hf. destruct (py_error o); [done|]. rewrite Hf in Hl. by split.
  - intros -> ->. split; [done|]. destruct (last_non_empty_line (py_stderr o)); [|done].
    destruct Hl as (Hne & before & line & after & -> & <- & _). split; [done|]. intros Hall.
    apply Forall_app in Hall as [_ Hall]. by inversion Hall.
Qed.

Example script_warning :
  script_value {| py_success := true; py_stdout := "3"; py_stderr := "TypeError is deprecated"; py_error := None |} =
  obj [("success", Bool true); ("stdout", VString "3"); ("stderr", VString "TypeError is deprecated");
       ("error_summary", VString "TypeError is deprecated"); ("error_kind", VString "TypeError")].
Proof. vm_compute. reflexivity. Qed.
