(* ===== verification/IdatCompat.v ===== *)
(** * The compatibility worker (src/idat_compat.rs)

    For an IDA that cannot be linked, the worker runs the program [idat] once per request with a
    Python script and reads the JSON file that the script writes.  A script is its kind and the
    assignments that the source puts before a fixed Python text; what [idat] does with it is a
    parameter, as are the files that exist, the store's names and serde_json's text forms. *)

From Stdlib Require Import Ascii.
From stdpp Require Import base strings numbers list.
From S2P Require Import ToolTable ToolRegistry.
From S2P Require Import Prelude RustStr Json ToolError Runtime Protocol Parse Fs Serde WorkerMain.

Open Scope ida_scope.

(** ** Python literals *)

(** [str::replace], for a pattern that is not empty. *)
Fixpoint replace_go (p new : string) (skip : nat) (s : string) : string :=
  match s with
  | EmptyString => ""
  | String c rest =>
      match skip with
      | S skip => replace_go p new skip rest
      | 0 => if starts_with p s then new +:+ replace_go p new (String.length p - 1) rest
             else String c (replace_go p new 0 rest)
      end
  end.

Definition str_replace (p new s : string) : string := replace_go p new 0 s.

Definition backslash : string := String "092" "".
Definition carriage_return : string := String "013" "".

(** [escape_python_string] *)
Definition escape_python_string (input : string) : string :=
  str_replace carriage_return (backslash +:+ "r")
    (str_replace newline (backslash +:+ "n")
       (str_replace quote (backslash +:+ quote)
          (str_replace backslash (backslash +:+ backslash) input))).

(** [format!("'{value}'")] *)
Definition py_str (s : string) : string := "'" +:+ escape_python_string s +:+ "'".
Definition py_opt_str (o : option string) : string := match o with Some s => py_str s | None => "None" end.
Definition py_opt_num (o : option Z) : string := match o with Some z => fmt_dec z | None => "None" end.
Definition py_bool (b : bool) : string := if b then "True" else "False".

(** [tail_lines] *)
Definition tail_lines (input : string) (max_lines : nat) : string :=
  let l := lines input in str_join newline (drop (length l - max_lines) l).

(** ** Results of the scripts *)

Definition AnalysisStatusFields : list Field :=
  [field "auto_enabled" [] bool_codec; field "auto_is_ok" [] bool_codec; field "auto_state" [] string_codec;
   field "auto_state_id" [] i32_codec; field "analysis_running" [] bool_codec].

Definition DebugInfoFields : list Field :=
  [field "path" [] string_codec; field "loaded" [] bool_codec; field "error" [] (option_codec string_codec)].

Definition DbInfoFields : list Field :=
  [field "path" [] string_codec; field "file_type" [] string_codec; field "processor" [] string_codec;
   field "bits" [] u32_codec; field "function_count" [] usize_codec;
   field "debug_info" [] (option_codec (struct_codec "DebugInfoLoad" DebugInfoFields eq_refl));
   field "analysis_status" [] (struct_codec "AnalysisStatus" AnalysisStatusFields eq_refl)].

Definition FunctionInfoFields : list Field :=
  [field "address" [] string_codec; field "name" [] string_codec; field "size" [] usize_codec].

Definition FunctionListFields : list Field :=
  [field "functions" [] (vec_codec (struct_codec "FunctionInfo" FunctionInfoFields eq_refl));
   field "total" [] usize_codec; field_skip "next_offset" usize_codec].

(** ** Running [idat] *)

Record Script : Type := {
  sc_kind : string;                      (* the prefix of its output file, one per Python text *)
  sc_vars : list (string * string)       (* variables and the text of their values *)
}.

Record Invocation : Type := {
  iv_target : string;
  iv_output : option string;             (* [-o] *)
  iv_script : Script;
  iv_code : option string                (* the file of [run_script] *)
}.

Record ProcOutput : Type := {
  po_success : bool;
  po_status : string;
  po_stderr : string;
  po_stdout : string
}.

(** Everything that a run shows: the program, the script file, the process, the log and the
    file that the script has written. *)
Record IdatRun : Type := {
  ir_find : result string ToolError;
  ir_write : result unit string;
  ir_process : result ProcOutput string;
  ir_log : option string;
  ir_output : result string string
}.

(** [run_idat_script]; what can be read of the output afterwards comes with the success. *)
Definition idat_outcome (r : IdatRun) : result (result string string) ToolError :=
  match ir_find r with
  | Err e => Err e
  | Ok _ =>
      match ir_write r with
      | Err e => Err (IdaError ("failed to write temp script: " +:+ e))
      | Ok tt =>
          match ir_process r with
          | Err e => Err (IdaError ("failed to run idat: " +:+ e))
          | Ok p =>
              if po_success p then Ok (ir_output r)
              else
                let part title text :=
                  if bool_decide (text = "") then "" else newline +:+ title +:+ newline +:+ text in
                Err (IdaError ("idat exited with status " +:+ po_status p +:+ part "stderr:" (trim (po_stderr p)) +:+
                               part "stdout:" (trim (po_stdout p)) +:+
                               part "log tail:" (default "" ((λ s, tail_lines s 40) <$> ir_log r))))
          end
      end
  end.

Record CompatSession : Type := { cs_database_path : string; cs_info : Struct DbInfoFields }.

Section worker.
Context {W : Type}.
Context (idat : Invocation → W → IdatRun * W).
Context (exists_ : string → W → bool) (create_dir_all : string → W → result unit string * W).
Context (parent : string → option string) (record_ : string → string → W → W) (store_path : string → string).
Context (json_parse : string → result Value string) (json_print : Value → result string string).
Context (de_message : DeError → string).
(** [fs::write] of the user's code, which may fail, and its path *)
Context (user_code : string → result string string).

(** [CompatWorker] and the world. *)
Record CompatState : Type := { cw_session : option CompatSession; cw_world : W }.

Definition Compat (A : Type) : Type := CompatState → result A ToolError * CompatState.

Definition c_ret {A} (a : A) : Compat A := λ s, (Ok a, s).
Definition c_lift {A} (r : result A ToolError) : Compat A := λ s, (r, s).
Definition c_bind {A B} (m : Compat A) (k : A → Compat B) : Compat B := λ s,
  match m s with (Ok a, s) => k a s | (Err e, s) => (Err e, s) end.

Notation "'let*' x := m 'in' k" := (c_bind m (λ x, k))
  (at level 10, x pattern, m at level 200, k at level 200).

Definition c_world {A} (f : W → A * W) : Compat A := λ s,
  let '(a, w) := f (cw_world s) in (Ok a, {| cw_session := cw_session s; cw_world := w |}).

Definition c_exists (path : string) : Compat bool := λ s, (Ok (exists_ path (cw_world s)), s).

(** [run_idat_script] *)
Definition run_idat_script (inv : Invocation) : Compat (result string string) :=
  let* r := c_world (idat inv) in c_lift (idat_outcome r).

(** [read_json_value], and the readers of typed results, with their messages. *)
Definition read_with {A} (read_failed invalid : string) (decode : Value → result A string) (out : result string string) :
    result A ToolError :=
  match out with
  | Err e => Err (IdaError (read_failed +:+ e))
  | Ok data =>
      match json_parse data with
      | Err e => Err (IdaError (invalid +:+ e))
      | Ok v => match decode v with Ok a => Ok a | Err e => Err (IdaError (invalid +:+ e)) end
      end
  end.

Definition read_json_value : result string string → result Value ToolError :=
  read_with "failed to read json output: " "invalid json output: " Ok.

Definition decode_struct (name : string) (fs : list Field) (v : Value) : result (Struct fs) string :=
  match de_struct name fs v with Ok r => Ok r | Err e => Err (de_message e) end.

Definition read_db_info : result string string → result (Struct DbInfoFields) ToolError :=
  read_with "failed to read db info: " "invalid db info json: " (decode_struct "DbInfo" DbInfoFields).

(** [if let Some(error) = value.get("error")] *)
Definition check_error (wrap : string → ToolError) (v : Value) : result Value ToolError :=
  match get "error" v ≫= as_str with Some e => Err (wrap e) | None => Ok v end.

Definition text_of (key missing : string) (v : Value) : result string ToolError :=
  ok_or (get key v ≫= as_str) (IdaError missing).

Definition not_found (e : string) : ToolError := FunctionNameNotFound (str_replace "Function not found: " "" e).

(** A run on a database; the output as a value. *)
Definition idat_value (database kind : string) (vars : list (string * string)) : Compat Value :=
  let* out := run_idat_script {| iv_target := database; iv_output := None;
                                 iv_script := {| sc_kind := kind; sc_vars := vars |}; iv_code := None |} in
  c_lift (read_json_value out).

Definition idat_checked (wrap : string → ToolError) (database kind : string) (vars : list (string * string)) :
    Compat Value :=
  let* v := idat_value database kind vars in c_lift (check_error wrap v).

(** ** The operations on the open database *)

Definition list_functions_with_idat (offset limit : Z) (filter : option string) (db : string) : Compat Value :=
  let* out := run_idat_script
    {| iv_target := db; iv_output := None;
       iv_script := {| sc_kind := "list-functions";
                       sc_vars := [("OFFSET", fmt_dec offset); ("LIMIT", fmt_dec limit); ("FILTER", py_opt_str filter)] |};
       iv_code := None |} in
  let* r := c_lift (read_with "failed to read list output: " "invalid list_functions json: "
                      (decode_struct "FunctionListResult" FunctionListFields) out) in
  c_ret (ser_struct FunctionListFields r).

Definition resolve_function_with_idat (query : string) (db : string) : Compat Value :=
  idat_checked not_found db "resolve-function" [("QUERY", py_str query)].

Definition function_at_with_idat (addr : option Z) (name : option string) (offset : Z) (db : string) : Compat Value :=
  idat_checked IdaError db "function-at"
    [("ADDR", py_opt_num addr); ("NAME", py_opt_str name); ("OFFSET", fmt_dec offset)].

Definition disasm_with_idat (addr count : Z) (db : string) : Compat string :=
  let* v := idat_value db "disasm" [("ADDR", fmt_dec addr); ("COUNT", fmt_dec count)] in
  c_lift (text_of "disasm" "missing disassembly output" v).

Definition disasm_by_name_with_idat (name : string) (count : Z) (db : string) : Compat string :=
  let* v := idat_checked not_found db "disasm-name" [("NAME", py_str name); ("COUNT", fmt_dec count)] in
  c_lift (text_of "disasm" "missing disassembly output" v).

Definition disasm_function_at_with_idat (addr : option Z) (name : option string) (offset count : Z) (db : string) :
    Compat string :=
  let* v := idat_checked IdaError db "disasm-function-at"
    [("ADDR", py_opt_num addr); ("NAME", py_opt_str name); ("OFFSET", fmt_dec offset); ("COUNT", fmt_dec count)] in
  c_lift (text_of "disasm" "missing disassembly output" v).

Definition segments_with_idat (db : string) : Compat Value := idat_value db "segments" [].

Definition strings_with_idat (offset limit : Z) (query : option string) (db : string) : Compat Value :=
  idat_value db "strings" [("OFFSET", fmt_dec offset); ("LIMIT", fmt_dec limit); ("QUERY", py_opt_str query)].

Definition get_bytes_with_idat (addr size : Z) (db : string) : Compat Value :=
  idat_checked IdaError db "bytes" [("ADDR", fmt_dec addr); ("SIZE", fmt_dec size)].

Definition addr_info_with_idat (addr : option Z) (name : option string) (offset : Z) (db : string) : Compat Value :=
  idat_checked IdaError db "addr-info"
    [("ADDR", py_opt_num addr); ("NAME", py_opt_str name); ("OFFSET", fmt_dec offset)].

Definition xrefs_with_idat (addr : Z) (to : bool) (db : string) : Compat Value :=
  idat_value db "xrefs" [("ADDR", fmt_dec addr); ("MODE", "'" +:+ (if to then "to" else "from") +:+ "'")].

Definition xrefs_to_string_with_idat (query : string) (exact case_insensitive : bool) (offset limit max_xrefs : Z)
    (db : string) : Compat Value :=
  idat_value db "xrefs-to-string"
    [("QUERY", py_str query); ("EXACT", py_bool exact); ("CASE_INSENSITIVE", py_bool case_insensitive);
     ("OFFSET", fmt_dec offset); ("LIMIT", fmt_dec limit); ("MAX_XREFS", fmt_dec (Z.max 1 (Z.min max_xrefs 1024)))].

Definition callers_with_idat (addr : Z) (db : string) : Compat Value :=
  idat_checked IdaError db "callers" [("ADDR", fmt_dec addr)].
Definition callees_with_idat (addr : Z) (db : string) : Compat Value :=
  idat_checked IdaError db "callees" [("ADDR", fmt_dec addr)].

Definition imports_with_idat (offset limit : Z) (db : string) : Compat Value :=
  idat_value db "imports" [("OFFSET", fmt_dec offset); ("LIMIT", fmt_dec limit)].
Definition exports_with_idat (offset limit : Z) (db : string) : Compat Value :=
  idat_value db "exports" [("OFFSET", fmt_dec offset); ("LIMIT", fmt_dec limit)].
Definition entrypoints_with_idat (db : string) : Compat Value := idat_value db "entrypoints" [].
Definition database_info_with_idat (db : string) : Compat Value := idat_value db "db-info" [].

Definition globals_with_idat (query : option string) (offset limit : Z) (db : string) : Compat Value :=
  idat_value db "globals" [("QUERY", py_opt_str query); ("OFFSET", fmt_dec offset); ("LIMIT", fmt_dec limit)].

Definition read_string_with_idat (addr max_len : Z) (db : string) : Compat Value :=
  idat_checked IdaError db "read-string" [("ADDR", fmt_dec addr); ("MAX_LEN", fmt_dec max_len)].
Definition read_int_with_idat (addr size : Z) (db : string) : Compat Value :=
  idat_checked IdaError db "read-int" [("ADDR", fmt_dec addr); ("SIZE", fmt_dec size)].

Definition search_text_with_idat (text : string) (max_results : Z) (db : string) : Compat Value :=
  idat_value db "search-text" [("QUERY", py_str text); ("MAX_RESULTS", fmt_dec max_results)].
Definition search_bytes_with_idat (pattern : string) (max_results : Z) (db : string) : Compat Value :=
  idat_value db "search-bytes" [("PATTERN", py_str pattern); ("MAX_RESULTS", fmt_dec max_results)].

(** The user's code goes into a file of its own, which the script names. *)
Definition run_script_with_idat (code : string) (db : string) : Compat Value :=
  let* path := c_lift (match user_code code with
                       | Ok p => Ok p
                       | Err e => Err (IdaError ("failed to write user script: " +:+ e))
                       end) in
  let* out := run_idat_script
    {| iv_target := db; iv_output := None;
       iv_script := {| sc_kind := "run-script"; sc_vars := [("USER_CODE", "r" +:+ py_str path)] |};
       iv_code := Some code |} in
  c_lift (read_json_value out).

Definition pseudocode_at_with_idat (addr : Z) (end_addr : option Z) (db : string) : Compat Value :=
  idat_checked IdaError db "pseudocode-at" [("ADDR", fmt_dec addr); ("END_ADDR", py_opt_num end_addr)].

Definition batch_decompile_with_idat (addrs : list Value) (db : string) : Compat Value :=
  let* addrs_json := c_lift (match json_print (Array addrs) with
                             | Ok s => Ok s
                             | Err e => Err (IdaError ("failed to encode addresses: " +:+ e))
                             end) in
  let quotes := "'" +:+ "'" +:+ "'" in
  let escaped := backslash +:+ "'" +:+ backslash +:+ "'" +:+ backslash +:+ "'" in
  idat_value db "batch-decompile"
    [("ADDRS", "json.loads(" +:+ quotes +:+ str_replace quotes escaped addrs_json +:+ quotes +:+ ")")].

Definition search_pseudocode_with_idat (pattern : string) (limit : Z) (db : string) : Compat Value :=
  idat_value db "search-pseudocode" [("PATTERN", py_str pattern); ("LIMIT", fmt_dec limit)].

Definition diff_pseudocode_with_idat (addr1 addr2 : Z) (db : string) : Compat Value :=
  idat_value db "diff-pseudocode" [("ADDR1", fmt_dec addr1); ("ADDR2", fmt_dec addr2)].

Definition decompile_with_idat (address : Z) (db : string) : Compat string :=
  let* out := run_idat_script
    {| iv_target := db; iv_output := None;
       iv_script := {| sc_kind := "decompile"; sc_vars := [("TARGET_EA", fmt_dec address)] |}; iv_code := None |} in
  let* v := c_lift (read_with "failed to read decompile output: " "invalid decompile json: " Ok out) in
  let* v := c_lift (check_error IdaError v) in
  c_lift (text_of "code" "missing decompile output" v).

(** ** Opening *)

Definition compat_database_hint (input_path : string) : string := with_extension "i64" (store_path input_path).

Definition existing_database_path (hint : string) : Compat (option string) := λ s,
  (Ok (snd <$> list_find (λ p, exists_ p (cw_world s) = true) [hint; with_extension "id0" hint; with_extension "idb" hint]),
   s).

Definition inspect_database (database_path : string) : Compat (Struct DbInfoFields) :=
  let* out := run_idat_script
    {| iv_target := database_path; iv_output := None;
       iv_script := {| sc_kind := "inspect-db-info"; sc_vars := [] |}; iv_code := None |} in
  c_lift (read_db_info out).

Definition create_or_open_database (input_path database_path : string) : Compat (Struct DbInfoFields) :=
  let* found := existing_database_path database_path in
  match found with
  | Some existing => inspect_database existing
  | None =>
      let* created := match parent database_path with
                      | Some dir => c_world (create_dir_all dir)
                      | None => c_ret (Ok tt)
                      end in
      let* _ := c_lift (match created with
                        | Ok tt => Ok tt
                        | Err e => Err (IdaError ("failed to create cache dir: " +:+ e))
                        end) in
      let* out := run_idat_script
        {| iv_target := input_path; iv_output := Some database_path;
           iv_script := {| sc_kind := "open-db-info"; sc_vars := [] |}; iv_code := None |} in
      let* found := existing_database_path database_path in
      let* _ := c_lift (ok_or found (IdaError ("idat completed but no database artifact was found for " +:+
                                               database_path))) in
      c_lift (read_db_info out)
  end.

Definition is_database_path (path : string) : bool :=
  bool_decide (to_ascii_lowercase (default "" (file_name path ≫= extension)) ∈ ["i64"; "id0"; "idb"]).

Definition set_session (session : option CompatSession) : Compat unit := λ s,
  (Ok tt, {| cw_session := session; cw_world := cw_world s |}).

Definition open (path : string) : Compat (Struct DbInfoFields) :=
  let* ex := c_exists path in
  if negb ex then c_lift (Err (InvalidPath ("File not found: " +:+ path)))
  else if is_database_path path then
    let* info := inspect_database path in
    let* _ := set_session (Some {| cs_database_path := path; cs_info := info |}) in
    c_ret info
  else
    let hint := compat_database_hint path in
    let* found := existing_database_path hint in
    let database_path := default hint found in
    let* info := create_or_open_database path database_path in
    let* found := existing_database_path database_path in
    let database_path := default database_path found in
    let* ex := c_exists database_path in
    let* _ := if ex then c_world (λ w, (tt, record_ path database_path w)) else c_ret tt in
    let* _ := set_session (Some {| cs_database_path := database_path; cs_info := info |}) in
    c_ret info.

(** ** The dispatcher *)

(** [self.session.as_ref().ok_or(ToolError::NoDatabaseOpen)?] *)
Definition on_session {A} (f : string → Compat A) : Compat A := λ s,
  match cw_session s with
  | Some session => f (cs_database_path session) s
  | None => (Err NoDatabaseOpen, s)
  end.

(** [parse_address_value] of this file *)
Definition compat_address (v : Value) : option Z :=
  match as_u64 v with
  | Some n => Some n
  | None =>
      match as_str v with
      | Some text =>
          let text := trim text in
          if starts_with "0x" text || starts_with "0X" text then from_str_radix u64_max 16 (skip2 text)
          else parse_u64 text
      | None => None
      end
  end.

Definition p_addr (p : Value) (key : string) : option Z := get key p ≫= compat_address.
Definition p_u64 (p : Value) (key : string) (d : Z) : Z := default d (as_u64 (index p key)).
Definition p_str (p : Value) (key : string) : option string := as_str (index p key).
Definition p_bool (p : Value) (key : string) (d : bool) : bool := default d (as_bool (index p key)).

(** The arms that cannot do without an address or a name. *)
Definition need_addr (p : Value) (key : string) (f : Z → Compat Value) : Compat Value :=
  let* a := c_lift (ok_or (p_addr p key) (InvalidAddress ("missing " +:+ key))) in f a.
Definition need_str (p : Value) (key : string) (f : string → Compat Value) : Compat Value :=
  let* a := c_lift (ok_or (p_str p key) (InvalidParams ("missing " +:+ key))) in f a.

Definition as_field (key : string) (m : Compat string) : Compat Value :=
  let* text := m in c_ret (obj [(key, VString text)]).

Definition close_session (_ : Value) : Compat Value :=
  let* _ := set_session None in c_ret (obj [("ok", Bool true)]).

Definition compat_table : list (string * (Value → Compat Value)) :=
  [("open", λ p, let* info := open (default "" (p_str p "path")) in c_ret (ser_struct DbInfoFields info));
   ("close", close_session);
   ("shutdown", close_session);
   ("get_analysis_status", λ p s,
      match cw_session s with
      | Some session => (Ok (ser_struct AnalysisStatusFields ((cs_info session) @ "analysis_status")), s)
      | None => (Err NoDatabaseOpen, s)
      end);
   ("list_functions", λ p,
      on_session (list_functions_with_idat (p_u64 p "offset" 0) (p_u64 p "limit" 100) (p_str p "filter")));
   ("get_function_by_name", λ p, need_str p "name" (λ name, on_session (resolve_function_with_idat name)));
   ("get_function_at_address", λ p,
      on_session (function_at_with_idat (p_addr p "address") (p_str p "target_name") (p_u64 p "offset" 0)));
   ("get_address_info", λ p,
      on_session (addr_info_with_idat (p_addr p "address") (p_str p "target_name") (p_u64 p "offset" 0)));
   ("disassemble", λ p,
      need_addr p "address" (λ a, as_field "disasm" (on_session (disasm_with_idat a (p_u64 p "count" 10)))));
   ("disassemble_function", λ p,
      need_str p "name" (λ n, as_field "disasm" (on_session (disasm_by_name_with_idat n (p_u64 p "count" 10)))));
   ("disassemble_function_at", λ p,
      as_field "disasm" (on_session (disasm_function_at_with_idat (p_addr p "address") (p_str p "target_name")
                                       (p_u64 p "offset" 0) (p_u64 p "count" 200))));
   ("decompile_function", λ p, need_addr p "address" (λ a, as_field "code" (on_session (decompile_with_idat a))));
   ("list_segments", λ _, on_session segments_with_idat);
   ("list_strings", λ p,
      on_session (strings_with_idat (p_u64 p "offset" 0) (p_u64 p "limit" 100)
                    (match p_str p "query" with Some q => Some q | None => p_str p "filter" end)));
   ("read_bytes", λ p, need_addr p "address" (λ a, on_session (get_bytes_with_idat a (p_u64 p "size" 16))));
   ("get_xrefs_to", λ p, need_addr p "address" (λ a, on_session (xrefs_with_idat a true)));
   ("get_xrefs_from", λ p, need_addr p "address" (λ a, on_session (xrefs_with_idat a false)));
   ("get_xrefs_to_string", λ p,
      need_str p "query" (λ q,
        on_session (xrefs_to_string_with_idat q (p_bool p "exact" false) (p_bool p "case_insensitive" true)
                      (p_u64 p "offset" 0) (p_u64 p "limit" 100) (p_u64 p "max_xrefs" 64))));
   ("list_imports", λ p, on_session (imports_with_idat (p_u64 p "offset" 0) (p_u64 p "limit" 100)));
   ("list_exports", λ p, on_session (exports_with_idat (p_u64 p "offset" 0) (p_u64 p "limit" 100)));
   ("list_entry_points", λ _, on_session entrypoints_with_idat);
   ("get_database_info", λ _, on_session database_info_with_idat);
   ("list_globals", λ p,
      on_session (globals_with_idat (p_str p "query") (p_u64 p "offset" 0) (p_u64 p "limit" 100)));
   ("read_string", λ p, need_addr p "address" (λ a, on_session (read_string_with_idat a (p_u64 p "max_len" 1024))));
   ("read_int", λ p,
      let* a := c_lift (ok_or (match get "address" p with Some v => Some v | None => get "addr" p end ≫= compat_address)
                          (InvalidAddress "missing address")) in
      on_session (read_int_with_idat a (p_u64 p "size" 4)));
   ("search_text", λ p, on_session (search_text_with_idat (default "" (p_str p "text")) (p_u64 p "max_results" 100)));
   ("search_bytes", λ p,
      on_session (search_bytes_with_idat
        (default "" (match p_str p "patterns" with Some s => Some s | None => p_str p "pattern" end))
        (default 100%Z (match as_u64 (index p "limit") with
                        | Some n => Some n | None => as_u64 (index p "max_results") end))));
   ("run_script", λ p, on_session (run_script_with_idat (default "" (p_str p "code"))));
   ("get_pseudocode_at", λ p,
      need_addr p "address" (λ a, on_session (pseudocode_at_with_idat a (p_addr p "end_address"))));
   ("batch_decompile", λ p,
      on_session (batch_decompile_with_idat
        (match as_array (index p "addresses") with
         | Some arr => arr
         | None => match index p "addresses" with Null => [] | v => [v] end
         end)));
   ("search_pseudocode", λ p,
      on_session (search_pseudocode_with_idat (default "" (p_str p "pattern")) (Z.min (p_u64 p "limit" 20) 100)));
   ("diff_pseudocode", λ p,
      need_addr p "addr1" (λ a1, need_addr p "addr2" (λ a2, on_session (diff_pseudocode_with_idat a1 a2))));
   ("get_callers", λ p, need_addr p "address" (λ a, on_session (callers_with_idat a)));
   ("get_callees", λ p, need_addr p "address" (λ a, on_session (callees_with_idat a)))].

Definition compat_arm (method : string) : option (Value → Compat Value) :=
  match find (λ row, bool_decide (row.1 = method)) compat_table with Some row => Some row.2 | None => None end.

Definition dispatch_request (req : RpcRequest) (s : CompatState) : RpcResponse * CompatState :=
  let method := primary_name_for (req_method req) in
  let '(r, s) :=
    match compat_arm method with
    | Some arm => arm (req_params req) s
    | None => (Err (NotSupported ("backend idat-compat does not support method " +:+ method)), s)
    end in
  (match r with
   | Ok value => RpcResponse_ok (req_id req) value
   | Err e => RpcResponse_err (req_id req) (-32000) (error_to_string e)
   end, s).

(** [run_worker]: the responses in the order in which they are written. *)
Fixpoint run_worker (read_request : string → result RpcRequest string) (input : list ReadLine) (s : CompatState) :
    list RpcResponse * CompatState :=
  match input with
  | [] | Eof :: _ | ReadError :: _ => ([], s)
  | Line text :: input =>
      let trimmed := trim text in
      if bool_decide (trimmed = "") then run_worker read_request input s
      else
        match read_request trimmed with
        | Err e =>
            let '(out, s) := run_worker read_request input s in
            (RpcResponse_err "null" (-32700) ("Parse error: " +:+ e) :: out, s)
        | Ok req =>
            let '(resp, s) := dispatch_request req s in
            if bool_decide (req_method req = "shutdown") then ([resp], s)
            else let '(out, s) := run_worker read_request input s in (resp :: out, s)
        end
  end.
End worker.

Arguments Compat : clear implicits.
Arguments CompatState : clear implicits.
