(* ===== verification/PyText.v ===== *)
(** * Python text: literals and the templates of [format!]

    The server writes Python scripts.  This file has Python's reading of a string literal, the
    lemmas about the escapes the source uses, and the [format!] macro on templates with named
    holes. *)

From Stdlib Require Import Ascii.
From stdpp Require Import base strings numbers list.
From S2P Require Import Prelude RustStr IdatCompat.

Open Scope ida_scope.

(** ** Literals *)

(** Python's reading of a string literal after its opening quote [q]: the text and what
    follows the closing one.  The escapes are those that the source produces. *)
Definition py_escape (c : ascii) : option ascii :=
  if bool_decide (c = "092"%char) then Some "092"%char
  else if bool_decide (c = "034"%char) then Some "034"%char
  else if bool_decide (c = "'"%char) then Some "'"%char
  else if bool_decide (c = "n"%char) then Some "010"%char
  else if bool_decide (c = "r"%char) then Some "013"%char
  else None.

Definition push_char (c : ascii) (r : option (string * string)) : option (string * string) :=
  (λ p, (String c p.1, p.2)) <$> r.

Fixpoint py_read (q : ascii) (s : string) : option (string * string) :=
  match s with
  | EmptyString => None
  | String c rest =>
      if bool_decide (c = q) then Some ("", rest)
      else if bool_decide (c = "092"%char) then
        match rest with
        | String d rest => match py_escape d with Some x => push_char x (py_read q rest) | None => None end
        | EmptyString => None
        end
      else if bool_decide (c = "010"%char) || bool_decide (c = "013"%char) then None
      else push_char c (py_read q rest)
  end.

Lemma replace_char_cons c new d s :
  str_replace (String c "") new (String d s) =
  (if bool_decide (c = d) then new else String d "") +:+ str_replace (String c "") new s.
Proof.
  unfold str_replace. cbn [replace_go]. unfold starts_with. cbn [strip_prefix].
  destruct (bool_decide (c = d)); [by rewrite bool_decide_true|]. by rewrite bool_decide_false by (intros [? [=]]).
Qed.

Lemma replace_char_app c new a b :
  str_replace (String c "") new (a +:+ b) = str_replace (String c "") new a +:+ str_replace (String c "") new b.
Proof.
  induction a as [|d a IH]; [done|]. change (String d a +:+ b) with (String d (a +:+ b)).
  by rewrite !replace_char_cons, IH, string_app_assoc.
Qed.

Lemma replace_char_other c new d : c ≠ d → str_replace (String c "") new (String d "") = String d "".
Proof. intros Hd. rewrite replace_char_cons. by rewrite bool_decide_false. Qed.

(** What a character becomes. *)
Definition esc (c : ascii) : string :=
  if bool_decide (c = "092"%char) then String "092" (String "092" "")
  else if bool_decide (c = "034"%char) then String "092" (String "034" "")
  else if bool_decide (c = "010"%char) then String "092" (String "n" "")
  else if bool_decide (c = "013"%char) then String "092" (String "r" "")
  else String c "".

Lemma escape_cons c s : escape_python_string (String c s) = esc c +:+ escape_python_string s.
Proof.
  unfold escape_python_string, backslash, carriage_return, newline, quote, esc.
  rewrite replace_char_cons, !replace_char_app. f_equal.
  destruct (decide (c = "092"%char)) as [->|H1]; [reflexivity|].
  rewrite (bool_decide_false ("092"%char = c)), (bool_decide_false (c = "092"%char)) by congruence.
  destruct (decide (c = "034"%char)) as [->|H2]; [reflexivity|]. rewrite (bool_decide_false (c = "034"%char)) by done.
  destruct (decide (c = "010"%char)) as [->|H3]; [reflexivity|]. rewrite (bool_decide_false (c = "010"%char)) by done.
  destruct (decide (c = "013"%char)) as [->|H4]; [reflexivity|]. rewrite (bool_decide_false (c = "013"%char)) by done.
  by rewrite !replace_char_other by congruence.
Qed.

(** The quotes of Python. *)
Definition is_quote (q : ascii) : Prop := q = "'"%char ∨ q = "034"%char.

(** A character that the escape leaves alone does not end the literal. *)
Definition safe_in (q c : ascii) : bool := bool_decide (q = "034"%char) || negb (bool_decide (c = q)).

Lemma py_read_esc q c s : is_quote q → safe_in q c = true → py_read q (esc c +:+ s) = push_char c (py_read q s).
Proof.
  intros Hq Hc. unfold esc.
  destruct (decide (c = "092"%char)) as [->|H1]; [by destruct Hq as [-> | ->]|]. rewrite (bool_decide_false (c = "092"%char)) by done.
  destruct (decide (c = "034"%char)) as [->|H2]; [by destruct Hq as [-> | ->]|]. rewrite (bool_decide_false (c = "034"%char)) by done.
  destruct (decide (c = "010"%char)) as [->|H3]; [by destruct Hq as [-> | ->]|]. rewrite (bool_decide_false (c = "010"%char)) by done.
  destruct (decide (c = "013"%char)) as [->|H4]; [by destruct Hq as [-> | ->]|]. rewrite (bool_decide_false (c = "013"%char)) by done.
  assert (c ≠ q) as Hcq.
  { intros ->. unfold safe_in in Hc. by rewrite (bool_decide_false (q = "034"%char)), (bool_decide_true (q = q)) in Hc. }
  change (String c "" +:+ s) with (String c s). cbn [py_read]. by rewrite !bool_decide_false by done.
Qed.

Lemma string_app_nil s : s +:+ "" = s.
Proof. induction s as [|c s IH]; [done|]. by rewrite <-IH at 2. Qed.

Lemma py_read_escape q a s : is_quote q → str_all (safe_in q) a = true →
  py_read q (escape_python_string a +:+ s) = (λ p, (a +:+ p.1, p.2)) <$> py_read q s.
Proof.
  intros Hq. induction a as [|c a IH]; intros Ha.
  { change (py_read q s = (λ p : string * string, (p.1, p.2)) <$> py_read q s). by destruct (py_read q s) as [[]|]. }
  cbn [str_all] in Ha. apply andb_true_iff in Ha as [Hc Ha]. rewrite escape_cons, string_app_assoc.
  rewrite py_read_esc, IH by done. by destruct (py_read q s).
Qed.

Lemma escape_app a b : escape_python_string (a +:+ b) = escape_python_string a +:+ escape_python_string b.
Proof. unfold escape_python_string, backslash, carriage_return, newline, quote. by rewrite !replace_char_app. Qed.

(** ** Texts of scripts *)

(** A text written with a back quote for the double quote. *)
Definition py (s : string) : string := str_map (λ c, if bool_decide (c = "`"%char) then "034"%char else c) s.

Definition cons_char (c : ascii) (r : option string) : option string := String c <$> r.

(** [format!]: [hole] is the name being read, doubled braces stand for themselves. *)
Fixpoint format_go (args : list (string * string)) (hole : option string) (s : string) : option string :=
  match s with
  | EmptyString => match hole with None => Some "" | Some _ => None end
  | String c rest =>
      match hole with
      | Some name =>
          if bool_decide (c = "}"%char) then
            match find (λ a, bool_decide (a.1 = name)) args with
            | Some a => (λ t, a.2 +:+ t) <$> format_go args None rest
            | None => None
            end
          else format_go args (Some (name +:+ String c "")) rest
      | None =>
          if bool_decide (c = "{"%char) then
            match rest with
            | String d rest' =>
                if bool_decide (d = "{"%char) then cons_char "{" (format_go args None rest')
                else format_go args (Some "") rest
            | EmptyString => None
            end
          else if bool_decide (c = "}"%char) then
            match rest with
            | String d rest' => if bool_decide (d = "}"%char) then cons_char "}" (format_go args None rest') else None
            | EmptyString => None
            end
          else cons_char c (format_go args None rest)
      end
  end.

(** The compiler refuses a template that names an argument it is not given. *)
Definition format (template : string) (args : list (string * string)) : string :=
  default "" (format_go args None template).
