(* ===== verification/IdatTheorems.v ===== *)
(** * What the compatibility worker guarantees

    It supports exactly the methods that it is registered with, runs nothing without an open
    database, and only opening and closing change the session.  The literals it puts into its
    scripts are read back by Python, unless the text has an apostrophe. *)

From Stdlib Require Import Ascii.
From stdpp Require Import base strings numbers list.
From S2P Require Import ToolTable ToolRegistry.
From S2P Require Import Prelude RustStr Json ToolError Runtime Protocol Parse Fs Serde WorkerMain IdatCompat PyText.

Open Scope ida_scope.

(** ** Literals *)

Definition no_apostrophe (s : string) : bool := str_all (safe_in "'") s.

(** Python reads the literal of a text without apostrophes as that text.  An apostrophe is
    not escaped: it ends the literal, and the rest of the text becomes part of the script. *)
Theorem python_literal_read_back (a b rest : string) (Ha : no_apostrophe a = true) :
  py_read "'" (escape_python_string a +:+ "'" +:+ rest) = Some (a, rest) ∧
  py_read "'" (escape_python_string (a +:+ "'" +:+ b) +:+ "'" +:+ rest) =
    Some (a, escape_python_string b +:+ "'" +:+ rest).
Proof.
  assert (∀ s, py_read "'" ("'" +:+ s) = Some ("", s)) as Hq by done.
  assert (is_quote "'") as Hquote by (by left).
  split.
  - rewrite py_read_escape, Hq by done. cbn [fmap option_fmap option_map fst snd]. by rewrite string_app_nil.
  - rewrite escape_app, string_app_assoc, py_read_escape by done. change ("'" +:+ b) with (String "'" b).
    rewrite escape_cons, string_app_assoc. change (esc "'") with "'". rewrite Hq.
    cbn [fmap option_fmap option_map fst snd]. by rewrite string_app_nil.
Qed.

Lemma python_literal_read_back_witness :
  py_read "'" (escape_python_string ("x" +:+ "'" +:+ "; import os #") +:+ "'" +:+ "") =
    Some ("x", "; import os #" +:+ "'").
Proof. destruct (python_literal_read_back "x" "; import os #" "") as [_ ->]; reflexivity. Defined.

(** ** Methods and sessions *)

Section worker.
Context {W : Type}.
Context (idat : Invocation → W → IdatRun * W).
Context (exists_ : string → W → bool) (create_dir_all : string → W → result unit string * W).
Context (parent : string → option string) (record_ : string → string → W → W) (store_path : string → string).
Context (json_parse : string → result Value string) (json_print : Value → result string string).
Context (de_message : DeError → string) (user_code : string → result string string).

#[local] Abbreviation table := (compat_table idat exists_ create_dir_all parent record_ store_path json_parse json_print de_message user_code).
#[local] Abbreviation arm_of := (compat_arm idat exists_ create_dir_all parent record_ store_path json_parse json_print de_message user_code).
#[local] Abbreviation dispatch := (dispatch_request idat exists_ create_dir_all parent record_ store_path json_parse json_print de_message user_code).

Lemma table_methods : List.map fst table ≡ₚ IDAT_COMPAT_METHODS.
Proof.
  apply NoDup_Permutation.
  - apply (bool_decide_unpack (NoDup (List.map fst table))). vm_compute. exact I.
  - apply (bool_decide_unpack (NoDup IDAT_COMPAT_METHODS)). vm_compute. exact I.
  - assert (H1 : Forall (λ m, m ∈ IDAT_COMPAT_METHODS) (List.map fst table)) by (apply (bool_decide_unpack _); vm_compute; exact I).
    assert (H2 : Forall (λ m, m ∈ List.map fst table) IDAT_COMPAT_METHODS) by (apply (bool_decide_unpack _); vm_compute; exact I).
    rewrite Forall_forall in H1, H2. intros m. split; [apply H1|apply H2].
Qed.

Lemma arm_of_spec m :
  match arm_of m with Some a => (m, a) ∈ table | None => m ∉ IDAT_COMPAT_METHODS end.
Proof.
  unfold compat_arm. destruct (find _ table) as [[m' a]|] eqn:Hf.
  - apply find_some in Hf as [Hin Hm]. apply bool_decide_eq_true in Hm as <-. by apply list_elem_of_In.
  - rewrite <-table_methods. intros Hin. apply list_elem_of_In, in_map_iff in Hin as ([m' a] & <- & Hin).
    apply (find_none _ _ Hf) in Hin. by rewrite bool_decide_true in Hin.
Qed.

(** A program that does nothing without a session, and one that leaves the session alone. *)
Definition needs_session {A} (m : Compat W A) : Prop :=
  ∀ s, cw_session s = None → ∃ e, m s = (Err e, s).
Definition keeps_session {A} (m : Compat W A) : Prop := ∀ s, cw_session (m s).2 = cw_session s.

Lemma needs_on_session {A} (f : string → Compat W A) : needs_session (on_session f).
Proof. intros s Hs. unfold on_session. rewrite Hs. by eexists. Qed.

Lemma needs_bind {A B} (m : Compat W A) (k : A → Compat W B) : needs_session m → needs_session (c_bind m k).
Proof. intros Hm s Hs. unfold c_bind. destruct (Hm s Hs) as [e ->]. by eexists. Qed.

Lemma needs_lift {A B} (r : result A ToolError) (k : A → Compat W B) :
  (∀ a, needs_session (k a)) → needs_session (c_bind (c_lift r) k).
Proof. intros Hk s Hs. unfold c_bind, c_lift. destruct r; [by apply Hk|by eexists]. Qed.

Lemma keeps_ret {A} (a : A) : keeps_session (c_ret a).
Proof. done. Qed.
Lemma keeps_lift {A} (r : result A ToolError) : keeps_session (c_lift r).
Proof. done. Qed.
Lemma keeps_bind {A B} (m : Compat W A) (k : A → Compat W B) :
  keeps_session m → (∀ a, keeps_session (k a)) → keeps_session (c_bind m k).
Proof. intros Hm Hk s. unfold c_bind. specialize (Hm s). destruct (m s) as [[a|e] s']; [by rewrite Hk|done]. Qed.
Lemma keeps_world {A} (f : W → A * W) : keeps_session (c_world f).
Proof. intros s. unfold c_world. by destruct (f (cw_world s)). Qed.
Lemma keeps_on_session {A} (f : string → Compat W A) : (∀ db, keeps_session (f db)) → keeps_session (on_session f).
Proof. intros Hf s. unfold on_session. destruct (cw_session s) eqn:Hs; [by rewrite Hf|done]. Qed.

Create HintDb compat.
#[local] Hint Resolve needs_on_session needs_bind needs_lift keeps_ret keeps_lift keeps_world : compat.
#[local] Hint Resolve keeps_bind keeps_on_session : compat.
#[local] Hint Extern 2 (needs_session (need_addr _ _ _)) => unfold need_addr : compat.
#[local] Hint Extern 2 (needs_session (need_str _ _ _)) => unfold need_str : compat.
#[local] Hint Extern 2 (needs_session (as_field _ _)) => unfold as_field : compat.

Ltac keeps :=
  repeat first [apply keeps_bind; [|intros ?] | apply keeps_on_session; intros ? | apply keeps_world
               | apply keeps_lift | apply keeps_ret | progress (unfold need_addr, need_str, as_field)
               | match goal with |- keeps_session ?m => let h := eval red in m in change (keeps_session h) end].

(** All rows but three work on the open database and keep it open. *)
Lemma rows_on_session :
  Forall (λ row, (row.1 = "open" ∨ row.1 = "close" ∨ row.1 = "shutdown") ∨
                 ∀ p, needs_session (row.2 p) ∧ keeps_session (row.2 p)) table.
Proof.
  unfold compat_table.
  do 3 (constructor; [left; cbn; tauto|]).
  constructor.
  { right. intros p. cbn [snd]. split; intros s; [intros Hs; rewrite Hs; by eexists|]. by destruct (cw_session s) eqn:Hs. }
  repeat (constructor; [right; intros p; cbn [snd]; split; [eauto 8 with compat|keeps]|]).
  constructor.
Qed.

(** The methods that the backend is registered with, as the router asks for them. *)
Lemma methods_primary : Forall (λ m, primary_name_for m = m) IDAT_COMPAT_METHODS.
Proof. apply (bool_decide_unpack _). vm_compute. exact I. Qed.

(** The compatibility worker has an arm for every method that its backend is registered
    with, under the name the router uses, and for no other: any other method is answered as
    not supported, without touching the session or running [idat]. *)
Theorem compat_methods_exact (req : RpcRequest) (s : CompatState W) :
  (∀ m, m ∈ supported_methods_for IdatCompat ↔ is_Some (arm_of m)) ∧
  (∀ m, m ∈ supported_methods_for IdatCompat → primary_name_for m = m) ∧
  (primary_name_for (req_method req) ∉ supported_methods_for IdatCompat →
   dispatch req s =
     (RpcResponse_err (req_id req) (-32000)
        (error_to_string (NotSupported ("backend idat-compat does not support method " +:+
                                        primary_name_for (req_method req)))), s)).
Proof.
  assert (Hiff : ∀ m, m ∈ supported_methods_for IdatCompat ↔ is_Some (arm_of m)).
  { intros m. cbn [supported_methods_for]. pose proof (arm_of_spec m) as Hm. destruct (arm_of m) as [a|].
    - split; [by eexists|]. intros _. rewrite <-table_methods. apply list_elem_of_In, in_map_iff.
      exists (m, a). split; [done|by apply list_elem_of_In].
    - split; [done|by intros []]. }
  split; [exact Hiff|]. split; [apply Forall_forall, methods_primary|].
  intros Hno. unfold dispatch_request. destruct (arm_of _) as [a|] eqn:Ha; [|done].
  destruct Hno. apply Hiff. by rewrite Ha.
Qed.

(** A program that sets the session to what it returns, or fails and keeps the session. *)
Definition opens (m : Compat W (Struct DbInfoFields)) : Prop := ∀ s,
  match (m s).1 with
  | Ok info => ∃ db, cw_session (m s).2 = Some {| cs_database_path := db; cs_info := info |}
  | Err _ => cw_session (m s).2 = cw_session s
  end.

Lemma opens_bind {A} (m : Compat W A) (k : A → Compat W (Struct DbInfoFields)) :
  keeps_session m → (∀ a, opens (k a)) → opens (c_bind m k).
Proof.
  intros Hm Hk s. unfold c_bind. specialize (Hm s). destruct (m s) as [[a|e] s']; [|done].
  specialize (Hk a s'). destruct (k a s') as [[i|e] s'']; cbn in *; [done|congruence].
Qed.

Lemma opens_set db info : opens (c_bind (set_session (Some {| cs_database_path := db; cs_info := info |})) (λ _, c_ret info)).
Proof. intros s. by exists db. Qed.

Lemma opens_lift e : opens (c_lift (Err e)).
Proof. done. Qed.

Lemma keeps_existing hint : keeps_session (existing_database_path exists_ hint).
Proof. done. Qed.
Lemma keeps_exists path : keeps_session (c_exists exists_ path).
Proof. done. Qed.
Lemma keeps_inspect db : keeps_session (inspect_database idat json_parse de_message db).
Proof. keeps. Qed.
Lemma keeps_create input db :
  keeps_session (create_or_open_database idat exists_ create_dir_all parent json_parse de_message input db).
Proof.
  unfold create_or_open_database. apply keeps_bind; [apply keeps_existing|]. intros [existing|]; [apply keeps_inspect|].
  apply keeps_bind; [destruct (parent db); keeps|]. intros created. apply keeps_bind; [apply keeps_lift|]. intros _.
  apply keeps_bind; [keeps|]. intros out. apply keeps_bind; [apply keeps_existing|]. intros found. keeps.
Qed.

Lemma open_opens path : opens (open idat exists_ create_dir_all parent record_ store_path json_parse de_message path).
Proof.
  unfold open. apply opens_bind; [apply keeps_exists|]. intros [|]; cbn [negb]; [|apply opens_lift].
  destruct (is_database_path path).
  - apply opens_bind; [apply keeps_inspect|]. intros info. apply opens_set.
  - apply opens_bind; [apply keeps_existing|]. intros found. apply opens_bind; [apply keeps_create|]. intros info.
    apply opens_bind; [apply keeps_existing|]. intros found'. apply opens_bind; [apply keeps_exists|]. intros ex.
    apply opens_bind; [destruct ex; keeps|]. intros _. apply opens_set.
Qed.

Lemma arm_open :
  arm_of "open" = Some (λ p, c_bind (open idat exists_ create_dir_all parent record_ store_path json_parse de_message
                                       (default "" (p_str p "path"))) (λ info, c_ret (ser_struct DbInfoFields info))).
Proof. reflexivity. Qed.
Lemma arm_close m : m = "close" ∨ m = "shutdown" → arm_of m = Some close_session.
Proof. by intros [->| ->]. Qed.

(** C40: The session of the compatibility worker.  Only opening and closing change it; a failed
    open keeps the database that was open; without one every other request is refused and
    [idat] is not run. *)
Theorem compat_session_discipline (req : RpcRequest) (s : CompatState W) :
  let m := primary_name_for (req_method req) in
  let '(resp, s') := dispatch req s in
  resp_id resp = req_id req ∧
  (m ≠ "open" → m ≠ "close" → m ≠ "shutdown" →
     cw_session s' = cw_session s ∧ (cw_session s = None → is_Some (resp_error resp) ∧ s' = s)) ∧
  (m = "close" ∨ m = "shutdown" → cw_session s' = None ∧ cw_world s' = cw_world s ∧ resp_error resp = None) ∧
  (m = "open" →
     match resp_error resp with
     | Some _ => cw_session s' = cw_session s
     | None => ∃ db info, cw_session s' = Some {| cs_database_path := db; cs_info := info |} ∧
                          resp_result resp = Some (ser_struct DbInfoFields info)
     end).
Proof.
  intros m. unfold dispatch_request. fold m. pose proof (arm_of_spec m) as Harm.
  destruct (arm_of m) as [a|] eqn:Ha.
  2: { split; [done|]. split; [intros; split; [done|]; intros; split; [by eexists|done]|].
       split; [intros [Hm|Hm]|intros Hm]; destruct Harm; rewrite Hm; apply (bool_decide_unpack _); vm_compute; exact I. }
  destruct (a (req_params req) s) as [r s'] eqn:Hr. split; [by destruct r|]. split; [|split].
  - intros Ho Hc Hs. pose proof rows_on_session as Hrows. rewrite Forall_forall in Hrows.
    destruct (Hrows _ Harm) as [[|[|]]|Hrow]; [done..|]. destruct (Hrow (req_params req)) as [Hneed Hkeep].
    specialize (Hkeep s). cbn in Hkeep. rewrite Hr in Hkeep. split; [done|]. intros Hn.
    destruct (Hneed s Hn) as [e He]. cbn in He. rewrite Hr in He. injection He as -> ->. split; [by eexists|done].
  - intros Hm. rewrite arm_close in Ha by done. injection Ha as <-. cbn in Hr. by injection Hr as <- <-.
  - intros Hm. rewrite Hm, arm_open in Ha. injection Ha as <-. unfold c_bind in Hr.
    pose proof (open_opens (default "" (p_str (req_params req) "path")) s) as Hopen.
    destruct (open _ _ _ _ _ _ _ _ _ s) as [[info|e] s1]; cbn in Hr; injection Hr as <- <-; cbn in *; [|done].
    destruct Hopen as [db Hdb]. by exists db, info.
Qed.

(** The compatibility worker answers the same lines with the same ids as the native one:
    one response per line that is not blank, in order, up to the first shutdown. *)
Theorem compat_one_response_per_line (read_request : string → result RpcRequest string) (input : list ReadLine)
    (s : CompatState W) :
  resp_id <$> (run_worker idat exists_ create_dir_all parent record_ store_path json_parse json_print de_message
                 user_code read_request input s).1 = expected_ids read_request input.
Proof.
  revert s. induction input as [|[text| |] input IH]; intros s; [done| |done|done].
  cbn [run_worker expected_ids]. case_bool_decide; [apply IH|]. destruct (read_request (trim text)) as [req|e].
  - assert (resp_id (dispatch req s).1 = req_id req) as Hid.
    { unfold dispatch_request. by destruct (match arm_of _ with Some _ => _ | None => _ end) as [[|] ?]. }
    destruct (dispatch req s) as [resp s']. cbn [fst] in Hid. case_bool_decide; [by cbn; rewrite Hid|].
    specialize (IH s'). destruct (run_worker _ _ _ _ _ _ _ _ _ _ _ input s') as [out s''].
    cbn [fst] in IH |- *. by rewrite fmap_cons, IH, Hid.
  - specialize (IH s). destruct (run_worker _ _ _ _ _ _ _ _ _ _ _ input s) as [out s''].
    cbn [fst] in IH |- *. by rewrite fmap_cons, IH.
Qed.
End worker.
