(* ===== verification/HttpSessions.v ===== *)
(** * Shared sessions of the local server (src/server/mod.rs: open_idb and close_idb without a
    router; src/ida/worker.rs: DbRefTracker)

    Over HTTP several clients share one database.  Every [open_idb] issues a token, [close_idb]
    gives one back, and the last one closes the database.  The worker is an interface that
    [OpenDatabase] implements.  First the tools one after the other, then their steps
    interleaved. *)

From Stdlib Require Import Ascii.
From stdpp Require Import base gmap strings numbers relations list.
From S2P Require Import Prelude RustStr Json ToolError Fs IdbStore Router McpLock OpenDatabase LoopArms.

(** ** Reference tokens *)

Record DbRefTracker : Type := { tokens : gset string; nonce : Z }.

Definition tracker_new : DbRefTracker := {| tokens := ∅; nonce := 0 |}.

(** [format!("{now:x}-{pid:x}-{nonce:x}")]; [fetch_add] wraps. *)
Definition token_text (now pid n : Z) : string := fmt_hex now +:+ "-" +:+ fmt_hex pid +:+ "-" +:+ fmt_hex n.

Definition issue_token (now pid : Z) (t : DbRefTracker) : string * DbRefTracker :=
  let token := token_text now pid (nonce t) in
  (token, {| tokens := {[token]} ∪ tokens t; nonce := wrap64 (nonce t + 1) |}).

Definition release_token (token : string) (t : DbRefTracker) : option nat * DbRefTracker :=
  if bool_decide (token ∈ tokens t) then
    let rest := tokens t ∖ {[token]} in
    (Some (size rest), {| tokens := rest; nonce := nonce t |})
  else (None, t).

Definition clear_all (t : DbRefTracker) : DbRefTracker := {| tokens := ∅; nonce := nonce t |}.

(** ** The worker, as the tools use it *)

Record OpenArgs : Type := {
  oa_path : string;
  oa_load_debug_info : bool;
  oa_debug_info_path : option string;
  oa_debug_info_verbose : bool;
  oa_file_type : option string
}.

Class SessionWorker (W : Type) : Type := {
  sw_open : OpenArgs → W → result Value ToolError * W;
  sw_close : W → result unit ToolError * W;
  sw_is_open : W → bool;
  sw_open_ok : ∀ a w v w', sw_open a w = (Ok v, w') → sw_is_open w' = true;
  sw_open_keeps : ∀ a w, sw_is_open w = true → sw_is_open (sw_open a w).2 = true;
  sw_close_ok : ∀ w w', sw_close w = (Ok tt, w') → sw_is_open w' = false
}.

(** ** The tools *)

(** The two local modes; the router has tools of its own. *)
Inductive LocalMode : Type := Stdio | Http.

Definition close_hint (mode : LocalMode) : string :=
  match mode with
  | Stdio => "Call close_idb when done to release locks for other sessions."
  | Http => "In multi-client (HTTP/SSE) mode, close_idb requires the close_token returned by open_idb; each opener holds one reference, database closes when all references are released."
  end.

(** [validate_path], on what the file system says of a path. *)
Definition validate_path (home : option string) (exists_ is_file : string → bool) (path : string) : bool :=
  let path := trim path in
  let check expanded := exists_ expanded && is_file expanded && negb (contains ".." path) in
  match strip_prefix "~/" path with
  | Some stripped =>
      match home with
      | Some h => check (if starts_with "/" stripped then stripped else path_join h stripped)
      | None => false
      end
  | None => check path
  end.

Definition quick_tools : Value :=
  Array (VString <$> ["list_functions"; "get_function_by_name"; "disassemble_function"; "decompile_function";
                      "get_xrefs_to"; "list_strings"; "close_idb"]).

(** [map.insert] on the object that the worker returned. *)
Definition insert_key (k : string) (v : Value) (o : Value) : Value :=
  match o with Object m => Object (obj_insert k v m) | _ => o end.

Section tools.
Context {W : Type} `{!SessionWorker W}.
Context (home : option string) (exists_ is_file : string → bool) (pretty : Value → string) (pid : Z).

Record Server : Type := { srv_refs : DbRefTracker; srv_worker : W }.

(** [open_idb]; [now] is the clock when the token is made.  The token is also returned. *)
Definition open_idb (mode : LocalMode) (now : Z) (a : OpenArgs) (s : Server) : CallToolResult * option string * Server :=
  if negb (validate_path home exists_ is_file (oa_path a)) then (to_tool_result (InvalidPath (oa_path a)), None, s)
  else
    match sw_open a (srv_worker s) with
    | (Err e, w) => (to_tool_result e, None, {| srv_refs := srv_refs s; srv_worker := w |})
    | (Ok info, w) =>
        let '(close_token, refs) :=
          match mode with
          | Http => let '(t, refs) := issue_token now pid (srv_refs s) in (Some t, refs)
          | Stdio => (None, srv_refs s)
          end in
        let value := insert_key "close_hint" (VString (close_hint mode)) (insert_key "quick_tools" quick_tools info) in
        let value := match close_token with Some t => insert_key "close_token" (VString t) value | None => value end in
        (success (pretty value), close_token, {| srv_refs := refs; srv_worker := w |})
    end.

(** The end of [close_idb]: close, and forget the references when it worked. *)
Definition close_now (s : Server) : CallToolResult * Server :=
  match sw_close (srv_worker s) with
  | (Ok tt, w) => (success "Database closed", {| srv_refs := clear_all (srv_refs s); srv_worker := w |})
  | (Err e, w) => (to_tool_result e, {| srv_refs := srv_refs s; srv_worker := w |})
  end.

Definition close_idb (mode : LocalMode) (token : option string) (s : Server) : CallToolResult * Server :=
  match mode with
  | Stdio => close_now s
  | Http =>
      match token with
      | None => (success "close_idb ignored: close_token required in HTTP mode", s)
      | Some t =>
          match release_token t (srv_refs s) with
          | (None, _) => (success "close_idb: invalid or expired token", s)
          | (Some 0, refs) => close_now {| srv_refs := refs; srv_worker := srv_worker s |}
          | (Some remaining, refs) =>
              (success ("Reference released (" +:+ fmt_dec (Z.of_nat remaining) +:+
                        " client(s) still active, database remains open)"),
               {| srv_refs := refs; srv_worker := srv_worker s |})
          end
      end
  end.
End tools.

Arguments Server : clear implicits.

(** ** [OpenDatabase] is such a worker *)

Section instance.
Context `{Idalib} `{OpenEnv} `{HashOrder} `{StoreEnv}.

Definition loop_open (a : OpenArgs) (s : LoopVars * World) : result Value ToolError * (LoopVars * World) :=
  let '(r, v, w) := handle_open (oa_path a) (oa_load_debug_info a) (oa_debug_info_path a) (oa_debug_info_verbose a)
                      (oa_file_type a) true [] s.1 s.2 in
  (match r with Ok i => Ok (db_info_value i) | Err e => Err e end, (v, w)).

Definition loop_close (s : LoopVars * World) : result unit ToolError * (LoopVars * World) :=
  (Ok tt, handle_close s.1 s.2).

Definition loop_is_open (s : LoopVars * World) : bool := match idb s.1 with Some _ => true | None => false end.

Lemma handle_open_open p ldi dip div ft aa ea v w info v' w' :
  handle_open p ldi dip div ft aa ea v w = (Ok info, v', w') → is_Some (idb v').
Proof.
  unfold handle_open. destruct (idb v) as [db|] eqn:Hv.
  { case_bool_decide; [|done]. intros [= _ <- _]. by rewrite Hv. }
  destruct (negb _); [done|]. destruct (acquire_lock_at _ _) as [[f|e] w2]; [|done].
  destruct (open_backend _ _ _ _ _ _ _) as [[db|e] opened]; [|by destruct (detect_db_lock _ _)].
  destruct (debug_info_of _ _ _ _ _ _ _ _) as [di w3]. intros [= _ <- _]. by eexists.
Qed.

#[export] Program Instance loop_worker : SessionWorker (LoopVars * World) :=
  {| sw_open := loop_open; sw_close := loop_close; sw_is_open := loop_is_open |}.
Next Obligation.
  intros a [v w] x [v' w']. unfold loop_open, loop_is_open. cbn [fst snd].
  destruct (handle_open _ _ _ _ _ _ _ v w) as [[[i|e] v1] w1] eqn:Ho; [|done]. intros [= _ <- <-].
  apply handle_open_open in Ho as [db ->]. done.
Qed.
Next Obligation.
  intros a [v w]. unfold loop_open, loop_is_open. cbn [fst snd]. destruct (idb v) as [db|] eqn:Hv; [|done]. intros _.
  unfold handle_open. rewrite Hv. case_bool_decide; cbn; by rewrite Hv.
Qed.
Next Obligation.
  intros [v w] s'. unfold loop_close, loop_is_open, handle_close, release_vars. cbn [fst snd]. intros [= <-].
  by repeat case_match.
Qed.
End instance.

(** * What shared sessions guarantee, and where they fail

    One tool at a time: the database is open as long as somebody holds a token, tokens are fresh,
    and the last one closes the database.  Interleaved, a client can lose its database or its
    token while another closes. *)

(** ** Tokens are fresh *)

Lemma token_text_inj now pid n now' pid' n' :
  (0 ≤ n)%Z → (0 ≤ n')%Z → token_text now pid n = token_text now' pid' n' → n = n'.
Proof.
  intros Hn Hn' Heq. unfold token_text in Heq. rewrite <-!string_app_assoc in Heq.
  rewrite !(string_app_assoc (_ +:+ _) "-" (fmt_hex _)) in Heq.
  apply (f_equal (λ s, List.last (split_on is_dash s) "")) in Heq.
  change ("-" +:+ ?x) with (String "-" x) in Heq.
  rewrite !last_split_on, !split_on_none in Heq by (done || apply fmt_hex_no_dash).
  eapply fmt_radix_inj; [| | |exact Heq]; lia.
Qed.

(** Every token in use has a number below the counter. *)
Definition tracker_wf (t : DbRefTracker) : Prop :=
  (0 ≤ nonce t ≤ u64_max)%Z ∧
  ∀ x, x ∈ tokens t → ∃ now pid n, x = token_text now pid n ∧ (0 ≤ n < nonce t)%Z.

Lemma issue_fresh now pid t : tracker_wf t → (issue_token now pid t).1 ∉ tokens t.
Proof.
  intros [Hn Hwf] Hin. apply Hwf in Hin as (now' & pid' & n & Heq & Hlt).
  apply token_text_inj in Heq; lia.
Qed.

Lemma issue_wf now pid t : tracker_wf t → (nonce t < u64_max)%Z → tracker_wf (issue_token now pid t).2.
Proof.
  intros [Hn Hwf] Hlt. assert (wrap64 (nonce t + 1) = nonce t + 1)%Z as Hw
    by (unfold wrap64; apply Z.mod_small; unfold u64_max in *; lia).
  split; cbn [issue_token snd nonce tokens]; rewrite Hw; [lia|].
  intros x [->%elem_of_singleton|Hx]%elem_of_union; [exists now, pid, (nonce t); split; [done|lia]|].
  apply Hwf in Hx as (now' & pid' & n & -> & Hlt'). exists now', pid', n. split; [done|lia].
Qed.

Lemma release_wf x t : tracker_wf t → tracker_wf (release_token x t).2.
Proof.
  intros [Hn Hwf]. unfold release_token. case_bool_decide; [|by split]. split; [done|]. cbn. set_solver.
Qed.

Lemma release_tokens x t : tokens (release_token x t).2 = tokens t ∖ {[x]}.
Proof. unfold release_token. case_bool_decide; [done|]. cbn. set_solver. Qed.

(** ** One tool at a time *)

Section sequential.
Context {W : Type} `{!SessionWorker W}.
Context (home : option string) (exists_ is_file : string → bool) (pretty : Value → string) (pid : Z).

#[local] Abbreviation do_open := (open_idb home exists_ is_file pretty pid Http).
#[local] Abbreviation do_close := (close_idb Http).

(** The database is open while there are references. *)
Definition referenced_open (s : Server W) : Prop :=
  tokens (srv_refs s) ≠ ∅ → sw_is_open (srv_worker s) = true.

Definition server_inv (s : Server W) : Prop := referenced_open s ∧ tracker_wf (srv_refs s).

Lemma close_now_refs (s : Server W) : tokens (srv_refs s) = ∅ → tokens (srv_refs (close_now s).2) = ∅.
Proof. unfold close_now. by destruct (sw_close (srv_worker s)) as [[[]|] w]. Qed.

Lemma close_now_wf (s : Server W) : tracker_wf (srv_refs s) → tracker_wf (srv_refs (close_now s).2).
Proof.
  intros Hwf. unfold close_now. destruct (sw_close (srv_worker s)) as [[[]|] w]; [|done].
  destruct Hwf as [Hn _]. split; [done|]. cbn. set_solver.
Qed.

(** What closing does to the references and to the worker. *)
Lemma close_cases tok (s : Server W) :
  (srv_refs (do_close (Some tok) s).2 = srv_refs s ∧ srv_worker (do_close (Some tok) s).2 = srv_worker s ∧
     tok ∉ tokens (srv_refs s)) ∨
  (tok ∈ tokens (srv_refs s) ∧ tokens (srv_refs s) ∖ {[tok]} ≠ ∅ ∧
     do_close (Some tok) s = ((do_close (Some tok) s).1, {| srv_refs := (release_token tok (srv_refs s)).2; srv_worker := srv_worker s |})) ∨
  (tok ∈ tokens (srv_refs s) ∧ tokens (srv_refs s) ∖ {[tok]} = ∅ ∧
     do_close (Some tok) s = close_now {| srv_refs := (release_token tok (srv_refs s)).2; srv_worker := srv_worker s |}).
Proof.
  unfold close_idb, release_token. case_bool_decide as Hin; [right|by left].
  destruct (size (tokens (srv_refs s) ∖ {[tok]})) as [|n] eqn:Hsize.
  - right. by apply size_empty_iff, leibniz_equiv in Hsize.
  - left. split_and!; [done| |done]. intros He. by rewrite He, size_empty in Hsize.
Qed.

End sequential.

(** ** Interleaved *)

(** The tools as their steps between two awaits: [i_opened] clients whose open has succeeded and
    who have no token yet, [i_closing] clients who gave back the last token and wait for the
    worker, [i_clearing] clients whose close has succeeded and who are about to clear the
    references.  [i_held] are the tokens that clients have got and not given back. *)
Record Interleaved (W : Type) : Type := {
  i_server : Server W;
  i_opened : nat;
  i_closing : nat;
  i_clearing : nat;
  i_held : gset string
}.
Arguments i_server {W} _.
Arguments i_opened {W} _.
Arguments i_closing {W} _.
Arguments i_clearing {W} _.
Arguments i_held {W} _.
Arguments Build_Interleaved {W} _ _ _ _ _.

Section interleaved.
Context {W : Type} `{!SessionWorker W} (pid : Z).

Definition set_worker (w : W) (s : Server W) : Server W := {| srv_refs := srv_refs s; srv_worker := w |}.
Definition set_refs (r : DbRefTracker) (s : Server W) : Server W := {| srv_refs := r; srv_worker := srv_worker s |}.

Inductive http_step : Interleaved W → Interleaved W → Prop :=
| step_open s o c k h a v w :
    sw_open a (srv_worker s) = (Ok v, w) →
    http_step (Build_Interleaved s o c k h) (Build_Interleaved (set_worker w s) (S o) c k h)
| step_open_failed s o c k h a e w :
    sw_open a (srv_worker s) = (Err e, w) →
    http_step (Build_Interleaved s o c k h) (Build_Interleaved (set_worker w s) o c k h)
| step_issue s o c k h now t refs :
    issue_token now pid (srv_refs s) = (t, refs) →
    http_step (Build_Interleaved s (S o) c k h) (Build_Interleaved (set_refs refs s) o c k ({[t]} ∪ h))
| step_release s o c k h t n refs :
    release_token t (srv_refs s) = (Some (S n), refs) →
    http_step (Build_Interleaved s o c k h) (Build_Interleaved (set_refs refs s) o c k (h ∖ {[t]}))
| step_release_last s o c k h t refs :
    release_token t (srv_refs s) = (Some 0, refs) →
    http_step (Build_Interleaved s o c k h) (Build_Interleaved (set_refs refs s) o (S c) k (h ∖ {[t]}))
| step_close s o c k h w :
    sw_close (srv_worker s) = (Ok tt, w) →
    http_step (Build_Interleaved s o (S c) k h) (Build_Interleaved (set_worker w s) o c (S k) h)
| step_close_failed s o c k h e w :
    sw_close (srv_worker s) = (Err e, w) →
    http_step (Build_Interleaved s o (S c) k h) (Build_Interleaved (set_worker w s) o c k h)
| step_clear s o c k h :
    http_step (Build_Interleaved s o c (S k) h) (Build_Interleaved (set_refs (clear_all (srv_refs s)) s) o c k h).

Definition http_start (w : W) : Interleaved W :=
  Build_Interleaved {| srv_refs := tracker_new; srv_worker := w |} 0 0 0 ∅.

Definition quiet (s : Interleaved W) : Prop := i_opened s = 0 ∧ i_closing s = 0 ∧ i_clearing s = 0.

(** Tokens are only ever valid in the hands of a client. *)
Lemma valid_tokens_held s s' : http_step s s' →
  tokens (srv_refs (i_server s)) ⊆ i_held s → tokens (srv_refs (i_server s')) ⊆ i_held s'.
Proof.
  intros Hstep Hsub. destruct Hstep; cbn in *; try set_solver.
  - match goal with H : issue_token _ _ _ = _ |- _ => injection H as <- <- end. cbn. set_solver.
  - match goal with H : release_token ?t ?r = _ |- _ => pose proof (release_tokens t r) as Ht; rewrite H in Ht end.
    cbn in *. set_solver.
  - match goal with H : release_token ?t ?r = _ |- _ => pose proof (release_tokens t r) as Ht; rewrite H in Ht end.
    cbn in *. set_solver.
Qed.

(** The execution of the race: [t1] is the first client's token, [t2] the second one's. *)
Lemma race_execution a v v' w w1 w1' w2 (Hopen : sw_open a w = (Ok v, w1)) (Hagain : sw_open a w1 = (Ok v', w1'))
    (Hclose : sw_close w1' = (Ok tt, w2)) :
  let t2 := token_text 0 pid 1 in
  ∃ refs refs', tokens refs = {[t2]} ∧ tokens refs' = ∅ ∧
    rtc http_step (http_start w) (Build_Interleaved {| srv_refs := refs; srv_worker := w2 |} 0 0 1 {[t2]}) ∧
    rtc http_step (http_start w) (Build_Interleaved {| srv_refs := refs'; srv_worker := w2 |} 0 0 0 {[t2]}).
Proof.
  intros t2. set (t1 := token_text 0 pid 0).
  assert (t1 ≠ t2) as Hne by (intros Heq%token_text_inj; lia).
  set (r1 := {| tokens := {[t1]} ∪ ∅; nonce := 1 |}). set (r2 := {| tokens := ({[t1]} ∪ ∅) ∖ {[t1]}; nonce := 1 |}).
  set (r3 := {| tokens := {[t2]} ∪ (({[t1]} ∪ ∅) ∖ {[t1]}); nonce := 2 |}).
  assert (({[t1]} ∪ ∅) ∖ {[t1]} = (∅ : gset string)) as He by set_solver.
  assert (rtc http_step (http_start w) (Build_Interleaved {| srv_refs := r3; srv_worker := w2 |} 0 0 1 {[t2]})) as Hrun.
  { eapply rtc_l; [by eapply step_open|]. eapply rtc_l; [by eapply (step_issue _ _ _ _ _ 0 t1 r1)|].
    eapply rtc_l; [eapply (step_release_last _ _ _ _ _ t1 r2)|].
    { unfold release_token. cbn. rewrite bool_decide_true by set_solver. unfold r2. rewrite He. by rewrite size_empty. }
    eapply rtc_l; [by eapply step_open|]. eapply rtc_l; [by eapply (step_issue _ _ _ _ _ 0 t2 r3)|].
    eapply rtc_l; [by eapply step_close|]. cbn.
    replace ({[t2]} ∪ ({[t1]} ∪ ∅) ∖ {[t1]}) with ({[t2]} : gset string) by set_solver. apply rtc_refl. }
  exists r3, (clear_all r3). split_and!; [cbn; set_solver|done|done|].
  eapply rtc_r; [exact Hrun|]. apply (step_clear {| srv_refs := r3; srv_worker := w2 |} 0 0 0 {[t2]}).
Qed.

(** Between the release of the last token and the closing that it starts, another client may
    open the database and get a token; the closing then takes the database away from that
    client, and clears its token although it never gave it back. *)
Theorem close_race_takes_database (a : OpenArgs) (v v' : Value) (w w1 w1' w2 : W)
    (Hopen : sw_open a w = (Ok v, w1)) (Hagain : sw_open a w1 = (Ok v', w1')) (Hclose : sw_close w1' = (Ok tt, w2)) :
  (∃ s, rtc http_step (http_start w) s ∧ tokens (srv_refs (i_server s)) ≠ ∅ ∧
        sw_is_open (srv_worker (i_server s)) = false) ∧
  (∃ s, rtc http_step (http_start w) s ∧ quiet s ∧ i_held s ≠ ∅ ∧ tokens (srv_refs (i_server s)) = ∅ ∧
        sw_is_open (srv_worker (i_server s)) = false).
Proof.
  destruct (race_execution a v v' w w1 w1' w2 Hopen Hagain Hclose) as (refs & refs' & Ht & Ht' & H1 & H2).
  pose proof (sw_close_ok _ _ Hclose) as Hc.
  split.
  - eexists. split; [exact H1|]. cbn. rewrite Ht. split; [apply non_empty_singleton_L|done].
  - eexists. split; [exact H2|]. cbn. rewrite Ht'. split; [done|]. split; [apply non_empty_singleton_L|done].
Qed.
End interleaved.

(** ** A concrete server *)

#[local] Existing Instances sample_idalib sample_open_env sample_store_env sample_hash_order.

Definition sample_args : OpenArgs :=
  {| oa_path := "/tmp/a.i64"; oa_load_debug_info := false; oa_debug_info_path := None; oa_debug_info_verbose := false;
     oa_file_type := None |}.

Definition sample_server : Server (LoopVars * World) :=
  {| srv_refs := tracker_new; srv_worker := (sample_vars, sample_world) |}.


Lemma close_race_takes_database_witness :
  ∃ s, rtc (http_step 7) (http_start (sample_vars, sample_world)) s ∧ i_held s ≠ ∅ ∧
       sw_is_open (srv_worker (i_server s)) = false.
Proof.
  destruct (close_race_takes_database 7 sample_args
    (match (sw_open sample_args (sample_vars, sample_world)).1 with Ok v => v | Err _ => Null end)
    (match (sw_open sample_args (sw_open sample_args (sample_vars, sample_world)).2).1 with Ok v => v | Err _ => Null end)
    (sample_vars, sample_world) (sw_open sample_args (sample_vars, sample_world)).2
    (sw_open sample_args (sw_open sample_args (sample_vars, sample_world)).2).2
    (sw_close (sw_open sample_args (sw_open sample_args (sample_vars, sample_world)).2).2).2)
    as [_ (s & H1 & _ & H2 & _ & H3)]; [vm_compute; reflexivity..|].
  exists s. split; [exact H1|]. split; [exact H2|exact H3].
Defined.
