(* ===== verification/OpenPath.v ===== *)
(** * What file a worker opens (src/router/mod.rs: resolve_open_path, is_sbpf_elf,
    resolve_sbpf_path)

    The router's environment gives [e_resolve] and [e_is_sbpf] as observations; here they are
    computed from the files, the store and the compiler of sBPF programs. *)

From Stdlib Require Import Ascii.
From stdpp Require Import base strings numbers list.
From S2P Require Import Prelude RustStr ToolError Fs IdbStore Router.

Open Scope ida_scope.

Section open_path.
Context `{HashOrder} `{StoreEnv}.
Context (home : option string) (exists_ : string → bool) (contents : string → option (list Z)).
(** The store's lookup, its root, and [run_sbx_aot_i64] with the path it has written *)
Context (store_lookup : string → option string) (store_root : string).
Context (run_sbx : string → string → result string ToolError).

Definition ELF_MAGIC : list Z := [127; 69; 76; 70]%Z.
Definition EM_BPF : Z := 247.
Definition EM_SBF : Z := 263.

(** [read_exact] of twenty bytes, then the magic and the machine in little-endian order. *)
Definition is_sbpf_elf (path : string) : bool :=
  match contents path with
  | None => false
  | Some bytes =>
      let header := take 20 bytes in
      if length header <? 20 then false
      else if negb (bool_decide (take 4 header = ELF_MAGIC)) then false
      else
        let machine := (nth 18 header 0 + 256 * nth 19 header 0)%Z in
        (machine =? EM_BPF)%Z || (machine =? EM_SBF)%Z
  end.

Definition resolve_sbpf_path (input i64_path : string) : option string :=
  if exists_ i64_path then Some i64_path
  else match run_sbx input i64_path with Ok p => Some p | Err _ => None end.

Definition resolve_open_path (path : string) : ResolvedPath :=
  let input := expand_home home path in
  let ext := default "" (file_name input ≫= extension) in
  if bool_decide (ext = "i64") || bool_decide (ext = "idb") then {| open_path := None; idb_output_path := None |}
  else
    match store_lookup input with
    | Some cached => {| open_path := Some cached; idb_output_path := None |}
    | None =>
        if is_sbpf_elf input then
          match resolve_sbpf_path input (idb_path store_root input) with
          | Some p => {| open_path := Some p; idb_output_path := None |}
          | None => {| open_path := None; idb_output_path := None |}
          end
        else if exists_ (with_extension "i64" input)
        then {| open_path := Some (with_extension "i64" input); idb_output_path := None |}
        else if exists_ (with_extension "id0" input)
        then {| open_path := Some input; idb_output_path := None |}
        else {| open_path := None; idb_output_path := Some (idb_path store_root input) |}
    end.

(** ** Properties *)

(** What a header is tested for: the bytes 247 0 or 7 1 at offset 18. *)
Lemma is_sbpf_elf_spec path bytes : contents path = Some bytes → Forall (λ b, 0 ≤ b < 256)%Z bytes →
  is_sbpf_elf path = true ↔
  take 4 bytes = ELF_MAGIC ∧
  ((bytes !! 18 = Some 247%Z ∧ bytes !! 19 = Some 0%Z) ∨ (bytes !! 18 = Some 7%Z ∧ bytes !! 19 = Some 1%Z)).
Proof.
  intros Hc Hb. unfold is_sbpf_elf. rewrite Hc, length_take, take_take. change (4 `min` 20) with 4.
  destruct (Nat.ltb_spec (20 `min` length bytes) 20) as [Hlt|Hge].
  { split; [done|]. intros [_ [[_ H19]|[_ H19]]]; apply lookup_lt_Some in H19; lia. }
  case_bool_decide as Hm; cbn [negb]; [|naive_solver].
  destruct (lookup_lt_is_Some_2 bytes 18) as [x Hx]; [lia|]. destruct (lookup_lt_is_Some_2 bytes 19) as [y Hy]; [lia|].
  assert (nth 18 (take 20 bytes) 0%Z = x ∧ nth 19 (take 20 bytes) 0%Z = y) as [-> ->].
  { rewrite !nth_lookup, !lookup_take_lt, Hx, Hy by lia. done. }
  pose proof (Forall_lookup_1 _ _ _ _ Hb Hx). pose proof (Forall_lookup_1 _ _ _ _ Hb Hy). cbn in *.
  rewrite Hx, Hy, orb_true_iff, !Z.eqb_eq. unfold EM_BPF, EM_SBF. split.
  - intros Hmach. split; [done|]. destruct (decide (y = 0))%Z; [left; split; f_equal; lia|right; split; f_equal; lia].
  - intros [_ [[[= ->] [= ->]]|[[= ->] [= ->]]]]; lia.
Qed.

(** The file to open is decided in order: a database is opened as it is, then a database of
    the store, then the compiled form of an sBPF program, then a database beside the binary;
    only a binary with none of these is analysed afresh, into the store, and only then is an
    output path given. *)
Theorem resolve_open_path_decides (path : string) :
  let input := expand_home home path in
  let ext := default "" (file_name input ≫= extension) in
  let r := resolve_open_path path in
  (idb_output_path r = None ∨ open_path r = None ∧ idb_output_path r = Some (idb_path store_root input)) ∧
  (ext = "i64" ∨ ext = "idb" → open_path r = None ∧ idb_output_path r = None) ∧
  (ext ≠ "i64" → ext ≠ "idb" →
     (∀ cached, store_lookup input = Some cached → open_path r = Some cached) ∧
     (store_lookup input = None →
        (is_sbpf_elf input = true → open_path r = resolve_sbpf_path input (idb_path store_root input) ∧
                                    idb_output_path r = None) ∧
        (is_sbpf_elf input = false →
           (is_Some (idb_output_path r) ↔
              exists_ (with_extension "i64" input) = false ∧ exists_ (with_extension "id0" input) = false)))).
Proof.
  cbn zeta. unfold resolve_open_path. set (input := expand_home home path). set (ext := default "" _).
  destruct (decide (ext = "i64")) as [Hi|Hi].
  { rewrite (bool_decide_true (ext = "i64")) by done. cbn [orb]. naive_solver. }
  destruct (decide (ext = "idb")) as [Hd|Hd].
  { rewrite (bool_decide_false (ext = "i64")), (bool_decide_true (ext = "idb")) by done. cbn [orb]. naive_solver. }
  rewrite (bool_decide_false (ext = "i64")), (bool_decide_false (ext = "idb")) by done. cbn [orb].
  destruct (store_lookup input) as [cached|]; [naive_solver|].
  destruct (is_sbpf_elf input).
  { destruct (resolve_sbpf_path input _); naive_solver. }
  destruct (exists_ (with_extension "i64" input)), (exists_ (with_extension "id0" input)); cbn;
    (split_and!; [naive_solver..|]); intros _ _; split; [done| |done| |done| |done|];
    intros _; (split; [done|]); intros _; split; try naive_solver; by intros [].
Qed.
End open_path.
