(* ===== verification/Status.v ===== *)
(** * The router's status and the watchdog (src/router/mod.rs: status_snapshot_inner,
    start_watchdog)

    The status is read with the registry locked.  The queues, the task registry and the caches
    are given as they are when their locks are taken; [elapsed] are the seconds since an
    instant.  A snapshot that has to probe the runtime first deadlocks: the guard of the cached
    probe lives until the end of the [match] that inspects it. *)

From Stdlib Require Import Ascii.
From stdpp Require Import base gmap strings numbers list.
From S2P Require Import Prelude RustStr Json ToolError Runtime RouterConfig Protocol Registry.
From S2P Require Import Router WarmPool Tasks Queue TaskQueues Fs IdbStore ResponseCache Federation.

Open Scope ida_scope.

Record PrewarmTaskStatus : Type := {
  ps_task_id : string;
  ps_path : string;
  ps_tenant_id : string;
  ps_priority : Z;
  ps_keep_warm : bool;
  ps_state : string;
  ps_age_secs : Z
}.

Record RouteTaskStatus : Type := {
  rs_task_id : string;
  rs_path : string;
  rs_method : string;
  rs_tenant_id : string;
  rs_priority : Z;
  rs_state : string;
  rs_age_secs : Z
}.

Record WorkerStatus : Type := {
  ws_handle : string;
  ws_backend : string;
  ws_tenant_id : string;
  ws_pid : option Z;
  ws_open_path : option string;
  ws_pending_requests : nat;
  ws_ref_count : nat;
  ws_idle_secs : Z;
  ws_active : bool
}.

Record WarmLeaseStatus : Type := {
  wls_path : string;
  wls_handle : string;
  wls_tenant_id : string;
  wls_cache_path : option string;
  wls_pinned_secs : Z;
  wls_idle_secs : Z
}.

Record RouterStatus : Type := {
  st_worker_count : nat;
  st_active_handle : option string;
  st_config : RouterConfig;                  (* the limits and the node id *)
  st_runtime_probe : option RuntimeProbeResult;
  st_backend_counts : gmap string nat;
  st_tenant_worker_counts : gmap string nat;
  st_tenant_pending_counts : gmap string nat;
  st_workers : list WorkerStatus;
  st_warm_pool : list WarmLeaseStatus;
  st_prewarm_queue : list PrewarmTaskStatus;
  st_prewarm_active : list PrewarmTaskStatus;
  st_prewarm_recent : list Value;
  st_route_queue : list RouteTaskStatus;
  st_route_active : list RouteTaskStatus;
  st_recent_tasks : list Value;
  st_idb_cache : IdbStoreStats;
  st_response_cache : ResponseCacheStats;
  st_federation_nodes : list FederationNodeStatus
}.

(** What is read besides the registry, the warm pool and the probe. *)
Record StatusView : Type := {
  sv_prewarm : PrewarmQueueState;
  sv_route : RouteQueueState;
  sv_tasks : TaskRegistry;
  sv_idb_cache : IdbStoreStats;
  sv_response_cache : ResponseCacheStats;
  sv_federation : list FederationNodeStatus
}.

(** [*map.entry(key).or_default() += n] *)
Definition bump (k : string) (n : nat) (m : gmap string nat) : gmap string nat := <[k := default 0 (m !! k) + n]> m.

(** Display of the backend *)
Definition backend_name (b : WorkerBackendKind) : string := as_cli_arg b.

Section status.
Context `{HashOrder} (cfg : RouterConfig) (env : Env) (elapsed : Z → Z) (child_pid : string → option Z).

Definition worker_status (r : RouterInner) (hw : string * WorkerProcess) : WorkerStatus :=
  {| ws_handle := hw.1; ws_backend := backend_name (w_backend hw.2); ws_tenant_id := w_tenant_id hw.2;
     ws_pid := child_pid hw.1; ws_open_path := w_open_path hw.2; ws_pending_requests := size (w_pending hw.2);
     ws_ref_count := ref_count r hw.1; ws_idle_secs := elapsed (w_last_active hw.2);
     ws_active := bool_decide (active r = Some hw.1) |}.

(** The three counters that the loop over the workers fills. *)
Definition count_worker (c : gmap string nat * gmap string nat * gmap string nat) (hw : string * WorkerProcess) :
    gmap string nat * gmap string nat * gmap string nat :=
  let '(backends, tenants, pending) := c in
  (bump (backend_name (w_backend hw.2)) 1 backends, bump (w_tenant_id hw.2) 1 tenants,
   bump (w_tenant_id hw.2) (size (w_pending hw.2)) pending).

Definition warm_status (l : WarmLease) : WarmLeaseStatus :=
  {| wls_path := wl_path l; wls_handle := wl_handle l; wls_tenant_id := wl_tenant_id l;
     wls_cache_path := wl_cache_path l; wls_pinned_secs := elapsed (wl_pinned_at l);
     wls_idle_secs := elapsed (wl_last_hit l) |}.

Definition queued_prewarm_status (t : QueuedPrewarmTask) : PrewarmTaskStatus :=
  {| ps_task_id := qp_task_id t; ps_path := qp_path t; ps_tenant_id := qp_tenant_id t; ps_priority := qp_priority t;
     ps_keep_warm := qp_keep_warm t; ps_state := "queued"; ps_age_secs := elapsed (qp_enqueued_at t) |}.
Definition active_prewarm_status (t : ActivePrewarmTask) : PrewarmTaskStatus :=
  {| ps_task_id := ap_task_id t; ps_path := ap_path t; ps_tenant_id := ap_tenant_id t; ps_priority := ap_priority t;
     ps_keep_warm := ap_keep_warm t; ps_state := "running"; ps_age_secs := elapsed (ap_started_at t) |}.
Definition queued_route_status (t : QueuedRouteTask) : RouteTaskStatus :=
  {| rs_task_id := qr_task_id t; rs_path := qr_path t; rs_method := qr_method t; rs_tenant_id := qr_tenant_id t;
     rs_priority := qr_priority t; rs_state := "queued"; rs_age_secs := elapsed (qr_enqueued_at t) |}.
Definition active_route_status (t : ActiveRouteTask) : RouteTaskStatus :=
  {| rs_task_id := ar_task_id t; rs_path := ar_path t; rs_method := ar_method t; rs_tenant_id := ar_tenant_id t;
     rs_priority := ar_priority t; rs_state := "running"; rs_age_secs := elapsed (ar_started_at t) |}.

(** [list_all().filter(..).rev().take(32)] *)
Definition recent_tasks (r : TaskRegistry) : list Value :=
  task_state_json <$> take 32 (reverse (filter (λ t, t_status t ≠ Running) (list_all r))).

Definition build_status (probe : option RuntimeProbeResult) (r : RouterInner) (pool : gmap string WarmLease)
    (v : StatusView) : RouterStatus :=
  let '(backends, tenants, pending) := foldl count_worker (∅, ∅, ∅) (hash_iter (workers r)) in
  {| st_worker_count := size (workers r); st_active_handle := active r; st_config := cfg;
     st_runtime_probe := probe; st_backend_counts := backends; st_tenant_worker_counts := tenants;
     st_tenant_pending_counts := pending; st_workers := worker_status r <$> hash_iter (workers r);
     st_warm_pool := (λ kl, warm_status kl.2) <$> hash_iter pool;
     st_prewarm_queue := queued_prewarm_status <$> q_queued (pq_queue (sv_prewarm v));
     st_prewarm_active := (λ kt, active_prewarm_status kt.2) <$> hash_iter (q_active (pq_queue (sv_prewarm v)));
     st_prewarm_recent := pq_recent (sv_prewarm v);
     st_route_queue := queued_route_status <$> q_queued (sv_route v);
     st_route_active := (λ kt, active_route_status kt.2) <$> hash_iter (q_active (sv_route v));
     st_recent_tasks := recent_tasks (sv_tasks v); st_idb_cache := sv_idb_cache v;
     st_response_cache := sv_response_cache v; st_federation_nodes := sv_federation v |}.

(** [match self.cached_probe.lock().await.clone() { .. }]: the guard is a temporary of the
    scrutinee and lives to the end of the match. *)
Definition cached_or_probed : M (option RuntimeProbeResult) :=
  with_lock LProbe (
    s <- get_st ;;
    match rt_cached_probe s with
    | Some probe => ret (Some probe)
    | None =>
        with_lock LInner (ret tt) ;;;
        probe <- probe_worker_backend env ;;
        ret (match probe with Ok p => Some p | Err _ => None end)
    end).

Definition status_snapshot_inner (v : StatusView) : M RouterStatus :=
  probe <- cached_or_probed ;;
  with_lock LInner (
    s <- get_st ;;
    pool <- with_lock LWarm (s <- get_st ;; ret (rt_warm_pool s)) ;;
    ret (build_status probe (rt_inner s) pool v)).
End status.

(** ** What a snapshot says *)

Section theorems.
Context `{HashOrder} (cfg : RouterConfig) (env : Env) (elapsed : Z → Z) (child_pid : string → option Z).

Lemma bump_lookup k n m k' :
  default 0 (bump k n m !! k') = default 0 (m !! k') + if bool_decide (k = k') then n else 0.
Proof.
  unfold bump. case_bool_decide as Hk.
  - subst. by rewrite lookup_insert_eq.
  - rewrite lookup_insert_ne by done. cbn. lia.
Qed.

(** The counters after a prefix of the workers. *)
Lemma count_workers_spec l c k :
  let c' := foldl count_worker c l in
  default 0 (c'.1.1 !! k) = default 0 (c.1.1 !! k) + sum_list_with (λ hw, if bool_decide (backend_name (w_backend hw.2) = k) then 1 else 0) l ∧
  default 0 (c'.1.2 !! k) = default 0 (c.1.2 !! k) + sum_list_with (λ hw, if bool_decide (w_tenant_id hw.2 = k) then 1 else 0) l ∧
  default 0 (c'.2 !! k) = default 0 (c.2 !! k) + sum_list_with (λ hw, if bool_decide (w_tenant_id hw.2 = k) then size (w_pending hw.2) else 0) l.
Proof.
  revert c. induction l as [|hw l IH]; intros [[b t] p]; cbn [foldl sum_list_with fst snd count_worker]; [lia|].
  specialize (IH (count_worker (b, t, p) hw)). cbn [count_worker fst snd] in IH. rewrite !bump_lookup in IH. lia.
Qed.

Lemma hash_iter_sum {V} (f : V → nat) (m : gmap string V) : sum_list_with (λ kv, f kv.2) (hash_iter m) = map_sum f m.
Proof. unfold map_sum. by rewrite hash_iter_perm. Qed.

(** The run with a cached probe. *)
Lemma status_snapshot_run v s probe : rt_cached_probe s = Some probe →
  status_snapshot_inner cfg env elapsed child_pid v ∅ s =
    Done (build_status cfg elapsed child_pid (Some probe) (rt_inner s) (rt_warm_pool s) v) s.
Proof.
  intros Hp. unfold status_snapshot_inner, cached_or_probed, bind, with_lock, get_st, ret.
  rewrite !bool_decide_false by set_solver. by rewrite Hp.
Qed.

(** Once the runtime has been probed, a snapshot changes nothing and counts right: one
    entry per worker, and for every tenant the number of workers and of pending requests that
    admission uses. *)
Theorem status_snapshot_counts (v : StatusView) (s : RouterState) (probe : RuntimeProbeResult)
    (Hp : rt_cached_probe s = Some probe) :
  ∃ st, status_snapshot_inner cfg env elapsed child_pid v ∅ s = Done st s ∧
    st_worker_count st = length (st_workers st) ∧
    st_workers st ≡ₚ worker_status elapsed child_pid (rt_inner s) <$> map_to_list (workers (rt_inner s)) ∧
    (∀ tenant, default 0 (st_tenant_worker_counts st !! tenant) = tenant_worker_count tenant (rt_inner s) ∧
               default 0 (st_tenant_pending_counts st !! tenant) = tenant_pending tenant (rt_inner s)).
Proof.
  eexists. split; [by apply status_snapshot_run|]. unfold build_status.
  destruct (foldl count_worker (∅, ∅, ∅) (hash_iter (workers (rt_inner s)))) as [[b t] p] eqn:Hc. cbn.
  split; [by rewrite length_fmap, hash_iter_length|]. split; [by rewrite hash_iter_perm|].
  intros tenant. pose proof (count_workers_spec (hash_iter (workers (rt_inner s))) (∅, ∅, ∅) tenant) as Hs.
  rewrite Hc in Hs. cbn in Hs. rewrite !lookup_empty in Hs. destruct Hs as (_ & Ht & Hpd). cbn in Ht, Hpd.
  unfold tenant_worker_count, tenant_pending. rewrite Ht, Hpd.
  by rewrite <-!hash_iter_sum.
Qed.

(** A snapshot before the runtime was ever probed never returns: the task waits for the
    mutex of the cached probe that it holds itself. *)
Theorem status_before_probe_deadlocks (v : StatusView) (s : RouterState) (Hp : rt_cached_probe s = None) :
  status_snapshot_inner cfg env elapsed child_pid v ∅ s = Deadlock LProbe.
Proof.
  unfold status_snapshot_inner, cached_or_probed, probe_worker_backend, bind, with_lock, get_st, ret.
  rewrite bool_decide_false by set_solver. rewrite Hp. rewrite bool_decide_false by set_solver.
  by rewrite bool_decide_true by set_solver.
Qed.
End theorems.

(** ** The automatic exit of the watchdog *)

(** One tick after the collection: [empty_since] and whether the process ends. *)
Definition auto_exit_tick (grace : option Z) (worker_count : nat) (now : Z) (empty_since : option Z) :
    option Z * bool :=
  match grace with
  | None => (empty_since, false)
  | Some grace =>
      if bool_decide (worker_count = 0) then
        match empty_since with
        | Some since => (empty_since, (grace <=? now - since)%Z)
        | None => (Some now, false)
        end
      else (None, false)
  end.

(** The ticks of a watchdog, up to the one at which the process ends. *)
Fixpoint auto_exit_run (grace : option Z) (empty_since : option Z) (ticks : list (Z * nat)) : option Z :=
  match ticks with
  | [] => None
  | (now, count) :: ticks =>
      let '(since, exit) := auto_exit_tick grace count now empty_since in
      if exit then Some now else auto_exit_run grace since ticks
  end.

(** The process has had no worker since the tick at [t0], over all ticks in between. *)
Definition idle_span (grace : Z) (ticks : list (Z * nat)) (now : Z) : Prop :=
  ∃ before t0 mid after, ticks = before ++ (t0, 0) :: mid ++ (now, 0) :: after ∧
    Forall (λ t, t.2 = 0) mid ∧ (grace ≤ now - t0)%Z.

Lemma auto_exit_run_sound grace since ticks now :
  auto_exit_run (Some grace) since ticks = Some now →
  idle_span grace ticks now ∨
  ∃ s mid after, since = Some s ∧ ticks = mid ++ (now, 0) :: after ∧ Forall (λ t, t.2 = 0) mid ∧ (grace ≤ now - s)%Z.
Proof.
  revert since. induction ticks as [|[t c] ticks IH]; intros since; [done|]. cbn [auto_exit_run auto_exit_tick].
  case_bool_decide as Hc; [subst c; destruct since as [s|]|].
  - destruct (Z.leb_spec grace (t - s)).
    + intros [= <-]. right. exists s, [], ticks. split_and!; [done|done|constructor|done].
    + intros Hr. destruct (IH _ Hr) as [(b & t0 & m & a & -> & Hm & Hg)|(s' & m & a & [= <-] & -> & Hm & Hg)].
      * left. exists ((t, 0) :: b), t0, m, a. by split_and!.
      * right. exists s, ((t, 0) :: m), a. split_and!; [done|done|by constructor|done].
  - intros Hr. destruct (IH _ Hr) as [(b & t0 & m & a & -> & Hm & Hg)|(s' & m & a & [= <-] & -> & Hm & Hg)].
    + left. exists ((t, 0) :: b), t0, m, a. by split_and!.
    + left. exists [], t, m, a. by split_and!.
  - intros Hr. destruct (IH _ Hr) as [(b & t0 & m & a & -> & Hm & Hg)|(s' & m & a & [=] & _)].
    left. exists ((t, c) :: b), t0, m, a. by split_and!.
Qed.

(** The watchdog ends the process only after it has seen no worker at every tick over at
    least the grace period, and never when automatic exit is off; and it does end it once
    there has been no worker for that long. *)
Theorem auto_exit_exact (grace : Z) (ticks : list (Z * nat)) :
  (∀ now, auto_exit_run (Some grace) None ticks = Some now → idle_span grace ticks now) ∧
  auto_exit_run None None ticks = None ∧
  (∀ before t0 mid now after,
     ticks = before ++ (t0, 0) :: mid ++ (now, 0) :: after → Forall (λ t, t.2 = 0) mid → (grace ≤ now - t0)%Z →
     Forall (λ t, t.1 ≤ t0)%Z before → is_Some (auto_exit_run (Some grace) None ticks)).
Proof.
  split_and!.
  - intros now Hr. destruct (auto_exit_run_sound grace None ticks now Hr) as [Hi|(s & m & a & [=] & _)]. done.
  - induction ticks as [|[t c] ticks IH]; [done|]. exact IH.
  - intros before t0 mid now after -> Hmid Hg Hb.
    assert (Hzero : ∀ s mid, (s ≤ t0)%Z → Forall (λ t, t.2 = 0) mid →
      is_Some (auto_exit_run (Some grace) (Some s) (mid ++ (now, 0) :: after))).
    { intros s m Hs Hm. induction Hm as [|[t c] m Hc Hm IH]; cbn [app auto_exit_run auto_exit_tick].
      - rewrite bool_decide_true by done. rewrite (proj2 (Z.leb_le _ _)) by lia. by eexists.
      - cbn in Hc. subst c. rewrite bool_decide_true by done. by destruct (_ <=? _)%Z; [eexists|]. }
    assert (Hgo : ∀ since, (∀ s, since = Some s → (s ≤ t0)%Z) →
      is_Some (auto_exit_run (Some grace) since (before ++ (t0, 0) :: mid ++ (now, 0) :: after))).
    { induction Hb as [|[t c] before Ht Hb IH]; intros since Hsince; cbn [app auto_exit_run auto_exit_tick].
      - rewrite bool_decide_true by done. destruct since as [s|].
        + destruct (_ <=? _)%Z; [by eexists|]. by apply Hzero; [apply Hsince|].
        + by apply Hzero.
      - cbn in Ht. case_bool_decide; [destruct since as [s|]|].
        + destruct (_ <=? _)%Z; [by eexists|]. by apply IH.
        + apply IH. by intros s [= <-].
        + by apply IH. }
    by apply Hgo.
Qed.

(** ** Witnesses *)

#[local] Existing Instance canonical_order.

Definition sample_status_view : StatusView :=
  {| sv_prewarm := prewarm_queue_default; sv_route := queue_empty; sv_tasks := registry_new;
     sv_idb_cache := {| ss_root := ""; ss_file_count := 0; ss_entry_count := 0; ss_total_size_bytes := 0 |};
     sv_response_cache := {| rs_dir := ""; rs_file_count := 0; rs_total_size_bytes := 0 |}; sv_federation := [] |}.

(** A router whose runtime was probed, with one worker. *)
Definition sample_probed : RouterState :=
  {| rt_inner := {| workers := {["h1" := sample_worker]}; active := Some "h1"; path_to_handle := ∅; token_to_handle := ∅;
                    ref_tokens := ∅; req_counter := 0; exe_path := "ida-cli" |};
     rt_warm_pool := ∅; rt_cached_probe := Some (probe_unsupported {| major := 9; minor := 3; build := 0 |} "old");
     rt_ticks := 0; rt_outbox := []; rt_recorded := [] |}.

Lemma status_snapshot_counts_witness :
  ∃ st, status_snapshot_inner one_warm sample_env id (λ _, None) sample_status_view ∅ sample_probed = Done st sample_probed ∧
    st_worker_count st = length (st_workers st) ∧
    default 0 (st_tenant_worker_counts st !! "default") = tenant_worker_count "default" (rt_inner sample_probed).
Proof.
  destruct (status_snapshot_counts one_warm sample_env id (λ _, None) sample_status_view sample_probed
    (probe_unsupported {| major := 9; minor := 3; build := 0 |} "old")) as (st & H1 & H2 & _ & H3); [reflexivity|].
  exists st. split; [exact H1|]. split; [exact H2|apply H3].
Defined.

Lemma status_before_probe_deadlocks_witness :
  status_snapshot_inner one_warm sample_env id (λ _, None) sample_status_view ∅ (router_new "ida-cli") = Deadlock LProbe.
Proof. apply status_before_probe_deadlocks. reflexivity. Defined.
