(* ===== verification/LocalTools.v ===== *)
(** * The tools of the MCP server (src/server/mod.rs)

    One definition per tool: in router mode it forwards the request, otherwise it calls the
    worker of this process and prints the answer.  [worker] answers a call and may change its
    state, [route] is the router's [route_request]; both are arguments, so that the same tools
    run over the worker loop, over the registry of workers and over samples.  The printer and
    the parser of [serde_json] and lower-casing are parameters.

    A tool returns [Result<CallToolResult, McpError>]; nearly all of them only ever return [Ok]
    and report their own failures as a result with the error flag. *)

From Stdlib Require Import Ascii.
From stdpp Require Import base strings numbers list.
From S2P Require Import Prelude RustStr Json ToolError Protocol Parse.
From S2P Require Import Serde ToolRequests IdaRequest IdaWorker F64 RpcDispatch RoutedTools.

Open Scope ida_scope.

(** [rmcp::ErrorData] as the server and its transport build it. *)
Inductive McpError : Type :=
| internal_error (message : string)
| invalid_params (message : string) (data : option Value)
| method_not_found (message : string).

(** [usize] and [u64] sums wrap (release profile). *)
Definition usize_add (a b : Z) : Z := wrap64 (a + b).

Section tools.
Context {S : Type}.
Context (worker : ∀ c : WorkerCall, S → result (reply (wc_request c)) ToolError * S).
Context (router_mode : bool) (route : option string → string → Value → S → result Value ToolError * S).
Context (json_parse : string → option Value) (json_pretty : Value → string).
Context (f64_text : f64 → string) (to_lowercase : string → string).

#[local] Abbreviation Rpc := (Rpc (S := S)).
Notation "'let!' x := m 'in' k" := (rpc_bind m (λ x, k))
  (at level 10, x pattern, m at level 200, k at level 200).

Definition Tool : Type := S → result CallToolResult McpError * S.

(** [match m { Ok(v) => success(to_string_pretty(&v)), Err(e) => e.to_tool_result() }] *)
Definition answer (m : Rpc Value) : Tool := λ s,
  match m s with
  | (Ok v, s) => (Ok (success (json_pretty v)), s)
  | (Err e, s) => (Ok (to_tool_result e), s)
  end.

Definition answer_text (m : Rpc string) : Tool := λ s,
  match m s with
  | (Ok text, s) => (Ok (success text), s)
  | (Err e, s) => (Ok (to_tool_result e), s)
  end.

(** [m.map_err(f)?] *)
Definition mcp_bind {A} (m : Rpc A) (f : ToolError → McpError) (k : A → Tool) : Tool := λ s,
  match m s with
  | (Ok a, s) => k a s
  | (Err e, s) => (Err (f e), s)
  end.

Definition route_or_err (handle : option string) (method : string) (params : Value) : Tool :=
  answer (route handle method params).

Definition forward (handle : option string) (method : string) (params : Value) (local : Tool) : Tool :=
  if router_mode then route_or_err handle method params else local.

(** ** Addresses of a request *)

Definition the_addresses (v : Value) : Rpc (list Z) := rpc_lift (value_to_addresses json_parse v).
Definition the_address (v : Value) : Rpc Z := rpc_lift (value_to_single_address json_parse v).

Definition the_opt_address (o : option Value) : Rpc (option Z) :=
  match o with
  | Some v => let! a := the_address v in rpc_ret (Some a)
  | None => rpc_ret None
  end.

(** The answers for several items, each with its own error. *)
Definition each_item {A} (id : string) (show : A → string) (key : string) (call : A → Rpc Value)
    (items : list A) : Rpc Value :=
  let! results := rpc_for (λ results x,
    let! r := rpc_try (call x) in
    rpc_ret (results ++
      [obj [(id, VString (show x));
            match r with
            | Ok v => (key, v)
            | Err e => ("error", VString (error_to_string e))
            end]], true)) [] items in
  rpc_ret (obj [("results", Array results)]).

(** One item is answered as it is. *)
Definition single_or_each {A} (id : string) (show : A → string) (key : string) (call : A → Rpc Value)
    (items : list A) : Rpc Value :=
  match items with
  | [x] => call x
  | _ => each_item id show key call items
  end.

Definition at_addresses (key : string) (v : Value) (call : Z → Rpc Value) : Rpc Value :=
  let! addrs := the_addresses v in single_or_each "address" fmt_hex_alt key call addrs.

Definition string_value (m : Rpc string) : Rpc Value := let! t := m in rpc_ret (VString t).

(** ** Session and functions *)

Definition tool_load_debug_info (req : Struct LoadDebugInfoRequest) : Tool :=
  forward (req @ "db_handle") "load_debug_info" (route_load_debug_info req)
    (answer (worker (Worker.load_debug_info (req @ "path") (default false (req @ "verbose"))))).

Definition tool_get_analysis_status : Tool :=
  forward None "get_analysis_status" (obj []) (answer (worker Worker.analysis_status)).

(** [list_functions] and [list_funcs] *)
Definition tool_list_functions (req : Struct ListFunctionsRequest) : Tool :=
  forward (req @ "db_handle") "list_functions" (ser_struct ListFunctionsRequest req)
    (let limit := Z.min (default 100%Z (req @ "limit")) 10000 in
     answer (worker (Worker.list_functions (default 0%Z (req @ "offset")) limit (req @ "filter")
                       (req @ "timeout_secs")))).

(** [list_funcs] has the same body. *)
Definition tool_list_funcs (req : Struct ListFunctionsRequest) : Tool := tool_list_functions req.

Definition tool_get_function_by_name (req : Struct ResolveFunctionRequest) : Tool :=
  forward (req @ "db_handle") "get_function_by_name" (route_get_function_by_name req)
    (answer (worker (Worker.resolve_function (req @ "name")))).

Definition tool_get_function_prototype (req : Struct GetFunctionPrototypeRequest) : Tool :=
  forward (req @ "db_handle") "get_function_prototype" (route_get_function_prototype req)
    (answer (worker (Worker.get_function_prototype (opt_addr (req @ "address")) (req @ "name")))).

Definition tool_get_address_info (req : Struct AddrInfoRequest) : Tool :=
  forward (req @ "db_handle") "get_address_info" (route_get_address_info req)
    (answer (let! addr := the_opt_address (req @ "address") in
             worker (Worker.addr_info addr (req @ "target_name") (default 0%Z (req @ "offset"))))).

Definition tool_get_function_at_address (req : Struct FunctionAtRequest) : Tool :=
  forward (req @ "db_handle") "get_function_at_address" (route_get_function_at_address req)
    (answer (let! addr := the_opt_address (req @ "address") in
             worker (Worker.function_at addr (req @ "target_name") (default 0%Z (req @ "offset"))))).

Definition tool_batch_lookup_functions (req : Struct LookupFuncsRequest) : Tool :=
  forward (req @ "db_handle") "batch_lookup_functions" (route_batch_lookup_functions req)
    (answer (let! queries := rpc_lift (value_to_strings json_parse (req @ "queries")) in
             worker (Worker.lookup_funcs queries))).

Definition check_format (format : option string) : Rpc () :=
  match format with
  | Some fmt =>
      if bool_decide (to_lowercase fmt ≠ "json") then
        rpc_fail (NotSupported ("format " +:+ fmt +:+ " not supported (only json)"))
      else rpc_ret tt
  | None => rpc_ret tt
  end.

Definition tool_export_functions (req : Struct ExportFuncsRequest) : Tool :=
  forward (req @ "db_handle") "export_functions" (route_export_functions req)
    (answer
      (let! _ := check_format (req @ "format") in
       match (req @ "addrs") with
       | Some addrs =>
           let! queries := rpc_lift (value_to_strings json_parse addrs) in
           worker (Worker.lookup_funcs queries)
       | None =>
           let limit := Z.min (default 100%Z (req @ "limit")) 10000 in
           worker (Worker.export_funcs (default 0%Z (req @ "offset")) limit)
       end)).

(** ** Disassembly and decompilation *)

(** [disassemble]: the text itself for one address, JSON for several. *)
Definition tool_disassemble (req : Struct DisasmRequest) : Tool :=
  forward (req @ "db_handle") "disassemble" (route_disassemble req)
    (let count := Z.min (default 10%Z (req @ "count")) 1000 in
     λ s, match the_addresses (req @ "address") s with
          | (Ok [addr], s) => answer_text (worker (Worker.disasm addr count)) s
          | (Ok addrs, s) =>
              answer (each_item "address" fmt_hex_alt "disasm"
                        (λ addr, string_value (worker (Worker.disasm addr count))) addrs) s
          | (Err e, s) => (Ok (to_tool_result e), s)
          end).

Definition tool_disassemble_function (req : Struct DisasmByNameRequest) : Tool :=
  forward (req @ "db_handle") "disassemble_function" (route_disassemble_function req)
    (answer_text (worker (Worker.disasm_by_name (req @ "name")
                            (Z.min (default 10%Z (req @ "count")) 1000)))).

Definition tool_disassemble_function_at (req : Struct DisasmFunctionAtRequest) : Tool :=
  forward (req @ "db_handle") "disassemble_function_at" (ser_struct DisasmFunctionAtRequest req)
    (answer_text
      (let! addr := the_opt_address (req @ "address") in
       worker (Worker.disasm_function_at addr (req @ "target_name") (default 0%Z (req @ "offset"))
                 (Z.min (default 200%Z (req @ "count")) 5000)))).

(** Only the first line, the signature, is looked at. *)
Definition first_line_unknown (code : string) : bool :=
  match lines code with
  | sig :: _ => contains "sub_" sig || contains "nullsub_" sig || contains "j_sub_" sig
  | [] => false
  end.

Definition tool_decompile_function (req : Struct DecompileRequest) : Tool :=
  forward (req @ "db_handle") "decompile_function" (route_decompile_function req)
    (λ s, match the_addresses (req @ "address") s with
          | (Ok [addr], s) =>
              answer_text
                (let! code := worker (Worker.decompile addr) in
                 rpc_ret (if first_line_unknown code then rename_hint +:+ code else code)) s
          | (Ok addrs, s) =>
              answer (each_item "address" fmt_hex_alt "decompile"
                        (λ addr, string_value (worker (Worker.decompile addr))) addrs) s
          | (Err e, s) => (Ok (to_tool_result e), s)
          end).

Definition tool_get_pseudocode_at (req : Struct PseudocodeAtRequest) : Tool :=
  forward (req @ "db_handle") "get_pseudocode_at" (route_get_pseudocode_at req)
    (answer
      (let! addrs := the_addresses (req @ "address") in
       let! end_addr := match (req @ "end_address") with
                        | Some end_str => let! a := rpc_lift (parse_address end_str) in rpc_ret (Some a)
                        | None => rpc_ret None
                        end in
       single_or_each "address" fmt_hex_alt "pseudocode"
         (λ addr, worker (Worker.pseudocode_at addr end_addr)) addrs)).

Definition tool_batch_decompile (req : Struct BatchDecompileRequest) : Tool :=
  let addrs := batch_addresses json_parse (req @ "addresses") in
  forward (req @ "db_handle") "batch_decompile" (route_batch_decompile json_parse req)
    (answer
      (let! results := rpc_for (λ results addr_val,
         let! r := rpc_try (let! addr := the_address addr_val in worker (Worker.decompile addr)) in
         rpc_ret (results ++
           [match r with
            | Ok code => obj [("address", addr_val); ("pseudocode", VString code); ("success", Bool true)]
            | Err e => obj [("address", addr_val); ("error", VString (error_to_string e));
                            ("success", Bool false)]
            end], true)) [] addrs in
       rpc_ret (Array results))).

Definition tool_search_pseudocode (req : Struct SearchPseudocodeRequest) : Tool :=
  let limit := Z.min (default 20%Z (req @ "limit")) 100 in
  forward (req @ "db_handle") "search_pseudocode" (route_search_pseudocode req)
    (mcp_bind (worker (Worker.search_pseudocode (req @ "pattern") limit (req @ "timeout_secs")))
       (λ e, internal_error (error_to_string e))
       (λ result s, (Ok (success (json_pretty result)), s))).

Definition tool_scan_memory_table (req : Struct TableScanRequest) : Tool :=
  let stride := Z.max (default 8%Z (req @ "stride")) 1 in
  let count := Z.to_nat (Z.min (default 16%Z (req @ "count")) 256) in
  forward (req @ "db_handle") "scan_memory_table" (route_scan_memory_table req)
    (mcp_bind (the_address (req @ "base_address"))
       (λ _, invalid_params "base_address is required and must be a valid address" None)
       (λ base_addr, answer (scan_table worker base_addr stride count))).

Definition diff_value (result1 result2 : string) : Value :=
  let '(d, same, different) := diff_lines (lines result1) (lines result2) in
  obj [("function1", VString result1); ("function2", VString result2);
       ("similarity_ratio", Number (Float (f64_text (similarity same different))));
       ("diff_lines", Array (VString <$> d))].

Definition tool_diff_pseudocode (req : Struct DiffFunctionsRequest) : Tool :=
  forward (req @ "db_handle") "diff_pseudocode" (route_diff_pseudocode req)
    (mcp_bind (the_address (req @ "addr1"))
       (λ _, invalid_params "addr1 is required and must be a valid address" None) (λ addr1,
     mcp_bind (the_address (req @ "addr2"))
       (λ _, invalid_params "addr2 is required and must be a valid address" None) (λ addr2,
     mcp_bind (worker (Worker.decompile addr1))
       (λ e, internal_error ("Failed to decompile addr1: " +:+ error_to_string e)) (λ result1,
     mcp_bind (worker (Worker.decompile addr2))
       (λ e, internal_error ("Failed to decompile addr2: " +:+ error_to_string e)) (λ result2 s,
     (Ok (success (json_pretty (diff_value result1 result2))), s)))))).

(** ** Listings *)

Definition tool_list_segments : Tool :=
  forward None "list_segments" (obj []) (answer (worker Worker.segments)).

Definition tool_list_entry_points : Tool :=
  forward None "list_entry_points" (obj []) (answer (worker Worker.entrypoints)).

Definition tool_get_database_info : Tool :=
  forward None "get_database_info" (obj []) (answer (worker Worker.idb_meta)).

Definition tool_list_strings (req : Struct ListStringsRequest) : Tool :=
  let query := match req @ "query" with Some q => Some q | None => req @ "filter" end in
  forward (req @ "db_handle") "list_strings" (route_list_strings req)
    (let limit := Z.min (default 100%Z (req @ "limit")) 10000 in
     let offset := default 0%Z (req @ "offset") in
     answer (match query with
             | Some q =>
                 worker (Worker.find_string q (default false (req @ "exact"))
                           (default true (req @ "case_insensitive")) offset limit (req @ "timeout_secs"))
             | None => worker (Worker.strings offset limit None (req @ "timeout_secs"))
             end)).

Definition tool_get_xrefs_to_string (req : Struct XrefsToStringRequest) : Tool :=
  forward (req @ "db_handle") "get_xrefs_to_string" (ser_struct XrefsToStringRequest req)
    (answer (worker (Worker.xrefs_to_string (req @ "query") (default false (req @ "exact"))
               (default true (req @ "case_insensitive")) (default 0%Z (req @ "offset"))
               (Z.min (default 100%Z (req @ "limit")) 10000) (default 64%Z (req @ "max_xrefs"))
               (req @ "timeout_secs")))).

Definition tool_list_imports (req : Struct PaginatedRequest) : Tool :=
  forward (req @ "db_handle") "list_imports" (route_paginated req)
    (answer (worker (Worker.imports (default 0%Z (req @ "offset"))
                       (Z.min (default 100%Z (req @ "limit")) 10000)))).

Definition tool_list_exports (req : Struct PaginatedRequest) : Tool :=
  forward (req @ "db_handle") "list_exports" (route_paginated req)
    (answer (worker (Worker.exports (default 0%Z (req @ "offset"))
                       (Z.min (default 100%Z (req @ "limit")) 10000)))).

Definition tool_list_globals (req : Struct ListGlobalsRequest) : Tool :=
  forward (req @ "db_handle") "list_globals" (ser_struct ListGlobalsRequest req)
    (answer (worker (Worker.list_globals (req @ "query") (default 0%Z (req @ "offset"))
                       (Z.min (default 100%Z (req @ "limit")) 10000) (req @ "timeout_secs")))).

(** ** Cross-references and control flow *)

Definition tool_get_xrefs_to (req : Struct AddressRequest) : Tool :=
  forward (req @ "db_handle") "get_xrefs_to" (route_address req)
    (answer (at_addresses "xrefs" (req @ "address") (λ addr, worker (Worker.xrefs_to addr)))).

Definition tool_get_xrefs_from (req : Struct AddressRequest) : Tool :=
  forward (req @ "db_handle") "get_xrefs_from" (route_address req)
    (answer (at_addresses "xrefs" (req @ "address") (λ addr, worker (Worker.xrefs_from addr)))).

Definition tool_get_basic_blocks (req : Struct AddressRequest) : Tool :=
  forward (req @ "db_handle") "get_basic_blocks" (route_address req)
    (answer (at_addresses "basic_blocks" (req @ "address") (λ addr, worker (Worker.basic_blocks addr)))).

Definition tool_get_callees (req : Struct AddressRequest) : Tool :=
  forward (req @ "db_handle") "get_callees" (route_address req)
    (answer (at_addresses "callees" (req @ "address") (λ addr, worker (Worker.callees addr)))).

Definition tool_get_callers (req : Struct AddressRequest) : Tool :=
  forward (req @ "db_handle") "get_callers" (route_address req)
    (answer (at_addresses "callers" (req @ "address") (λ addr, worker (Worker.callers addr)))).

Definition tool_find_control_flow_paths (req : Struct FindPathsRequest) : Tool :=
  forward (req @ "db_handle") "find_control_flow_paths" (ser_struct FindPathsRequest req)
    (answer
      (let! start := the_address (req @ "start") in
       let! end_ := the_address (req @ "end") in
       worker (Worker.find_paths start end_ (Z.min (default 8%Z (req @ "max_paths")) 128)
                 (Z.min (default 64%Z (req @ "max_depth")) 2048)))).

Definition tool_build_callgraph (req : Struct CallGraphRequest) : Tool :=
  forward (req @ "db_handle") "build_callgraph" (ser_struct CallGraphRequest req)
    (let max_depth := Z.min (default 2%Z (req @ "max_depth")) 16 in
     let max_nodes := Z.min (default 256%Z (req @ "max_nodes")) 10000 in
     answer
       (let! roots := the_addresses (req @ "roots") in
        single_or_each "root" fmt_hex_alt "callgraph"
          (λ root, worker (Worker.callgraph root max_depth max_nodes)) roots)).

Definition tool_build_xref_matrix (req : Struct XrefMatrixRequest) : Tool :=
  forward (req @ "db_handle") "build_xref_matrix" (route_build_xref_matrix req)
    (answer (let! addrs := the_addresses (req @ "addrs") in worker (Worker.xref_matrix addrs))).

(** ** Memory *)

Definition bytes_answer (m : Rpc BytesResult) : Rpc Value := let! r := m in rpc_ret (bytes_value r).

Definition tool_read_bytes (req : Struct GetBytesRequest) : Tool :=
  forward (req @ "db_handle") "read_bytes" (ser_struct GetBytesRequest req)
    (let size := Z.min (default 256%Z (req @ "size")) 65536 in
     answer
       (match (req @ "address"), (req @ "target_name") with
        | Some addr_value, _ =>
            at_addresses "bytes" addr_value
              (λ addr, bytes_answer (worker (Worker.get_bytes (Some addr) None 0 size)))
        | None, Some name =>
            bytes_answer (worker (Worker.get_bytes None (Some name) (default 0%Z (req @ "offset")) size))
        | None, None => rpc_fail (InvalidParams "address or name required")
        end)).

(** [get_int_values]: the readers of 1, 2, 4 and 8 bytes. *)
Definition get_int_values (address : Value) (size : Z) : Tool :=
  answer (at_addresses "value" address (λ addr, worker (Worker.read_int addr size))).

Definition tool_read_int (size : Z) (req : Struct AddressRequest) : Tool :=
  forward (req @ "db_handle") "read_int" (route_read_int size req) (get_int_values (req @ "address") size).

Definition tool_read_string (req : Struct GetStringRequest) : Tool :=
  forward (req @ "db_handle") "read_string" (route_read_string req)
    (let max_len := Z.min (default 256%Z (req @ "max_len")) 65536 in
     answer (at_addresses "string" (req @ "address") (λ addr, worker (Worker.get_string addr max_len)))).

Definition tool_read_global_variable (req : Struct GetGlobalValueRequest) : Tool :=
  forward (req @ "db_handle") "read_global_variable" (route_read_global_variable req)
    (answer
      (let! queries := rpc_lift (value_to_strings json_parse (req @ "query")) in
       single_or_each "query" (λ q, q) "value" (λ q, worker (Worker.get_global_value q)) queries)).

(** [convert_number] needs no worker and is never forwarded. *)
Definition tool_convert_number (req : Struct IntConvertRequest) : Tool :=
  answer (rpc_lift (convert_number json_parse (req @ "inputs"))).

(** ** Search *)

(** One page of the matches that the worker returned for one subject. *)
Definition page_matches (id subject : string) (offset limit : Z) (value : Value) : Value :=
  let matches := default [] (get "matches" value ≫= as_array) in
  let total := Z.of_nat (length matches) in
  let sliced := take (Z.to_nat limit) (drop (Z.to_nat offset) matches) in
  let next := usize_add offset limit in
  obj [(id, VString subject); ("matches", Array sliced); ("total", vz total);
       ("next_offset", if (next <? total)%Z then vz next else Null)].

Definition search_each (id : string) (offset limit : Z) (call : Z → string → Rpc Value)
    (subjects : list string) : Rpc Value :=
  let! results := rpc_for (λ results subject,
    let max_results := Z.min (usize_add offset limit) 20000 in
    let! r := rpc_try (call max_results subject) in
    rpc_ret (results ++
      [match r with
       | Ok value => page_matches id subject offset limit value
       | Err e => obj [(id, VString subject); ("error", VString (error_to_string e))]
       end], true)) [] subjects in
  rpc_ret (obj [("results", Array results)]).

Definition tool_search_bytes (req : Struct FindBytesRequest) : Tool :=
  forward (req @ "db_handle") "search_bytes" (ser_struct FindBytesRequest req)
    (answer
      (let! patterns := rpc_lift (value_to_strings json_parse (req @ "patterns")) in
       search_each "pattern" (default 0%Z (req @ "offset")) (Z.min (default 100%Z (req @ "limit")) 10000)
         (λ max_results pattern, worker (Worker.find_bytes pattern max_results (req @ "timeout_secs")))
         patterns)).

Definition search_kind (kind : option string) : string := to_lowercase (default "auto" kind).
Definition is_imm_kind (kind : string) : bool := bool_decide (kind = "imm") || bool_decide (kind = "immediate").
Definition is_text_kind (kind : string) : bool := bool_decide (kind = "text") || bool_decide (kind = "string").

(** What the router is asked for one target. *)
Definition routed_search (req : Struct SearchRequest) (kind target : string) : string * Value :=
  let common := [("max_results", ser_option usize_codec (req @ "limit"));
                 ("timeout_secs", ser_option u64_codec (req @ "timeout_secs"))] in
  if is_imm_kind kind then
    ("search_imm", obj (("imm", vz (default 0%Z (parse_u64 target))) :: common))
  else if is_text_kind kind then ("search_text", obj (("text", VString target) :: common))
  else match parse_address target with
       | Ok a => ("search_imm", obj (("imm", vz a) :: common))
       | Err _ => ("search_text", obj (("text", VString target) :: common))
       end.

(** What the worker is asked for one target. *)
Definition local_search (timeout_secs : option Z) (kind : string) (max_results : Z) (target : string) : Rpc Value :=
  if is_imm_kind kind then
    let! val := rpc_lift (parse_address target) in
    worker (Worker.search_imm val max_results timeout_secs)
  else if is_text_kind kind then worker (Worker.search_text target max_results timeout_secs)
  else match parse_address target with
       | Ok val => worker (Worker.search_imm val max_results timeout_secs)
       | Err _ => worker (Worker.search_text target max_results timeout_secs)
       end.

Definition tool_search_text (req : Struct SearchRequest) : Tool :=
  let kind := search_kind (req @ "kind") in
  answer
    (let! targets := rpc_lift (value_to_strings json_parse (req @ "targets")) in
     if router_mode then
       each_item "target" (λ t, t) "result"
         (λ target, let '(method, params) := routed_search req kind target in
                    route (req @ "db_handle") method params) targets
     else
       search_each "target" (default 0%Z (req @ "offset")) (Z.min (default 100%Z (req @ "limit")) 10000)
         (local_search (req @ "timeout_secs") kind) targets).

(** [search_instructions] and [search_instruction_operands] *)
Definition instruction_patterns (v : Value) : Rpc (list string) :=
  let! patterns := rpc_lift (value_to_strings json_parse v) in
  if bool_decide (patterns = []) then rpc_fail (InvalidParams "empty patterns") else rpc_ret patterns.

Definition tool_search_instructions (req : Struct FindInsnsRequest) : Tool :=
  forward (req @ "db_handle") "search_instructions" (ser_struct FindInsnsRequest req)
    (answer
      (let! patterns := instruction_patterns (req @ "patterns") in
       worker (Worker.find_insns patterns (default 100%Z (req @ "limit"))
                 (default false (req @ "case_insensitive")) (req @ "timeout_secs")))).

Definition tool_search_instruction_operands (req : Struct FindInsnOperandsRequest) : Tool :=
  forward (req @ "db_handle") "search_instruction_operands" (ser_struct FindInsnOperandsRequest req)
    (answer
      (let! patterns := instruction_patterns (req @ "patterns") in
       worker (Worker.find_insn_operands patterns (default 100%Z (req @ "limit"))
                 (default false (req @ "case_insensitive")) (req @ "timeout_secs")))).

(** ** Types and structures *)

Definition tool_list_local_types (req : Struct LocalTypesRequest) : Tool :=
  forward (req @ "db_handle") "list_local_types" (ser_struct LocalTypesRequest req)
    (answer (worker (Worker.local_types (default 0%Z (req @ "offset")) (default 100%Z (req @ "limit"))
                       (req @ "filter") (req @ "timeout_secs")))).

Definition tool_get_xrefs_to_struct_field (req : Struct XrefsToFieldRequest) : Tool :=
  forward (req @ "db_handle") "get_xrefs_to_struct_field" (ser_struct XrefsToFieldRequest req)
    (answer (worker (Worker.xrefs_to_field (req @ "ordinal") (req @ "name") (req @ "member_index")
                       (req @ "member_name") (Z.min (default 1000%Z (req @ "limit")) 10000)))).

Definition tool_declare_c_type (req : Struct DeclareTypeRequest) : Tool :=
  forward (req @ "db_handle") "declare_c_type" (ser_struct DeclareTypeRequest req)
    (answer (worker (Worker.declare_type (req @ "decl") (default false (req @ "relaxed"))
                       (default false (req @ "replace")) (default false (req @ "multi"))))).

Definition tool_get_stack_frame (req : Struct AddressRequest) : Tool :=
  forward (req @ "db_handle") "get_stack_frame" (route_address req)
    (answer (let! addr := the_address (req @ "address") in worker (Worker.stack_frame addr))).

Definition tool_create_stack_variable (req : Struct DeclareStackRequest) : Tool :=
  forward (req @ "db_handle") "create_stack_variable" (ser_struct DeclareStackRequest req)
    (answer
      (let! addr := the_opt_address (req @ "address") in
       worker (Worker.declare_stack addr (req @ "target_name") (req @ "offset") (req @ "var_name")
                 (req @ "decl") (default false (req @ "relaxed"))))).

Definition tool_delete_stack_variable (req : Struct DeleteStackRequest) : Tool :=
  forward (req @ "db_handle") "delete_stack_variable" (ser_struct DeleteStackRequest req)
    (answer
      (let! addr := the_opt_address (req @ "address") in
       worker (Worker.delete_stack addr (req @ "target_name") (req @ "offset") (req @ "var_name")))).

Definition tool_rename_stack_variable (req : Struct RenameStackVariableRequest) : Tool :=
  forward (req @ "db_handle") "rename_stack_variable" (ser_struct RenameStackVariableRequest req)
    (answer (worker (Worker.rename_stack_variable (opt_addr (req @ "func_address")) (req @ "func_name")
                       (req @ "name") (req @ "new_name")))).

Definition tool_set_stack_variable_type (req : Struct SetStackVariableTypeRequest) : Tool :=
  forward (req @ "db_handle") "set_stack_variable_type" (ser_struct SetStackVariableTypeRequest req)
    (answer (worker (Worker.set_stack_variable_type (opt_addr (req @ "func_address")) (req @ "func_name")
                       (req @ "name") (req @ "type_decl")))).

Definition tool_list_enums (req : Struct ListEnumsRequest) : Tool :=
  forward (req @ "db_handle") "list_enums" (ser_struct ListEnumsRequest req)
    (answer (worker (Worker.list_enums (req @ "filter") (default 0%Z (req @ "offset"))
                       (default 100%Z (req @ "limit"))))).

Definition tool_create_enum (req : Struct CreateEnumRequest) : Tool :=
  forward (req @ "db_handle") "create_enum" (ser_struct CreateEnumRequest req)
    (answer (worker (Worker.create_enum (req @ "decl") (default false (req @ "replace"))))).

Definition tool_list_structs (req : Struct StructsRequest) : Tool :=
  forward (req @ "db_handle") "list_structs" (ser_struct StructsRequest req)
    (answer (worker (Worker.structs (default 0%Z (req @ "offset")) (Z.min (default 100%Z (req @ "limit")) 10000)
                       (req @ "filter") (req @ "timeout_secs")))).

(** [search_structs]: as [list_structs], without a bound on the limit. *)
Definition tool_search_structs (req : Struct StructsRequest) : Tool :=
  forward (req @ "db_handle") "list_structs" (ser_struct StructsRequest req)
    (answer (worker (Worker.structs (default 0%Z (req @ "offset")) (default 100%Z (req @ "limit"))
                       (req @ "filter") (req @ "timeout_secs")))).

Definition tool_get_struct_info (req : Struct StructInfoRequest) : Tool :=
  forward (req @ "db_handle") "get_struct_info" (route_get_struct_info req)
    (answer (worker (Worker.struct_info (req @ "ordinal") (req @ "name")))).

Definition tool_read_struct_at_address (req : Struct ReadStructRequest) : Tool :=
  forward (req @ "db_handle") "read_struct_at_address" (route_read_struct_at_address req)
    (answer (at_addresses "struct" (req @ "address")
               (λ addr, worker (Worker.read_struct addr (req @ "ordinal") (req @ "name"))))).

Definition tool_apply_type (req : Struct ApplyTypesRequest) : Tool :=
  forward (req @ "db_handle") "apply_type" (ser_struct ApplyTypesRequest req)
    (answer
      (let! addr := the_opt_address (req @ "address") in
       worker (Worker.apply_types addr (req @ "target_name") (default 0%Z (req @ "offset"))
                 (req @ "stack_offset") (req @ "stack_name") (req @ "decl") (req @ "type_name")
                 (default false (req @ "relaxed")) (default false (req @ "delay"))
                 (default false (req @ "strict"))))).

Definition tool_set_function_prototype (req : Struct SetFunctionPrototypeRequest) : Tool :=
  forward (req @ "db_handle") "set_function_prototype" (ser_struct SetFunctionPrototypeRequest req)
    (answer (worker (Worker.set_function_prototype (opt_addr (req @ "address")) (req @ "name")
                       (req @ "prototype")))).

Definition tool_infer_type (req : Struct InferTypesRequest) : Tool :=
  forward (req @ "db_handle") "infer_type" (route_infer_type req)
    (answer
      (let! addr := the_opt_address (req @ "address") in
       worker (Worker.infer_types addr (req @ "target_name") (default 0%Z (req @ "offset"))))).

Definition tool_run_auto_analysis (req : Struct AnalyzeFuncsRequest) : Tool :=
  forward (req @ "db_handle") "run_auto_analysis" (route_run_auto_analysis req)
    (answer (worker (Worker.analyze_funcs (req @ "timeout_secs")))).

(** ** Annotations and patches *)

Definition tool_set_comment (req : Struct SetCommentsRequest) : Tool :=
  forward (req @ "db_handle") "set_comment" (ser_struct SetCommentsRequest req)
    (answer
      (let! addr := the_opt_address (req @ "address") in
       worker (Worker.set_comments addr (req @ "target_name") (default 0%Z (req @ "offset"))
                 (req @ "comment") (default false (req @ "repeatable"))))).

Definition tool_set_function_comment (req : Struct SetFunctionCommentRequest) : Tool :=
  forward (req @ "db_handle") "set_function_comment" (ser_struct SetFunctionCommentRequest req)
    (answer (worker (Worker.set_function_comment (opt_addr (req @ "address")) (req @ "name")
                       (req @ "comment") (default false (req @ "repeatable"))))).

Definition tool_patch_assembly (req : Struct PatchAsmRequest) : Tool :=
  forward (req @ "db_handle") "patch_assembly" (ser_struct PatchAsmRequest req)
    (answer
      (let! addr := the_opt_address (req @ "address") in
       worker (Worker.patch_asm addr (req @ "target_name") (default 0%Z (req @ "offset")) (req @ "line")))).

Definition tool_rename_symbol (req : Struct RenameRequest) : Tool :=
  forward (req @ "db_handle") "rename_symbol" (ser_struct RenameRequest req)
    (answer
      (let! addr := the_opt_address (req @ "address") in
       worker (Worker.rename addr (req @ "current_name") (req @ "name") (default 0%Z (req @ "flags"))))).

Definition tool_batch_rename (req : Struct BatchRenameRequest) : Tool :=
  forward (req @ "db_handle") "batch_rename" (ser_struct BatchRenameRequest req)
    (answer (worker (Worker.batch_rename (map rename_entry (req @ "renames"))))).

Definition tool_rename_local_variable (req : Struct RenameLvarRequest) : Tool :=
  forward (req @ "db_handle") "rename_local_variable" (ser_struct RenameLvarRequest req)
    (answer
      (let! func_addr := the_address (req @ "func_address") in
       worker (Worker.rename_lvar func_addr (req @ "lvar_name") (req @ "new_name")))).

Definition tool_set_local_variable_type (req : Struct SetLvarTypeRequest) : Tool :=
  forward (req @ "db_handle") "set_local_variable_type" (ser_struct SetLvarTypeRequest req)
    (answer
      (let! func_addr := the_address (req @ "func_address") in
       worker (Worker.set_lvar_type func_addr (req @ "lvar_name") (req @ "type_str")))).

Definition tool_set_decompiler_comment (req : Struct SetDecompilerCommentRequest) : Tool :=
  forward (req @ "db_handle") "set_decompiler_comment" (ser_struct SetDecompilerCommentRequest req)
    (answer
      (let! func_addr := the_address (req @ "func_address") in
       let! addr := the_address (req @ "address") in
       worker (Worker.set_decompiler_comment func_addr addr (default 69%Z (req @ "itp")) (req @ "comment")))).

Definition tool_patch_bytes (req : Struct PatchRequest) : Tool :=
  forward (req @ "db_handle") "patch_bytes" (ser_struct PatchRequest req)
    (answer
      (let! addr := the_opt_address (req @ "address") in
       let! bytes := rpc_lift (value_to_bytes (req @ "bytes")) in
       worker (Worker.patch_bytes addr (req @ "target_name") (default 0%Z (req @ "offset")) bytes))).
End tools.

(** Unfolding a tool. *)
Create HintDb tools discriminated.
#[export] Hint Unfold
  tool_load_debug_info tool_get_analysis_status tool_list_functions tool_get_function_by_name
  tool_get_function_prototype tool_get_address_info tool_get_function_at_address
  tool_batch_lookup_functions tool_export_functions tool_disassemble tool_disassemble_function
  tool_disassemble_function_at tool_decompile_function tool_get_pseudocode_at
  tool_batch_decompile tool_search_pseudocode tool_scan_memory_table tool_diff_pseudocode
  tool_list_segments tool_list_entry_points tool_get_database_info tool_list_strings
  tool_get_xrefs_to_string tool_list_imports tool_list_exports tool_list_globals
  tool_get_xrefs_to tool_get_xrefs_from tool_get_basic_blocks tool_get_callees tool_get_callers
  tool_find_control_flow_paths tool_build_callgraph tool_build_xref_matrix tool_read_bytes
  tool_read_int tool_read_string tool_read_global_variable tool_convert_number
  tool_search_bytes tool_search_text tool_search_instructions tool_search_instruction_operands
  tool_list_local_types tool_get_xrefs_to_struct_field tool_declare_c_type tool_get_stack_frame
  tool_create_stack_variable tool_delete_stack_variable tool_rename_stack_variable
  tool_set_stack_variable_type tool_list_enums tool_create_enum tool_list_structs
  tool_search_structs tool_get_struct_info tool_read_struct_at_address tool_apply_type
  tool_set_function_prototype tool_infer_type tool_run_auto_analysis tool_set_comment
  tool_set_function_comment tool_patch_assembly tool_rename_symbol tool_batch_rename
  tool_rename_local_variable tool_set_local_variable_type tool_set_decompiler_comment
  tool_patch_bytes get_int_values : tools.
