(* ===== verification/LocalTheorems.v ===== *)
(** * The two modes of the server agree, and where they do not

    A tool answers from the worker of its own process or forwards the request to a router
    whose worker runs the dispatcher.  Over the same worker both ways give the same result,
    for requests in plain form: one address that both parsers read alike, limits within the
    bounds of the local branch, and the optional parameters given whose defaults differ. *)

From Stdlib Require Import Ascii.
From stdpp Require Import base strings numbers list.
From S2P Require Import ToolRegistry.
From S2P Require Import Prelude RustStr Json ToolError Protocol Parse ParseTheorems.
From S2P Require Import Serde ToolRequests IdaRequest IdaWorker F64 RpcDispatch RpcTheorems.
From S2P Require Import RoutedTools LocalTools.

Open Scope ida_scope.

Section agreement.
Context {S : Type}.
Context (worker : ∀ c : WorkerCall, S → result (reply (wc_request c)) ToolError * S).
Context (json_parse : string → option Value) (json_display json_pretty : Value → string).
Context (de_message : DeError → string) (f64_text : f64 → string) (to_lowercase : string → string).

(** A router whose worker process has the same worker: the request reaches its dispatcher. *)
Definition transparent (handle : option string) (method : string) (params : Value) :
    S → result Value ToolError * S :=
  dispatch_rpc worker json_parse json_display de_message f64_text
    {| req_jsonrpc := "2.0"; req_id := ""; req_method := method; req_params := params |}.

#[local] Abbreviation answer := (answer json_pretty).

(** ** Requests in plain form *)

(** One address, which both parsers read alike. *)
Definition plain_address (v : Value) : bool :=
  match value_to_addresses json_parse v, parse_address_value v with
  | Ok [a], Some b => (a =? b)%Z
  | _, _ => false
  end.

Definition plain_opt_address (o : option Value) : bool :=
  match o with Some v => plain_address v | None => true end.

(** A limit within the bound of the local branch. *)
Definition within (bound : Z) (o : option Z) : bool :=
  match o with Some z => (z <=? bound)%Z | None => true end.

(** The same, where the defaults differ. *)
Definition given (bound : Z) (o : option Z) : bool :=
  match o with Some z => (z <=? bound)%Z | None => false end.

Lemma plain_address_spec v :
  plain_address v = true →
  ∃ a, value_to_addresses json_parse v = Ok [a] ∧ parse_address_value v = Some a.
Proof.
  unfold plain_address. destruct (value_to_addresses json_parse v) as [[|a [|]]|]; try done.
  destruct (parse_address_value v) as [b|]; [|done]. intros ->%Z.eqb_eq. by exists b.
Qed.

Lemma plain_addr_or_zero v : plain_address v = true →
  ∃ a, value_to_addresses json_parse v = Ok [a] ∧ addr_or_zero v = a.
Proof. intros (a & Ha & Hb)%plain_address_spec. exists a. by unfold addr_or_zero; rewrite Hb. Qed.

Lemma plain_number n : in_u64 n → plain_address (vz n) = true.
Proof.
  intros [Hn0 Hn1]. unfold plain_address, value_to_addresses, vz. cbn [value_to_strings num_to_string].
  assert (parse_address (fmt_dec n) = Ok n) as Hp.
  { rewrite parse_address_plain by (apply fmt_radix_digits; lia).
    unfold parse_u64, fmt_dec. by rewrite from_str_radix_fmt by lia. }
  cbn -[parse_address fmt_dec]. rewrite Hp. cbn. apply Z.eqb_refl.
Qed.

(** ** Through the router *)

Lemma answer_ext (m m' : S → result Value ToolError * S) s : m s = m' s → answer m s = answer m' s.
Proof. unfold LocalTools.answer. by intros ->. Qed.

(** A routed request reaches the arm of its method with the client's request. *)
Lemma routed_arm i t arm h (r : Struct (rt_fields t)) s :
  routed_tools json_parse !! i = Some t → bool_decide (rt_tool t ∉ lossy_tools) = true →
  lookup_method worker json_parse json_display de_message f64_text (rt_method t) = Some arm →
  struct_wf r →
  transparent h (rt_method t) (rt_params t r) s = arm (ser_struct (rt_fields t) r) s.
Proof.
  intros Ht%list_elem_of_lookup_2 Hl%bool_decide_eq_true Harm Hwf. unfold transparent.
  etrans; [exact (routed_request_same worker json_parse json_display de_message f64_text t "" r s Ht Hl Hwf)|].
  unfold dispatch_rpc, whole_request. cbn [req_method req_params].
  by rewrite (routed_name json_parse t Ht), Harm.
Qed.

(** ** Reading a plain request locally *)

Lemma within_min bound o d : within bound o = true → (d ≤ bound)%Z → Z.min (default d o) bound = default d o.
Proof. destruct o; cbn; [intros ?%Z.leb_le|]; lia. Qed.

Lemma given_min bound o d d' : given bound o = true → Z.min (default d o) bound = default d' o.
Proof. destruct o; cbn; [intros ?%Z.leb_le; lia|done]. Qed.

Lemma the_address_plain {A} v (k : Z → S → result A ToolError * S) s : plain_address v = true →
  rpc_bind (the_address json_parse v) k s = k (addr_or_zero v) s.
Proof.
  intros (a & Ha & Hb)%plain_addr_or_zero. unfold the_address, rpc_bind, rpc_lift, value_to_single_address.
  rewrite Ha. cbn. by rewrite Hb.
Qed.

Lemma the_opt_address_plain {A} o (k : option Z → S → result A ToolError * S) s : plain_opt_address o = true →
  rpc_bind (the_opt_address json_parse o) k s = k (opt_addr o) s.
Proof.
  destruct o as [v|]; [|done]. intros (a & Ha & Hb)%plain_address_spec.
  unfold the_opt_address, the_address, opt_addr, rpc_bind, rpc_lift, value_to_single_address.
  rewrite Ha. cbn. by rewrite Hb.
Qed.

Lemma at_addresses_plain key v (call : Z → S → result Value ToolError * S) s : plain_address v = true →
  at_addresses json_parse key v call s = call (addr_or_zero v) s.
Proof.
  intros (a & Ha & Hb)%plain_addr_or_zero. unfold at_addresses, the_addresses, rpc_bind, rpc_lift.
  rewrite Ha. cbn. by rewrite Hb.
Qed.

(** ** The tools in both modes *)

Record ToolPair : Type := Pair {
  tp_name : string;
  tp_fields : list Field;
  tp_tool : bool → Struct tp_fields → S → result CallToolResult McpError * S;
  tp_plain : Struct tp_fields → bool
}.

Definition agrees (p : ToolPair) : Prop :=
  ∀ (r : Struct (tp_fields p)) (s : S), struct_wf r → tp_plain p r = true →
    tp_tool p true r s = tp_tool p false r s.

Definition always {fs} (r : Struct fs) : bool := true.
Definition is_given {A} (o : option A) : bool := match o with Some _ => true | None => false end.

(** Lists of strings, patterns and addresses that both ends read alike. *)
Definition plain_strings (v : Value) : bool :=
  match value_to_strings json_parse v with
  | Ok l => bool_decide (l = parse_string_list v)
  | Err _ => false
  end.

Definition plain_patterns (v : Value) : bool :=
  match value_to_strings json_parse v with
  | Ok l => bool_decide (l = pattern_list json_parse v) && negb (bool_decide (l = []))
  | Err _ => false
  end.

Definition plain_address_list (v : Value) : bool :=
  match value_to_addresses json_parse v, as_array v with
  | Ok l, Some a => bool_decide (l = omap parse_address_value a)
  | _, _ => false
  end.

(** A name that is not itself a list. *)
Definition plain_query (v : Value) : bool :=
  match v with
  | VString q => match value_to_strings json_parse v with Ok l => bool_decide (l = [q]) | Err _ => false end
  | _ => false
  end.

Definition plain_bytes (v : Value) : bool :=
  match value_to_bytes v, parse_patch_bytes v with
  | Ok l, Ok l' => bool_decide (l = l')
  | _, _ => false
  end.

(** An address without an offset, or a name. *)
Definition plain_read_bytes (r : Struct GetBytesRequest) : bool :=
  given 65536 (r @ "size") &&
  match r @ "address", r @ "target_name" with
  | Some v, None => plain_address v && (default 0 (r @ "offset") =? 0)%Z
  | None, Some _ => true
  | _, _ => false
  end.

(** The tools that answer JSON from the worker. *)
Definition tool_pairs : list ToolPair :=
  [Pair "load_debug_info" LoadDebugInfoRequest
     (λ m, tool_load_debug_info worker m transparent json_pretty)
     always;
   Pair "list_functions" ListFunctionsRequest
     (λ m, tool_list_functions worker m transparent json_pretty)
     (λ r, within 10000 (r @ "limit"));
   Pair "list_funcs" ListFunctionsRequest
     (λ m, tool_list_functions worker m transparent json_pretty)
     (λ r, within 10000 (r @ "limit"));
   Pair "get_function_by_name" ResolveFunctionRequest
     (λ m, tool_get_function_by_name worker m transparent json_pretty)
     always;
   Pair "get_function_prototype" GetFunctionPrototypeRequest
     (λ m, tool_get_function_prototype worker m transparent json_pretty)
     always;
   Pair "get_address_info" AddrInfoRequest
     (λ m, tool_get_address_info worker m transparent json_parse json_pretty)
     (λ r, plain_opt_address (r @ "address"));
   Pair "get_function_at_address" FunctionAtRequest
     (λ m, tool_get_function_at_address worker m transparent json_parse json_pretty)
     (λ r, plain_opt_address (r @ "address"));
   Pair "get_pseudocode_at" PseudocodeAtRequest
     (λ m, tool_get_pseudocode_at worker m transparent json_parse json_pretty)
     (λ r, plain_address (r @ "address") && negb (is_given (r @ "end_address")));
   Pair "scan_memory_table" TableScanRequest
     (λ m, tool_scan_memory_table worker m transparent json_parse json_pretty)
     (λ r, plain_address (r @ "base_address"));
   Pair "list_strings" ListStringsRequest
     (λ m, tool_list_strings worker m transparent json_pretty)
     (λ r, within 10000 (r @ "limit"));
   Pair "get_xrefs_to_string" XrefsToStringRequest
     (λ m, tool_get_xrefs_to_string worker m transparent json_pretty)
     (λ r, within 10000 (r @ "limit") && is_given (r @ "max_xrefs"));
   Pair "get_xrefs_to" AddressRequest
     (λ m, tool_get_xrefs_to worker m transparent json_parse json_pretty)
     (λ r, plain_address (r @ "address"));
   Pair "get_xrefs_from" AddressRequest
     (λ m, tool_get_xrefs_from worker m transparent json_parse json_pretty)
     (λ r, plain_address (r @ "address"));
   Pair "list_imports" PaginatedRequest
     (λ m, tool_list_imports worker m transparent json_pretty)
     (λ r, within 10000 (r @ "limit"));
   Pair "list_exports" PaginatedRequest
     (λ m, tool_list_exports worker m transparent json_pretty)
     (λ r, within 10000 (r @ "limit"));
   Pair "read_bytes" GetBytesRequest
     (λ m, tool_read_bytes worker m transparent json_parse json_pretty)
     plain_read_bytes;
   Pair "get_basic_blocks" AddressRequest
     (λ m, tool_get_basic_blocks worker m transparent json_parse json_pretty)
     (λ r, plain_address (r @ "address"));
   Pair "get_callees" AddressRequest
     (λ m, tool_get_callees worker m transparent json_parse json_pretty)
     (λ r, plain_address (r @ "address"));
   Pair "get_callers" AddressRequest
     (λ m, tool_get_callers worker m transparent json_parse json_pretty)
     (λ r, plain_address (r @ "address"));
   Pair "batch_lookup_functions" LookupFuncsRequest
     (λ m, tool_batch_lookup_functions worker m transparent json_parse json_pretty)
     (λ r, plain_strings (r @ "queries"));
   Pair "list_globals" ListGlobalsRequest
     (λ m, tool_list_globals worker m transparent json_pretty)
     (λ r, within 10000 (r @ "limit"));
   Pair "read_byte" AddressRequest
     (λ m, tool_read_int worker m transparent json_parse json_pretty 1)
     (λ r, plain_address (r @ "address"));
   Pair "read_word" AddressRequest
     (λ m, tool_read_int worker m transparent json_parse json_pretty 2)
     (λ r, plain_address (r @ "address"));
   Pair "read_dword" AddressRequest
     (λ m, tool_read_int worker m transparent json_parse json_pretty 4)
     (λ r, plain_address (r @ "address"));
   Pair "read_qword" AddressRequest
     (λ m, tool_read_int worker m transparent json_parse json_pretty 8)
     (λ r, plain_address (r @ "address"));
   Pair "read_string" GetStringRequest
     (λ m, tool_read_string worker m transparent json_parse json_pretty)
     (λ r, plain_address (r @ "address") && given 65536 (r @ "max_len"));
   Pair "read_global_variable" GetGlobalValueRequest
     (λ m, tool_read_global_variable worker m transparent json_parse json_pretty)
     (λ r, plain_query (r @ "query"));
   Pair "find_control_flow_paths" FindPathsRequest
     (λ m, tool_find_control_flow_paths worker m transparent json_parse json_pretty)
     (λ r, plain_address (r @ "start") && plain_address (r @ "end") &&
            given 128 (r @ "max_paths") && given 2048 (r @ "max_depth"));
   Pair "build_callgraph" CallGraphRequest
     (λ m, tool_build_callgraph worker m transparent json_parse json_pretty)
     (λ r, plain_address (r @ "roots") && given 16 (r @ "max_depth") && given 10000 (r @ "max_nodes"));
   Pair "build_xref_matrix" XrefMatrixRequest
     (λ m, tool_build_xref_matrix worker m transparent json_parse json_pretty)
     (λ r, plain_address_list (r @ "addrs"));
   Pair "export_functions" ExportFuncsRequest
     (λ m, tool_export_functions worker m transparent json_parse json_pretty to_lowercase)
     (λ r, negb (is_given (r @ "addrs")) && negb (is_given (r @ "format")) && within 10000 (r @ "limit"));
   Pair "list_local_types" LocalTypesRequest
     (λ m, tool_list_local_types worker m transparent json_pretty)
     always;
   Pair "get_xrefs_to_struct_field" XrefsToFieldRequest
     (λ m, tool_get_xrefs_to_struct_field worker m transparent json_pretty)
     (λ r, given 10000 (r @ "limit"));
   Pair "set_comment" SetCommentsRequest
     (λ m, tool_set_comment worker m transparent json_parse json_pretty)
     (λ r, plain_opt_address (r @ "address"));
   Pair "set_function_comment" SetFunctionCommentRequest
     (λ m, tool_set_function_comment worker m transparent json_pretty)
     always;
   Pair "patch_assembly" PatchAsmRequest
     (λ m, tool_patch_assembly worker m transparent json_parse json_pretty)
     (λ r, plain_opt_address (r @ "address"));
   Pair "declare_c_type" DeclareTypeRequest
     (λ m, tool_declare_c_type worker m transparent json_pretty)
     always;
   Pair "get_stack_frame" AddressRequest
     (λ m, tool_get_stack_frame worker m transparent json_parse json_pretty)
     (λ r, plain_address (r @ "address"));
   Pair "create_stack_variable" DeclareStackRequest
     (λ m, tool_create_stack_variable worker m transparent json_parse json_pretty)
     (λ r, plain_opt_address (r @ "address"));
   Pair "delete_stack_variable" DeleteStackRequest
     (λ m, tool_delete_stack_variable worker m transparent json_parse json_pretty)
     (λ r, plain_opt_address (r @ "address"));
   Pair "rename_stack_variable" RenameStackVariableRequest
     (λ m, tool_rename_stack_variable worker m transparent json_pretty)
     always;
   Pair "set_stack_variable_type" SetStackVariableTypeRequest
     (λ m, tool_set_stack_variable_type worker m transparent json_pretty)
     always;
   Pair "list_enums" ListEnumsRequest
     (λ m, tool_list_enums worker m transparent json_pretty)
     always;
   Pair "create_enum" CreateEnumRequest
     (λ m, tool_create_enum worker m transparent json_pretty)
     always;
   Pair "list_structs" StructsRequest
     (λ m, tool_list_structs worker m transparent json_pretty)
     (λ r, within 10000 (r @ "limit"));
   Pair "get_struct_info" StructInfoRequest
     (λ m, tool_get_struct_info worker m transparent json_pretty)
     always;
   Pair "read_struct_at_address" ReadStructRequest
     (λ m, tool_read_struct_at_address worker m transparent json_parse json_pretty)
     (λ r, plain_address (r @ "address"));
   Pair "search_structs" StructsRequest
     (λ m, tool_search_structs worker m transparent json_pretty)
     always;
   Pair "search_instructions" FindInsnsRequest
     (λ m, tool_search_instructions worker m transparent json_parse json_pretty)
     (λ r, plain_patterns (r @ "patterns") && is_given (r @ "case_insensitive"));
   Pair "search_instruction_operands" FindInsnOperandsRequest
     (λ m, tool_search_instruction_operands worker m transparent json_parse json_pretty)
     (λ r, plain_patterns (r @ "patterns") && is_given (r @ "case_insensitive"));
   Pair "apply_type" ApplyTypesRequest
     (λ m, tool_apply_type worker m transparent json_parse json_pretty)
     (λ r, plain_opt_address (r @ "address"));
   Pair "set_function_prototype" SetFunctionPrototypeRequest
     (λ m, tool_set_function_prototype worker m transparent json_pretty)
     always;
   Pair "infer_type" InferTypesRequest
     (λ m, tool_infer_type worker m transparent json_parse json_pretty)
     (λ r, plain_opt_address (r @ "address"));
   Pair "run_auto_analysis" AnalyzeFuncsRequest
     (λ m, tool_run_auto_analysis worker m transparent json_pretty)
     always;
   Pair "rename_symbol" RenameRequest
     (λ m, tool_rename_symbol worker m transparent json_parse json_pretty)
     (λ r, plain_opt_address (r @ "address"));
   Pair "batch_rename" BatchRenameRequest
     (λ m, tool_batch_rename worker m transparent json_pretty)
     always;
   Pair "rename_local_variable" RenameLvarRequest
     (λ m, tool_rename_local_variable worker m transparent json_parse json_pretty)
     (λ r, plain_address (r @ "func_address"));
   Pair "set_local_variable_type" SetLvarTypeRequest
     (λ m, tool_set_local_variable_type worker m transparent json_parse json_pretty)
     (λ r, plain_address (r @ "func_address"));
   Pair "set_decompiler_comment" SetDecompilerCommentRequest
     (λ m, tool_set_decompiler_comment worker m transparent json_parse json_pretty)
     (λ r, plain_address (r @ "func_address") && plain_address (r @ "address"));
   Pair "patch_bytes" PatchRequest
     (λ m, tool_patch_bytes worker m transparent json_parse json_pretty)
     (λ r, plain_opt_address (r @ "address") && plain_bytes (r @ "bytes"))].

Ltac read_locally :=
  repeat match goal with
  | H : _ && _ = true |- _ => apply andb_true_iff in H as [? H]
  | H : within ?b ?o = true |- context [Z.min (default ?d ?o) ?b] => rewrite (within_min b o d H) by lia
  | H : given ?b ?o = true |- context [Z.min (default ?d ?o) ?b] =>
      lazymatch goal with |- context [default ?d' o] => rewrite (given_min b o d d' H) end
  | H : is_given ?o = true |- _ => destruct o; [clear H|discriminate H]
  | H : negb (is_given ?o) = true |- _ => destruct o; [discriminate H|clear H]
  | H : plain_address ?v = true |- context [rpc_bind (the_address _ ?v) ?k ?s] =>
      rewrite (the_address_plain v k s H)
  | H : plain_opt_address ?o = true |- context [rpc_bind (the_opt_address _ ?o) ?k ?s] =>
      rewrite (the_opt_address_plain o k s H)
  | H : plain_address ?v = true |- context [at_addresses _ ?key ?v ?call ?s] =>
      rewrite (at_addresses_plain key v call s H)
  end.

Ltac arm_of i r :=
  let t := eval hnf in (routed_tools json_parse !! i) in
  lazymatch t with
  | Some ?t => refine (routed_arm i t _ _ r _ eq_refl eq_refl eq_refl _); (assumption || idtac)
  end.

Ltac agree i :=
  intros r s Hwf Hplain; cbn [tp_fields tp_tool tp_plain] in *; autounfold with tools;
  unfold forward, route_or_err; apply answer_ext;
  etrans;
  [arm_of i r|];
  cbn [rt_fields snd]; autounfold with rpc; rewrite ?whole_params by done; read_locally; try reflexivity.

Ltac next_pair tac := apply Forall_cons_2; [solve [tac]|].

Lemma as_bool_option o : as_bool (ser_option bool_codec o) = o.
Proof. by destruct o. Qed.

Lemma as_usize_option o : option_wf usize_codec o → as_u64 (ser_option usize_codec o) = o.
Proof. exact (as_u64_option o). Qed.

(** ** Tools with forms of their own *)

Lemma prototype_local (r : Struct GetFunctionPrototypeRequest) s :
  struct_wf r → always r = true →
  tool_get_function_prototype worker true transparent json_pretty r s =
  tool_get_function_prototype worker false transparent json_pretty r s.
Proof.
  intros Hwf _. unfold tool_get_function_prototype, forward, route_or_err. apply answer_ext.
  etrans; [arm_of 4 r|]. cbn [rt_fields snd]. destruct r as [[db [a [n []]]]]. unfold rpc_get_function_prototype.
  set (r := MkStruct _). set (b := ser_struct GetFunctionPrototypeRequest r).
  destruct db as [db|];
    index_is b "address" (ser_option value_codec a); index_is b "name" (ser_option string_codec n);
    rewrite as_str_option; by destruct a.
Qed.

Lemma list_strings_local (r : Struct ListStringsRequest) s :
  struct_wf r → within 10000 (r @ "limit") = true →
  tool_list_strings worker true transparent json_pretty r s =
  tool_list_strings worker false transparent json_pretty r s.
Proof.
  intros Hwf Hplain. unfold tool_list_strings, forward, route_or_err. apply answer_ext.
  etrans; [arm_of 16 r|]. cbn [rt_fields snd]. read_locally.
  destruct r as [[db [q [f [e [ci [o [l [t []]]]]]]]]]. cbn in Hwf.
  destruct Hwf as (_ & _ & _ & _ & _ & Ho & Hl & Ht & _).
  unfold rpc_list_strings. set (r := MkStruct _). set (b := ser_struct ListStringsRequest r).
  destruct db as [db|];
    index_is b "query" (ser_option string_codec q); index_is b "filter" (ser_option string_codec f);
    index_is b "exact" (ser_option bool_codec e);
    index_is b "case_insensitive" (ser_option bool_codec ci);
    index_is b "offset" (ser_option usize_codec o); index_is b "limit" (ser_option usize_codec l);
    index_is b "timeout_secs" (ser_option u64_codec t);
    rewrite !as_str_option, !as_bool_option, !as_usize_option, as_u64_option by done; by destruct q, f.
Qed.

Lemma pseudocode_local (r : Struct PseudocodeAtRequest) s :
  struct_wf r → plain_address (r @ "address") && negb (is_given (r @ "end_address")) = true →
  tool_get_pseudocode_at worker true transparent json_parse json_pretty r s =
  tool_get_pseudocode_at worker false transparent json_parse json_pretty r s.
Proof.
  intros _ Hplain. unfold tool_get_pseudocode_at, forward, route_or_err. apply answer_ext.
  etrans; [apply (routed_pseudocode_drops_end worker de_message r s)|].
  apply andb_true_iff in Hplain as [(a & Ha & Hb)%plain_addr_or_zero Hend].
  destruct (r @ "end_address"); [done|]. unfold the_addresses, rpc_bind at 1, rpc_lift.
  by rewrite Ha, Hb.
Qed.

Lemma read_int_local size (r : Struct AddressRequest) s :
  struct_wf r → plain_address (r @ "address") = true →
  tool_read_int worker true transparent json_parse json_pretty size r s =
  tool_read_int worker false transparent json_parse json_pretty size r s.
Proof.
  intros _ Hplain. unfold tool_read_int, get_int_values, forward, route_or_err. apply answer_ext.
  etrans; [apply (routed_read_int worker size r s)|]. by read_locally.
Qed.

Lemma scan_local (r : Struct TableScanRequest) s :
  struct_wf r → plain_address (r @ "base_address") = true →
  tool_scan_memory_table worker true transparent json_parse json_pretty r s =
  tool_scan_memory_table worker false transparent json_parse json_pretty r s.
Proof.
  intros Hwf (a & Ha & Hb)%plain_address_spec. unfold tool_scan_memory_table, forward, route_or_err.
  unfold mcp_bind, the_address, rpc_lift, value_to_single_address. rewrite Ha. cbn [result_bind head ok_or].
  apply answer_ext. etrans; [arm_of 14 r|]. cbn [rt_fields snd]. autounfold with rpc.
  rewrite whole_params by done. by rewrite Hb.
Qed.

Lemma read_bytes_plain (r : Struct GetBytesRequest) s : plain_read_bytes r = true →
  rpc_bind (worker (Worker.get_bytes (opt_addr (r @ "address")) (r @ "target_name")
              (default 0%Z (r @ "offset")) (default 16%Z (r @ "size")))) (λ x, rpc_ret (bytes_value x)) s =
  match r @ "address", r @ "target_name" with
  | Some v, _ => at_addresses json_parse "bytes" v
      (λ addr, bytes_answer (worker (Worker.get_bytes (Some addr) None 0 (Z.min (default 256%Z (r @ "size")) 65536))))
  | None, Some name =>
      bytes_answer (worker (Worker.get_bytes None (Some name) (default 0%Z (r @ "offset"))
                             (Z.min (default 256%Z (r @ "size")) 65536)))
  | None, None => rpc_fail (InvalidParams "address or name required")
  end s.
Proof.
  intros [Hsize Hform]%andb_true_iff. rewrite (given_min _ _ 256 16 Hsize).
  destruct (r @ "address") as [v|], (r @ "target_name") as [n|]; try done.
  apply andb_true_iff in Hform as [Hv ->%Z.eqb_eq]. rewrite at_addresses_plain by done.
  apply plain_address_spec in Hv as (a & _ & Hb). unfold bytes_answer, opt_addr, addr_or_zero. cbn. by rewrite Hb.
Qed.

Lemma lifted_plain {A} (m : result A ToolError) a (k : A → S → result Value ToolError * S) s :
  m = Ok a → rpc_bind (rpc_lift m) k s = k a s.
Proof. by intros ->. Qed.

Lemma strings_plain v (k : list string → S → result Value ToolError * S) s : plain_strings v = true →
  rpc_bind (rpc_lift (value_to_strings json_parse v)) k s = k (parse_string_list v) s.
Proof.
  unfold plain_strings. destruct (value_to_strings json_parse v) eqn:E; [|done].
  by intros <-%bool_decide_eq_true.
Qed.

Lemma patterns_plain v (k : list string → S → result Value ToolError * S) s : plain_patterns v = true →
  rpc_bind (instruction_patterns json_parse v) k s = k (pattern_list json_parse v) s.
Proof.
  unfold plain_patterns, instruction_patterns. destruct (value_to_strings json_parse v) as [l|]; [|done].
  intros [<-%bool_decide_eq_true Hne%negb_true_iff]%andb_true_iff. unfold rpc_bind, rpc_lift. by rewrite Hne.
Qed.

Lemma query_plain v s : plain_query v = true →
  worker (Worker.get_global_value
            match v with
            | Null => json_display Null | Bool b => json_display (Bool b) | Number n => json_display (Number n)
            | VString q => q | Array l => json_display (Array l) | Object m => json_display (Object m)
            end) s =
  rpc_bind (rpc_lift (value_to_strings json_parse v)) (λ queries,
    single_or_each "query" (λ q, q) "value" (λ q, worker (Worker.get_global_value q)) queries) s.
Proof.
  destruct v as [| | |q| |]; try done. unfold plain_query.
  destruct (value_to_strings json_parse (VString q)); [|done]. by intros ->%bool_decide_eq_true.
Qed.

Lemma callgraph_plain v d n s : plain_address v = true →
  worker (Worker.callgraph (callgraph_root v) d n) s =
  rpc_bind (the_addresses json_parse v) (λ roots,
    single_or_each "root" fmt_hex_alt "callgraph" (λ root, worker (Worker.callgraph root d n)) roots) s.
Proof.
  intros (a & Ha & Hb)%plain_address_spec. unfold the_addresses, rpc_bind, rpc_lift. rewrite Ha. cbn.
  unfold callgraph_root. destruct v; try done; by rewrite Hb.
Qed.

Lemma address_list_plain v s : plain_address_list v = true →
  worker (Worker.xref_matrix match as_array v with Some a => omap parse_address_value a | None => [] end) s =
  rpc_bind (the_addresses json_parse v) (λ addrs, worker (Worker.xref_matrix addrs)) s.
Proof.
  unfold plain_address_list, the_addresses, rpc_bind, rpc_lift.
  destruct (value_to_addresses json_parse v), (as_array v); try done. by intros ->%bool_decide_eq_true.
Qed.

Lemma bytes_plain v (k : list Z → S → result Value ToolError * S) s : plain_bytes v = true →
  rpc_bind (rpc_lift (parse_patch_bytes v)) k s = rpc_bind (rpc_lift (value_to_bytes v)) k s.
Proof.
  unfold plain_bytes. destruct (value_to_bytes v), (parse_patch_bytes v); try done.
  by intros ->%bool_decide_eq_true.
Qed.

Lemma pairs_agree : Forall agrees tool_pairs.
Proof.
  unfold tool_pairs.
  next_pair ltac:(agree 0).
  next_pair ltac:(agree 1).
  next_pair ltac:(agree 2).
  next_pair ltac:(agree 3).
  next_pair ltac:(exact prototype_local).
  next_pair ltac:(agree 5).
  next_pair ltac:(agree 6).
  next_pair ltac:(exact pseudocode_local).
  next_pair ltac:(exact scan_local).
  next_pair ltac:(exact list_strings_local).
  next_pair ltac:(agree 17).
  next_pair ltac:(agree 18).
  next_pair ltac:(agree 19).
  next_pair ltac:(agree 20).
  next_pair ltac:(agree 21).
  next_pair ltac:(agree 22; by apply read_bytes_plain).
  next_pair ltac:(agree 23).
  next_pair ltac:(agree 24).
  next_pair ltac:(agree 25).
  next_pair ltac:(agree 26; by rewrite strings_plain by done).
  next_pair ltac:(agree 27).
  next_pair ltac:(exact (read_int_local _)).
  next_pair ltac:(exact (read_int_local _)).
  next_pair ltac:(exact (read_int_local _)).
  next_pair ltac:(exact (read_int_local _)).
  next_pair ltac:(agree 33).
  next_pair ltac:(agree 34; by apply query_plain).
  next_pair ltac:(agree 35).
  next_pair ltac:(agree 36; by apply callgraph_plain).
  next_pair ltac:(agree 37; by apply address_list_plain).
  next_pair ltac:(agree 38).
  next_pair ltac:(agree 39).
  next_pair ltac:(agree 40).
  next_pair ltac:(agree 41).
  next_pair ltac:(agree 42).
  next_pair ltac:(agree 43).
  next_pair ltac:(agree 44).
  next_pair ltac:(agree 45).
  next_pair ltac:(agree 46).
  next_pair ltac:(agree 47).
  next_pair ltac:(agree 48).
  next_pair ltac:(agree 49).
  next_pair ltac:(agree 50).
  next_pair ltac:(agree 51).
  next_pair ltac:(agree 52).
  next_pair ltac:(agree 53).
  next_pair ltac:(agree 54).
  next_pair ltac:(agree 55).
  next_pair ltac:(agree 56; by rewrite patterns_plain by done).
  next_pair ltac:(agree 57; by rewrite patterns_plain by done).
  next_pair ltac:(agree 58).
  next_pair ltac:(agree 59).
  next_pair ltac:(agree 60).
  next_pair ltac:(agree 61).
  next_pair ltac:(agree 62).
  next_pair ltac:(agree 63).
  next_pair ltac:(agree 64).
  next_pair ltac:(agree 65).
  next_pair ltac:(agree 66).
  next_pair ltac:(agree 67; by apply bytes_plain).
  constructor.
Qed.

(** ** Where the modes differ *)

Ltac by_arm i r :=
  etrans; [arm_of i r; cbn; repeat split; done|]; cbn [rt_fields snd]; autounfold with rpc;
  rewrite whole_params by (done || (cbn; repeat split; done)); try reflexivity; try congruence.

(** Without the optional parameters the two modes ask the worker for different things: other
    sizes, other depths, another treatment of upper and lower case. *)
Theorem mode_defaults_differ (v : Value) (q : string) (s : S)
    (Hv : plain_address v = true) (Hq : plain_patterns (VString q) = true) :
  let a := addr_or_zero v in
  let bytes m := tool_read_bytes worker m transparent json_parse json_pretty
    (MkStruct (fs := GetBytesRequest) (None, (Some v, (None, (None, (None, tt)))))) s in
  let text m := tool_read_string worker m transparent json_parse json_pretty
    (MkStruct (fs := GetStringRequest) (None, (v, (None, tt)))) s in
  let graph m := tool_build_callgraph worker m transparent json_parse json_pretty
    (MkStruct (fs := CallGraphRequest) (None, (v, (None, (None, tt))))) s in
  let insns m := tool_search_instructions worker m transparent json_parse json_pretty
    (MkStruct (fs := FindInsnsRequest) (None, (VString q, (None, (None, (None, tt)))))) s in
  bytes true = answer (bytes_answer (worker (Worker.get_bytes (Some a) None 0 16))) s ∧
  bytes false = answer (bytes_answer (worker (Worker.get_bytes (Some a) None 0 256))) s ∧
  text true = answer (worker (Worker.get_string a 1024)) s ∧
  text false = answer (worker (Worker.get_string a 256)) s ∧
  graph true = answer (worker (Worker.callgraph a 5 100)) s ∧
  graph false = answer (worker (Worker.callgraph a 2 256)) s ∧
  insns true = answer (worker (Worker.find_insns (pattern_list json_parse (VString q)) 100 true None)) s ∧
  insns false = answer (worker (Worker.find_insns (pattern_list json_parse (VString q)) 100 false None)) s.
Proof.
  pose proof (plain_address_spec v Hv) as (a & Ha & Hb).
  assert (callgraph_root v = addr_or_zero v) as Hroot
    by (unfold callgraph_root, addr_or_zero; destruct v; try done).
  assert (v ≠ Null) as Hnull by (by intros ->).
  cbv zeta. autounfold with tools. unfold forward, route_or_err. cbn iota. split_and!; apply answer_ext.
  - by_arm 22 (MkStruct (fs := GetBytesRequest) (None, (Some v, (None, (None, (None, tt)))))).
    unfold opt_addr, addr_or_zero. cbn. by rewrite Hb.
  - exact (at_addresses_plain _ v _ s Hv).
  - by_arm 33 (MkStruct (fs := GetStringRequest) (None, (v, (None, tt)))).
  - exact (at_addresses_plain _ v _ s Hv).
  - rewrite <-Hroot. by_arm 36 (MkStruct (fs := CallGraphRequest) (None, (v, (None, (None, tt))))).
  - rewrite <-Hroot. symmetry. exact (callgraph_plain v 2 256 s Hv).
  - by_arm 56 (MkStruct (fs := FindInsnsRequest) (None, (VString q, (None, (None, (None, tt)))))).
  - exact (patterns_plain (VString q) (λ l, worker (Worker.find_insns l 100 false None)) s Hq).
Qed.

(** ** Pages of search results *)

(** A loop that always goes on and never fails. *)
Lemma rpc_for_appends {A B} (f : A → S → B * S) l : ∀ acc s,
  ∃ rs s', rpc_for (λ acc x s, let '(y, s') := f x s in (Ok (acc ++ [y], true), s')) acc l s = (Ok (acc ++ rs), s') ∧
    Forall2 (λ x y, ∃ s s', f x s = (y, s')) l rs.
Proof.
  induction l as [|x l IH]; intros acc s; cbn.
  { exists [], s. by rewrite app_nil_r. }
  unfold rpc_bind. destruct (f x s) as [y s1] eqn:Hf. cbn.
  destruct (IH (acc ++ [y]) s1) as (rs & s' & -> & Hrs). exists (y :: rs), s'. rewrite <-app_assoc.
  split; [done|]. constructor; eauto.
Qed.

Lemma rpc_for_ext {A B} (f g : B → A → S → result (B * bool) ToolError * S) :
  (∀ b x s, f b x s = g b x s) → ∀ l b s, rpc_for f b l s = rpc_for g b l s.
Proof.
  intros Hfg l. induction l as [|x l IH]; intros b s; [done|]. cbn. unfold rpc_bind. rewrite <-Hfg.
  destruct (f b x s) as [[[b' []]|e] s']; [apply IH|done|done].
Qed.

Lemma page_next id subject offset limit value :
  id = "pattern" ∨ id = "target" →
  (length (default [] (get "matches" value ≫= as_array)) ≤ Z.to_nat (usize_add offset limit)) →
  index (page_matches id subject offset limit value) "next_offset" = Null.
Proof.
  intros Hid Hlen. unfold page_matches. cbv zeta.
  assert (0 ≤ usize_add offset limit)%Z by (pose proof (wrap64_in (offset + limit)); unfold usize_add, in_u64 in *; lia).
  rewrite (proj2 (Z.ltb_ge _ _)) by lia. by destruct Hid as [-> | ->].
Qed.

Lemma search_each_pages id offset limit (call : Z → string → S → result Value ToolError * S) subjects s :
  id = "pattern" ∨ id = "target" →
  (∀ m x s v s', call m x s = (Ok v, s') → length (default [] (get "matches" v ≫= as_array)) ≤ Z.to_nat m) →
  ∃ rs s', search_each id offset limit call subjects s = (Ok (obj [("results", Array rs)]), s') ∧
    length rs = length subjects ∧ Forall (λ r, index r "next_offset" = Null) rs.
Proof.
  intros Hid Hcall. unfold search_each.
  set (f := λ subject s, let '(r, s') := call (Z.min (usize_add offset limit) 20000) subject s in
    (match r with
     | Ok value => page_matches id subject offset limit value
     | Err e => obj [(id, VString subject); ("error", VString (error_to_string e))]
     end, s')).
  destruct (rpc_for_appends f subjects [] s) as (rs & s' & Hfor & Hrs).
  exists rs, s'. unfold rpc_bind at 1. split; [|split].
  - match goal with |- (match ?m with _ => _ end) = _ =>
      replace m with (Ok ([] ++ rs) : result (list Value) ToolError, s'); [done|] end.
    rewrite <-Hfor. apply rpc_for_ext. intros acc x s1. unfold rpc_bind, rpc_try, rpc_ret, f.
    by destruct (call _ x s1) as [[v|e] s2].
  - symmetry. by eapply Forall2_length.
  - clear Hfor. induction Hrs as [|x y l rs (s1 & s2 & Hf) _ IH]; [constructor|]. constructor; [|done].
    unfold f in Hf. destruct (call _ x s1) as [[v|e] s3] eqn:Hc; simplify_eq.
    + apply page_next; [done|]. apply Hcall in Hc. lia.
    + by destruct Hid as [-> | ->].
Qed.

(** The pages of a byte search end at the first one.  The tool asks the worker for at most
    [offset + limit] matches and says that there is a next page only when it got more than
    that; so if the worker keeps to the number it is asked for, as the search handler does, no
    result ever has a next offset, however many matches the database has. *)
Theorem search_bytes_single_page (r : Struct FindBytesRequest) (patterns : list string) (s : S)
    (Hpat : value_to_strings json_parse (r @ "patterns") = Ok patterns)
    (Hworker : ∀ p m t s v s', worker (Worker.find_bytes p m t) s = (Ok v, s') →
       length (default [] (get "matches" (v : Value) ≫= as_array)) ≤ Z.to_nat m) :
  ∃ rs s', tool_search_bytes worker false transparent json_parse json_pretty r s =
      (Ok (success (json_pretty (obj [("results", Array rs)]))), s') ∧
    length rs = length patterns ∧ Forall (λ x, index x "next_offset" = Null) rs.
Proof.
  destruct (search_each_pages "pattern" (default 0%Z (r @ "offset")) (Z.min (default 100%Z (r @ "limit")) 10000)
    (λ m p, worker (Worker.find_bytes p m (r @ "timeout_secs"))) patterns s) as (rs & s' & Hrun & Hrs);
    [by left|by intros; eapply Hworker|].
  exists rs, s'. split; [|done]. unfold tool_search_bytes, forward, LocalTools.answer, rpc_bind, rpc_lift.
  by rewrite Hpat, Hrun.
Qed.

(** A search for an immediate in hexadecimal: this process looks for the number, the router is
    asked for zero. *)
Theorem routed_hex_immediate_is_zero (req : Struct SearchRequest) (n : Z) (Hn : in_u64 n) :
  (routed_search req "imm" (fmt_hex_alt n)).1 = "search_imm" ∧
  index (routed_search req "imm" (fmt_hex_alt n)).2 "imm" = vz 0 ∧
  parse_address (fmt_hex_alt n) = Ok n.
Proof.
  assert (parse_u64 (fmt_hex_alt n) = None) as Hu by reflexivity.
  unfold routed_search. cbn [is_imm_kind fst snd]. change (is_imm_kind "imm") with true. cbv iota. rewrite Hu.
  split_and!; [done| |].
  - set (p := obj _). by index_is p "imm" (vz 0).
  - unfold fmt_hex_alt. destruct Hn. rewrite (parse_address_prefixed "x" 16) by (try apply fmt_radix_digits; (lia || tauto)).
    unfold fmt_hex. by rewrite from_str_radix_fmt by lia.
Qed.
End agreement.

(** ** Runs *)

Definition sample_matcher (c : WorkerCall) (s : nat) : result (reply (wc_request c)) ToolError * nat :=
  match wc_request c as r return result (reply r) ToolError * nat with
  | FindBytes _ m => (Ok (obj [("matches", Array (replicate (Z.to_nat m) Null))]), s + 1)
  | _ => (Err WorkerClosed, s)
  end.

Lemma search_bytes_single_page_witness :
  ∃ rs s', tool_search_bytes sample_matcher false (transparent sample_matcher (λ _, None) (λ _, "") (λ _, "") (λ _, ""))
      (λ _, None) (λ _, "json")
      (MkStruct (fs := FindBytesRequest) (None, (VString "90 90", (Some 2%Z, (None, (None, tt)))))) 0 =
      (Ok (success "json"), s') ∧ length rs = 1 ∧ Forall (λ x, index x "next_offset" = Null) rs.
Proof.
  apply (search_bytes_single_page sample_matcher (λ _, None) (λ _, "") (λ _, "json") (λ _, "") (λ _, "")
           (MkStruct (fs := FindBytesRequest) (None, (VString "90 90", (Some 2%Z, (None, (None, tt)))))) ["90 90"] 0).
  - reflexivity.
  - intros p m t s v s' Hw. cbn in Hw. injection Hw as <- <-.
    change (length (replicate (Z.to_nat m) Null) ≤ Z.to_nat m). by rewrite length_replicate.
Defined.

Definition sample_pair_request : Struct AddressRequest :=
  MkStruct (fs := AddressRequest) (None, (VString "0x401000", tt)).

Definition sample_pair : ToolPair (S := nat) :=
  Pair "read_dword" AddressRequest
    (λ m, tool_read_int sample_worker m
            (transparent sample_worker (λ _, None) (λ _, "") (λ _, "") (λ _, "")) (λ _, None) (λ _, "json") 4)
    (λ r, plain_address (λ _, None) (r @ "address")).

