(* ===== verification/DebugScripts.v ===== *)
(** * The debugger's scripts (src/ida/handlers/debug/)

    The debugger tools write Python scripts and read the JSON that the last line of their
    output holds.  The texts are those of the source (a back quote stands for the double
    quote); what the scripts do inside IDA is not modelled. *)

From Stdlib Require Import Ascii.
From stdpp Require Import base strings numbers list.
From S2P Require Import Prelude RustStr Json ToolError IdatCompat PyText MiscHandlers.

Open Scope ida_scope.

(** ** mod.rs *)

Definition HEADLESS_PREAMBLE : string :=
  py "
import json, ida_dbg, ida_idd, idaapi

DSTATE_SUSP = -1
DSTATE_NOTASK = 0
DSTATE_RUN = 1

WFNE_ANY = 1
WFNE_SUSP = 2
WFNE_SILENT = 4
WFNE_CONT = 8
WFNE_NOWAIT = 16
WFNE_USEC = 32

def safe_hex(v):
    if v is None:
        return None
    try:
        if v == 0xFFFFFFFFFFFFFFFF:
            return None
        return hex(v)
    except Exception:
        return None

def make_result(success, data=None, error=None):
    r = {`success`: success, `error`: error, `data`: data}
    print(json.dumps(r))
".

Section output.
Context (json_parse : string → option Value) (json_display : Value → string).

Definition parse_debug_output (output : Value) : result Value ToolError :=
  let stdout := default "" (get "stdout" output ≫= as_str) in
  match last_non_empty_line stdout with
  | None => Err (IdaError "Debug script produced no JSON output")
  | Some line =>
      match json_parse line with
      | None => Err (IdaError "Debug script produced no JSON output")
      | Some parsed =>
          if bool_decide (get "success" parsed ≫= as_bool = Some true) then Ok parsed
          else
            Err (IdaError
              (match get "error" parsed ≫= as_str with
               | Some msg => msg
               | None => match get "error" parsed with
                         | Some v => json_display v
                         | None => "Debug script failed"
                         end
               end))
      end
  end.
End output.

Definition build_script (body : string) : string := HEADLESS_PREAMBLE +:+ newline +:+ body.

(** [find_debug_server_path], on macOS (by architecture) and on Linux. *)
Inductive TargetOs : Type := MacOs (aarch64 : bool) | Linux | OtherOs.

Definition debug_server_candidates (os : TargetOs) : list string :=
  match os with
  | MacOs aarch64 =>
      (λ app, "/Applications/" +:+ app +:+ ".app/Contents/MacOS/dbgsrv/" +:+
              (if aarch64 then "mac_server_arm" else "mac_server")) <$>
        ["IDA Professional 9.3"; "IDA Professional 9.2"; "IDA Home 9.3"; "IDA Essential 9.3"]
  | Linux => (λ base, base +:+ "/dbgsrv/linux_server64") <$> ["/opt/idapro-9.3"; "/opt/idapro-9.2"]
  | OtherOs => []
  end.

Definition find_debug_server_path (os : TargetOs) (exists_ : string → bool) : option string :=
  find exists_ (debug_server_candidates os).

(** [cond.replace('`', "\\`")], with a double quote for the back quote. *)
Definition dbg_escape (s : string) : string := str_replace quote (backslash +:+ quote) s.

Definition py_true (b : bool) : string := if b then "True" else "False".
Definition py_quoted (o : option string) : string :=
  match o with Some p => quote +:+ dbg_escape p +:+ quote | None => "None" end.

(** ** breakpoint.rs *)

Definition condition_template : string :=
  py "
if ok:
    bpt = ida_dbg.bpt_t()
    if ida_dbg.get_bpt({address}, bpt):
        bpt.condition = `{cond}`
        ida_dbg.update_bpt(bpt)
".

Definition add_breakpoint_template : string :=
  py "
bpt_types = {{`soft`: 4, `exec`: 8, `write`: 1, `read`: 2, `rdwr`: 3, `default`: 12}}
btype = bpt_types.get(`{bpt_type}`, 12)
ok = ida_dbg.add_bpt({address}, {size}, btype)
{condition_block}
make_result(ok, {{`address`: safe_hex({address}), `added`: ok, `type`: btype}})
".

Definition generate_add_breakpoint_script (address size : Z) (bpt_type : string) (condition : option string) : string :=
  let condition_block :=
    match condition with
    | Some cond => format condition_template [("address", fmt_dec address); ("cond", dbg_escape cond)]
    | None => ""
    end in
  build_script (format add_breakpoint_template
    [("bpt_type", bpt_type); ("address", fmt_dec address); ("size", fmt_dec size);
     ("condition_block", condition_block)]).

Definition del_breakpoint_template : string :=
  py "
ok = ida_dbg.del_bpt({address})
make_result(ok, {{`address`: safe_hex({address}), `deleted`: ok}})
".

Definition generate_del_breakpoint_script (address : Z) : string :=
  build_script (format del_breakpoint_template [("address", fmt_dec address)]).

Definition enable_breakpoint_template : string :=
  py "
ok = ida_dbg.enable_bpt({address}, {enable_py})
make_result(ok, {{`address`: safe_hex({address}), `enabled`: {enable_py}, `ok`: ok}})
".

Definition generate_enable_breakpoint_script (address : Z) (enable : bool) : string :=
  build_script (format enable_breakpoint_template [("address", fmt_dec address); ("enable_py", py_true enable)]).

Definition list_breakpoints_template : string :=
  py "
bpts = []
for i in range(ida_dbg.get_bpt_qty()):
    bpt = ida_dbg.bpt_t()
    if ida_dbg.getn_bpt(i, bpt):
        bpts.append({
            `address`: safe_hex(bpt.ea),
            `type`: bpt.type,
            `size`: bpt.size,
            `enabled`: bool(bpt.flags & 0x008),
            `condition`: str(bpt.condition) if bpt.condition else None,
        })
make_result(True, {`breakpoints`: bpts, `count`: len(bpts)})
".

Definition generate_list_breakpoints_script : string :=
  build_script list_breakpoints_template.

(** ** execution.rs *)

Definition continue_template : string :=
  py "
state = ida_dbg.get_process_state()
if state != -1:
    make_result(False, error=f`Cannot continue: state={{state}}, need DSTATE_SUSP(-1)`)
else:
    ida_dbg.continue_process()
    code = ida_dbg.wait_for_next_event(WFNE_CONT | WFNE_SUSP | WFNE_SILENT, {timeout})
    evt = ida_dbg.get_debug_event()
    ip = safe_hex(ida_dbg.get_ip_val())
    make_result(True, {{
        `event_code`: code,
        `ip`: ip,
        `state`: ida_dbg.get_process_state(),
        `event_id`: evt.eid() if evt else None,
    }})
".

Definition generate_continue_script (timeout : Z) : string :=
  build_script (format continue_template [("timeout", fmt_dec timeout)]).

Definition step_into_template : string :=
  py "
state = ida_dbg.get_process_state()
if state != -1:
    make_result(False, error=f`Cannot step into: state={{state}}, need DSTATE_SUSP(-1)`)
else:
    ok = ida_dbg.step_into()
    if not ok:
        make_result(False, error=`step_into() returned False`)
    else:
        code = ida_dbg.wait_for_next_event(WFNE_SUSP | WFNE_SILENT, {timeout})
        ip = safe_hex(ida_dbg.get_ip_val())
        make_result(True, {{`event_code`: code, `ip`: ip, `state`: ida_dbg.get_process_state(), `step_ok`: ok}})
".

Definition generate_step_into_script (timeout : Z) : string :=
  build_script (format step_into_template [("timeout", fmt_dec timeout)]).

Definition step_over_template : string :=
  py "
state = ida_dbg.get_process_state()
if state != -1:
    make_result(False, error=f`Cannot step over: state={{state}}, need DSTATE_SUSP(-1)`)
else:
    ok = ida_dbg.step_over()
    if not ok:
        make_result(False, error=`step_over() returned False`)
    else:
        code = ida_dbg.wait_for_next_event(WFNE_SUSP | WFNE_SILENT, {timeout})
        ip = safe_hex(ida_dbg.get_ip_val())
        make_result(True, {{`event_code`: code, `ip`: ip, `state`: ida_dbg.get_process_state(), `step_ok`: ok}})
".

Definition generate_step_over_script (timeout : Z) : string :=
  build_script (format step_over_template [("timeout", fmt_dec timeout)]).

Definition step_until_ret_template : string :=
  py "
state = ida_dbg.get_process_state()
if state != -1:
    make_result(False, error=f`Cannot step until ret: state={{state}}, need DSTATE_SUSP(-1)`)
else:
    ok = ida_dbg.step_until_ret()
    if not ok:
        make_result(False, error=`step_until_ret() returned False`)
    else:
        code = ida_dbg.wait_for_next_event(WFNE_SUSP | WFNE_SILENT, {timeout})
        ip = safe_hex(ida_dbg.get_ip_val())
        make_result(True, {{`event_code`: code, `ip`: ip, `state`: ida_dbg.get_process_state(), `step_ok`: ok}})
".

Definition generate_step_until_ret_script (timeout : Z) : string :=
  build_script (format step_until_ret_template [("timeout", fmt_dec timeout)]).

Definition run_to_template : string :=
  py "
state = ida_dbg.get_process_state()
if state != -1:
    make_result(False, error=f`Cannot run_to: state={{state}}, need DSTATE_SUSP(-1)`)
else:
    ok = ida_dbg.run_to({address})
    if not ok:
        make_result(False, error=`run_to() returned False`)
    else:
        code = ida_dbg.wait_for_next_event(WFNE_SUSP | WFNE_SILENT, {timeout})
        ip = safe_hex(ida_dbg.get_ip_val())
        make_result(True, {{`event_code`: code, `ip`: ip, `state`: ida_dbg.get_process_state(), `run_ok`: ok}})
".

Definition generate_run_to_script (address timeout : Z) : string :=
  build_script (format run_to_template [("address", fmt_dec address); ("timeout", fmt_dec timeout)]).

(** ** inspect.rs *)

Definition all_registers_code : string :=
  py "import ida_idp
_raw = list(ida_idp.ph_get_regnames())
names = []
_seen = set()
for _n in _raw:
    rv = ida_idd.regval_t()
    if ida_dbg.get_reg_val(_n, rv) and _n not in _seen:
        names.append(_n)
        _seen.add(_n)".

Definition get_registers_template : string :=
  py "
state = ida_dbg.get_process_state()
if state != -1:
    make_result(False, error=f`Cannot read registers: state={{state}}, need DSTATE_SUSP(-1)`)
else:
    regs = {{}}
    {filter_code}
    for name in names:
        rv = ida_idd.regval_t()
        if ida_dbg.get_reg_val(name, rv):
            regs[name] = safe_hex(rv.ival)
    ip = safe_hex(ida_dbg.get_ip_val())
    sp = safe_hex(ida_dbg.get_sp_val())
    make_result(True, {{`registers`: regs, `ip`: ip, `sp`: sp}})
".

Definition generate_get_registers_script (register_names : option (list string)) : string :=
  let filter_code :=
    match register_names with
    | Some ((_ :: _) as names) => "names = [" +:+ str_join ", " ((λ n, quote +:+ n +:+ quote) <$> names) +:+ "]"
    | _ => all_registers_code
    end in
  build_script (format get_registers_template [("filter_code", filter_code)]).

Definition set_register_template : string :=
  py "
state = ida_dbg.get_process_state()
if state != -1:
    make_result(False, error=f`Cannot set register: state={{state}}, need DSTATE_SUSP(-1)`)
else:
    rv = ida_idd.regval_t()
    rv.ival = {value}
    ok = ida_dbg.set_reg_val(`{register_name}`, rv)
    make_result(ok, {{`register`: `{register_name}`, `value`: safe_hex({value}), `set_ok`: ok}})
".

Definition generate_set_register_script (register_name : string) (value : Z) : string :=
  build_script (format set_register_template [("register_name", register_name); ("value", fmt_dec value)]).

Definition read_memory_template : string :=
  py "
state = ida_dbg.get_process_state()
if state != -1:
    make_result(False, error=f`Cannot read memory: state={{state}}, need DSTATE_SUSP(-1)`)
else:
    import idc as _idc
    size = min({clamped}, 4096)
    data = _idc.read_dbg_memory({address}, size)
    if data is not None and len(data) > 0:
        hex_str = data.hex()
        ascii_str = ``.join(chr(b) if 32 <= b < 127 else `.` for b in data)
        make_result(True, {{
            `address`: safe_hex({address}),
            `size`: len(data),
            `hex`: hex_str,
            `ascii`: ascii_str,
        }})
    else:
        make_result(False, error=f`Failed to read {{size}} bytes at {{safe_hex({address})}}`)
".

Definition generate_read_memory_script (address size : Z) : string :=
  let clamped := Z.min size 4096 in
  build_script (format read_memory_template [("clamped", fmt_dec clamped); ("address", fmt_dec address)]).

Definition write_memory_template : string :=
  py "
state = ida_dbg.get_process_state()
if state != -1:
    make_result(False, error=f`Cannot write memory: state={{state}}, need DSTATE_SUSP(-1)`)
else:
    import idc as _idc
    data_bytes = bytes.fromhex(`{clean_hex}`)
    ok = _idc.write_dbg_memory({address}, data_bytes)
    make_result(bool(ok), {{`address`: safe_hex({address}), `bytes_written`: len(data_bytes) if ok else 0, `ok`: bool(ok)}})
".

Definition generate_write_memory_script (address : Z) (data_hex : string) : string :=
  let clean_hex := str_replace " " "" data_hex in
  build_script (format write_memory_template [("clean_hex", clean_hex); ("address", fmt_dec address)]).

Definition get_memory_info_template : string :=
  py "
import idaapi
ranges = idaapi.meminfo_vec_t()
n = ida_dbg.get_dbg_memory_info(ranges)
if n < 0:
    make_result(False, error=f`get_dbg_memory_info failed (code={n}). This debug server may not support memory region enumeration.`)
else:
    regions = []
    for i in range(n):
        r = ranges[i]
        regions.append({
            `start`: safe_hex(r.start_ea),
            `end`: safe_hex(r.end_ea),
            `name`: str(r.name) if r.name else ``,
            `sclass`: str(r.sclass) if hasattr(r, `sclass`) else ``,
            `perm`: int(r.perm) if hasattr(r, `perm`) else 0,
        })
    make_result(True, {`regions`: regions, `count`: len(regions)})
".

Definition generate_get_memory_info_script : string :=
  build_script get_memory_info_template.

Definition list_threads_template : string :=
  py "
threads = []
for i in range(ida_dbg.get_thread_qty()):
    tid = ida_dbg.getn_thread(i)
    name = ``
    try:
        name = ida_dbg.getn_thread_name(i) or ``
    except Exception:
        pass
    threads.append({`id`: tid, `name`: name, `index`: i})
current = ida_dbg.get_current_thread()
make_result(True, {`threads`: threads, `current_thread`: current, `count`: len(threads)})
".

Definition generate_list_threads_script : string :=
  build_script list_threads_template.

Definition select_thread_template : string :=
  py "
state = ida_dbg.get_process_state()
if state != -1:
    make_result(False, error=f`Cannot select thread: state={{state}}, need DSTATE_SUSP(-1)`)
else:
    ok = ida_dbg.select_thread({thread_id})
    make_result(ok, {{`thread_id`: {thread_id}, `selected`: ok}})
".

Definition generate_select_thread_script (thread_id : Z) : string :=
  build_script (format select_thread_template [("thread_id", fmt_dec thread_id)]).

Definition wait_event_template : string :=
  py "
combined_flags = {flags} | WFNE_SILENT
code = ida_dbg.wait_for_next_event(combined_flags, {timeout})
evt = ida_dbg.get_debug_event()
state = ida_dbg.get_process_state()
make_result(True, {{
    `event_code`: code,
    `state`: state,
    `event_id`: evt.eid() if evt else None,
    `ip`: safe_hex(ida_dbg.get_ip_val()) if state == -1 else None,
}})
".

Definition generate_wait_event_script (timeout flags : Z) : string :=
  build_script (format wait_event_template [("flags", fmt_dec flags); ("timeout", fmt_dec timeout)]).

(** ** process.rs *)

Definition DBGSRV_HELPERS : string :=
  py "
import subprocess as _sp, socket as _sock, time as _time

def _wait_port(port, timeout=3.0):
    ```Block until mac_server_arm is accepting TCP connections.```
    _deadline = _time.monotonic() + timeout
    while _time.monotonic() < _deadline:
        try:
            _cs = _sock.socket(_sock.AF_INET, _sock.SOCK_STREAM)
            _cs.settimeout(0.5)
            _cs.connect(('127.0.0.1', port))
            _cs.close()
            return True
        except OSError:
            try:
                _cs.close()
            except Exception:
                pass
            _time.sleep(0.1)
    return False

def _ensure_dbgsrv(srv_path):
    if hasattr(idaapi, '_mcp_dbgsrv'):
        _info = idaapi._mcp_dbgsrv
        if _info['proc'].poll() is None:
            if _wait_port(_info['port'], timeout=1.0):
                return _info['port']
            # Server process alive but not listening — restart
            try:
                _info['proc'].kill()
            except Exception:
                pass
    _s = _sock.socket(_sock.AF_INET, _sock.SOCK_STREAM)
    _s.bind(('127.0.0.1', 0))
    _port = _s.getsockname()[1]
    _s.close()
    _proc = _sp.Popen([srv_path, '-p', str(_port), '-t', '--on-broken-connection-keep-session'],
                      stdout=_sp.DEVNULL, stderr=_sp.DEVNULL)
    if not _wait_port(_port, timeout=5.0):
        rc = _proc.poll()
        if rc is not None:
            raise RuntimeError(f`Debug server exited immediately (code={rc})`)
        _proc.kill()
        raise RuntimeError(f`Debug server not listening on port {_port} after 5s`)
    idaapi._mcp_dbgsrv = {'proc': _proc, 'port': _port}
    return _port

def _kill_dbgsrv():
    if not hasattr(idaapi, '_mcp_dbgsrv'):
        return False
    try:
        idaapi._mcp_dbgsrv['proc'].terminate()
        idaapi._mcp_dbgsrv['proc'].wait(timeout=3)
    except Exception:
        try:
            idaapi._mcp_dbgsrv['proc'].kill()
        except Exception:
            pass
    try:
        del idaapi._mcp_dbgsrv
    except Exception:
        pass
    return True
".

Definition load_remote_template : string :=
  py "
{DBGSRV_HELPERS}
if ida_dbg.dbg_is_loaded():
    make_result(True, {{`already_loaded`: True, `debugger`: `{debugger_name}`}})
else:
    _port = _ensure_dbgsrv(`{srv_path}`)
    import platform as _plat
    _fallbacks = [`{debugger_name}`]
    if _plat.machine() == `arm64`:
        for _f in (`arm_mac`,):
            if _f not in _fallbacks:
                _fallbacks.append(_f)
    else:
        for _f in (`mac`,):
            if _f not in _fallbacks:
                _fallbacks.append(_f)
    ok = False
    actual = None
    for _name in _fallbacks:
        ok = ida_dbg.load_debugger(_name, True)
        if ok:
            actual = _name
            break
    if ok:
        ida_dbg.set_remote_debugger(`localhost`, ``, _port)
        ida_dbg.set_debugger_options(0)
        make_result(True, {{`loaded`: True, `debugger`: actual, `requested`: `{debugger_name}`, `remote`: True, `port`: _port}})
    else:
        _kill_dbgsrv()
        make_result(False, error=f`Failed to load remote debugger '{debugger_name}' (tried: {{', '.join(_fallbacks)}})`)
".

Definition load_local_template : string :=
  py "
import platform as _plat
if ida_dbg.dbg_is_loaded():
    make_result(True, {{`already_loaded`: True, `debugger`: `{debugger_name}`}})
else:
    _fallbacks = [`{debugger_name}`]
    if _plat.system() == `Darwin` and _plat.machine() == `arm64`:
        for _f in (`arm_mac`, `gdb`):
            if _f not in _fallbacks:
                _fallbacks.append(_f)
    elif _plat.system() == `Darwin`:
        for _f in (`mac`, `gdb`):
            if _f not in _fallbacks:
                _fallbacks.append(_f)
    else:
        if `gdb` not in _fallbacks:
            _fallbacks.append(`gdb`)
    ok = False
    actual = None
    for _name in _fallbacks:
        ok = ida_dbg.load_debugger(_name, {is_remote_py})
        if ok:
            actual = _name
            break
    if ok:
        ida_dbg.set_debugger_options(0)
        make_result(True, {{`loaded`: True, `debugger`: actual, `requested`: `{debugger_name}`}})
    else:
        make_result(False, error=f`Failed to load debugger '{debugger_name}' (tried: {{', '.join(_fallbacks)}})`)
".

Definition generate_load_debugger_script (debugger_name : string) (is_remote : bool)
    (debug_server_path : option string) : string :=
  match debug_server_path with
  | Some srv_path =>
      build_script (format load_remote_template
        [("DBGSRV_HELPERS", DBGSRV_HELPERS); ("debugger_name", debugger_name); ("srv_path", dbg_escape srv_path)])
  | None =>
      build_script (format load_local_template
        [("debugger_name", debugger_name); ("is_remote_py", py_true is_remote)])
  end.

Definition start_remote_template : string :=
  py "
{DBGSRV_HELPERS}
_port = _ensure_dbgsrv(`{srv_path}`)
if not ida_dbg.dbg_is_loaded():
    import platform as _plat
    if _plat.machine() == `arm64`:
        _try_dbg = [`arm_mac`]
    else:
        _try_dbg = [`mac`]
    _loaded = False
    for _d in _try_dbg:
        if ida_dbg.load_debugger(_d, True):
            _loaded = True
            break
    if not _loaded:
        _kill_dbgsrv()
        make_result(False, error=`Failed to load remote debugger`)
        raise SystemExit
ida_dbg.set_remote_debugger(`localhost`, ``, _port)
# Workaround: macOS Sequoia blocks posix_spawn from mac_server_arm
# (Hex-Rays community #670). Launch target with POSIX_SPAWN_START_SUSPENDED
# via ctypes so process is frozen before first instruction, then attach.
import ctypes as _ct, ctypes.util as _ctu, shlex as _shlex, os as _os
_app = {path_py} or ``
_args_str = {args_py} or ``
_sdir = {dir_py} or None
if not _app:
    make_result(False, error=`binary path is required for remote start_process`)
    raise SystemExit
_libc = _ct.CDLL(_ctu.find_library('c'))
_POSIX_SPAWN_START_SUSPENDED = 0x0080
_attr_p = _ct.c_void_p(0)
_libc.posix_spawnattr_init(_ct.byref(_attr_p))
_libc.posix_spawnattr_setflags(_ct.byref(_attr_p), _ct.c_short(_POSIX_SPAWN_START_SUSPENDED))
_pid_out = _ct.c_int(0)
_argv_parts = [_app] + (_shlex.split(_args_str) if _args_str else [])
_argv_c = (_ct.c_char_p * (len(_argv_parts) + 1))(*[s.encode() for s in _argv_parts], None)
_old_cwd = None
if _sdir:
    _old_cwd = _os.getcwd()
    _os.chdir(_sdir)
_sret = _libc.posix_spawn(_ct.byref(_pid_out), _app.encode(), None, _ct.byref(_attr_p), _argv_c, None)
if _old_cwd:
    _os.chdir(_old_cwd)
_libc.posix_spawnattr_destroy(_ct.byref(_attr_p))
if _sret != 0:
    _kill_dbgsrv()
    make_result(False, error=f`posix_spawn failed: {{_os.strerror(_sret)}}`)
    raise SystemExit
_child_pid = _pid_out.value
ida_dbg.set_debugger_options(0)
state = ida_dbg.get_process_state()
if state != 0:
    _os.kill(_child_pid, 9)
    make_result(False, error=f`Cannot attach: process state is {{state}}, need DSTATE_NOTASK(0)`)
else:
    ret = -1
    for _attempt in range(3):
        ret = ida_dbg.attach_process(_child_pid, -1)
        if ret == 1:
            break
        _time.sleep(0.5 * (_attempt + 1))
    if ret == 1:
        code = ida_dbg.wait_for_next_event(WFNE_SUSP | WFNE_SILENT, {timeout})
        ip = safe_hex(ida_dbg.get_ip_val())
        make_result(True, {{`event_code`: code, `ip`: ip, `pid`: _child_pid, `state`: ida_dbg.get_process_state(), `remote`: True, `port`: _port}})
    else:
        _os.kill(_child_pid, 9)
        make_result(False, error=f`attach_process returned {{ret}} for pid {{_child_pid}} after 3 attempts`)
".

Definition start_local_template : string :=
  py "
import platform
if not ida_dbg.dbg_is_loaded():
    _sys = platform.system()
    _mach = platform.machine()
    if _sys == `Darwin` and _mach == `arm64`:
        _try = [`arm_mac`, `mac`, `gdb`]
    elif _sys == `Darwin`:
        _try = [`mac`, `arm_mac`, `gdb`]
    elif _sys == `Linux`:
        _try = [`linux`, `gdb`]
    elif _sys == `Windows`:
        _try = [`win32`, `gdb`]
    else:
        _try = [`gdb`]
    for _d in _try:
        if ida_dbg.load_debugger(_d, False):
            break
    ida_dbg.set_debugger_options(0)
state = ida_dbg.get_process_state()
if state != 0:
    make_result(False, error=f`Cannot start: process state is {{state}}, need DSTATE_NOTASK(0)`)
else:
    ret = ida_dbg.start_process({path_py}, {args_py}, {dir_py})
    if ret == 1:
        code = ida_dbg.wait_for_next_event(WFNE_SUSP | WFNE_SILENT, {timeout})
        ip = safe_hex(ida_dbg.get_ip_val())
        make_result(True, {{`event_code`: code, `ip`: ip, `state`: ida_dbg.get_process_state()}})
    elif ret == 0:
        make_result(False, error=`start_process cancelled`)
    else:
        make_result(False, error=f`start_process failed with code {{ret}}`)
".

Definition generate_start_process_script (path args start_dir : option string) (timeout : Z)
    (debug_server_path : option string) : string :=
  let common := [("path_py", py_quoted path); ("args_py", py_quoted args); ("dir_py", py_quoted start_dir);
                 ("timeout", fmt_dec timeout)] in
  match debug_server_path with
  | Some srv_path =>
      build_script (format start_remote_template
        ([("DBGSRV_HELPERS", DBGSRV_HELPERS); ("srv_path", dbg_escape srv_path)] ++ common))
  | None => build_script (format start_local_template common)
  end.

Definition attach_remote_template : string :=
  py "
{DBGSRV_HELPERS}
_pid = {pid_py}
if _pid is None:
    make_result(False, error=`PID is required for attach in headless/remote mode`)
else:
    _port = _ensure_dbgsrv(`{srv_path}`)
    if not ida_dbg.dbg_is_loaded():
        import platform as _plat
        if _plat.machine() == `arm64`:
            _try_dbg = [`arm_mac`]
        else:
            _try_dbg = [`mac`]
        _loaded = False
        for _d in _try_dbg:
            if ida_dbg.load_debugger(_d, True):
                _loaded = True
                break
        if not _loaded:
            _kill_dbgsrv()
            make_result(False, error=`Failed to load remote debugger for attach`)
            raise SystemExit
    ida_dbg.set_remote_debugger(`localhost`, ``, _port)
    state = ida_dbg.get_process_state()
    if state != 0:
        make_result(False, error=f`Cannot attach: state={{state}}, need DSTATE_NOTASK(0)`)
    else:
        ret = -1
        for _attempt in range(3):
            ret = ida_dbg.attach_process(int(_pid), -1)
            if ret == 1:
                break
            _time.sleep(0.5 * (_attempt + 1))
        if ret == 1:
            code = ida_dbg.wait_for_next_event(WFNE_SUSP | WFNE_SILENT, {timeout})
            ip = safe_hex(ida_dbg.get_ip_val())
            make_result(True, {{`event_code`: code, `ip`: ip, `pid`: _pid, `remote`: True, `port`: _port}})
        else:
            import os as _os
            _alive = _os.path.exists(f`/proc/{{int(_pid)}}`) if _os.name != `nt` else True
            try:
                _os.kill(int(_pid), 0)
                _proc_exists = True
            except (OSError, ProcessLookupError):
                _proc_exists = False
            _srv_alive = idaapi._mcp_dbgsrv['proc'].poll() is None if hasattr(idaapi, '_mcp_dbgsrv') else False
            _srv_listen = _wait_port(_port, timeout=0.5) if _srv_alive else False
            make_result(False, error=f`attach_process returned {{ret}} after 3 attempts (pid={{_pid}}, pid_exists={{_proc_exists}}, srv_alive={{_srv_alive}}, srv_listening={{_srv_listen}}, port={{_port}})`)
".

Definition attach_local_template : string :=
  py "
import platform
_pid = {pid_py}
if _pid is None:
    make_result(False, error=`PID is required in headless mode (no process selection dialog)`)
else:
    if not ida_dbg.dbg_is_loaded():
        _sys = platform.system()
        _mach = platform.machine()
        if _sys == `Darwin` and _mach == `arm64`:
            _try = [`arm_mac`, `mac`, `gdb`]
        elif _sys == `Darwin`:
            _try = [`mac`, `arm_mac`, `gdb`]
        elif _sys == `Linux`:
            _try = [`linux`, `gdb`]
        elif _sys == `Windows`:
            _try = [`win32`, `gdb`]
        else:
            _try = [`gdb`]
        for _d in _try:
            if ida_dbg.load_debugger(_d, False):
                break
        ida_dbg.set_debugger_options(0)
    state = ida_dbg.get_process_state()
    if state != 0:
        make_result(False, error=f`Cannot attach: state={{state}}, need DSTATE_NOTASK(0)`)
    else:
        ret = ida_dbg.attach_process(int(_pid), -1)
        if ret == 1:
            code = ida_dbg.wait_for_next_event(WFNE_SUSP | WFNE_SILENT, {timeout})
            ip = safe_hex(ida_dbg.get_ip_val())
            make_result(True, {{`event_code`: code, `ip`: ip, `pid`: _pid}})
        else:
            make_result(False, error=f`attach_process returned {{ret}}`)
".

Definition generate_attach_process_script (pid : option Z) (timeout : Z) (debug_server_path : option string) : string :=
  let common := [("pid_py", match pid with Some p => fmt_dec p | None => "None" end); ("timeout", fmt_dec timeout)] in
  match debug_server_path with
  | Some srv_path =>
      build_script (format attach_remote_template
        ([("DBGSRV_HELPERS", DBGSRV_HELPERS); ("srv_path", dbg_escape srv_path)] ++ common))
  | None => build_script (format attach_local_template common)
  end.

Definition detach_process_template : string :=
  py "
{DBGSRV_HELPERS}
state = ida_dbg.get_process_state()
if state == 0:
    make_result(False, error=`No active process to detach from`)
else:
    ok = ida_dbg.detach_process()
    if ok:
        ida_dbg.wait_for_next_event(WFNE_ANY | WFNE_SILENT, 5)
    _srv = _kill_dbgsrv()
    make_result(ok, {{`detached`: ok, `server_cleaned`: _srv}})
".

Definition generate_detach_process_script : string :=
  build_script (format detach_process_template [("DBGSRV_HELPERS", DBGSRV_HELPERS)]).

Definition exit_process_template : string :=
  py "
{DBGSRV_HELPERS}
state = ida_dbg.get_process_state()
if state == 0:
    make_result(False, error=`No active process to exit`)
else:
    ok = ida_dbg.exit_process()
    if ok:
        ida_dbg.wait_for_next_event(WFNE_SUSP | WFNE_SILENT, 5)
    _srv = _kill_dbgsrv()
    make_result(ok, {{`exited`: ok, `server_cleaned`: _srv}})
".

Definition generate_exit_process_script : string :=
  build_script (format exit_process_template [("DBGSRV_HELPERS", DBGSRV_HELPERS)]).

Definition get_state_template : string :=
  py "
state = ida_dbg.get_process_state()
state_names = {-1: `DSTATE_SUSP`, 0: `DSTATE_NOTASK`, 1: `DSTATE_RUN`}
data = {
    `state`: state,
    `state_name`: state_names.get(state, `unknown`),
    `debugger_loaded`: ida_dbg.dbg_is_loaded(),
    `is_debugger_on`: ida_dbg.is_debugger_on(),
    `thread_count`: ida_dbg.get_thread_qty(),
}
if hasattr(idaapi, '_mcp_dbgsrv'):
    _info = idaapi._mcp_dbgsrv
    data[`remote_debug_server`] = {
        `port`: _info['port'],
        `alive`: _info['proc'].poll() is None,
    }
if state == -1:
    data[`ip`] = safe_hex(ida_dbg.get_ip_val())
    data[`sp`] = safe_hex(ida_dbg.get_sp_val())
    data[`current_thread`] = ida_dbg.get_current_thread()
make_result(True, data)
".

Definition generate_get_state_script : string :=
  build_script get_state_template.
