(* ===== verification/Dsc.v ===== *)
(** * dyld shared caches and sBPF programs (src/dsc.rs, src/sbpf.rs)

    The command line and the scripts with which [idat] and the open database load modules of a
    shared cache, and the run of the sBPF compiler.  A back quote stands for the double quote
    in the texts. *)

From Stdlib Require Import Ascii.
From stdpp Require Import base strings numbers list.
From S2P Require Import Prelude RustStr Json ToolError IdatCompat PyText.

Open Scope ida_scope.

(** ** Shared caches *)

(** [escape_python_string] of dsc.rs is the same function as that of idat_compat.rs. *)
Definition dsc_escape (s : string) : string :=
  str_replace carriage_return (backslash +:+ "r")
    (str_replace newline (backslash +:+ "n")
       (str_replace quote (backslash +:+ quote)
          (str_replace backslash (backslash +:+ backslash) s))).

Definition dsc_file_type (arch : string) (ida_version : Z) : string :=
  let mode := if (9 <=? ida_version)%Z then "select module(s)" else "single module" in
  "Apple DYLD cache for " +:+ arch +:+ " (" +:+ mode +:+ ")".

Definition find_idat (find_idat_binary : option string) : result string ToolError :=
  match find_idat_binary with
  | Some idat => Ok idat
  | None => Err (InvalidParams "Cannot find idat binary. Set IDADIR environment variable to your IDA installation directory.")
  end.

Definition idat_dsc_args (dsc_path out_i64 script_path file_type : string) (log_path : option string) : list string :=
  ["-a-"; "-A"; "-P+"; "-Oobjc:+l"] ++
  match log_path with Some log => ["-L" +:+ log] | None => [] end ++
  ["-S" +:+ script_path; "-T" +:+ file_type; "-o" +:+ out_i64; dsc_path].

Definition load_head : string :=
  py "import idaapi
from idc import *

def dscu_load_module(module):
    node = idaapi.netnode()
    node.create(`$ dscu`)
    node.supset(2, module)
    load_and_run_plugin(`dscu`, 1)
".

Definition load_primary_template : string :=
  py "
# Load primary module
print(`[ida-cli] loading module: {escaped_module}`)
dscu_load_module(`{escaped_module}`)
".

Definition load_framework_template : string :=
  py "
print(`[ida-cli] loading framework: {escaped_fw}`)
dscu_load_module(`{escaped_fw}`)
".

Definition load_tail : string :=
  py "
# ObjC type analysis
print(`[ida-cli] analyzing objc types`)
load_and_run_plugin(`objc`, 1)
print(`[ida-cli] analyzing NSConcreteGlobalBlock objects`)
load_and_run_plugin(`objc`, 4)

# Auto-analysis
print(`[ida-cli] performing auto-analysis...`)
auto_mark_range(0, BADADDR, AU_FINAL)
auto_wait()

# Stack block analysis
print(`[ida-cli] analyzing NSConcreteStackBlock objects`)
load_and_run_plugin(`objc`, 5)

print(`[ida-cli] DSC module loading complete`)
".

Definition dsc_load_script (module : string) (frameworks : list string) : string :=
  load_head +:+ format load_primary_template [("escaped_module", dsc_escape module)] +:+
  str_join "" ((λ fw, format load_framework_template [("escaped_fw", dsc_escape fw)]) <$> frameworks) +:+
  load_tail.

Definition run_plugin_checked_python : string :=
  py "
def run_plugin_checked(name, arg, context, strict_nonzero=False):
    def plugin_failed():
        raise RuntimeError(f`{name} plugin failed during {context} (return={rc!r})`)

    rc = load_and_run_plugin(name, arg)
    if rc is None:
        plugin_failed()
    if strict_nonzero and (rc is False or (isinstance(rc, int) and rc <= 0)):
        plugin_failed()
    if isinstance(rc, int) and rc < 0:
        plugin_failed()
    return rc
".

Definition add_dylib_template : string :=
  py "import idaapi
from idc import *

{run_plugin_checked}

def dscu_load_module(module):
    node = idaapi.netnode()
    node.create(`$ dscu`)
    node.supset(2, module)
    run_plugin_checked(`dscu`, 1, f`loading module {{module}}`, True)

print(`[ida-cli] loading additional dylib: {escaped}`)
dscu_load_module(`{escaped}`)

# ObjC type analysis (lightweight, no full auto-analysis)
print(`[ida-cli] analyzing objc types`)
run_plugin_checked(`objc`, 1, `objc type analysis`, False)
print(`[ida-cli] analyzing NSConcreteGlobalBlock objects`)
run_plugin_checked(`objc`, 4, `objc global block analysis`, False)

print(`[ida-cli] dsc_add_dylib complete for: {escaped}`)
".

Definition dsc_add_dylib_script (module : string) : string :=
  format add_dylib_template [("run_plugin_checked", run_plugin_checked_python); ("escaped", dsc_escape module)].

Definition add_region_template : string :=
  py "import idaapi
from idc import *

{run_plugin_checked}

def dscu_load_region(ea):
    node = idaapi.netnode()
    node.create(`$ dscu`)
    node.altset(3, ea)
    run_plugin_checked(`dscu`, 2, f`loading region 0x{{ea:x}}`, True)

print(`[ida-cli] loading DSC region: {ea_hex}`)
dscu_load_region({ea})
print(`[ida-cli] dsc_add_region complete for: {ea_hex}`)
".

Definition dsc_add_region_script (ea : Z) : string :=
  let ea_hex := "0x" +:+ fmt_hex ea in
  format add_region_template
    [("run_plugin_checked", run_plugin_checked_python); ("ea_hex", ea_hex); ("ea", fmt_dec ea)].

(** ** sBPF programs *)

(** What the operating system answers: [env] the variable SBX, [which] the trimmed output of
    [which sbx] when it succeeded. *)
Record SbxHost : Type := {
  sbx_env : option string;
  sbx_which : option string;
  sbx_exists : string → bool;
  sbx_expand : string → string
}.

Definition sbx_candidates : list string := ["~/.cargo/bin/sbx"; "~/.local/bin/sbx"; "/usr/local/bin/sbx"].

Definition find_sbx (h : SbxHost) : result string ToolError :=
  match sbx_env h with
  | Some path =>
      if sbx_exists h path then Ok path
      else Err (InvalidParams ("$SBX is set to '" +:+ path +:+ "' but the file does not exist"))
  | None =>
      let from_which :=
        match sbx_which h with
        | Some s => if negb (bool_decide (s = "")) && sbx_exists h s then Some s else None
        | None => None
        end in
      match from_which with
      | Some p => Ok p
      | None =>
          match find (sbx_exists h) (sbx_expand h <$> sbx_candidates) with
          | Some p => Ok p
          | None =>
              Err (InvalidParams
                "Cannot find sbx. Install it with `cargo install --path crates/sbx --locked` from the sbpf-interpreter workspace, or set the SBX env var to its path.")
          end
      end
  end.

(** The end of the compiler's run. *)
Inductive SbxRun : Type :=
| SbxNotSpawned (error : string)
| SbxExited (code : option Z) (stdout stderr : string).

(** The steps of the compilation on a file system [W]: creating the directory of the output
    and the run itself may change it. *)
Section compile.
Context {W : Type}.
Context (host : SbxHost) (exists_ : string → W → bool) (canonicalize : string → W → option string).
Context (parent : string → option string) (create_dir_all : string → W → result unit string * W).
Context (sbx : string → list string → W → SbxRun * W).

(** [output.status.success()] *)
Definition exit_success (code : option Z) : bool := bool_decide (code = Some 0%Z).

Definition prepare_output (output_i64 : string) (w : W) : result unit ToolError * W :=
  match parent output_i64 with
  | Some dir =>
      if exists_ dir w then (Ok tt, w)
      else match create_dir_all dir w with
           | (Ok _, w) => (Ok tt, w)
           | (Err e, w) => (Err (InvalidParams ("Failed to create output directory " +:+ dir +:+ ": " +:+ e)), w)
           end
  | None => (Ok tt, w)
  end.

Definition run_sbx_aot_i64 (input output_i64 : string) (w : W) : result string ToolError * W :=
  match find_sbx host with
  | Err e => (Err e, w)
  | Ok bin =>
      let abs_input := default input (canonicalize input w) in
      match prepare_output output_i64 w with
      | (Err e, w) => (Err e, w)
      | (Ok _, w) =>
          match sbx bin ["aot"; "i64"; "--program"; abs_input; "--output"; output_i64] w with
          | (SbxNotSpawned e, w) =>
              (Err (InvalidParams ("Failed to spawn sbx (" +:+ bin +:+ "): " +:+ e)), w)
          | (SbxExited code stdout stderr, w) =>
              if negb (exit_success code) then
                (Err (InvalidParams
                   ("sbx aot i64 failed (exit " +:+ fmt_signed (default (-1)%Z code) +:+ ")" +:+ newline +:+
                    "stderr: " +:+ trim stderr +:+ newline +:+ "stdout: " +:+ trim stdout)), w)
              else if negb (exists_ output_i64 w) then
                (Err (InvalidParams ("sbx aot i64 succeeded but output not found: " +:+ output_i64)), w)
              else (Ok output_i64, w)
          end
      end
  end.
End compile.
