(* ===== verification/ScriptTools.v ===== *)
(** * Tools that run Python in the database (src/server/mod.rs)

    [run_script], [decompile_structured], [dsc_add_dylib] and [dsc_add_region], with the
    messages that explain a script's failure.  The file that [run_script] may read and the body
    of the decompiler's script are parameters. *)

From Stdlib Require Import Ascii.
From stdpp Require Import base strings numbers list.
From S2P Require Import Prelude RustStr Json ToolError Parse.
From S2P Require Import Serde ToolRequests IdaRequest IdaWorker RpcDispatch IdatCompat PyText Dsc.
From S2P Require Import MiscHandlers DebugScripts LocalTools.

Open Scope ida_scope.

(** ** Messages *)

Definition RUN_SCRIPT_PREVIEW_CHARS : nat := 220.
Definition RUN_SCRIPT_TAIL_LINES : nat := 12.
Definition RUN_SCRIPT_TAIL_CHARS : nat := 1600.

Definition run_script_succeeded (v : Value) : bool := bool_decide (get "success" v ≫= as_bool = Some true).
Definition run_script_field (v : Value) (field : string) : option string := get field v ≫= as_str.

(** The first bytes of UTF-8 characters: the others continue one. *)
Definition starts_char (c : ascii) : bool := negb (Z.land (code c) 192 =? 128)%Z.

(** The truncation counts characters: [count] of them are already in the output. *)
Fixpoint truncate_go (max_chars count : nat) (s : string) : string :=
  match s with
  | EmptyString => ""
  | String c rest =>
      if starts_char c then
        if max_chars <=? count then "..." else String c (truncate_go max_chars (S count) rest)
      else String c (truncate_go max_chars count rest)
  end.

Definition run_script_truncate_chars (input : string) (max_chars : nat) : string := truncate_go max_chars 0 input.

(** [run_script_tail_lines]; [run_script_last_non_empty_line] is [last_non_empty_line]. *)
Definition run_script_tail_lines (text : string) (max_lines : nat) : string := tail_lines text max_lines.

Definition run_script_error_hint (error_details : string) : option string :=
  let lowered := to_ascii_lowercase error_details in
  if contains "syntaxerror" lowered || contains "invalid syntax" lowered then
    Some "Python syntax error detected. Regenerate valid Python and retry."
  else if contains "nameerror" lowered then
    Some "NameError detected. Check variable/module names before rerunning."
  else if contains "attributeerror" lowered then
    Some "AttributeError detected. Verify IDA API object names/methods."
  else if contains "importerror" lowered || contains "modulenotfounderror" lowered then
    Some "Import failure detected. Ensure the required module exists in IDAPython."
  else if contains "failed to execute wrapper" lowered then
    Some "IDAPython wrapper execution failed before user code completed. Check stderr for details."
  else None.

Definition failure_summary (v : Value) (stderr : string) : string :=
  match run_script_field v "error_summary" with
  | Some s => s
  | None =>
      match run_script_field v "error" with
      | Some s => s
      | None => default "Unknown IDAPython script failure (no error details captured)" (last_non_empty_line stderr)
      end
  end.

Definition run_script_failure_message (v : Value) : string :=
  let stderr := default "" (run_script_field v "stderr") in
  let stdout := default "" (run_script_field v "stdout") in
  let summary := failure_summary v stderr in
  let stderr_tail := run_script_truncate_chars (run_script_tail_lines stderr RUN_SCRIPT_TAIL_LINES) RUN_SCRIPT_TAIL_CHARS in
  let stdout_tail := run_script_truncate_chars (run_script_tail_lines stdout RUN_SCRIPT_TAIL_LINES) RUN_SCRIPT_TAIL_CHARS in
  let parts :=
    ["IDAPython script execution failed: " +:+ summary] ++
    match run_script_field v "error_kind" with Some kind => ["Error kind: " +:+ kind] | None => [] end ++
    (if bool_decide (stderr_tail = "") then [] else ["stderr (tail):" +:+ newline +:+ stderr_tail]) ++
    (if bool_decide (stdout_tail = "") then [] else ["stdout (tail):" +:+ newline +:+ stdout_tail]) ++
    match run_script_error_hint (summary +:+ newline +:+ stderr_tail) with
    | Some hint => ["Hint: " +:+ hint]
    | None => []
    end in
  str_join (newline +:+ newline) parts.

Definition run_script_timeout_message (timeout_secs : Z) (code : string) : string :=
  let compact_preview := str_join " " (filter (λ line, line ≠ "") (trim <$> lines code)) in
  let preview :=
    if bool_decide (compact_preview = "") then "<empty script>"
    else run_script_truncate_chars compact_preview RUN_SCRIPT_PREVIEW_CHARS in
  "run_script timed out after " +:+ fmt_dec timeout_secs +:+ " seconds." +:+ newline +:+
  "The script may be blocked in a long-running loop or waiting on IDA state." +:+ newline +:+
  "Script preview: " +:+ preview +:+ newline +:+
  "Hint: while iterating with LLM-generated code, use a smaller timeout_secs and avoid scripts that block indefinitely.".

Definition dsc_analysis_next_steps (analysis_ready : option bool) (ready_message : string) : list string :=
  if bool_decide (analysis_ready = Some true) then [ready_message]
  else ["Call analysis_status to check auto-analysis progress.";
        "If auto_is_ok is false, run analyze_funcs and wait for completion before xrefs/decompile."].

(** [decompile_structured_script] (src/ida/handlers/disasm.rs); the body is
    scripts/decompile_structured.py. *)
Definition decompile_structured_script (body : string) (addr max_depth : Z) (include_types include_addresses : bool) : string :=
  "EA = " +:+ fmt_hex_alt addr +:+ newline +:+ "MAX_DEPTH = " +:+ fmt_dec max_depth +:+ newline +:+
  "INCLUDE_TYPES = " +:+ py_true include_types +:+ newline +:+
  "INCLUDE_ADDRESSES = " +:+ py_true include_addresses +:+ newline +:+ body.

(** ** Tools *)

Section tools.
Context {S : Type}.
Context (worker : ∀ c : WorkerCall, S → result (reply (wc_request c)) ToolError * S).
Context (router_mode : bool) (route : option string → string → Value → S → result Value ToolError * S).
Context (json_parse : string → option Value) (json_pretty : Value → string).
Context (valid_path : string → bool) (read_to_string : string → result string string).
Context (structured_body : string).

#[local] Abbreviation Rpc := (Rpc (S := S)).
#[local] Abbreviation Tool := (Tool (S := S)).
#[local] Abbreviation forward := (forward router_mode route json_pretty).
Notation "'let!' x := m 'in' k" := (rpc_bind m (λ x, k))
  (at level 10, x pattern, m at level 200, k at level 200).

(** The outcome of a run: what to do with its result, and the text for a run that took too
    long. *)
Definition script_answer (m : Rpc Value) (ok : Value → Tool) (timed_out : Z → string) : Tool := λ s,
  match m s with
  | (Ok v, s) =>
      if run_script_succeeded v then ok v s
      else (Ok (to_tool_result (IdaError (run_script_failure_message v))), s)
  | (Err (Timeout secs), s) => (Ok (to_tool_result (IdaError (timed_out secs))), s)
  | (Err e, s) => (Ok (to_tool_result e), s)
  end.

Definition run_params (code : string) (timeout : option Z) : Value :=
  obj [("code", VString code); ("timeout_secs", ser_option u64_codec timeout)].

Definition script_code (req : Struct RunScriptRequest) : result string ToolError :=
  match req @ "code", req @ "file" with
  | Some code, None => Ok code
  | None, Some path =>
      if negb (valid_path path) then Err (InvalidPath path)
      else match read_to_string path with
           | Ok contents => Ok contents
           | Err e => Err (InvalidPath ("Failed to read script file '" +:+ path +:+ "': " +:+ e))
           end
  | Some _, Some _ => Err (InvalidParams "Provide either 'code' or 'file', not both")
  | None, None => Err (InvalidParams "Provide either 'code' (inline Python) or 'file' (path to .py)")
  end.

Definition tool_run_script (req : Struct RunScriptRequest) : Tool := λ s,
  match script_code req with
  | Err e => (Ok (to_tool_result e), s)
  | Ok code =>
      let timeout := (λ t, Z.min t 600) <$> (req @ "timeout_secs" : option Z) in
      forward (req @ "db_handle") "run_script" (run_params code timeout)
        (script_answer (worker (Worker.run_script code timeout))
           (λ v s, (Ok (success (json_pretty v)), s))
           (λ secs, run_script_timeout_message secs code)) s
  end.

(** What the decompiler's script printed. *)
Definition structured_answer (v : Value) : CallToolResult :=
  let stdout := default "{}" (run_script_field v "stdout") in
  match json_parse stdout with
  | Some parsed =>
      match get "error" parsed with
      | Some e => to_tool_result (IdaError (default "unknown" (as_str e)))
      | None => success (json_pretty parsed)
      end
  | None => success stdout
  end.

Definition tool_decompile_structured (req : Struct DecompileStructuredRequest) : Tool := λ s,
  match value_to_single_address json_parse (req @ "address") with
  | Err e => (Ok (to_tool_result e), s)
  | Ok addr =>
      let max_depth := Z.min (default 20%Z (req @ "max_depth")) 50 in
      let script := decompile_structured_script structured_body addr max_depth
        (default false (req @ "include_types")) (default true (req @ "include_addresses")) in
      forward (req @ "db_handle") "run_script" (obj [("code", VString script); ("timeout_secs", vz 120)])
        (script_answer (worker (Worker.run_script script (Some 120%Z)))
           (λ v s, (Ok (structured_answer v), s))
           (λ secs, "decompile_structured timed out after " +:+ fmt_dec secs +:+ "s")) s
  end.

(** After a module or region was added: the state of the analysis goes into the answer. *)
Definition added_answer (subject : list (string * Value)) (message ready_message : string) (v : Value) : Tool := λ s,
  let stdout := default "" (run_script_field v "stdout") in
  let '(status, s) := worker Worker.analysis_status s in
  let analysis_status := match status with Ok st => Some (st : Value) | Err _ => None end in
  let analysis_ready := analysis_status ≫= λ st, get "auto_is_ok" st ≫= as_bool in
  (Ok (success (json_pretty (obj
     ([("success", Bool true)] ++ subject ++
      [("message", VString message); ("stdout", VString stdout);
       ("analysis_status", default Null analysis_status);
       ("analysis_ready", match analysis_ready with Some b => Bool b | None => Null end);
       ("next_steps", Array (VString <$> dsc_analysis_next_steps analysis_ready ready_message))])))), s).

Definition dsc_timeout (timeout_secs : option Z) : Z := Z.min (default 300%Z timeout_secs) 600.

Definition check_module (module : string) : result string ToolError :=
  let module := trim module in
  if bool_decide (module = "") then Err (InvalidParams "module must not be empty")
  else if negb (starts_with "/" module) then
    Err (InvalidParams "module must be an absolute path (start with '/')")
  else if contains ".." module then Err (InvalidParams "module must not contain '..' path traversal")
  else Ok module.

Definition tool_dsc_add_dylib (req : Struct DscAddDylibRequest) : Tool := λ s,
  match check_module (req @ "module") with
  | Err e => (Ok (to_tool_result e), s)
  | Ok module =>
      let timeout := Some (dsc_timeout (req @ "timeout_secs")) in
      let script := dsc_add_dylib_script module in
      forward (req @ "db_handle") "run_script" (run_params script timeout)
        (script_answer (worker (Worker.run_script script timeout))
           (added_answer [("module", VString module)]
              ("Successfully loaded " +:+ module +:+ " into the database. Lightweight ObjC analysis ran; full auto-analysis was not forced.")
              "Proceed with xrefs/decompile/list_functions for the newly loaded module.")
           (λ secs, run_script_timeout_message secs script)) s
  end.

Definition region_address (v : Value) : result Z ToolError :=
  match value_to_addresses json_parse v with
  | Ok [ea] => Ok ea
  | Ok _ => Err (InvalidParams "address must contain exactly one value")
  | Err (InvalidAddress addr) => Err (InvalidParams ("Invalid address: " +:+ addr))
  | Err e => Err e
  end.

Definition tool_dsc_add_region (req : Struct DscAddRegionRequest) : Tool := λ s,
  match region_address (req @ "address") with
  | Err e => (Ok (to_tool_result e), s)
  | Ok ea =>
      let timeout := Some (dsc_timeout (req @ "timeout_secs")) in
      let script := dsc_add_region_script ea in
      forward (req @ "db_handle") "run_script" (run_params script timeout)
        (script_answer (worker (Worker.run_script script timeout))
           (added_answer [("address", VString ("0x" +:+ fmt_hex ea)); ("address_value", vz ea)]
              ("Successfully loaded DSC region at 0x" +:+ fmt_hex ea +:+ ". Full auto-analysis was not forced.")
              "Proceed with xrefs/decompile/list_functions for symbols near this region.")
           (λ secs, run_script_timeout_message secs script)) s
  end.
End tools.
