(* ===== verification/DebugTools.v ===== *)
(** * The debugger tools (src/server/mod.rs)

    Each tool reads its request, writes a script, runs it in the database and reads the last
    line of its output.  [dbgsrv] is the debug server found on this host. *)

From Stdlib Require Import Ascii.
From stdpp Require Import base strings numbers list.
From S2P Require Import Prelude RustStr Json ToolError Parse ControlFlow.
From S2P Require Import Serde ToolRequests IdaRequest IdaWorker RpcDispatch IdatCompat PyText.
From S2P Require Import DebugScripts LocalTools ScriptTools.

Open Scope ida_scope.

(** The bound on the time a debugger tool waits. *)
Definition dbg_timeout (d : Z) (timeout_secs : option Z) : Z := Z.min (default d timeout_secs) 600.

(** [flags]: an address text, 1 when it is absent or cannot be read, cut to 32 bits. *)
Definition wait_flags (flags : option string) : Z :=
  default 1%Z (flags ≫= λ s, match parse_address_str s with Ok a => Some a | Err _ => None end) mod 2 ^ 32.

Section tools.
Context {S : Type}.
Context (worker : ∀ c : WorkerCall, S → result (reply (wc_request c)) ToolError * S).
Context (router_mode : bool) (route : option string → string → Value → S → result Value ToolError * S).
Context (json_parse : string → option Value) (json_pretty json_display : Value → string).
Context (dbgsrv : option string).

#[local] Abbreviation Tool := (Tool (S := S)).

(** What the tool makes of a script's result. *)
Definition debug_result (v : Value) : CallToolResult :=
  match parse_debug_output json_parse json_display v with
  | Ok data => success (json_pretty data)
  | Err e => to_tool_result e
  end.

Definition run_debug_script (db_handle : option string) (tool_name script : string) (timeout_secs : Z) : Tool := λ s,
  let outer_timeout := (timeout_secs + 5)%Z in
  if router_mode then
    match route db_handle "run_script" (obj [("code", VString script); ("timeout_secs", vz outer_timeout)]) s with
    | (Ok v, s) => (Ok (debug_result v), s)
    | (Err e, s) => (Ok (to_tool_result e), s)
    end
  else
    match worker (Worker.run_script script (Some outer_timeout)) s with
    | (Ok v, s) => (Ok (debug_result v), s)
    | (Err (Timeout t), s) =>
        (Ok (to_tool_result (IdaError (tool_name +:+ " timed out after " +:+ fmt_dec t +:+ "s"))), s)
    | (Err e, s) => (Ok (to_tool_result e), s)
    end.

(** An address that cannot be read is refused before anything runs. *)
Definition with_address (text : string) (k : Z → Tool) : Tool := λ s,
  match parse_address_str text with
  | Ok a => k a s
  | Err e => (Ok (to_tool_result e), s)
  end.

Definition tool_dbg_load_debugger (req : Struct DbgLoadDebuggerRequest) : Tool :=
  let timeout := dbg_timeout 30 (req @ "timeout_secs") in
  run_debug_script (req @ "db_handle") "dbg_load_debugger"
    (generate_load_debugger_script (default "mac" (req @ "debugger_name")) (default false (req @ "is_remote")) dbgsrv) timeout.

Definition tool_dbg_start_process (req : Struct DbgStartProcessRequest) : Tool :=
  let timeout := dbg_timeout 60 (req @ "timeout_secs") in
  run_debug_script (req @ "db_handle") "dbg_start_process"
    (generate_start_process_script (req @ "path") (req @ "args") (req @ "start_dir") timeout dbgsrv) timeout.

Definition tool_dbg_attach_process (req : Struct DbgAttachProcessRequest) : Tool :=
  let timeout := dbg_timeout 30 (req @ "timeout_secs") in
  run_debug_script (req @ "db_handle") "dbg_attach_process"
    (generate_attach_process_script (req @ "pid") timeout dbgsrv) timeout.

Definition tool_dbg_detach_process (req : Struct DbgDetachProcessRequest) : Tool :=
  let timeout := dbg_timeout 30 (req @ "timeout_secs") in
  run_debug_script (req @ "db_handle") "dbg_detach_process"
    (generate_detach_process_script) timeout.

Definition tool_dbg_exit_process (req : Struct DbgExitProcessRequest) : Tool :=
  let timeout := dbg_timeout 30 (req @ "timeout_secs") in
  run_debug_script (req @ "db_handle") "dbg_exit_process"
    (generate_exit_process_script) timeout.

Definition tool_dbg_get_state (req : Struct DbgGetStateRequest) : Tool :=
  let timeout := dbg_timeout 10 (req @ "timeout_secs") in
  run_debug_script (req @ "db_handle") "dbg_get_state"
    (generate_get_state_script) timeout.

Definition tool_dbg_add_breakpoint (req : Struct DbgAddBreakpointRequest) : Tool :=
  with_address (req @ "address") (λ addr,
  let timeout := dbg_timeout 10 (req @ "timeout_secs") in
  run_debug_script (req @ "db_handle") "dbg_add_breakpoint"
    (generate_add_breakpoint_script addr (default 0%Z (req @ "size")) (default "soft" (req @ "bpt_type")) (req @ "condition")) timeout).

Definition tool_dbg_del_breakpoint (req : Struct DbgDelBreakpointRequest) : Tool :=
  with_address (req @ "address") (λ addr,
  let timeout := dbg_timeout 10 (req @ "timeout_secs") in
  run_debug_script (req @ "db_handle") "dbg_del_breakpoint"
    (generate_del_breakpoint_script addr) timeout).

Definition tool_dbg_enable_breakpoint (req : Struct DbgEnableBreakpointRequest) : Tool :=
  with_address (req @ "address") (λ addr,
  let timeout := dbg_timeout 10 (req @ "timeout_secs") in
  run_debug_script (req @ "db_handle") "dbg_enable_breakpoint"
    (generate_enable_breakpoint_script addr (default true (req @ "enable"))) timeout).

Definition tool_dbg_list_breakpoints (req : Struct DbgListBreakpointsRequest) : Tool :=
  let timeout := dbg_timeout 10 (req @ "timeout_secs") in
  run_debug_script (req @ "db_handle") "dbg_list_breakpoints"
    (generate_list_breakpoints_script) timeout.

Definition tool_dbg_continue (req : Struct DbgContinueRequest) : Tool :=
  let timeout := dbg_timeout 30 (req @ "timeout_secs") in
  run_debug_script (req @ "db_handle") "dbg_continue"
    (generate_continue_script timeout) timeout.

Definition tool_dbg_step_into (req : Struct DbgStepIntoRequest) : Tool :=
  let timeout := dbg_timeout 30 (req @ "timeout_secs") in
  run_debug_script (req @ "db_handle") "dbg_step_into"
    (generate_step_into_script timeout) timeout.

Definition tool_dbg_step_over (req : Struct DbgStepOverRequest) : Tool :=
  let timeout := dbg_timeout 30 (req @ "timeout_secs") in
  run_debug_script (req @ "db_handle") "dbg_step_over"
    (generate_step_over_script timeout) timeout.

Definition tool_dbg_step_until_ret (req : Struct DbgStepUntilRetRequest) : Tool :=
  let timeout := dbg_timeout 60 (req @ "timeout_secs") in
  run_debug_script (req @ "db_handle") "dbg_step_until_ret"
    (generate_step_until_ret_script timeout) timeout.

Definition tool_dbg_run_to (req : Struct DbgRunToRequest) : Tool :=
  with_address (req @ "address") (λ addr,
  let timeout := dbg_timeout 60 (req @ "timeout_secs") in
  run_debug_script (req @ "db_handle") "dbg_run_to"
    (generate_run_to_script addr timeout) timeout).

Definition tool_dbg_get_registers (req : Struct DbgGetRegistersRequest) : Tool :=
  let timeout := dbg_timeout 10 (req @ "timeout_secs") in
  run_debug_script (req @ "db_handle") "dbg_get_registers"
    (generate_get_registers_script (req @ "register_names")) timeout.

Definition tool_dbg_set_register (req : Struct DbgSetRegisterRequest) : Tool :=
  with_address (req @ "value") (λ addr,
  let timeout := dbg_timeout 10 (req @ "timeout_secs") in
  run_debug_script (req @ "db_handle") "dbg_set_register"
    (generate_set_register_script (req @ "register_name") addr) timeout).

Definition tool_dbg_read_memory (req : Struct DbgReadMemoryRequest) : Tool :=
  with_address (req @ "address") (λ addr,
  let timeout := dbg_timeout 10 (req @ "timeout_secs") in
  run_debug_script (req @ "db_handle") "dbg_read_memory"
    (generate_read_memory_script addr (req @ "size")) timeout).

Definition tool_dbg_write_memory (req : Struct DbgWriteMemoryRequest) : Tool :=
  with_address (req @ "address") (λ addr,
  let timeout := dbg_timeout 10 (req @ "timeout_secs") in
  run_debug_script (req @ "db_handle") "dbg_write_memory"
    (generate_write_memory_script addr (req @ "data")) timeout).

Definition tool_dbg_get_memory_info (req : Struct DbgGetMemoryInfoRequest) : Tool :=
  let timeout := dbg_timeout 10 (req @ "timeout_secs") in
  run_debug_script (req @ "db_handle") "dbg_get_memory_info"
    (generate_get_memory_info_script) timeout.

Definition tool_dbg_list_threads (req : Struct DbgListThreadsRequest) : Tool :=
  let timeout := dbg_timeout 10 (req @ "timeout_secs") in
  run_debug_script (req @ "db_handle") "dbg_list_threads"
    (generate_list_threads_script) timeout.

Definition tool_dbg_select_thread (req : Struct DbgSelectThreadRequest) : Tool :=
  let timeout := dbg_timeout 10 (req @ "timeout_secs") in
  run_debug_script (req @ "db_handle") "dbg_select_thread"
    (generate_select_thread_script (req @ "thread_id")) timeout.

Definition tool_dbg_wait_event (req : Struct DbgWaitEventRequest) : Tool :=
  let timeout := dbg_timeout 30 (req @ "timeout_secs") in
  run_debug_script (req @ "db_handle") "dbg_wait_event"
    (generate_wait_event_script timeout (wait_flags (req @ "flags"))) timeout.
End tools.

(** * What the debugger tools guarantee, and where they fail

    The answer of a script is found behind whatever it printed before.  Texts that go into a
    script are read back by Python unless they have a backslash. *)

From S2P Require Import ParseTheorems.
From S2P Require Import MiscHandlers.

Open Scope ida_scope.

(** ** The last line of an output *)

Lemma split_on_sep p a c b : p c = true → split_on p (a +:+ String c b) = split_on p a ++ split_on p b.
Proof.
  intros Hc. induction a as [|d a IH].
  { change ("" +:+ String c b) with (String c b). cbn [split_on]. by rewrite Hc. }
  change (String d a +:+ String c b) with (String d (a +:+ String c b)). cbn [split_on].
  destruct (p d); [by rewrite IH|]. rewrite IH. destruct (split_on_cons p a) as (w & ws & ->). done.
Qed.

Lemma lines_of_app xs ys : ys ≠ [] → lines_of (xs ++ ys) = (strip_cr <$> xs) ++ lines_of ys.
Proof.
  intros Hys. induction xs as [|x xs IH]; [done|].
  cbn [app fmap list_fmap]. rewrite <-IH. by destruct xs, ys.
Qed.

Lemma lines_newline a b :
  lines (a +:+ newline +:+ b) = (strip_cr <$> split_on (λ c, bool_decide (c = "010"%char)) a) ++ lines b.
Proof.
  unfold lines. change (newline +:+ b) with (String "010" b). rewrite split_on_sep by done.
  apply lines_of_app. by destruct (split_on_cons (λ c, bool_decide (c = "010"%char)) b) as (w & ws & ->).
Qed.

(** One line: no line feed, no carriage return, nothing to trim. *)
Definition one_line (l : string) : bool :=
  str_all (λ c, negb (bool_decide (c = "010"%char)) && negb (bool_decide (c = "013"%char))) l &&
  bool_decide (trim l = l) && negb (bool_decide (l = "")).

Lemma last_line_found noise l : one_line l = true →
  last_non_empty_line (noise +:+ newline +:+ l +:+ newline) = Some l.
Proof.
  intros [[Hall Htrim%bool_decide_eq_true]%andb_true_iff Hne%negb_true_iff%bool_decide_eq_false]%andb_true_iff.
  unfold last_non_empty_line. rewrite lines_newline.
  assert (lines (l +:+ newline) = [l]) as ->.
  { change (l +:+ newline) with (l +:+ newline +:+ ""). rewrite lines_newline.
    rewrite split_on_none by (eapply str_all_impl; [|exact Hall]; by intros c [? ?]%andb_true_iff).
    cbn. rewrite strip_cr_all; [done|]. eapply str_all_impl; [|exact Hall]. by intros c [? ?]%andb_true_iff. }
  rewrite reverse_app, reverse_singleton. cbn [app fmap list_fmap]. rewrite filter_cons, Htrim.
  by rewrite decide_True.
Qed.

(** ** Literals of the debugger's scripts *)

(** A text that needs no escape but that of the double quote. *)
Definition no_backslash (s : string) : bool :=
  str_all (λ c, negb (bool_decide (c = "092"%char)) && negb (bool_decide (c = "010"%char)) &&
                negb (bool_decide (c = "013"%char))) s.

Lemma dbg_escape_app a b : dbg_escape (a +:+ b) = dbg_escape a +:+ dbg_escape b.
Proof. apply replace_char_app. Qed.

Lemma dbg_escape_read a s : no_backslash a = true →
  py_read "034" (dbg_escape a +:+ s) = (λ p, (a +:+ p.1, p.2)) <$> py_read "034" s.
Proof.
  unfold no_backslash. induction a as [|c a IH]; intros Ha.
  { change (py_read "034" s = (λ p : string * string, (p.1, p.2)) <$> py_read "034" s). by destruct (py_read "034" s) as [[]|]. }
  cbn [str_all] in Ha. apply andb_true_iff in Ha as [Hc Ha].
  apply andb_true_iff in Hc as [[H1 H2]%andb_true_iff H3].
  apply negb_true_iff in H1, H2, H3. unfold dbg_escape, quote. rewrite replace_char_cons, string_app_assoc.
  fold (dbg_escape a). change (str_replace (String "034" "") (backslash +:+ String "034" "") a) with (dbg_escape a).
  destruct (decide (c = "034"%char)) as [->|Hq].
  - rewrite bool_decide_true by done.
    change ((backslash +:+ String "034" "") +:+ dbg_escape a +:+ s) with (String "092" (String "034" (dbg_escape a +:+ s))).
    cbn [py_read]. change (py_escape "034") with (Some "034"%char). cbn [bool_decide]. 
    rewrite IH by done. by destruct (py_read "034" s).
  - rewrite bool_decide_false by congruence.
    change (String c "" +:+ dbg_escape a +:+ s) with (String c (dbg_escape a +:+ s)). cbn [py_read].
    rewrite H1, H2, H3, bool_decide_false by done. cbn [orb]. rewrite IH by done. by destruct (py_read "034" s).
Qed.

(** Python reads a condition or a path that a debugger script embeds as that text, as long
    as it has no backslash or line break, also when it has double quotes.  A backslash before a
    double quote undoes the escape: the literal ends there, and the rest of the text is run as
    Python code. *)
Theorem debug_literal_read_back (a b rest : string) (Ha : no_backslash a = true) :
  py_read "034" (dbg_escape a +:+ quote +:+ rest) = Some (a, rest) ∧
  py_read "034" (dbg_escape (a +:+ backslash +:+ quote +:+ b) +:+ quote +:+ rest) =
    Some (a +:+ backslash, dbg_escape b +:+ quote +:+ rest).
Proof.
  assert (∀ s, py_read "034" (quote +:+ s) = Some ("", s)) as Hq by done.
  split.
  - rewrite dbg_escape_read, Hq by done. cbn [fmap option_fmap option_map fst snd]. by rewrite string_app_nil.
  - rewrite !dbg_escape_app, !string_app_assoc, dbg_escape_read by done.
    change (dbg_escape backslash) with backslash. change (dbg_escape quote) with (backslash +:+ quote).
    rewrite string_app_assoc. done.
Qed.

Lemma debug_literal_read_back_witness :
  py_read "034" (dbg_escape ("x" +:+ backslash +:+ quote +:+ "; import os #") +:+ quote +:+ "") =
    Some ("x" +:+ backslash, "; import os #" +:+ quote).
Proof. destruct (debug_literal_read_back "x" "; import os #" "") as [_ ->]; reflexivity. Defined.

(** ** Answers of the scripts *)

(** What a script reports: the outcome it passed to [make_result]. *)
Definition debug_outcome (json_display : Value → string) (parsed : Value) : result Value ToolError :=
  if bool_decide (get "success" parsed ≫= as_bool = Some true) then Ok parsed
  else Err (IdaError (match get "error" parsed with
                      | Some (VString msg) => msg
                      | Some v => json_display v
                      | None => "Debug script failed"
                      end)).

Section run.
Context {S : Type}.
Context (worker : ∀ c : WorkerCall, S → result (reply (wc_request c)) ToolError * S).
Context (route : option string → string → Value → S → result Value ToolError * S).
Context (json_parse : string → option Value) (json_pretty json_display : Value → string).

Lemma parse_debug_output_found output noise line parsed :
  get "stdout" output = Some (VString (noise +:+ newline +:+ line +:+ newline)) →
  one_line line = true → json_parse line = Some parsed →
  parse_debug_output json_parse json_display output = debug_outcome json_display parsed.
Proof.
  intros Hout Hline Hparse. unfold parse_debug_output. rewrite Hout.
  change (default "" _) with (noise +:+ newline +:+ line +:+ newline). cbv zeta.
  rewrite last_line_found, Hparse by done. unfold debug_outcome. case_bool_decide; [done|].
  by destruct (get "error" parsed) as [[]|].
Qed.

(** A debugger tool reports what its script reported.  When the script ran, and the last
    line it printed is the text of a JSON value, the tool succeeds with that value if the script
    reported success, and fails with the script's own error text otherwise, whatever was printed
    before; in router mode and without a router alike. *)
Theorem debug_tools_report_the_script (router_mode : bool) (handle : option string) (tool script : string)
    (timeout : Z) (s s' : S) (output : Value) (noise line : string) (parsed : Value)
    (Hrun : if router_mode
            then route handle "run_script" (obj [("code", VString script); ("timeout_secs", vz (timeout + 5))]) s = (Ok output, s')
            else worker (Worker.run_script script (Some (timeout + 5)%Z)) s = (Ok output, s'))
    (Hout : get "stdout" output = Some (VString (noise +:+ newline +:+ line +:+ newline)))
    (Hline : one_line line = true) (Hparse : json_parse line = Some parsed) :
  run_debug_script worker router_mode route json_parse json_pretty json_display handle tool script timeout s =
    (Ok (match debug_outcome json_display parsed with
         | Ok v => success (json_pretty v)
         | Err e => to_tool_result e
         end), s').
Proof.
  unfold run_debug_script, debug_result.
  destruct router_mode; rewrite Hrun; by rewrite (parse_debug_output_found output noise line parsed).
Qed.

(** The time the caller waits for a script is five seconds more than the script may take, but
    never more than the bound of the worker; for the longest scripts nothing is left. *)
Lemma debug_wait (d : Z) (o : option Z) :
  recv_timeout (Some (dbg_timeout d o + 5)%Z) = Z.min (dbg_timeout d o + 5) 600.
Proof. done. Qed.
End run.

(** ** The script that reads all registers *)

Definition registers_script : list string := lines (generate_get_registers_script None).

(** Only the first line of the code that lists the registers is indented: the rest leaves the
    branch for a suspended process, so it runs in every state, and the lines that read and
    report the registers belong to the loop over the names. *)
Theorem all_registers_leave_the_branch :
  ∃ i, registers_script !! i = Some "    import ida_idp" ∧
    registers_script !! (i + 1) = Some "_raw = list(ida_idp.ph_get_regnames())" ∧
    registers_script !! (i + 4) = Some "for _n in _raw:" ∧
    Forall (λ l, starts_with "    " l = true) (drop (i + 5) registers_script) ∧
    last registers_script = Some (py "    make_result(True, {`registers`: regs, `ip`: ip, `sp`: sp})").
Proof. exists 34%nat. vm_compute. repeat constructor. Qed.

(** ** The templates *)

Lemma find_names {A} (args args' : list (string * A)) name : args.*1 = args'.*1 →
  is_Some (find (λ a, bool_decide (a.1 = name)) args) → is_Some (find (λ a, bool_decide (a.1 = name)) args').
Proof.
  revert args'. induction args as [|[k v] args IH]; intros [|[k' v'] args'] Hn; try done.
  cbn in Hn. injection Hn as <- Hn. cbn. case_bool_decide; [done|]. by apply IH.
Qed.

(** Whether a template is complete depends on the names of the arguments only. *)
Lemma format_go_names args args' : args.*1 = args'.*1 → ∀ n t hole, String.length t ≤ n →
  is_Some (format_go args hole t) → is_Some (format_go args' hole t).
Proof.
  intros Hn n. induction n as [|n IH]; intros [|c t] hole Hlen; cbn in Hlen; try lia; try done.
  cbn [format_go]. destruct hole as [name|].
  - case_bool_decide; [|by apply IH; lia].
    destruct (find _ args) eqn:Hf; [|by intros []].
    destruct (find_names args args' name Hn) as [a' ->]; [by eexists|].
    rewrite !fmap_is_Some. apply IH. lia.
  - unfold cons_char. case_bool_decide.
    { destruct t as [|d t]; [done|]. cbn in Hlen. case_bool_decide; [|by apply IH; cbn; lia].
      rewrite !fmap_is_Some. apply IH. lia. }
    case_bool_decide.
    { destruct t as [|d t]; [done|]. cbn in Hlen. case_bool_decide; [|by intros []].
      rewrite !fmap_is_Some. apply IH. lia. }
    rewrite !fmap_is_Some. apply IH. lia.
Qed.

(** The templates with the names of the arguments that the generators give them. *)
Definition debug_templates : list (string * list string) :=
  [(condition_template, ["address"; "cond"]);
   (add_breakpoint_template, ["bpt_type"; "address"; "size"; "condition_block"]);
   (del_breakpoint_template, ["address"]);
   (enable_breakpoint_template, ["address"; "enable_py"]);
   (continue_template, ["timeout"]); (step_into_template, ["timeout"]); (step_over_template, ["timeout"]);
   (step_until_ret_template, ["timeout"]); (run_to_template, ["address"; "timeout"]);
   (get_registers_template, ["filter_code"]);
   (set_register_template, ["register_name"; "value"]);
   (read_memory_template, ["clamped"; "address"]); (write_memory_template, ["clean_hex"; "address"]);
   (select_thread_template, ["thread_id"]); (wait_event_template, ["flags"; "timeout"]);
   (load_remote_template, ["DBGSRV_HELPERS"; "debugger_name"; "srv_path"]);
   (load_local_template, ["debugger_name"; "is_remote_py"]);
   (start_remote_template, ["DBGSRV_HELPERS"; "srv_path"; "path_py"; "args_py"; "dir_py"; "timeout"]);
   (start_local_template, ["path_py"; "args_py"; "dir_py"; "timeout"]);
   (attach_remote_template, ["DBGSRV_HELPERS"; "srv_path"; "pid_py"; "timeout"]);
   (attach_local_template, ["pid_py"; "timeout"]);
   (detach_process_template, ["DBGSRV_HELPERS"]); (exit_process_template, ["DBGSRV_HELPERS"])].

(** Every template finds all its arguments, whatever their values, as the compiler demands. *)
Theorem debug_templates_complete t names args :
  (t, names) ∈ debug_templates → args.*1 = names → is_Some (format_go args None t).
Proof.
  intros Ht Hn.
  assert (Forall (λ tn, is_Some (format_go ((λ n, (n, "")) <$> tn.2) None tn.1)) debug_templates) as Hall.
  { apply (bool_decide_unpack (Forall _ _)). vm_compute. exact I. }
  rewrite Forall_forall in Hall. specialize (Hall _ Ht). cbn in Hall.
  eapply format_go_names; [|reflexivity|exact Hall]. rewrite Hn.
  clear. induction names; [done|]. cbn. by f_equal.
Qed.

(** ** Runs *)

Definition sample_script_worker (c : WorkerCall) (s : nat) : result (reply (wc_request c)) ToolError * nat :=
  match wc_request c as r return result (reply r) ToolError * nat with
  | RunScript _ => (Ok (obj [("stdout", VString ("loading" +:+ newline +:+ "{}" +:+ newline))]), s + 1)
  | _ => (Err WorkerClosed, s)
  end.

Lemma debug_tools_report_the_script_witness :
  run_debug_script sample_script_worker false (λ _ _ _ s, (Err Busy, s))
    (λ _, Some (obj [("success", Bool true)])) (λ _, "json") (λ _, "") None "dbg_get_state" generate_get_state_script 10 0 =
  (Ok (success "json"), 1).
Proof.
  apply (debug_tools_report_the_script sample_script_worker (λ _ _ _ s, (Err Busy, s))
    (λ _, Some (obj [("success", Bool true)])) (λ _, "json") (λ _, "") false None "dbg_get_state"
    generate_get_state_script 10 0 1
    (obj [("stdout", VString ("loading" +:+ newline +:+ "{}" +:+ newline))]) "loading" "{}" (obj [("success", Bool true)]));
    reflexivity.
Defined.
