(* ===== verification/TaskTools.v ===== *)
(** * The task interface of the server (src/server/mod.rs)

    Clients may run a tool as a task and ask for its state, its result or its cancellation.
    The tools themselves are a parameter; serde's form of [CallToolResult] is rmcp's, given by
    [result_to_value] and the test [is_call_tool_result]. *)

From Stdlib Require Import Ascii.
From stdpp Require Import base gmap strings numbers fin_maps list.
From S2P Require Import Prelude RustStr Json ToolError Tasks RpcDispatch LocalTools.

Open Scope ida_scope.

(** ** Data of the protocol *)

(** [rmcp::model::TaskStatus], as far as the server uses it. *)
Inductive McpTaskStatus : Type := Working | McpCompleted | McpFailed | McpCancelled.

#[export] Instance McpTaskStatus_eq_dec : EqDecision McpTaskStatus.
Proof. solve_decision. Defined.

(** [rmcp::model::Task] *)
Record McpTask : Type := {
  mk_task_id : string;
  mk_status : McpTaskStatus;
  mk_status_message : option string;
  mk_created_at : string;
  mk_last_updated_at : string;
  mk_ttl : option Z;
  mk_poll_interval : option Z
}.

Definition TASK_RETENTION_TTL_MS : Z := 0.

Definition mcp_status (s : TaskStatus) : McpTaskStatus :=
  match s with
  | Running => Working
  | Completed => McpCompleted
  | Failed => McpFailed
  | Cancelled => McpCancelled
  end.

Definition task_state_to_mcp (s : TaskState) : McpTask :=
  {| mk_task_id := t_id s; mk_status := mcp_status (t_status s); mk_status_message := Some (t_message s);
     mk_created_at := t_created_at_iso s; mk_last_updated_at := t_updated_at_iso s;
     mk_ttl := Some TASK_RETENTION_TTL_MS; mk_poll_interval := Some 5000%Z |}.

Definition status_str (s : TaskStatus) : string :=
  match s with
  | Running => "running"
  | Completed => "completed"
  | Failed => "failed"
  | Cancelled => "cancelled"
  end.

Definition unknown_task (id : string) : McpError :=
  invalid_params "Unknown task_id" (Some (obj [("task_id", VString id)])).

Section tasks.
Context `{HashOrder}.
Context (json_parse : string → option Value) (json_pretty : Value → string).
Context (result_to_value : CallToolResult → Value) (is_call_tool_result : Value → bool).

(** ** Results *)

Definition wrap_as_call_tool_result (v : Value) : Value := result_to_value (success (json_pretty v)).

Definition task_payload_result_value (res : option Value) : Value :=
  match res with
  | Some v => if is_call_tool_result v then v else wrap_as_call_tool_result v
  | None => wrap_as_call_tool_result Null
  end.

(** ** Requests about tasks *)

Definition list_tasks (r : TaskRegistry) : list McpTask := task_state_to_mcp <$> list_all r.

Definition get_task_info (id : string) (r : TaskRegistry) : result McpTask McpError :=
  match task_get id r with
  | Some s => Ok (task_state_to_mcp s)
  | None => Err (unknown_task id)
  end.

Definition get_task_result (id : string) (r : TaskRegistry) : result Value McpError :=
  match task_get id r with
  | Some s =>
      match t_status s with
      | Completed => Ok (task_payload_result_value (t_result s))
      | Failed => Err (internal_error (t_message s))
      | Cancelled => Err (internal_error "Task was cancelled")
      | Running => Err (internal_error "Task is still running; poll tasks/get first")
      end
  | None => Err (unknown_task id)
  end.

(** Also the join handle that is aborted. *)
Definition cancel_task (id : string) (now : stamp) (r : TaskRegistry) :
    result McpTask McpError * TaskRegistry * option N :=
  match cancel id now r with
  | (r, true, aborted) =>
      (match task_get id r with
       | Some s => Ok (task_state_to_mcp s)
       | None => Err (internal_error "Task disappeared after cancel")
       end, r, aborted)
  | (r, false, aborted) =>
      (Err (invalid_params "Task not found or not running" (Some (obj [("task_id", VString id)]))), r, aborted)
  end.

(** The tool [get_task_status]; [now] is the clock in nanoseconds. *)
Definition get_task_status (id : string) (now : Z) (r : TaskRegistry) : CallToolResult :=
  match task_get id r with
  | None => to_tool_result (InvalidParams ("Unknown task_id: " +:+ id))
  | Some s =>
      let elapsed := (Z.max 0 (now - t_created_at s) / 10 ^ 9)%Z in
      let response :=
        [("task_id", VString (t_id s)); ("status", VString (status_str (t_status s)));
         ("message", VString (t_message s)); ("elapsed_secs", vz elapsed)] in
      success (json_pretty (obj (match t_result s with
                                 | Some v => response ++ [("result", v)]
                                 | None => response
                                 end)))
  end.

(** ** Running a tool as a task *)

Context {S : Type}.
Context (call : string → Value → TaskRegistry * S → result CallToolResult McpError * (TaskRegistry * S)).

(** A task that the tool itself started names its id in the answer. *)
Definition started_task (r : CallToolResult) : option string :=
  head (content r) ≫= λ text, json_parse text ≫= λ v, get "task_id" v ≫= as_str.

Definition created (id : string) (r : TaskRegistry) : result McpTask McpError :=
  match task_get id r with
  | Some s => Ok (task_state_to_mcp s)
  | None => Err (internal_error ("Task " +:+ id +:+ " disappeared"))
  end.

Definition enqueue_task (name : string) (args : Value) (now : stamp) (s : TaskRegistry * S) :
    result McpTask McpError * (TaskRegistry * S) :=
  match call name args s with
  | (Err e, s) => (Err e, s)
  | (Ok res, (r, s)) =>
      match started_task res with
      | Some tid => (created tid r, (r, s))
      | None =>
          let '(r, id) := create_completed "Completed" (result_to_value res) now r in
          (created id r, (r, s))
      end
  end.

(** ** Tasks resolve *)

(** The clock has moved on since the last change of the registry. *)
Definition later_than (now : stamp) (m : gmap string TaskEntry) : Prop :=
  ∀ i e, m !! i = Some e → (t_updated_at (te_state e) < st_now now)%Z.

(** Pruning keeps the finished task that was updated last. *)
Lemma prune_keeps_newest m i e :
  m !! i = Some e →
  (∀ j e', j ≠ i → m !! j = Some e' → (t_updated_at (te_state e') < t_updated_at (te_state e))%Z) →
  prune_terminal_tasks m !! i = Some e.
Proof.
  intros Hi Hnew. destruct (prune_terminal_tasks m !! i) as [e'|] eqn:Hp.
  { apply (lookup_weaken _ m) in Hp; [congruence|apply prune_subseteq]. }
  destruct (prune_terminal_tasks_correct m) as (Hsub & Hrun & Hsize & Hold).
  assert (is_terminal e = true) as Ht.
  { unfold is_terminal. apply bool_decide_eq_true. intros Hr. by rewrite (Hrun i e Hi Hr) in Hp. }
  assert (size (terminal m) ≠ 0) as Hne.
  { intros Hz%map_size_empty_inv. assert (terminal m !! i = Some e) as Hl.
    { unfold terminal. by rewrite map_lookup_filter_Some. }
    by rewrite Hz in Hl. }
  assert (terminal (prune_terminal_tasks m) ≠ ∅) as (j & ej & Hj)%map_choose.
  { intros Hz. rewrite Hz, map_size_empty in Hsize. unfold TERMINAL_TASK_CAP in Hsize. lia. }
  unfold terminal in Hj. apply map_lookup_filter_Some in Hj as [Hj Htj].
  pose proof (Hold i j e ej Hi Hp Hj Htj) as Hle.
  assert (j ≠ i) as Hne' by congruence.
  pose proof (Hnew j ej Hne' (lookup_weaken _ _ _ _ Hj Hsub)). lia.
Qed.

Lemma prune_keeps_insert now m i e :
  later_than now m → t_updated_at (te_state e) = st_now now →
  prune_terminal_tasks (<[i := e]> m) !! i = Some e.
Proof.
  intros Hlater He. apply prune_keeps_newest; [by simplify_map_eq|].
  intros j e' Hne. rewrite lookup_insert_ne by done. intros Hj%Hlater. lia.
Qed.

(** A task that is updated now stays, also when it ends. *)
Lemma ended_kept f id now r e :
  entries r !! id = Some e → later_than now (entries r) → t_updated_at (te_state (f e)) = st_now now →
  entries (pruned (with_entry f id r)) !! id = Some (f e).
Proof.
  intros He Hlater Hf. cbn [pruned with_entry entries].
  replace (alter f id (entries r)) with (<[id := f e]> (entries r)); [by eapply prune_keeps_insert|].
  apply map_eq. intros j. destruct (decide (j = id)) as [->|Hne].
  - by rewrite lookup_alter_eq, lookup_insert_eq, He.
  - by rewrite lookup_alter_ne, lookup_insert_ne by done.
Qed.

Lemma later_than_update f id now now' r :
  (∀ e, t_updated_at (te_state (f e)) = st_now now) → (st_now now < st_now now')%Z →
  later_than now (entries r) → later_than now' (entries (with_entry f id r)).
Proof.
  intros Hf Hlt Hlater i e. cbn [with_entry entries]. intros [(_ & e0 & _ & ->)|[_ He%Hlater]]%lookup_alter_Some; [|lia].
  rewrite Hf. lia.
Qed.

Hypothesis result_round_trip : ∀ res, is_call_tool_result (result_to_value res) = true.

(** A tool that is run as a task and answers at once leaves a completed task behind.  The
    task that the client is given is the one that [get_task_info] then shows, [get_task_result]
    returns exactly the tool's result, and no running task is lost, however many finished
    tasks the registry prunes. *)
Theorem enqueued_result_returned name args now s res r s' :
  call name args s = (Ok res, (r, s')) →
  started_task res = None →
  later_than now (entries r) →
  ∃ task r',
    enqueue_task name args now s = (Ok task, (r', s')) ∧
    mk_status task = McpCompleted ∧
    get_task_info (mk_task_id task) r' = Ok task ∧
    get_task_result (mk_task_id task) r' = Ok (result_to_value res) ∧
    (∀ id e, entries r !! id = Some e → t_status (te_state e) = Running → id ≠ mk_task_id task →
       entries r' !! id = Some e).
Proof.
  intros Hcall Hst Hlater. unfold enqueue_task. rewrite Hcall, Hst. unfold create_completed. cbv zeta beta.
  set (id := next_task_id "task" (id_counter r)).
  set (e := {| te_state := new_state id Completed "Completed" None (Some (result_to_value res)) None now;
               te_handle := None |}).
  assert (prune_terminal_tasks (<[id := e]> (entries r)) !! id = Some e) as Hl
    by (eapply prune_keeps_insert; [exact Hlater|done]).
  unfold created, task_get. cbn [entries]. rewrite Hl. cbn [fmap option_fmap option_map].
  eexists _, _. split; [done|]. split; [done|]. unfold get_task_info, get_task_result, task_get. cbn.
  fold id. rewrite Hl. cbn. rewrite result_round_trip. split; [done|]. split; [done|].
  intros id' e' He' Hrun Hne. apply prune_running; [|done]. by rewrite lookup_insert_ne.
Qed.

(** Cancelling a running task answers with that task, cancelled, and hands its join
    handle to be aborted.  From then on its result is the error that it was cancelled, a second
    cancellation is refused and changes nothing, and all other running tasks stay as they are. *)
Theorem cancelled_task_reported id now e r :
  entries r !! id = Some e → t_status (te_state e) = Running → t_id (te_state e) = id →
  later_than now (entries r) →
  ∃ task r',
    cancel_task id now r = (Ok task, r', te_handle e) ∧
    mk_task_id task = id ∧ mk_status task = McpCancelled ∧
    get_task_info id r' = Ok task ∧
    get_task_result id r' = Err (internal_error "Task was cancelled") ∧
    (∀ later, ∃ err, cancel_task id later r' = (Err err, r', None)) ∧
    (∀ id' e', id' ≠ id → entries r !! id' = Some e' → t_status (te_state e') = Running →
       entries r' !! id' = Some e').
Proof.
  intros He Hrun Hid Hlater. unfold cancel_task, cancel at 1. rewrite He, bool_decide_true by done.
  set (f := λ e, {| te_state := set_state Cancelled "Cancelled by client" None now (te_state e); te_handle := None |}).
  pose proof (ended_kept f id now r e He Hlater eq_refl) as Hl.
  unfold task_get. rewrite Hl. eexists _, _. split; [done|].
  split; [exact Hid|]. split; [done|]. unfold get_task_info, get_task_result, task_get. rewrite Hl.
  split; [done|]. split; [done|]. split.
  - intros later. unfold cancel. rewrite Hl. rewrite bool_decide_false by done. by eexists.
  - intros id' e2 Hne He2 Hrun2. apply prune_running; [|done]. cbn [with_entry entries]. by rewrite lookup_alter_ne.
Qed.
End tasks.

(** ** A registry with one running task *)

(** A form of the results as JSON with a test that recognises it. *)
Definition sample_result_value (res : CallToolResult) : Value :=
  obj [("content", Array (VString <$> content res)); ("isError", Bool (default false (is_error res)))].

Definition sample_is_result (v : Value) : bool := match v with Object _ => true | _ => false end.

Definition sample_call (name : string) (args : Value) (s : TaskRegistry * unit) :
    result CallToolResult McpError * (TaskRegistry * unit) := (Ok (success ("called " +:+ name)), s).

Lemma sample_tasks_later : later_than (at_time 5) (entries sample_tasks).
Proof.
  intros i e. replace (entries sample_tasks) with
    ({["job-1" := {| te_state := new_state "job-1" Running "Queued" None None (Some "k") (at_time 1);
                     te_handle := None |}]} : gmap string TaskEntry) by (vm_compute; reflexivity).
  intros [<- <-]%lookup_singleton_Some. vm_compute. reflexivity.
Qed.

Lemma enqueued_result_returned_witness :
  ∃ task r',
    enqueue_task (H := canonical_order) (λ _, None) sample_result_value sample_call "list_segments" Null (at_time 5)
      (sample_tasks, tt) = (Ok task, (r', tt)) ∧
    get_task_result (λ _, "") sample_result_value sample_is_result (mk_task_id task) r' =
      Ok (sample_result_value (success "called list_segments")).
Proof.
  destruct (enqueued_result_returned (H := canonical_order) (λ _, None) (λ _, "") sample_result_value sample_is_result
    sample_call (λ _, eq_refl) "list_segments" Null (at_time 5) (sample_tasks, tt)
    (success "called list_segments") sample_tasks tt eq_refl eq_refl sample_tasks_later)
    as (task & r' & He & _ & _ & Hr & _).
  exists task, r'. exact (conj He Hr).
Defined.

Lemma cancelled_task_reported_witness :
  ∃ task r', cancel_task (H := canonical_order) "job-1" (at_time 5) sample_tasks = (Ok task, r', None) ∧
             mk_status task = McpCancelled.
Proof.
  destruct (cancelled_task_reported (H := canonical_order) (λ _, "") sample_result_value sample_is_result "job-1" (at_time 5)
    {| te_state := new_state "job-1" Running "Queued" None None (Some "k") (at_time 1); te_handle := None |}
    sample_tasks ltac:(vm_compute; reflexivity) eq_refl eq_refl sample_tasks_later)
    as (task & r' & He & _ & Hs & _).
  exists task, r'. exact (conj He Hs).
Defined.
