(* ===== verification/McpServer.v ===== *)
(** * The front of the server (src/server/mod.rs: ToolMux, SanitizedIdaServer)

    Which tools a client is shown, which name reaches which handler, and what happens to a name
    that is none, for calls and for calls as tasks.  The handlers and the JSON schemas that
    schemars derives are parameters. *)

From Stdlib Require Import Ascii.
From stdpp Require Import base gmap strings numbers list.
From S2P Require Import Prelude RustStr Json ToolError ToolTable ToolRegistry Tasks RpcDispatch LocalTools TaskTools.

Open Scope ida_scope.

(** ** Registered tools *)

(** The functions with the attribute [#[tool]], in the order of the source. *)
Definition registered_tools : list string :=
  ["open_idb"; "load_debug_info"; "get_analysis_status"; "close_idb"; "tool_catalog"; "tool_help";
   "list_functions"; "list_funcs"; "get_function_by_name"; "get_function_prototype"; "get_address_info";
   "get_function_at_address"; "disassemble"; "disassemble_function"; "disassemble_function_at";
   "decompile_function"; "get_pseudocode_at"; "decompile_structured"; "batch_decompile";
   "search_pseudocode"; "scan_memory_table"; "diff_pseudocode"; "list_segments"; "list_strings";
   "get_xrefs_to_string"; "get_xrefs_to"; "get_xrefs_from"; "list_imports"; "list_exports";
   "list_entry_points"; "read_bytes"; "get_basic_blocks"; "get_callees"; "get_callers"; "get_database_info";
   "batch_lookup_functions"; "list_globals"; "search_bytes"; "search_text"; "read_byte"; "read_word";
   "read_dword"; "read_qword"; "read_string"; "read_global_variable"; "find_control_flow_paths";
   "build_callgraph"; "build_xref_matrix"; "export_functions"; "convert_number"; "list_local_types";
   "get_xrefs_to_struct_field"; "set_comment"; "set_function_comment"; "patch_assembly"; "declare_c_type";
   "get_stack_frame"; "create_stack_variable"; "delete_stack_variable"; "rename_stack_variable";
   "set_stack_variable_type"; "list_enums"; "create_enum"; "list_structs"; "get_struct_info";
   "read_struct_at_address"; "search_structs"; "search_instructions"; "search_instruction_operands";
   "apply_type"; "set_function_prototype"; "infer_type"; "run_auto_analysis"; "rename_symbol";
   "batch_rename"; "rename_local_variable"; "set_local_variable_type"; "set_decompiler_comment";
   "patch_bytes"; "open_dsc"; "dsc_add_dylib"; "dsc_add_region"; "get_task_status"; "run_script";
   "dbg_load_debugger"; "dbg_start_process"; "dbg_attach_process"; "dbg_detach_process"; "dbg_exit_process";
   "dbg_get_state"; "dbg_add_breakpoint"; "dbg_del_breakpoint"; "dbg_enable_breakpoint";
   "dbg_list_breakpoints"; "dbg_continue"; "dbg_step_into"; "dbg_step_over"; "dbg_step_until_ret";
   "dbg_run_to"; "dbg_get_registers"; "dbg_set_register"; "dbg_read_memory"; "dbg_write_memory";
   "dbg_get_memory_info"; "dbg_list_threads"; "dbg_select_thread"; "dbg_wait_event"].

(** [rmcp::model::TaskSupport] *)
Inductive TaskSupport : Type := Forbidden | Optional | Required.

(** [rmcp::model::Tool], without what the server leaves alone. *)
Record McpTool : Type := {
  mt_name : string;
  mt_input_schema : list (string * Value);
  mt_execution : option TaskSupport
}.

(** [Tool::task_support] *)
Definition task_support (t : McpTool) : TaskSupport := default Forbidden (mt_execution t).

Definition TASK_CAPABLE_TOOLS : list string := ["open_dsc"].

Definition annotate_task_support (t : McpTool) : McpTool :=
  if bool_decide (mt_name t ∈ TASK_CAPABLE_TOOLS) then
    {| mt_name := mt_name t; mt_input_schema := mt_input_schema t; mt_execution := Some Optional |}
  else t.

(** [sanitize_tool_schemas], on one tool. *)
Definition sanitize_tool (t : McpTool) : McpTool :=
  annotate_task_support
    {| mt_name := mt_name t; mt_input_schema := filter (λ kv, kv.1 ≠ "$schema") (mt_input_schema t);
       mt_execution := mt_execution t |}.

Section server.
Context `{HashOrder} {S : Type}.
Context (schema : string → list (string * Value)).
Context (handler : string → Value → TaskRegistry * S → result CallToolResult McpError * (TaskRegistry * S)).
Context (json_parse : string → option Value) (result_to_value : CallToolResult → Value).

(** [ToolMux::get]: the macro's table, by name. *)
Definition mux_get (name : string) : option McpTool :=
  if bool_decide (name ∈ registered_tools) then
    Some {| mt_name := name; mt_input_schema := schema name; mt_execution := None |}
  else None.

(** [ToolMux::list_all] *)
Definition mux_list_all : list McpTool := omap (λ info, mux_get (tool_name info)) TOOL_REGISTRY.

(** [ToolMux::call]: rmcp refuses a name that is not in the table. *)
Definition mux_call (name : string) (args : Value) (s : TaskRegistry * S) :
    result CallToolResult McpError * (TaskRegistry * S) :=
  if bool_decide (name ∈ registered_tools) then handler name args s
  else (Err (invalid_params "tool not found" None), s).

(** ** [SanitizedIdaServer] *)

Definition list_tools : list McpTool := sanitize_tool <$> mux_list_all.

Definition sanitized_get_tool (name : string) : option McpTool := annotate_task_support <$> mux_get name.

Definition call_tool (name : string) (args : Value) (s : TaskRegistry * S) :
    result CallToolResult McpError * (TaskRegistry * S) :=
  let name := primary_name_for name in
  match mux_get name with
  | None =>
      (Ok (to_tool_result (InvalidToolName
         ("Unknown tool: " +:+ name +:+ ". Use tool_catalog() to discover available tools."))), s)
  | Some _ => mux_call name args s
  end.

(** rmcp's dispatch of [tools/call] ([ServerHandler::handle_request]). *)
Inductive CallAnswer : Type :=
| CallAnswered (r : result CallToolResult McpError)
| TaskAnswered (r : result McpTask McpError).

Definition handle_call (is_task : bool) (name : string) (args : Value) (now : stamp) (s : TaskRegistry * S) :
    CallAnswer * (TaskRegistry * S) :=
  let run :=
    if is_task then
      let '(r, s) := enqueue_task json_parse result_to_value mux_call name args now s in (TaskAnswered r, s)
    else let '(r, s) := call_tool name args s in (CallAnswered r, s) in
  match sanitized_get_tool name with
  | Some tool =>
      match task_support tool, is_task with
      | Required, false => (CallAnswered (Err (method_not_found "Tool requires task-based invocation")), s)
      | Forbidden, true =>
          (CallAnswered (Err (invalid_params "Tool does not support task-based invocation" None)), s)
      | _, _ => run
      end
  | None => run
  end.

(** ** The registry and the registered tools agree *)

Lemma registry_registered t : t ∈ TOOL_REGISTRY → tool_name t ∈ registered_tools.
Proof.
  intros Ht. assert (Forall (λ t, tool_name t ∈ registered_tools) TOOL_REGISTRY) as Hall.
  { apply (bool_decide_unpack (Forall (λ t, tool_name t ∈ registered_tools) TOOL_REGISTRY)). vm_compute. exact I. }
  rewrite Forall_forall in Hall. by apply Hall.
Qed.

Lemma registered_known n : n ∈ registered_tools → is_Some (get_tool n).
Proof.
  intros Hn. assert (Forall (λ n, is_Some (get_tool n)) registered_tools) as Hall.
  { apply (bool_decide_unpack (Forall (λ n, is_Some (get_tool n)) registered_tools)). vm_compute. exact I. }
  rewrite Forall_forall in Hall. by apply Hall.
Qed.

Lemma mux_get_known t :
  t ∈ TOOL_REGISTRY →
  mux_get (tool_name t) =
    Some {| mt_name := tool_name t; mt_input_schema := schema (tool_name t); mt_execution := None |}.
Proof. intros Ht. unfold mux_get. by rewrite bool_decide_true by by apply registry_registered. Qed.

Lemma list_tools_eq :
  list_tools = (λ t, sanitize_tool {| mt_name := tool_name t; mt_input_schema := schema (tool_name t);
                                      mt_execution := None |}) <$> TOOL_REGISTRY.
Proof.
  unfold list_tools, mux_list_all. assert (∀ t, t ∈ TOOL_REGISTRY → _) as Hknown by exact mux_get_known.
  induction TOOL_REGISTRY as [|t l IH]; [done|]. cbn [omap list_omap]. rewrite Hknown by left.
  cbn [fmap list_fmap]. f_equal. apply IH. intros u Hu. apply Hknown. by right.
Qed.

Lemma sanitized_name t : mt_name (sanitize_tool t) = mt_name t.
Proof. unfold sanitize_tool, annotate_task_support. by case_bool_decide. Qed.

Lemma sanitized_schema t : "$schema" ∉ (mt_input_schema (sanitize_tool t)).*1.
Proof.
  unfold sanitize_tool, annotate_task_support. rewrite list_elem_of_fmap.
  case_bool_decide; intros ([k v] & -> & [Hk _]%list_elem_of_filter); by apply Hk.
Qed.

(** C16: A client is shown exactly the tools of the registry, in its order, with schemas that have
    no [$schema] key.  A call of any name of a tool, its own or an alias, reaches the handler of
    that tool; any other name is answered with an error that repeats it and touches nothing. *)
Theorem calls_reach_their_tool name args s :
  (mt_name <$> list_tools = tool_name <$> TOOL_REGISTRY) ∧
  Forall (λ tool, "$schema" ∉ (mt_input_schema tool).*1) list_tools ∧
  call_tool name args s =
    match get_tool name with
    | Some t => handler (tool_name t) args s
    | None =>
        (Ok (to_tool_result (InvalidToolName
           ("Unknown tool: " +:+ name +:+ ". Use tool_catalog() to discover available tools."))), s)
    end.
Proof.
  split; [|split].
  - rewrite list_tools_eq, <-list_fmap_compose. apply list_fmap_ext. intros i t _. by apply sanitized_name.
  - unfold list_tools. apply Forall_fmap, Forall_true. intros t. apply sanitized_schema.
  - unfold call_tool, mux_call, primary_name_for. change (get_tool_by_alias name) with (get_tool name).
    destruct (get_tool name) as [t|] eqn:Ht.
    + apply get_tool_iff in Ht as [Ht _]. rewrite mux_get_known by done.
      by rewrite bool_decide_true by by apply registry_registered.
    + unfold mux_get. rewrite bool_decide_false; [done|]. intros [t Hk]%registered_known. congruence.
Qed.

(** Only [open_dsc] can be called as a task.  Every other registered tool refuses it, and a name
    that is not registered is not found: aliases are resolved for calls only. *)
Theorem task_calls_decided name args now s :
  handle_call true name args now s =
    if bool_decide (name = "open_dsc") then
      let '(r, s) := enqueue_task json_parse result_to_value handler "open_dsc" args now s in (TaskAnswered r, s)
    else if bool_decide (name ∈ registered_tools) then
      (CallAnswered (Err (invalid_params "Tool does not support task-based invocation" None)), s)
    else (TaskAnswered (Err (invalid_params "tool not found" None)), s).
Proof.
  unfold handle_call, sanitized_get_tool, mux_get, enqueue_task, mux_call.
  case_bool_decide as Hr; [|case_bool_decide as Ho; [subst name; by exfalso; apply Hr; apply (bool_decide_unpack _); vm_compute|done]].
  unfold annotate_task_support. cbn [fmap option_fmap option_map mt_name mt_input_schema mt_execution].
  case_bool_decide as Hc; case_bool_decide as Ho; cbn.
  - by subst.
  - by apply list_elem_of_singleton in Hc.
  - exfalso. apply Hc. by apply list_elem_of_singleton.
  - done.
Qed.
End server.
