(* ===== verification/DscTasks.v ===== *)
(** * Loading a shared cache in the background (src/server/mod.rs: open_dsc)

    [open_dsc] starts a task that runs [idat] and then opens the database that it wrote.  The
    state holds the task registry, the session, the files, the background jobs and the [idat]
    processes; an event is what a client, a job or a process does between two points where the
    runtime may switch.  [idat], the host and the worker are parameters. *)

From Stdlib Require Import Ascii.
From stdpp Require Import base gmap strings numbers fin_maps list.
From S2P Require Import Prelude RustStr Json ToolError Serde ToolRequests Fs Tasks RpcDispatch LocalTools TaskTools.
From S2P Require Import HttpSessions IdatCompat Dsc.

Open Scope ida_scope.

(** ** State *)

Record DscBackgroundCtx : Type := {
  cx_idat : string;
  cx_idat_args : list string;
  cx_script_path : string;
  cx_log_path : option string;
  cx_out_i64 : string;
  cx_module : string;
  cx_frameworks : list string
}.

(** Where a job waits: for its first turn, for [idat], or for the worker. *)
Inductive JobPhase : Type := JobSpawned | JobIdat | JobOpening.

#[export] Instance JobPhase_eq_dec : EqDecision JobPhase.
Proof. solve_decision. Defined.

Record Job : Type := { job_task : string; job_ctx : DscBackgroundCtx; job_phase : JobPhase }.

(** An [idat] process, with the script that it was started on. *)
Record Process : Type := { pr_args : list string; pr_script : option string; pr_out : string }.

Record DscState {W : Type} : Type := {
  dc_tasks : TaskRegistry;
  dc_srv : Server W;
  dc_files : gmap string string;
  dc_jobs : gmap N Job;
  dc_procs : gmap N Process;
  dc_next : N
}.
Arguments DscState : clear implicits.

Definition dsc_init {W} (srv : Server W) (files : gmap string string) : DscState W :=
  {| dc_tasks := registry_new; dc_srv := srv; dc_files := files; dc_jobs := ∅; dc_procs := ∅; dc_next := 0 |}.

Section updates.
Context {W : Type}.

Definition upd_tasks (f : TaskRegistry → TaskRegistry) (s : DscState W) : DscState W :=
  {| dc_tasks := f (dc_tasks s); dc_srv := dc_srv s; dc_files := dc_files s; dc_jobs := dc_jobs s;
     dc_procs := dc_procs s; dc_next := dc_next s |}.
Definition upd_srv (srv : Server W) (s : DscState W) : DscState W :=
  {| dc_tasks := dc_tasks s; dc_srv := srv; dc_files := dc_files s; dc_jobs := dc_jobs s;
     dc_procs := dc_procs s; dc_next := dc_next s |}.
Definition upd_files (f : gmap string string → gmap string string) (s : DscState W) : DscState W :=
  {| dc_tasks := dc_tasks s; dc_srv := dc_srv s; dc_files := f (dc_files s); dc_jobs := dc_jobs s;
     dc_procs := dc_procs s; dc_next := dc_next s |}.
Definition upd_jobs (f : gmap N Job → gmap N Job) (s : DscState W) : DscState W :=
  {| dc_tasks := dc_tasks s; dc_srv := dc_srv s; dc_files := dc_files s; dc_jobs := f (dc_jobs s);
     dc_procs := dc_procs s; dc_next := dc_next s |}.
Definition upd_procs (f : gmap N Process → gmap N Process) (s : DscState W) : DscState W :=
  {| dc_tasks := dc_tasks s; dc_srv := dc_srv s; dc_files := dc_files s; dc_jobs := dc_jobs s;
     dc_procs := f (dc_procs s); dc_next := dc_next s |}.

Definition has_file (p : string) (s : DscState W) : bool := bool_decide (is_Some (dc_files s !! p)).
End updates.

(** [Path::parent], of a path that ends in a file name. *)
Definition parent_of (p : string) : option string :=
  match rsplit_slash p with
  | Some (EmptyString, _) => Some "/"
  | Some (dir, _) => Some dir
  | None => if bool_decide (p = "") then None else Some ""
  end.

Definition load_script_path (dsc_path : string) : string :=
  path_join (default "/tmp" (parent_of dsc_path)) "ida_mcp_dsc_load.py".

Definition set_phase (ph : JobPhase) (j : Job) : Job :=
  {| job_task := job_task j; job_ctx := job_ctx j; job_phase := ph |}.

(** ** The tool *)

Section dsc.
Context {W : Type} `{!SessionWorker W} `{HashOrder}.
Context (home : option string) (json_pretty : Value → string) (pid : Z) (mode : LocalMode).
Context (find_idat_binary : option string) (write_error : string → option string).

#[local] Abbreviation State := (DscState W).

Definition open_args (i64 : string) : OpenArgs :=
  {| oa_path := i64; oa_load_debug_info := false; oa_debug_info_path := None; oa_debug_info_verbose := false;
     oa_file_type := None |}.

(** A token for the client, in HTTP mode; the router does the same. *)
Definition dsc_token (clock : Z) (refs : DbRefTracker) : option string * DbRefTracker :=
  match mode with
  | Http => let '(t, refs) := issue_token clock pid refs in (Some t, refs)
  | Stdio => (None, refs)
  end.

Definition with_module (module : string) (frameworks : list string) (info : Value) : Value :=
  let value := insert_key "module" (VString module) info in
  if bool_decide (frameworks = []) then value
  else insert_key "frameworks_loaded" (Array (VString <$> frameworks)) value.

Definition with_token (token : option string) (v : Value) : Value :=
  match token with Some t => insert_key "close_token" (VString t) v | None => v end.

(** The database exists already: open it and answer. *)
Definition open_dsc_i64 (clock : Z) (out_i64 module : string) (frameworks : list string) (s : State) :
    CallToolResult * State :=
  match sw_open (open_args out_i64) (srv_worker (dc_srv s)) with
  | (Err e, w) => (to_tool_result e, upd_srv {| srv_refs := srv_refs (dc_srv s); srv_worker := w |} s)
  | (Ok info, w) =>
      let '(token, refs) := dsc_token clock (srv_refs (dc_srv s)) in
      let value := insert_key "close_hint" (VString (close_hint mode)) (with_module module frameworks info) in
      (success (json_pretty (with_token token value)), upd_srv {| srv_refs := refs; srv_worker := w |} s)
  end.

Definition started_answer (id : string) : Value :=
  obj [("status", VString "started"); ("task_id", VString id);
       ("message", VString "DSC loading started in background. Poll task_status(task_id) for progress.")].

Definition running_answer (id : string) : Value :=
  obj [("status", VString "already_running"); ("task_id", VString id);
       ("message", VString "A DSC loading task for this path is already in progress. Poll task_status(task_id) for progress.")].

(** The end of [open_dsc]: the task, its job, and the join handle in the registry. *)
Definition spawn_load (now : stamp) (ctx : DscBackgroundCtx) (s : State) : CallToolResult * State :=
  match create_keyed (cx_out_i64 ctx) "Running idat to create .i64 from DSC..." now (dc_tasks s) with
  | (r, Err existing) => (success (json_pretty (running_answer existing)), upd_tasks (λ _, r) s)
  | (r, Ok id) =>
      let h := dc_next s in
      (success (json_pretty (started_answer id)),
       {| dc_tasks := set_handle id h r; dc_srv := dc_srv s; dc_files := dc_files s;
          dc_jobs := <[h := {| job_task := id; job_ctx := ctx; job_phase := JobSpawned |}]> (dc_jobs s);
          dc_procs := dc_procs s; dc_next := N.succ h |})
  end.

Definition open_dsc (now : stamp) (clock : Z) (req : Struct OpenDscRequest) (s : State) : CallToolResult * State :=
  let path : string := req @ "path" in
  let exists_ p := has_file p s in
  if negb (validate_path home exists_ exists_ path) then (to_tool_result (InvalidPath path), s)
  else
    let ida_version := default 9%Z (req @ "ida_version") in
    if negb (bool_decide (ida_version = 8%Z) || bool_decide (ida_version = 9%Z)) then
      (to_tool_result (InvalidParams "ida_version must be 8 or 9"), s)
    else
      let file_type := dsc_file_type (req @ "arch") ida_version in
      let frameworks : list string := default [] (req @ "frameworks") in
      let out_i64 := with_extension "i64" path in
      if has_file out_i64 s then open_dsc_i64 clock out_i64 (req @ "module") frameworks s
      else
        match find_idat find_idat_binary with
        | Err e => (to_tool_result e, s)
        | Ok idat =>
            let script_path := load_script_path path in
            match write_error script_path with
            | Some e => (to_tool_result (InvalidParams ("Failed to write DSC load script: " +:+ e)), s)
            | None =>
                let s := upd_files (<[script_path := dsc_load_script (req @ "module") frameworks]>) s in
                let log_path : option string := req @ "log_path" in
                if match log_path with Some lp => contains ".." lp | None => false end then
                  (to_tool_result (InvalidParams "log_path must not contain '..' path traversal"), s)
                else
                  spawn_load now
                    {| cx_idat := idat;
                       cx_idat_args := idat_dsc_args path out_i64 script_path file_type log_path;
                       cx_script_path := script_path; cx_log_path := log_path; cx_out_i64 := out_i64;
                       cx_module := req @ "module"; cx_frameworks := frameworks |} s
            end
        end.

(** ** The job ([run_dsc_background]), from one wait to the next *)

(** First turn: start [idat]. *)
Definition job_start (now : stamp) (h : N) (j : Job) (s : State) : State :=
  let s := upd_tasks (update_message (job_task j) "Running idat to create .i64..." now) s in
  let p := {| pr_args := cx_idat_args (job_ctx j); pr_script := dc_files s !! cx_script_path (job_ctx j);
              pr_out := cx_out_i64 (job_ctx j) |} in
  upd_procs (<[h := p]>) (upd_jobs (<[h := set_phase JobIdat j]>) s).

(** What the run of [idat] came to: its exit code and error output (-1 and a text when it could
    not be started), and the end of its log. *)
Record IdatExit : Type := { ie_code : Z; ie_stderr : string; ie_log : option string }.

Definition idat_failure (x : IdatExit) : string :=
  "idat exited with code " +:+ fmt_signed (ie_code x) +:+ "." +:+ newline +:+ "stderr: " +:+ ie_stderr x +:+
  match ie_log x with
  | Some log => newline +:+ "log (last 20 lines):" +:+ newline +:+ tail_lines log 20
  | None => ""
  end.

Definition job_failed (now : stamp) (h : N) (j : Job) (msg : string) (s : State) : State :=
  upd_jobs (delete h) (upd_tasks (fail_task (job_task j) msg now) s).

(** [idat] has ended: clean up, and ask the worker to open the database. *)
Definition job_idat_done (now : stamp) (h : N) (j : Job) (x : IdatExit) (s : State) : State :=
  let s := upd_files (delete (cx_script_path (job_ctx j))) s in
  if negb (bool_decide (ie_code x = 0%Z)) || negb (has_file (cx_out_i64 (job_ctx j)) s) then
    job_failed now h j
      (idat_failure {| ie_code := ie_code x; ie_stderr := ie_stderr x;
                       ie_log := cx_log_path (job_ctx j) ≫= λ _, ie_log x |}) s
  else
    upd_jobs (<[h := set_phase JobOpening j]>)
      (upd_tasks (update_message (job_task j) "Opening database with idalib..." now) s).

(** The blocking task that runs [idat] panicked. *)
Definition job_panicked (now : stamp) (h : N) (j : Job) (err : string) (s : State) : State :=
  job_failed now h j ("idat task panicked: " +:+ err) (upd_files (delete (cx_script_path (job_ctx j))) s).

(** The worker answers. *)
Definition job_opened (now : stamp) (clock : Z) (h : N) (j : Job) (s : State) : State :=
  let ctx := job_ctx j in
  match sw_open (open_args (cx_out_i64 ctx)) (srv_worker (dc_srv s)) with
  | (Err e, w) =>
      job_failed now h j (error_to_string e) (upd_srv {| srv_refs := srv_refs (dc_srv s); srv_worker := w |} s)
  | (Ok info, w) =>
      let '(token, refs) := dsc_token clock (srv_refs (dc_srv s)) in
      let value := with_token token (with_module (cx_module ctx) (cx_frameworks ctx) info) in
      upd_jobs (delete h)
        (upd_tasks (complete (job_task j) value now) (upd_srv {| srv_refs := refs; srv_worker := w |} s))
  end.

(** ** Events *)

Inductive DscEvent : Type :=
| EvOpen (now : stamp) (clock : Z) (req : Struct OpenDscRequest)
| EvStart (now : stamp) (h : N)
| EvExit (now : stamp) (h : N) (x : IdatExit) (written : option string)
| EvPanic (now : stamp) (h : N) (err : string)
| EvOpened (now : stamp) (clock : Z) (h : N)
| EvCancel (now : stamp) (id : string)
| EvSession (srv : Server W).

(** A job takes part only in the phase that waits for the event. *)
Definition job_at (h : N) (ph : JobPhase) (s : State) : option Job :=
  dc_jobs s !! h ≫= λ j, if bool_decide (job_phase j = ph) then Some j else None.

Definition on_job (h : N) (ph : JobPhase) (f : Job → State → State) (s : State) : State :=
  match job_at h ph s with Some j => f j s | None => s end.

(** A cancelled job is aborted where it waits; the process that it started is not its child
    and runs on. *)
Definition dsc_exec (ev : DscEvent) (s : State) : State :=
  match ev with
  | EvOpen now clock req => (open_dsc now clock req s).2
  | EvStart now h => on_job h JobSpawned (job_start now h) s
  | EvExit now h x written =>
      match dc_procs s !! h with
      | Some p =>
          let s := upd_procs (delete h) s in
          let s := match written with Some data => upd_files (<[pr_out p := data]>) s | None => s end in
          on_job h JobIdat (λ j, job_idat_done now h j x) s
      | None => s
      end
  | EvPanic now h err =>
      match dc_procs s !! h with
      | Some p => on_job h JobIdat (λ j, job_panicked now h j err) (upd_procs (delete h) s)
      | None => s
      end
  | EvOpened now clock h => on_job h JobOpening (job_opened now clock h) s
  | EvCancel now id =>
      let '(_, r, aborted) := cancel_task id now (dc_tasks s) in
      let s := upd_tasks (λ _, r) s in
      match aborted with Some h => upd_jobs (delete h) s | None => s end
  | EvSession srv => upd_srv srv s
  end.

Definition dsc_run (evs : list DscEvent) (s : State) : State := foldl (λ s ev, dsc_exec ev s) s evs.
End dsc.
