(* ===== verification/DscTheorems.v ===== *)
(** * What background loading guarantees, and where it fails

    Every running load has a job and every job a running load; without cancellation at most one
    [idat] writes to an output.  A cancelled load leaves its [idat] behind, and loads of one
    directory share their script. *)

From Stdlib Require Import Ascii.
From stdpp Require Import base gmap strings numbers fin_maps list.
From S2P Require Import Prelude RustStr Json ToolError Serde ToolRequests Fs Tasks RpcDispatch LocalTools.
From S2P Require Import TaskTools HttpSessions IdatCompat PyText Dsc DscTasks.

Open Scope ida_scope.

(** ** Names of modules in the scripts *)

Lemma dsc_escape_read m rest : py_read "034" (dsc_escape m +:+ quote +:+ rest) = Some (m, rest).
Proof.
  change (dsc_escape m) with (escape_python_string m). rewrite py_read_escape.
  - assert (py_read "034" (quote +:+ rest) = Some ("", rest)) as -> by done.
    cbn [fmap option_fmap option_map fst snd]. by rewrite string_app_nil.
  - by right.
  - induction m as [|c m IH]; [done|]. cbn [str_all]. by rewrite IH.
Qed.

(** A part of the script that has no name in it. *)
Definition dylib_piece (from len : nat) : string :=
  format (String.substring from len add_dylib_template) [("run_plugin_checked", run_plugin_checked_python)].

Lemma pieces_around (head a x b c d e fws tail : string) :
  ∃ before after, head +:+ (a +:+ x +:+ b +:+ c +:+ x +:+ d +:+ e) +:+ fws +:+ tail = before +:+ c +:+ x +:+ d +:+ after.
Proof. exists (head +:+ a +:+ x +:+ b), (e +:+ fws +:+ tail). by rewrite !string_app_assoc. Qed.

Lemma primary_pieces x :
  format load_primary_template [("escaped_module", x)] =
  py "
# Load primary module
print(`[ida-cli] loading module: " +:+ x +:+ py "`)
" +:+ py "dscu_load_module(`" +:+ x +:+ py "`)" +:+ py "
".
Proof. vm_compute. reflexivity. Qed.

(** Whatever a client sends as the name of a module, Python reads it in the scripts that load
    modules as exactly that name: no text ends the literal early, so nothing of it is run as code. *)
Theorem module_literal_read_back m frameworks :
  (∀ rest, py_read "034" (dsc_escape m +:+ quote +:+ rest) = Some (m, rest)) ∧
  (∃ before after, dsc_add_dylib_script m =
     before +:+ py "dscu_load_module(`" +:+ dsc_escape m +:+ py "`)" +:+ after) ∧
  (∃ before after, dsc_load_script m frameworks =
     before +:+ py "dscu_load_module(`" +:+ dsc_escape m +:+ py "`)" +:+ after).
Proof.
  split; [apply dsc_escape_read|]. split.
  - unfold dsc_add_dylib_script. generalize (dsc_escape m). intros x.
    exists (dylib_piece 0 280 +:+ x +:+ py "`)
"), (dylib_piece 321 331 +:+ x +:+ dylib_piece 661 3). rewrite !string_app_assoc. vm_compute. reflexivity.
  - unfold dsc_load_script. generalize (dsc_escape m). intros x. rewrite primary_pieces.
    generalize (str_join "" ((λ fw, format load_framework_template [("escaped_fw", dsc_escape fw)]) <$> frameworks)).
    intros fws. apply pieces_around.
Qed.

(** ** Tasks and jobs *)

Section tracked.
Context `{HashOrder}.

(** Each job has a running task that knows its handle, and each running task has a job. *)
Definition tracked (r : TaskRegistry) (jobs : gmap N Job) : Prop :=
  (∀ h j, jobs !! h = Some j →
     ∃ e, entries r !! job_task j = Some e ∧ running_with_key (cx_out_i64 (job_ctx j)) e ∧ te_handle e = Some h) ∧
  (∀ id e, entries r !! id = Some e → t_status (te_state e) = Running →
     ∃ h j, jobs !! h = Some j ∧ job_task j = id).

Lemma tracked_inj r jobs h h' j j' :
  tracked r jobs → jobs !! h = Some j → jobs !! h' = Some j' → job_task j = job_task j' → h = h'.
Proof.
  intros [HJ _] Hh Hh' Heq. apply HJ in Hh as (e & He & _ & Hhe). apply HJ in Hh' as (e' & He' & _ & Hhe').
  rewrite <-Heq, He in He'. congruence.
Qed.

Lemma tracked_outputs r jobs h h' j j' :
  task_inv r → tracked r jobs → jobs !! h = Some j → jobs !! h' = Some j' →
  cx_out_i64 (job_ctx j) = cx_out_i64 (job_ctx j') → h = h'.
Proof.
  intros Hinv Htr Hh Hh' Heq. pose proof Htr as [HJ _].
  pose proof (HJ _ _ Hh) as (e & He & Hk & _). pose proof (HJ _ _ Hh') as (e' & He' & Hk' & _).
  eapply tracked_inj; [done..|]. rewrite <-Heq in Hk'. by eapply (ti_keys _ Hinv).
Qed.

(** A job may move to another phase. *)
Lemma tracked_phase r jobs h j ph :
  jobs !! h = Some j → tracked r jobs → tracked r (<[h := set_phase ph j]> jobs).
Proof.
  intros Hj [HJ HR]. split.
  - intros h' j' [[<- <-]|[_ Hj']]%lookup_insert_Some; [|by apply HJ]. by apply HJ in Hj.
  - intros id e He Hr. destruct (HR id e He Hr) as (h' & j' & Hj' & Hid).
    destruct (decide (h = h')) as [->|Hne].
    + exists h', (set_phase ph j). rewrite lookup_insert_eq. split; [done|]. cbn. congruence.
    + exists h', j'. by rewrite lookup_insert_ne.
Qed.

(** An update that keeps status, key and handle. *)
Lemma tracked_with_entry f id r jobs :
  (∀ e, t_status (te_state (f e)) = t_status (te_state e) ∧ t_key (te_state (f e)) = t_key (te_state e) ∧
        te_handle (f e) = te_handle e) →
  tracked r jobs → tracked (with_entry f id r) jobs.
Proof.
  intros Hf [HJ HR]. split.
  - intros h j (e & He & [Hr Hk] & Hh)%HJ. cbn [with_entry entries].
    destruct (decide (id = job_task j)) as [->|Hne].
    + exists (f e). rewrite lookup_alter_eq, He. destruct (Hf e) as (H1 & H2 & H3).
      split; [done|]. split; [split; congruence|congruence].
    + exists e. rewrite lookup_alter_ne by done. by split_and!.
  - intros i e. cbn [with_entry entries].
    intros [(-> & e0 & He0 & ->)|[_ He]]%lookup_alter_Some Hr; [|by eapply HR].
    eapply HR; [exact He0|]. destruct (Hf e0) as (H1 & _). congruence.
Qed.

(** A task that ends leaves with its job. *)
Lemma tracked_end f h j r jobs :
  jobs !! h = Some j → (∀ e, t_status (te_state (f e)) ≠ Running) →
  tracked r jobs → tracked (pruned (with_entry f (job_task j) r)) (delete h jobs).
Proof.
  intros Hj Hf Htr. pose proof Htr as [HJ HR]. split.
  - intros h' j' [Hne Hj']%lookup_delete_Some. pose proof (HJ _ _ Hj') as (e & He & Hk & Hh).
    exists e. split; [|done]. cbn [pruned with_entry entries]. apply prune_running; [|apply Hk].
    rewrite lookup_alter_ne; [done|]. intros Heq. apply Hne. by eapply tracked_inj.
  - intros id e He Hr. cbn [pruned with_entry entries] in He.
    pose proof (lookup_weaken _ _ _ _ He (prune_subseteq _)) as Hl.
    apply lookup_alter_Some in Hl as [(_ & e0 & _ & ->)|[Hne Hl]]; [by destruct (Hf e0)|].
    destruct (HR id e Hl Hr) as (h' & j' & Hj' & <-). exists h', j'. split; [|done].
    rewrite lookup_delete_ne; [done|]. intros <-. congruence.
Qed.

(** A new task with its job. *)
Lemma tracked_spawn key msg now r r' id h ctx jobs :
  task_inv r → create_keyed key msg now r = (r', Ok id) → cx_out_i64 ctx = key → jobs !! h = None →
  tracked r jobs →
  tracked (set_handle id h r') (<[h := {| job_task := id; job_ctx := ctx; job_phase := JobSpawned |}]> jobs).
Proof.
  intros Hinv Hc Hkey Hh [HJ HR]. unfold create_keyed, create_internal in Hc.
  destruct (list_find _ _) as [?|] eqn:Hf; [done|]. cbn [fmap option_fmap option_map] in Hc.
  injection Hc as <- <-. pose proof (fresh_task_id r "dsc" Hinv) as Hfresh.
  set (id := next_task_id "dsc" (id_counter r)) in *.
  set (e := {| te_state := _; te_handle := None |}).
  assert (∀ i e', i ≠ id → entries r !! i = Some e' → t_status (te_state e') = Running →
            prune_terminal_tasks (<[id := e]> (entries r)) !! i = Some e') as Hold.
  { intros i e' Hne He' Hr. apply prune_running; [|done]. by rewrite lookup_insert_ne. }
  split.
  - intros h' j [[<- <-]|[Hne Hj]]%lookup_insert_Some.
    + cbn [job_task job_ctx]. eexists. cbn [set_handle with_entry entries].
      rewrite lookup_alter_eq, (prune_running _ id e) by (done || apply lookup_insert_eq).
      split; [done|]. split; [|done]. by split; cbn; subst key.
    + pose proof (HJ _ _ Hj) as (e' & He' & Hk & Hh'). assert (job_task j ≠ id) as Hne' by congruence.
      exists e'. split; [|done]. cbn [set_handle with_entry entries].
      rewrite lookup_alter_ne by done. apply Hold; [done|done|apply Hk].
  - intros i e'. cbn [set_handle with_entry entries]. destruct (decide (i = id)) as [->|Hne].
    { intros _ _. eexists h, _. rewrite lookup_insert_eq. by split. }
    rewrite lookup_alter_ne by done. intros He' Hr.
    pose proof (lookup_weaken _ _ _ _ He' (prune_subseteq _)) as Hl. rewrite lookup_insert_ne in Hl by done.
    destruct (HR i e' Hl Hr) as (h' & j & Hj & Hid). exists h', j. split; [|done].
    rewrite lookup_insert_ne; [done|]. intros <-. congruence.
Qed.
End tracked.

(** ** The invariant *)

Section invariant.
Context {W : Type} `{!SessionWorker W} `{HashOrder}.
Context (home : option string) (json_pretty : Value → string) (pid : Z) (mode : LocalMode).
Context (find_idat_binary : option string) (write_error : string → option string).

#[local] Abbreviation State := (DscState W).
#[local] Abbreviation Event := (DscEvent (W := W)).
#[local] Abbreviation exec := (dsc_exec home json_pretty pid mode find_idat_binary write_error).
#[local] Abbreviation run := (dsc_run home json_pretty pid mode find_idat_binary write_error).
#[local] Abbreviation open := (open_dsc home json_pretty pid mode find_idat_binary write_error).

Record dsc_inv (s : State) : Prop := {
  di_tasks : task_inv (dc_tasks s);
  di_tracked : tracked (dc_tasks s) (dc_jobs s);
  di_fresh h : (dc_next s ≤ h)%N → dc_jobs s !! h = None ∧ dc_procs s !! h = None
}.

(** Every process belongs to a job that waits for it. *)
Definition procs_owned (s : State) : Prop :=
  ∀ h p, dc_procs s !! h = Some p →
    ∃ j, dc_jobs s !! h = Some j ∧ job_phase j = JobIdat ∧ pr_out p = cx_out_i64 (job_ctx j).

Lemma inv_same_tasks s s' :
  dc_tasks s' = dc_tasks s → dc_jobs s' = dc_jobs s → dc_next s' = dc_next s → dc_procs s' ⊆ dc_procs s →
  dsc_inv s → dsc_inv s'.
Proof.
  intros Ht Hj Hn Hp [H1 H2 H3]. split; rewrite ?Ht, ?Hj, ?Hn; [done|done|]. intros h [Hh Hq]%H3. split; [done|].
  destruct (dc_procs s' !! h) as [p|] eqn:E; [|done].
  pose proof (lookup_weaken _ _ _ _ E Hp). congruence.
Qed.

Lemma job_at_Some h ph (s : State) j : job_at h ph s = Some j → dc_jobs s !! h = Some j ∧ job_phase j = ph.
Proof. unfold job_at. destruct (dc_jobs s !! h) as [j'|]; [|done]. cbn. case_bool_decide; [|done]. by intros [= <-]. Qed.

Lemma inv_message id msg now h j ph s :
  dc_jobs s !! h = Some j → dsc_inv s →
  dsc_inv (upd_jobs (<[h := set_phase ph j]>) (upd_tasks (update_message id msg now) s)).
Proof.
  intros Hj [H1 H2 H3]. split; cbn.
  - eapply inv_task_step; [exact H1|constructor].
  - apply tracked_phase; [done|]. by apply tracked_with_entry.
  - intros h' [Hh Hp]%H3. split; [|done]. rewrite lookup_insert_ne; [done|]. intros <-. congruence.
Qed.

Lemma inv_ended f h j s :
  dc_jobs s !! h = Some j → (∀ e, t_status (te_state (f e)) ≠ Running) →
  task_inv (pruned (with_entry f (job_task j) (dc_tasks s))) →
  dsc_inv s → dsc_inv (upd_jobs (delete h) (upd_tasks (λ r, pruned (with_entry f (job_task j) r)) s)).
Proof.
  intros Hj Hf Ht [H1 H2 H3]. split; cbn; [done|by apply tracked_end|].
  intros h' [Hh Hp]%H3. split; [|done]. by apply lookup_delete_None; right.
Qed.

Lemma inv_failed now h j msg s : dc_jobs s !! h = Some j → dsc_inv s → dsc_inv (job_failed now h j msg s).
Proof.
  intros Hj Hs. apply inv_ended; [done|done| |done].
  eapply (inv_task_step (dc_tasks s)); [apply Hs|apply (ts_fail (job_task j) msg now)].
Qed.

Lemma inv_completed now h j v s :
  dc_jobs s !! h = Some j → dsc_inv s → dsc_inv (upd_jobs (delete h) (upd_tasks (complete (job_task j) v now) s)).
Proof.
  intros Hj Hs. apply inv_ended; [done|done| |done].
  eapply (inv_task_step (dc_tasks s)); [apply Hs|apply (ts_complete (job_task j) v now)].
Qed.

Lemma inv_spawn now ctx s : dsc_inv s → id_room (dc_tasks s) → dsc_inv (spawn_load json_pretty now ctx s).2.
Proof.
  intros [H1 H2 H3] Hroom. unfold spawn_load.
  pose proof (inv_create "dsc" (Some (cx_out_i64 ctx)) "Running idat to create .i64 from DSC..." None now _ H1 Hroom) as Hc.
  destruct (create_keyed _ _ _ _) as [r [id|existing]] eqn:E.
  - split; cbn.
    + eapply inv_task_step; [|constructor]. unfold create_keyed in E. by rewrite E in Hc.
    + eapply tracked_spawn; [exact H1|exact E|done| |done]. by apply H3.
    + intros h Hh. destruct (H3 h) as [Ha Hb]; [lia|]. split; [|done].
      rewrite lookup_insert_ne; [done|lia].
  - unfold create_keyed, create_internal in E. destruct (list_find _ _) as [?|]; [|done].
    cbn [fmap option_fmap option_map] in E. injection E as <- _. by split.
Qed.

(** [open_dsc] leaves the tasks alone or spawns a load. *)
Lemma open_dsc_cases now clock req s :
  (∃ ctx s', (open now clock req s).2 = (spawn_load json_pretty now ctx s').2 ∧
     dc_tasks s' = dc_tasks s ∧ dc_jobs s' = dc_jobs s ∧ dc_next s' = dc_next s ∧ dc_procs s' = dc_procs s) ∨
  (dc_tasks (open now clock req s).2 = dc_tasks s ∧ dc_jobs (open now clock req s).2 = dc_jobs s ∧
   dc_next (open now clock req s).2 = dc_next s ∧ dc_procs (open now clock req s).2 = dc_procs s).
Proof.
  unfold open_dsc. cbv zeta. destruct (negb (validate_path _ _ _ _)); [by right|].
  destruct (negb (_ || _)); [by right|]. destruct (has_file _ s).
  { right. unfold open_dsc_i64. destruct (sw_open _ _) as [[info|e] w]; [|done].
    by destruct (dsc_token _ _ _ _). }
  destruct (find_idat _); [|by right]. destruct (write_error _); [by right|].
  destruct (match _ with Some _ => _ | None => _ end); [by right|]. left. by eexists _, (upd_files _ s).
Qed.

Lemma inv_exit_procs h s : dsc_inv s → dsc_inv (upd_procs (delete h) s).
Proof. intros Hs. eapply inv_same_tasks; [..|exact Hs]; try done. apply delete_subseteq. Qed.

Lemma inv_files f s : dsc_inv s → dsc_inv (upd_files f s).
Proof. intros Hs. by eapply inv_same_tasks; [..|exact Hs]. Qed.

Lemma inv_srv srv s : dsc_inv s → dsc_inv (upd_srv srv s).
Proof. intros Hs. by eapply inv_same_tasks; [..|exact Hs]. Qed.

Lemma inv_start now h j s : dc_jobs s !! h = Some j → dsc_inv s → dsc_inv (job_start now h j s).
Proof.
  intros Hj Hs. pose proof (inv_message (job_task j) "Running idat to create .i64..." now h j JobIdat s Hj Hs) as [H1 H2 H3].
  split; [exact H1|exact H2|]. intros h' Hh. destruct (H3 h' Hh) as [Ha Hb]. split; [exact Ha|]. cbn.
  rewrite lookup_insert_ne; [done|]. intros <-. destruct (di_fresh _ Hs h Hh). congruence.
Qed.

Lemma inv_idat_done now h j x s : dc_jobs s !! h = Some j → dsc_inv s → dsc_inv (job_idat_done now h j x s).
Proof.
  intros Hj Hs. unfold job_idat_done. destruct (negb _ || _).
  - by apply inv_failed, inv_files.
  - by apply inv_message, inv_files.
Qed.

Lemma inv_opened now clock h j s :
  dc_jobs s !! h = Some j → dsc_inv s → dsc_inv (job_opened pid mode now clock h j s).
Proof.
  intros Hj Hs. unfold job_opened. destruct (sw_open _ _) as [[info|e] w].
  - destruct (dsc_token _ _ _ _) as [token refs]. by apply inv_completed, inv_srv.
  - by apply inv_failed, inv_srv.
Qed.

Lemma inv_cancel now id s : dsc_inv s → dsc_inv (exec (EvCancel now id) s).
Proof.
  intros Hs. cbn [dsc_exec]. unfold cancel_task, cancel. destruct (entries (dc_tasks s) !! id) as [e|] eqn:He.
  2: by eapply inv_same_tasks; [..|exact Hs].
  case_bool_decide as Hr; [|by eapply inv_same_tasks; [..|exact Hs]].
  destruct (di_tracked _ Hs) as [HJ HR]. destruct (HR id e He Hr) as (h & j & Hj & Hid).
  pose proof (HJ h j Hj) as (e' & He' & _ & Hh). rewrite Hid, He in He'. injection He' as <-. rewrite Hh.
  subst id. pose proof (ts_cancel (job_task j) now (dc_tasks s)) as Hstep.
  unfold cancel in Hstep. rewrite He, bool_decide_true in Hstep by done.
  refine (inv_ended _ h j s Hj _ (inv_task_step _ _ (di_tasks _ Hs) Hstep) Hs). done.
Qed.

Lemma inv_on_job h ph f s :
  (∀ j, dc_jobs s !! h = Some j → dsc_inv (f j s)) → dsc_inv s → dsc_inv (on_job h ph f s).
Proof.
  intros Hf Hs. unfold on_job. destruct (job_at h ph s) as [j|] eqn:E; [|done].
  apply job_at_Some in E as [Hj _]. by apply Hf.
Qed.

Lemma inv_exec ev s : dsc_inv s → id_room (dc_tasks s) → dsc_inv (exec ev s).
Proof.
  intros Hs Hroom. destruct ev as [now clock req|now h|now h x written|now h err|now clock h|now id|srv]; cbn [dsc_exec].
  - destruct (open_dsc_cases now clock req s) as [(ctx & s' & -> & Ht & Hj & Hn & Hp)|(Ht & Hj & Hn & Hp)].
    + apply inv_spawn; [|by rewrite Ht]. by eapply inv_same_tasks; [..|exact Hs]; rewrite ?Hp.
    + by eapply inv_same_tasks; [..|exact Hs]; rewrite ?Hp.
  - apply inv_on_job; [|done]. intros j Hj. by apply inv_start.
  - destruct (dc_procs s !! h) as [p|]; [|done]. apply inv_on_job.
    + intros j Hj. apply inv_idat_done; [done|]. destruct written; by repeat (apply inv_files || apply inv_exit_procs).
    + destruct written; by repeat (apply inv_files || apply inv_exit_procs).
  - destruct (dc_procs s !! h) as [p|]; [|done]. apply inv_on_job; [|by apply inv_exit_procs].
    intros j Hj. by apply inv_failed, inv_files, inv_exit_procs.
  - apply inv_on_job; [|done]. intros j Hj. by apply inv_opened.
  - by apply inv_cancel.
  - by apply inv_srv.
Qed.

(** ** The counter of task ids *)

Lemma counter_pruned f id r : id_counter (pruned (with_entry f id r)) = id_counter r.
Proof. done. Qed.

Lemma spawn_counter now ctx (s : State) :
  id_room (dc_tasks s) → (id_counter (dc_tasks (spawn_load json_pretty now ctx s).2) ≤ id_counter (dc_tasks s) + 1)%Z.
Proof.
  intros [H0 H1]. unfold spawn_load, create_keyed, create_internal.
  destruct (_ <$> list_find _ _) as [id|]; cbn; [lia|]. rewrite wrap64_small; [lia|]. unfold in_u64. lia.
Qed.

Lemma exec_counter ev s :
  id_room (dc_tasks s) → (id_counter (dc_tasks (exec ev s)) ≤ id_counter (dc_tasks s) + 1)%Z.
Proof.
  intros Hroom. destruct ev as [now clock req|now h|now h x written|now h err|now clock h|now id|srv]; cbn [dsc_exec].
  - destruct (open_dsc_cases now clock req s) as [(ctx & s' & -> & Ht & _)|(Ht & _)].
    + rewrite <-Ht. apply spawn_counter. by rewrite Ht.
    + rewrite Ht. lia.
  - unfold on_job. destruct (job_at _ _ _); cbn; lia.
  - destruct (dc_procs s !! h); [|lia]. unfold on_job. destruct (job_at _ _ _); [|by destruct written; cbn; lia].
    unfold job_idat_done. destruct (negb _ || _); destruct written; cbn; lia.
  - destruct (dc_procs s !! h); [|lia]. unfold on_job. destruct (job_at _ _ _); cbn; lia.
  - unfold on_job. destruct (job_at _ _ _); [|lia]. unfold job_opened. destruct (sw_open _ _) as [[info|e] w].
    + destruct (dsc_token _ _ _ _). cbn. lia.
    + cbn. lia.
  - unfold cancel_task, cancel. destruct (entries _ !! _) as [e|]; [|cbn; lia].
    case_bool_decide; [|cbn; lia]. destruct (te_handle e); cbn; lia.
  - cbn. lia.
Qed.

(** Any number of events below the width of the counter. *)
Lemma inv_run_from evs s :
  dsc_inv s → (id_counter (dc_tasks s) + Z.of_nat (length evs) ≤ u64_max)%Z → dsc_inv (run evs s).
Proof.
  revert s. induction evs as [|ev evs IH]; intros s Hs Hlen; [done|]. cbn [length] in Hlen.
  assert (id_room (dc_tasks s)) as Hroom by (split; [apply (di_tasks _ Hs)|lia]).
  apply (IH (exec ev s)); [by apply inv_exec|]. pose proof (exec_counter ev s Hroom). lia.
Qed.

Lemma dsc_inv_init srv files : dsc_inv (dsc_init srv files).
Proof. split; [apply inv_registry_new|split; done|done]. Qed.

(** ** One process per output *)

Definition is_cancel (ev : Event) : bool := match ev with EvCancel _ _ => true | _ => false end.

Lemma owned_other h f s :
  procs_owned s → (∀ j, dc_jobs s !! h = Some j → dc_procs s !! h = None) → 
  procs_owned (upd_jobs (partial_alter f h) s).
Proof.
  intros Hs Hh h' p Hp. cbn in *. destruct (decide (h = h')) as [<-|Hne].
  - destruct (Hs h p Hp) as (j & Hj & _). rewrite (Hh j Hj) in Hp. done.
  - rewrite lookup_partial_alter_ne by done. by apply Hs.
Qed.

Lemma owned_delete h s : procs_owned s → procs_owned (upd_procs (delete h) s) ∧ dc_procs (upd_procs (delete h) s) !! h = None.
Proof.
  intros Hs. split; [|apply lookup_delete_eq]. intros h' p. cbn. intros [_ Hp]%lookup_delete_Some. by apply Hs.
Qed.

(** A job in another phase than the one that waits for [idat] has no process. *)
Lemma owned_phase h j s : procs_owned s → dc_jobs s !! h = Some j → job_phase j ≠ JobIdat → dc_procs s !! h = None.
Proof.
  intros Hs Hj Hph. destruct (dc_procs s !! h) as [p|] eqn:Hp; [|done].
  destruct (Hs h p Hp) as (j' & Hj' & Hph' & _). congruence.
Qed.

Lemma owned_ended now h j x s :
  procs_owned s → dc_procs s !! h = None → procs_owned (job_idat_done now h j x s).
Proof.
  intros Hs Hh. unfold job_idat_done. destruct (negb _ || _).
  all: apply (owned_other h _ (upd_tasks _ (upd_files _ s))); [exact Hs|by intros].
Qed.

Lemma owned_exec ev s : dsc_inv s → procs_owned s → is_cancel ev = false → procs_owned (exec ev s).
Proof.
  intros Hinv Hs Hev. destruct ev as [now clock req|now h|now h x written|now h err|now clock h|now id|srv]; cbn [dsc_exec]; [..|done|done].
  - destruct (open_dsc_cases now clock req s) as [(ctx & s' & -> & Ht & Hj & Hn & Hp)|(Ht & Hj & Hn & Hp)].
    2: by intros h p; rewrite Hp, Hj; apply Hs.
    unfold spawn_load. destruct (create_keyed _ _ _ _) as [r [id|ex]]; cbn; intros h p; cbn; rewrite Hp, Hj; [|by apply Hs].
    intros Hh. rewrite lookup_insert_ne; [by apply Hs|]. intros <-.
    destruct (di_fresh _ Hinv (dc_next s')) as [_ Hnone]; [by rewrite Hn|]. congruence.
  - unfold on_job. destruct (job_at h JobSpawned s) as [j|] eqn:Hj; [|done].
    intros h' p. cbn. intros [[<- <-]|[Hne Hp]]%lookup_insert_Some.
    + exists (set_phase JobIdat j). by rewrite lookup_insert_eq.
    + rewrite lookup_insert_ne by done. by apply Hs.
  - destruct (dc_procs s !! h) as [p|]; [|done]. destruct (owned_delete h s Hs) as [Ho Hn].
    set (s1 := match written with Some _ => _ | None => _ end).
    assert (procs_owned s1 ∧ dc_procs s1 !! h = None) as [Ho1 Hn1] by (by subst s1; destruct written).
    unfold on_job. destruct (job_at h JobIdat s1); [|done]. by apply owned_ended.
  - destruct (dc_procs s !! h) as [p|]; [|done]. destruct (owned_delete h s Hs) as [Ho Hn].
    unfold on_job. destruct (job_at h JobIdat _) as [j|]; [|done].
    by apply (owned_other h _ (upd_tasks _ (upd_files _ (upd_procs (delete h) s)))).
  - unfold on_job. destruct (job_at h JobOpening s) as [j|] eqn:Hj; [|done]. apply job_at_Some in Hj as [Hj Hph].
    assert (dc_procs s !! h = None) as Hn by (eapply owned_phase; [done|done|congruence]).
    unfold job_opened. destruct (sw_open _ _) as [[info|e] w]; [destruct (dsc_token _ _ _ _) as [token refs]|].
    + by apply (owned_other h _ (upd_tasks _ (upd_srv _ s))).
    + by apply (owned_other h _ (upd_tasks _ (upd_srv _ s))).
Qed.

Lemma owned_run_from evs s :
  dsc_inv s → procs_owned s → (id_counter (dc_tasks s) + Z.of_nat (length evs) ≤ u64_max)%Z →
  Forall (λ ev, is_cancel ev = false) evs → procs_owned (run evs s).
Proof.
  revert s. induction evs as [|ev evs IH]; intros s Hs Ho Hlen Hev; [done|]. cbn [length] in Hlen.
  apply Forall_cons in Hev as [Hev Hevs].
  assert (id_room (dc_tasks s)) as Hroom by (split; [apply (di_tasks _ Hs)|lia]).
  pose proof (exec_counter ev s Hroom). apply (IH (exec ev s)); [by apply inv_exec|by apply owned_exec|lia|done].
Qed.


(** ** A load ends *)

(** Whether [idat] left a database, and whether the worker opens it. *)
Definition load_succeeds (j : Job) (x : IdatExit) (written : option string) (s : State) : bool :=
  bool_decide (ie_code x = 0%Z) &&
  (bool_decide (is_Some written) || has_file (cx_out_i64 (job_ctx j)) s) &&
  match sw_open (open_args (cx_out_i64 (job_ctx j))) (srv_worker (dc_srv s)) with
  | (Ok _, _) => true
  | (Err _, _) => false
  end.

Definition task_status (id : string) (s : State) : option TaskStatus := t_status <$> task_get id (dc_tasks s).

Lemma failed_status now h j msg (s : State) e :
  entries (dc_tasks s) !! job_task j = Some e → later_than now (entries (dc_tasks s)) →
  task_status (job_task j) (job_failed now h j msg s) = Some Failed.
Proof.
  intros He Hlater. unfold task_status, task_get, job_failed. cbn [upd_jobs upd_tasks dc_tasks fail_task].
  unfold fail_task. by rewrite (ended_kept _ (job_task j) now _ e He Hlater) by done.
Qed.

Lemma job_at_insert h ph j (s : State) : dc_jobs s !! h = Some (set_phase ph j) → job_at h ph s = Some (set_phase ph j).
Proof. intros Hj. unfold job_at. rewrite Hj. cbn. by rewrite bool_decide_true. Qed.

(** The last part: the worker's answer. *)
Lemma opened_ends now clock h j (s : State) e :
  dc_jobs s !! h = Some (set_phase JobOpening j) →
  entries (dc_tasks s) !! job_task j = Some e → later_than now (entries (dc_tasks s)) →
  let s' := exec (EvOpened now clock h) s in
  dc_jobs s' !! h = None ∧ dc_procs s' = dc_procs s ∧
  task_status (job_task j) s' =
    Some (match sw_open (open_args (cx_out_i64 (job_ctx j))) (srv_worker (dc_srv s)) with
          | (Ok _, _) => Completed
          | (Err _, _) => Failed
          end).
Proof.
  intros Hj He Hlater. cbn [dsc_exec]. unfold on_job. rewrite (job_at_insert h JobOpening j s Hj).
  unfold job_opened. cbn [job_ctx set_phase job_task]. destruct (sw_open _ _) as [[info|err] w].
  - destruct (dsc_token _ _ _ _) as [token refs]. split; [apply lookup_delete_eq|]. split; [done|].
    unfold task_status, task_get, complete. cbn [upd_jobs upd_tasks upd_srv dc_tasks].
    by rewrite (ended_kept _ (job_task j) now _ e He Hlater) by done.
  - split; [apply lookup_delete_eq|]. split; [done|].
    by apply (failed_status now h (set_phase JobOpening j) (error_to_string err) (upd_srv _ s) e He Hlater).
Qed.

(** An event of a phase that the job is not in. *)
Lemma opened_idle now clock h s : dc_jobs s !! h = None → exec (EvOpened now clock h) s = s.
Proof. intros Hj. cbn [dsc_exec]. unfold on_job, job_at. by rewrite Hj. Qed.

(** What [idat]'s end leaves of the files. *)
Lemma output_present out script data (s : State) :
  script ≠ out →
  has_file out (upd_files (delete script) (match data with Some d => upd_files (<[out := d]>) s | None => s end)) =
  bool_decide (is_Some data) || has_file out s.
Proof.
  intros Hne. unfold has_file. destruct data as [d|]; cbn.
  - rewrite lookup_delete_ne, lookup_insert_eq by done. by rewrite !bool_decide_true by by eexists.
  - by rewrite lookup_delete_ne.
Qed.

(** The first parts: the job's turn and the end of [idat]. *)
Lemma idat_part n1 n2 h j x written (s : State) e :
  job_at h JobSpawned s = Some j → cx_script_path (job_ctx j) ≠ cx_out_i64 (job_ctx j) →
  entries (dc_tasks s) !! job_task j = Some e → later_than n1 (entries (dc_tasks s)) → (st_now n1 < st_now n2)%Z →
  let s' := exec (EvExit n2 h x written) (exec (EvStart n1 h) s) in
  dc_procs s' !! h = None ∧ dc_srv s' = dc_srv s ∧
  if bool_decide (ie_code x = 0%Z) && (bool_decide (is_Some written) || has_file (cx_out_i64 (job_ctx j)) s) then
    dc_jobs s' !! h = Some (set_phase JobOpening j) ∧ is_Some (entries (dc_tasks s') !! job_task j) ∧
    ∀ n3, (st_now n2 < st_now n3)%Z → later_than n3 (entries (dc_tasks s'))
  else dc_jobs s' !! h = None ∧ task_status (job_task j) s' = Some Failed.
Proof.
  intros Hj Hpath He Hlater H12.
  assert (exec (EvStart n1 h) s = job_start n1 h j s) as -> by (cbn [dsc_exec]; unfold on_job; by rewrite Hj).
  set (s1 := job_start n1 h j s). cbn [dsc_exec].
  assert (dc_procs s1 !! h = Some {| pr_args := cx_idat_args (job_ctx j);
            pr_script := dc_files s !! cx_script_path (job_ctx j); pr_out := cx_out_i64 (job_ctx j) |}) as ->
    by apply lookup_insert_eq. cbn [pr_out].
  set (s2 := match written with Some _ => _ | None => _ end).
  assert (dc_jobs s2 !! h = Some (set_phase JobIdat j)) as Hj2 by (subst s2; destruct written; apply lookup_insert_eq).
  assert (dc_tasks s2 = dc_tasks s1 ∧ dc_srv s2 = dc_srv s ∧ dc_procs s2 !! h = None) as (Ht2 & Hs2 & Hp2).
  { subst s2. destruct written; (split; [done|split; [done|apply lookup_delete_eq]]). }
  assert (later_than n2 (entries (dc_tasks s2))) as Hlater2.
  { rewrite Ht2. by apply (later_than_update _ (job_task j) n1 n2 (dc_tasks s)). }
  assert (∃ e', entries (dc_tasks s2) !! job_task j = Some e') as [e' He'].
  { rewrite Ht2. cbn. rewrite lookup_alter_eq, He. by eexists. }
  unfold on_job. rewrite (job_at_insert h JobIdat j s2 Hj2). unfold job_idat_done. cbn [job_ctx set_phase].
  assert (has_file (cx_out_i64 (job_ctx j)) (upd_files (delete (cx_script_path (job_ctx j))) s2) =
          bool_decide (is_Some written) || has_file (cx_out_i64 (job_ctx j)) s) as Hfile.
  { subst s2. etrans; [by apply output_present|]. done. }
  rewrite Hfile, <-negb_andb. destruct (bool_decide (ie_code x = 0%Z) && _); cbn [negb].
  - split; [done|]. split; [done|]. split; [apply lookup_insert_eq|]. split.
    + cbn. rewrite lookup_alter_eq, He'. by eexists.
    + intros n3 H23. by apply (later_than_update _ (job_task j) n2 n3 (dc_tasks s2)).
  - split; [done|]. split; [done|]. split; [apply lookup_delete_eq|].
    by apply (failed_status n2 h (set_phase JobIdat j) _ (upd_files _ s2) e' He' Hlater2).
Qed.

End invariant.

(** ** Runs *)

(** A worker that opens everything. *)
#[local] Program Instance door : SessionWorker bool :=
  {| sw_open := λ _ _, (Ok (obj []), true); sw_close := λ _, (Ok tt, false); sw_is_open := λ w, w |}.
Next Obligation. by intros a w v w' [= _ <-]. Qed.
Next Obligation. by intros a w. Qed.
Next Obligation. by intros w w' [= <-]. Qed.

#[local] Existing Instance canonical_order.

Definition door_server : Server bool := {| srv_refs := tracker_new; srv_worker := false |}.

Definition dsc_request (path module : string) : Struct OpenDscRequest :=
  MkStruct (fs := OpenDscRequest) (path, ("arm64e", (module, (None, (None, (None, tt)))))).

Definition caches : gmap string string := {["/dsc/cache_a" := ""; "/dsc/cache_b" := ""]}.

Definition at_ns (n : Z) : stamp := {| st_now := n; st_iso := "" |}.

#[local] Abbreviation sample_run := (dsc_run None (λ _, "") 7 Http (Some "/ida/idat") (λ _, None)).
#[local] Abbreviation sample_start := (dsc_init door_server caches).

Definition one_load : list (DscEvent (W := bool)) := [EvOpen (at_ns 1) 0 (dsc_request "/dsc/cache_a" "/usr/lib/libobjc.dylib")].


Lemma one_load_later : later_than (at_ns 2) (entries (dc_tasks (sample_run one_load sample_start))).
Proof.
  intros i e. replace (entries (dc_tasks (sample_run one_load sample_start))) with
    ({["dsc-1" := {| te_state := new_state "dsc-1" Running "Running idat to create .i64 from DSC..." None None
                       (Some "/dsc/cache_a.i64") (at_ns 1); te_handle := Some 0%N |}]} : gmap string TaskEntry)
    by (vm_compute; reflexivity).
  intros [<- <-]%lookup_singleton_Some. vm_compute. reflexivity.
Qed.


(** A cancelled load leaves its [idat] running: loading the same cache again starts a second one
    that writes the same database. *)
Theorem cancelled_load_runs_twice :
  let s := sample_run (one_load ++ [EvStart (at_ns 2) 0; EvCancel (at_ns 3) "dsc-1"] ++ one_load ++ [EvStart (at_ns 5) 1])
             sample_start in
  pr_out <$> dc_procs s !! 0%N = Some "/dsc/cache_a.i64" ∧ pr_out <$> dc_procs s !! 1%N = Some "/dsc/cache_a.i64".
Proof. vm_compute. split; reflexivity. Qed.

(** Two loads of one directory write the same script file: the first [idat] runs the script of
    the second request, and when it ends it takes the script away from the second. *)
Theorem loads_share_script :
  let opened := sample_run (one_load ++ [EvOpen (at_ns 2) 0 (dsc_request "/dsc/cache_b" "/usr/lib/libz.dylib");
                                         EvStart (at_ns 3) 0]) sample_start in
  let ended := sample_run [EvExit (at_ns 4) 0 {| ie_code := 0; ie_stderr := ""; ie_log := None |} None; EvStart (at_ns 5) 1] opened in
  dc_procs opened !! 0%N ≫= pr_script = Some (dsc_load_script "/usr/lib/libz.dylib" []) ∧
  pr_script <$> dc_procs ended !! 1%N = Some None.
Proof. vm_compute. split; reflexivity. Qed.
