(* ===== verification/RoutedSessions.v ===== *)
(** * Opening and closing through the router (src/server/mod.rs)

    [open_idb] and [close_idb] of a server that has a router: a worker process per database, a
    token per client.  Over the router's operations of [Router]. *)

From Stdlib Require Import Ascii.
From stdpp Require Import base gmap strings numbers list.
From S2P Require Import Prelude RustStr Json ToolError Protocol RouterConfig Registry RouterTheorems Router RouterOps RouterLogic.
From S2P Require Import Registry RouterOpen Serde ToolRequests HttpSessions.

Open Scope ida_scope.

Section sessions.
Context `{HashOrder} (cfg : RouterConfig) (env : Env) (json_pretty : Value → string).

#[local] Abbreviation call := (call_worker cfg env).

(** ** Opening *)

Definition routed_open_params (req : Struct OpenIdbRequest) : Value :=
  obj [("path", VString (req @ "path")); ("auto_analyse", Bool true);
       ("load_debug_info", Bool (default false (req @ "load_debug_info")));
       ("debug_info_path", opt_value (VString <$> (req @ "debug_info_path" : option string)));
       ("debug_info_verbose", Bool (default false (req @ "debug_info_verbose")));
       ("force", Bool (default false (req @ "force")));
       ("file_type", opt_value (VString <$> (req @ "file_type" : option string)))].

(** The callee of an sBPF entry point that has more callees of its own, of exactly two. *)
Definition busier_callee (ep_hex : string) (cg : Value) : option string :=
  (get "edges" cg ≫= as_array) ≫= λ edges,
  match omap (str_field "to") (edges_from ep_hex edges) with
  | [d0; d1] =>
      let c0 := length (edges_from d0 edges) in
      let c1 := length (edges_from d1 edges) in
      if bool_decide (c0 = c1) then None else Some (if bool_decide (c1 < c0) then d0 else d1)
  | _ => None
  end.

Definition hex_address (s : string) : option Z := from_str_radix u64_max 16 (trim_start_matches "0x" s).

Definition detect_sbpf_entry (h : string) : M Value :=
  found <- call (Some h) "get_function_by_name" (obj [("name", VString "entrypoint")]) ;;
  match (ok found ≫= str_field "address") ≫= hex_address with
  | None => ret (obj [("entrypoint", opt_value (ok found))])
  | Some ep =>
      let ep_hex := "0x" +:+ fmt_hex ep in
      cg <- call (Some h) "build_callgraph"
              (obj [("roots", VString ep_hex); ("max_depth", vz 2); ("max_nodes", vz 256)]) ;;
      pi_info <-
        match ok cg ≫= busier_callee ep_hex with
        | None => ret Null
        | Some pi_hex =>
            match hex_address pi_hex with
            | None => ret Null
            | Some pi_addr =>
                at_ <- call (Some h) "get_function_at_address" (obj [("address", VString pi_hex)]) ;;
                call (Some h) "rename_symbol"
                  (obj [("address", VString pi_hex); ("new_name", VString "process_instruction")]) ;;;
                ret (obj [("address", VString ("0x" +:+ fmt_hex pi_addr));
                          ("name", VString "process_instruction");
                          ("previous_name", opt_value (VString <$> (ok at_ ≫= str_field "name")))])
            end
        end ;;
      ret (obj [("entrypoint", opt_value (ok found)); ("process_instruction", pi_info)])
  end.

Definition insert_all (o v : Value) : Value :=
  match o with Object m => foldl (λ v kv, insert_key kv.1 kv.2 v) v m | _ => v end.

Definition is_object (v : Value) : bool := match v with Object _ => true | _ => false end.

Definition open_idb_routed (req : Struct OpenIdbRequest) : M CallToolResult :=
  let is_sbpf := e_is_sbpf env (expand_path env (req @ "path")) in
  spawned <- spawn_worker cfg env (req @ "path") None ;;
  match spawned with
  | Err e => ret (to_tool_result (OpenFailed e))
  | Ok (db_handle, close_token) =>
      res <- call (Some db_handle) "open" (routed_open_params req) ;;
      match res with
      | Err e => ret (to_tool_result e)
      | Ok value =>
          let value := insert_key "quick_tools" quick_tools
            (insert_key "close_hint" (VString (close_hint Http))
               (insert_key "close_token" (VString close_token) (insert_key "db_handle" (VString db_handle) value))) in
          if is_object value && is_sbpf then
            sbpf_info <- detect_sbpf_entry db_handle ;; ret (success (json_pretty (insert_all sbpf_info value)))
          else ret (success (json_pretty value))
      end
  end.

(** ** Closing *)

(** Ask the worker to close and to end, and remove it whatever it says. *)
Definition close_and_remove (h : string) : M unit :=
  call (Some h) "close" (obj []) ;;; call (Some h) "shutdown" (obj []) ;;; close_worker h.

Definition close_idb_routed (req : Struct CloseIdbRequest) : M CallToolResult :=
  match (req @ "token" : option string) with
  | None =>
      active <- with_lock LInner (s <- get_st ;; ret (active_handle (rt_inner s))) ;;
      match active with
      | None => ret (to_tool_result NoDatabaseOpen)
      | Some h => close_and_remove h ;;; ret (success "Database closed")
      end
  | Some token =>
      released <- Router.release_token token ;;
      match released with
      | None => ret (success "close_idb ignored: invalid close_token")
      | Some (h, 0) => close_and_remove h ;;; ret (success "Database closed")
      | Some (h, remaining) =>
          ret (success ("Reference released (" +:+ fmt_dec (Z.of_nat remaining) +:+
                        " client(s) still active, database remains open)"))
      end
  end.

(** ** What closing does *)

Lemma wp_close_and_remove h s :
  wp ∅ (close_and_remove h) (λ _ s', workers (rt_inner s') !! h = None ∧ serves_le (rt_inner s) (rt_inner s')) s.
Proof.
  unfold close_and_remove. wp_step. wp_apply wp_call_worker. intros _ s1 H1.
  wp_step. wp_apply wp_call_worker. intros _ s2 H2. wp_apply wp_close_worker. intros _ s3 ->.
  split; [by rewrite closed_workers, lookup_delete_eq|].
  etrans; [exact H1|]. etrans; [exact H2|]. unfold closed. cbn. apply serves_le_close.
Qed.

Lemma wp_active_handle s : wp ∅ (with_lock LInner (s <- get_st ;; ret (active_handle (rt_inner s))))
  (λ a s', a = active (rt_inner s) ∧ s' = s) s.
Proof. by wp_run. Qed.

Lemma wp_release tok s :
  wp ∅ (Router.release_token tok)
    (λ res s', res = (release_ref_token tok (rt_inner s)).2 ∧
               s' = set_inner (release_ref_token tok (rt_inner s)).1 s) s.
Proof. unfold Router.release_token. by wp_run. Qed.

(** The outcome of a close with or without a token. *)
Definition close_post (token : option string) (s : RouterState) (res : CallToolResult) (s' : RouterState) : Prop :=
  match token with
  | Some tok =>
      match token_to_handle (rt_inner s) !! tok with
      | None => s' = s
      | Some h =>
          if bool_decide (default ∅ (ref_tokens (rt_inner s) !! h) ∖ {[tok]} = ∅) then
            workers (rt_inner s') !! h = None
          else workers (rt_inner s') = workers (rt_inner s) ∧
               token_to_handle (rt_inner s') = delete tok (token_to_handle (rt_inner s))
      end
  | None =>
      match active (rt_inner s) with
      | None => res = to_tool_result NoDatabaseOpen ∧ s' = s
      | Some h => workers (rt_inner s') !! h = None
      end
  end.

(** Closing always returns.  A token that is not valid changes nothing.  A valid one is used
    up; while other clients hold the database, its worker and all others stay, and the last
    token removes the worker.  Without a token the active database is removed, whoever still
    holds it. *)
Theorem routed_close_decides (req : Struct CloseIdbRequest) s :
  ∃ res s', close_idb_routed req ∅ s = Done res s' ∧ close_post (req @ "token") s res s'.
Proof.
  change (wp ∅ (close_idb_routed req) (close_post (req @ "token") s) s). unfold close_idb_routed, close_post.
  destruct (req @ "token" : option string) as [tok|].
  - wp_step. wp_apply wp_release. intros res s1 [-> ->]. unfold release_ref_token.
    destruct (token_to_handle (rt_inner s) !! tok) as [h|] eqn:Htok; cbn [fst snd].
    + set (r1 := {| workers := _; active := _ |}). set (n := match ref_tokens _ !! _ with Some _ => _ | None => 0 end).
      assert (n = size (default ∅ (ref_tokens (rt_inner s) !! h) ∖ {[tok]})) as Hn.
      { subst n. destruct (ref_tokens (rt_inner s) !! h); [done|]. cbn [default].
        by replace (∅ ∖ {[tok]}) with (∅ : gset string) by set_solver. }
      destruct n as [|n].
      * rewrite bool_decide_true by (symmetry in Hn; by apply size_empty_inv, leibniz_equiv in Hn).
        wp_step. wp_apply wp_close_and_remove. intros _ s2 [Hw _]. by wp_run.
      * rewrite bool_decide_false by (intros He; rewrite He, size_empty in Hn; lia). by wp_run.
    + wp_run. by destruct s.
  - wp_step. wp_apply wp_active_handle. intros a s1 [-> ->]. destruct (active (rt_inner s)) as [h|]; [|by wp_run].
    wp_step. wp_apply wp_close_and_remove. intros _ s2 [Hw _]. by wp_run.
Qed.

(** ** A failed open *)

(** A reply, also an error, leaves all references alone. *)
Lemma wp_call_replies handle method params s :
  (∀ h, ∃ res, e_reply env h method params = Replies res) →
  wp ∅ (call handle method params) (λ _ s',
    token_to_handle (rt_inner s') = token_to_handle (rt_inner s) ∧
    (∀ h, is_Some (workers (rt_inner s) !! h) → is_Some (workers (rt_inner s') !! h))) s.
Proof.
  intros Hreply. unfold call_worker. wp_run. destruct (resolve_target handle (rt_inner s)) as [h|e]; [|by wp_run].
  wp_run. cbn [rt_inner set_inner tick rt_ticks snd fst].
  set (sent := enqueue_request cfg h _ method params _ _ _ _).
  assert (token_to_handle sent.1 = token_to_handle (rt_inner s) ∧
          ∀ h, is_Some (workers (rt_inner s) !! h) → is_Some (workers sent.1 !! h)) as [Ht Hw].
  { subst sent. unfold enqueue_request. repeat case_match; cbn; (split; [done|]); try done.
    intros h'. rewrite lookup_insert_is_Some'. by right. }
  destruct sent as [r2 [[]|e]]; cbn [snd fst] in *; [|by wp_run].
  wp_step. destruct (Hreply h) as [res ->]. wp_run. cbn -[reader_response]. unfold reader_response.
  case_match; [|done]. case_match; [|done]. cbn. split; [done|].
  intros h' Hh'. rewrite lookup_insert_is_Some'. right. by apply Hw.
Qed.

(** The result of a call that the worker refuses. *)
Lemma wp_call_refused handle method params s :
  (∀ h, ∃ m, e_reply env h method params = Replies (Err m)) →
  wp ∅ (call handle method params) (λ res _, ∃ e, res = Err e) s.
Proof.
  intros Hreply. unfold call_worker. wp_run. destruct (resolve_target handle (rt_inner s)) as [h|e]; [|wp_run; eauto].
  wp_run. cbn [rt_inner set_inner tick rt_ticks snd fst].
  set (sent := enqueue_request cfg h _ method params _ _ _ _).
  destruct sent as [r2 [[]|e]]; cbn [snd fst] in *; [|wp_run; eauto].
  wp_step. destruct (Hreply h) as [m ->]. wp_run. cbn -[reader_response]. unfold reader_response.
  destruct (workers r2 !! h) as [w|]; [destruct (w_pending w !! _) as [tx|]|]; cbn; eauto.
  unfold received_on. cbn. destruct (decide (tx = _)); cbn; eauto.
Qed.

Lemma wp_and {A} held (m : M A) Q Q' s : wp held m Q s → wp held m Q' s → wp held m (λ a s', Q a s' ∧ Q' a s') s.
Proof. intros (a & s' & Hm & HQ) (a' & s'' & Hm' & HQ'). rewrite Hm in Hm'. injection Hm' as <- <-. by exists a, s'. Qed.

(** When a new worker refuses to open the database, the client gets the error, but the worker
    stays registered with a reference whose token nobody was given: it is never collected. *)
Theorem failed_open_keeps_worker (req : Struct OpenIdbRequest) s
    (Hnew : path_to_handle (rt_inner s) !! worker_key (canonical_path env (req @ "path")) (normalize_tenant None) = None)
    (Hfail : ∀ h, ∃ m, e_reply env h "open" (routed_open_params req) = Replies (Err m)) :
  ∃ res s', open_idb_routed req ∅ s = Done res s' ∧ is_error res = Some true ∧
    (serves_le (rt_inner s) (rt_inner s') ∨
     ∃ h tok, token_to_handle (rt_inner s') !! tok = Some h ∧ is_Some (workers (rt_inner s') !! h)).
Proof.
  change (wp ∅ (open_idb_routed req) (λ res s', is_error res = Some true ∧
    (serves_le (rt_inner s) (rt_inner s') ∨
     ∃ h tok, token_to_handle (rt_inner s') !! tok = Some h ∧ is_Some (workers (rt_inner s') !! h))) s).
  unfold open_idb_routed. cbv zeta. wp_step. wp_apply wp_spawn_worker; [exact Hnew|].
  intros [[h tok]|e] s1 Hs1; cbv beta iota.
  - destruct Hs1 as [(_ & _ & _ & w & Hw & _) Htok]. wp_step.
    eapply wp_mono; [apply wp_and; [apply wp_call_replies|apply wp_call_refused; exact Hfail]|].
    { intros h'. destruct (Hfail h') as [m Hm]. eauto. }
    intros res s2 [[Ht Hk] [e ->]]. wp_run. split; [done|]. right. exists h, tok. rewrite Ht. eauto.
  - wp_run. split; [done|]. by left.
Qed.
End sessions.
