(* ===== verification/SocketListener.v ===== *)
(** * The command line's socket (src/server/socket_listener.rs)

    A client sends one request per connection.  Some methods are the router's own; any other one
    names a database by its path, is routed to its worker, and holds a reference only as long as
    it runs.  The router's tasks and status are an interface on its state. *)

From Stdlib Require Import Ascii.
From stdpp Require Import base gmap strings numbers list.
From S2P Require Import Prelude RustStr Json ToolError Protocol RouterConfig Registry Router RouterLogic.
From S2P Require Import ToolTable ToolRegistry Fs ResponseCache.

Open Scope ida_scope.

(** What the listener needs of the router's tasks and of its status. *)
Class CliTasks : Type := {
  ct_status : M Value;
  ct_task_states : M (list Value);
  ct_task_state : string → M (option Value);
  ct_enqueue_route : string → string → Value → option string → Z → option string → M (result Value ToolError);
  ct_enqueue_federated : string → string → Value → option string → Z → option string → M (result Value ToolError);
  ct_cancel_task : string → M bool;
  ct_enqueue_prewarm : string → Z → bool → option string → M (result Value ToolError)
}.

Section listener.
Context `{HashOrder} (cfg : RouterConfig) (env : Env) `{CliTasks}.

(** ** Parameters *)

Definition param_str (k : string) (params : Value) : option string := get k params ≫= as_str.
Definition param_bool (k : string) (params : Value) : bool := default false (get k params ≫= as_bool).

(** [unwrap_or(0) as u8] *)
Definition param_priority (params : Value) : Z := default 0%Z (get "priority" params ≫= as_u64) mod 256.

Definition answer_of (id : string) (res : result Value ToolError) : RpcResponse :=
  match res with
  | Ok v => RpcResponse_ok id v
  | Err e => RpcResponse_err id (-32000) (error_to_string e)
  end.

(** ** The router's own methods *)

Definition cli_close (id : string) (params : Value) : M RpcResponse :=
  match param_str "path" params with
  | Some p =>
      res <- close_by_path cfg env (canonical_path env p) (param_str "tenant_id" params) ;;
      ret (match res with
           | Ok _ => RpcResponse_ok id (obj [("ok", Bool true)])
           | Err e => RpcResponse_err id (-32000) (error_to_string e)
           end)
  | None => ret (RpcResponse_err id (-32001) "close requires 'path' parameter")
  end.

(** The service-wide cancellation is the second component of [dispatch_cli_request]. *)
Definition cli_shutdown (id : string) : M RpcResponse :=
  shutdown_all ;;;
  ret (RpcResponse_ok id (obj [("ok", Bool true); ("message", VString "server shutting down")])).

Definition cli_task_status (id : string) (params : Value) : M RpcResponse :=
  match param_str "task_id" params with
  | None => ret (RpcResponse_err id (-32001) "unknown task_id")
  | Some t =>
      st <- ct_task_state t ;;
      ret (match st with
           | Some v => RpcResponse_ok id v
           | None => RpcResponse_err id (-32001) "unknown task_id"
           end)
  end.

Definition cli_enqueue (id : string) (params : Value) : M RpcResponse :=
  let task_params := default (obj []) (get "task_params" params) in
  let tenant_id := param_str "tenant_id" params in
  let priority := param_priority params in
  let dedupe_key := param_str "dedupe_key" params in
  match param_str "path" params, primary_name_for <$> param_str "method" params with
  | Some path, Some method =>
      res <- (if param_bool "federate" params
              then ct_enqueue_federated path method task_params tenant_id priority dedupe_key
              else ct_enqueue_route path method task_params tenant_id priority dedupe_key) ;;
      ret (answer_of id res)
  | _, _ => ret (RpcResponse_err id (-32001) "enqueue requires path and method")
  end.

Definition cli_cancel_task (id : string) (params : Value) : M RpcResponse :=
  match param_str "task_id" params with
  | None => ret (RpcResponse_err id (-32001) "cancel_task requires task_id")
  | Some t =>
      done <- ct_cancel_task t ;;
      ret (if done : bool then RpcResponse_ok id (obj [("ok", Bool true); ("task_id", VString t)])
           else RpcResponse_err id (-32001) "task not found")
  end.

Definition cli_prewarm (id : string) (params : Value) : M RpcResponse :=
  match param_str "path" params with
  | None => ret (RpcResponse_err id (-32001) "prewarm requires 'path' parameter")
  | Some p =>
      let keep_warm := param_bool "keep_warm" params in
      let tenant_id := param_str "tenant_id" params in
      res <- (if param_bool "queue" params then ct_enqueue_prewarm p (param_priority params) keep_warm tenant_id
              else prewarm_path_with_options cfg env p keep_warm (default "default" tenant_id)) ;;
      ret (answer_of id res)
  end.

(** ** Methods of a database *)

(** The reference guard gives the token back when the response has been made. *)
Definition cli_route (id method : string) (params : Value) : M RpcResponse :=
  match param_str "path" params with
  | None => ret (RpcResponse_err id (-32602) "CLI requires 'path' parameter to identify the target binary")
  | Some p =>
      resolved <- ensure_worker_with_ref_idb cfg env p None (param_str "tenant_id" params) ;;
      match resolved with
      | Err e => ret (RpcResponse_err id (-32000) (error_to_string e))
      | Ok (handle, token) =>
          res <- call_worker cfg env (Some handle) method params ;;
          release_token token ;;;
          ret (answer_of id res)
      end
  end.

(** Also whether the whole service is told to end. *)
Definition dispatch_cli_request (req : RpcRequest) : M (RpcResponse * bool) :=
  let id := req_id req in
  let params := req_params req in
  let method := primary_name_for (req_method req) in
  let go m := r <- m ;; ret (r, false) in
  if bool_decide (method = "close") then go (cli_close id params)
  else if bool_decide (method = "shutdown") then r <- cli_shutdown id ;; ret (r, true)
  else if bool_decide (method = "status") then go (v <- ct_status ;; ret (RpcResponse_ok id v))
  else if bool_decide (method = "list_tasks") then
    go (ts <- ct_task_states ;; ret (RpcResponse_ok id (obj [("tasks", Array ts)])))
  else if bool_decide (method = "task_status") then go (cli_task_status id params)
  else if bool_decide (method = "enqueue") then go (cli_enqueue id params)
  else if bool_decide (method = "cancel_task") then go (cli_cancel_task id params)
  else if bool_decide (method = "prewarm") then go (cli_prewarm id params)
  else go (cli_route id method params).

(** One connection: an empty line gets no answer, and a result that is too long goes to a file
    of the response cache [d].  [parse_error] is serde_json's message. *)
Context (json_parse : string → option Value) (parse_error : string → string) (json_print : RpcResponse → string).
Context `{CacheEnv} (io : Io).

Definition guarded (method : string) (r : RpcResponse) (d : list DirEntry) : list DirEntry * RpcResponse :=
  match resp_result r with
  | None => (d, r)
  | Some v =>
      let '(d, v) := guard_response_size io method v d in
      (d, {| resp_jsonrpc := resp_jsonrpc r; resp_id := resp_id r; resp_result := Some v; resp_error := resp_error r |})
  end.

Definition handle_cli_connection (line : string) (d : list DirEntry) : M (option string * bool * list DirEntry) :=
  let trimmed := trim line in
  if bool_decide (trimmed = "") then ret (None, false, d)
  else
    match json_parse trimmed ≫= request_from_value with
    | None =>
        let resp := RpcResponse_err "null" (-32700) ("Parse error: " +:+ parse_error trimmed) in
        ret (Some (json_print resp +:+ newline), false, d)
    | Some req =>
        r <- dispatch_cli_request req ;;
        let '(d, resp) := guarded (req_method req) r.1 d in
        ret (Some (json_print resp +:+ newline), r.2, d)
    end.
End listener.

(** * What the command line's socket guarantees, and where it fails

    No request leaves a reference behind, whatever the worker does; and the method that asks for
    the state of a task cannot be reached. *)

From S2P Require Import Runtime RegistryInv RouterOps.
From S2P Require Import RouterOpen QueueTheorems.

Open Scope ida_scope.

(** ** Tokens only go *)

(** Every token that is valid afterwards was valid before, for the same worker. *)
Definition tokens_le (r r' : RouterInner) : Prop := token_to_handle r' ⊆ token_to_handle r.

#[export] Instance tokens_le_refl : Reflexive tokens_le.
Proof. intros r. unfold tokens_le. reflexivity. Qed.

#[export] Instance tokens_le_trans : Transitive tokens_le.
Proof. intros r1 r2 r3 H1 H2. unfold tokens_le in *. by etrans. Qed.

(** The same, but for one token. *)
Definition tokens_but (tok : string) (r r' : RouterInner) : Prop :=
  delete tok (token_to_handle r') ⊆ token_to_handle r.

Lemma tokens_le_same r r' : token_to_handle r' = token_to_handle r → tokens_le r r'.
Proof. intros Ht. unfold tokens_le. by rewrite Ht. Qed.

Lemma tokens_but_le tok r1 r2 r3 : tokens_but tok r1 r2 → tokens_le r2 r3 → tokens_but tok r1 r3.
Proof. intros Hb Hle. unfold tokens_but. etrans; [|exact Hb]. by apply delete_mono. Qed.

Lemma tokens_le_but tok r1 r2 r3 : tokens_le r1 r2 → tokens_but tok r2 r3 → tokens_but tok r1 r3.
Proof. intros Hle Hb. unfold tokens_but. by etrans. Qed.

Lemma tokens_but_insert tok h r r' : token_to_handle r' = <[tok := h]> (token_to_handle r) → tokens_but tok r r'.
Proof. intros Ht. unfold tokens_but. rewrite Ht, delete_insert_eq. apply delete_subseteq. Qed.

Lemma remove_tokens_subseteq ts m : remove_tokens ts m ⊆ m.
Proof.
  unfold remove_tokens. induction (elements ts) as [|t l IH]; [done|]. cbn. etrans; [apply delete_subseteq|done].
Qed.

Section tokens.
Context `{HashOrder} (cfg : RouterConfig) (env : Env).

Lemma tokens_le_unregister h w r : tokens_le r (unregister h w r).
Proof. unfold tokens_le. cbn. destruct (ref_tokens r !! h); [apply remove_tokens_subseteq|done]. Qed.

Lemma tokens_le_close h r : tokens_le r (close_worker_inner h r).1.
Proof. unfold close_worker_inner. destruct (workers r !! h); [apply tokens_le_unregister|done]. Qed.

Lemma tokens_le_eof h r : tokens_le r (reader_eof h r).1.
Proof. unfold reader_eof. destruct (workers r !! h) as [w|]; [|done].
  apply (tokens_le_unregister h (set_pending ∅ w) (set_workers (<[h := set_pending ∅ w]> (workers r)) r)).
Qed.

Lemma tokens_le_response h resp r : tokens_le r (reader_response h resp r).1.
Proof. unfold reader_response. repeat case_match; by apply tokens_le_same. Qed.

Lemma tokens_le_enqueue h id method params now tx ok r :
  tokens_le r (enqueue_request cfg h id method params now tx ok r).1.
Proof. unfold enqueue_request. repeat case_match; by apply tokens_le_same. Qed.

Lemma tokens_release tok r r' : tokens_but tok r r' → tokens_le r (release_ref_token tok r').1.
Proof.
  unfold tokens_but, tokens_le, release_ref_token. destruct (token_to_handle r' !! tok) as [h|] eqn:E; [done|].
  by rewrite delete_id.
Qed.

(** ** The operations of a request *)

Lemma wp_close_tokens h s : wp ∅ (close_worker h) (λ _ s', tokens_le (rt_inner s) (rt_inner s')) s.
Proof. wp_apply wp_close_worker. intros _ s' ->. unfold closed. cbn. apply tokens_le_close. Qed.

Lemma wp_call_tokens handle method params s :
  wp ∅ (call_worker cfg env handle method params) (λ _ s', tokens_le (rt_inner s) (rt_inner s')) s.
Proof.
  unfold call_worker. wp_run. destruct (resolve_target handle (rt_inner s)) as [h|e]; [|by wp_run].
  wp_run. cbn [rt_inner set_inner tick rt_ticks snd fst].
  set (sent := enqueue_request cfg h _ method params _ _ _ _).
  assert (tokens_le (rt_inner s) sent.1) as Hle by (etrans; [|apply tokens_le_enqueue]; by apply tokens_le_same).
  destruct sent as [r2 [[]|e]]; cbn [snd fst] in *; [|by wp_run].
  wp_step. destruct (e_reply env h method params) as [res| |]; wp_run; cbn -[reader_response reader_eof]; [| |done].
  - etrans; [exact Hle|]. apply tokens_le_response.
  - etrans; [exact Hle|]. apply tokens_le_eof.
Qed.

Lemma wp_evict_tokens fuel s : wp ∅ (evict_loop cfg fuel) (λ _ s', tokens_le (rt_inner s) (rt_inner s')) s.
Proof.
  revert s; induction fuel as [|fuel IH]; intros s; [by apply wp_ret|].
  cbn [evict_loop]. wp_run. destruct (evict_candidate cfg (rt_inner s)) as [h|]; [|by wp_run].
  wp_step. wp_apply wp_close_tokens. intros _ s1 H1. wp_apply IH. intros _ s2 H2. by etrans.
Qed.

Lemma spawn_commit_tokens senv b path tenant r :
  match (spawn_commit cfg senv b path tenant r).2 with
  | Ok (_, tok) => tokens_but tok r (spawn_commit cfg senv b path tenant r).1
  | Err _ => tokens_le r (spawn_commit cfg senv b path tenant r).1
  end.
Proof.
  unfold spawn_commit. repeat case_match; simplify_eq/=; try by apply tokens_le_same.
  - unfold reuse_handle in *. simplify_eq. by eapply tokens_but_insert.
  - by eapply tokens_but_insert.
Qed.

Lemma spawn_lookup_tokens now pid key r :
  match (spawn_lookup now pid key r).2 with
  | Some (_, tok) => tokens_but tok r (spawn_lookup now pid key r).1
  | None => tokens_le r (spawn_lookup now pid key r).1
  end.
Proof.
  unfold spawn_lookup. destruct (path_to_handle r !! key) as [h|]; [|by apply tokens_le_same].
  unfold reuse_handle. cbn. by eapply tokens_but_insert.
Qed.

Lemma wp_spawn_tokens path tenant s :
  wp ∅ (spawn_worker cfg env path tenant) (λ res s',
    match res with
    | Ok (_, tok) => tokens_but tok (rt_inner s) (rt_inner s')
    | Err _ => tokens_le (rt_inner s) (rt_inner s')
    end) s.
Proof.
  unfold spawn_worker. wp_run. cbn [rt_inner tick].
  set (key := worker_key _ _). pose proof (spawn_lookup_tokens (e_clock env (rt_ticks s)) (e_pid env) key (rt_inner s)) as Hl.
  destruct (spawn_lookup _ _ key (rt_inner s)) as [r1 [[h tok]|]] eqn:E; cbn [fst snd] in *; [by wp_run|].
  wp_step. wp_apply wp_probe. intros [p|e] s1 Hs1; cbv beta; cbn in Hs1; [|wp_run; by rewrite Hs1].
  destruct (backend p) as [b|]; [|wp_run; by rewrite Hs1].
  wp_run. wp_apply wp_evict_tokens. intros _ s2 H2. rewrite Hs1 in H2. wp_run. cbn [rt_inner tick].
  set (senv := {| se_now_handle := _ |}).
  pose proof (spawn_commit_tokens senv b (canonical_path env path) (normalize_tenant tenant) (rt_inner s2)) as Hc.
  destruct (spawn_commit _ _ _ _ _ _) as [r' [[h tok]|e]]; cbn [fst snd rt_inner set_inner] in *.
  - eapply tokens_le_but; [|exact Hc]. by etrans.
  - by do 2 (etrans; [eassumption|]).
Qed.

Lemma wp_release_tokens tok r s :
  tokens_but tok r (rt_inner s) → wp ∅ (release_token tok) (λ _ s', tokens_le r (rt_inner s')) s.
Proof. intros Hb. unfold release_token. wp_run. cbn. by apply tokens_release. Qed.

Lemma wp_detect_tokens h s :
  wp ∅ (detect_and_rename_sbpf_entry cfg env h) (λ _ s', tokens_le (rt_inner s) (rt_inner s')) s.
Proof.
  unfold detect_and_rename_sbpf_entry. wp_step. wp_apply wp_call_tokens.
  intros found s1 H1. case_match; [|by wp_run].
  wp_step. wp_apply wp_call_tokens. intros cg s2 H2.
  case_match; [|wp_run; etrans; eassumption].
  wp_step. wp_apply wp_call_tokens. intros res s3 Hle3. wp_run. do 2 (etrans; [eassumption|]). done.
Qed.

Lemma wp_issue_tokens h s :
  wp ∅ (issue_ref env h) (λ tok s', tokens_but tok (rt_inner s) (rt_inner s')) s.
Proof. unfold issue_ref. wp_run. cbn. by eapply tokens_but_insert. Qed.

Lemma ensure_lookup_tokens now key r : tokens_le r (ensure_lookup now key r).1.
Proof. unfold ensure_lookup. repeat case_match; by apply tokens_le_same. Qed.

(** Opening adds the token that it returns, and no other. *)
Lemma wp_ensure_tokens path idb tenant s :
  wp ∅ (ensure_worker_with_ref_idb cfg env path idb tenant) (λ res s',
    match res with
    | Ok (_, tok) => tokens_but tok (rt_inner s) (rt_inner s')
    | Err _ => tokens_le (rt_inner s) (rt_inner s')
    end) s.
Proof.
  unfold ensure_worker_with_ref_idb. cbv zeta. wp_run. cbn [rt_inner tick].
  set (key := worker_key _ _). pose proof (ensure_lookup_tokens (e_clock env (rt_ticks s)) key (rt_inner s)) as Hl.
  destruct (ensure_lookup _ key (rt_inner s)) as [r1 found]. cbn [fst snd] in *.
  eapply (wp_mono _ _ (λ res s', tokens_le (rt_inner s) (rt_inner s'))).
  2: { intros [h|e] s2 H2; cbv beta iota; [|by wp_run]. wp_step. wp_apply wp_issue_tokens.
       intros tok s3 H3. wp_run. by eapply tokens_le_but. }
  destruct found as [h|]; [by wp_run|]. wp_step. wp_apply wp_spawn_tokens.
  intros [[h tok]|e] s2 H2; cbv beta iota; [|wp_run; by etrans].
  wp_step. wp_apply wp_release_tokens; [exact H2|]. intros _ s3 H3. cbn [rt_inner set_inner] in H3.
  wp_step. wp_apply wp_call_tokens. intros [v|e] s4 H4; cbv beta iota.
  - wp_step. eapply (wp_mono _ _ (λ _ s', rt_inner s' = rt_inner s4)); [case_match; by wp_run|].
    intros _ s5 H5. wp_step. rewrite <-H5 in H4.
    eapply (wp_mono _ _ (λ _ s', tokens_le (rt_inner s5) (rt_inner s'))); [case_match; [apply wp_detect_tokens|by wp_run]|].
    intros _ s6 H6. wp_run. do 3 (etrans; [eassumption|]). done.
  - wp_step. wp_apply wp_close_tokens. intros _ s5 H5. wp_run. do 3 (etrans; [eassumption|]). done.
Qed.

Lemma wp_close_by_path_tokens path tenant s :
  wp ∅ (close_by_path cfg env path tenant) (λ _ s', tokens_le (rt_inner s) (rt_inner s')) s.
Proof.
  unfold close_by_path. wp_run. case_match; [|by wp_run].
  wp_step. wp_apply wp_call_tokens. intros _ s1 H1. wp_step. wp_apply wp_call_tokens. intros _ s2 H2.
  wp_step. wp_apply wp_close_tokens. intros _ s3 H3. wp_run. do 2 (etrans; [eassumption|]). done.
Qed.

Lemma wp_close_all_tokens hs s : wp ∅ (close_all hs) (λ _ s', tokens_le (rt_inner s) (rt_inner s')) s.
Proof.
  revert s. induction hs as [|h hs IH]; intros s; cbn [close_all]; [by wp_run|].
  wp_step. wp_apply wp_close_tokens. intros _ s1 H1. wp_apply IH. intros _ s2 H2. by etrans.
Qed.

(** ** Requests *)

Context `{CliTasks}.

(** The methods that the router answers from its tasks and its status. *)
Definition task_methods : list string := ["status"; "list_tasks"; "task_status"; "enqueue"; "cancel_task"; "prewarm"].

(** A response to this request that leaves no token behind. *)
Definition clean_response (id : string) (r : RouterInner) (resp : RpcResponse) (s' : RouterState) : Prop :=
  resp_id resp = id ∧ tokens_le r (rt_inner s').

Lemma wp_route_clean id method params s :
  wp ∅ (cli_route cfg env id method params) (clean_response id (rt_inner s)) s.
Proof.
  unfold cli_route. destruct (param_str "path" params) as [p|]; [|by wp_run].
  wp_step. wp_apply wp_ensure_tokens. intros [[h tok]|e] s1 H1; cbv beta iota; [|by wp_run].
  wp_step. wp_apply wp_call_tokens. intros res s2 H2. wp_step.
  wp_apply wp_release_tokens; [by eapply tokens_but_le|]. intros _ s3 H3. wp_run. split; [by destruct res|done].
Qed.

Lemma wp_cli_close_clean id params s : wp ∅ (cli_close cfg env id params) (clean_response id (rt_inner s)) s.
Proof.
  unfold cli_close. destruct (param_str "path" params) as [p|]; [|by wp_run].
  wp_step. wp_apply wp_close_by_path_tokens. intros res s1 H1. wp_run. split; [by destruct res|done].
Qed.

Lemma wp_cli_shutdown_clean id s : wp ∅ (cli_shutdown id) (clean_response id (rt_inner s)) s.
Proof.
  unfold cli_shutdown, shutdown_all. wp_run. wp_apply wp_close_all_tokens. intros _ s1 H1. by wp_run.
Qed.


(** Nothing resolves to [task_status], since it is an alias: the arm that answers it is never
    reached, and a client that asks for a task's state is told to name a binary. *)
Theorem task_status_unreachable (req : RpcRequest) :
  primary_name_for (req_method req) ≠ "task_status" ∧
  (req_method req = "task_status" → param_str "path" (req_params req) = None →
   ∀ held s, dispatch_cli_request cfg env req held s =
     Done (RpcResponse_err (req_id req) (-32602) "CLI requires 'path' parameter to identify the target binary", false) s).
Proof.
  split.
  - intros Heq. assert (get_tool (req_method req) = get_tool "task_status") as Hg by (by rewrite <-Heq, primary_name_get_tool).
    unfold primary_name_for in Heq. change (get_tool_by_alias (req_method req)) with (get_tool (req_method req)) in Heq.
    rewrite Hg in Heq. vm_compute in Heq. discriminate.
  - intros Hm Hp held s. unfold dispatch_cli_request. cbv zeta. rewrite Hm.
    assert (primary_name_for "task_status" = "get_task_status") as -> by (vm_compute; reflexivity).
    repeat (rewrite bool_decide_false by discriminate). unfold cli_route. by rewrite Hp.
Qed.
End tokens.

(** ** A run *)

#[local] Instance no_tasks : CliTasks :=
  {| ct_status := ret Null; ct_task_states := ret []; ct_task_state := λ _, ret None;
     ct_enqueue_route := λ _ _ _ _ _ _, ret (Err Busy); ct_enqueue_federated := λ _ _ _ _ _ _, ret (Err Busy);
     ct_cancel_task := λ _, ret false; ct_enqueue_prewarm := λ _ _ _ _, ret (Err Busy) |}.

Definition cli_sample : RpcRequest := RpcRequest_new "7" "list_segments" (obj [("path", VString "/a")]).

