(* ===== verification/Cli.v ===== *)
(** * The command line (src/cli/mod.rs, discovery.rs, format.rs)

    A command becomes one request on the server's socket, or one HTTP request to its admin
    address; the answer is printed.  [Cli] is a program that acts on the world, prints, and
    ends by returning, with an error, or by leaving the process at once.  The world is an
    interface: files, locks, the socket and the network answer as they like, and each call may
    change them.  One exchange on the socket is one step of the world.

    Parameters: [serde_json]'s parser, its two printers and its messages, and [hyper::Uri]. *)

From Stdlib Require Import Ascii.
From stdpp Require Import base gmap strings numbers list.
From S2P Require Import Prelude RustStr Json Protocol.

Open Scope ida_scope.

(** ** Output (format.rs) *)

Inductive OutputMode : Type := Human | Json | Compact.

Definition MAX_HUMAN_LINES : nat := 200.

Definition get_str (k d : string) (v : Value) : string := default d (get k v ≫= as_str).
Definition get_u64 (k : string) (v : Value) : Z := default 0%Z (get k v ≫= as_u64).
Definition fmt_bool (b : bool) : string := if b then "true" else "false".
Definition fmt_len {A} (l : list A) : string := fmt_dec (Z.of_nat (length l)).

(** [{:?}] of a [str] *)
Definition escape_debug (c : ascii) : string :=
  if bool_decide (c = "000"%char) then "\0"
  else if bool_decide (c = "009"%char) then "\t"
  else if bool_decide (c = "010"%char) then "\n"
  else if bool_decide (c = "013"%char) then "\r"
  else if bool_decide (c = "034"%char) then String "\" quote
  else if bool_decide (c = "\"%char) then "\\"
  else if (code c <? 32)%Z || (code c =? 127)%Z then "\u{" +:+ fmt_hex (code c) +:+ "}"
  else String c "".

Definition fmt_debug (s : string) : string :=
  quote +:+ String.concat "" (escape_debug <$> String.list_ascii_of_string s) +:+ quote.

Definition truncate_output (s : string) : string :=
  let ls := lines s in
  if bool_decide (length ls ≤ MAX_HUMAN_LINES) then s
  else str_join newline (take MAX_HUMAN_LINES ls) +:+ newline +:+ "... " +:+
       fmt_dec (Z.of_nat (length ls - MAX_HUMAN_LINES)) +:+ " more lines, use --json for full output".

Section format.
Context (json_pretty json_print : Value → string).

Definition function_line (f : Value) : string :=
  "  " +:+ get_str "address" "?" f +:+ "  " +:+ get_str "name" "?" f +:+
  "  (size: " +:+ fmt_dec (get_u64 "size" f) +:+ ")".

Definition format_function_list (v : Value) : string :=
  match get "functions" v ≫= as_array with
  | None => json_pretty v
  | Some funcs =>
      truncate_output (str_join newline
        (("Functions (" +:+ fmt_len funcs +:+ " of " +:+ fmt_dec (get_u64 "total" v) +:+ "):") ::
         (function_line <$> funcs)))
  end.

Definition string_line (s : Value) : string :=
  "  " +:+ get_str "address" "?" s +:+ "  " +:+ fmt_debug (get_str "value" "?" s).

Definition format_string_list (v : Value) : string :=
  match get "strings" v ≫= as_array with
  | None => json_pretty v
  | Some strings =>
      truncate_output (str_join newline
        (("Strings (" +:+ fmt_len strings +:+ " of " +:+ fmt_dec (get_u64 "total" v) +:+ "):") ::
         (string_line <$> strings)))
  end.

Definition segment_line (s : Value) : string :=
  "  " +:+ get_str "name" "?" s +:+ "  " +:+ get_str "start_address" "?" s +:+ "-" +:+
  get_str "end_address" "?" s +:+ "  " +:+ get_str "permissions" "" s.

Definition format_segment_list (v : Value) : string :=
  match (match as_array v with Some a => Some a | None => get "segments" v ≫= as_array end) with
  | None => json_pretty v
  | Some segments =>
      truncate_output (str_join newline
        (("Segments (" +:+ fmt_len segments +:+ "):") :: (segment_line <$> segments)))
  end.

(** A line for a number that the status has. *)
Definition number_line (k : string) (v : Value) : list string :=
  match get k v ≫= as_u64 with Some n => [k +:+ ": " +:+ fmt_dec n] | None => [] end.

Definition cache_line (k : string) (v : Value) : list string :=
  match get k v with
  | Some cache => [k +:+ ": " +:+ fmt_dec (get_u64 "file_count" cache) +:+ " files, " +:+
                   fmt_dec (get_u64 "total_size_bytes" cache) +:+ " bytes"]
  | None => []
  end.

Definition worker_line (w : Value) : string :=
  "  " +:+ get_str "handle" "?" w +:+ " backend=" +:+ get_str "backend" "?" w +:+
  " tenant=" +:+ get_str "tenant_id" "default" w +:+
  " pending=" +:+ fmt_dec (get_u64 "pending_requests" w) +:+
  " refs=" +:+ fmt_dec (get_u64 "ref_count" w) +:+
  " idle=" +:+ fmt_dec (get_u64 "idle_secs" w) +:+ "s path=" +:+ get_str "open_path" "-" w.

Definition format_status (v : Value) : string :=
  str_join newline
    (["worker_count: " +:+ fmt_dec (get_u64 "worker_count" v)] ++
     number_line "max_workers" v ++ number_line "max_workers_per_tenant" v ++
     number_line "max_pending_per_worker" v ++ number_line "max_pending_per_tenant" v ++
     number_line "max_concurrent_spawns" v ++
     ["active_handle: " +:+ get_str "active_handle" "-" v] ++
     match get "runtime_probe" v with
     | Some runtime =>
         ["runtime_backend: " +:+ get_str "backend" "none" runtime +:+ " (supported=" +:+
          fmt_bool (default false (get "supported" runtime ≫= as_bool)) +:+ ")"]
     | None => []
     end ++
     cache_line "idb_cache" v ++ cache_line "response_cache" v ++
     match get "workers" v ≫= as_array with
     | Some [] => ["workers: []"]
     | Some workers => "workers:" :: (worker_line <$> workers)
     | None => []
     end).

(** The summary of a response that went to the cache. *)
Definition cached_summary (v : Value) : option string :=
  match get "cached" v ≫= as_bool with
  | Some true => get "summary" v ≫= as_str
  | _ => None
  end.

Definition format_human (method : string) (v : Value) : string :=
  match cached_summary v with
  | Some summary => summary
  | None =>
      if bool_decide (method ∈ ["list_functions"; "list_funcs"]) then format_function_list v
      else if bool_decide (method ∈ ["list_strings"; "strings"]) then format_string_list v
      else if bool_decide (method ∈ ["list_segments"; "segments"]) then format_segment_list v
      else if bool_decide (method = "status") then format_status v
      else truncate_output (json_pretty v)
  end.

Definition format_response (mode : OutputMode) (method : string) (v : Value) : string :=
  match mode with
  | Json => json_pretty v
  | Compact => json_print v
  | Human => format_human method v
  end.
End format.

(** ** Commands *)

Inductive CliCommand : Type :=
| ListFunctions (filter : option string) (limit offset : Z)
| Decompile (addr : string)
| Disasm (addr name : option string) (count : Z)
| XrefsTo (addr : string)
| XrefsToString (query : string) (limit max_xrefs : Z) (exact case_insensitive : bool)
| Callers (addr : string)
| Callees (addr : string)
| AddressInfo (addr : string)
| ListImports (limit offset : Z)
| ListStrings (query : option string) (limit : Z)
| ListSegments
| Prewarm (keep_warm queue : bool) (priority : Z) (tenant : option string)
| PrewarmMany (list_file : string) (jobs : Z) (keep_warm queue : bool) (priority : Z) (tenant : option string)
| Enqueue (method : string) (priority : Z) (dedupe_key tenant : option string) (federate : bool)
    (params : option string)
| TaskStatus (task_id : string)
| ListTasks
| CancelTask (task_id : string)
| FederationList
| FederationRegister (name url : string) (weight : Z)
| FederationUnregister (name : string)
| FederationHeartbeat (name url : string) (weight : Z) (capability tenant_allow : list string)
    (node_id : option string)
| Close
| Status
| Shutdown
| Raw (json_str : string)
| Pipe.

Record CliArgs : Type := {
  ca_socket : option string;
  ca_path : option string;
  ca_tenant : option string;
  ca_json : bool;
  ca_compact : bool;
  ca_timeout : Z;
  ca_command : CliCommand
}.

Definition set_opt (k : string) (o : option string) (m : list (string * Value)) : list (string * Value) :=
  match o with Some s => obj_insert k (VString s) m | None => m end.

(** What [build_rpc_params] can come to. *)
Inductive Built : Type :=
| Request (method : string) (params : Value)
| NoTarget
| Unreachable.

Definition build_rpc_params (cmd : CliCommand) (path tenant : option string) : Built :=
  let params := set_opt "tenant_id" tenant (set_opt "path" path []) in
  let ins k v m := obj_insert k v m in
  match cmd with
  | ListFunctions filter limit offset =>
      Request "list_functions"
        (Object (set_opt "filter" filter (ins "offset" (vz offset) (ins "limit" (vz limit) params))))
  | Decompile addr => Request "decompile_function" (Object (ins "address" (VString addr) params))
  | Disasm addr name count =>
      let params := ins "count" (vz count) params in
      match addr, name with
      | Some a, _ => Request "disassemble" (Object (ins "address" (VString a) params))
      | None, Some n => Request "disassemble_function" (Object (ins "name" (VString n) params))
      | None, None => NoTarget
      end
  | XrefsTo addr => Request "get_xrefs_to" (Object (ins "address" (VString addr) params))
  | XrefsToString query limit max_xrefs exact case_insensitive =>
      Request "get_xrefs_to_string"
        (Object (ins "case_insensitive" (Bool case_insensitive) (ins "exact" (Bool exact)
          (ins "max_xrefs" (vz max_xrefs) (ins "limit" (vz limit) (ins "query" (VString query) params))))))
  | Callers addr => Request "get_callers" (Object (ins "address" (VString addr) params))
  | Callees addr => Request "get_callees" (Object (ins "address" (VString addr) params))
  | AddressInfo addr => Request "get_address_info" (Object (ins "address" (VString addr) params))
  | ListImports limit offset =>
      Request "list_imports" (Object (ins "offset" (vz offset) (ins "limit" (vz limit) params)))
  | ListStrings query limit =>
      Request "list_strings" (Object (set_opt "query" query (ins "limit" (vz limit) params)))
  | ListSegments => Request "list_segments" (Object params)
  | Prewarm keep_warm queue priority tenant =>
      Request "prewarm"
        (Object (set_opt "tenant_id" tenant (ins "priority" (vz priority)
          (ins "queue" (Bool queue) (ins "keep_warm" (Bool keep_warm) params)))))
  | Close => Request "close" (Object params)
  | Status => Request "status" (Object params)
  | Shutdown => Request "shutdown" (Object params)
  | _ => Unreachable
  end.

(** ** The world outside the process *)

Inductive Exchange : Type :=
| ConnectError (e : string)
| ConnectTimeout
| WriteError (e : string)
| ServerClosed
| ReadFailed (e : string)
| TimedOut
| Line (s : string).

Class CliWorld (W : Type) : Type := {
  w_env : string → option string;
  w_exists : string → W → bool;
  w_read : string → W → result string string;
  w_remove : string → W → W;
  w_open_lock : string → W → result () string * W;
  w_flock : bool → W → bool * W;
  w_current_exe : result string string;
  w_spawn : string → list string → W → result Z string * W;
  w_sleep : Z → W → W;
  w_exchange : string → string → Z → W → Exchange * W;
  w_http : string → Z → string → W → result string string * W;
  w_schedule : nat → list nat;
  w_schedule_all : ∀ n, w_schedule n ≡ₚ seq 0 n
}.

(** What is used of [hyper::Uri]. *)
Record CliUri : Type := { cu_host : option string; cu_port : option Z; cu_path_and_query : option string }.

(** A program ends by returning, with an error of [anyhow], or in [std::process::exit(1)]. *)
Inductive Ended (A : Type) : Type :=
| Returned (a : A)
| Bailed (message : string)
| Exited.
Arguments Returned {A} _.
Arguments Bailed {A} _.
Arguments Exited {A}.

Section cli.
Context {W : Type} `{CliWorld W}.
Context (json_parse : string → option Value) (parse_error : string → string) (shape_error : Value → string).
Context (json_pretty json_print : Value → string) (parse_uri : string → result CliUri string).

Record Proc : Type := { p_world : W; p_out : list string; p_err : list string }.

Definition Cli (A : Type) : Type := Proc → Ended A * Proc.

Definition ret {A} (a : A) : Cli A := λ p, (Returned a, p).
Definition bail {A} (e : string) : Cli A := λ p, (Bailed e, p).
Definition exit {A} : Cli A := λ p, (Exited, p).

Definition bind {A B} (m : Cli A) (f : A → Cli B) : Cli B := λ p,
  match m p with
  | (Returned a, p) => f a p
  | (Bailed e, p) => (Bailed e, p)
  | (Exited, p) => (Exited, p)
  end.

(** An error as a value; leaving the process cannot be caught. *)
Definition try {A} (m : Cli A) : Cli (result A string) := λ p,
  match m p with
  | (Returned a, p) => (Returned (Ok a), p)
  | (Bailed e, p) => (Returned (Err e), p)
  | (Exited, p) => (Exited, p)
  end.

Notation "x <- m ;; k" := (bind m (λ x, k)) (at level 100, m at next level, right associativity).
Notation "m ;;; k" := (bind m (λ _, k)) (at level 100, right associativity).

Definition lift {A} (r : result A string) : Cli A := match r with Ok a => ret a | Err e => bail e end.
Definition act {A} (f : W → A * W) : Cli A := λ p,
  let '(a, w) := f (p_world p) in (Returned a, {| p_world := w; p_out := p_out p; p_err := p_err p |}).
Definition look {A} (f : W → A) : Cli A := λ p, (Returned (f (p_world p)), p).
Definition println (s : string) : Cli () := λ p,
  (Returned tt, {| p_world := p_world p; p_out := p_out p ++ [s]; p_err := p_err p |}).
Definition eprintln (s : string) : Cli () := λ p,
  (Returned tt, {| p_world := p_world p; p_out := p_out p; p_err := p_err p ++ [s] |}).

(** ** Finding the server (discovery.rs) *)

Definition DISCOVERY_PATH : string := "/tmp/ida-cli.socket".
Definition STARTUP_LOCK : string := "/tmp/ida-cli.startup.lock".

Definition read_discovery_file : Cli (option string) :=
  content <- look (w_read DISCOVERY_PATH) ;;
  match content with
  | Err _ => ret None
  | Ok content =>
      let p := trim content in
      found <- look (w_exists p) ;;
      if found : bool then ret (Some p)
      else act (λ w, (tt, w_remove DISCOVERY_PATH w)) ;;; ret None
  end.

(** [{:.1}] of a quarter of [n]: the nearest tenth, the even one of two. *)
Definition quarters (n : Z) : string :=
  let t := (5 * n / 2)%Z in
  let t := if Z.odd n && Z.odd t then (t + 1)%Z else t in
  fmt_dec (t / 10) +:+ "." +:+ fmt_dec (t mod 10).

(** The [n] turns left of the 40 in which the server is awaited. *)
Fixpoint await_server (n : nat) : Cli bool :=
  match n with
  | O => ret false
  | S n' =>
      act (λ w, (tt, w_sleep 250 w)) ;;;
      found <- read_discovery_file ;;
      match found with
      | Some _ => eprintln ("Server ready (" +:+ quarters (40 - Z.of_nat n') +:+ "s)") ;;; ret true
      | None => await_server n'
      end
  end.

Definition start_server : Cli () :=
  eprintln "No running server found, starting one..." ;;;
  exe <- lift (match w_current_exe with Ok e => Ok e | Err e => Err ("Cannot find own binary: " +:+ e) end) ;;
  child <- act (w_spawn exe ["serve-http"; "--bind"; "127.0.0.1:0"]) ;;
  match child with
  | Err e => bail ("Failed to start server: " +:+ e)
  | Ok pid =>
      eprintln ("Server starting (pid " +:+ fmt_dec pid +:+ ")...") ;;;
      ready <- await_server 40 ;;
      if ready : bool then ret tt else bail "Server did not become ready within 10s"
  end.

Definition auto_start_server : Cli () :=
  lock <- act (w_open_lock STARTUP_LOCK) ;;
  match lock with
  | Err e => bail ("Cannot create lock file: " +:+ e)
  | Ok _ =>
      got <- act (w_flock false) ;;
      if got : bool then start_server
      else
        eprintln "Another client is starting the server, waiting..." ;;;
        got <- act (w_flock true) ;;
        if negb got then bail "Lock wait failed"
        else
          found <- read_discovery_file ;;
          match found with
          | Some _ => eprintln "Server ready (started by another client)"
          | None => start_server
          end
  end.

Definition discover_socket (explicit : option string) : Cli string :=
  match explicit with
  | Some s =>
      found <- look (w_exists s) ;;
      if found : bool then ret s else bail ("Socket not found: " +:+ s)
  | None =>
      match w_env "IDA_MCP_SOCKET" with
      | Some s =>
          found <- look (w_exists s) ;;
          if found : bool then ret s else bail ("$IDA_MCP_SOCKET points to non-existent path: " +:+ s)
      | None =>
          found <- read_discovery_file ;;
          match found with
          | Some p => ret p
          | None =>
              auto_start_server ;;;
              found <- read_discovery_file ;;
              match found with
              | Some p => ret p
              | None => bail "Server started but socket not found. Check logs: ~/.ida/logs/server.log"
              end
          end
      end
  end.

(** ** One request *)

(** [if !obj.contains_key(k) { obj.insert(k, v) }] and [entry(k).or_insert] *)
Definition insert_absent (k : string) (v : Value) (m : list (string * Value)) : list (string * Value) :=
  match obj_get k m with Some _ => m | None => obj_insert k v m end.

Definition complete_envelope (raw : string) (seq : Z) : result RpcRequest string :=
  match json_parse raw with
  | None => Err (parse_error raw)
  | Some (Object m) =>
      let m := insert_absent "params" (obj []) (insert_absent "id" (VString (fmt_dec seq))
                 (insert_absent "jsonrpc" (VString "2.0") m)) in
      ok_or (request_from_value (Object m)) ("Invalid request: " +:+ shape_error (Object m))
  | Some _ => Err "JSON must be an object"
  end.

Definition send_request (socket : string) (req : RpcRequest) (timeout : Z) : Cli RpcResponse :=
  x <- act (w_exchange socket (json_print (request_to_value req) +:+ newline) timeout) ;;
  match x with
  | ConnectError e => eprintln ("Error: Cannot connect to server: " +:+ e) ;;; exit
  | ConnectTimeout => eprintln "Error: Connection timed out" ;;; exit
  | WriteError e => bail e
  | ServerClosed => bail "Server closed connection"
  | ReadFailed e => bail ("Read error: " +:+ e)
  | TimedOut => eprintln ("Error: request timed out after " +:+ fmt_dec timeout +:+ "s") ;;; exit
  | Line s =>
      lift (match json_parse (trim s) with
            | None => Err ("Invalid response: " +:+ parse_error (trim s))
            | Some v => ok_or (response_from_value v) ("Invalid response: " +:+ shape_error v)
            end)
  end.

Definition handle_response (resp : RpcResponse) (method : string) (mode : OutputMode) : Cli () :=
  match resp_error resp with
  | Some e => eprintln ("Error: " +:+ err_message e) ;;; exit
  | None =>
      match resp_result resp with
      | Some v => println (format_response json_pretty json_print mode method v)
      | None => ret tt
      end
  end.

(** Send one request and print its answer. *)
Definition ask (socket : string) (req : RpcRequest) (timeout : Z) (mode : OutputMode) : Cli () :=
  resp <- send_request socket req timeout ;;
  handle_response resp (req_method req) mode.

(** ** Many databases *)

Definition list_paths (content : string) : list string :=
  filter (λ l, negb (bool_decide (l = "")) && negb (starts_with "#" l)) (trim <$> lines content).

Definition prewarm_request (keep_warm queue : bool) (priority : Z) (tenant : option string) (idx : nat)
    (path : string) : RpcRequest :=
  RpcRequest_new ("prewarm-" +:+ fmt_dec (Z.of_nat idx)) "prewarm"
    (obj [("path", VString path); ("keep_warm", Bool keep_warm); ("queue", Bool queue);
          ("priority", vz priority); ("tenant_id", opt_value (VString <$> tenant))]).

(** The spawned tasks, in the order in which the world lets them take their turn. *)
Fixpoint run_tasks (task : nat → Cli RpcResponse) (order : list nat)
    (done : gmap nat (result RpcResponse string)) : Cli (gmap nat (result RpcResponse string)) :=
  match order with
  | [] => ret done
  | i :: order => r <- try (task i) ;; run_tasks task order (<[i := r]> done)
  end.

Definition prewarm_result (path : string) (resp : option (result RpcResponse string)) : Value :=
  match resp with
  | Some (Ok response) =>
      match resp_error response with
      | Some error => obj [("path", VString path); ("ok", Bool false); ("error", VString (err_message error))]
      | None => obj [("path", VString path); ("ok", Bool true); ("result", opt_value (resp_result response))]
      end
  | Some (Err e) => obj [("path", VString path); ("ok", Bool false); ("error", VString e)]
  | None => Null
  end.

(** [jobs] is the number of permits, at least one: it bounds how many of the exchanges overlap,
    and each of them takes effect at one moment. *)
Definition run_prewarm_many (socket list_file : string) (jobs : Z) (keep_warm queue : bool) (priority : Z)
    (tenant : option string) (mode : OutputMode) (timeout : Z) : Cli () :=
  content <- look (w_read list_file) ;;
  content <- lift content ;;
  let paths := list_paths content in
  let task i := send_request socket
                  (prewarm_request keep_warm queue priority tenant i (default "" (paths !! i))) timeout in
  done <- run_tasks task (w_schedule (length paths)) ∅ ;;
  let results := imap (λ i path, prewarm_result path (done !! i)) paths in
  println (format_response json_pretty json_print mode "prewarm_many"
    (obj [("count", vnat (length results)); ("results", Array results)])).

(** ** A stream of requests *)

Definition pin_path (global_path : option string) (req : RpcRequest) : RpcRequest :=
  match global_path, get "path" (req_params req), req_params req with
  | Some p, None, Object m =>
      {| req_jsonrpc := req_jsonrpc req; req_id := req_id req; req_method := req_method req;
         req_params := Object (obj_insert "path" (VString p) m) |}
  | _, _, _ => req
  end.

Definition print_response (r : RpcResponse) : Cli () := println (json_print (response_to_value r)).

(** [stdin] is what each call of [read_line] gives, up to the end of the input.  Every output
    mode prints the same. *)
Fixpoint run_pipe (socket : string) (global_path : option string) (mode : OutputMode)
    (stdin : list (result string string)) (seq : Z) : Cli () :=
  match stdin with
  | [] => ret tt
  | Err e :: _ => eprintln ("Error reading stdin: " +:+ e)
  | Ok line :: stdin =>
      let trimmed := trim line in
      if bool_decide (trimmed = "") then run_pipe socket global_path mode stdin seq
      else
        (match complete_envelope trimmed seq with
         | Err e => print_response (RpcResponse_err (fmt_dec seq) (-32700) e)
         | Ok req =>
             let req := pin_path global_path req in
             r <- try (send_request socket req 120) ;;
             match r with
             | Ok resp => print_response resp
             | Err e => print_response (RpcResponse_err (req_id req) (-32000) e)
             end
         end) ;;;
        run_pipe socket global_path mode stdin (seq + 1)
  end.

(** ** The admin address *)

Definition admin_url (path : string) : string :=
  let base := default "http://127.0.0.1:9876" (w_env "IDA_CLI_ADMIN_URL") in
  trim_end_with (λ c, bool_decide (c = "/"%char)) base +:+ path.

Definition crlf : string := String "013" newline.

(** The text before and after the first [d]. *)
Fixpoint split_first (d s : string) : option (string * string) :=
  match strip_prefix d s with
  | Some rest => Some ("", rest)
  | None => match s with
            | "" => None
            | String c s => '(a, b) ← split_first d s; Some (String c a, b)
            end
  end.

(** [s.split(d).nth(1)] *)
Definition second_piece (d s : string) : option string :=
  '(_, rest) ← split_first d s;
  match split_first d rest with Some (piece, _) => Some piece | None => Some rest end.

Definition http_text (method path host body : string) : string :=
  method +:+ " " +:+ path +:+ " HTTP/1.1" +:+ crlf +:+ "Host: " +:+ host +:+ crlf +:+
  "Connection: close" +:+ crlf +:+ "Accept: application/json" +:+ crlf +:+
  (if bool_decide (body = "") then ""
   else "Content-Type: application/json" +:+ crlf +:+ "Content-Length: " +:+
        fmt_dec (Z.of_nat (String.length body)) +:+ crlf) +:+
  crlf +:+ body.

Definition reqwest_blocking_like (method url : string) (body : option Value) : Cli string :=
  uri <- lift (parse_uri url) ;;
  host <- lift (ok_or (cu_host uri) "missing host in url") ;;
  let port := default 80%Z (cu_port uri) in
  let path := default "/" (cu_path_and_query uri) in
  answer <- act (w_http host port (http_text method path host (default "" (json_print <$> body)))) ;;
  response <- lift answer ;;
  lift (ok_or (second_piece (crlf +:+ crlf) response) "invalid http response").

Definition admin (method path : string) (body : option Value) : Cli () :=
  body <- reqwest_blocking_like method (admin_url path) body ;;
  println body.

(** ** Running a command *)

Definition output_mode (args : CliArgs) : OutputMode :=
  if ca_compact args then Compact else if ca_json args then Json else Human.

Definition enqueue_payload (path : option string) (method : string) (priority : Z)
    (dedupe_key tenant : option string) (federate : bool) (params : option string) : result Value string :=
  let payload := obj_insert "federate" (Bool federate) (obj_insert "priority" (vz priority)
                   (obj_insert "method" (VString method) (set_opt "path" path []))) in
  let payload := set_opt "dedupe_key" dedupe_key (set_opt "tenant_id" tenant payload) in
  match params with
  | None => Ok (Object payload)
  | Some params =>
      match json_parse params with
      | Some v => Ok (Object (obj_insert "task_params" v payload))
      | None => Err (parse_error params)
      end
  end.

Definition or_insert (k : string) (o : option string) (m : list (string * Value)) : list (string * Value) :=
  match o with Some s => insert_absent k (VString s) m | None => m end.

Definition pin_globals (path tenant : option string) (req : RpcRequest) : RpcRequest :=
  match req_params req with
  | Object m =>
      {| req_jsonrpc := req_jsonrpc req; req_id := req_id req; req_method := req_method req;
         req_params := Object (or_insert "tenant_id" tenant (or_insert "path" path m)) |}
  | _ => req
  end.

Definition run_command (args : CliArgs) (stdin : list (result string string)) (socket : string) : Cli () :=
  let mode := output_mode args in
  let timeout := ca_timeout args in
  let ask_for method params := ask socket (RpcRequest_new "1" method params) timeout mode in
  match ca_command args with
  | Pipe => run_pipe socket (ca_path args) mode stdin 1
  | PrewarmMany list_file jobs keep_warm queue priority tenant =>
      run_prewarm_many socket list_file (Z.max jobs 1) keep_warm queue priority tenant mode timeout
  | Enqueue method priority dedupe_key tenant federate params =>
      payload <- lift (enqueue_payload (ca_path args) method priority dedupe_key tenant federate params) ;;
      ask_for "enqueue" payload
  | TaskStatus task_id => ask_for "task_status" (obj [("task_id", VString task_id)])
  | ListTasks => ask_for "list_tasks" (obj [])
  | CancelTask task_id => ask_for "cancel_task" (obj [("task_id", VString task_id)])
  | FederationList => admin "GET" "/federationz" None
  | FederationRegister name url weight =>
      admin "POST" "/federationz/register"
        (Some (obj [("name", VString name); ("url", VString url); ("weight", vz weight); ("enabled", Bool true)]))
  | FederationUnregister name => admin "POST" "/federationz/unregister" (Some (obj [("name", VString name)]))
  | FederationHeartbeat name url weight capability tenant_allow node_id =>
      admin "POST" "/federationz/heartbeat"
        (Some (obj [("name", VString name); ("url", VString url); ("weight", vz weight);
                    ("enabled", Bool true); ("capabilities", Array (VString <$> capability));
                    ("tenant_allow", Array (VString <$> tenant_allow));
                    ("node_id", opt_value (VString <$> node_id))]))
  | Raw json_str =>
      req <- lift (complete_envelope json_str 1) ;;
      ask socket (pin_globals (ca_path args) (ca_tenant args) req) timeout mode
  | cmd =>
      match build_rpc_params cmd (ca_path args) (ca_tenant args) with
      | Request method params => ask_for method params
      | NoTarget => eprintln "Error: disasm requires --addr or --name" ;;; exit
      | Unreachable => bail "build_rpc_params called with a command handled directly in run()"
      end
  end.

Definition run (args : CliArgs) (stdin : list (result string string)) : Cli () :=
  socket <- try (discover_socket (ca_socket args)) ;;
  match socket with
  | Err e => eprintln ("Error: " +:+ e) ;;; exit
  | Ok socket => run_command args stdin socket
  end.
End cli.
