(* ===== verification/CliTheorems.v ===== *)
(** * What the command line guarantees

    A command asks the worker what it says; the listener reads what the command line wrote, and
    the command line prints what the listener answered; a stream of requests is answered line by
    line; a batch reports every path; a socket that was found existed; a long text is cut. *)

From Stdlib Require Import Ascii.
From stdpp Require Import base gmap strings numbers list.
From S2P Require Import Prelude RustStr Json ToolError Protocol Parse.
From S2P Require Import ToolTable ToolRegistry Serde ToolRequests IdaRequest IdaWorker F64 RpcDispatch.
From S2P Require Import Cli.

Open Scope ida_scope.

(** ** What a command asks of the worker *)

Section questions.
Context {S : Type}.
Context (worker : ∀ c : WorkerCall, S → result (reply (wc_request c)) ToolError * S).
Context (json_parse : string → option Value) (json_display : Value → string).
Context (de_message : DeError → string) (f64_text : f64 → string).

#[local] Abbreviation Rpc := (Rpc (S := S)).
#[local] Abbreviation dispatch := (dispatch_rpc worker json_parse json_display de_message f64_text).

Definition address_of (text : string) : option Z := parse_address_value (VString text).

(** An answer for one address, or the refusal of a text that is none. *)
Definition at_address (text : string) (call : Z → Rpc Value) : Rpc Value :=
  match address_of text with
  | Some a => call a
  | None => rpc_fail (InvalidAddress ("invalid address: " +:+ json_display (VString text)))
  end.

(** The specification: the worker call of a command, with the numbers and texts it was given. *)
Definition command_call (cmd : CliCommand) : option (Rpc Value) :=
  match cmd with
  | ListFunctions filter limit offset => Some (worker (Worker.list_functions offset limit filter None))
  | Decompile addr => Some (at_address addr (λ a,
      rpc_bind (worker (Worker.decompile a)) (λ r,
        rpc_ret (obj [("code", VString (if has_unknown_name r then rename_hint +:+ r else r))]))))
  | Disasm (Some addr) _ count => Some (at_address addr (λ a,
      rpc_bind (worker (Worker.disasm a count)) (λ r, rpc_ret (obj [("disasm", VString r)]))))
  | Disasm None (Some name) count =>
      Some (rpc_bind (worker (Worker.disasm_by_name name count)) (λ r, rpc_ret (obj [("disasm", VString r)])))
  | XrefsTo addr => Some (worker (Worker.xrefs_to (default 0%Z (address_of addr))))
  | XrefsToString query limit max_xrefs exact ci =>
      Some (worker (Worker.xrefs_to_string query exact ci 0 limit max_xrefs None))
  | Callers addr => Some (worker (Worker.callers (default 0%Z (address_of addr))))
  | Callees addr => Some (worker (Worker.callees (default 0%Z (address_of addr))))
  | AddressInfo addr => Some (worker (Worker.addr_info (address_of addr) None 0))
  | ListImports limit offset => Some (worker (Worker.imports offset limit))
  | ListStrings (Some q) limit => Some (worker (Worker.find_string q false true 0 limit None))
  | ListStrings None limit => Some (worker (Worker.strings 0 limit None None))
  | ListSegments => Some (worker Worker.segments)
  | _ => None
  end.

(** The numbers of a command are [usize] values. *)
Definition command_wf (cmd : CliCommand) : Prop :=
  match cmd with
  | ListFunctions _ limit offset | ListImports limit offset => in_u64 limit ∧ in_u64 offset
  | Disasm _ _ count => in_u64 count
  | XrefsToString _ limit max_xrefs _ _ => in_u64 limit ∧ in_u64 max_xrefs
  | ListStrings _ limit => in_u64 limit
  | _ => True
  end.

Lemma de_usize z : in_u64 z → de_int "usize" 0 u64_max (vz z) = Ok z.
Proof. intros [??]. unfold de_int, vz. by rewrite (proj2 (Z.leb_le 0 z)), (proj2 (Z.leb_le z u64_max)). Qed.

(** The arm of a method that is a primary name. *)
Ltac find_arm :=
  unfold dispatch_rpc; cbn [RpcRequest_new req_method req_params];
  match goal with |- context [primary_name_for ?m] =>
    replace (primary_name_for m) with m by (vm_compute; reflexivity)
  end;
  match goal with |- context [lookup_method ?w ?a ?b ?c ?d ?m] =>
    let t := eval hnf in (lookup_method w a b c d m) in
    change (lookup_method w a b c d m) with t
  end; cbv beta iota; cbn [snd]; autounfold with rpc.

(** Read the parameters, when the arm reads them as a struct. *)
Ltac read_params :=
  unfold parse_params;
  try match goal with |- context [de_struct ?n ?fs ?v] =>
    let H := fresh in eassert (de_struct n fs v = Ok _) as H;
    [lazy -[de_int vz u64_max]; rewrite ?de_usize by assumption; lazy -[u64_max de_int vz]; reflexivity
    |rewrite H; clear H]
  end.

Ltac read_address :=
  unfold at_address, address_of, rpc_bind, rpc_lift, parse_address_values;
  cbn -[parse_address_value per_address obj has_unknown_name rename_hint String.append Worker.decompile Worker.disasm reply];
  by destruct (parse_address_value (VString _)).

(** C20: A command that reads a database asks the worker exactly what it says: the request built
    from it carries the path and the tenant of the command line, if given, and the dispatcher,
    given that request, makes the worker call with the command's own numbers and texts and the
    defaults of the method for the rest.  An address that cannot be read is refused by
    [decompile] and [disasm], and is address 0 for the commands on references. *)
Theorem commands_ask_what_they_say cmd call path tenant
    (Hwf : command_wf cmd) (Hcall : command_call cmd = Some call) :
  ∃ method params, build_rpc_params cmd path tenant = Request method params ∧
    get "path" params = VString <$> path ∧ get "tenant_id" params = VString <$> tenant ∧
    ∀ id s, dispatch (RpcRequest_new id method params) s = call s.
Proof.
  destruct path, tenant, cmd; cbn [command_call] in Hcall;
    repeat match goal with o : option string |- _ => destruct o end;
    try discriminate Hcall; injection Hcall as <-; cbn [command_wf] in Hwf; destruct_and?;
    do 2 eexists; (split; [reflexivity|]); (split; [reflexivity|split; [reflexivity|intros id st]]);
    find_arm; read_params; solve [reflexivity | read_address].
Qed.

(** The commands that [run] hands to [build_rpc_params] never reach its [unreachable!]. *)
Lemma built_reachable cmd path tenant :
  build_rpc_params cmd path tenant = Unreachable →
  match cmd with
  | PrewarmMany _ _ _ _ _ _ | Enqueue _ _ _ _ _ _ | TaskStatus _ | ListTasks | CancelTask _ | FederationList
  | FederationRegister _ _ _ | FederationUnregister _ | FederationHeartbeat _ _ _ _ _ _ | Raw _ | Pipe => True
  | _ => False
  end.
Proof. destruct cmd as [| |[] []| | | | | | | | | | | | | | | | | | | | | | |]; done. Qed.
End questions.

(** ** Cut output *)

Definition is_newline (c : ascii) : bool := bool_decide (c = "010"%char).
#[local] Abbreviation one_line := (str_all (λ c, negb (is_newline c))).

Lemma split_on_pieces p s : Forall (λ w, str_all (λ c, negb (p c)) w = true) (split_on p s).
Proof.
  induction s as [|c s IH]; cbn; [by repeat constructor|]. destruct (p c) eqn:E; [by constructor|].
  destruct (split_on p s) as [|w ws]; inversion IH; subst; constructor; cbn; by rewrite ?E.
Qed.

Lemma strip_cr_one_line q s : str_all q s = true → str_all q (strip_cr s) = true.
Proof.
  induction s as [|c s IH]; [done|]. cbn [str_all strip_cr]. intros [Hc Hs]%andb_true_iff.
  destruct s; [case_bool_decide; cbn; by rewrite ?Hc|]. cbn [str_all]. by rewrite Hc, IH.
Qed.

Lemma lines_one_line s : Forall (λ l, one_line l = true) (lines s).
Proof.
  unfold lines. pose proof (split_on_pieces is_newline s) as H. change (λ c, bool_decide (c = "010"%char)) with is_newline.
  induction H as [|w ws Hw Hws IH]; [done|]. destruct ws; cbn [lines_of].
  - case_bool_decide; by repeat constructor.
  - constructor; [by apply strip_cr_one_line|done].
Qed.

Lemma lines_le_pieces s : length (lines s) ≤ length (split_on is_newline s).
Proof.
  unfold lines. change (λ c, bool_decide (c = "010"%char)) with is_newline.
  induction (split_on is_newline s) as [|w ws IH]; [done|]. destruct ws; cbn [lines_of].
  - case_bool_decide; cbn; lia.
  - cbn in *. lia.
Qed.

Lemma split_join ws t : Forall (λ w, one_line w = true) ws → ws ≠ [] →
  split_on is_newline (str_join newline ws +:+ newline +:+ t) = ws ++ split_on is_newline t.
Proof.
  intros Hws Hne. induction Hws as [|w ws Hw Hws IH]; [done|]. destruct ws as [|w' ws].
  - change (str_join newline [w]) with w. by apply (split_on_app is_newline w "010"%char t).
  - change (str_join newline (w :: w' :: ws)) with (w +:+ newline +:+ str_join newline (w' :: ws)).
    rewrite !string_app_assoc. change (newline +:+ ?x) with (String "010" x) at 1.
    rewrite split_on_app by done. rewrite IH by done. done.
Qed.

(** A text of at most [MAX_HUMAN_LINES] lines is printed as it is; of a longer one, exactly the
    first [MAX_HUMAN_LINES] lines are, and one that says how many are missing. *)
Theorem truncate_output_exact s :
  (length (lines s) ≤ MAX_HUMAN_LINES ∧ truncate_output s = s) ∨
  (MAX_HUMAN_LINES < length (lines s) ∧
   split_on is_newline (truncate_output s) = take MAX_HUMAN_LINES (lines s) ++
     ["... " +:+ fmt_dec (Z.of_nat (length (lines s) - MAX_HUMAN_LINES)) +:+ " more lines, use --json for full output"]).
Proof.
  unfold truncate_output. case_bool_decide as Hle; [by left|right]. split; [lia|].
  rewrite split_join.
  - f_equal. apply split_on_none. rewrite !str_all_app, fmt_dec_all by reflexivity. reflexivity.
  - apply Forall_take, lines_one_line.
  - intros Hnil. apply (f_equal length) in Hnil. rewrite length_take in Hnil. cbn [length] in Hnil. unfold MAX_HUMAN_LINES in *. lia.
Qed.

(** So no text that was cut has more than one line above the limit. *)
Lemma truncate_output_bounded s : length (lines (truncate_output s)) ≤ S MAX_HUMAN_LINES.
Proof.
  destruct (truncate_output_exact s) as [[H ->]|[H Hs]]; [lia|]. etrans; [apply lines_le_pieces|].
  rewrite Hs, length_app, length_take. cbn [length]. lia.
Qed.

(** ** The process *)

Section process.
Context {W : Type} `{CliWorld W}.
Context (json_parse : string → option Value) (parse_error : string → string) (shape_error : Value → string).
Context (json_pretty json_print : Value → string) (parse_uri : string → result CliUri string).

Implicit Types (p : Proc (W := W)).

Lemma bind_Returned {A B} (m : Cli A) (f : A → Cli B) p b p' :
  Cli.bind m f p = (Returned b, p') ↔ ∃ a p1, m p = (Returned a, p1) ∧ f a p1 = (Returned b, p').
Proof.
  unfold Cli.bind. split.
  - destruct (m p) as [[a|e|] p1]; intros Hb; naive_solver.
  - by intros (a & p1 & -> & Hf).
Qed.

(** *** Finding the server *)

Lemma read_discovery_found p path p' :
  read_discovery_file p = (Returned (Some path), p') → w_exists path (p_world p') = true.
Proof.
  unfold read_discovery_file. rewrite bind_Returned. intros (c & p1 & [= <- <-] & Hc). cbn in Hc.
  destruct (w_read DISCOVERY_PATH (p_world p)) as [content|e]; [|discriminate].
  apply bind_Returned in Hc as (found & p2 & [= <- <-] & Hf). cbn in Hf.
  destruct (w_exists (trim content) (p_world p)) eqn:E; [injection Hf as <- <-; exact E|].
  apply bind_Returned in Hf as (? & ? & _ & Hr). discriminate.
Qed.

(** A path that is looked up and returned exists. *)
Lemma look_exists s e p path p' :
  Cli.bind (look (w_exists s)) (λ found : bool, if found then Cli.ret s else bail e) p = (Returned path, p') →
  w_exists path (p_world p') = true.
Proof.
  rewrite bind_Returned. intros (found & p1 & [= <- <-] & Hf).
  destruct (w_exists s (p_world p)) eqn:E; [injection Hf as <- <-; exact E|discriminate].
Qed.

(** The socket that [discover_socket] returns existed when it returned, whether it was given on
    the command line, in the environment, in the discovery file or by a server just started. *)
Theorem discovered_socket_exists explicit p path p' (Hd : discover_socket explicit p = (Returned path, p')) :
  w_exists path (p_world p') = true.
Proof.
  unfold discover_socket in Hd. destruct explicit as [s|]; [by eapply look_exists|].
  destruct (w_env "IDA_MCP_SOCKET") as [s|]; [by eapply look_exists|].
  apply bind_Returned in Hd as ([found|] & p1 & Hr & Hd); [injection Hd as <- <-; by eapply read_discovery_found|].
  apply bind_Returned in Hd as (? & p2 & _ & Hd).
  apply bind_Returned in Hd as ([found'|] & p3 & Hr' & Hd); [|discriminate].
  injection Hd as <- <-. by eapply read_discovery_found.
Qed.

(** *** A stream of requests *)

#[local] Abbreviation complete := (complete_envelope json_parse parse_error shape_error).
#[local] Abbreviation send := (send_request json_parse parse_error shape_error json_print).
#[local] Abbreviation pipe := (run_pipe json_parse parse_error shape_error json_print).

(** The server is there and answers in time, or closes the connection. *)
Definition responsive (socket : string) : Prop := ∀ text timeout w,
  match (w_exchange socket text timeout w).1 with
  | ConnectError _ | ConnectTimeout | TimedOut => False
  | _ => True
  end.

(** What [send_request] makes of a line. *)
Definition read_response (s : string) : result RpcResponse string :=
  match json_parse (trim s) with
  | None => Err ("Invalid response: " +:+ parse_error (trim s))
  | Some v => ok_or (response_from_value v) ("Invalid response: " +:+ shape_error v)
  end.

(** The server sent this response to this request. *)
Definition served (socket : string) (req : RpcRequest) (timeout : Z) (r : RpcResponse) : Prop :=
  ∃ w w' s, w_exchange socket (json_print (request_to_value req) +:+ newline) timeout w = (Line s, w') ∧
    read_response s = Ok r.

Lemma try_send socket req timeout p (Hs : responsive socket) :
  ∃ r w', try (send socket req timeout) p =
    (Returned r, {| p_world := w'; p_out := p_out p; p_err := p_err p |}) ∧
    ∀ resp, r = Ok resp → served socket req timeout resp.
Proof.
  unfold try, send_request, Cli.bind, act.
  pose proof (Hs (json_print (request_to_value req) +:+ newline) timeout (p_world p)) as Hx.
  destruct (w_exchange _ _ _ _) as [[] w'] eqn:E; try done; cbn;
    try (do 2 eexists; split; [reflexivity|]; intros; discriminate).
  fold (read_response s). destruct (read_response s) as [r|e] eqn:Er; cbn; do 2 eexists; (split; [reflexivity|]);
    intros resp Hr; simplify_eq. by do 3 eexists.
Qed.

(** The lines that are requests, with their numbers. *)
Fixpoint numbered (stdin : list string) (seq : Z) : list (Z * string) :=
  match stdin with
  | [] => []
  | line :: stdin =>
      if bool_decide (trim line = "") then numbered stdin seq else (seq, trim line) :: numbered stdin (seq + 1)
  end.

Definition answers_line (socket : string) (path : option string) (line : Z * string) (r : RpcResponse) : Prop :=
  match complete line.2 line.1 with
  | Err e => r = RpcResponse_err (fmt_dec line.1) (-32700) e
  | Ok req => (∃ e, r = RpcResponse_err (req_id req) (-32000) e) ∨ served socket (pin_path path req) 120 r
  end.

Lemma pin_path_id path req : req_id (pin_path path req) = req_id req.
Proof. unfold pin_path. by repeat case_match. Qed.

(** C21: In pipe mode every line of the input that is not blank gets exactly one line of output,
    in the order of the input: a line that is no request gets a parse error with its number, any
    other one the response of the server to it, or an error with the request's id.  Nothing else
    is printed, and the program returns, provided that the server is there and answers. *)
Theorem pipe_answers_every_line socket path mode stdin seq p (Hs : responsive socket) :
  ∃ rs w', pipe socket path mode (Ok <$> stdin) seq p =
      (Returned tt, {| p_world := w'; p_out := p_out p ++ (json_print ∘ response_to_value <$> rs); p_err := p_err p |}) ∧
    Forall2 (answers_line socket path) (numbered stdin seq) rs.
Proof.
  revert seq p. induction stdin as [|line stdin IH]; intros seq p.
  { exists [], (p_world p). cbn. rewrite app_nil_r. split; [by destruct p|constructor]. }
  cbn [run_pipe fmap list_fmap numbered]. case_bool_decide as Hb; [apply IH|].
  assert (∃ r w1, answers_line socket path (seq, trim line) r ∧
    match complete (trim line) seq with
    | Err e => print_response json_print (RpcResponse_err (fmt_dec seq) (-32700) e)
    | Ok req => Cli.bind (try (send socket (pin_path path req) 120)) (λ r,
        match r with
        | Ok resp => print_response json_print resp
        | Err e => print_response json_print (RpcResponse_err (req_id (pin_path path req)) (-32000) e)
        end)
    end p = (Returned tt, {| p_world := w1; p_out := p_out p ++ [json_print (response_to_value r)]; p_err := p_err p |}))
    as (r & w1 & Ha & Hr).
  { unfold answers_line. cbn [fst snd]. destruct (complete (trim line) seq) as [req|e]; [|by do 2 eexists].
    destruct (try_send socket (pin_path path req) 120 p Hs) as (r & w1 & Ht & Hserved).
    unfold Cli.bind. rewrite Ht, pin_path_id. destruct r as [resp|e]; do 2 eexists; (split; [|reflexivity]); eauto. }
  unfold Cli.bind at 1. cbn zeta. rewrite Hr.
  edestruct IH as (rs & w2 & -> & Hrs). exists (r :: rs), w2. cbn [p_out p_err fmap list_fmap].
  rewrite <-app_assoc. split; [done|by constructor].
Qed.

(** A request that takes too long ends the whole pipe: the lines after it get no answer. *)
Theorem timeout_ends_pipe socket path mode line stdin seq p req w'
    (Hb : trim line ≠ "") (Hc : complete (trim line) seq = Ok req)
    (Hx : w_exchange socket (json_print (request_to_value (pin_path path req)) +:+ newline) 120 (p_world p) = (TimedOut, w')) :
  pipe socket path mode (Ok line :: stdin) seq p =
    (Exited, {| p_world := w'; p_out := p_out p; p_err := p_err p ++ ["Error: request timed out after 120s"] |}).
Proof.
  cbn [run_pipe]. rewrite bool_decide_false by done. rewrite Hc. cbn zeta.
  unfold Cli.bind, try, send_request, Cli.bind, act. by rewrite Hx.
Qed.

(** *** Many databases *)

Lemma run_tasks_all task order done p :
  (∀ i p, ∃ r w', try (task i) p = (Returned r, {| p_world := w'; p_out := p_out p; p_err := p_err p |})) →
  ∃ done' w', run_tasks (W := W) task order done p =
      (Returned done', {| p_world := w'; p_out := p_out p; p_err := p_err p |}) ∧
    dom done' = list_to_set order ∪ dom done.
Proof.
  intros Ht. revert done p. induction order as [|i order IH]; intros done p.
  { exists done, (p_world p). cbn. split; [by destruct p|set_solver]. }
  destruct (Ht i p) as (r & w1 & Hr). cbn [run_tasks]. unfold Cli.bind. rewrite Hr.
  edestruct IH as (done' & w2 & -> & Hd). exists done', w2. split; [done|]. rewrite Hd, dom_insert_L. set_solver.
Qed.

(** [prewarm-many] reports every path of the list once, in the order of the list and whatever
    the order in which the requests run, with what became of its own request. *)
Theorem prewarm_many_reports_every_path socket list_file jobs keep_warm queue priority tenant mode timeout p content
    (Hs : responsive socket) (Hf : w_read list_file (p_world p) = Ok content) :
  ∃ rs w', run_prewarm_many json_parse parse_error shape_error json_pretty json_print socket list_file jobs
      keep_warm queue priority tenant mode timeout p =
      (Returned tt, {| p_world := w'; p_err := p_err p; p_out := p_out p ++
        [format_response json_pretty json_print mode "prewarm_many"
           (obj [("count", vnat (length (list_paths content))); ("results", Array rs)])] |}) ∧
    Forall2 (λ path v, ∃ r, v = prewarm_result path (Some r)) (list_paths content) rs.
Proof.
  unfold run_prewarm_many. set (paths := list_paths content).
  set (task := λ i, send socket (prewarm_request keep_warm queue priority tenant i (default "" (paths !! i))) timeout).
  destruct (run_tasks_all task (w_schedule (length paths)) ∅ p) as (done & w' & Hr & Hdom).
  { intros i p0. destruct (try_send socket (prewarm_request keep_warm queue priority tenant i (default "" (paths !! i))) timeout p0 Hs)
      as (r & w1 & Ht & _). by exists r, w1. }
  exists (imap (λ i path, prewarm_result path (done !! i)) paths), w'. split.
  - unfold Cli.bind at 1, look. rewrite Hf. unfold Cli.bind at 1, lift, Cli.ret. fold paths. cbn zeta.
    unfold Cli.bind at 1. fold task. rewrite Hr. cbn. by rewrite length_imap.
  - apply Forall2_same_length_lookup_2; [by rewrite length_imap|]. intros i path v Hp Hv.
    rewrite list_lookup_imap, Hp in Hv. cbn in Hv. simplify_eq.
    assert (is_Some (done !! i)) as [r Hr'].
    { apply elem_of_dom. rewrite Hdom, w_schedule_all. apply elem_of_union_l, elem_of_list_to_set, elem_of_seq.
      apply lookup_lt_Some in Hp. lia. }
    exists r. by rewrite Hr'.
Qed.

(** *** The envelope *)

Lemma insert_absent_get k v m k' : obj_get k' m ≠ None → obj_get k' (insert_absent k v m) = obj_get k' m.
Proof.
  unfold insert_absent. intros Hk. destruct (obj_get k m) eqn:E; [done|].
  apply obj_get_insert_ne. intros ->. by rewrite E in Hk.
Qed.

(** A field that the line has is never replaced. *)
Lemma envelope_keeps_fields raw seq m req k :
  json_parse raw = Some (Object m) → complete raw seq = Ok req → obj_get k m ≠ None →
  ∃ m', request_from_value (Object m') = Some req ∧ obj_get k m' = obj_get k m.
Proof.
  intros Hp Hc Hk. unfold complete_envelope in Hc. rewrite Hp in Hc. cbn zeta in Hc.
  destruct (request_from_value _) as [r|] eqn:E; [|discriminate]. injection Hc as ->.
  eexists; split; [exact E|]. by do 3 (rewrite insert_absent_get; [|repeat (rewrite insert_absent_get; [|try done]); done]).
Qed.

(** A complete request is passed on as it is. *)
Theorem envelope_of_request raw seq req (Hp : json_parse raw = Some (request_to_value req)) : complete raw seq = Ok req.
Proof. unfold complete_envelope. rewrite Hp. by destruct req. Qed.
End process.

(** ** The command line and the listener together *)

From S2P Require Import Runtime RouterConfig Registry Router RouterLogic Fs ResponseCache SocketListener.
From S2P Require Import RouterOpen QueueTheorems.

(** The listener's answer to a request that names no database. *)
Definition no_path_answer : RpcResponse :=
  RpcResponse_err "1" (-32602) "CLI requires 'path' parameter to identify the target binary".

Section service.
Context `{HashOrder} (cfg : RouterConfig) (env : Env) `{CliTasks} `{CacheEnv} (io : Io).
Context (json_parse : string → option Value) (parse_error : string → string) (shape_error : Value → string).
Context (json_pretty json_print : Value → string) (parse_uri : string → result CliUri string).

(** The listener, with its router and its cache, at the other end of the socket. *)
Definition serve_line (line : string) (w : RouterState * list DirEntry) : Exchange * (RouterState * list DirEntry) :=
  match handle_cli_connection cfg env json_parse parse_error (λ r, json_print (response_to_value r)) io line w.2 ∅ w.1 with
  | Done (Some text, _, d) s => (Line text, (s, d))
  | Done (None, _, d) s => (ServerClosed, (s, d))
  | Deadlock _ => (TimedOut, w)
  end.

#[local] Program Instance service_world : CliWorld (RouterState * list DirEntry) :=
  {| w_env := λ _, None; w_exists := λ _ _, true; w_read := λ _ _, Ok ""; w_remove := λ _ w, w;
     w_open_lock := λ _ w, (Ok tt, w); w_flock := λ _ w, (true, w); w_current_exe := Ok "ida-cli";
     w_spawn := λ _ _ w, (Ok 1%Z, w); w_sleep := λ _ w, w; w_exchange := λ _ line _ w, serve_line line w;
     w_http := λ _ _ _ w, (Err "refused", w); w_schedule := seq 0 |}.
Next Obligation. done. Qed.

(** A value is read back from the line it is written on. *)
Definition read_back (v : Value) : Prop := json_parse (trim (json_print v +:+ newline)) = Some v.

(** What is left of a response on the wire: [null] reads as absent. *)
Definition received_response (r : RpcResponse) : RpcResponse :=
  {| resp_jsonrpc := resp_jsonrpc r; resp_id := resp_id r;
     resp_result := match resp_result r with Some Null => None | o => o end; resp_error := resp_error r |}.

(** An error as the listener makes it: a code that fits and no data. *)
Definition plain_error (r : RpcResponse) : Prop :=
  ∀ e, resp_error r = Some e → (- 2 ^ 63 ≤ err_code e < 2 ^ 63)%Z ∧ err_data e = None.

Lemma response_received r : plain_error r → response_from_value (response_to_value r) = Some (received_response r).
Proof.
  intros He. destruct r as [j i res [[c m d]|]].
  - destruct (He _ eq_refl) as [Hc Hd]. cbn in Hc, Hd. subst d.
    destruct res as [[]|]; lazy -[value_i64 i64_value]; by rewrite value_i64_roundtrip.
  - by destruct res as [[]|].
Qed.

#[local] Abbreviation ask := (ask json_parse parse_error shape_error json_pretty json_print).
#[local] Abbreviation handle_response := (handle_response json_pretty json_print).

(** The listener reads the request that was written, and writes the answer it made. *)
Lemma serve_request req s d resp stop s' d' answer :
  json_parse "" = None → read_back (request_to_value req) →
  dispatch_cli_request cfg env req ∅ s = Done (resp, stop) s' → guarded io (req_method req) resp d = (d', answer) →
  serve_line (json_print (request_to_value req) +:+ newline) (s, d) =
    (Line (json_print (response_to_value answer) +:+ newline), (s', d')).
Proof.
  intros Hempty Hreq Hd Hg. unfold serve_line, handle_cli_connection. unfold read_back in Hreq.
  rewrite bool_decide_false by (intros Ht; rewrite Ht in Hreq; congruence).
  rewrite Hreq. cbn [mbind option_bind]. rewrite request_roundtrip. unfold bind. cbn [fst snd].
  rewrite Hd. cbn [fst snd]. by rewrite Hg.
Qed.

Lemma ask_served socket req timeout mode s d out err resp stop s' d' answer :
  json_parse "" = None → read_back (request_to_value req) →
  dispatch_cli_request cfg env req ∅ s = Done (resp, stop) s' → guarded io (req_method req) resp d = (d', answer) →
  plain_error answer → read_back (response_to_value answer) →
  ask socket req timeout mode {| p_world := (s, d); p_out := out; p_err := err |} =
  handle_response (received_response answer) (req_method req) mode {| p_world := (s', d'); p_out := out; p_err := err |}.
Proof.
  intros Hempty Hreq Hd Hg Hplain Hresp.
  unfold Cli.ask, Cli.bind at 1, send_request, Cli.bind at 1, act, w_exchange, service_world.
  cbn [p_world p_out p_err]. rewrite (serve_request req s d resp stop s' d' answer) by done.
  unfold read_back in Hresp. rewrite Hresp, response_received by done. done.
Qed.


(** Asking for the state of a task always fails: the listener takes the request for one about a
    database. *)
Theorem task_status_command_fails args stdin socket task_id s d out err
    (Hcmd : ca_command args = TaskStatus task_id) (Hempty : json_parse "" = None)
    (Hreq : read_back (request_to_value (RpcRequest_new "1" "task_status" (obj [("task_id", VString task_id)]))))
    (Hresp : read_back (response_to_value no_path_answer)) :
  run_command json_parse parse_error shape_error json_pretty json_print parse_uri args stdin socket
    {| p_world := (s, d); p_out := out; p_err := err |} =
  (Exited, {| p_world := (s, d); p_out := out;
     p_err := err ++ ["Error: CLI requires 'path' parameter to identify the target binary"] |}).
Proof.
  unfold run_command. cbv zeta. rewrite Hcmd.
  set (req := RpcRequest_new _ _ _).
  rewrite (ask_served socket req _ _ s d out err _ _ s d _ Hempty Hreq
    (proj2 (task_status_unreachable cfg env req) eq_refl eq_refl ∅ s) eq_refl); [reflexivity| |exact Hresp].
  intros e [= <-]. split; [cbn; lia|done].
Qed.
End service.

(** ** Runs *)

Definition ask_segments : CliArgs :=
  {| ca_socket := None; ca_path := None; ca_tenant := None; ca_json := false; ca_compact := false;
     ca_timeout := 120; ca_command := ListSegments |}.

(** A printer and a parser for the two values of the run. *)
Definition sample_print (v : Value) : string := match get "method" v with Some _ => "request" | None => "response" end.
Definition sample_parse (s : string) : option Value :=
  if bool_decide (s = "request") then Some (request_to_value (RpcRequest_new "1" "list_segments" (obj [])))
  else if bool_decide (s = "response") then Some (response_to_value no_path_answer)
  else None.

#[local] Instance plain_cache : CacheEnv :=
  {| cache_var := λ _, None; to_json_string := λ _, None; default_hash := λ _, 0%Z |}.

#[local] Instance idle_tasks : CliTasks :=
  {| ct_status := ret Null; ct_task_states := ret []; ct_task_state := λ _, ret None;
     ct_enqueue_route := λ _ _ _ _ _ _, ret (Err Busy); ct_enqueue_federated := λ _ _ _ _ _ _, ret (Err Busy);
     ct_cancel_task := λ _, ret false; ct_enqueue_prewarm := λ _ _ _ _, ret (Err Busy) |}.

Definition plain_io : Io :=
  {| io_read_dir := true; io_remove := λ _, true; io_write := λ _, true; io_rename := true; io_now := 0 |}.


(** A worker that is always busy, and one command. *)
Definition busy_worker (c : WorkerCall) (s : nat) : result (reply (wc_request c)) ToolError * nat := (Err Busy, S s).

Lemma commands_ask_what_they_say_witness :
  ∃ method params, build_rpc_params (ListImports 5 2) (Some "/tmp/a.bin") None = Request method params ∧
    get "path" params = Some (VString "/tmp/a.bin") ∧ get "tenant_id" params = None ∧
    ∀ id s, dispatch_rpc busy_worker sample_parse sample_print (λ _, "") (λ _, "") (RpcRequest_new id method params) s =
      busy_worker (Worker.imports 2 5) s.
Proof.
  apply (commands_ask_what_they_say busy_worker sample_parse sample_print (λ _, "") (λ _, "") (ListImports 5 2)
    (busy_worker (Worker.imports 2 5)) (Some "/tmp/a.bin") None); [split; unfold in_u64, u64_max; lia|reflexivity].
Defined.

(** A server that gives the same answer to everything. *)
#[local] Program Instance echo_world : CliWorld () :=
  {| w_env := λ _, None; w_exists := λ _ _, true; w_read := λ _ _, Ok ""; w_remove := λ _ w, w;
     w_open_lock := λ _ w, (Ok tt, w); w_flock := λ _ w, (true, w); w_current_exe := Ok "ida-cli";
     w_spawn := λ _ _ w, (Ok 1%Z, w); w_sleep := λ _ w, w; w_exchange := λ _ _ _ w, (Line "response", w);
     w_http := λ _ _ _ w, (Err "refused", w); w_schedule := seq 0 |}.
Next Obligation. done. Qed.

Lemma pipe_answers_every_line_witness :
  ∃ rs w', run_pipe sample_parse (λ _, "") (λ _, "") sample_print "/tmp/s" None Human (Ok <$> ["request"; "  "; "{"]) 1
      {| p_world := tt; p_out := []; p_err := [] |} =
      (Returned tt, {| p_world := w'; p_out := sample_print ∘ response_to_value <$> rs; p_err := [] |}) ∧
    Forall2 (answers_line sample_parse (λ _, "") (λ _, "") sample_print "/tmp/s" None)
      [(1%Z, "request"); (2%Z, "{")] rs.
Proof.
  apply (pipe_answers_every_line sample_parse (λ _, "") (λ _, "") sample_print "/tmp/s" None Human
    ["request"; "  "; "{"] 1 {| p_world := tt; p_out := []; p_err := [] |}).
  intros text timeout w. exact I.
Defined.

(** ** Lists on the command line *)

From S2P Require Import ControlFlow Paging IdaDatabase ListHandlers.

(** The JSON of the listings (src/ida/types.rs). *)
Definition function_list_value (l : FunctionListResult) : Value :=
  obj ([("functions", Array (function_info_value <$> fl_functions l)); ("total", vz (fl_total l))] ++
       match fl_next_offset l with Some n => [("next_offset", vz n)] | None => [] end).

Definition segment_info_value (s : SegmentInfo) : Value :=
  obj [("name", VString (si_name s)); ("start", VString (si_start s)); ("end", VString (si_end s));
       ("size", vz (si_size s)); ("permissions", VString (si_permissions s)); ("type", VString (si_type s));
       ("bitness", vz (si_bitness s))].

Definition string_info_value (s : StringInfo) : Value :=
  obj [("address", VString (str_address s)); ("content", VString (str_content s)); ("length", vz (str_length s))].

Definition string_list_value (l : StringListResult) : Value :=
  obj ([("strings", Array (string_info_value <$> sl_strings l)); ("total", vz (sl_total l))] ++
       match sl_next_offset l with Some n => [("next_offset", vz n)] | None => [] end).

(** A line for a function, from the database. *)
Definition function_text (fn : Func) : string :=
  "  " +:+ fmt_hex_alt (f_start fn) +:+ "  " +:+ name_or_sub fn +:+ "  (size: " +:+ fmt_dec (f_len fn) +:+ ")".

Section lists.
Context (to_lowercase : string → string) (json_pretty : Value → string).

(** What [ida-cli list-functions] prints of a database: a line for every function of the page, of
    those that the filter lets through, in the order of the database, cut at the limit. *)
Theorem printed_functions_are_the_page db offset limit filter (Ho : in_u64 offset) (Hl : in_u64 limit) :
  ∃ l, handle_list_functions to_lowercase (Some db) offset limit filter = Ok l ∧
    let all := base.filter (λ fn, passes to_lowercase filter (name_or_sub fn) = true) (functions db) in
    let page := take (Z.to_nat limit) (drop (Z.to_nat offset) all) in
    Cli.format_function_list json_pretty (function_list_value l) =
      truncate_output (str_join newline
        (("Functions (" +:+ Cli.fmt_len page +:+ " of " +:+ Cli.fmt_len all +:+ "):") :: (function_text <$> page))).
Proof.
  unfold handle_list_functions. cbn [ok_or result_bind]. rewrite paged_spec by (destruct Ho, Hl; done).
  eexists. split; [reflexivity|]. cbv zeta.
  set (all := base.filter _ _). set (page := take _ _). set (l := {| fl_functions := _ |}).
  assert (get "functions" (function_list_value l) = Some (Array (function_info_value <$> (function_info <$> page))) ∧
          get "total" (function_list_value l) = Some (vz (Z.of_nat (length all)))) as [Hf Ht].
  { unfold function_list_value. destruct (fl_next_offset l); split; reflexivity. }
  unfold Cli.format_function_list, Cli.get_u64. rewrite Hf, Ht. cbn [mbind option_bind as_array]. unfold Cli.fmt_len.
  rewrite !length_fmap. do 3 f_equal. rewrite <-!list_fmap_compose. by apply list_fmap_ext.
Qed.

(** The text output of the segments never shows their addresses: it reads members that the answer
    does not have. *)
Theorem printed_segments_have_no_addresses segs :
  Cli.format_segment_list json_pretty (Array (segment_info_value <$> segs)) =
    truncate_output (str_join newline
      (("Segments (" +:+ Cli.fmt_len segs +:+ "):") ::
       ((λ s, "  " +:+ si_name s +:+ "  ?-?  " +:+ si_permissions s) <$> segs))).
Proof.
  unfold Cli.format_segment_list. cbn [as_array]. unfold Cli.fmt_len. rewrite length_fmap.
  do 3 f_equal. rewrite <-list_fmap_compose. by apply list_fmap_ext.
Qed.

(** Nor does that of the strings show the strings. *)
Theorem printed_strings_have_no_text l :
  Cli.format_string_list json_pretty (string_list_value l) =
    truncate_output (str_join newline
      (("Strings (" +:+ Cli.fmt_len (sl_strings l) +:+ " of " +:+ fmt_dec (sl_total l) +:+ "):") ::
       ((λ s, "  " +:+ str_address s +:+ "  " +:+ quote +:+ "?" +:+ quote) <$> sl_strings l))).
Proof.
  assert (get "strings" (string_list_value l) = Some (Array (string_info_value <$> sl_strings l)) ∧
          get "total" (string_list_value l) = Some (vz (sl_total l))) as [Hs Ht]
    by (destruct l as [ss t [n|]]; done).
  unfold Cli.format_string_list, Cli.get_u64. rewrite Hs, Ht. cbn [mbind option_bind as_array]. unfold Cli.fmt_len.
  rewrite length_fmap. do 3 f_equal. rewrite <-list_fmap_compose. by apply list_fmap_ext.
Qed.
End lists.
