(* ===== verification/Gateway.v ===== *)
(** * The HTTP gateway (src/main.rs, [GatewayService])

    The HTTP server puts a gateway before the MCP service: some addresses show the router's
    state, some change its tasks and its federation nodes, and any other request goes on to the
    MCP service.  Requests that are not answered at once take one of a fixed number of permits,
    and keep it until they are answered or dropped; [gate_step] interleaves them.  The JSON form
    of the router's status and the form of its metrics are written out.

    Parameters: [serde_json]'s parser and messages, the JSON form of a binary64 number, and the
    MCP service. *)

From Stdlib Require Import Ascii.
From stdpp Require Import base gmap strings numbers list.
From S2P Require Import Prelude RustStr Json ToolError Serde F64 Runtime RouterConfig Protocol Registry.
From S2P Require Import Cli.
From S2P Require Import Router RouterLogic WarmPool Tasks Queue TaskQueues Fs IdbStore ResponseCache Federation Status SocketListener.

Open Scope ida_scope.

(** ** The status as JSON *)

Definition opt_str (o : option string) : Value := opt_value (VString <$> o).
Definition opt_num (o : option Z) : Value := opt_value (vz <$> o).
Definition counts_json (m : gmap string nat) : Value := obj ((λ kv, (kv.1, vnat kv.2)) <$> map_to_list m).

Definition version_json (v : IdaRuntimeVersion) : Value :=
  obj [("major", i64_value (major v)); ("minor", i64_value (minor v)); ("build", i64_value (build v))].

Definition probe_json (p : RuntimeProbeResult) : Value :=
  let base := obj [("runtime", opt_value (version_json <$> runtime p));
                   ("backend", opt_str (as_cli_arg <$> backend p));
                   ("supported", Bool (supported p)); ("reason", opt_str (reason p))] in
  match supported_methods p, base with
  | Some ms, Object m => Object (obj_insert "supported_methods" (Array (VString <$> ms)) m)
  | _, _ => base
  end.

Definition worker_status_json (w : WorkerStatus) : Value :=
  obj [("handle", VString (ws_handle w)); ("backend", VString (ws_backend w)); ("tenant_id", VString (ws_tenant_id w));
       ("pid", opt_num (ws_pid w)); ("open_path", opt_str (ws_open_path w));
       ("pending_requests", vnat (ws_pending_requests w)); ("ref_count", vnat (ws_ref_count w));
       ("idle_secs", vz (ws_idle_secs w)); ("active", Bool (ws_active w))].

Definition warm_status_json (l : WarmLeaseStatus) : Value :=
  obj [("path", VString (wls_path l)); ("handle", VString (wls_handle l)); ("tenant_id", VString (wls_tenant_id l));
       ("cache_path", opt_str (wls_cache_path l)); ("pinned_secs", vz (wls_pinned_secs l));
       ("idle_secs", vz (wls_idle_secs l))].

Definition prewarm_status_json (t : PrewarmTaskStatus) : Value :=
  obj [("task_id", VString (ps_task_id t)); ("path", VString (ps_path t)); ("tenant_id", VString (ps_tenant_id t));
       ("priority", vz (ps_priority t)); ("keep_warm", Bool (ps_keep_warm t)); ("state", VString (ps_state t));
       ("age_secs", vz (ps_age_secs t))].

Definition route_status_json (t : RouteTaskStatus) : Value :=
  obj [("task_id", VString (rs_task_id t)); ("path", VString (rs_path t)); ("method", VString (rs_method t));
       ("tenant_id", VString (rs_tenant_id t)); ("priority", vz (rs_priority t)); ("state", VString (rs_state t));
       ("age_secs", vz (rs_age_secs t))].

Definition idb_stats_json (s : IdbStoreStats) : Value :=
  obj [("root", VString (ss_root s)); ("file_count", vnat (ss_file_count s)); ("entry_count", vnat (ss_entry_count s));
       ("total_size_bytes", vz (ss_total_size_bytes s))].

Definition cache_stats_json (s : ResponseCacheStats) : Value :=
  obj [("dir", VString (rs_dir s)); ("file_count", vnat (rs_file_count s)); ("total_size_bytes", vz (rs_total_size_bytes s))].

Section json.
Context (f64_value : f64 → Value).

Definition node_status_json (n : FederationNodeStatus) : Value :=
  obj [("name", VString (fs_name n)); ("url", VString (fs_url n)); ("enabled", Bool (fs_enabled n));
       ("source", VString (fs_source n)); ("last_seen_iso", opt_str (fs_last_seen_iso n));
       ("capabilities", Array (VString <$> fs_capabilities n)); ("tenant_allow", Array (VString <$> fs_tenant_allow n));
       ("node_id", opt_str (fs_node_id n)); ("healthy", Bool (fs_healthy n)); ("ready", Bool (fs_ready n));
       ("worker_count", opt_num (fs_worker_count n)); ("max_workers", opt_num (fs_max_workers n));
       ("route_queue_depth", opt_num (fs_route_queue_depth n));
       ("prewarm_queue_depth", opt_num (fs_prewarm_queue_depth n));
       ("load_score", opt_value (f64_value <$> fs_load_score n)); ("detail", VString (fs_detail n));
       ("stale", Bool (fs_stale n))].

Definition status_json (s : RouterStatus) : Value :=
  let c := st_config s in
  obj [("worker_count", vnat (st_worker_count s)); ("active_handle", opt_str (st_active_handle s));
       ("max_workers", vz (max_workers c)); ("max_workers_per_tenant", vz (max_workers_per_tenant c));
       ("max_pending_per_worker", vz (max_pending_per_worker c));
       ("max_pending_per_tenant", vz (max_pending_per_tenant c));
       ("max_concurrent_spawns", vz (max_concurrent_spawns c)); ("max_warm_workers", vz (max_warm_workers c));
       ("max_queued_prewarms", vz (max_queued_prewarms c)); ("max_active_prewarms", vz (max_active_prewarms c));
       ("max_prewarms_per_tenant", vz (max_prewarms_per_tenant c));
       ("max_idb_cache_bytes", vz (max_idb_cache_bytes c));
       ("max_response_cache_bytes", vz (max_response_cache_bytes c)); ("max_queued_tasks", vz (max_queued_tasks c));
       ("max_active_tasks", vz (max_active_tasks c)); ("max_tasks_per_tenant", vz (max_tasks_per_tenant c));
       ("node_id", VString (node_id c)); ("runtime_probe", opt_value (probe_json <$> st_runtime_probe s));
       ("backend_counts", counts_json (st_backend_counts s));
       ("tenant_worker_counts", counts_json (st_tenant_worker_counts s));
       ("tenant_pending_counts", counts_json (st_tenant_pending_counts s));
       ("workers", Array (worker_status_json <$> st_workers s));
       ("warm_pool", Array (warm_status_json <$> st_warm_pool s));
       ("prewarm_queue", Array (prewarm_status_json <$> st_prewarm_queue s));
       ("prewarm_active", Array (prewarm_status_json <$> st_prewarm_active s));
       ("prewarm_recent", Array (st_prewarm_recent s));
       ("route_queue", Array (route_status_json <$> st_route_queue s));
       ("route_active", Array (route_status_json <$> st_route_active s));
       ("recent_tasks", Array (st_recent_tasks s)); ("idb_cache", idb_stats_json (st_idb_cache s));
       ("response_cache", cache_stats_json (st_response_cache s));
       ("federation_nodes", Array (node_status_json <$> st_federation_nodes s))].
End json.

(** ** Metrics *)

Definition gauge (name help value : string) : list string :=
  ["# HELP " +:+ name +:+ " " +:+ help; "# TYPE " +:+ name +:+ " gauge"; name +:+ " " +:+ value].

(** A sample with one label; the value of the label is not escaped. *)
Definition labelled (name label : string) (kn : string * nat) : string :=
  name +:+ "{" +:+ label +:+ "=" +:+ quote +:+ kn.1 +:+ quote +:+ "} " +:+ fmt_dec (Z.of_nat kn.2).

Definition probe_metric (p : RuntimeProbeResult) : string :=
  "ida_cli_runtime_probe{backend=" +:+ quote +:+ default "" (as_cli_arg <$> backend p) +:+ quote +:+
  ",version=" +:+ quote +:+ default "" (version_to_string <$> runtime p) +:+ quote +:+ "} " +:+
  (if supported p then "1" else "0").

Definition metrics_lines `{HashOrder} (s : RouterStatus) : list string :=
  let c := st_config s in
  let len {A} (l : list A) := fmt_dec (Z.of_nat (length l)) in
  gauge "ida_cli_workers" "Number of live workers" (fmt_dec (Z.of_nat (st_worker_count s))) ++
  gauge "ida_cli_max_workers" "Configured worker limit" (fmt_dec (max_workers c)) ++
  gauge "ida_cli_max_pending_per_worker" "Configured per-worker queue limit" (fmt_dec (max_pending_per_worker c)) ++
  gauge "ida_cli_max_workers_per_tenant" "Configured per-tenant worker limit" (fmt_dec (max_workers_per_tenant c)) ++
  gauge "ida_cli_max_pending_per_tenant" "Configured per-tenant pending limit" (fmt_dec (max_pending_per_tenant c)) ++
  gauge "ida_cli_max_concurrent_spawns" "Configured concurrent spawn limit" (fmt_dec (max_concurrent_spawns c)) ++
  gauge "ida_cli_warm_pool_size" "Number of warm leased workers" (len (st_warm_pool s)) ++
  gauge "ida_cli_prewarm_queue_depth" "Number of queued prewarm tasks" (len (st_prewarm_queue s)) ++
  gauge "ida_cli_prewarm_active" "Number of active prewarm tasks" (len (st_prewarm_active s)) ++
  gauge "ida_cli_idb_cache_bytes" "Size of cached databases in bytes" (fmt_dec (ss_total_size_bytes (st_idb_cache s))) ++
  gauge "ida_cli_response_cache_bytes" "Size of cached responses in bytes"
    (fmt_dec (rs_total_size_bytes (st_response_cache s))) ++
  (labelled "ida_cli_backend_workers" "backend" <$> hash_iter (st_backend_counts s)) ++
  (labelled "ida_cli_tenant_workers" "tenant" <$> hash_iter (st_tenant_worker_counts s)) ++
  (labelled "ida_cli_tenant_pending" "tenant" <$> hash_iter (st_tenant_pending_counts s)) ++
  match st_runtime_probe s with Some p => [probe_metric p] | None => [] end.

Definition metrics_body `{HashOrder} (s : RouterStatus) : string := str_join newline (metrics_lines s) +:+ newline.

(** ** Nodes in a request body *)

Definition FederationNodeConfigFields : list Field :=
  [field "name" [] string_codec; field "url" [] string_codec; field_default "weight" u32_codec 1%Z;
   field_default "enabled" bool_codec true; field_default "capabilities" (vec_codec string_codec) [];
   field_default "tenant_allow" (vec_codec string_codec) [];
   field_default "node_id" (option_codec string_codec) None].

Definition node_of (r : Struct FederationNodeConfigFields) : FederationNodeConfig :=
  {| n_name := r @ "name"; n_url := r @ "url"; n_weight := r @ "weight"; n_enabled := r @ "enabled";
     n_capabilities := r @ "capabilities"; n_tenant_allow := r @ "tenant_allow"; n_node_id := r @ "node_id" |}.

Definition node_from_value (v : Value) : result FederationNodeConfig DeError :=
  let? r := de_struct "FederationNodeConfig" FederationNodeConfigFields v in Ok (node_of r).

(** ** Requests *)

Inductive Method : Type := GET | POST | OtherMethod (name : string).

#[export] Instance Method_eq_dec : EqDecision Method.
Proof. solve_decision. Defined.

(** [hr_origin] is the [Origin] header when it is text, [hr_body] the collected body. *)
Record HttpRequest : Type := {
  hr_method : Method;
  hr_path : string;
  hr_origin : option string;
  hr_body : result string string
}.

Inductive Response (R : Type) : Type :=
| JsonResponse (status : Z) (v : Value)
| TextResponse (status : Z) (content_type : option string) (body : string)
| FromService (r : R).
Arguments JsonResponse {R} _ _.
Arguments TextResponse {R} _ _ _.
Arguments FromService {R} _.

Definition error_json (status : Z) (e : string) {R} : Response R := JsonResponse status (obj [("error", VString e)]).

Definition forbidden {R} : Response R := TextResponse 403 None "Forbidden".
Definition overloaded {R} : Response R :=
  JsonResponse 503 (obj [("ok", Bool false); ("error", VString "server overloaded");
                         ("reason", VString "max in-flight request limit reached")]).

(** [--allow-origin], as [run_server_http] reads it. *)
Definition allowed_origins (args : list string) : gset string := list_to_set (filter (λ s, s ≠ "") (trim <$> args)).

Definition Nodes : Type := gmap string FederationNodeRecord.

Section gateway.
Context `{HashOrder} (cfg : RouterConfig) (env : Env) (elapsed : Z → Z) (child_pid : string → option Z) (view : StatusView).
Context `{CliTasks} `{NetEnv} (f64_value : f64 → Value) (de_message : DeError → string).
Context {R : Type} (service : HttpRequest → M R) (origins : gset string).

(** *** Addresses that show the router's state *)

(** [status_snapshot] and [status_snapshot_federated] *)
Definition snapshot (nodes : option (Z * Nodes)) : M RouterStatus :=
  let probed := match nodes with Some (now, t) => probe_nodes now (federation_nodes_snapshot t) | None => [] end in
  status_snapshot_inner cfg env elapsed child_pid
    {| sv_prewarm := sv_prewarm view; sv_route := sv_route view; sv_tasks := sv_tasks view;
       sv_idb_cache := sv_idb_cache view; sv_response_cache := sv_response_cache view; sv_federation := probed |}.

Definition readyz : M (Response R) :=
  status <- snapshot None ;;
  let ready := match st_runtime_probe status with Some p => supported p | None => false end in
  ret (JsonResponse (if ready then 200 else 503)
    (obj [("ok", Bool ready); ("runtime_probe", opt_value (probe_json <$> st_runtime_probe status));
          ("worker_count", vnat (st_worker_count status)); ("max_workers", vz (max_workers (st_config status)))])).

Definition taskz (task_id : string) : M (Response R) :=
  st <- ct_task_state task_id ;;
  ret (match st with Some v => JsonResponse 200 v | None => error_json 404 "unknown task_id" end).

(** The [GET] requests that are answered before anything is checked. *)
Definition gateway_get (now : Z) (path : string) (nodes : Nodes) : option (M (Response R)) :=
  if bool_decide (path = "/healthz") then
    Some (ret (JsonResponse 200 (obj [("ok", Bool true); ("service", VString "ida-cli")])))
  else if bool_decide (path = "/readyz") then Some readyz
  else if bool_decide (path = "/statusz") then
    Some (s <- snapshot (Some (now, nodes)) ;; ret (JsonResponse 200 (status_json f64_value s)))
  else if bool_decide (path = "/federationz") then
    Some (ret (JsonResponse 200 (obj [("nodes", Array (node_status_json f64_value <$>
                                         probe_nodes now (federation_nodes_snapshot nodes)))])))
  else if bool_decide (path = "/metrics") then
    Some (s <- snapshot None ;; ret (TextResponse 200 (Some "text/plain; version=0.0.4") (metrics_body s)))
  else if bool_decide (path = "/tasksz") then
    Some (ts <- ct_task_states ;; ret (JsonResponse 200 (obj [("tasks", Array ts)])))
  else taskz <$> strip_prefix "/taskz/" path.

(** *** Addresses that change it *)

(** The body as JSON, or the answer to a request without one. *)
Definition json_body (what : string) (req : HttpRequest) : result Value (Response R) :=
  match hr_body req with
  | Err e => Err (error_json 400 ("invalid request body: " +:+ e))
  | Ok body => match parse_json body with
               | Ok v => Ok v
               | Err e => Err (error_json 400 ("invalid " +:+ what +:+ ": " +:+ e))
               end
  end.

Definition enqueuez (req : HttpRequest) : M (Response R) :=
  match json_body "json" req with
  | Err r => ret r
  | Ok v =>
      let params := default (obj []) (get "task_params" v) in
      match param_str "path" v, param_str "method" v with
      | Some path, Some method =>
          res <- (if param_bool "federate" v
                  then ct_enqueue_federated path method params (param_str "tenant_id" v) (param_priority v) (param_str "dedupe_key" v)
                  else ct_enqueue_route path method params (param_str "tenant_id" v) (param_priority v) (param_str "dedupe_key" v)) ;;
          ret (match res with
               | Ok v => JsonResponse 200 v
               | Err e => error_json 503 (error_to_string e)
               end)
      | _, _ => ret (error_json 400 "enqueuez requires path and method")
      end
  end.

(** A node in the body; [what] names it in the error. *)
Definition node_body (what : string) (req : HttpRequest) : result FederationNodeConfig (Response R) :=
  let? v := json_body what req in
  match node_from_value v with
  | Ok n => Ok n
  | Err e => Err (error_json 400 ("invalid " +:+ what +:+ ": " +:+ de_message e))
  end.

Definition register (req : HttpRequest) (nodes : Nodes) : Response R * Nodes :=
  match node_body "federation node json" req with
  | Err r => (r, nodes)
  | Ok node => let '(nodes, v) := register_federation_node node nodes in (JsonResponse 200 v, nodes)
  end.

Definition heartbeat (now : Z) (iso : string) (req : HttpRequest) (nodes : Nodes) : Response R * Nodes :=
  match node_body "federation heartbeat json" req with
  | Err r => (r, nodes)
  | Ok node => let '(nodes, v) := heartbeat_federation_node now iso node nodes in (JsonResponse 200 v, nodes)
  end.

Definition unregister_node (req : HttpRequest) (nodes : Nodes) : Response R * Nodes :=
  match json_body "json" req with
  | Err r => (r, nodes)
  | Ok v =>
      match param_str "name" v with
      | None => (error_json 400 "missing federation node name", nodes)
      | Some name => let '(nodes, v) := unregister_federation_node name nodes in (JsonResponse 200 v, nodes)
      end
  end.

(** What a request that has a permit does. *)
Definition gateway_run (now : Z) (iso : string) (req : HttpRequest) (nodes : Nodes) : M (Response R * Nodes) :=
  let posts p := bool_decide (hr_method req = POST) && bool_decide (hr_path req = p) in
  if posts "/enqueuez" then r <- enqueuez req ;; ret (r, nodes)
  else if posts "/federationz/register" then ret (register req nodes)
  else if posts "/federationz/heartbeat" then ret (heartbeat now iso req nodes)
  else if posts "/federationz/unregister" then ret (unregister_node req nodes)
  else r <- service req ;; ret (FromService r, nodes).

(** The [GET] requests and those of a foreign origin never reach the permits. *)
Definition at_once (now : Z) (req : HttpRequest) (nodes : Nodes) : option (M (Response R)) :=
  match (if bool_decide (hr_method req = GET) then gateway_get now (hr_path req) nodes else None) with
  | Some m => Some m
  | None =>
      match hr_origin req with
      | Some origin => if bool_decide (origin ∈ origins) then None else Some (ret forbidden)
      | None => None
      end
  end.

(** [call], where [permit] says whether a permit is free. *)
Definition gateway_call (now : Z) (iso : string) (permit : bool) (req : HttpRequest) (nodes : Nodes) :
    M (Response R * Nodes) :=
  match at_once now req nodes with
  | Some m => r <- m ;; ret (r, nodes)
  | None => if permit then gateway_run now iso req nodes else ret (overloaded, nodes)
  end.

(** ** Requests at the same time *)

Record Gate : Type := {
  gt_free : nat;                          (* permits of the semaphore *)
  gt_running : gmap nat HttpRequest;      (* requests that hold one *)
  gt_nodes : Nodes;
  gt_router : RouterState;
  gt_answered : list (nat * Response R)
}.

(** [Semaphore::new(max_inflight_requests.max(1))] *)
Definition gate_new (max_inflight : nat) (nodes : Nodes) (r : RouterState) : Gate :=
  {| gt_free := Nat.max max_inflight 1; gt_running := ∅; gt_nodes := nodes; gt_router := r; gt_answered := [] |}.

Inductive gate_step : Gate → Gate → Prop :=
| gate_at_once i now req m resp r' g :
    at_once now req (gt_nodes g) = Some m → m ∅ (gt_router g) = Done resp r' →
    gate_step g {| gt_free := gt_free g; gt_running := gt_running g; gt_nodes := gt_nodes g; gt_router := r';
                   gt_answered := gt_answered g ++ [(i, resp)] |}
| gate_enter i now req g :
    at_once now req (gt_nodes g) = None → gt_running g !! i = None → 0 < gt_free g →
    gate_step g {| gt_free := gt_free g - 1; gt_running := <[i := req]> (gt_running g); gt_nodes := gt_nodes g;
                   gt_router := gt_router g; gt_answered := gt_answered g |}
| gate_refuse i now req g :
    at_once now req (gt_nodes g) = None → gt_free g = 0 →
    gate_step g {| gt_free := 0; gt_running := gt_running g; gt_nodes := gt_nodes g; gt_router := gt_router g;
                   gt_answered := gt_answered g ++ [(i, overloaded)] |}
| gate_finish i now iso req resp nodes' r' g :
    gt_running g !! i = Some req → gateway_run now iso req (gt_nodes g) ∅ (gt_router g) = Done (resp, nodes') r' →
    gate_step g {| gt_free := S (gt_free g); gt_running := delete i (gt_running g); gt_nodes := nodes';
                   gt_router := r'; gt_answered := gt_answered g ++ [(i, resp)] |}
| gate_drop i req g :
    gt_running g !! i = Some req →
    gate_step g {| gt_free := S (gt_free g); gt_running := delete i (gt_running g); gt_nodes := gt_nodes g;
                   gt_router := gt_router g; gt_answered := gt_answered g |}.
End gateway.

(** * What the gateway guarantees

    Permits are never lost and never too many; a foreign origin changes nothing; a node that is
    posted is the node that is stored; and the status that the command line prints is the
    router's.  Readiness and metrics cannot be asked before the first probe. *)

Section guarantees.
Context `{HashOrder} (cfg : RouterConfig) (env : Env) (elapsed : Z → Z) (child_pid : string → option Z) (view : StatusView).
Context `{CliTasks} `{NetEnv} (f64_value : f64 → Value) (de_message : DeError → string).
Context {R : Type} (service : HttpRequest → M R) (origins : gset string).

#[local] Abbreviation call := (gateway_call cfg env elapsed child_pid view f64_value de_message service origins).
#[local] Abbreviation run := (gateway_run de_message service).
#[local] Abbreviation step := (gate_step cfg env elapsed child_pid view f64_value de_message service origins).

(** ** Permits *)

Lemma size_taken {A} (m : gmap nat A) i x : m !! i = Some x → S (size (delete i m)) = size m.
Proof.
  intros Hx. rewrite <-(insert_delete_id m i x) at 2 by done.
  by rewrite map_size_insert_None by apply lookup_delete_eq.
Qed.

Lemma gate_step_permits g g' : step g g' →
  gt_free g' + size (gt_running g') = gt_free g + size (gt_running g).
Proof.
  destruct 1 as [| | |? ? ? ? ? ? ? ? Hr|? ? ? Hr]; cbn; try done.
  - rewrite map_size_insert_None by done. lia.
  - lia.
  - rewrite <-(size_taken _ _ _ Hr). lia.
  - rewrite <-(size_taken _ _ _ Hr). lia.
Qed.

Lemma gate_run_permits g g' : rtc step g g' →
  gt_free g' + size (gt_running g') = gt_free g + size (gt_running g).
Proof. induction 1 as [|g1 g2 g3 Hs _ IH]; [done|]. by rewrite IH, (gate_step_permits _ _ Hs). Qed.


(** ** Foreign origins *)

(** Reading tasks changes nothing. *)
Definition reads {A} (m : M A) : Prop := ∀ s a s', m ∅ s = Done a s' → s' = s.

Lemma reads_snapshot nodes : reads (snapshot cfg env elapsed child_pid view nodes).
Proof.
  intros s a s'. unfold snapshot. destruct (rt_cached_probe s) as [p|] eqn:E.
  - rewrite (status_snapshot_run cfg env elapsed child_pid _ s p E). by intros [= _ <-].
  - unfold status_snapshot_inner, cached_or_probed, probe_worker_backend, bind, with_lock, get_st, ret.
    rewrite bool_decide_false by set_solver. rewrite E. rewrite bool_decide_false by set_solver.
    by rewrite bool_decide_true by set_solver.
Qed.

(** Changes nothing, and the answer is the gateway's own. *)
Definition shows (m : M (Response R)) : Prop :=
  ∀ s a s', m ∅ s = Done a s' → s' = s ∧ ∀ r, a ≠ FromService r.

Lemma shows_ret a : (∀ r, a ≠ FromService r) → shows (ret a).
Proof. by intros Ha s b s' [= <- <-]. Qed.

Lemma shows_bind {A} (m : M A) (f : A → M (Response R)) : reads m → (∀ a, shows (f a)) → shows (bind m f).
Proof.
  intros Hm Hf s b s'. unfold bind. destruct (m ∅ s) as [a s1|] eqn:E; [|done].
  apply Hm in E as ->. apply Hf.
Qed.

#[local] Hint Resolve shows_bind reads_snapshot : core.
#[local] Hint Extern 1 (shows (ret _)) => apply shows_ret; intros ?; repeat case_match; discriminate : core.

Lemma shows_get now path nodes m :
  reads ct_task_states → (∀ t, reads (ct_task_state t)) →
  gateway_get cfg env elapsed child_pid view f64_value now path nodes = Some m → shows m.
Proof.
  intros Hts Ht. unfold gateway_get, readyz, taskz.
  repeat (case_bool_decide; [intros [= <-]; auto|]).
  intros (t & _ & ->)%fmap_Some. auto.
Qed.

(** C23: A request whose [Origin] is not allowed changes neither the router nor its federation
    nodes and never reaches the MCP service: it is refused, or it is one of the [GET] requests
    that show the router's state, which are answered whatever the origin is. *)
Theorem foreign_origin_changes_nothing now iso permit req nodes origin s resp nodes' s'
    (Hreads : reads ct_task_states) (Hread : ∀ t, reads (ct_task_state t))
    (Horigin : hr_origin req = Some origin) (Hforeign : origin ∉ origins)
    (Hcall : call now iso permit req nodes ∅ s = Done (resp, nodes') s') :
  nodes' = nodes ∧ s' = s ∧ (∀ r, resp ≠ FromService r) ∧
  (hr_method req ≠ GET → resp = forbidden).
Proof.
  unfold gateway_call, at_once in Hcall. rewrite Horigin, (bool_decide_false (origin ∈ origins)) in Hcall by done.
  destruct (decide (hr_method req = GET)) as [HG|HG].
  - rewrite bool_decide_true in Hcall by done. destruct (gateway_get _ _ _ _ _ _ _ _ _) as [m|] eqn:E.
    + apply shows_get in E; [|done|done]. unfold bind in Hcall. destruct (m ∅ s) as [r s1|l] eqn:Em; [|discriminate Hcall].
      apply E in Em as [-> Hr]. injection Hcall as <- <- <-. split_and!; [done|done|exact Hr|by intros []].
    + injection Hcall as <- <- <-. split_and!; [done..|by intros []].
  - rewrite bool_decide_false in Hcall by done. injection Hcall as <- <- <-. by split_and!.
Qed.

(** ** Before the first probe *)

(** On a router that has not probed its runtime, [/readyz], [/statusz] and [/metrics] never
    answer: the snapshot waits for a mutex that its own task holds. *)
Theorem readiness_hangs_before_probe now iso permit req nodes s
    (Hm : hr_method req = GET) (Hp : hr_path req ∈ ["/readyz"; "/statusz"; "/metrics"])
    (Hprobe : rt_cached_probe s = None) :
  call now iso permit req nodes ∅ s = Deadlock LProbe.
Proof.
  assert (∀ n, snapshot cfg env elapsed child_pid view n ∅ s = Deadlock LProbe) as Hs.
  { intros n. unfold snapshot, status_snapshot_inner, cached_or_probed, probe_worker_backend, bind, with_lock, get_st, ret.
    rewrite bool_decide_false by set_solver. rewrite Hprobe. rewrite bool_decide_false by set_solver.
    by rewrite bool_decide_true by set_solver. }
  unfold gateway_call, at_once. rewrite bool_decide_true by done.
  assert (hr_path req = "/readyz" ∨ hr_path req = "/statusz" ∨ hr_path req = "/metrics") as Hp' by set_solver.
  unfold gateway_get. destruct Hp' as [-> | [-> | ->]]; repeat (rewrite bool_decide_false by done);
    rewrite bool_decide_true by done; unfold readyz, bind; by rewrite Hs.
Qed.

(** ** Federation over HTTP *)

Lemma de_u32 w : (0 ≤ w ≤ 2 ^ 32 - 1)%Z → de_int "u32" 0 (2 ^ 32 - 1) (vz w) = Ok w.
Proof.
  intros Hw. unfold de_int, vz. by rewrite (proj2 (Z.leb_le 0 w)), (proj2 (Z.leb_le w (2 ^ 32 - 1))) by lia.
Qed.

Lemma node_json_read n : (0 ≤ n_weight n ≤ 2 ^ 32 - 1)%Z → node_from_value (node_json n) = Ok n.
Proof.
  destruct n as [name url w en caps tenants id]. cbn [n_weight]. intros Hw. unfold node_from_value.
  assert (de_int "u32" 0 (2 ^ 32 - 1) (vz w) = Ok w) as Hi by (by apply de_u32).
  assert (∀ l : list string, collect (de_string <$> (VString <$> l)) = Ok l) as Hl.
  { intros l. apply collect_ok_iff. induction l as [|x l IH]; [done|]. cbn. by rewrite IH. }
  destruct id; cbv -[de_int vz Z.pow Z.sub collect fmap list_fmap de_string];
    repeat (first [rewrite Hl | rewrite Hi]; cbv -[de_int vz Z.pow Z.sub collect fmap list_fmap de_string]); reflexivity.
Qed.

(** The body that [ida-cli federation-register] sends: the fields it leaves out are the defaults. *)
Lemma register_body_read name url w : (0 ≤ w ≤ 2 ^ 32 - 1)%Z →
  node_from_value (obj [("name", VString name); ("url", VString url); ("weight", vz w); ("enabled", Bool true)]) =
    Ok {| n_name := name; n_url := url; n_weight := w; n_enabled := true; n_capabilities := []; n_tenant_allow := [];
          n_node_id := None |}.
Proof.
  intros Hw. assert (de_int "u32" 0 (2 ^ 32 - 1) (vz w) = Ok w) as Hi by (by apply de_u32).
  unfold node_from_value. cbv -[de_int vz Z.pow Z.sub]. rewrite Hi. reflexivity.
Qed.

(** A node that is posted is stored as it was written, under its name and under no other: by
    [/federationz/register] as a new record that replaces an older one, by
    [/federationz/heartbeat] as a record that was seen now.  The other nodes, the router and the
    MCP service are not touched, and the answer carries the node. *)
Theorem posted_node_is_stored now iso req body n nodes s
    (Hm : hr_method req = POST) (Hb : hr_body req = Ok body) (Hj : parse_json body = Ok (node_json n))
    (Hw : (0 ≤ n_weight n ≤ 2 ^ 32 - 1)%Z) :
  (hr_path req = "/federationz/register" →
   run now iso req nodes ∅ s =
     Done (JsonResponse 200 (obj [("ok", Bool true); ("replaced", Bool (bool_decide (is_Some (nodes !! n_name n))));
                                  ("node", node_json n)]),
           <[n_name n := node_record_new n "dynamic"]> nodes) s) ∧
  (hr_path req = "/federationz/heartbeat" →
   run now iso req nodes ∅ s =
     Done (JsonResponse 200 (obj [("ok", Bool true); ("node", node_json n)]),
           <[n_name n := {| nr_config := n; nr_source := "heartbeat"; nr_last_seen_at := Some now; nr_last_seen_iso := Some iso |}]> nodes) s).
Proof.
  assert (∀ what, node_body (R := R) de_message what req = Ok n) as Hn.
  { intros what. unfold node_body, json_body. rewrite Hb, Hj. cbn [result_bind]. by rewrite node_json_read. }
  split; intros Hp; unfold gateway_run; cbv zeta; rewrite Hp, Hm, (bool_decide_true (POST = POST)) by done; cbn [andb];
    repeat (rewrite (bool_decide_false (_ = _)) by done); rewrite bool_decide_true by done.
  - unfold register. by rewrite Hn.
  - unfold heartbeat. by rewrite Hn.
Qed.
End guarantees.

(** ** The status on the command line *)

(** A line of the status for a worker, from the record. *)
Definition worker_text (w : WorkerStatus) : string :=
  "  " +:+ ws_handle w +:+ " backend=" +:+ ws_backend w +:+ " tenant=" +:+ ws_tenant_id w +:+
  " pending=" +:+ fmt_dec (Z.of_nat (ws_pending_requests w)) +:+ " refs=" +:+ fmt_dec (Z.of_nat (ws_ref_count w)) +:+
  " idle=" +:+ fmt_dec (ws_idle_secs w) +:+ "s path=" +:+ default "-" (ws_open_path w).

Definition cache_text (name : string) (files : nat) (bytes : Z) : string :=
  name +:+ ": " +:+ fmt_dec (Z.of_nat files) +:+ " files, " +:+ fmt_dec bytes +:+ " bytes".

(** What [ida-cli status] should print. *)
Definition status_text (s : RouterStatus) : list string :=
  let c := st_config s in
  ["worker_count: " +:+ fmt_dec (Z.of_nat (st_worker_count s)); "max_workers: " +:+ fmt_dec (max_workers c);
   "max_workers_per_tenant: " +:+ fmt_dec (max_workers_per_tenant c);
   "max_pending_per_worker: " +:+ fmt_dec (max_pending_per_worker c);
   "max_pending_per_tenant: " +:+ fmt_dec (max_pending_per_tenant c);
   "max_concurrent_spawns: " +:+ fmt_dec (max_concurrent_spawns c);
   "active_handle: " +:+ default "-" (st_active_handle s);
   "runtime_backend: " +:+ default "none" (st_runtime_probe s ≫= λ p, as_cli_arg <$> backend p) +:+ " (supported=" +:+
     Cli.fmt_bool (match st_runtime_probe s with Some p => supported p | None => false end) +:+ ")";
   cache_text "idb_cache" (ss_file_count (st_idb_cache s)) (ss_total_size_bytes (st_idb_cache s));
   cache_text "response_cache" (rs_file_count (st_response_cache s)) (rs_total_size_bytes (st_response_cache s))] ++
  match st_workers s with [] => ["workers: []"] | ws => "workers:" :: (worker_text <$> ws) end.

Lemma worker_line_text w : Cli.worker_line (worker_status_json w) = worker_text w.
Proof. destruct w as [h b t pid [p|] n r i a]; reflexivity. Qed.

(** The members of the status that the command line reads. *)
Lemma status_members f64_value s :
  let v := status_json f64_value s in
  get "worker_count" v = Some (vnat (st_worker_count s)) ∧
  get "max_workers" v = Some (vz (max_workers (st_config s))) ∧
  get "max_workers_per_tenant" v = Some (vz (max_workers_per_tenant (st_config s))) ∧
  get "max_pending_per_worker" v = Some (vz (max_pending_per_worker (st_config s))) ∧
  get "max_pending_per_tenant" v = Some (vz (max_pending_per_tenant (st_config s))) ∧
  get "max_concurrent_spawns" v = Some (vz (max_concurrent_spawns (st_config s))) ∧
  get "active_handle" v = Some (opt_str (st_active_handle s)) ∧
  get "runtime_probe" v = Some (opt_value (probe_json <$> st_runtime_probe s)) ∧
  get "idb_cache" v = Some (idb_stats_json (st_idb_cache s)) ∧
  get "response_cache" v = Some (cache_stats_json (st_response_cache s)) ∧
  get "workers" v = Some (Array (worker_status_json <$> st_workers s)).
Proof. by split_and!. Qed.

Lemma probe_line p :
  Cli.get_str "backend" "none" (opt_value (probe_json <$> p)) = default "none" (p ≫= λ p, as_cli_arg <$> backend p) ∧
  default false (get "supported" (opt_value (probe_json <$> p)) ≫= as_bool) = match p with Some p => supported p | None => false end.
Proof. by destruct p as [[[] [[]|] ? ? []]|]. Qed.

(** The status that the command line prints is the router's: every number, the runtime and one
    line per worker with its own fields. *)
Theorem printed_status_is_the_status f64_value s :
  Cli.format_status (status_json f64_value s) = str_join newline (status_text s).
Proof.
  pose proof (status_members f64_value s) as Hm. set (v := status_json f64_value s) in *. cbv zeta in Hm.
  destruct Hm as (E1 & E2 & E3 & E4 & E5 & E6 & E7 & E8 & E9 & E10 & E11).
  unfold Cli.format_status, Cli.number_line, Cli.cache_line, Cli.get_u64, Cli.get_str at 1.
  rewrite E1, E2, E3, E4, E5, E6, E7, E8, E9, E10, E11.
  destruct (probe_line (st_runtime_probe s)) as [Hb Hs]. rewrite Hb, Hs.
  f_equal. unfold status_text. cbn [app mbind option_bind as_u64 vz vnat num_as_u64 as_array default].
  assert (default "-" (as_str (opt_str (st_active_handle s))) = default "-" (st_active_handle s)) as ->
    by (by destruct (st_active_handle s)).
  destruct (st_workers s) as [|w ws]; [reflexivity|].
  assert (Cli.worker_line <$> (worker_status_json <$> (w :: ws)) = worker_text <$> (w :: ws)) as Hw.
  { rewrite <-list_fmap_compose. apply list_fmap_ext. intros i x _. apply worker_line_text. }
  cbn [fmap list_fmap] in *. by rewrite Hw.
Qed.

(** ** Runs *)

#[local] Existing Instance canonical_order.

#[local] Instance still_tasks : CliTasks :=
  {| ct_status := ret Null; ct_task_states := ret []; ct_task_state := λ _, ret None;
     ct_enqueue_route := λ _ _ _ _ _ _, ret (Err Busy); ct_enqueue_federated := λ _ _ _ _ _ _, ret (Err Busy);
     ct_cancel_task := λ _, ret false; ct_enqueue_prewarm := λ _ _ _ _, ret (Err Busy) |}.

#[local] Instance no_network : NetEnv :=
  {| net_var := λ _, None; parse_uri := λ _, Err "no uri"; exchange := λ _ _ _ _, Err "unreachable";
     parse_json := λ _, Err "no json"; print_json := λ _, Err "no json" |}.

Definition foreign_request : HttpRequest :=
  {| hr_method := POST; hr_path := "/federationz/register"; hr_origin := Some "http://evil.example"; hr_body := Ok "{}" |}.


Lemma foreign_origin_changes_nothing_witness :
  gateway_call one_warm sample_env id (λ _, None) sample_status_view (λ _, Null) (λ _, "") (λ _, ret 0)
    {["http://localhost"]} 0 "" true foreign_request ∅ ∅ (router_new "ida-cli") = Done (forbidden, ∅) (router_new "ida-cli") ∧
  (POST ≠ GET → forbidden (R := nat) = forbidden).
Proof.
  split; [reflexivity|].
  apply (foreign_origin_changes_nothing one_warm sample_env id (λ _, None) sample_status_view (λ _, Null) (λ _, "")
    (λ _, ret 0) {["http://localhost"]} 0 "" true foreign_request ∅ "http://evil.example" (router_new "ida-cli") forbidden ∅
    (router_new "ida-cli")).
  - by intros s a s' [= _ <-].
  - by intros t s a s' [= _ <-].
  - reflexivity.
  - set_solver.
  - reflexivity.
Defined.
