(* ===== verification/ServerMain.v ===== *)
(** * The server processes (src/main.rs, the paths of src/idb_store.rs, and the start and end of
    src/server/socket_listener.rs)

    How the program decides what it is, where its files are, how a server starts and how it ends.
    Several server processes may run on one machine: [Host] is what they share, the files of the
    server and the TCP port, and each event is one system call of one process.  The parts that a
    server starts are modelled elsewhere; here they are its phases.

    The monitor that ends a worker whose parent died is at the end. *)

From Stdlib Require Import Ascii.
From stdpp Require Import base gmap strings numbers list.
From S2P Require Import Prelude RustStr Json ToolError Runtime Fs.

Open Scope ida_scope.

(** ** Paths *)

Section paths.
Context (var : string → option string).

Definition home_dir : string := default "/tmp" (var "HOME").
Definition ida_home : string := path_join home_dir ".ida".
Definition idb_root : string := path_join ida_home "idb".
Definition cache_dir : string := path_join ida_home "cache".
Definition socket_path : string := path_join ida_home "server.sock".
Definition pid_path : string := path_join ida_home "server.pid".
Definition log_dir : string := path_join ida_home "logs".
Definition log_path : string := path_join log_dir "server.log".
Definition startup_lock_path : string := path_join ida_home ".startup.lock".

(** [create_dir_all] for each, up to the first that fails. *)
Fixpoint create_dirs (create : string → option string) (paths : list string) (made : gset string) :
    result () string * gset string :=
  match paths with
  | [] => (Ok tt, made)
  | p :: paths =>
      match create p with
      | Some e => (Err e, made)
      | None => create_dirs create paths ({[p]} ∪ made)
      end
  end.

Definition ensure_dirs (create : string → option string) (made : gset string) : result () string * gset string :=
  create_dirs create [idb_root; log_dir; cache_dir] made.
End paths.

(** [clean_stale_imcp_locks], on the directory of the databases. *)
Definition clean_stale_lock_files (io : Io) (d : list DirEntry) : list DirEntry :=
  match read_dir io d with
  | None => d
  | Some entries => remove_files io (de_name <$> filter (λ e, extension (de_name e) = Some "imcp") entries) d
  end.

(** ** What the program is *)

Inductive Parser : Type := FlatCli | FullCommand.

(** [exe] is [current_exe] and [argv] the arguments with the program's name. *)
Definition choose_parser (exe : option string) (argv : list string) : Parser :=
  let named o := bool_decide (o ≫= file_name = Some "ida-cli") in
  if named exe || named (head argv) then
    match argv !! 1 with
    | Some a => if bool_decide (a ∈ ["serve"; "serve-http"; "serve-worker"; "probe-runtime"]) then FullCommand else FlatCli
    | None => FlatCli
    end
  else FullCommand.

(** [run_probe_runtime]: what the library says of its version, or that it panicked. *)
Inductive ProbeOutcome : Type := Version (v : IdaRuntimeVersion) | ProbeFailed (e : string) | Panicked.

Definition run_probe_runtime (o : ProbeOutcome) : RuntimeProbeResult :=
  match o with
  | Version v => select_worker_backend v
  | ProbeFailed e => probe_error e
  | Panicked => probe_error "native runtime probe panicked"
  end.

(** ** Servers on one machine *)

(** [serve] answers on the standard input, [serve-http] on a TCP port. *)
Inductive Kind : Type := Stdio | Http (port : Z).

Inductive ServerPhase : Type :=
| Started                 (* before [socket_is_live] *)
| Checked                 (* no other server was found *)
| PidWritten              (* the listener of the socket has been spawned *)
| Serving
| Stopping                (* the cancel token is set, or the service has ended *)
| Ended.

#[export] Instance ServerPhase_eq_dec : EqDecision ServerPhase.
Proof. solve_decision. Defined.

Record ServerProcess : Type := { sv_kind : Kind; sv_phase : ServerPhase; sv_bound : bool }.

(** The files hold the process that wrote them; [h_discovery] is /tmp/ida-cli.socket. *)
Record Host : Type := {
  h_servers : gmap Z ServerProcess;
  h_pid : option Z;
  h_socket : option Z;
  h_discovery : bool;
  h_ports : gmap Z Z
}.

Definition host_new : Host :=
  {| h_servers := ∅; h_pid := None; h_socket := None; h_discovery := false; h_ports := ∅ |}.

Inductive Event : Type :=
| EStart (p : Z) (k : Kind)
| ECheck (p : Z)
| EWritePid (p : Z)
| EListen (p : Z)                   (* [run_socket_listener] up to its loop *)
| EServe (p : Z) (ok : bool)        (* [serve(stdio())], or the bind of the port *)
| ESignal (p : Z)                   (* an interrupt *)
| ECancel (p : Z)                   (* a shutdown request, the end of the input, a failed accept *)
| EFinish (p : Z) (ok : bool).      (* the end of the service, and what follows *)

Definition set_phase (ph : ServerPhase) (sv : ServerProcess) : ServerProcess :=
  {| sv_kind := sv_kind sv; sv_phase := ph; sv_bound := sv_bound sv |}.

Definition put_server (p : Z) (sv : ServerProcess) (h : Host) : Host :=
  {| h_servers := <[p := sv]> (h_servers h); h_pid := h_pid h; h_socket := h_socket h;
     h_discovery := h_discovery h; h_ports := h_ports h |}.

(** [socket_is_live]: the socket file is there and its listener accepts. *)
Definition socket_is_live (h : Host) : bool :=
  match h_socket h ≫= λ p, h_servers h !! p with
  | Some sv => sv_bound sv && bool_decide (sv_phase sv ∈ [PidWritten; Serving])
  | None => false
  end.

(** [cleanup_socket_files] *)
Definition cleanup_socket_files (h : Host) : Host :=
  {| h_servers := h_servers h; h_pid := h_pid h; h_socket := None; h_discovery := false; h_ports := h_ports h |}.

Definition remove_pid (h : Host) : Host :=
  {| h_servers := h_servers h; h_pid := None; h_socket := h_socket h; h_discovery := h_discovery h; h_ports := h_ports h |}.

(** A process that ends gives its port back. *)
Definition end_server (p : Z) (sv : ServerProcess) (h : Host) : Host :=
  let h := put_server p (set_phase Ended sv) h in
  {| h_servers := h_servers h; h_pid := h_pid h; h_socket := h_socket h; h_discovery := h_discovery h;
     h_ports := filter (λ kv, kv.2 ≠ p) (h_ports h) |}.

(** The last steps of both servers. *)
Definition final_cleanup (p : Z) (sv : ServerProcess) (h : Host) : Host := end_server p sv (cleanup_socket_files (remove_pid h)).

Definition listen (p : Z) (sv : ServerProcess) (h : Host) : Host :=
  let sv := {| sv_kind := sv_kind sv; sv_phase := sv_phase sv; sv_bound := true |} in
  {| h_servers := <[p := sv]> (h_servers h); h_pid := h_pid h; h_socket := Some p; h_discovery := true; h_ports := h_ports h |}.

(** An address with port 0 gets a free port of its own. *)
Definition bind_port (p port : Z) (h : Host) : option Host :=
  if bool_decide (port = 0)%Z then Some h
  else match h_ports h !! port with
       | Some _ => None
       | None => Some {| h_servers := h_servers h; h_pid := h_pid h; h_socket := h_socket h;
                         h_discovery := h_discovery h; h_ports := <[port := p]> (h_ports h) |}
       end.

(** [serve(stdio()).await?] that fails leaves the thread with an error, which [run_server_multi]
    drops; an HTTP server whose port is taken goes on to its last steps. *)
Definition serve_process (p : Z) (ok : bool) (sv : ServerProcess) (h : Host) : Host :=
  match sv_kind sv with
  | Stdio => if ok then put_server p (set_phase Serving sv) h else end_server p sv h
  | Http port =>
      match bind_port p port h with
      | Some h => put_server p (set_phase Serving sv) h
      | None => put_server p (set_phase Stopping sv) h
      end
  end.

(** [running.close().await?] and [running.waiting().await?] may fail in [run_server_multi], and
    then nothing is cleaned up. *)
Definition finish_server (p : Z) (ok : bool) (sv : ServerProcess) (h : Host) : Host :=
  match sv_kind sv, ok with
  | Stdio, false => end_server p sv h
  | _, _ => final_cleanup p sv h
  end.

Definition host_exec (e : Event) (h : Host) : option Host :=
  match e with
  | EStart p k =>
      match h_servers h !! p with
      | None => Some (put_server p {| sv_kind := k; sv_phase := Started; sv_bound := false |} h)
      | Some _ => None
      end
  | ECheck p =>
      sv ← h_servers h !! p;
      if bool_decide (sv_phase sv = Started) then
        Some (if socket_is_live h then end_server p sv h else put_server p (set_phase Checked sv) h)
      else None
  | EWritePid p =>
      sv ← h_servers h !! p;
      if bool_decide (sv_phase sv = Checked) then
        let h := put_server p (set_phase PidWritten sv) h in
        Some {| h_servers := h_servers h; h_pid := Some p; h_socket := h_socket h; h_discovery := h_discovery h;
                h_ports := h_ports h |}
      else None
  | EListen p =>
      sv ← h_servers h !! p;
      if bool_decide (sv_phase sv ∈ [PidWritten; Serving]) && negb (sv_bound sv) then Some (listen p sv h) else None
  | EServe p ok =>
      sv ← h_servers h !! p;
      if bool_decide (sv_phase sv = PidWritten) then Some (serve_process p ok sv h) else None
  | ESignal p =>
      sv ← h_servers h !! p;
      if bool_decide (sv_phase sv = Serving) then Some (cleanup_socket_files (put_server p (set_phase Stopping sv) h)) else None
  | ECancel p =>
      sv ← h_servers h !! p;
      if bool_decide (sv_phase sv = Serving) then Some (put_server p (set_phase Stopping sv) h) else None
  | EFinish p ok =>
      sv ← h_servers h !! p;
      if bool_decide (sv_phase sv = Stopping) then Some (finish_server p ok sv h) else None
  end.

Fixpoint host_run (es : list Event) (h : Host) : option Host :=
  match es with
  | [] => Some h
  | e :: es => h ← host_exec e h; host_run es h
  end.

(** ** The monitor of a worker's parent *)

(** [parent] is what [getppid] gave when the monitor started, [ticks] what it gives each second:
    the tick at which the worker is shut down. *)
Fixpoint orphan_monitor (parent : Z) (ticks : list Z) : option nat :=
  match ticks with
  | [] => None
  | current :: ticks => if bool_decide (current = parent) then S <$> orphan_monitor parent ticks else Some 0
  end.

(** * What holds of the server processes *)

(** ** One server at a time *)

(** ServerProcess [a] is up: it serves, its socket and its pid file are its own, and no other server is
    past the check for a running one. *)
Definition up (a : Z) (h : Host) : Prop :=
  (∃ sv, h_servers h !! a = Some sv ∧ sv_phase sv = Serving ∧ sv_bound sv = true) ∧
  h_pid h = Some a ∧ h_socket h = Some a ∧ h_discovery h = true ∧
  ∀ q sv, q ≠ a → h_servers h !! q = Some sv → sv_phase sv = Started ∨ sv_phase sv = Ended.

(** The events that stop a server. *)
Definition stops (a : Z) (e : Event) : Prop := e = ESignal a ∨ e = ECancel a.

Lemma up_live a h : up a h → socket_is_live h = true.
Proof.
  intros ((sv & Hsv & Hp & Hb) & _ & Hs & _). unfold socket_is_live. rewrite Hs. cbn. rewrite Hsv, Hb, Hp. done.
Qed.

(** Another server that is only started or ended leaves [a] up. *)
Lemma up_put a p sv h : up a h → p ≠ a → sv_phase sv = Started ∨ sv_phase sv = Ended → up a (put_server p sv h).
Proof.
  intros (Ha & Hpid & Hs & Hd & Ho) Hne Hph. unfold up, put_server; cbn. split_and!; [|done..|].
  - by rewrite lookup_insert_ne.
  - intros q sv' Hq. destruct (decide (q = p)) as [->|]; [rewrite lookup_insert_eq|rewrite lookup_insert_ne by done; by apply Ho].
    by intros [= <-].
Qed.

Lemma up_end a p sv h : up a h → p ≠ a → up a (end_server p sv h).
Proof.
  intros Hu Hne. apply (up_put a p (set_phase Ended sv) h) in Hu; [|done|by right].
  unfold up, end_server in *. exact Hu.
Qed.

(** In a host in which [a] is up, the server of an event has one of three phases. *)
Lemma up_phase a h p sv : up a h → h_servers h !! p = Some sv →
  (p = a ∧ sv_phase sv = Serving ∧ sv_bound sv = true) ∨ (p ≠ a ∧ (sv_phase sv = Started ∨ sv_phase sv = Ended)).
Proof.
  intros ((sv' & Hsv & Hp & Hb) & _ & _ & _ & Ho) Hl. destruct (decide (p = a)) as [->|Hne].
  - left. by simplify_eq.
  - right. split; [done|by eapply Ho].
Qed.

Lemma up_exec a e h h' : up a h → ¬ stops a e → host_exec e h = Some h' → up a h'.
Proof.
  intros Hu Hns. destruct e as [p k|p|p|p|p ok|p|p|p ok]; cbn [host_exec];
    try (destruct (h_servers h !! p) as [sv|] eqn:Hl; cbn [mbind option_bind]; [|done];
         destruct (up_phase a h p sv Hu Hl) as [(-> & Hph & Hb)|(Hne & Hph)]).
  - destruct (h_servers h !! p) as [sv|] eqn:Hl; [done|]. intros [= <-]. apply up_put; [done| |by left].
    intros ->. destruct Hu as ((sv & Hsv & _) & _). by rewrite Hl in Hsv.
  - by rewrite bool_decide_false by (by rewrite Hph).
  - case_bool_decide; [|done]. rewrite (up_live a h) by done. intros [= <-]. by apply up_end.
  - by rewrite bool_decide_false by (by rewrite Hph).
  - by rewrite bool_decide_false by (by destruct Hph as [-> | ->]).
  - by rewrite Hb, andb_false_r.
  - by rewrite bool_decide_false by (destruct Hph as [-> | ->]; set_solver).
  - by rewrite bool_decide_false by (by rewrite Hph).
  - by rewrite bool_decide_false by (by destruct Hph as [-> | ->]).
  - exfalso. apply Hns. by left.
  - by rewrite bool_decide_false by (by destruct Hph as [-> | ->]).
  - exfalso. apply Hns. by right.
  - by rewrite bool_decide_false by (by destruct Hph as [-> | ->]).
  - by rewrite bool_decide_false by (by rewrite Hph).
  - by rewrite bool_decide_false by (by destruct Hph as [-> | ->]).
Qed.


(** ** Where it fails *)

(** Two servers that check before either listens: the one that loses the port removes the files
    of the other on its way out, which serves on but cannot be found. *)
Theorem losing_server_removes_winners_files :
  ∃ h, host_run [EStart 1 (Http 8765); EStart 2 (Http 8765); ECheck 1; ECheck 2; EWritePid 2; EListen 2;
                 EWritePid 1; EListen 1; EServe 1 true; EServe 2 true; EFinish 2 true] host_new = Some h ∧
    (sv_phase <$> h_servers h !! 1%Z) = Some Serving ∧ h_ports h !! 8765%Z = Some 1%Z ∧
    h_socket h = None ∧ h_discovery h = false ∧ h_pid h = None.
Proof. eexists. split; [vm_compute; reflexivity|]. by vm_compute. Qed.

(** A server that is told to stop removes its socket at once, and again when it has stopped: one
    that was started in between loses its own. *)
Theorem late_cleanup_removes_successors_files :
  ∃ h, host_run [EStart 1 (Http 0); ECheck 1; EWritePid 1; EListen 1; EServe 1 true; ESignal 1;
                 EStart 2 (Http 0); ECheck 2; EWritePid 2; EListen 2; EServe 2 true; EFinish 1 true] host_new = Some h ∧
    (sv_phase <$> h_servers h !! 2%Z) = Some Serving ∧ h_socket h = None ∧ h_discovery h = false ∧ h_pid h = None.
Proof. eexists. split; [vm_compute; reflexivity|]. by vm_compute. Qed.

(** A server on the standard input that fails to start, or to close, ends without an error and
    leaves its files. *)
Theorem stdio_failure_leaves_files p sv ok h (Hk : sv_kind sv = Stdio) :
  serve_process p false sv h = end_server p sv h ∧ finish_server p false sv h = end_server p sv h ∧
  h_pid (end_server p sv h) = h_pid h ∧ h_socket (end_server p sv h) = h_socket h ∧
  h_discovery (finish_server p ok sv h) = (if ok then false else h_discovery h).
Proof. unfold serve_process, finish_server. rewrite Hk. by destruct ok. Qed.

(** ** Small parts *)

(** The server that the command line starts is read as a server command, whatever the program is
    called. *)
Lemma started_server_is_a_server exe args : choose_parser exe (default "" exe :: "serve-http" :: args) = FullCommand.
Proof. unfold choose_parser. cbn. by destruct (_ || _). Qed.

(** What is left of a directory of databases are the entries that are no lock files. *)
Theorem stale_locks_removed io d e (Hio : io_fine io) :
  e ∈ clean_stale_lock_files io d ↔ e ∈ d ∧ ¬ (extension (de_name e) = Some "imcp" ∧ removable e = true).
Proof.
  destruct Hio as (Hr & Hrm & _). unfold clean_stale_lock_files, read_dir. rewrite Hr, remove_files_filter by done.
  rewrite list_elem_of_filter. split; intros [Hn Hd]; (split; [try done|]); try done.
  - intros [He Hre]. apply Hn. split; [|done]. apply list_elem_of_fmap. exists e. by rewrite list_elem_of_filter.
  - intros [(e' & Heq & [He' _]%list_elem_of_filter)%list_elem_of_fmap Hre]. rewrite <-Heq in He'. by apply Hd.
Qed.

(** The monitor acts at the first tick at which the parent is another process. *)
Theorem orphan_monitor_exact parent ticks n :
  orphan_monitor parent ticks = Some n ↔
  Forall (λ t, t = parent) (take n ticks) ∧ ∃ t, ticks !! n = Some t ∧ t ≠ parent.
Proof.
  revert n. induction ticks as [|t ticks IH]; intros n; cbn [orphan_monitor].
  - split; [done|]. intros (_ & t & Ht & _). by destruct n.
  - case_bool_decide as Ht.
    + rewrite fmap_Some. split.
      * intros (m & Hm & ->). apply IH in Hm as [Hf Hx]. cbn. split; [by constructor|done].
      * destruct n as [|n]; cbn; intros [Hf Hx]; [destruct Hx as (t' & [= <-] & Hne); done|].
        exists n. split; [|done]. apply IH. split; [by inversion Hf|done].
    + split.
      * intros [= <-]. cbn. split; [constructor|by exists t].
      * destruct n as [|n]; [done|]. cbn. intros [Hf _]. by inversion Hf.
Qed.

(** A parent that had died before the monitor first looked is never noticed: the process that
    adopted the worker stays its parent. *)
Lemma orphan_monitor_late n : orphan_monitor 1 (replicate n 1%Z) = None.
Proof. induction n as [|n IH]; [done|]. cbn [replicate orphan_monitor]. by rewrite bool_decide_true, IH. Qed.

