(* ===== verification/WorkerHandlers.v ===== *)
(** * The worker on a database

    [LoopArms] is written against an interface of handlers.  Here the handlers of
    src/ida/handlers discharge it: the open database is an [IdaDatabase.Database], each handler
    is the modelled one, and its result is written as the derived [Serialize] implementations
    of src/ida/types.rs do it.  What idalib does to a database when it is opened or edited is
    a parameter. *)

From Stdlib Require Import Ascii.
From stdpp Require Import base gmap strings numbers list.
From S2P Require Import ToolTable ToolRegistry Fs IdbStore McpLock.
From S2P Require Import Prelude RustStr Json ToolError Runtime Protocol Parse.
From S2P Require Import Serde ToolRequests F64 RpcDispatch CliTheorems.
From S2P Require Import Search ControlFlow Paging IdaDatabase.
From S2P Require Import ListHandlers MemoryHandlers CodeHandlers StructHandlers MiscHandlers.
From S2P Require Import IdaRequest IdaWorker OpenDatabase LoopArms.

Open Scope ida_scope.

(** ** The JSON of the results *)

Definition strings_value (l : list string) : Value := Array (VString <$> l).

(** A field that is left out when it is [None]. *)
Definition next_field (o : option Z) : list (string * Value) :=
  match o with Some n => [("next_offset", vz n)] | None => [] end.

Definition symbol_info_value (s : SymbolInfo) : Value :=
  obj [("name", VString (sym_name s)); ("address", VString (sym_address s)); ("delta", vint (sym_delta s));
       ("exact", Bool (sym_exact s)); ("is_public", Bool (sym_is_public s)); ("is_weak", Bool (sym_is_weak s))].

Definition function_range_value (f : FunctionRangeInfo) : Value :=
  obj [("address", VString (fr_address f)); ("name", VString (fr_name f)); ("start", VString (fr_start f));
       ("end", VString (fr_end f)); ("size", vz (fr_size f))].

Definition address_info_value (a : AddressInfo) : Value :=
  obj [("address", VString (ai_address a)); ("segment", opt_value (segment_info_value <$> ai_segment a));
       ("function", opt_value (function_range_value <$> ai_function a));
       ("symbol", opt_value (symbol_info_value <$> ai_symbol a))].

Definition string_xref_info_value (i : StringXrefInfo) : Value :=
  obj [("address", VString (sx_address i)); ("content", VString (sx_content i)); ("length", vz (sx_length i));
       ("xrefs", strings_value (sx_xrefs i)); ("xref_count", vz (sx_xref_count i))].

Definition string_xrefs_result_value (r : StringXrefsResult) : Value :=
  obj ([("strings", Array (string_xref_info_value <$> sxr_strings r)); ("total", vz (sxr_total r))] ++
       next_field (sxr_next_offset r)).

Definition local_type_value (t : LocalType) : Value :=
  obj [("ordinal", vz (lt_ordinal t)); ("name", VString (lt_name t)); ("decl", VString (lt_decl t));
       ("kind", VString (lt_kind t))].

Definition local_types_value (r : LocalTypeListResult) : Value :=
  obj ([("types", Array (local_type_value <$> ltl_types r)); ("total", vz (ltl_total r))] ++ next_field (ltl_next_offset r)).

Definition frame_range_value (r : FrameRange) : Value := obj [("start", VString (rg_start r)); ("end", VString (rg_end r))].

Definition frame_member_value (m : FrameMemberInfo) : Value :=
  obj [("name", VString (fmi_name m)); ("type_name", VString (fmi_type_name m)); ("offset_bits", vz (fmi_offset_bits m));
       ("size_bits", vz (fmi_size_bits m)); ("offset", vz (fmi_offset m)); ("size", vz (fmi_size m));
       ("is_bitfield", Bool (fmi_is_bitfield m)); ("part", VString (fmi_part m))].

Definition frame_info_value (f : FrameInfo) : Value :=
  obj [("address", VString (fri_address f)); ("frame_size", vz (fri_frame_size f)); ("ret_size", vint (fri_ret_size f));
       ("frsize", vz (fri_frsize f)); ("frregs", vz (fri_frregs f)); ("argsize", vz (fri_argsize f));
       ("fpd", vz (fri_fpd f)); ("args_range", frame_range_value (fri_args_range f));
       ("retaddr_range", frame_range_value (fri_retaddr_range f));
       ("savregs_range", frame_range_value (fri_savregs_range f));
       ("locals_range", frame_range_value (fri_locals_range f)); ("member_count", vz (fri_member_count f));
       ("members", Array (frame_member_value <$> fri_members f))].

Definition struct_summary_value (s : StructSummary) : Value :=
  obj [("ordinal", vz (ss_ordinal s)); ("name", VString (ss_name s)); ("size", vz (ss_size s));
       ("is_union", Bool (ss_is_union s)); ("member_count", vz (ss_member_count s))].

Definition struct_list_value (r : StructListResult) : Value :=
  obj ([("structs", Array (struct_summary_value <$> stl_structs r)); ("total", vz (stl_total r))] ++ next_field (stl_next_offset r)).

Definition struct_member_fields (m : StructMemberInfo) : list (string * Value) :=
  [("name", VString (smi_name m)); ("type_name", VString (smi_type_name m)); ("offset_bits", vz (smi_offset_bits m));
   ("size_bits", vz (smi_size_bits m)); ("offset", vz (smi_offset m)); ("size", vz (smi_size m));
   ("is_bitfield", Bool (smi_is_bitfield m))].

Definition struct_info_value (s : IdaDatabase.StructInfo) : Value :=
  obj [("ordinal", vz (sti_ordinal s)); ("name", VString (sti_name s)); ("size", vz (sti_size s));
       ("is_union", Bool (sti_is_union s)); ("member_count", vz (sti_member_count s));
       ("members", Array (obj ∘ struct_member_fields <$> sti_members s))].

Definition struct_member_value_json (m : StructMemberValue) : Value :=
  obj (struct_member_fields (smv_info m) ++ [("bytes", VString (smv_bytes m))]).

Definition struct_read_value (r : StructReadResult) : Value :=
  obj [("address", VString (srr_address r)); ("ordinal", vz (srr_ordinal r)); ("name", VString (srr_name r));
       ("size", vz (srr_size r)); ("members", Array (struct_member_value_json <$> srr_members r))].

Definition xref_info_value (x : XRefInfo) : Value :=
  obj [("from", VString (xi_from x)); ("to", VString (xi_to x)); ("type", VString (xi_type x)); ("is_code", Bool (xi_is_code x))].

Definition guess_type_value (g : GuessTypeResult) : Value :=
  obj [("address", VString (gt_address g)); ("code", vint (gt_code g)); ("status", VString (gt_status g));
       ("decl", VString (gt_decl g)); ("kind", VString (gt_kind g))].

Definition xrefs_to_field_value (x : XrefsToFieldResult) : Value :=
  obj [("struct_ordinal", vz (xf_struct_ordinal x)); ("struct_name", VString (xf_struct_name x));
       ("member_index", vz (xf_member_index x)); ("member_name", VString (xf_member_name x));
       ("member_type", VString (xf_member_type x)); ("member_offset_bits", vz (xf_member_offset_bits x));
       ("member_size_bits", vz (xf_member_size_bits x)); ("tid", VString (xf_tid x));
       ("xrefs", Array (xref_info_value <$> xf_xrefs x)); ("truncated", Bool (xf_truncated x))].

Definition import_info_value (i : ImportInfo) : Value :=
  obj [("address", VString (imp_address i)); ("name", VString (imp_name i)); ("ordinal", vz (imp_ordinal i))].

Definition export_info_value (e : ExportInfo) : Value :=
  obj [("address", VString (exp_address e)); ("name", VString (exp_name e)); ("is_public", Bool (exp_is_public e))].

Definition basic_block_value (b : BasicBlockInfo) : Value :=
  obj [("start", VString (bbi_start b)); ("end", VString (bbi_end b)); ("size", vz (bbi_size b));
       ("block_type", VString (bbi_block_type b)); ("successors", strings_value (bbi_successors b));
       ("predecessors", strings_value (bbi_predecessors b))].

(** ** The library on a database *)

(** What idalib does besides showing and editing a database. *)
Record Library : Type := {
  lb_version : result IdaRuntimeVersion string;
  lb_open_with : nat → string → bool → bool → result Database string;
  lb_open_options : nat → string → RawDatabaseOptions → result Database string;
  lb_load_debug_info : nat → Database → string → bool → result bool string;
  lb_file : Database → string;
  lb_processor_long_name : Database → string;
  lb_auto_enabled : Database → bool;
  lb_auto_ok : Database → bool;
  lb_auto_state : Database → Z;
  lb_auto_wait : Database → bool * Database;
  lb_run_python : string → Database → result PyOutput string * Database;
  lb_edits : MemoryHandlers.Edits;
  lb_types : StructHandlers.TypeEdits
}.

Section worker.
Context (lib : Library) (to_lowercase : string → string) (from_utf8_lossy : list Z → string).
(** the order in which the call graph lists a hash map *)
Context (order : gmap Z FunctionInfo → list FunctionInfo).

#[local] Instance database_idalib : Idalib :=
  {| IDB := Database; ida_version := lb_version lib; open_with := lb_open_with lib; open_options := lb_open_options lib;
     idb_load_debug_info := lb_load_debug_info lib; idb_file := lb_file lib; meta_filetype := λ db, me_filetype (d_meta db);
     processor_long_name := lb_processor_long_name lib; is_64bit := λ db, me_64bit (d_meta db);
     is_32bit_exactly := λ db, me_32bit_exactly (d_meta db); db_function_count := λ db, me_function_count (d_meta db);
     is_auto_enabled := lb_auto_enabled lib; auto_is_ok := lb_auto_ok lib; auto_state := lb_auto_state lib |}.

(** A handler that only looks at the database. *)
Definition reads {A B} (h : option Database → result A ToolError) (to_value : A → B) (db : Database) :
    result B ToolError * Database :=
  (let? a := h (Some db) in Ok (to_value a), db).

(** A handler that edits it. *)
Definition edits {A B} (h : MemoryHandlers.Handler A) (to_value : A → B) (db : Database) : result B ToolError * Database :=
  let '(r, db) := h db in (let? a := r in Ok (to_value a), db).

Definition on_view {A} (h : option ControlFlow.IDB → result A ToolError) (idb : option Database) : result A ToolError :=
  h (d_view <$> idb).

Definition segments_of (idb : option Database) : option (list Segment) :=
  (λ db, (λ sg, {| seg_start := sg_start sg; seg_len := sg_len sg |}) <$> d_segments db) <$> idb.

#[local] Instance database_handlers : Handlers :=
  {| idb_view := d_view;
     handle_list_functions := λ offset limit filter,
       reads (λ d, ListHandlers.handle_list_functions to_lowercase d offset limit filter) function_list_value;
     handle_resolve_function := λ name, reads (λ d, ListHandlers.handle_resolve_function d name) function_info_value;
     handle_get_function_prototype := λ addr name,
       reads (λ d, ListHandlers.handle_get_function_prototype d addr name) id;
     handle_disasm_by_name := λ name count,
       reads (λ d, CodeHandlers.handle_disasm_by_name d name (Z.to_nat count)) id;
     handle_disasm := λ addr count, reads (λ d, CodeHandlers.handle_disasm d addr (Z.to_nat count)) id;
     handle_decompile := λ addr, reads (λ d, CodeHandlers.handle_decompile d addr) id;
     handle_segments := reads ListHandlers.handle_segments (λ l, Array (segment_info_value <$> l));
     handle_strings := λ offset limit filter,
       reads (λ d, ListHandlers.handle_strings to_lowercase d offset limit filter) string_list_value;
     handle_local_types := λ offset limit filter,
       reads (λ d, StructHandlers.handle_local_types to_lowercase d offset limit filter) local_types_value;
     handle_declare_type := λ decl relaxed replace multi,
       edits (StructHandlers.handle_declare_type (lb_types lib) decl relaxed replace multi) id;
     handle_apply_types := λ addr name offset stack_offset stack_name decl type_name relaxed delay strict,
       edits (StructHandlers.handle_apply_types (lb_types lib) addr name offset stack_offset stack_name decl type_name
                relaxed delay strict) id;
     handle_infer_types := λ addr name offset,
       reads (λ d, StructHandlers.handle_infer_types d addr name offset) guess_type_value;
     handle_set_function_prototype := λ addr name prototype,
       edits (StructHandlers.handle_set_function_prototype (lb_types lib) addr name prototype) id;
     handle_rename_stack_variable := λ func_addr func_name old_name new_name,
       edits (StructHandlers.handle_rename_stack_variable (lb_types lib) func_addr func_name old_name new_name) id;
     handle_set_stack_variable_type := λ func_addr func_name var_name type_decl,
       edits (StructHandlers.handle_set_stack_variable_type (lb_types lib) func_addr func_name var_name type_decl) id;
     handle_list_enums := λ filter offset limit,
       reads (λ d, StructHandlers.handle_list_enums to_lowercase d filter offset limit) id;
     handle_create_enum := λ decl replace, edits (StructHandlers.handle_create_enum (lb_types lib) decl replace) id;
     handle_addr_info := λ addr, reads (λ d, ListHandlers.handle_addr_info d addr) address_info_value;
     handle_function_at := λ addr, reads (λ d, ListHandlers.handle_function_at d addr) function_range_value;
     handle_disasm_function_at := λ addr count,
       reads (λ d, CodeHandlers.handle_disasm_function_at d addr (Z.to_nat count)) id;
     handle_declare_stack := λ addr name offset var_name decl relaxed,
       edits (StructHandlers.handle_declare_stack (lb_types lib) addr name offset var_name decl relaxed) StructHandlers.stack_var_value;
     handle_delete_stack := λ addr name offset var_name,
       edits (StructHandlers.handle_delete_stack (lb_types lib) addr name offset var_name) StructHandlers.stack_var_value;
     handle_stack_frame := λ addr, reads (λ d, StructHandlers.handle_stack_frame d addr) frame_info_value;
     handle_structs := λ offset limit filter,
       reads (λ d, StructHandlers.handle_structs to_lowercase d offset limit filter) struct_list_value;
     handle_struct_info := λ ordinal name,
       reads (λ d, StructHandlers.handle_struct_info to_lowercase d ordinal name) struct_info_value;
     handle_read_struct := λ addr ordinal name,
       reads (λ d, StructHandlers.handle_read_struct to_lowercase d addr ordinal name) struct_read_value;
     handle_xrefs_to := λ addr,
       reads (λ d, MemoryHandlers.handle_xrefs_to d addr) (λ l, Array (xref_info_value <$> l));
     handle_xrefs_from := λ addr,
       reads (λ d, MemoryHandlers.handle_xrefs_from d addr) (λ l, Array (xref_info_value <$> l));
     handle_xrefs_to_field := λ ordinal name member_index member_name limit,
       reads (λ d, StructHandlers.handle_xrefs_to_field to_lowercase d ordinal name member_index member_name (Z.to_nat limit))
         xrefs_to_field_value;
     handle_imports := λ offset limit,
       reads (λ d, ListHandlers.handle_imports d offset limit) (λ l, Array (import_info_value <$> l));
     handle_exports := λ offset limit,
       reads (λ d, ListHandlers.handle_exports d offset limit) (λ l, Array (export_info_value <$> l));
     handle_entrypoints := reads ListHandlers.handle_entrypoints strings_value;
     handle_get_bytes := λ addr name offset size,
       reads (λ d, MemoryHandlers.handle_get_bytes d addr name offset size) id;
     handle_set_comments := λ addr name offset comment repeatable,
       edits (MemoryHandlers.handle_set_comments (lb_edits lib) addr name offset comment repeatable) id;
     handle_set_function_comment := λ addr name comment repeatable,
       edits (MemoryHandlers.handle_set_function_comment (lb_edits lib) addr name comment repeatable) id;
     handle_rename := λ addr current_name name flags,
       edits (MemoryHandlers.handle_rename (lb_edits lib) addr current_name name flags) id;
     handle_batch_rename := λ entries, edits (MemoryHandlers.handle_batch_rename (lb_edits lib) entries) id;
     handle_rename_lvar := λ func_addr lvar_name new_name,
       edits (MemoryHandlers.handle_rename_lvar (lb_edits lib) func_addr lvar_name new_name) id;
     handle_set_lvar_type := λ func_addr lvar_name type_str,
       edits (MemoryHandlers.handle_set_lvar_type (lb_edits lib) func_addr lvar_name type_str) id;
     handle_set_decompiler_comment := λ func_addr addr itp comment,
       edits (MemoryHandlers.handle_set_decompiler_comment (lb_edits lib) func_addr addr itp comment) id;
     handle_patch_bytes := λ addr name offset bytes,
       edits (MemoryHandlers.handle_patch_bytes (lb_edits lib) addr name offset bytes) id;
     handle_patch_asm := λ addr name offset line,
       edits (MemoryHandlers.handle_patch_asm (lb_edits lib) addr name offset line) id;
     handle_basic_blocks := λ addr,
       reads (λ d, MiscHandlers.handle_basic_blocks d addr) (λ l, Array (basic_block_value <$> l));
     handle_callees := λ addr,
       reads (on_view (λ d, ControlFlow.handle_callees d addr)) (λ l, Array (function_info_value <$> l));
     handle_callers := λ addr,
       reads (on_view (λ d, ControlFlow.handle_callers d addr)) (λ l, Array (function_info_value <$> l));
     handle_idb_meta := reads MiscHandlers.handle_idb_meta id;
     handle_lookup_funcs := λ queries, reads (λ d, ListHandlers.handle_lookup_funcs d queries) id;
     handle_list_globals := λ query offset limit,
       reads (λ d, ListHandlers.handle_list_globals to_lowercase d query offset limit) id;
     handle_analyze_strings := λ query offset limit,
       reads (λ d, ListHandlers.handle_analyze_strings to_lowercase d query offset limit) id;
     handle_find_string := λ query exact case_insensitive offset limit,
       reads (λ d, ListHandlers.handle_find_string to_lowercase d query exact case_insensitive offset limit)
         string_list_value;
     handle_xrefs_to_string := λ query exact case_insensitive offset limit max_xrefs,
       reads (λ d, ListHandlers.handle_xrefs_to_string to_lowercase d query exact case_insensitive offset limit max_xrefs)
         string_xrefs_result_value;
     handle_analyze_funcs := edits (MiscHandlers.handle_analyze_funcs (lb_auto_wait lib)) id;
     handle_find_bytes := λ pattern max_results db,
       reads (λ d, Search.handle_find_bytes (d_get_bytes db) (segments_of d) pattern max_results) id db;
     handle_search_text := λ text max_results,
       reads (λ d, CodeHandlers.handle_search_text d text (Z.to_nat max_results)) id;
     handle_search_imm := λ imm max_results,
       reads (λ d, CodeHandlers.handle_search_imm d imm (Z.to_nat max_results)) id;
     handle_find_insns := λ patterns max_results case_insensitive,
       reads (λ d, CodeHandlers.handle_find_insns d patterns (Z.to_nat max_results) case_insensitive) id;
     handle_find_insn_operands := λ patterns max_results case_insensitive,
       reads (λ d, CodeHandlers.handle_find_insn_operands d patterns (Z.to_nat max_results) case_insensitive) id;
     handle_read_int := λ addr size, reads (λ d, MemoryHandlers.handle_read_int d addr size) id;
     handle_get_string := λ addr max_len,
       reads (λ d, MemoryHandlers.handle_get_string from_utf8_lossy d addr max_len) id;
     handle_get_global_value := λ query, reads (λ d, MemoryHandlers.handle_get_global_value d query) id;
     handle_find_paths := λ start end_ max_paths max_depth,
       reads (on_view (λ d, ControlFlow.handle_find_paths d start end_ (Z.to_nat max_paths) (Z.to_nat max_depth))) id;
     handle_callgraph := λ addr max_depth max_nodes,
       reads (on_view (λ d, ControlFlow.handle_callgraph d order addr (Z.to_nat max_depth) (Z.to_nat max_nodes))) id;
     handle_xref_matrix := λ addrs, reads (λ d, MemoryHandlers.handle_xref_matrix d addrs) id;
     handle_pseudocode_at := λ addr end_addr, reads (λ d, CodeHandlers.handle_pseudocode_at d addr end_addr) id;
     handle_search_pseudocode := λ pattern limit,
       reads (λ d, CodeHandlers.handle_search_pseudocode d pattern (Z.to_nat limit)) id;
     handle_run_script := λ code, edits (MiscHandlers.handle_run_script (lb_run_python lib) code) id |}.

(** ** What the worker guarantees *)

Context `{OpenEnv} `{HashOrder} `{StoreEnv}.

(** The requests that only look at the database. *)
Definition reads_only (r : IdaRequest) : bool :=
  match r with
  | Open _ _ _ _ _ _ _ _ | Close | Shutdown | LoadDebugInfo _ _ | DeclareType _ _ _ _
  | ApplyTypes _ _ _ _ _ _ _ _ _ _ | SetFunctionPrototype _ _ _ | RenameStackVariable _ _ _ _
  | SetStackVariableType _ _ _ _ | CreateEnum _ _ | DeclareStack _ _ _ _ _ _ | DeleteStack _ _ _ _
  | SetComments _ _ _ _ _ | SetFunctionComment _ _ _ _ | Rename _ _ _ _ | BatchRename _ | RenameLvar _ _ _
  | SetLvarType _ _ _ | SetDecompilerComment _ _ _ _ | PatchBytes _ _ _ _ | PatchAsm _ _ _ _ | AnalyzeFuncs
  | RunScript _ => false
  | _ => true
  end.

Lemma with_db_reads {A B} (h : option Database → result A ToolError) (to_value : A → B) (o : option Database) :
  (with_db (reads h to_value) o).2 = o.
Proof. by destruct o. Qed.

Lemma resolved_reads {T} addr name offset (h : Z → Arm T) (o : option Database) :
  (∀ ea, (h ea o).2 = o) → (resolved addr name offset h o).2 = o.
Proof. intros Hh. unfold resolved. by destruct (resolve_address _ _ _ _). Qed.

Lemma on_idb_keeps {T} (arm : Arm T) (v : LoopVars) (w : World) :
  (arm (idb v)).2 = idb v → (on_idb arm v w).1.2 = v ∧ (on_idb arm v w).2 = w.
Proof.
  intros Harm. unfold on_idb. destruct (arm (idb v)) as [r o]. cbn in *. subst o. by destruct v.
Qed.


(** ** The dispatcher on the loop *)

Context (json_parse : string → option Value) (json_display : Value → string).
Context (de_message : DeError → string) (f64_text : f64 → string).

(** The loop as the dispatcher's worker: a call is served at once. *)
Definition loop_worker (c : WorkerCall) (s : LoopVars * World) :
    result (reply (wc_request c)) ToolError * (LoopVars * World) :=
  let '(r, v, w) := serve (wc_request c) s.1 s.2 in (r, (v, w)).

#[local] Abbreviation dispatch := (dispatch_rpc loop_worker json_parse json_display de_message f64_text).

(** [list_functions] reaches the handler with the parameters of the request. *)
Lemma loop_lists_functions (req : RpcRequest) (args : Struct ListFunctionsRequest) (v : LoopVars) (w : World) (db : Database) l :
  primary_name_for (req_method req) = "list_functions" → idb v = Some db →
  de_struct "ListFunctionsRequest" ListFunctionsRequest (req_params req) = Ok args →
  ListHandlers.handle_list_functions to_lowercase (Some db) (default 0%Z (args @ "offset")) (default 100%Z (args @ "limit"))
    (args @ "filter") = Ok l →
  dispatch req (v, w) = (Ok (function_list_value l), (v, w)).
Proof.
  intros Hm Hdb Hp Hl. unfold dispatch_rpc. rewrite Hm.
  change (lookup_method loop_worker json_parse json_display de_message f64_text "list_functions")
    with (Some (rpc_list_functions loop_worker de_message)).
  cbv beta iota zeta. unfold rpc_list_functions, parse_params, rpc_bind, rpc_lift. rewrite Hp. unfold loop_worker.
  cbn [wc_request Worker.list_functions serve fst snd]. unfold on_idb, arm_ListFunctions, with_db. rewrite Hdb.
  cbn [handle_list_functions database_handlers]. unfold reads.
  match goal with |- context [ListHandlers.handle_list_functions ?f ?d ?o ?n ?q] =>
    replace (ListHandlers.handle_list_functions f d o n q) with (@Ok FunctionListResult ToolError l) by (symmetry; exact Hl)
  end. cbn [result_bind].
  destruct v as [o f p i]. cbn in *. by subst.
Qed.

(** The parameters of a client that asks for a page. *)
Definition page_params (filter : option string) (limit offset : Z) : Value :=
  obj ([("offset", vz offset); ("limit", vz limit)] ++ match filter with Some f => [("filter", VString f)] | None => [] end).

Definition page_request (id : string) (filter : option string) (limit offset : Z) : RpcRequest :=
  RpcRequest_new id "list_functions" (page_params filter limit offset).

Lemma page_params_read filter limit offset : in_u64 limit → in_u64 offset →
  ∃ args, de_struct "ListFunctionsRequest" ListFunctionsRequest (page_params filter limit offset) = Ok args ∧
          args @ "offset" = Some offset ∧ args @ "limit" = Some limit ∧ args @ "filter" = filter.
Proof.
  intros [Hl1 Hl2] [Ho1 Ho2].
  exists (@MkStruct ListFunctionsRequest (None, (Some offset, (Some limit, (filter, (None, tt)))))).
  split; [|done].
  assert (∀ z, (0 ≤ z)%Z → (z ≤ u64_max)%Z → de_option usize_codec (vz z) = Ok (Some z)) as Hz.
  { intros z Hz1 Hz2. cbn. by rewrite (proj2 (Z.leb_le 0 z)), (proj2 (Z.leb_le z u64_max)). }
  destruct filter as [f|]; unfold page_params.
  - change (obj _) with (Object [("filter", VString f); ("limit", vz limit); ("offset", vz offset)]).
    cbn -[de_option vz]. rewrite !Hz by done. done.
  - change (obj _) with (Object [("limit", vz limit); ("offset", vz offset)]).
    cbn -[de_option vz]. rewrite !Hz by done. done.
Qed.

(** What the client reads of an answer. *)
Definition page_of_reply (r : result Value ToolError) : result (list Value * option Z) ToolError :=
  let? v := r in Ok (default [] (get "functions" v ≫= as_array), get "next_offset" v ≫= as_u64).

Lemma page_of_list l :
  page_of_reply (Ok (function_list_value l)) = Ok (function_info_value <$> fl_functions l, fl_next_offset l).
Proof. unfold page_of_reply, function_list_value. by destruct (fl_next_offset l). Qed.

Definition ask_page (filter : option string) (limit : Z) (s : LoopVars * World) (offset : Z) :
    result (list Value * option Z) ToolError :=
  page_of_reply (dispatch (page_request "1" filter limit offset) s).1.

Lemma next_offset_in offset got total n : in_u64 offset → next_offset offset got total = Some n → in_u64 n.
Proof. unfold next_offset, saturating_add, in_u64. intros ?. case_match; [|done]. intros [= <-]. lia. Qed.

(** Following pages when the offsets are 64-bit numbers. *)
Lemma walk_pages_in {A B} (keep : A → bool) (f : A → B) get fuel offset limit items :
  (∀ o, in_u64 o → get o = let '(page, total) := paged keep f o limit items in
                           Ok (page, next_offset o (length page) total)) → in_u64 offset →
  ListHandlers.walk fuel get offset = all_pages keep f fuel offset limit items.
Proof.
  intros Hget. revert offset. induction fuel as [|fuel IH]; intros offset Ho; [done|]. cbn [ListHandlers.walk all_pages].
  rewrite Hget by done. destruct (paged keep f offset limit items) as [page total].
  destruct (next_offset offset (length page) total) as [n|] eqn:Hn; [|by rewrite app_nil_r].
  rewrite IH; [done|]. by eapply next_offset_in.
Qed.

End worker.

(** ** An instance *)

Definition sample_edits : MemoryHandlers.Edits :=
  {| MemoryHandlers.ed_patch_bytes := λ _ _ db, Ok db; MemoryHandlers.ed_assemble_line := λ _ _ _, Ok [];
     MemoryHandlers.ed_set_cmt := λ _ _ _ db, Ok db; MemoryHandlers.ed_set_func_cmt := λ _ _ _ db, Ok db;
     MemoryHandlers.ed_set_name := λ _ _ _ db, Ok db; MemoryHandlers.ed_rename_lvar := λ _ _ _ db, Ok db;
     MemoryHandlers.ed_set_lvar_type := λ _ _ _ db, Ok db;
     MemoryHandlers.ed_set_decompiler_comment := λ _ _ _ _ db, Ok db |}.

Definition sample_stack_var : StructHandlers.StackVar :=
  {| StructHandlers.vr_code := 0; StructHandlers.vr_name := ""; StructHandlers.vr_offset := 0 |}.

Definition sample_types : StructHandlers.TypeEdits :=
  {| StructHandlers.te_declare_types := λ _ _ db, (0%Z, db);
     StructHandlers.te_declare_type := λ _ _ _ db,
       ({| StructHandlers.dr_code := 0; StructHandlers.dr_name := ""; StructHandlers.dr_decl := ""; StructHandlers.dr_kind := "" |}, db);
     StructHandlers.te_set_stack_var_type := λ _ _ _ _ _ _ _ db, (sample_stack_var, db);
     StructHandlers.te_apply_decl_type := λ _ _ _ _ _ db, (true, db);
     StructHandlers.te_apply_named_type := λ _ _ db, (true, db);
     StructHandlers.te_define_stack_var := λ _ _ _ _ _ db, (sample_stack_var, db);
     StructHandlers.te_delete_stack_var := λ _ _ _ _ db, (sample_stack_var, db) |}.

Definition sample_library : Library :=
  {| lb_version := Err "none"; lb_open_with := λ _ _ _ _, Ok sample_db; lb_open_options := λ _ _ _, Ok sample_db;
     lb_load_debug_info := λ _ _ _ _, Ok false; lb_file := λ _, "a.i64"; lb_processor_long_name := λ _, "ARM";
     lb_auto_enabled := λ _, true; lb_auto_ok := λ _, true; lb_auto_state := λ _, 0%Z;
     lb_auto_wait := λ db, (true, db); lb_run_python := λ _ db, (Err "no Python", db); lb_edits := sample_edits;
     lb_types := sample_types |}.

Definition open_vars (db : Database) : @LoopVars (database_idalib sample_library) :=
  @Build_LoopVars (database_idalib sample_library) (Some db) (Some 3) (Some "/tmp/a.i64.mcp.lock") true.

#[local] Existing Instances sample_open_env sample_store_env sample_hash_order.


