(* ===== verification/CompatScripts.v ===== *)
(** * The Python scripts of the compatibility worker (src/idat_compat.rs)

    Each request of the compatibility worker runs a Python script inside [idat].  The scripts
    are texts of the source, and this file translates them: one definition per script, over
    what IDAPython shows of the database ([Api]).  A script writes one JSON value and leaves
    with [qexit], or dies with an exception that nothing catches.  [run_invocation] reads the
    assignments that the worker puts before the text and runs the script of that name. *)

From Stdlib Require Import Ascii ZArith SpecFloat.
From stdpp Require Import base gmap strings numbers list.
From S2P Require Import Prelude RustStr Json Parse ControlFlow Search F64 IdatCompat PyText RpcDispatch CodeHandlers.

Open Scope ida_scope.

(** ** IDAPython *)

Record PyFunc : Type := { pf_start : Z; pf_end : Z }.

Record PySeg : Type := {
  pg_start : Z;
  pg_end : Z;
  pg_perm : Z;
  pg_type : Z;
  pg_bitness : Z;
  pg_name : option string                (* [get_segm_name] *)
}.

(** An item of [idautils.Strings]; [str] of it may raise. *)
Record PyString : Type := { pt_ea : Z; pt_text : option string; pt_length : Z }.

Record PyXref : Type := { px_from : Z; px_to : Z; px_type : Z; px_iscode : bool }.

(** How the user's code ends: by itself, with an [Exception] (its class, its text and the
    traceback), or with something that [except Exception] does not catch. *)
Inductive PyExec : Type :=
| ExecDone
| ExecRaised (kind msg traceback : string)
| ExecEscaped.

Record Api : Type := {
  ap_BADADDR : Z;
  ap_SEGPERM_READ : Z;
  ap_SEGPERM_WRITE : Z;
  ap_SEGPERM_EXEC : Z;
  ap_XREF_ALL : Z;
  ap_fl_CN : Z;
  ap_fl_CF : Z;
  ap_func_qty : nat;
  ap_getn_func : nat → option PyFunc;
  ap_func_name : Z → option string;
  ap_get_func : Z → option PyFunc;
  ap_functions : list Z;                 (* [idautils.Functions] *)
  ap_find_func_end : Z → Z;
  ap_func_items : Z → list Z;            (* [idautils.FuncItems] *)
  ap_disasm_line : Z → option string;    (* [generate_disasm_line(ea, 0)] *)
  ap_next_head : Z → Z;
  ap_segm_qty : nat;
  ap_getnseg : nat → option PySeg;
  ap_getseg : Z → option PySeg;
  ap_get_name : Z → option string;
  ap_strings : list PyString;
  ap_names : list (Z * string);          (* [idautils.Names] *)
  ap_imports : list (list (Z * option string * Z));   (* per module, what [enum_import_names] passes *)
  ap_entry_qty : nat;
  ap_entry_ordinal : nat → Z;
  ap_entry : Z → Z;
  ap_entry_name : Z → option string;
  ap_get_bytes : Z → Z → option (list Z);
  ap_strlit : Z → Z → option (list Z);   (* [get_strlit_contents] with [get_str_type] *)
  ap_xrefs_to : Z → Z → list PyXref;
  ap_xrefs_from : Z → Z → list PyXref;
  ap_is_64bit : bool;
  ap_is_32bit_exactly : bool;
  ap_baseaddr : option Z;                (* [None] when it raises *)
  ap_init_hexrays : bool;
  ap_decompile : PyFunc → result (string * list string) string;  (* [str(cfunc)], its lines *)
  ap_exec : string → PyExec * string * string                    (* with the two buffers *)
}.

(** How a script ends. *)
Inductive PyEnd : Type := Wrote (v : Value) | Raised.

(** ** Python *)

(** [s or d], for a string or [None]. *)
Definition py_or (o : option string) (d : string) : string :=
  match o with Some s => if bool_decide (s = "") then d else s | None => d end.

(** [if QUERY and QUERY not in text: continue] *)
Definition py_passes (query : option string) (text : string) : bool :=
  match query with Some q => bool_decide (q = "") || contains q text | None => true end.

(** [l[a:b]], for bounds that are not negative. *)
Definition py_slice {A} (l : list A) (a b : Z) : list A :=
  let n := Z.of_nat (length l) in
  let a := Z.min a n in
  take (Z.to_nat (Z.min b n - a)) (drop (Z.to_nat a) l).

(** [len] of a text: its code points, the bytes that do not continue one. *)
Definition py_len (s : string) : Z :=
  Z.of_nat (length (filter (λ c, is_true (negb ((128 <=? code c) && (code c <? 192))%Z)) (String.list_ascii_of_string s))).

Definition truthy (o : option string) : option string :=
  match o with Some s => if bool_decide (s = "") then None else Some s | None => None end.

(** The digits of [int(s, base)]: single underscores may stand between them. *)
Fixpoint py_digits (base acc : Z) (s : string) : option Z :=
  match s with
  | EmptyString => Some acc
  | String "_" (String c rest) =>
      match to_digit base c with Some d => py_digits base (acc * base + d) rest | None => None end
  | String c rest =>
      match to_digit base c with Some d => py_digits base (acc * base + d) rest | None => None end
  end.

Definition py_natural (base : Z) (s : string) : option Z :=
  match s with
  | String c rest => match to_digit base c with Some d => py_digits base d rest | None => None end
  | EmptyString => None
  end.

(** [0x] may be followed by an underscore. *)
Definition py_unprefixed (base : Z) (s : string) : option Z :=
  if (base =? 16)%Z && (starts_with "0x" s || starts_with "0X" s) then
    match skip2 s with String "_" rest => py_natural base rest | rest => py_natural base rest end
  else py_natural base s.

Definition py_int (base : Z) (s : string) : option Z :=
  match trim s with
  | String "-" rest => Z.opp <$> py_unprefixed base rest
  | String "+" rest => py_unprefixed base rest
  | s => py_unprefixed base s
  end.

(** [str.splitlines]: the line boundaries are those of Unicode, [\r\n] is one.  In UTF-8 the
    next line is two bytes, the line and paragraph separators are three. *)
Definition ascii_break (c : ascii) : bool :=
  bool_decide (c ∈ ["010"; "011"; "012"; "013"; "028"; "029"; "030"]%char).

(** What follows a boundary that begins with [c]. *)
Definition after_break (c : ascii) (rest : string) : option string :=
  match rest with
  | String d rest' =>
      if bool_decide (c = "013"%char) && bool_decide (d = "010"%char) then Some rest'
      else if ascii_break c then Some rest
      else if bool_decide (c = "194"%char) && bool_decide (d = "133"%char) then Some rest'
      else if bool_decide (c = "226"%char) && bool_decide (d = "128"%char) then
        match rest' with
        | String e rest'' => if bool_decide (e ∈ ["168"; "169"]%char) then Some rest'' else None
        | EmptyString => None
        end
      else None
  | EmptyString => if ascii_break c then Some "" else None
  end.

Fixpoint py_splitlines_go (fuel : nat) (cur s : string) : list string :=
  match fuel, s with
  | S fuel, String c rest =>
      match after_break c rest with
      | Some rest => cur :: py_splitlines_go fuel "" rest
      | None => py_splitlines_go fuel (cur +:+ String c "") rest
      end
  | _, _ => if bool_decide (cur = "") then [] else [cur]
  end.

(** Each turn takes a byte at least. *)
Definition py_splitlines (s : string) : list string := py_splitlines_go (String.length s) "" s.

(** [round(x, 2)] of a number that is not negative: the exact value to two digits, ties to
    the even one. *)
Definition py_round2 (x : f64) : f64 :=
  match x with
  | S754_finite s m e =>
      if (0 <=? e)%Z then x
      else
        let d := (2 ^ (- e))%Z in
        let q := (100 * Zpos m / d)%Z in
        let r := (100 * Zpos m mod d)%Z in
        let n := if (2 * r <? d)%Z then q else if (d <? 2 * r)%Z then (q + 1)%Z
                 else if Z.even q then q else (q + 1)%Z in
        f64_div (f64_of n) (f64_of 100)
  | _ => x
  end.

Section scripts.
(** [str.lower], [bytes.decode('utf-8', 'replace')], and the texts of numbers: of a float, of
    an integer that serde_json reads as a float, and [int] of a float. *)
Context (py_lower : string → string) (py_decode : list Z → string).
Context (f64_text : f64 → string) (big_int_text : Z → string) (int_of_float : string → option Z).
Context (api : Api).

(** An integer as serde_json reads what [json.dump] writes. *)
Definition json_int (z : Z) : Value :=
  if (z <=? u64_max)%Z then vz z else Number (Float (big_int_text z)).

(** The bindings refuse what is not an [ea_t]. *)
Definition on_ea (ea : Z) (k : PyEnd) : PyEnd := if (0 <=? ea)%Z && (ea <=? u64_max)%Z then k else Raised.

Definition error_result (msg : string) : PyEnd := Wrote (obj [("error", VString msg)]).

Definition hex_value (z : Z) : Value := VString (fmt_hex_alt z).

(** ** Functions *)

(** [for i in range(get_func_qty()): func = getn_func(i); if not func: continue] *)
Definition all_funcs : list PyFunc := omap (ap_getn_func api) (seq 0 (ap_func_qty api)).

(** [get_func_name(ea) or f"sub_{ea:x}"] *)
Definition func_name (ea : Z) : string := py_or (ap_func_name api ea) ("sub_" +:+ fmt_hex ea).

Definition pyfunc_value (f : PyFunc) : Value :=
  obj [("address", hex_value (pf_start f)); ("name", VString (func_name (pf_start f)));
       ("size", vz (pf_end f - pf_start f))].

(** [page = items[OFFSET:OFFSET + LIMIT]] with its [next_offset] *)
Definition page_value (key : string) (items : list Value) (OFFSET LIMIT : Z) : Value :=
  let total := Z.of_nat (length items) in
  let page := py_slice items OFFSET (OFFSET + LIMIT) in
  let next_offset := (OFFSET + Z.of_nat (length page))%Z in
  obj [(key, Array page); ("total", vz total);
       ("next_offset", if (total <=? next_offset)%Z then Null else json_int next_offset)].

Definition list_functions_script (OFFSET LIMIT : Z) (FILTER : option string) : PyEnd :=
  let functions := pyfunc_value <$> filter (λ f, py_passes FILTER (func_name (pf_start f)) = true) all_funcs in
  Wrote (page_value "functions" functions OFFSET LIMIT).

(** [if name == QUERY or QUERY in name: ... break] *)
Definition find_func (QUERY : string) : option PyFunc :=
  snd <$> list_find (λ f, name_hit QUERY (func_name (pf_start f)) = true) all_funcs.

Definition resolve_function_script (QUERY : string) : PyEnd :=
  match find_func QUERY with
  | Some f => Wrote (pyfunc_value f)
  | None => error_result ("Function not found: " +:+ QUERY)
  end.

(** The address that three of the scripts work on. *)
Definition target_of (ADDR : option Z) (NAME : option string) (OFFSET : Z) : option Z :=
  match ADDR, NAME with
  | Some a, _ => Some a
  | None, Some name => (λ f, (pf_start f + OFFSET)%Z) <$> find_func name
  | None, None => None
  end.

Definition on_target (ADDR : option Z) (NAME : option string) (OFFSET : Z) (k : Z → PyEnd) : PyEnd :=
  match target_of ADDR NAME OFFSET with
  | Some target => on_ea target (k target)
  | None => error_result "address or name required"
  end.

Definition not_found_at (ea : Z) : PyEnd := error_result ("Function not found at " +:+ fmt_hex_alt ea).

Definition range_fields (target : Z) (f : PyFunc) : list (string * Value) :=
  [("address", hex_value target); ("name", VString (func_name (pf_start f)));
   ("start", hex_value (pf_start f)); ("end", hex_value (pf_end f)); ("size", vz (pf_end f - pf_start f))].

Definition function_at_script (ADDR : option Z) (NAME : option string) (OFFSET : Z) : PyEnd :=
  on_target ADDR NAME OFFSET (λ target,
    match ap_get_func api target with
    | None => not_found_at target
    | Some f => Wrote (obj (range_fields target f))
    end).

(** ** Disassembly *)

(** [if next_ea == idc.BADADDR or next_ea <= ea: break] *)
Definition next_ea (ea : Z) : option Z :=
  let next := ap_next_head api ea in
  if (next =? ap_BADADDR api)%Z || (next <=? ea)%Z then None else Some next.

Fixpoint disasm_lines (count : nat) (ea : Z) : list string :=
  match count with
  | 0 => []
  | S count =>
      match truthy (ap_disasm_line api ea) with
      | None => []
      | Some text =>
          disasm_text ea text :: match next_ea ea with Some next => disasm_lines count next | None => [] end
      end
  end.

Definition disasm_value (lines : list string) : PyEnd := Wrote (obj [("disasm", VString (str_join newline lines))]).

Definition disasm_script (ADDR COUNT : Z) : PyEnd := disasm_value (disasm_lines (Z.to_nat COUNT) ADDR).

Definition disasm_name_script (NAME : string) (COUNT : Z) : PyEnd :=
  match find_func NAME with
  | None => error_result ("Function not found: " +:+ NAME)
  | Some f => disasm_value (disasm_lines (Z.to_nat COUNT) (pf_start f))
  end.

(** [while ea != idc.BADADDR and ea < func.end_ea and len(lines) < COUNT]: the address grows in
    every turn, so the length of the function bounds the turns. *)
Fixpoint function_lines (fuel : nat) (end_ea COUNT : Z) (ea : Z) (lines : list string) : list string :=
  match fuel with
  | 0 => lines
  | S fuel =>
      if negb (ea =? ap_BADADDR api)%Z && (ea <? end_ea)%Z && (Z.of_nat (length lines) <? COUNT)%Z then
        let lines := match truthy (ap_disasm_line api ea) with
                     | Some text => lines ++ [disasm_text ea text]
                     | None => lines
                     end in
        match next_ea ea with Some next => function_lines fuel end_ea COUNT next lines | None => lines end
      else lines
  end.

Definition disasm_function_at_script (ADDR : option Z) (NAME : option string) (OFFSET COUNT : Z) : PyEnd :=
  on_target ADDR NAME OFFSET (λ target,
    match ap_get_func api target with
    | None => not_found_at target
    | Some f => disasm_value (function_lines (Z.to_nat (pf_end f - pf_start f)) (pf_end f) COUNT (pf_start f) [])
    end).

(** ** Segments and addresses *)

Definition seg_fields (seg : PySeg) : list (string * Value) :=
  let may (bit : Z) (c : string) := if (Z.land (pg_perm seg) bit =? 0)%Z then "" else c in
  [("name", VString (py_or (pg_name seg) "")); ("start", hex_value (pg_start seg)); ("end", hex_value (pg_end seg));
   ("size", vz (pg_end seg - pg_start seg));
   ("permissions", VString (may (ap_SEGPERM_READ api) "r" +:+ may (ap_SEGPERM_WRITE api) "w" +:+
                            may (ap_SEGPERM_EXEC api) "x"));
   ("type", VString (fmt_dec (pg_type seg)));
   ("bitness", vz (if (pg_bitness seg =? 2)%Z then 64 else if (pg_bitness seg =? 1)%Z then 32 else 16))].

Definition all_segs : list PySeg := omap (ap_getnseg api) (seq 0 (ap_segm_qty api)).

Definition segments_script : PyEnd := Wrote (Array (obj ∘ seg_fields <$> all_segs)).

Definition symbol_fields (target : Z) (name : string) : list (string * Value) :=
  [("name", VString name); ("address", hex_value target); ("delta", vz 0); ("exact", Bool true);
   ("is_public", Bool true); ("is_weak", Bool false)].

Definition addr_info_script (ADDR : option Z) (NAME : option string) (OFFSET : Z) : PyEnd :=
  on_target ADDR NAME OFFSET (λ target,
    Wrote (obj [("address", hex_value target);
                ("segment", opt_value (obj ∘ seg_fields <$> ap_getseg api target));
                ("function", opt_value (obj ∘ range_fields target <$> ap_get_func api target));
                ("symbol", opt_value (obj ∘ symbol_fields target <$> truthy (ap_get_name api target)))])).

(** ** Strings *)

(** [try: content = str(item) except Exception: content = ""] *)
Definition content (item : PyString) : string := default "" (pt_text item).

Definition string_fields (item : PyString) : list (string * Value) :=
  [("address", hex_value (pt_ea item)); ("content", VString (content item)); ("length", vz (pt_length item))].

Definition strings_script (OFFSET LIMIT : Z) (QUERY : option string) : PyEnd :=
  let items := obj ∘ string_fields <$> filter (λ item, py_passes QUERY (content item) = true) (ap_strings api) in
  Wrote (page_value "strings" items OFFSET LIMIT).

Definition string_hit (QUERY : string) (EXACT CASE_INSENSITIVE : bool) (text : string) : bool :=
  let query := if CASE_INSENSITIVE then py_lower QUERY else QUERY in
  let hay := if CASE_INSENSITIVE then py_lower text else text in
  if EXACT then bool_decide (hay = query) else contains query hay.

(** The loop over the references of a string, which leaves after the one that fills it. *)
Fixpoint xref_sources (MAX_XREFS : Z) (out : list Value) (l : list PyXref) : list Value :=
  match l with
  | [] => out
  | x :: l =>
      let out := out ++ [hex_value (px_from x)] in
      if (MAX_XREFS <=? Z.of_nat (length out))%Z then out else xref_sources MAX_XREFS out l
  end.

Definition string_xrefs_value (MAX_XREFS : Z) (item : PyString) : Value :=
  let xrefs := xref_sources MAX_XREFS [] (ap_xrefs_to api (pt_ea item) 0) in
  obj (string_fields item ++ [("xrefs", Array xrefs); ("xref_count", vnat (length xrefs))]).

Definition xrefs_to_string_script (QUERY : string) (EXACT CASE_INSENSITIVE : bool) (OFFSET LIMIT MAX_XREFS : Z) : PyEnd :=
  let items := string_xrefs_value MAX_XREFS <$>
                 filter (λ item, string_hit QUERY EXACT CASE_INSENSITIVE (content item) = true) (ap_strings api) in
  Wrote (page_value "strings" items OFFSET LIMIT).

(** ** Bytes *)

Definition out_of_range (ea : Z) : PyEnd := error_result ("Address out of range: " +:+ fmt_hex_alt ea).

Definition get_bytes_script (ADDR SIZE : Z) : PyEnd :=
  match ap_get_bytes api ADDR SIZE with
  | None => out_of_range ADDR
  | Some data => Wrote (obj [("address", hex_value ADDR); ("bytes", VString (hex_encode data));
                             ("length", vnat (length data))])
  end.

Definition read_string_script (ADDR MAX_LEN : Z) : PyEnd :=
  match (match ap_strlit api ADDR MAX_LEN with Some data => Some data | None => ap_get_bytes api ADDR MAX_LEN end) with
  | None => out_of_range ADDR
  | Some data =>
      let text := trim_end_with (λ c, bool_decide (c = nul_char)) (py_decode data) in
      Wrote (obj [("address", hex_value ADDR); ("string", VString text); ("length", vz (py_len text))])
  end.

(** [int.from_bytes(data, 'little')] *)
Definition from_little (data : list Z) : Z := foldr (λ b acc, b + 256 * acc)%Z 0%Z data.

Definition read_int_script (ADDR SIZE : Z) : PyEnd :=
  match ap_get_bytes api ADDR SIZE with
  | None => out_of_range ADDR
  | Some data =>
      let value := from_little data in
      Wrote (obj [("address", hex_value ADDR); ("value", json_int value); ("hex", hex_value value);
                  ("bytes", VString (hex_encode data))])
  end.

(** [if len(matches) >= MAX_RESULTS: break] *)
Definition reached_max (MAX_RESULTS : Z) {A} (matches : list A) : bool := (MAX_RESULTS <=? Z.of_nat (length matches))%Z.

(** [PATTERN.replace(',', ' ').split()], and the bytes of its tokens; [int] may raise. *)
Definition needle_token (tok : string) : option (option Z) :=
  if bool_decide (tok = "??") || bool_decide (tok = "?") then Some None else Some <$> py_int 16 tok.

Definition needle_of (PATTERN : string) : option (list (option Z)) :=
  mapM needle_token (split_whitespace (str_replace "," " " PATTERN)).

(** [for idx in range(0, len(data) - span + 1)], from the address of the first byte. *)
Fixpoint scan_data (needle : list (option Z)) (MAX_RESULTS : Z) (ea : Z) (data : list Z)
    (matches : list (Z * list Z)) : list (Z * list Z) :=
  if bool_decide (length data < length needle) then matches
  else if reached_max MAX_RESULTS matches then matches
  else
    let matches := if pat_match needle data then matches ++ [(ea, take (length needle) data)] else matches in
    match data with
    | [] => matches
    | _ :: rest => scan_data needle MAX_RESULTS (ea + 1) rest matches
    end.

Fixpoint scan_segs (needle : list (option Z)) (MAX_RESULTS : Z) (segs : list (option PySeg))
    (matches : list (Z * list Z)) : list (Z * list Z) :=
  match segs with
  | [] => matches
  | seg :: segs =>
      if reached_max MAX_RESULTS matches then matches
      else
        let matches :=
          match seg with
          | None => matches
          | Some seg =>
              match ap_get_bytes api (pg_start seg) (pg_end seg - pg_start seg) with
              | None | Some [] => matches
              | Some data => scan_data needle MAX_RESULTS (pg_start seg) data matches
              end
          end in
        scan_segs needle MAX_RESULTS segs matches
  end.

Definition byte_match (m : Z * list Z) : Value :=
  obj [("address", hex_value m.1); ("bytes", VString (hex_encode m.2))].

Definition search_bytes_script (PATTERN : string) (MAX_RESULTS : Z) : PyEnd :=
  match needle_of PATTERN with
  | None => Raised
  | Some needle =>
      let matches := scan_segs needle MAX_RESULTS (ap_getnseg api <$> seq 0 (ap_segm_qty api)) [] in
      Wrote (obj [("matches", Array (byte_match <$> matches)); ("count", vnat (length matches))])
  end.

(** ** References *)

Definition xref_value (x : PyXref) : Value :=
  obj [("from", hex_value (px_from x)); ("to", hex_value (px_to x)); ("type", VString (fmt_dec (px_type x)));
       ("is_code", Bool (px_iscode x))].

Definition xrefs_script (ADDR : Z) (MODE : string) : PyEnd :=
  Wrote (Array (xref_value <$> (if bool_decide (MODE = "to") then ap_xrefs_to api ADDR 0 else ap_xrefs_from api ADDR 0))).

(** A function of the two lists, unless it was seen. *)
Definition add_seen (ea : Z) (acc : gset Z * list PyFunc) : gset Z * list PyFunc :=
  match ap_get_func api ea with
  | None => acc
  | Some f => if bool_decide (pf_start f ∈ acc.1) then acc else ({[pf_start f]} ∪ acc.1, acc.2 ++ [f])
  end.

Definition caller_funcs (start : Z) : list PyFunc :=
  (foldl (λ acc x, add_seen (px_from x) acc) (∅, []) (ap_xrefs_to api start (ap_XREF_ALL api))).2.

Definition callers_script (ADDR : Z) : PyEnd :=
  match ap_get_func api ADDR with
  | None => not_found_at ADDR
  | Some target => Wrote (Array (pyfunc_value <$> caller_funcs (pf_start target)))
  end.

Definition call_type (x : PyXref) : bool := (px_type x =? ap_fl_CN api)%Z || (px_type x =? ap_fl_CF api)%Z.

Definition callee_funcs (start : Z) : list PyFunc :=
  (foldl (λ acc ea,
     foldl (λ acc x, if call_type x then add_seen (px_to x) acc else acc) acc (ap_xrefs_from api ea (ap_XREF_ALL api)))
   (∅, []) (ap_func_items api start)).2.

Definition callees_script (ADDR : Z) : PyEnd :=
  match ap_get_func api ADDR with
  | None => not_found_at ADDR
  | Some f => Wrote (Array (pyfunc_value <$> callee_funcs (pf_start f)))
  end.

(** ** Imports, exports, globals *)

(** The callback returns [True], so that every name of every module is visited; the ordinals
    count on through the modules. *)
Definition imports_script (OFFSET LIMIT : Z) : PyEnd :=
  let items := imap (λ i '(ea, name, ordinal),
                 obj [("address", hex_value ea); ("name", VString (py_or name ("ord_" +:+ fmt_dec ordinal)));
                      ("ordinal", vnat i)]) (concat (ap_imports api)) in
  Wrote (Array (py_slice items OFFSET (OFFSET + LIMIT))).

Definition exports_script (OFFSET LIMIT : Z) : PyEnd :=
  let items := (λ idx, let ordinal := ap_entry_ordinal api idx in
                 obj [("address", hex_value (ap_entry api ordinal));
                      ("name", VString (py_or (ap_entry_name api ordinal) ("entry_" +:+ fmt_dec ordinal)));
                      ("is_public", Bool true)]) <$> seq 0 (ap_entry_qty api) in
  Wrote (Array (py_slice items OFFSET (OFFSET + LIMIT))).

Definition entrypoints_script : PyEnd :=
  Wrote (Array ((λ idx, hex_value (ap_entry api (ap_entry_ordinal api idx))) <$> seq 0 (ap_entry_qty api))).

Definition py_global (QUERY : option string) (n : Z * string) : bool :=
  negb (bool_decide (is_Some (ap_get_func api n.1))) &&
  match QUERY with
  | Some q => bool_decide (q = "") || contains (py_lower q) (py_lower n.2)
  | None => true
  end.

Definition py_global_value (n : Z * string) : Value :=
  obj [("address", hex_value n.1); ("name", VString n.2); ("is_public", Bool true); ("is_weak", Bool false)].

Definition globals_script (QUERY : option string) (OFFSET LIMIT : Z) : PyEnd :=
  let items := py_global_value <$> filter (λ n, py_global QUERY n = true) (ap_names api) in
  Wrote (page_value "globals" items OFFSET LIMIT).

(** ** The database *)

Definition py_bits : Z := if ap_is_64bit api then 64 else if ap_is_32bit_exactly api then 32 else 16.

Definition database_info_script (DB_PATH : string) : PyEnd :=
  Wrote (obj [("file_type", VString "idat-compat"); ("processor", VString "metapc"); ("bits", vz py_bits);
              ("function_count", vnat (ap_func_qty api)); ("input_file_path", VString DB_PATH);
              ("base_address", opt_value (hex_value <$> ap_baseaddr api))]).

(** [collect_db_info], which opening runs. *)
Definition db_info_script (DB_PATH : string) : PyEnd :=
  Wrote (obj [("path", VString DB_PATH); ("file_type", VString "idat-compat"); ("processor", VString "metapc");
              ("bits", vz py_bits); ("function_count", vnat (ap_func_qty api)); ("debug_info", Null);
              ("analysis_status", obj [("auto_enabled", Bool true); ("auto_is_ok", Bool true);
                                       ("auto_state", VString "AU_NONE"); ("auto_state_id", vz 0);
                                       ("analysis_running", Bool false)])]).

(** ** Text search *)

Definition text_match (ea : Z) (text kind : string) : Value :=
  obj [("address", hex_value ea); ("text", VString text); ("kind", VString kind)].

(** A loop over texts that leaves when there are enough matches. *)
Fixpoint text_loop (QUERY : string) (MAX_RESULTS : Z) (kind : string) (matches : list Value) (l : list (Z * string)) :
    list Value :=
  match l with
  | [] => matches
  | (ea, text) :: l =>
      if reached_max MAX_RESULTS matches then matches
      else text_loop QUERY MAX_RESULTS kind
             (if contains QUERY text then matches ++ [text_match ea text kind] else matches) l
  end.

Fixpoint line_loop (fuel : nat) (QUERY : string) (MAX_RESULTS end_ea : Z) (ea : Z) (matches : list Value) : list Value :=
  match fuel with
  | 0 => matches
  | S fuel =>
      if negb (ea =? ap_BADADDR api)%Z && (ea <? end_ea)%Z && negb (reached_max MAX_RESULTS matches) then
        let line := default "" (ap_disasm_line api ea) in
        let matches := if contains QUERY line then matches ++ [text_match ea line "disasm"] else matches in
        match next_ea ea with Some next => line_loop fuel QUERY MAX_RESULTS end_ea next matches | None => matches end
      else matches
  end.

Fixpoint func_loop (QUERY : string) (MAX_RESULTS : Z) (matches : list Value) (l : list Z) : list Value :=
  match l with
  | [] => matches
  | ea :: l =>
      if reached_max MAX_RESULTS matches then matches
      else
        let end_ea := ap_find_func_end api ea in
        func_loop QUERY MAX_RESULTS (line_loop (Z.to_nat (end_ea - ea)) QUERY MAX_RESULTS end_ea ea matches) l
  end.

Definition search_text_script (QUERY : string) (MAX_RESULTS : Z) : PyEnd :=
  let matches := text_loop QUERY MAX_RESULTS "string" [] ((λ item, (pt_ea item, content item)) <$> ap_strings api) in
  let matches := text_loop QUERY MAX_RESULTS "name" matches (ap_names api) in
  let matches := func_loop QUERY MAX_RESULTS matches (ap_functions api) in
  Wrote (obj [("matches", Array matches); ("count", vnat (length matches))]).

(** ** Code *)

Definition run_script_script (user_code : string) : PyEnd :=
  let result (success : bool) (out err : string) (error summary kind : Value) :=
    Wrote (obj [("success", Bool success); ("stdout", VString out); ("stderr", VString err); ("error", error);
                ("error_summary", summary); ("error_kind", kind)]) in
  match ap_exec api user_code with
  | (ExecDone, out, err) => result true out err Null Null Null
  | (ExecRaised kind msg traceback, out, err) =>
      result false out (err +:+ traceback) (VString msg) (VString (kind +:+ ": " +:+ msg)) (VString kind)
  | (ExecEscaped, _, _) => Raised
  end.

Definition decompile_script (TARGET_EA : Z) : PyEnd :=
  if negb (ap_init_hexrays api) then error_result "Decompiler not available"
  else
    match ap_get_func api TARGET_EA with
    | None => not_found_at TARGET_EA
    | Some f =>
        match ap_decompile api f with
        | Ok (text, _) => Wrote (obj [("code", VString text)])
        | Err exc => error_result exc
        end
    end.

Definition pseudocode_at_script (ADDR : Z) (END_ADDR : option Z) : PyEnd :=
  if negb (ap_init_hexrays api) then error_result "Decompiler not available"
  else
    match ap_get_func api ADDR with
    | None => not_found_at ADDR
    | Some f =>
        match ap_decompile api f with
        | Err _ => Raised
        | Ok (text, lines) =>
            Wrote (obj [("function_start", hex_value (pf_start f)); ("function_end", hex_value (pf_end f));
                        ("query_start", hex_value ADDR); ("query_end", opt_value (hex_value <$> END_ADDR));
                        ("eamap_ready", Bool false);
                        ("statements", Array [obj [("address", hex_value ADDR); ("text", VString text); ("bounds", Null)]]);
                        ("pseudocode_lines", Array (VString <$> lines))])
        end
    end.

(** [int(raw, 16)] of a hexadecimal text, [int(raw)] of anything else. *)
Definition raw_ea (raw : Value) : option Z :=
  match raw with
  | VString s => if starts_with "0x" (to_ascii_lowercase s) then py_int 16 s else py_int 10 s
  | Number (PosInt z) | Number (NegInt z) => Some z
  | Number (Float text) => int_of_float text
  | Bool b => Some (if b then 1 else 0)%Z
  | Null | Array _ | Object _ => None
  end.

(** One address; [None] is an exception outside of the [try]. *)
Definition batch_entry (raw : Value) : option Value :=
  ea ← raw_ea raw;
  if (0 <=? ea)%Z && (ea <=? u64_max)%Z then
    Some (match ap_get_func api ea with
          | None => obj [("address", raw); ("error", VString "function not found"); ("success", Bool false)]
          | Some f =>
              match ap_decompile api f with
              | Ok (text, _) => obj [("address", raw); ("pseudocode", VString text); ("success", Bool true)]
              | Err exc => obj [("address", raw); ("error", VString exc); ("success", Bool false)]
              end
          end)
  else None.

Definition batch_decompile_script (ADDRS : list Value) : PyEnd :=
  match mapM batch_entry ADDRS with Some results => Wrote (Array results) | None => Raised end.

Record PyPseudo : Type := { pp_matches : list Value; pp_searched : nat; pp_errors : nat }.

Fixpoint pseudo_loop (PATTERN : string) (LIMIT : Z) (acc : PyPseudo) (l : list (option PyFunc)) : PyPseudo :=
  match l with
  | [] => acc
  | o :: l =>
      if reached_max LIMIT (pp_matches acc) then acc
      else
        match o with
        | None => pseudo_loop PATTERN LIMIT acc l
        | Some f =>
            let searched := S (pp_searched acc) in
            match ap_decompile api f with
            | Ok (text, _) =>
                let hit := obj [("address", hex_value (pf_start f)); ("name", VString (func_name (pf_start f)));
                                ("pseudocode", VString text)] in
                pseudo_loop PATTERN LIMIT
                  {| pp_matches := if contains PATTERN text then pp_matches acc ++ [hit] else pp_matches acc;
                     pp_searched := searched; pp_errors := pp_errors acc |} l
            | Err _ =>
                pseudo_loop PATTERN LIMIT
                  {| pp_matches := pp_matches acc; pp_searched := searched; pp_errors := S (pp_errors acc) |} l
            end
        end
  end.

Definition search_pseudocode_script (PATTERN : string) (LIMIT : Z) : PyEnd :=
  let acc := pseudo_loop PATTERN LIMIT {| pp_matches := []; pp_searched := 0; pp_errors := 0 |}
               (ap_getn_func api <$> seq 0 (ap_func_qty api)) in
  Wrote (obj [("pattern", VString PATTERN); ("matches", Array (pp_matches acc));
              ("total_searched", vnat (pp_searched acc)); ("decompile_errors", vnat (pp_errors acc))]).

(** [for i in range(max_len)]: the line of each text, or [None] past its end. *)
Definition diff_step (lines1 lines2 : list string) (acc : list string * nat * nat) (i : nat) : list string * nat * nat :=
  let '(diff, same, different) := acc in
  match lines1 !! i, lines2 !! i with
  | Some l1, Some l2 =>
      if bool_decide (l1 = l2) then (diff ++ ["  " +:+ l1], S same, different)
      else (diff ++ ["- " +:+ l1; "+ " +:+ l2], same, S different)
  | Some l1, None => (diff ++ ["- " +:+ l1], same, S different)
  | None, Some l2 => (diff ++ ["+ " +:+ l2], same, S different)
  | None, None => acc
  end.

Definition py_diff (lines1 lines2 : list string) : list string * nat * nat :=
  foldl (diff_step lines1 lines2) ([], 0, 0) (seq 0 (length lines1 `max` length lines2)).

Definition py_ratio (same different : nat) : f64 :=
  let total := same + different in
  py_round2 (if bool_decide (total = 0) then f64_of 1 else f64_div (f64_of (Z.of_nat same)) (f64_of (Z.of_nat total))).

Definition decompile_at (ea : Z) : option string :=
  f ← ap_get_func api ea; fst <$> ok (ap_decompile api f).

Definition diff_pseudocode_script (ADDR1 ADDR2 : Z) : PyEnd :=
  match decompile_at ADDR1, decompile_at ADDR2 with
  | Some code1, Some code2 =>
      let '(diff, same, different) := py_diff (py_splitlines code1) (py_splitlines code2) in
      Wrote (obj [("function1", VString code1); ("function2", VString code2);
                  ("similarity_ratio", Number (Float (f64_text (py_ratio same different))));
                  ("diff_lines", Array (VString <$> diff))])
  | _, _ => Raised
  end.

(** ** The assignments before a script *)

Inductive PyVal : Type := PyNone | PyBool (b : bool) | PyInt (z : Z) | PyStr (s : string).

(** The literals that the worker writes. *)
Definition py_literal (text : string) : option PyVal :=
  if bool_decide (text = "None") then Some PyNone
  else if bool_decide (text = "True") then Some (PyBool true)
  else if bool_decide (text = "False") then Some (PyBool false)
  else match text with
       | String c rest =>
           if bool_decide (c = "'"%char) then
             match py_read "'" rest with Some (s, "") => Some (PyStr s) | _ => None end
           else PyInt <$> parse_u64 text
       | EmptyString => None
       end.

Definition Vars : Type := list (string * string).

Definition var (vars : Vars) (name : string) : option PyVal :=
  row ← List.find (λ row, bool_decide (row.1 = name)) vars; py_literal row.2.

Definition int_var (vars : Vars) (name : string) : option Z :=
  match var vars name with Some (PyInt z) => Some z | _ => None end.
Definition str_var (vars : Vars) (name : string) : option string :=
  match var vars name with Some (PyStr s) => Some s | _ => None end.
Definition bool_var (vars : Vars) (name : string) : option bool :=
  match var vars name with Some (PyBool b) => Some b | _ => None end.
Definition opt_int_var (vars : Vars) (name : string) : option (option Z) :=
  match var vars name with Some (PyInt z) => Some (Some z) | Some PyNone => Some None | _ => None end.
Definition opt_str_var (vars : Vars) (name : string) : option (option string) :=
  match var vars name with Some (PyStr s) => Some (Some s) | Some PyNone => Some None | _ => None end.

(** [json.loads(...)] of a literal in triple quotes, for a text in which Python sees no escape
    and no end of the literal. *)
Context (json_loads : string → option Value).

Definition addrs_var (vars : Vars) : option (list Value) :=
  row ← List.find (λ row, bool_decide (row.1 = "ADDRS")) vars;
  rest ← strip_prefix ("json.loads(" +:+ "'" +:+ "'" +:+ "'") row.2;
  let body := String.substring 0 (String.length rest - 4) rest in
  if contains backslash body || contains ("'" +:+ "'" +:+ "'") body then None
  else json_loads body ≫= as_array.

(** The script of each kind; [None] when an assignment is not a literal of the expected sort. *)
Definition script_table (DB_PATH : string) (user_code : option string) : list (string * (Vars → option PyEnd)) :=
  [("open-db-info", λ _, Some (db_info_script DB_PATH));
   ("inspect-db-info", λ _, Some (db_info_script DB_PATH));
   ("list-functions", λ v,
      o ← int_var v "OFFSET"; l ← int_var v "LIMIT"; f ← opt_str_var v "FILTER"; Some (list_functions_script o l f));
   ("resolve-function", λ v, q ← str_var v "QUERY"; Some (resolve_function_script q));
   ("function-at", λ v,
      a ← opt_int_var v "ADDR"; n ← opt_str_var v "NAME"; o ← int_var v "OFFSET"; Some (function_at_script a n o));
   ("disasm", λ v, a ← int_var v "ADDR"; c ← int_var v "COUNT"; Some (disasm_script a c));
   ("disasm-name", λ v, n ← str_var v "NAME"; c ← int_var v "COUNT"; Some (disasm_name_script n c));
   ("disasm-function-at", λ v,
      a ← opt_int_var v "ADDR"; n ← opt_str_var v "NAME"; o ← int_var v "OFFSET"; c ← int_var v "COUNT";
      Some (disasm_function_at_script a n o c));
   ("segments", λ _, Some segments_script);
   ("strings", λ v,
      o ← int_var v "OFFSET"; l ← int_var v "LIMIT"; q ← opt_str_var v "QUERY"; Some (strings_script o l q));
   ("bytes", λ v, a ← int_var v "ADDR"; n ← int_var v "SIZE"; Some (get_bytes_script a n));
   ("addr-info", λ v,
      a ← opt_int_var v "ADDR"; n ← opt_str_var v "NAME"; o ← int_var v "OFFSET"; Some (addr_info_script a n o));
   ("xrefs", λ v, a ← int_var v "ADDR"; m ← str_var v "MODE"; Some (xrefs_script a m));
   ("xrefs-to-string", λ v,
      q ← str_var v "QUERY"; e ← bool_var v "EXACT"; c ← bool_var v "CASE_INSENSITIVE"; o ← int_var v "OFFSET";
      l ← int_var v "LIMIT"; m ← int_var v "MAX_XREFS"; Some (xrefs_to_string_script q e c o l m));
   ("callers", λ v, a ← int_var v "ADDR"; Some (callers_script a));
   ("callees", λ v, a ← int_var v "ADDR"; Some (callees_script a));
   ("imports", λ v, o ← int_var v "OFFSET"; l ← int_var v "LIMIT"; Some (imports_script o l));
   ("exports", λ v, o ← int_var v "OFFSET"; l ← int_var v "LIMIT"; Some (exports_script o l));
   ("entrypoints", λ _, Some entrypoints_script);
   ("db-info", λ _, Some (database_info_script DB_PATH));
   ("globals", λ v,
      q ← opt_str_var v "QUERY"; o ← int_var v "OFFSET"; l ← int_var v "LIMIT"; Some (globals_script q o l));
   ("read-string", λ v, a ← int_var v "ADDR"; n ← int_var v "MAX_LEN"; Some (read_string_script a n));
   ("read-int", λ v, a ← int_var v "ADDR"; n ← int_var v "SIZE"; Some (read_int_script a n));
   ("search-text", λ v, q ← str_var v "QUERY"; m ← int_var v "MAX_RESULTS"; Some (search_text_script q m));
   ("search-bytes", λ v, p ← str_var v "PATTERN"; m ← int_var v "MAX_RESULTS"; Some (search_bytes_script p m));
   ("run-script", λ _, code ← user_code; Some (run_script_script code));
   ("pseudocode-at", λ v, a ← int_var v "ADDR"; e ← opt_int_var v "END_ADDR"; Some (pseudocode_at_script a e));
   ("batch-decompile", λ v, a ← addrs_var v; Some (batch_decompile_script a));
   ("search-pseudocode", λ v,
      p ← str_var v "PATTERN"; l ← int_var v "LIMIT"; Some (search_pseudocode_script p l));
   ("diff-pseudocode", λ v, a ← int_var v "ADDR1"; b ← int_var v "ADDR2"; Some (diff_pseudocode_script a b));
   ("decompile", λ v, a ← int_var v "TARGET_EA"; Some (decompile_script a))].

(** [DB_PATH = r"{database_literal}"]: a raw literal keeps its backslashes. *)
Definition python_db_path (inv : Invocation) : string :=
  escape_python_string (default (iv_target inv) (iv_output inv)).

Definition run_invocation (inv : Invocation) : option PyEnd :=
  row ← List.find (λ row, bool_decide (row.1 = sc_kind (iv_script inv))) (script_table (python_db_path inv) (iv_code inv));
  row.2 (sc_vars (iv_script inv)).
End scripts.
