(* ===== verification/CompatTheorems.v ===== *)
(** * The compatibility worker answers as the native one

    Both backends serve the same methods: the native one with the handlers of
    src/ida/handlers, the other with Python scripts inside [idat].  [SameDatabase] says that
    IDAPython and idalib look at one database; the theorems say where the two answers agree,
    and where the scripts promise something else. *)

From Stdlib Require Import Ascii ZArith SpecFloat.
From stdpp Require Import base gmap strings numbers list.
From S2P Require Import ToolTable ToolRegistry Fs IdbStore IdaRequest IdaWorker McpLock OpenDatabase LoopArms.
From S2P Require Import Serde ToolRequests F64 RpcDispatch CliTheorems WorkerHandlers.
From S2P Require Import Prelude RustStr Json ToolError Runtime Protocol Parse Search ControlFlow WorkerMain IdatCompat PyText.
From S2P Require Import IdatTheorems Paging IdaDatabase ListHandlers MemoryHandlers CodeHandlers CompatScripts.

Open Scope ida_scope.

(** ** Literals *)

Lemma literal_int n : in_u64 n → py_literal (fmt_dec n) = Some (PyInt n).
Proof.
  intros Hn. pose proof (from_str_radix_fmt u64_max 10 n ltac:(lia) Hn) as Hp. fold (fmt_dec n) in Hp.
  fold (parse_u64 (fmt_dec n)) in Hp.
  unfold py_literal. destruct (fmt_dec n) as [|c rest] eqn:E; [done|].
  rewrite !bool_decide_false by (intros Heq; rewrite Heq in Hp; discriminate Hp).
  by rewrite Hp.
Qed.

Lemma literal_str s : no_apostrophe s = true → py_literal (py_str s) = Some (PyStr s).
Proof.
  intros Hs. unfold py_literal, py_str. rewrite !bool_decide_false by done.
  change ("'" +:+ escape_python_string s +:+ "'") with (String "'" (escape_python_string s +:+ "'")).
  cbv beta iota. rewrite bool_decide_true by done. rewrite py_read_escape by (done || by left).
  change (py_read "'" "'") with (Some ("", "")). cbn [fmap option_fmap option_map fst snd]. by rewrite string_app_nil.
Qed.

Lemma literal_bool b : py_literal (py_bool b) = Some (PyBool b).
Proof. by destruct b. Qed.

(** A text that the worker can pass to Python. *)
Definition passable (o : option string) : Prop := match o with Some s => no_apostrophe s = true | None => True end.

Lemma literal_opt_str o : passable o → py_literal (py_opt_str o) = Some (match o with Some s => PyStr s | None => PyNone end).
Proof. destruct o; [apply literal_str|done]. Qed.

(** The variables of a script. *)
Definition assigned (vars : Vars) (name text : string) : Prop :=
  List.find (λ row, bool_decide (row.1 = name)) vars = Some (name, text).

Lemma int_var_at vars name n : assigned vars name (fmt_dec n) → in_u64 n → int_var vars name = Some n.
Proof. intros Ha Hn. unfold int_var, var. rewrite Ha. cbn [mbind option_bind snd]. by rewrite literal_int. Qed.
Lemma str_var_at vars name s : assigned vars name (py_str s) → no_apostrophe s = true → str_var vars name = Some s.
Proof. intros Ha Hs. unfold str_var, var. rewrite Ha. cbn [mbind option_bind snd]. by rewrite literal_str. Qed.
Lemma bool_var_at vars name b : assigned vars name (py_bool b) → bool_var vars name = Some b.
Proof. intros Ha. unfold bool_var, var. rewrite Ha. cbn [mbind option_bind snd]. by rewrite literal_bool. Qed.
Lemma opt_str_var_at vars name o : assigned vars name (py_opt_str o) → passable o → opt_str_var vars name = Some o.
Proof.
  intros Ha Hs. unfold opt_str_var, var. rewrite Ha. cbn [mbind option_bind snd]. rewrite literal_opt_str by done.
  by destruct o.
Qed.

(** Reads the assignments of a script one after the other. *)
Ltac read_vars :=
  repeat first
    [ erewrite int_var_at by first [reflexivity | eassumption]
    | erewrite str_var_at by first [reflexivity | eassumption]
    | erewrite bool_var_at by reflexivity
    | erewrite opt_str_var_at by first [reflexivity | eassumption]
    | progress cbn [mbind option_bind] ].

(** ** Pages *)

Lemma py_slice_spec {A} (l : list A) (o n : Z) :
  (0 ≤ o → 0 ≤ n → py_slice l o (o + n) = take (Z.to_nat n) (drop (Z.to_nat o) l))%Z.
Proof.
  intros Ho Hn. unfold py_slice. cbn zeta. set (len := Z.of_nat (length l)).
  destruct (decide (o ≤ len)%Z).
  - rewrite (Z.min_l o) by lia. destruct (decide (o + n ≤ len)%Z).
    + rewrite Z.min_l by lia. do 2 f_equal. lia.
    + rewrite Z.min_r by lia. rewrite !take_ge by (rewrite length_drop; lia). done.
  - rewrite !Z.min_r by lia. rewrite !drop_ge by lia. by rewrite !take_nil.
Qed.

(** The scripts' pages are the native ones. *)
Lemma page_value_paged {A B} big key (keep : A → bool) (f : A → B) (g : B → Value) (items : list A) (offset limit : Z) :
  in_u64 offset → (0 ≤ limit)%Z → (Z.of_nat (length items) ≤ u64_max)%Z →
  page_value big key ((g ∘ f) <$> filter (λ x, keep x = true) items) offset limit =
  let '(page, total) := paged keep f offset limit items in
  obj [(key, Array (g <$> page)); ("total", vz total); ("next_offset", opt_vz (next_offset offset (length page) total))].
Proof.
  intros [Ho Ho'] Hl Hlen. rewrite paged_spec by lia. unfold page_value. rewrite py_slice_spec by lia.
  set (kept := filter _ items). rewrite !length_fmap, !length_take, !length_drop, !length_fmap.
  set (got := Z.to_nat limit `min` (length kept - Z.to_nat offset)).
  assert (length kept ≤ length items) by apply length_filter.
  rewrite <-fmap_drop, <-fmap_take, <-list_fmap_compose.
  do 4 f_equal. unfold next_offset, saturating_add.
  destruct (Z.leb_spec (Z.of_nat (length kept)) (offset + Z.of_nat got)).
  - rewrite (proj2 (Z.ltb_ge _ _)); [done|]. lia.
  - rewrite Z.min_l by lia. rewrite (proj2 (Z.ltb_lt _ _)) by lia. cbn. unfold json_int.
    rewrite (proj2 (Z.leb_le _ _)) by lia. done.
Qed.

(** ** Lines *)

(** A text whose only line boundary is the newline, in one language as in the other. *)
Definition unix_text (s : string) : bool :=
  str_all (λ c, negb (ascii_break c && negb (bool_decide (c = "010"%char)) ||
                      bool_decide (c = "194"%char) || bool_decide (c = "226"%char))) s.

Lemma after_break_unix c rest : unix_text (String c rest) = true →
  after_break c rest = if bool_decide (c = "010"%char) then Some rest else None.
Proof.
  unfold unix_text. cbn [str_all]. rewrite andb_true_iff, negb_true_iff, !orb_false_iff. intros [[[Hb H194] H226] _].
  unfold after_break. destruct (decide (c = "010"%char)) as [->|Hc]; [by destruct rest|].
  rewrite (bool_decide_false (c = "010"%char)) by done.
  rewrite (bool_decide_false (c = "010"%char)) in Hb by done. cbn [negb] in Hb. rewrite andb_true_r in Hb. rewrite Hb, H194, H226.
  destruct rest as [|d rest]; [done|]. cbn [andb]. rewrite (bool_decide_false (c = "013"%char)); [done|]. by intros ->.
Qed.

Lemma strip_cr_unix s : unix_text s = true → strip_cr s = s.
Proof.
  induction s as [|c s IH]; [done|]. intros Hs. unfold unix_text in Hs. cbn [str_all] in Hs. apply andb_true_iff in Hs as [Hc Hs].
  cbn [strip_cr]. destruct s as [|d s]; [|by rewrite IH]. rewrite bool_decide_false; [done|]. by intros ->.
Qed.

Lemma splitlines_unix fuel cur s : unix_text (cur +:+ s) = true → String.length s ≤ fuel →
  py_splitlines_go fuel cur s =
  match split_on (λ c, bool_decide (c = "010"%char)) s with
  | w :: ws => lines_of ((cur +:+ w) :: ws)
  | [] => []
  end.
Proof.
  revert cur s. induction fuel as [|fuel IH]; intros cur [|c rest] Hu Hf; cbn in Hf; try lia;
    [by cbn; rewrite string_app_nil..|].
  assert (unix_text (String c rest) = true ∧ unix_text cur = true) as [Hs Hcur].
  { unfold unix_text in *. rewrite str_all_app in Hu. by apply andb_true_iff in Hu as [? ?]. }
  cbn [py_splitlines_go split_on]. rewrite after_break_unix by done. destruct (bool_decide (c = "010"%char)) eqn:Hc.
  - rewrite string_app_nil. assert (unix_text rest = true) by (by apply andb_true_iff in Hs as [_ ?]). rewrite IH by (done || lia).
    destruct (split_on _ rest) as [|w ws] eqn:E; [by destruct rest; cbn in E; [|case_match; [|case_match]]|].
    change (lines_of (cur :: w :: ws)) with (strip_cr cur :: lines_of (w :: ws)). by rewrite strip_cr_unix.
  - rewrite IH; [|by rewrite string_app_assoc|lia]. destruct (split_on _ rest) as [|w ws] eqn:E.
    { by destruct rest; cbn in E; [|case_match; [|case_match]]. }
    by rewrite string_app_assoc.
Qed.

Lemma splitlines_lines s : unix_text s = true → py_splitlines s = lines s.
Proof.
  intros Hs. unfold py_splitlines. rewrite splitlines_unix by done. unfold lines.
  by destruct (split_on _ s).
Qed.

(** ** The comparison of two functions *)

Definition plus_diff (a b : list string * nat * nat) : list string * nat * nat :=
  (a.1.1 ++ b.1.1, a.1.2 + b.1.2, a.2 + b.2).

Lemma diff_step_acc l1 l2 acc i : diff_step l1 l2 acc i = plus_diff acc (diff_step l1 l2 ([], 0, 0) i).
Proof.
  destruct acc as [[d m] n]. unfold diff_step, plus_diff.
  destruct (l1 !! i) as [x|], (l2 !! i) as [y|]; [case_bool_decide| | |]; cbn; rewrite ?app_nil_r; repeat f_equal; lia.
Qed.

Lemma diff_fold_acc l1 l2 acc idx :
  foldl (diff_step l1 l2) acc idx = plus_diff acc (foldl (diff_step l1 l2) ([], 0, 0) idx).
Proof.
  revert acc. induction idx as [|i idx IH]; intros acc; cbn [foldl].
  - destruct acc as [[d m] n]. unfold plus_diff. cbn. rewrite app_nil_r. repeat f_equal; lia.
  - rewrite IH, (IH (diff_step l1 l2 ([], 0, 0) i)), diff_step_acc. unfold plus_diff. cbn [fst snd].
    rewrite (assoc_L (++)), !Nat.add_assoc. done.
Qed.

(** The lines at the front are compared first. *)
Lemma py_diff_step l1 l2 : length l1 `max` length l2 ≠ 0 →
  py_diff l1 l2 = plus_diff (diff_step l1 l2 ([], 0, 0) 0) (py_diff (tail l1) (tail l2)).
Proof.
  intros Hn. unfold py_diff. destruct (length l1 `max` length l2) as [|n] eqn:E; [done|].
  cbn [seq foldl]. rewrite diff_fold_acc. f_equal.
  replace (length (tail l1) `max` length (tail l2)) with n by (destruct l1, l2; cbn in *; lia).
  rewrite <-fmap_S_seq, foldl_fmap. generalize ([] : list string, 0, 0).
  induction (seq 0 n) as [|i idx IH]; intros acc; [done|]. cbn [foldl]. rewrite IH. f_equal.
  unfold diff_step. by destruct l1, l2.
Qed.

(** The loop of the script and the one of the dispatcher compare alike. *)
Lemma py_diff_lines l1 l2 : py_diff l1 l2 = diff_lines l1 l2.
Proof.
  revert l2. induction l1 as [|x l1 IH]; intros l2.
  - induction l2 as [|y l2 IH2]; [done|]. rewrite py_diff_step by done. cbn [tail]. rewrite IH2. cbn.
    unfold plus_diff. destruct l2; cbn; done.
  - rewrite py_diff_step by (cbn; lia). cbn [tail]. rewrite IH. destruct l2 as [|y l2]; cbn [diff_lines tail].
    + destruct (diff_lines l1 []) as [[d m] n]. unfold plus_diff. cbn. repeat f_equal; lia.
    + destruct (diff_lines l1 l2) as [[d m] n]. unfold plus_diff, diff_step. cbn [lookup list_lookup].
      case_bool_decide; cbn; repeat f_equal; lia.
Qed.

(** ** One database, two interfaces *)

Definition pyfunc_of (fn : Func) : PyFunc := {| pf_start := f_start fn; pf_end := f_end fn |}.

Definition xref_of (api : Api) (x : PyXref) : XRef :=
  {| x_from := px_from x; x_to := px_to x;
     x_type := if (px_type x =? ap_fl_CN api)%Z then NearCall
               else if (px_type x =? ap_fl_CF api)%Z then FarCall else OtherRef |}.

(** The heads of a function, as the native handlers walk over them. *)
Fixpoint heads (fuel : nat) (db : IDB) (cur stop : Z) : list Z :=
  match fuel with
  | 0 => []
  | S fuel =>
      if (cur <? stop)%Z then
        cur :: match db_next_head db cur with
               | Some next => if (next <=? cur)%Z then [] else heads fuel db next stop
               | None => []
               end
      else []
  end.

(** IDAPython and idalib look at the same database. *)
Record SameDatabase (api : Api) (db : Database) : Prop := {
  same_functions : all_funcs api = pyfunc_of <$> functions db;
  same_function_at : ∀ a, ap_get_func api a = pyfunc_of <$> function_at db a;
  same_function : ∀ fn, fn ∈ functions db ∨ (∃ a, function_at db a = Some fn) →
    func_name api (f_start fn) = name_or_sub fn ∧ f_len fn = (f_end fn - f_start fn)%Z ∧ in_u64 (f_len fn);
  same_start : ∀ a fn, function_at db a = Some fn → function_at db (f_start fn) = Some fn;
  same_lines : ∀ a, truthy (ap_disasm_line api a) = d_disasm_line db a;
  same_next_head : ∀ a, next_ea api a = match next_head db a with
                                        | Some n => if (n <=? a)%Z then None else Some n
                                        | None => None
                                        end;
  same_items : ∀ fn a, function_at db a = Some fn →
    ap_func_items api (f_start fn) = heads (Z.to_nat (f_end fn - f_start fn)) (d_view db) (f_start fn) (f_end fn);
  same_xrefs_to : ∀ a, db_xrefs_to (d_view db) a = xref_of api <$> ap_xrefs_to api a (ap_XREF_ALL api);
  same_xrefs_from : ∀ a, db_xrefs_from (d_view db) a = xref_of api <$> ap_xrefs_from api a (ap_XREF_ALL api);
  same_string_xrefs : ∀ a, xd_from <$> d_xrefs_to db a = px_from <$> ap_xrefs_to api a 0;
  same_strings : (λ s, (pt_ea s, content s, pt_length s)) <$> ap_strings api =
                 (λ s, (s.1, s.2, Z.of_nat (String.length s.2))) <$> d_strings db;
  same_segments : (λ sg, (pg_start sg, pg_end sg - pg_start sg)%Z) <$> all_segs api =
                  (λ sg, (sg_start sg, sg_len sg)) <$> d_segments db;
  same_bytes : ∀ a n, default [] (ap_get_bytes api a n) = d_get_bytes db a n
}.

(** ** The byte search *)

Section byte_search.
Context (api : Api) (mem : Z → Z) (pat : list (option Z)) (max_results : Z) (Hpat : pat ≠ []).
Context (Hmem : ∀ a n, default [] (ap_get_bytes api a n) = mem <$> seqZ a n).

(** A match as the script reports it: the address with the bytes there. *)
Definition with_bytes (a : Z) : Z * list Z := (a, mem <$> seqZ a (pat_len pat)).

Lemma scan_data_nil ea l : scan_data pat max_results ea [] l = l.
Proof.
  cbn [scan_data length]. pose proof (pat_len_pos pat Hpat). unfold pat_len in *. by rewrite bool_decide_true by lia.
Qed.

Lemma scan_data_chunk n ea l :
  scan_data pat max_results ea (mem <$> seqZ ea (Z.of_nat n)) (with_bytes <$> l) =
  with_bytes <$> scan_chunk pat max_results ea (mem <$> seqZ ea (Z.of_nat n)) l.
Proof.
  revert ea l. induction n as [|n IH]; intros ea l.
  - rewrite seqZ_nil by lia. rewrite scan_data_nil. cbn [fmap list_fmap scan_chunk length]. pose proof (pat_len_pos pat Hpat).
    by rewrite (proj2 (Z.ltb_lt _ _)) by lia.
  - rewrite seqZ_cons by lia. replace (Z.pred (Z.of_nat (S n))) with (Z.of_nat n) by lia.
    replace (Z.succ ea) with (ea + 1)%Z by lia. cbn [fmap list_fmap scan_data scan_chunk length].
    rewrite !length_fmap, length_seqZ, Nat2Z.id. unfold reached_max, full. rewrite length_fmap. unfold pat_len at 1.
    destruct (Z.ltb_spec (Z.of_nat (S n)) (Z.of_nat (length pat))).
    { by rewrite bool_decide_true by lia. }
    rewrite bool_decide_false by lia. destruct (max_results <=? _)%Z; [done|].
    rewrite <-IH. f_equal. destruct (pat_match _ _); [|done]. rewrite fmap_app. cbn [fmap list_fmap]. do 3 f_equal.
    assert (mem ea :: (mem <$> seqZ (ea + 1) (Z.of_nat n)) = mem <$> seqZ ea (Z.of_nat (S n))) as ->.
    { rewrite (seqZ_cons ea) by lia. cbn [fmap list_fmap]. do 3 f_equal; lia. }
    rewrite <-fmap_take. f_equal. replace (Z.of_nat (S n)) with (pat_len pat + (Z.of_nat (S n) - pat_len pat))%Z by lia.
    rewrite seqZ_app by (unfold pat_len; lia). rewrite take_app_length'; [done|]. rewrite length_seqZ. unfold pat_len. lia.
Qed.

Definition search_segment (sg : PySeg) : Segment := {| seg_start := pg_start sg; seg_len := pg_end sg - pg_start sg |}.

Lemma scan_segs_correct segs l :
  scan_segs api pat max_results segs (with_bytes <$> limited max_results l) =
  with_bytes <$> limited max_results (l ++ concat (segment_hits mem pat <$> (search_segment <$> omap id segs))).
Proof.
  revert l. induction segs as [|[sg|] segs IH]; intros l; cbn [scan_segs].
  - by rewrite app_nil_r.
  - assert (reached_max max_results (with_bytes <$> limited max_results l) = full max_results (limited max_results l)) as ->
      by (unfold reached_max, full; by rewrite length_fmap).
    destruct (full max_results (limited max_results l)) eqn:Hf.
    { f_equal. symmetry. apply full_limited. revert Hf. unfold full, limited. rewrite length_take, !Z.leb_le. lia. }
    cbn [omap list_omap id fmap list_fmap concat]. rewrite app_assoc, <-IH. f_equal.
    pose proof (Hmem (pg_start sg) (pg_end sg - pg_start sg)%Z) as Hget.
    set (n := (pg_end sg - pg_start sg)%Z) in *.
    assert (with_bytes <$> limited max_results (l ++ segment_hits mem pat (search_segment sg)) =
            scan_data pat max_results (pg_start sg) (mem <$> seqZ (pg_start sg) n) (with_bytes <$> limited max_results l)) as ->.
    { destruct (decide (0 ≤ n)%Z) as [Hn|Hn].
      - rewrite <-(Z2Nat.id n) by done. rewrite scan_data_chunk, scan_chunk_correct by done.
        rewrite Z2Nat.id by done. done.
      - rewrite seqZ_nil by lia. rewrite scan_data_nil. unfold segment_hits. rewrite hits_nil, app_nil_r; [done|].
        pose proof (pat_len_pos pat Hpat). cbn [search_segment seg_len]. fold n. lia. }
    rewrite <-Hget. destruct (ap_get_bytes api (pg_start sg) n) as [[|b bs]|]; cbn [default]; [|done|];
      by rewrite scan_data_nil.
  - assert (reached_max max_results (with_bytes <$> limited max_results l) = full max_results (limited max_results l)) as ->
      by (unfold reached_max, full; by rewrite length_fmap).
    destruct (full max_results (limited max_results l)) eqn:Hf; [|apply IH].
    f_equal. symmetry. apply full_limited. revert Hf. unfold full, limited. rewrite length_take, !Z.leb_le. lia.
Qed.
End byte_search.

(** ** Running a script *)

Section worker.
Context {W : Type}.
Context (idat : Invocation → W → IdatRun * W).
Context (exists_ : string → W → bool) (create_dir_all : string → W → result unit string * W).
Context (parent : string → option string) (record_ : string → string → W → W) (store_path : string → string).
Context (json_parse : string → result Value string) (json_print : Value → result string string).
Context (de_message : DeError → string) (user_code : string → result string string).
Context (to_lowercase : string → string) (py_decode : list Z → string).
Context (f64_text : f64 → string) (big_int_text : Z → string) (int_of_float : string → option Z).
Context (json_loads : string → option Value) (api : Api).

#[local] Abbreviation dispatch := (dispatch_request idat exists_ create_dir_all parent record_ store_path json_parse json_print de_message user_code).
#[local] Abbreviation arm_of := (compat_arm idat exists_ create_dir_all parent record_ store_path json_parse json_print de_message user_code).
#[local] Abbreviation run := (run_invocation to_lowercase py_decode f64_text big_int_text int_of_float api json_loads).

(** The invocation of a script on an open database. *)
Definition on_database (path kind : string) (vars : Vars) : Invocation :=
  {| iv_target := path; iv_output := None; iv_script := {| sc_kind := kind; sc_vars := vars |}; iv_code := None |}.

(** [idat] runs the script, exits with success, and serde_json reads from the output what the
    script has written. *)
Definition executes (inv : Invocation) (w : W) : Prop :=
  ∀ v, run inv = Some (Wrote v) →
  ∃ text, idat_outcome (idat inv w).1 = Ok (Ok text) ∧ json_parse text = Ok v.

(** The script that a kind names. *)
Lemma run_row path kind vars f :
  List.find (λ row, bool_decide (row.1 = kind))
    (script_table to_lowercase py_decode f64_text big_int_text int_of_float api json_loads (escape_python_string path) None) =
    Some (kind, f) →
  run (on_database path kind vars) = f vars.
Proof. intros H. exact (f_equal (λ o, o ≫= λ row, row.2 vars) H). Qed.

Lemma executed (inv : Invocation) (s : CompatState W) v :
  executes inv (cw_world s) → run inv = Some (Wrote v) →
  ∃ text, run_idat_script idat inv s =
            (Ok (Ok text), {| cw_session := cw_session s; cw_world := (idat inv (cw_world s)).2 |}) ∧
          json_parse text = Ok v.
Proof.
  intros Hex Hv. destruct (Hex v Hv) as (text & Ho & Hp). exists text. split; [|done].
  unfold run_idat_script, c_bind, c_world, c_lift. destruct (idat inv (cw_world s)) as [r w]. cbn in *. by rewrite Ho.
Qed.

Lemma value_executed path kind vars (s : CompatState W) v :
  executes (on_database path kind vars) (cw_world s) → run (on_database path kind vars) = Some (Wrote v) →
  (idat_value idat json_parse path kind vars s).1 = Ok v.
Proof.
  intros Hex Hv. destruct (executed _ s v Hex Hv) as (text & Hr & Hp). unfold idat_value, c_bind.
  fold (on_database path kind vars). rewrite Hr. cbn. by rewrite Hp.
Qed.

(** ** Listing the functions *)

Definition FunctionInfoStruct (i : FunctionInfo) : Struct FunctionInfoFields :=
  @MkStruct FunctionInfoFields (fi_address i, (fi_name i, (fi_size i, tt))).

Lemma function_info_ser i : (0 ≤ fi_size i)%Z → function_info_value i = ser_struct FunctionInfoFields (FunctionInfoStruct i).
Proof. intros Hi. unfold ser_struct, function_info_value. cbn. unfold ser_int. by rewrite (proj2 (Z.ltb_ge _ _)) by lia. Qed.

(** The worker reads the page of the script as a [FunctionListResult] and writes it again. *)
Lemma list_page_decoded (l : list FunctionInfo) (total : Z) (next : option Z) :
  Forall (λ i, in_u64 (fi_size i)) l → in_u64 total → (∀ n, next = Some n → in_u64 n) →
  ∃ r, de_struct "FunctionListResult" FunctionListFields
         (obj [("functions", Array (function_info_value <$> l)); ("total", vz total); ("next_offset", opt_vz next)]) = Ok r ∧
       ser_struct FunctionListFields r =
         function_list_value {| fl_functions := l; fl_total := total; fl_next_offset := next |}.
Proof.
  intros Hl Ht Hn. exists (@MkStruct FunctionListFields (FunctionInfoStruct <$> l, (total, (next, tt)))).
  assert (Hser : function_info_value <$> l = ser_struct FunctionInfoFields <$> (FunctionInfoStruct <$> l)).
  { rewrite <-list_fmap_compose. apply list_fmap_ext. intros i x Hx. rewrite Forall_lookup in Hl.
    apply function_info_ser. apply (Hl _ _ Hx). }
  assert (Hde : de_vec (struct_codec "FunctionInfo" FunctionInfoFields eq_refl) (Array (function_info_value <$> l)) =
                Ok (FunctionInfoStruct <$> l)).
  { rewrite Hser. apply (vec_roundtrip (struct_codec "FunctionInfo" FunctionInfoFields eq_refl)).
    apply Forall_fmap. eapply Forall_impl; [exact Hl|]. intros i Hi. repeat split; apply Hi. }
  split.
  - change (obj _) with (Object [("functions", Array (function_info_value <$> l)); ("next_offset", opt_vz next); ("total", vz total)]).
    assert (de_option usize_codec (opt_vz next) = Ok next) as Hnext.
    { destruct next as [n|]; [|done]. destruct (Hn n eq_refl). cbn.
      by rewrite (proj2 (Z.leb_le 0 n)), (proj2 (Z.leb_le n u64_max)). }
    destruct Ht. unfold de_struct. cbn -[de_vec de_option function_info_value].
    match goal with |- context [de_vec ?c ?v] => replace (de_vec c v) with (@Ok (list (ty c)) DeError (FunctionInfoStruct <$> l)) by (symmetry; exact Hde) end.
    cbn -[de_option function_info_value]. rewrite Hnext. cbn.
    by rewrite (proj2 (Z.leb_le 0 total)), (proj2 (Z.leb_le total u64_max)).
  - unfold ser_struct, function_list_value. cbn -[obj function_info_value ser_int]. rewrite <-Hser. destruct Ht.
    assert (∀ z, in_u64 z → ser_int z = vz z) as Hint by (intros z [??]; unfold ser_int; by rewrite (proj2 (Z.ltb_ge _ _))).
    rewrite Hint by done. destruct next as [n|]; [|done]. cbn -[obj function_info_value ser_int].
    by rewrite Hint by (by apply Hn).
Qed.

Lemma native_page_list {A} (keep : A → bool) (f : A → FunctionInfo) (items : list A) (offset limit : Z) :
  in_u64 offset → (0 ≤ limit)%Z → (Z.of_nat (length items) ≤ u64_max)%Z → (∀ x, x ∈ items → in_u64 (fi_size (f x))) →
  let '(page, total) := paged keep f offset limit items in
  Forall (λ i, in_u64 (fi_size i)) page ∧ in_u64 total ∧
  (∀ n, next_offset offset (length page) total = Some n → in_u64 n).
Proof.
  intros Ho Hl Hlen Hsize. rewrite paged_spec by (destruct Ho; lia). set (kept := filter _ items).
  assert (length kept ≤ length items) by apply length_filter. split; [|split].
  - apply Forall_fmap, Forall_forall. intros x Hx. apply Hsize.
    apply elem_of_take in Hx as (i & Hx & _). rewrite lookup_drop in Hx. apply list_elem_of_lookup_2 in Hx.
    by apply list_elem_of_filter in Hx as [_ Hx].
  - split; lia.
  - intros n. unfold next_offset. case_match; [|done]. intros [= <-]. unfold in_u64, saturating_add in *. lia.
Qed.

Lemma same_function_value db fn : SameDatabase api db → fn ∈ functions db ∨ (∃ a, function_at db a = Some fn) →
  pyfunc_value api (pyfunc_of fn) = function_info_value (function_info fn).
Proof.
  intros Hdb Hfn. destruct (same_function _ _ Hdb fn Hfn) as (Hname & Hlen & _).
  unfold pyfunc_value, function_info_value, function_info. cbn [pyfunc_of pf_start pf_end fi_address fi_name fi_size].
  by rewrite Hname, Hlen.
Qed.

Lemma same_function_listing db (l : list Func) (P : string → bool) (keep : Func → bool) :
  SameDatabase api db → (∀ fn, fn ∈ l → fn ∈ functions db) → (∀ fn, fn ∈ l → P (name_or_sub fn) = keep fn) →
  pyfunc_value api <$> filter (λ f, P (func_name api (pf_start f)) = true) (pyfunc_of <$> l) =
  (function_info_value ∘ function_info) <$> filter (λ fn, keep fn = true) l.
Proof.
  intros Hdb. induction l as [|fn l IH]; intros Hin HP; [done|]. rewrite fmap_cons, !filter_cons.
  assert (fn ∈ functions db) as Hfn by (apply Hin; left).
  destruct (same_function _ _ Hdb fn (or_introl Hfn)) as (Hname & _). cbn [pyfunc_of pf_start].
  rewrite Hname, HP by left. specialize (IH (λ x Hx, Hin x (list_elem_of_further _ _ _ Hx)) (λ x Hx, HP x (list_elem_of_further _ _ _ Hx))).
  destruct (decide (keep fn = true)); [|exact IH]. rewrite !fmap_cons, IH. f_equal.
  apply (same_function_value db); [done|by left].
Qed.

(** A request whose method works on the open database. *)
Lemma session_answer m (F : Value → string → Compat W Value) (req : RpcRequest) (s : CompatState W) session v :
  arm_of m = Some (λ p, on_session (F p)) → primary_name_for m = m →
  req_method req = m → cw_session s = Some session → (F (req_params req) (cs_database_path session) s).1 = Ok v →
  (dispatch req s).1 = RpcResponse_ok (req_id req) v.
Proof.
  intros Ha Hp Hm Hs Hv. unfold dispatch_request. rewrite Hm, Hp, Ha. unfold on_session. rewrite Hs.
  destruct (F _ _ s) as [r s']. cbn in Hv. by rewrite Hv.
Qed.

(** A request whose method needs an address as well. *)
Lemma address_answer m (F : Value → Z → string → Compat W Value) (req : RpcRequest) (s : CompatState W) session a r :
  arm_of m = Some (λ p, need_addr p "address" (λ a, on_session (F p a))) → primary_name_for m = m →
  req_method req = m → cw_session s = Some session → p_addr (req_params req) "address" = Some a →
  (F (req_params req) a (cs_database_path session) s).1 = r →
  (dispatch req s).1 = match r with
                       | Ok v => RpcResponse_ok (req_id req) v
                       | Err e => RpcResponse_err (req_id req) (-32000) (error_to_string e)
                       end.
Proof.
  intros Ha Hp Hm Hs Hadr Hv. unfold dispatch_request. rewrite Hm, Hp, Ha. unfold need_addr, c_bind, c_lift.
  rewrite Hadr. cbn [ok_or]. unfold on_session. rewrite Hs. destruct (F _ _ _ s) as [r' s']. cbn in Hv. by subst.
Qed.

Definition list_run (path : string) (offset limit : Z) (filter_ : option string) : Invocation :=
  on_database path "list-functions" [("OFFSET", fmt_dec offset); ("LIMIT", fmt_dec limit); ("FILTER", py_opt_str filter_)].

Lemma list_run_script path offset limit filter_ :
  in_u64 offset → in_u64 limit → passable filter_ →
  run (list_run path offset limit filter_) = Some (list_functions_script big_int_text api offset limit filter_).
Proof. intros Ho Hl Hf. unfold list_run. erewrite run_row by reflexivity. cbv beta. by read_vars. Qed.

(** The answer to [list_functions] is the JSON of what the native handler computes. *)
Lemma compat_list_functions_agrees (db : Database) (req : RpcRequest) (s : CompatState W) (session : CompatSession)
    (offset limit : Z) (filter_ : option string)
    (Hdb : SameDatabase api db) (Hs : cw_session s = Some session) (Hm : req_method req = "list_functions")
    (Ho : p_u64 (req_params req) "offset" 0 = offset) (Hl : p_u64 (req_params req) "limit" 100 = limit)
    (Hf : p_str (req_params req) "filter" = filter_)
    (Hou : in_u64 offset) (Hlu : in_u64 limit) (Hlen : (Z.of_nat (length (functions db)) ≤ u64_max)%Z)
    (Hpass : passable filter_)
    (Hcase : ∀ fn, fn ∈ functions db → py_passes filter_ (name_or_sub fn) = passes to_lowercase filter_ (name_or_sub fn))
    (Hidat : executes (list_run (cs_database_path session) offset limit filter_) (cw_world s)) :
  ∃ r, handle_list_functions to_lowercase (Some db) offset limit filter_ = Ok r ∧
       (dispatch req s).1 = RpcResponse_ok (req_id req) (function_list_value r).
Proof.
  unfold handle_list_functions. cbn [ok_or result_bind].
  pose proof (native_page_list (λ fn, passes to_lowercase filter_ (name_or_sub fn)) function_info (functions db) offset limit
                Hou (proj1 Hlu) Hlen) as Hpage.
  pose proof (page_value_paged big_int_text "functions" (λ fn, passes to_lowercase filter_ (name_or_sub fn)) function_info
                function_info_value (functions db) offset limit Hou (proj1 Hlu) Hlen) as Hvalue.
  rewrite <-(same_function_listing db (functions db) (py_passes filter_)) in Hvalue by (done || by apply Hcase).
  rewrite <-(same_functions _ _ Hdb) in Hvalue.
  destruct (paged _ function_info offset limit (functions db)) as [page total].
  destruct Hpage as (Hp1 & Hp2 & Hp3).
  { intros fn Hfn. by destruct (same_function _ _ Hdb fn (or_introl Hfn)) as (_ & _ & ?). }
  eexists. split; [reflexivity|].
  destruct (list_page_decoded page total (next_offset offset (length page) total) Hp1 Hp2 Hp3) as (r & Hde & Hser).
  destruct (executed _ s _ Hidat ltac:(rewrite list_run_script by done; reflexivity)) as (text & Hr & Hp).
  eapply (session_answer "list_functions"); [reflexivity|reflexivity|done|done|].
  cbv beta. rewrite Ho, Hl, Hf. unfold list_functions_with_idat, c_bind.
  change (run_idat_script idat _ s) with (run_idat_script idat (list_run (cs_database_path session) offset limit filter_) s).
  rewrite Hr. unfold c_lift, read_with. rewrite Hp.
  unfold decode_struct. rewrite Hvalue, Hde. cbn. by rewrite Hser.
Qed.

(** ** Two workers *)


(** ** Callers and callees *)

(** The functions that a script and a handler have collected. *)
Definition collected (py : gset Z * list PyFunc) (native : gset Z * list FunctionInfo) : Prop :=
  py.1 = native.1 ∧ pyfunc_value api <$> py.2 = function_info_value <$> native.2.

Lemma collected_add db target py native : SameDatabase api db → collected py native →
  collected (add_seen api target py) (add_function (d_view db) target true native).
Proof.
  intros Hdb [H1 H2]. unfold add_seen, add_function. destruct native as [seen out]. cbn [fst snd] in *.
  rewrite (same_function_at _ _ Hdb). change (db_function_at (d_view db) target) with (function_at db target).
  destruct (function_at db target) as [fn|] eqn:Hfn; [|done]. cbn [fmap option_fmap option_map pyfunc_of pf_start].
  rewrite H1. destruct (bool_decide (f_start fn ∈ seen)); [done|]. split; [done|]. cbn [snd].
  rewrite !fmap_app, H2. cbn [fmap list_fmap]. rewrite (same_function_value db); [done|done|by right; exists target].
Qed.

Lemma collected_refs db (l : list PyXref) (other : PyXref → Z) (other' : XRef → Z) py native :
  SameDatabase api db → (∀ x, other' (xref_of api x) = other x) → collected py native →
  collected (foldl (λ acc x, if call_type api x then add_seen api (other x) acc else acc) py l)
            (foldl (λ acc x, add_function (d_view db) (other' x) (is_call x) acc) native (xref_of api <$> l)).
Proof.
  intros Hdb Hother. revert py native. induction l as [|x l IH]; intros py native Hc; [done|].
  cbn [fmap list_fmap foldl]. apply IH. rewrite Hother. unfold call_type, is_call, xref_of. cbn [x_type].
  destruct (px_type x =? ap_fl_CN api)%Z, (px_type x =? ap_fl_CF api)%Z; cbn [orb]; try by apply collected_add.
  by destruct native.
Qed.

Lemma callees_loop_heads fuel db cur stop acc :
  callees_loop fuel db cur stop acc = foldl (λ acc a, add_callees db a acc) acc (heads fuel db cur stop).
Proof.
  revert cur acc. induction fuel as [|fuel IH]; intros cur acc; [done|]. cbn [callees_loop heads].
  destruct (cur <? stop)%Z; [|done]. cbn [foldl]. destruct (db_next_head db cur) as [next|]; [|done].
  destruct (next <=? cur)%Z; [done|apply IH].
Qed.

Lemma same_callees db fn a : SameDatabase api db → function_at db a = Some fn →
  pyfunc_value api <$> callee_funcs api (f_start fn) =
  function_info_value <$> (callees_loop (Z.to_nat (f_end fn - f_start fn)) (d_view db) (f_start fn) (f_end fn) (∅, [])).2.
Proof.
  intros Hdb Hfn. unfold callee_funcs. rewrite callees_loop_heads, (same_items _ _ Hdb fn a Hfn).
  assert (collected (∅, []) (∅, [])) as Hc by done. revert Hc.
  generalize (∅ : gset Z, [] : list PyFunc) (∅ : gset Z, [] : list FunctionInfo).
  induction (heads _ _ _ _) as [|h l IH]; intros py native Hc; [apply Hc|]. cbn [foldl]. apply IH.
  unfold add_callees. rewrite (same_xrefs_from _ _ Hdb). by apply collected_refs.
Qed.

Definition address_run (path kind : string) (a : Z) : Invocation := on_database path kind [("ADDR", fmt_dec a)].

(** What the worker makes of a script that reports an error. *)
Lemma checked_executed path kind vars (s : CompatState W) v :
  executes (on_database path kind vars) (cw_world s) → run (on_database path kind vars) = Some (Wrote v) →
  (idat_checked idat json_parse IdaError path kind vars s).1 = check_error IdaError v.
Proof.
  intros Hex Hv. pose proof (value_executed path kind vars s v Hex Hv) as He. unfold idat_checked, c_bind.
  destruct (idat_value idat json_parse path kind vars s) as [r s']. cbn in He. by rewrite He.
Qed.

(** The two backends find the same callees.  For an address in a function the
    compatibility worker answers [get_callees] with the JSON of exactly the functions that
    the native handler finds, in the same order; outside of every function both refuse. *)
Theorem compat_callees_agree (db : Database) (req : RpcRequest) (s : CompatState W) (session : CompatSession) (a : Z)
    (Hdb : SameDatabase api db) (Hs : cw_session s = Some session) (Hm : req_method req = "get_callees")
    (Ha : p_addr (req_params req) "address" = Some a) (Hau : in_u64 a)
    (Hidat : executes (address_run (cs_database_path session) "callees" a) (cw_world s)) :
  match handle_callees (Some (d_view db)) a with
  | Ok l => (dispatch req s).1 = RpcResponse_ok (req_id req) (Array (function_info_value <$> l))
  | Err e => e = FunctionNotFound a ∧
             (dispatch req s).1 = RpcResponse_err (req_id req) (-32000)
               (error_to_string (IdaError ("Function not found at " +:+ fmt_hex_alt a)))
  end.
Proof.
  assert (run (address_run (cs_database_path session) "callees" a) = Some (callees_script api a)) as Hrun
    by (unfold address_run; erewrite run_row by reflexivity; cbv beta; by read_vars).
  pose proof (address_answer "get_callees" (λ _, callees_with_idat idat json_parse) req s session a) as Hans.
  unfold handle_callees. cbn [ok_or result_bind]. change (db_function_at (d_view db) a) with (function_at db a).
  unfold callees_script in Hrun. rewrite (same_function_at _ _ Hdb) in Hrun.
  destruct (function_at db a) as [fn|] eqn:Hfn; cbn [ok_or result_bind fmap option_fmap option_map] in *.
  - cbn [pyfunc_of pf_start] in Hrun. rewrite (same_callees db fn a) in Hrun by done.
    apply (Hans (Ok _)); [reflexivity|reflexivity|done|done|done|]. exact (checked_executed _ _ _ s _ Hidat Hrun).
  - split; [done|]. apply (Hans (Err _)); [reflexivity|reflexivity|done|done|done|].
    exact (checked_executed _ _ _ s _ Hidat Hrun).
Qed.

(** The callers that the script lists: whoever refers to the function in any way. *)
Definition referrers (db : Database) (start : Z) : list FunctionInfo :=
  (foldl (λ acc x, add_function (d_view db) (x_from x) true acc) (∅, []) (db_xrefs_to (d_view db) start)).2.

Lemma same_callers db start : SameDatabase api db →
  pyfunc_value api <$> caller_funcs api start = function_info_value <$> referrers db start.
Proof.
  intros Hdb. unfold caller_funcs, referrers. rewrite (same_xrefs_to _ _ Hdb).
  assert (collected (∅, []) (∅, [])) as Hc by done. revert Hc.
  generalize (∅ : gset Z, [] : list PyFunc) (∅ : gset Z, [] : list FunctionInfo).
  induction (ap_xrefs_to api start _) as [|x l IH]; intros py native Hc; [apply Hc|]. cbn [fmap list_fmap foldl].
  apply IH. by apply collected_add.
Qed.

(** Every function in [acc] has its entry in [acc'], and the starts that [acc'] has seen are
    those of its entries. *)
Definition covered (db : Database) (acc acc' : gset Z * list FunctionInfo) : Prop :=
  (∀ i, i ∈ acc.2 → i ∈ acc'.2) ∧
  (∀ z, z ∈ acc'.1 → ∃ fn, function_at db z = Some fn ∧ function_info fn ∈ acc'.2).

Lemma covered_add db target b acc acc' : SameDatabase api db → covered db acc acc' →
  covered db (add_function (d_view db) target b acc) (add_function (d_view db) target true acc').
Proof.
  intros Hdb [H1 H2]. unfold add_function. destruct acc as [seen out], acc' as [seen' out']. cbn [fst snd] in *.
  change (db_function_at (d_view db) target) with (function_at db target).
  destruct (function_at db target) as [fn|] eqn:Hfn; [|by destruct b].
  pose proof (same_start _ _ Hdb _ _ Hfn) as Hst.
  set (out2 := if bool_decide (f_start fn ∈ seen') then out' else out' ++ [function_info fn]).
  assert (∀ i, i ∈ out' → i ∈ out2) as Hmono
    by (intros i Hi; unfold out2; destruct (bool_decide (f_start fn ∈ seen')); [done|]; apply elem_of_app; by left).
  assert (function_info fn ∈ out2) as Hin.
  { unfold out2. case_bool_decide as Hseen; [|apply elem_of_app; right; by left].
    destruct (H2 _ Hseen) as (fn' & Hfn' & Hin). congruence. }
  assert (∀ i, i ∈ (if b then if bool_decide (f_start fn ∈ seen) then out else out ++ [function_info fn] else out) → i ∈ out2) as Hout.
  { intros i Hi. assert (i ∈ out ∨ i = function_info fn) as [Ho| ->]; [|by apply Hmono, H1|done].
    destruct b; [|by left]. revert Hi. destruct (bool_decide (f_start fn ∈ seen)); intros Hi; [by left|]. apply elem_of_app in Hi as [Hi|Hi]; [by left|right].
    by apply list_elem_of_singleton in Hi. }
  assert (∀ z, z ∈ (if bool_decide (f_start fn ∈ seen') then seen' else {[f_start fn]} ∪ seen') →
          ∃ g, function_at db z = Some g ∧ function_info g ∈ out2) as Hseen.
  { intros z Hz. assert (z ∈ seen' ∨ z = f_start fn) as [Hz'| ->]; [|destruct (H2 _ Hz') as (g & ? & ?); eauto|by exists fn].
    revert Hz. destruct (bool_decide (f_start fn ∈ seen')); intros Hz; [by left|]. apply elem_of_union in Hz as [Hz|Hz]; [right|by left]. by apply elem_of_singleton in Hz. }
  revert Hout Hseen. unfold out2.
  destruct b, (bool_decide (f_start fn ∈ seen)), (bool_decide (f_start fn ∈ seen')); cbn [fst snd]; by split.
Qed.

(** Callers.  The script lists every function that refers to the one at the address,
    the native handler only those with a call: no native caller is missing, and the two
    lists are the same when every reference is a call. *)
Theorem compat_callers_cover (db : Database) (req : RpcRequest) (s : CompatState W) (session : CompatSession) (a : Z)
    (fn : Func) (l : list FunctionInfo)
    (Hdb : SameDatabase api db) (Hs : cw_session s = Some session) (Hm : req_method req = "get_callers")
    (Ha : p_addr (req_params req) "address" = Some a) (Hau : in_u64 a)
    (Hfn : function_at db a = Some fn) (Hl : handle_callers (Some (d_view db)) a = Ok l)
    (Hidat : executes (address_run (cs_database_path session) "callers" a) (cw_world s)) :
  ∃ l', (dispatch req s).1 = RpcResponse_ok (req_id req) (Array (function_info_value <$> l')) ∧
        (∀ i, i ∈ l → i ∈ l') ∧
        ((∀ x, x ∈ db_xrefs_to (d_view db) (f_start fn) → is_call x = true) → l' = l).
Proof.
  exists (referrers db (f_start fn)). unfold handle_callers in Hl. cbn [ok_or result_bind] in Hl.
  change (db_function_at (d_view db) a) with (function_at db a) in Hl. rewrite Hfn in Hl. cbn [ok_or result_bind] in Hl.
  injection Hl as <-. split; [|split].
  - apply (address_answer "get_callers" (λ _, callers_with_idat idat json_parse) req s session a (Ok _));
      [reflexivity|reflexivity|done|done|done|].
    rewrite <-(same_callers db) by done. apply (checked_executed _ _ _ s (Array _) Hidat).
    erewrite run_row by reflexivity. cbv beta. read_vars. unfold callers_script.
    by rewrite (same_function_at _ _ Hdb), Hfn.
  - unfold referrers. assert (covered db (∅, []) (∅, [])) as Hc by (split; set_solver). revert Hc.
    generalize (∅ : gset Z, [] : list FunctionInfo) at 2 4. generalize (∅ : gset Z, [] : list FunctionInfo).
    induction (db_xrefs_to _ _) as [|x xs IH]; intros acc acc' Hc; [apply Hc|]. cbn [foldl]. apply IH. by apply covered_add.
  - intros Hcall. unfold referrers. f_equal. generalize (∅ : gset Z, [] : list FunctionInfo).
    induction (db_xrefs_to _ _) as [|x xs IH]; intros acc; [done|]. cbn [foldl].
    rewrite (Hcall x) by left. apply IH. intros y Hy. apply Hcall. by right.
Qed.

(** ** Bytes *)

Lemma omap_id_fmap {A B} (f : A → option B) (l : list A) : omap id (f <$> l) = omap f l.
Proof. induction l as [|x l IH]; [done|]. cbn. unfold id at 1. destruct (f x); by rewrite <-IH. Qed.

(** The segments of the database as the native search takes them. *)
Definition db_segments (db : Database) : list Segment :=
  (λ sg, {| seg_start := sg_start sg; seg_len := sg_len sg |}) <$> d_segments db.

Lemma same_search_segments db : SameDatabase api db → search_segment <$> all_segs api = db_segments db.
Proof.
  intros Hdb. pose proof (f_equal (fmap (λ p, {| seg_start := p.1; seg_len := p.2 |})) (same_segments _ _ Hdb)) as H.
  by rewrite <-!list_fmap_compose in H.
Qed.

Definition search_run (path pattern : string) (max_results : Z) : Invocation :=
  on_database path "search-bytes" [("PATTERN", py_str pattern); ("MAX_RESULTS", fmt_dec max_results)].

(** C12: The two backends find the same bytes.  For a pattern that both read as the same
    bytes and wildcards, the script of the compatibility worker and the chunked search of the
    native handler report the same addresses: the first [max_results] at which the pattern
    lies inside a segment, in order.  The script adds the bytes that are there. *)
Theorem compat_search_bytes_agrees (db : Database) (req : RpcRequest) (s : CompatState W) (session : CompatSession)
    (mem : Z → Z) (pattern : string) (pat : list (option Z)) (max_results : Z)
    (Hdb : SameDatabase api db) (Hs : cw_session s = Some session) (Hm : req_method req = "search_bytes")
    (Hp : p_str (req_params req) "pattern" = Some pattern) (Hps : p_str (req_params req) "patterns" = None)
    (Hl : as_u64 (index (req_params req) "limit") = Some max_results) (Hlu : in_u64 max_results)
    (Hq : no_apostrophe pattern = true)
    (Hnative : parse_pattern pattern = Ok pat) (Hneedle : needle_of pattern = Some pat) (Hne : pat ≠ [])
    (Hmem : ∀ a n, d_get_bytes db a n = mem <$> seqZ a n)
    (Hidat : executes (search_run (cs_database_path session) pattern max_results) (cw_world s)) :
  let found := take (Z.to_nat max_results) (concat (segment_hits mem pat <$> db_segments db)) in
  handle_find_bytes (d_get_bytes db) (Some (db_segments db)) pattern max_results =
    Ok (obj [("pattern", VString pattern); ("matches", Array (VString ∘ fmt_hex_alt <$> found));
             ("count", vnat (length found))]) ∧
  (dispatch req s).1 =
    RpcResponse_ok (req_id req)
      (obj [("matches", Array (byte_match ∘ with_bytes mem pat <$> found)); ("count", vnat (length found))]).
Proof.
  intros found. split.
  - unfold handle_find_bytes. cbn [ok_or result_bind]. rewrite Hnative. cbn [result_bind]. rewrite bool_decide_false by done.
    pose proof (scan_segments_correct (d_get_bytes db) mem Hmem pat max_results Hne (db_segments db) []) as Hc.
    unfold limited in Hc. rewrite take_nil in Hc. by rewrite Hc.
  - eapply (session_answer "search_bytes"); [reflexivity|reflexivity|done|done|]. cbv beta. rewrite Hp, Hps, Hl.
    cbn [default id]. apply (value_executed _ _ _ s _ Hidat). unfold search_run. erewrite run_row by reflexivity. cbv beta.
    read_vars. unfold search_bytes_script. rewrite Hneedle.
    assert (Hget : ∀ a n, default [] (ap_get_bytes api a n) = mem <$> seqZ a n)
      by (intros a n; by rewrite (same_bytes _ _ Hdb)).
    pose proof (scan_segs_correct api mem pat max_results Hne Hget (ap_getnseg api <$> seq 0 (ap_segm_qty api)) []) as Hc.
    unfold limited in Hc. rewrite take_nil, omap_id_fmap in Hc. fold (all_segs api) in Hc.
    rewrite (same_search_segments db Hdb) in Hc. cbn [fmap list_fmap app] in Hc. rewrite Hc. fold found.
    by rewrite <-list_fmap_compose, length_fmap.
Qed.

(** ** Disassembly *)

Definition disasm_run (path : string) (a count : Z) : Invocation :=
  on_database path "disasm" [("ADDR", fmt_dec a); ("COUNT", fmt_dec count)].

(** Instructions lie where the next head is. *)
Definition heads_follow (db : Database) : Prop := ∀ a line, d_disasm_line db a = Some line →
  advance db a = match next_head db a with Some n => if (n <=? a)%Z then None else Some n | None => None end.

Lemma same_disasm db count a : SameDatabase api db → heads_follow db →
  disasm_lines api count a = disasm_loop db (λ _, false) count a.
Proof.
  intros Hdb Hh. revert a. induction count as [|count IH]; intros a; [done|]. cbn [disasm_lines disasm_loop].
  rewrite (same_lines _ _ Hdb). destruct (d_disasm_line db a) as [line|] eqn:Hline; [|done]. f_equal.
  rewrite (same_next_head _ _ Hdb), <-(Hh a line Hline). destruct (advance db a); [apply IH|done].
Qed.

(** The two backends disassemble alike, where every instruction is followed by the next
    head: the same listing for the same count.  Where nothing can be disassembled the native
    handler fails, and the compatibility worker answers with an empty listing. *)
Theorem compat_disasm_agrees (db : Database) (req : RpcRequest) (s : CompatState W) (session : CompatSession) (a count : Z)
    (Hdb : SameDatabase api db) (Hh : heads_follow db) (Hs : cw_session s = Some session)
    (Hm : req_method req = "disassemble")
    (Ha : p_addr (req_params req) "address" = Some a) (Hau : in_u64 a)
    (Hc : p_u64 (req_params req) "count" 10 = count) (Hcu : in_u64 count)
    (Hidat : executes (disasm_run (cs_database_path session) a count) (cw_world s)) :
  (dispatch req s).1 = RpcResponse_ok (req_id req)
    (obj [("disasm", VString (match handle_disasm (Some db) a (Z.to_nat count) with Ok text => text | Err _ => "" end))]).
Proof.
  assert (run (disasm_run (cs_database_path session) a count) = Some (disasm_script api a count)) as Hrun
    by (unfold disasm_run; erewrite run_row by reflexivity; cbv beta; by read_vars).
  unfold disasm_script, disasm_value in Hrun. rewrite (same_disasm db) in Hrun by done.
  pose proof (value_executed _ _ _ s _ Hidat Hrun) as Hv.
  unfold dispatch_request. rewrite Hm. change (primary_name_for "disassemble") with "disassemble".
  change (arm_of "disassemble") with (Some (λ p : Value, need_addr p "address" (λ a,
    as_field "disasm" (on_session (W := W) (disasm_with_idat idat json_parse a (p_u64 p "count" 10)))))).
  cbv beta iota. unfold need_addr, c_bind at 1, c_lift. rewrite Ha. cbn [ok_or]. rewrite Hc.
  unfold as_field, c_bind at 1, on_session. rewrite Hs. unfold disasm_with_idat, c_bind at 1.
  destruct (idat_value _ _ _ _ _ s) as [r s']. cbn in Hv. rewrite Hv. cbn -[obj].
  unfold handle_disasm. cbn [ok_or result_bind]. by case_bool_decide as Hl; rewrite ?Hl.
Qed.

(** ** Strings with their references *)

Lemma xref_sources_take max out l : (Z.of_nat (length out) < max)%Z →
  xref_sources max out l = take (Z.to_nat max) (out ++ (hex_value ∘ px_from <$> l)).
Proof.
  intros Hm. revert out Hm. induction l as [|x l IH]; intros out Hm; cbn [xref_sources].
  - cbn. rewrite app_nil_r, take_ge by lia. done.
  - cbn [fmap list_fmap]. change ((hex_value ∘ px_from) x) with (hex_value (px_from x)).
    rewrite (cons_middle (hex_value (px_from x)) out (_ <$> l)), (assoc_L (++)). destruct (Z.leb_spec max (Z.of_nat (length (out ++ [hex_value (px_from x)])))).
    + rewrite length_app in *. cbn [length] in *. rewrite take_app_le, take_ge by (rewrite ?length_app; cbn [length]; lia). done.
    + by apply IH.
Qed.

Lemma filter_fmap {A B} (f : A → B) (p : B → bool) (l : list A) :
  filter (λ y, p y = true) (f <$> l) = f <$> filter (λ x, p (f x) = true) l.
Proof.
  induction l as [|x l IH]; [done|]. cbn [fmap list_fmap]. rewrite !filter_cons, IH. by destruct (decide _).
Qed.

(** The strings that match, with their values. *)
Lemma same_string_listing db query exact ci max : SameDatabase api db → (0 < max)%Z →
  string_xrefs_value api max <$> filter (λ item, string_hit to_lowercase query exact ci (content item) = true) (ap_strings api) =
  (string_xref_info_value ∘ string_xref_info db (Z.to_nat max)) <$>
    filter (λ x, string_matches to_lowercase query exact ci x.2 = true) (d_strings db).
Proof.
  intros Hdb Hmax.
  set (val := λ t : Z * string * Z,
    obj [("address", hex_value t.1.1); ("content", VString t.1.2); ("length", vz t.2);
         ("xrefs", Array (VString <$> first_xrefs db (Z.to_nat max) t.1.1));
         ("xref_count", vnat (length (first_xrefs db (Z.to_nat max) t.1.1)))]).
  set (hit := λ t : Z * string * Z, string_hit to_lowercase query exact ci t.1.2).
  transitivity (val <$> filter (λ t, hit t = true) ((λ x, (pt_ea x, content x, pt_length x)) <$> ap_strings api)).
  - rewrite (filter_fmap _ hit), <-list_fmap_compose. apply list_fmap_ext. intros i x _. unfold string_xrefs_value, val. cbn.
    rewrite xref_sources_take by (cbn; lia). cbn [app].
    assert (VString <$> first_xrefs db (Z.to_nat max) (pt_ea x) =
            take (Z.to_nat max) (hex_value ∘ px_from <$> ap_xrefs_to api (pt_ea x) 0)) as Heq.
    { unfold first_xrefs. rewrite <-list_fmap_compose, fmap_take. f_equal.
      pose proof (f_equal (fmap hex_value) (same_string_xrefs _ _ Hdb (pt_ea x))) as H.
      by rewrite <-!list_fmap_compose in H. }
    rewrite <-Heq, length_fmap. done.
  - rewrite (same_strings _ _ Hdb), (filter_fmap _ hit), <-list_fmap_compose. done.
Qed.

Definition string_run (path query : string) (exact ci : bool) (offset limit max_xrefs : Z) : Invocation :=
  on_database path "xrefs-to-string"
    [("QUERY", py_str query); ("EXACT", py_bool exact); ("CASE_INSENSITIVE", py_bool ci);
     ("OFFSET", fmt_dec offset); ("LIMIT", fmt_dec limit); ("MAX_XREFS", fmt_dec (Z.max 1 (Z.min max_xrefs 1024)))].

(** The two backends search strings alike: the same strings, page by page, with the same
    total and the same references to each, at most [max_xrefs] between 1 and 1024. *)
Theorem compat_string_xrefs_agree (db : Database) (req : RpcRequest) (s : CompatState W) (session : CompatSession)
    (query : string) (exact ci : bool) (offset limit max_xrefs : Z)
    (Hdb : SameDatabase api db) (Hs : cw_session s = Some session) (Hm : req_method req = "get_xrefs_to_string")
    (Hq : p_str (req_params req) "query" = Some query) (He : p_bool (req_params req) "exact" false = exact)
    (Hc : p_bool (req_params req) "case_insensitive" true = ci) (Ho : p_u64 (req_params req) "offset" 0 = offset)
    (Hl : p_u64 (req_params req) "limit" 100 = limit) (Hx : p_u64 (req_params req) "max_xrefs" 64 = max_xrefs)
    (Hou : in_u64 offset) (Hlu : in_u64 limit) (Hqa : no_apostrophe query = true)
    (Hlen : (Z.of_nat (length (d_strings db)) ≤ u64_max)%Z)
    (Hidat : executes (string_run (cs_database_path session) query exact ci offset limit max_xrefs) (cw_world s)) :
  ∃ r, handle_xrefs_to_string to_lowercase (Some db) query exact ci offset limit max_xrefs = Ok r ∧
       (dispatch req s).1 = RpcResponse_ok (req_id req)
         (obj [("strings", Array (string_xref_info_value <$> sxr_strings r)); ("total", vz (sxr_total r));
               ("next_offset", opt_vz (sxr_next_offset r))]).
Proof.
  set (max := Z.max 1 (Z.min max_xrefs 1024)). assert (in_u64 max) as Hmax by (unfold max, in_u64, u64_max; lia).
  pose proof (page_value_paged big_int_text "strings" (λ x, string_matches to_lowercase query exact ci x.2)
                (string_xref_info db (Z.to_nat max)) string_xref_info_value (d_strings db) offset limit Hou (proj1 Hlu) Hlen) as Hvalue.
  cbv beta in Hvalue. rewrite <-(same_string_listing db query exact ci max) in Hvalue by (done || lia).
  unfold handle_xrefs_to_string. cbn [ok_or result_bind]. fold max.
  destruct (paged _ (string_xref_info db (Z.to_nat max)) offset limit (d_strings db)) as [page total].
  eexists. split; [reflexivity|]. cbn [sxr_strings sxr_total sxr_next_offset]. rewrite <-Hvalue.
  assert (run (string_run (cs_database_path session) query exact ci offset limit max_xrefs) =
          Some (xrefs_to_string_script to_lowercase big_int_text api query exact ci offset limit max)) as Hrun
    by (unfold string_run; erewrite run_row by reflexivity; cbv beta; fold max; by read_vars).
  pose proof (value_executed _ _ _ s _ Hidat Hrun) as Hv.
  unfold dispatch_request. rewrite Hm. change (primary_name_for "get_xrefs_to_string") with "get_xrefs_to_string".
  change (arm_of "get_xrefs_to_string") with (Some (λ p : Value, need_str p "query" (λ q,
    on_session (W := W) (xrefs_to_string_with_idat idat json_parse q (p_bool p "exact" false) (p_bool p "case_insensitive" true)
      (p_u64 p "offset" 0) (p_u64 p "limit" 100) (p_u64 p "max_xrefs" 64))))).
  cbv beta iota. unfold need_str, c_bind at 1, c_lift. rewrite Hq. cbn [ok_or]. rewrite He, Hc, Ho, Hl, Hx.
  unfold on_session. rewrite Hs. unfold xrefs_to_string_with_idat. fold max. destruct (idat_value _ _ _ _ _ s) as [r s'].
  cbn in Hv. by rewrite Hv.
Qed.

(** ** Comparing two functions *)

(** The compatibility worker compares two functions as the dispatcher of the native one does,
    line by line, for texts whose lines end with newlines. *)
Theorem compat_diff_agrees (addr1 addr2 : Z) (code1 code2 : string)
    (H1 : decompile_at api addr1 = Some code1) (H2 : decompile_at api addr2 = Some code2)
    (Hu1 : unix_text code1 = true) (Hu2 : unix_text code2 = true) :
  let '(d, same, different) := diff_lines (lines code1) (lines code2) in
  diff_pseudocode_script f64_text api addr1 addr2 =
    Wrote (obj [("function1", VString code1); ("function2", VString code2);
                ("similarity_ratio", Number (Float (f64_text (py_ratio same different))));
                ("diff_lines", Array (VString <$> d))]).
Proof.
  unfold diff_pseudocode_script. rewrite H1, H2, !splitlines_lines, py_diff_lines by done.
  by destruct (diff_lines (lines code1) (lines code2)) as [[d same] different].
Qed.
End worker.

(** Only the ratios are rounded differently: with one line of eight in common Python rounds
    0.125 to the even 0.12, the dispatcher away from zero to 0.13. *)
Lemma ratio_rounding_differs : py_ratio 1 7 = f64_div (f64_of 12) (f64_of 100) ∧ similarity 1 7 = f64_div (f64_of 13) (f64_of 100).
Proof. by vm_compute. Qed.

(** ** An instance

    A database in which [main] calls a second function and a table refers to it, as both
    interfaces see it, and an [idat] that runs one script. *)

Definition call_mem (a : Z) : Z := if (a =? 4100)%Z then 144 else 0.

Definition call_refs_to (a : Z) : list PyXref :=
  if (a =? 4104)%Z then [{| px_from := 4100; px_to := 4104; px_type := 17; px_iscode := true |};
                         {| px_from := 4108; px_to := 4104; px_type := 1; px_iscode := false |}] else [].

Definition call_refs_from (a : Z) : list PyXref :=
  if (a =? 4100)%Z then [{| px_from := 4100; px_to := 4104; px_type := 17; px_iscode := true |}] else [].

Definition call_xref (x : PyXref) : XRef :=
  {| x_from := px_from x; x_to := px_to x;
     x_type := if (px_type x =? 17)%Z then NearCall else if (px_type x =? 16)%Z then FarCall else OtherRef |}.

Definition call_db : Database :=
  let db := sample_db in
  {| d_view := {| db_functions := sample_fns; db_names := [("main", 4096%Z)]; db_function_at := sample_fn_at;
                  db_xrefs_from := λ a, call_xref <$> call_refs_from a; db_xrefs_to := λ a, call_xref <$> call_refs_to a;
                  db_next_head := λ a, if (a <? 4108)%Z then Some (a + 4)%Z else None |};
     d_symbols := d_symbols db; d_closest_symbol := d_closest_symbol db; d_segments := d_segments db;
     d_segment_at := d_segment_at db; d_strings := d_strings db; d_entries := d_entries db;
     d_get_bytes := λ a n, call_mem <$> seqZ a n; d_get_byte := d_get_byte db; d_get_word := d_get_word db;
     d_get_dword := d_get_dword db; d_get_qword := d_get_qword db;
     d_xrefs_to := λ a, (λ x, {| xd_from := px_from x; xd_to := px_to x; xd_type := ""; xd_code := px_iscode x |}) <$> call_refs_to a;
     d_xrefs_from := d_xrefs_from db; d_guess_type := d_guess_type db; d_disasm_line := d_disasm_line db;
     d_insn_len := λ _, None; d_find_text := d_find_text db; d_find_imm := d_find_imm db;
     d_decompiler_available := true; d_decompile := d_decompile db; d_udt_ordinal_limit := d_udt_ordinal_limit db;
     d_udt_info := d_udt_info db; d_udt_member := d_udt_member db; d_udt_member_tid := d_udt_member_tid db;
     d_xrefs_to_tid := d_xrefs_to_tid db; d_local_type_info := d_local_type_info db; d_frame_info := d_frame_info db;
     d_frame_member := d_frame_member db; d_blocks := d_blocks db; d_meta := d_meta db |}.

Definition call_api : Api :=
  {| ap_BADADDR := u64_max; ap_SEGPERM_READ := 4; ap_SEGPERM_WRITE := 2; ap_SEGPERM_EXEC := 1; ap_XREF_ALL := 0;
     ap_fl_CN := 17; ap_fl_CF := 16; ap_func_qty := 2; ap_getn_func := λ i, pyfunc_of <$> sample_fns !! i;
     ap_func_name := λ a, if (a =? 4096)%Z then Some "main" else None;
     ap_get_func := λ a, pyfunc_of <$> sample_fn_at a; ap_functions := [4096; 4104]%Z;
     ap_find_func_end := λ a, (a + 8)%Z; ap_func_items := λ a, [a; a + 4]%Z; ap_disasm_line := sample_line;
     ap_next_head := λ a, if (a <? 4108)%Z then (a + 4)%Z else u64_max; ap_segm_qty := 1;
     ap_getnseg := λ _, Some {| pg_start := 4096; pg_end := 4112; pg_perm := 5; pg_type := 2; pg_bitness := 1;
                                pg_name := Some ".text" |};
     ap_getseg := λ _, None; ap_get_name := λ _, None;
     ap_strings := [{| pt_ea := 12288; pt_text := Some "hello"; pt_length := 5 |};
                    {| pt_ea := 12296; pt_text := Some "world"; pt_length := 5 |}];
     ap_names := [(4096%Z, "main"); (8192%Z, "puts")]; ap_imports := []; ap_entry_qty := 0; ap_entry_ordinal := λ _, 0%Z;
     ap_entry := λ _, 0%Z; ap_entry_name := λ _, None; ap_get_bytes := λ a n, Some (call_mem <$> seqZ a n);
     ap_strlit := λ _ _, None; ap_xrefs_to := λ a _, call_refs_to a; ap_xrefs_from := λ a _, call_refs_from a;
     ap_is_64bit := true; ap_is_32bit_exactly := false; ap_baseaddr := None; ap_init_hexrays := true;
     ap_decompile := λ f, Ok (if (pf_start f =? 4096)%Z then "int main()" +:+ newline +:+ "{}" else "void sub()" +:+ newline +:+ "{}", []);
     ap_exec := λ _, (ExecDone, "", "") |}.

Lemma call_fn a fn : sample_fn_at a = Some fn → fn ∈ sample_fns.
Proof.
  unfold sample_fn_at. destruct (list_find _ _) as [[i x]|] eqn:E; [|done]. intros [= <-].
  apply list_find_Some in E as (E & _). by apply list_elem_of_lookup_2 in E.
Qed.

Lemma call_same : SameDatabase call_api call_db.
Proof.
  assert (∀ fn, fn ∈ sample_fns → fn = sample_fn 4096 4104 (Some "main") ∨ fn = sample_fn 4104 4112 None) as Hfns.
  { intros fn Hfn. unfold sample_fns in Hfn. rewrite !elem_of_cons, elem_of_nil in Hfn. naive_solver. }
  split.
  - reflexivity.
  - reflexivity.
  - intros fn Hfn. assert (fn ∈ sample_fns) as Hin by (destruct Hfn as [|[a Ha]]; [done|by eapply call_fn]).
    destruct (Hfns fn Hin) as [->| ->]; (split; [reflexivity|]; split; [reflexivity|]; split; vm_compute; discriminate).
  - intros a fn Ha. apply call_fn, Hfns in Ha as [->| ->]; reflexivity.
  - intros a. cbn [ap_disasm_line call_api]. change (d_disasm_line call_db a) with (sample_line a). unfold sample_line.
    repeat case_bool_decide; reflexivity.
  - intros a. unfold next_ea. cbn [ap_next_head ap_BADADDR call_api]. unfold next_head. cbn [d_view call_db db_next_head].
    destruct (Z.ltb_spec a 4108); [|by rewrite Z.eqb_refl].
    rewrite (proj2 (Z.eqb_neq _ _)) by (unfold u64_max; lia). by rewrite (proj2 (Z.leb_gt _ _)) by lia.
  - intros fn a Ha. apply call_fn, Hfns in Ha as [->| ->]; reflexivity.
  - reflexivity.
  - reflexivity.
  - intros a. cbn [d_xrefs_to call_db]. by rewrite <-list_fmap_compose.
  - reflexivity.
  - reflexivity.
  - reflexivity.
Qed.

(** [idat] that runs one script and leaves its output in a file. *)
Definition scripted_idat (_ : Invocation) (w : unit) : IdatRun * unit :=
  ({| ir_find := Ok "idat"; ir_write := Ok tt;
      ir_process := Ok {| po_success := true; po_status := "0"; po_stderr := ""; po_stdout := "" |};
      ir_log := None; ir_output := Ok "output" |}, w).

Definition scripted_run (inv : Invocation) : option PyEnd :=
  run_invocation id (λ _, "") (λ _, "") fmt_dec (λ _, None) call_api (λ _, None) inv.

Definition scripted_parse (inv : Invocation) (_ : string) : result Value string :=
  match scripted_run inv with Some (Wrote v) => Ok v | _ => Err "no output" end.

Lemma scripted_executes inv :
  executes scripted_idat (scripted_parse inv) id (λ _, "") (λ _, "") fmt_dec (λ _, None) (λ _, None) call_api inv tt.
Proof.
  intros v Hv. exists "output". split; [reflexivity|]. unfold scripted_parse, scripted_run. by rewrite Hv.
Qed.

Definition scripted_dispatch (inv : Invocation) : RpcRequest → CompatState unit → RpcResponse * CompatState unit :=
  dispatch_request scripted_idat (λ _ _, true) (λ _ w, (Ok tt, w)) (λ _, None) (λ _ _ w, w) id (scripted_parse inv)
    (λ _, Ok "") (λ _, "") (λ _, Ok "user.py").

Definition call_info : Struct DbInfoFields :=
  @MkStruct DbInfoFields
    ("/a.i64", ("ELF", ("metapc", (64%Z, (2%Z, (None,
      (@MkStruct AnalysisStatusFields (true, (true, ("AU_NONE", (0%Z, (false, tt))))), tt))))))).

Definition call_session : CompatSession := {| cs_database_path := "/a.i64"; cs_info := call_info |}.
Definition call_state : CompatState unit := {| cw_session := Some call_session; cw_world := tt |}.

Definition call_request (method : string) (params : list (string * Value)) : RpcRequest :=
  {| req_jsonrpc := "2.0"; req_id := "1"; req_method := method; req_params := obj params |}.


Lemma compat_callees_agree_witness :
  (scripted_dispatch (address_run "/a.i64" "callees" 4096) (call_request "get_callees" [("address", vz 4096)]) call_state).1 =
    RpcResponse_ok "1" (Array [function_info_value {| fi_address := "0x1008"; fi_name := "sub_1008"; fi_size := 8 |}]).
Proof.
  refine (compat_callees_agree scripted_idat (λ _ _, true) (λ _ w, (Ok tt, w)) (λ _, None) (λ _ _ w, w) id
            (scripted_parse (address_run "/a.i64" "callees" 4096)) (λ _, Ok "") (λ _, "") (λ _, Ok "user.py") id (λ _, "")
            (λ _, "") fmt_dec (λ _, None) (λ _, None) call_api call_db (call_request "get_callees" [("address", vz 4096)])
            call_state call_session 4096 call_same eq_refl eq_refl eq_refl _ (scripted_executes _)).
  split; vm_compute; discriminate.
Defined.

Lemma compat_callers_cover_witness :
  ∃ l', (scripted_dispatch (address_run "/a.i64" "callers" 4104) (call_request "get_callers" [("address", vz 4104)]) call_state).1 =
          RpcResponse_ok "1" (Array (function_info_value <$> l')) ∧
        (∀ i, i ∈ [{| fi_address := "0x1000"; fi_name := "main"; fi_size := 8%Z |}] → i ∈ l').
Proof.
  destruct (compat_callers_cover scripted_idat (λ _ _, true) (λ _ w, (Ok tt, w)) (λ _, None) (λ _ _ w, w) id
              (scripted_parse (address_run "/a.i64" "callers" 4104)) (λ _, Ok "") (λ _, "") (λ _, Ok "user.py") id (λ _, "")
              (λ _, "") fmt_dec (λ _, None) (λ _, None) call_api call_db (call_request "get_callers" [("address", vz 4104)])
              call_state call_session 4104 (sample_fn 4104 4112 None)
              [{| fi_address := "0x1000"; fi_name := "main"; fi_size := 8 |}] call_same eq_refl eq_refl eq_refl)
    as (l' & H1 & H2 & _); [split; vm_compute; discriminate|reflexivity|reflexivity|apply scripted_executes|].
  by exists l'.
Defined.

Lemma compat_search_bytes_agrees_witness :
  (scripted_dispatch (search_run "/a.i64" "90 ??" 10)
     (call_request "search_bytes" [("pattern", VString "90 ??"); ("limit", vz 10)]) call_state).1 =
    RpcResponse_ok "1" (obj [("matches", Array [byte_match (4100, [144; 0])%Z]); ("count", vnat 1)]).
Proof.
  destruct (compat_search_bytes_agrees scripted_idat (λ _ _, true) (λ _ w, (Ok tt, w)) (λ _, None) (λ _ _ w, w) id
              (scripted_parse (search_run "/a.i64" "90 ??" 10)) (λ _, Ok "") (λ _, "") (λ _, Ok "user.py") id (λ _, "") (λ _, "")
              fmt_dec (λ _, None) (λ _, None) call_api call_db
              (call_request "search_bytes" [("pattern", VString "90 ??"); ("limit", vz 10)]) call_state call_session call_mem
              "90 ??" [Some 144%Z; None] 10 call_same eq_refl eq_refl eq_refl eq_refl eq_refl)
    as [_ H]; [split; vm_compute; discriminate|reflexivity|reflexivity|reflexivity|discriminate|reflexivity|
               apply scripted_executes|exact H].
Defined.

Lemma compat_disasm_agrees_witness :
  (scripted_dispatch (disasm_run "/a.i64" 4104 9) (call_request "disassemble" [("address", vz 4104); ("count", vz 9)]) call_state).1 =
    RpcResponse_ok "1" (obj [("disasm", VString (str_join newline [disasm_text 4104 "mov     r1, r2"; disasm_text 4108 "ret"]))]).
Proof.
  refine (compat_disasm_agrees scripted_idat (λ _ _, true) (λ _ w, (Ok tt, w)) (λ _, None) (λ _ _ w, w) id
            (scripted_parse (disasm_run "/a.i64" 4104 9)) (λ _, Ok "") (λ _, "") (λ _, Ok "user.py") id (λ _, "") (λ _, "")
            fmt_dec (λ _, None) (λ _, None) call_api call_db
            (call_request "disassemble" [("address", vz 4104); ("count", vz 9)]) call_state call_session 4104 9 call_same _
            eq_refl eq_refl eq_refl _ eq_refl _ (scripted_executes _));
    [|split; vm_compute; discriminate|split; vm_compute; discriminate].
  intros a line _. reflexivity.
Defined.

Lemma compat_string_xrefs_agree_witness :
  ∃ r, handle_xrefs_to_string id (Some call_db) "o" false true 0 1 64 = Ok r ∧
       (scripted_dispatch (string_run "/a.i64" "o" false true 0 1 64)
          (call_request "get_xrefs_to_string" [("query", VString "o"); ("limit", vz 1)]) call_state).1 =
         RpcResponse_ok "1" (obj [("strings", Array (string_xref_info_value <$> sxr_strings r)); ("total", vz (sxr_total r));
                                  ("next_offset", opt_vz (sxr_next_offset r))]).
Proof.
  refine (compat_string_xrefs_agree scripted_idat (λ _ _, true) (λ _ w, (Ok tt, w)) (λ _, None) (λ _ _ w, w) id
            (scripted_parse (string_run "/a.i64" "o" false true 0 1 64)) (λ _, Ok "") (λ _, "") (λ _, Ok "user.py") id (λ _, "")
            (λ _, "") fmt_dec (λ _, None) (λ _, None) call_api call_db
            (call_request "get_xrefs_to_string" [("query", VString "o"); ("limit", vz 1)]) call_state call_session "o" false true
            0 1 64 call_same eq_refl eq_refl eq_refl eq_refl eq_refl eq_refl eq_refl eq_refl _ _ eq_refl _ (scripted_executes _));
    [split; vm_compute; discriminate|split; vm_compute; discriminate|vm_compute; discriminate].
Defined.

Lemma compat_diff_agrees_witness :
  diff_pseudocode_script (λ _, "") call_api 4096 4104 =
    Wrote (obj [("function1", VString ("int main()" +:+ newline +:+ "{}"));
                ("function2", VString ("void sub()" +:+ newline +:+ "{}")); ("similarity_ratio", Number (Float ""));
                ("diff_lines", Array (VString <$> ["- int main()"; "+ void sub()"; "  {}"]))]).
Proof.
  exact (compat_diff_agrees (λ _, "") call_api 4096 4104 ("int main()" +:+ newline +:+ "{}") ("void sub()" +:+ newline +:+ "{}")
           eq_refl eq_refl eq_refl eq_refl).
Defined.

(** ** Where the scripts promise something else *)

(** A pattern without blanks is one number to the script, and no byte is that number; a
    pattern of nothing is everywhere, where the native search refuses it. *)
Lemma patterns_read_differently :
  parse_pattern "9090" = Ok [Some 144%Z; Some 144%Z] ∧ needle_of "9090" = Some [Some 37008%Z] ∧
  parse_pattern "" = Err (IdaError "empty pattern") ∧
  search_bytes_script call_api "" 2 = Wrote (obj [("matches", Array [byte_match (4096%Z, []); byte_match (4097%Z, [])]);
                                                  ("count", vnat 2)]).
Proof. repeat split. Qed.

(** The filter of the script distinguishes cases, the native one does not. *)
Lemma filters_differ :
  py_passes (Some "Main") "main" = false ∧ passes to_ascii_lowercase (Some "Main") "main" = true.
Proof. split; reflexivity. Qed.
